(* ===== verification/_CoqProject ===== *)
-Q . S2P
Prelude.v
Threads.v
Float64.v
Float64Round.v
Float64Arith.v
Float64Ops.v
Float64Order.v
Float64Facts.v
Clocks.v
Crc32.v
Wire.v
Packets.v
PacketCodec.v
TeleopStateBuffer.v
FeedbackStateBuffer.v
Safety.v
LinkCheck.v
BilateralGate.v
BilateralEngager.v
RuntimeControl.v
Udp.v
RobotState.v
Dynamics.v
Control.v
ControlFacts.v
NumParse.v
Logging.v
AppCommon.v
Float32.v
LeaderApp.v
LeaderFacts.v
LeaderThreads.v
LeaderInterleavings.v
LeaderDefined.v
LeaderAlone.v
FollowerApp.v
FollowerFacts.v
FollowerThreads.v
FollowerInterleavings.v
FollowerDefined.v
FollowerAlone.v
EndToEnd.v
Swivel.v
Ik.v
IkFacts.v
Yaml.v
YamlFacts.v
VrConfig.v
VrConfigFacts.v
VrLeader.v
VrFacts.v
VrTotal.v
VrThreads.v
VrInterleavings.v
VrAlone.v
EndToEndVr.v
PeriodicTimer.v
SinglePc.v
Startup.v
StartupFacts.v
CommTest.v
DemoPrograms.v
DemoFacts.v
Args.v
Fanout.v
TelemetryTools.v
SingleApp.v
SingleFacts.v
SingleThreads.v
Programs.v
ProgramFacts.v
Workers.v
WorkerThreads.v
ControlServer.v
ServerAnswers.v
EndToEndControl.v
Lifetimes.v
UnitTests.v
Locks.v
LockPrograms.v
