(* ===== verification/Prelude.v ===== *)
(** * OpenArm Wi-Fi teleoperation: a verification library

    The repository holds the programs of a teleoperated two-arm robot. A
    _leader_ reads the joints of two arms an operator moves by hand and sends
    them over UDP; a _follower_ on another computer receives them, supervises the
    link and moves two arms accordingly. A second leader takes the poses of a VR
    headset instead and computes joint targets with inverse kinematics. The
    follower can send joint positions back, which the leader renders as force
    once a gate has found the link good enough. Both programs can be commanded at
    run time over a text socket and publish telemetry.

    ** Parts and files

    Machine arithmetic. [Float64] models [double] and [float] (IEEE 754, round to
    nearest even) on the Standard Library's [SpecFloat]; [Float64Round],
    [Float64Arith], [Float64Ops], [Float64Order] and [Float64Facts] prove its
    operations correctly rounded and ordered, and [Float32] the conversions between
    the two formats. Machine integers are [Z] with their
    wrap-around written out ([u8], [u16], [u32], [u64] of this file).

    Network ([src/src/net/], [src/include/.../net/], [.../telemetry/]). [Crc32] and
    [PacketCodec] are [packet_codec.cpp]; [Wire] is the class of packed structures
    with its byte layout, instantiated in [Packets] for the four packet types;
    [Udp] is [udp_receiver.cpp], [udp_sender.cpp] and the telemetry publisher.
    [LinkCheck] is [link_check.cpp] and [network.cpp] over what the operating
    system reports.

    State and safety ([src/src/core/], [src/src/safety/]). [TeleopStateBuffer] and
    [FeedbackStateBuffer] keep the latest packet and the link statistics;
    [Safety] is the watchdog, the safety state machine and the rate limiter;
    [BilateralGate] decides when force feedback may be applied and
    [BilateralEngager] ramps it; [RuntimeControl] is the text command
    server.

    Arms ([src/src/controller/], [src/src/openarm_port/]). [RobotState] and
    [Dynamics] wrap joint states and the rigid-body solver; [Control] is
    [control.cpp], one arm's cycles ([ControlFacts] proves it); [Startup] brings
    arms up ([openarm_init.cpp], [joint_mapper.cpp] and the start of [main]);
    [PeriodicTimer] is [periodic_timer_thread.hpp]. [Logging] is [logging.cpp].

    VR ([src/src/ik/], [.../control/]). [Swivel] and [Ik] are the swivel estimator
    and the Pinocchio-based solver; [VrConfig] and [VrLeader] are
    [wifi_vr_bimanual_leader.cpp]; [VrConfigFacts] relates its settings to the
    files they are read from.

    Programs ([src/src/apps/]). [Args] and [Yaml] read command lines and
    configuration files, [NumParse] and [AppCommon] are what the bimanual
    programs share, [LeaderApp] and [FollowerApp] are their main loops and
    handlers as single steps, [SingleApp] the one-arm programs. [Programs] puts
    arguments, settings, sockets, start-up, loop and shutdown together: the five
    [main] functions from the command line to the exit code. [EndToEnd] composes
    leader, wire and follower, [EndToEndVr] VR leader, follower and the telemetry
    between them. [EndToEndControl] composes the command server with the
    follower's handlers.

    Threads. [Threads] is a small language of programs whose steps are critical
    sections and atomic accesses, pools of them under arbitrary schedules, and a
    rely/guarantee calculus. [FollowerThreads], [LeaderThreads] and [VrThreads] are
    the follower, the leader and the VR leader in it, access by access; for each, a
    file [...Interleavings] proves safety under every schedule, [...Defined] that no
    access is undefined (for the VR leader [VrInterleavings] proves both), and
    [...Alone] that the programs without interruption are the steps of [FollowerApp],
    [LeaderApp] and [VrLeader]. [SingleThreads] is the single follower, with the proof
    that its cycles can be taken to be atomic.

    Objects with a thread. [Workers] is what the receivers, the timers and the
    command server have in common: a loop that looks at a flag, [start] and [stop],
    with the laws the loop has to satisfy and what the owner gets; [WorkerThreads]
    instantiates it with the receive loop and the periodic timer, [ControlServer] with
    the accept loop of the command server and its clients, [ServerAnswers] bounds the
    time a command waits. [Lifetimes] follows the local variables of the [main]
    functions and what the callbacks refer to. [Clocks] is [time.hpp]. [Locks] is a
    language of [lock_guard] scopes, branches, loops, thread creation and [join] with
    its discipline against circular waits, [LockPrograms] the programs in it, function
    by function.

    One computer ([src/control/]). [SinglePc] is the control phase of the
    bilateral and unilateral programs, three timer threads over shared robot
    states; [DemoPrograms] their [main] and gravity compensation, [CommTest] the test of the
    CAN communication.

    Tools and tests ([src/tools/], [src/tests/]). [Fanout] is the UDP relay,
    [TelemetryTools] the mock publisher and the sample receiver; [UnitTests] runs
    the repository's googletests on the model.

    A file named [...Facts], [VrTotal], [ServerAnswers] or [EndToEnd...] holds theorems about the
    files it is named after; the smaller components carry their theorems
    themselves.

    ** How programs are modelled

    State is a record per class or per [main], with its fields under the code's
    names, and an operation is a function on it. What can throw or is undefined
    behaviour (an index out of range, a null pointer, a conversion out of range)
    is an [outcome] of this file: [Ok], [Throw] with the text, or [Undef]; a
    theorem that concludes [Ok] says that neither happens. Start-up and [main]
    additionally record the calls on the arm library ([StartOf] of [Startup]) and
    end with the loop entered, an exit code, an exception, [Undefined] or
    [Blocked]: the destructor of the command server at the end of a [main] joins
    the server's thread, and whether that join returns ([wd_server_joins]) is an
    input of the programs, because a silent client can keep the thread for ever
    ([server_stops]).

    An iteration of a main loop, a control handler and a socket callback are one
    step each in [LeaderApp], [FollowerApp], [VrLeader] and [SingleApp], and
    programs are any interleaving of such steps ([leader_run], [follower_run],
    [vr_run]: lists of events). For the bimanual leader, the follower and the VR
    leader the threads are also modelled access by access, with any interleaving of
    the accesses to what they share; the one-step models are shown to be special
    cases ([leader_run_is_execution], [atomic_run_is_execution],
    [vr_run_is_execution]). [SinglePc] has the three threads of one computer
    interleave at every access to a shared vector. The cycles of the single follower
    are atomic: each of its interleavings is equivalent to a sequence of cycles
    ([single_cycles_linearise]); the single leader shares nothing but
    [keep_running]. Accesses that the code leaves
    unsynchronised are atomic in the model, too. Clock readings, motor readings and
    what the operating system answers are inputs of the steps, so theorems hold for
    all of them.

    Code that is not in the repository is a parameter: [std::tanh], [sin], [cos],
    [pow] and [stod], the KDL and Pinocchio models, Eigen's matrix products,
    yaml-cpp, the CAN motor library and the sockets. Hypotheses about them are
    named where they are used and are satisfied by the concrete instances of the
    witnesses. Expressions on [double] are evaluated as written, without fused
    operations or wider intermediates.

    Recursion is structural, except for the carry loop of [PeriodicTimer], which
    is well-founded on the nanoseconds left. [read_doubles] takes the length of
    the text as fuel and [ik_iterate] the number of iterations the code allows;
    both are shown to be enough by the theorems about them.

    ** What is proved

    Safety: an operator's stop halts the follower until it is reset or a pose
    move ends; an initial or recovery move in progress it does not stop
    ([follower_estop_disables], [software_estop_latched], [stop_needs_operator]),
    whatever the interleaving of its threads ([estop_any_interleaving]); the
    initial and the recovery move have the motors to themselves
    ([moves_exclude_loop]); disabling or stopping the leader lets at most one more
    packet per arm through ([leader_off_any_interleaving]); ACTIVE needs a fresh
    enabling packet; every torque of the leader is finite and bounded; force
    feedback needs a request, a gate and aligned poses; the VR leader bounds the
    joint steps of enabled packets and stops within one packet per arm, whatever the
    interleaving ([vr_any_interleaving]).

    Programs: what every exit code says about the motors ([startup_outcomes],
    [exit_codes], [demo_exit_codes], [gravity_program]), that a stop request ends
    the loops with the motors off, and the programs as well unless a pose move
    still runs on objects that [main] destroys or the command server's thread does
    not end ([shutdown_stops]), that the VR leader, for a rate that is a period, and
    the bilateral program do not fail once they run ([vr_program_total],
    [demo_keeps_control]).

    Objects with a thread: between the return of [stop] and the next [start] no
    callback runs, and [stop] returns ([receiver_stops], [timer_stops], [server_stops]);
    the command server answers one request after the other, in the order of the
    connections ([server_in_order]), each within a bounded number of turns
    ([server_answers]), in which a command takes effect on the follower
    ([command_takes_effect]), unless a client connects and sends nothing, which keeps every
    other command and [stop] waiting ([server_stops]); callbacks refer to living
    variables, except for the follower's status command ([callbacks_in_scope]); no
    schedule deadlocks the threads, but a signal can ([deadlock_needs_signal]).

    Composition: a leader cycle's packet is validated by the follower or, when
    damaged by a burst, dropped, and moves its motors within the rate limit
    ([command_reaches_motors], [vr_command_reaches_motors]); the follower's
    telemetry is what the VR leader starts its holds from ([telemetry_reaches_vr]);
    the arms of the bilateral program follow whole postures of each other in every
    interleaving ([pc_mirrors_postures]), and in the unilateral program the
    operator's arm is independent of the other ([unilateral_leader_independent]); the
    relay changes no datagram
    ([relay_transparent]).

    Function: every cycle and handler on every branch; codec and number round
    trips; buffers against their full history; the gate against its documented
    rule; the single-arm follower against the bimanual one
    ([single_follower_refines]); the timer against its
    ideal schedule; the results of the unit tests ([suite_results]).

    Totality and shapes: cycles, pose moves, the solver and whole VR runs neither
    throw nor leave their arrays ([move_to_pose_reaches] says what a pose move
    sends), nor do the threads of the leaders and the follower
    under any schedule as long as the received packets' degrees of freedom fit their
    arrays, which the receivers do not check ([leader_threads_defined],
    [threads_defined]; for the VR leader [vr_any_interleaving]); settings and
    command lines keep their types and fail towards "off", and a configuration file
    of the VR leader sets what it names and nothing else ([vr_config_file]).

    Where the code departs from its documents or from what it means to do, a
    theorem states what it does; the doc comments of those theorems say so.

    ** What is not modelled

    What the programs log, CSV output and [std::cout] status lines, which only read
    state; the failure of thread creation, scheduling priorities, a second
    [start_thread] of a running timer; a reply that fills the send buffer; the locks inside the C++
    runtime; shell and
    Python scripts. *)

From stdpp Require Export base tactics option list numbers strings.
From Stdlib Require Export ZArith Lia Bool.

#[export] Set Default Goal Selector "!".
#[export] Set Default Proof Using "Type".
#[export] Set Warnings "-clear-no-such-hyp".

Open Scope Z_scope.

(** ** Notations *)

Declare Scope teleop_scope.
Delimit Scope teleop_scope with teleop.

(** ** Machine integers *)

(** A [w]-bit unsigned integer is a [Z] in [0, 2^w); every operation that can
    leave that range is followed by [wrap]. *)
Definition wrap (w : Z) (x : Z) : Z := x mod 2 ^ w.
Definition in_width (w : Z) (x : Z) : Prop := 0 <= x < 2 ^ w.

Abbreviation u8 := (wrap 8).
Abbreviation u16 := (wrap 16).
Abbreviation u32 := (wrap 32).
Abbreviation u64 := (wrap 64).

Create HintDb teleop discriminated.
Create Rewrite HintDb teleop.

Lemma wrap_range w x : 0 <= w -> in_width w (wrap w x).
Proof. intros Hw. apply Z.mod_pos_bound, Z.pow_pos_nonneg; lia. Qed.

Lemma wrap_small w x : in_width w x -> wrap w x = x.
Proof. apply Z.mod_small. Qed.

Lemma wrap_idemp w x : 0 <= w -> wrap w (wrap w x) = wrap w x.
Proof. intros Hw. by apply wrap_small, wrap_range. Qed.

Lemma wrap_add_l w x y : wrap w (wrap w x + y) = wrap w (x + y).
Proof. apply Zplus_mod_idemp_l. Qed.

Lemma wrap_add_r w x y : wrap w (x + wrap w y) = wrap w (x + y).
Proof. apply Zplus_mod_idemp_r. Qed.

#[export] Hint Resolve wrap_range : teleop.
#[export] Hint Extern 1 (0 <= _) => lia : teleop.

(** Case analysis on every [if]/[match] scrutinee of the goal, closing the
    contradictory branches. *)
Ltac split_ifs :=
  repeat match goal with
    | |- context [match ?x with _ => _ end] => destruct x eqn:?; simpl in *; simplify_eq
    end.

Ltac bool_prop :=
  repeat match goal with
    | H : _ && _ = true |- _ => apply andb_true_iff in H as [? ?]
    | H : _ && _ = false |- _ => apply andb_false_iff in H
    | H : _ || _ = false |- _ => apply orb_false_iff in H as [? ?]
    | H : _ || _ = true |- _ => apply orb_true_iff in H
    | H : negb _ = true |- _ => apply negb_true_iff in H
    | H : negb _ = false |- _ => apply negb_false_iff in H
    | H : (_ =? _) = true |- _ => apply Z.eqb_eq in H
    | H : (_ =? _) = false |- _ => apply Z.eqb_neq in H
    | H : (_ <? _) = true |- _ => apply Z.ltb_lt in H
    | H : (_ <? _) = false |- _ => apply Z.ltb_ge in H
    | H : (_ <=? _) = true |- _ => apply Z.leb_le in H
    | H : (_ <=? _) = false |- _ => apply Z.leb_gt in H
    end.

(** [in_width] of a closed term. *)
Ltac const_width := vm_compute; split; [discriminate|reflexivity].

(** ** Bits *)

Lemma testbit_in_width w x i : in_width w x -> w <= i -> Z.testbit x i = false.
Proof.
  intros Hx Hi. rewrite <- (wrap_small w x Hx). apply Z.mod_pow2_bits_high.
  destruct (Z.lt_ge_cases w 0) as [Hw|]; [|lia].
  exfalso. destruct Hx as [? Hx]. rewrite Z.pow_neg_r in Hx by done. lia.
Qed.

Lemma in_width_bits w x :
  0 <= w -> 0 <= x -> (forall i, w <= i -> Z.testbit x i = false) -> in_width w x.
Proof.
  intros Hw Hx Hb. split; [done|].
  destruct (decide (x = 0)) as [->|Hn]; [apply Z.pow_pos_nonneg; lia|].
  apply Z.log2_lt_pow2; [lia|].
  destruct (Z.lt_ge_cases (Z.log2 x) w) as [?|Hge]; [done|].
  specialize (Hb _ Hge). rewrite Z.bit_log2 in Hb by lia. done.
Qed.

Lemma in_width_lxor w x y : 0 <= w -> in_width w x -> in_width w y -> in_width w (Z.lxor x y).
Proof.
  intros Hw Hx Hy. apply in_width_bits; [done| |].
  - apply Z.lxor_nonneg. destruct Hx, Hy. lia.
  - intros i Hi. rewrite Z.lxor_spec, !(testbit_in_width w); done.
Qed.

Lemma in_width_land_l w x y : 0 <= w -> in_width w x -> in_width w (Z.land x y).
Proof.
  intros Hw Hx. apply in_width_bits; [done| |].
  - apply Z.land_nonneg. destruct Hx. lia.
  - intros i Hi. rewrite Z.land_spec, (testbit_in_width w x); done.
Qed.

Lemma in_width_shiftr w x n : 0 <= w -> 0 <= n -> in_width w x -> in_width w (Z.shiftr x n).
Proof.
  intros Hw Hn [H0 H1]. rewrite Z.shiftr_div_pow2 by done. split.
  - apply Z.div_pos; [done|]. by apply Z.pow_pos_nonneg.
  - eapply Z.le_lt_trans; [|exact H1].
    apply Z.div_le_upper_bound; [by apply Z.pow_pos_nonneg|].
    assert (1 <= 2 ^ n) by (apply (Z.pow_le_mono_r 2 0 n); lia). nia.
Qed.

Lemma in_width_mono w w' x : w <= w' -> in_width w x -> in_width w' x.
Proof.
  intros Hw [H0 H1]. split; [done|]. eapply Z.lt_le_trans; [done|].
  apply Z.pow_le_mono_r; lia.
Qed.

#[export] Hint Resolve in_width_lxor in_width_land_l in_width_shiftr : teleop.

(** Equality of integers bit by bit: introduces a nonnegative index and
    rewrites with the bit specifications. *)
Ltac bitwise i Hi :=
  apply Z.bits_inj'; intros i Hi;
  rewrite ?Z.lxor_spec, ?Z.land_spec, ?Z.lor_spec;
  rewrite ?Z.shiftr_spec, ?Z.shiftl_spec by lia.

(** ** Little-endian byte strings *)

Abbreviation is_byte := (in_width 8).

(** The [n] bytes of [v], least significant first: how a packed struct stores
    an [8*n]-bit field on the little-endian hosts the protocol assumes. *)
Fixpoint le_bytes (n : nat) (v : Z) : list Z :=
  match n with
  | O => []
  | S n' => v mod 256 :: le_bytes n' (v / 256)
  end.

Fixpoint le_value (bs : list Z) : Z :=
  match bs with
  | [] => 0
  | b :: bs' => b + 256 * le_value bs'
  end.

Lemma length_le_bytes n v : length (le_bytes n v) = n.
Proof. revert v. induction n as [|n IH]; intros v; simpl; [done|]. by rewrite IH. Qed.

Lemma le_bytes_bytes n v : Forall is_byte (le_bytes n v).
Proof.
  revert v. induction n as [|n IH]; intros v; simpl; constructor; [|done].
  apply (wrap_range 8). lia.
Qed.

Lemma le_value_bytes n v : le_value (le_bytes n v) = v mod 2 ^ (8 * Z.of_nat n).
Proof.
  revert v. induction n as [|n IH]; intros v.
  - by rewrite Z.mod_1_r.
  - simpl le_bytes. simpl le_value. rewrite IH.
    replace (8 * Z.of_nat (S n)) with (8 + 8 * Z.of_nat n) by lia.
    rewrite Z.pow_add_r by lia. change (2 ^ 8) with 256.
    rewrite Z.rem_mul_r; [lia|lia|]. apply Z.pow_pos_nonneg; lia.
Qed.

Lemma le_value_bytes_small n v :
  in_width (8 * Z.of_nat n) v -> le_value (le_bytes n v) = v.
Proof. intros Hv. rewrite le_value_bytes. by apply Z.mod_small. Qed.

Lemma le_value_range bs : Forall is_byte bs -> in_width (8 * Z.of_nat (length bs)) (le_value bs).
Proof.
  induction 1 as [|b bs [Hb0 Hb1] _ [IH0 IH1]]; simpl length; [done|].
  replace (8 * Z.of_nat (S (length bs))) with (8 + 8 * Z.of_nat (length bs)) by lia.
  unfold in_width. rewrite Z.pow_add_r by lia. change (2 ^ 8) with 256 in *.
  simpl le_value. split; nia.
Qed.

Lemma le_bytes_value bs : Forall is_byte bs -> le_bytes (length bs) (le_value bs) = bs.
Proof.
  induction 1 as [|b bs [Hb0 Hb1] _ IH]; simpl; [done|]. change (2 ^ 8) with 256 in *.
  rewrite (Z.mul_comm 256), Z.mod_add, Z.div_add, Z.mod_small, Z.div_small, Z.add_0_l by lia.
  by rewrite IH.
Qed.

Lemma le_value_inj bs bs' :
  length bs = length bs' -> Forall is_byte bs -> Forall is_byte bs' ->
  le_value bs = le_value bs' -> bs = bs'.
Proof.
  intros Hl Hb Hb' Hv.
  by rewrite <- (le_bytes_value bs Hb), <- (le_bytes_value bs' Hb'), Hl, Hv.
Qed.

#[export] Hint Resolve le_bytes_bytes : teleop.
#[export] Hint Rewrite length_le_bytes : teleop.

(** ** Lists *)

Lemma fold_left_cons {A B} (f : A -> B -> A) b l a :
  fold_left f (b :: l) a = fold_left f l (f a b).
Proof. done. Qed.

Lemma Forall_concat_map {A B} (P : B -> Prop) (f : A -> list B) (l : list A) :
  (forall a, Forall P (f a)) -> Forall P (concat (map f l)).
Proof.
  intros Hf. induction l as [|a l IH]; simpl; [constructor|]. apply Forall_app. by split.
Qed.

Lemma length_concat_map {A B} (f : A -> list B) (l : list A) n :
  (forall a, length (f a) = n) -> length (concat (map f l)) = (n * length l)%nat.
Proof.
  intros Hf. induction l as [|a l IH]; simpl; [lia|]. rewrite length_app, Hf, IH. lia.
Qed.

(** Writing cell [i] of a C array: outside the array the write is undefined
    behaviour in the source; callers guard the index. *)
Fixpoint set_nth {A} (i : nat) (x : A) (l : list A) : list A :=
  match l, i with
  | [], _ => []
  | _ :: l', O => x :: l'
  | y :: l', S i' => y :: set_nth i' x l'
  end.

Lemma length_set_nth {A} i (x : A) l : length (set_nth i x l) = length l.
Proof. revert i. induction l as [|y l IH]; intros [|i]; simpl; auto. Qed.

#[export] Hint Rewrite @length_set_nth : teleop.

(** ** Packed structures *)

(** A packed structure is the concatenation of its fields; [ws] are the field
    widths in bytes, in declaration order, arrays element by element. *)
Fixpoint pack (ws : list nat) (vs : list Z) : list Z :=
  match ws, vs with
  | w :: ws', v :: vs' => le_bytes w v ++ pack ws' vs'
  | _, _ => []
  end.

Fixpoint unpack (ws : list nat) (bs : list Z) : list Z :=
  match ws with
  | [] => []
  | w :: ws' => le_value (take w bs) :: unpack ws' (drop w bs)
  end.

Definition fits (ws : list nat) (vs : list Z) : Prop :=
  Forall2 (fun w v => in_width (8 * Z.of_nat w) v) ws vs.

#[export] Instance fits_dec ws vs : Decision (fits ws vs).
Proof. apply Forall2_dec. intros w v. unfold in_width. apply _. Defined.

Lemma length_pack ws vs : length ws = length vs -> length (pack ws vs) = list_sum ws.
Proof.
  revert vs. induction ws as [|w ws IH]; intros [|v vs] Hl; simplify_eq/=; [done|].
  rewrite length_app, length_le_bytes, IH by done. done.
Qed.

Lemma pack_bytes ws vs : Forall is_byte (pack ws vs).
Proof.
  revert vs. induction ws as [|w ws IH]; intros [|v vs]; simpl; try constructor.
  apply Forall_app. split; [apply le_bytes_bytes|done].
Qed.

Lemma pack_app ws ws' vs vs' :
  length ws = length vs -> pack (ws ++ ws') (vs ++ vs') = pack ws vs ++ pack ws' vs'.
Proof.
  revert vs. induction ws as [|w ws IH]; intros [|v vs] Hl; simplify_eq/=; [done|].
  by rewrite IH, app_assoc.
Qed.

Lemma length_unpack ws bs : length (unpack ws bs) = length ws.
Proof. revert bs. induction ws as [|w ws IH]; intros bs; simpl; [done|]. by rewrite IH. Qed.

Lemma unpack_pack ws vs : fits ws vs -> unpack ws (pack ws vs) = vs.
Proof.
  induction 1 as [|w v ws vs Hv _ IH]; simpl; [done|].
  rewrite take_app_length', drop_app_length' by by rewrite length_le_bytes.
  by rewrite IH, le_value_bytes_small.
Qed.

Lemma pack_unpack ws bs :
  Forall is_byte bs -> length bs = list_sum ws -> pack ws (unpack ws bs) = bs.
Proof.
  revert bs. induction ws as [|w ws IH]; intros bs Hb Hl; simpl in *.
  - by destruct bs.
  - rewrite IH by (by apply Forall_drop || (rewrite length_drop; lia)).
    assert (length (take w bs) = w) as Hw by (rewrite length_take; lia).
    rewrite <- Hw at 1. rewrite le_bytes_value by by apply Forall_take. apply take_drop.
Qed.

Lemma unpack_fits ws bs :
  Forall is_byte bs -> length bs = list_sum ws -> fits ws (unpack ws bs).
Proof.
  revert bs. induction ws as [|w ws IH]; intros bs Hb Hl; simpl in *; constructor.
  - assert (length (take w bs) = w) as Hw by (rewrite length_take; lia).
    rewrite <- Hw at 1. apply le_value_range. by apply Forall_take.
  - apply IH; [by apply Forall_drop|]. rewrite length_drop. lia.
Qed.

(** ** Outcomes of C++ code *)

(** A computation returns, throws an exception with a message, or runs into
    undefined behaviour (an out-of-range [operator[]], a null dereference, an
    out-of-range conversion). *)
Inductive outcome (A : Type) :=
| Ok (a : A)
| Throw (what : string)
| Undef.
Arguments Ok {A} a.
Arguments Throw {A} what.
Arguments Undef {A}.

#[export] Instance outcome_ret : MRet outcome := fun A a => Ok a.
#[export] Instance outcome_bind : MBind outcome := fun A B f m =>
  match m with Ok a => f a | Throw e => Throw e | Undef => Undef end.
#[export] Instance outcome_fmap : FMap outcome := fun A B f m =>
  match m with Ok a => Ok (f a) | Throw e => Throw e | Undef => Undef end.

(** [v[i]] of a [std::vector] or array. *)
Definition vget {A} (v : list A) (i : nat) : outcome A :=
  match v !! i with Some x => Ok x | None => Undef end.

(** [v.at(i)]. *)
Definition vat {A} (v : list A) (i : nat) : outcome A :=
  match v !! i with Some x => Ok x | None => Throw "vector::_M_range_check" end.

(** Dereferencing a pointer that may be null. *)
Definition deref {A} (p : option A) : outcome A := match p with Some x => Ok x | None => Undef end.

(** [for (i = 0; i < n; ++i)] collecting one value per iteration. *)
Fixpoint for_n {A} (n : nat) (f : nat -> outcome A) : outcome (list A) :=
  match n with
  | O => Ok []
  | S n' => l ← for_n n' f; x ← f n'; Ok (l ++ [x])
  end.

Lemma bind_ok {A B} (f : A -> outcome B) m b :
  (m ≫= f) = Ok b <-> exists a, m = Ok a /\ f a = Ok b.
Proof. destruct m; simpl; naive_solver. Qed.

Lemma vget_ok {A} (v : list A) i x : vget v i = Ok x <-> v !! i = Some x.
Proof. unfold vget. destruct (v !! i); naive_solver. Qed.

Lemma vget_lt {A} (v : list A) i : (i < length v)%nat -> exists x, vget v i = Ok x /\ v !! i = Some x.
Proof.
  intros Hi. destruct (lookup_lt_is_Some_2 v i Hi) as [x Hx]. exists x. by rewrite vget_ok.
Qed.

Lemma vat_ok {A} (v : list A) i x : vat v i = Ok x <-> v !! i = Some x.
Proof. unfold vat. destruct (v !! i); naive_solver. Qed.

Lemma vat_defined {A} (v : list A) i : vat v i <> Undef.
Proof. unfold vat. by destruct (v !! i). Qed.

Lemma for_n_ok {A} n (f : nat -> outcome A) l :
  for_n n f = Ok l <-> length l = n /\ forall i x, l !! i = Some x -> f i = Ok x.
Proof.
  revert l. induction n as [|n IH]; intros l; simpl.
  - split; [by intros [= <-]|]. intros [Hl _]. by apply nil_length_inv in Hl as ->.
  - rewrite bind_ok. setoid_rewrite bind_ok. setoid_rewrite IH. split.
    + intros (l' & [Hl' Hf] & x & Hx & [= <-]). rewrite length_app. split; [simpl; lia|].
      intros i y Hy. apply lookup_app_Some in Hy as [Hy|[Hle Hy]]; [by apply Hf|].
      apply list_lookup_singleton_Some in Hy as [Hi <-]. by replace i with n by lia.
    + intros [Hl Hf]. destruct (exists_last (l := l)) as (l' & x & ->); [by destruct l|].
      rewrite length_app in Hl. simpl in Hl. exists l'. split; [split; [lia|]|exists x; split; [|done]].
      * intros i y Hy. apply Hf. by apply lookup_app_l_Some.
      * apply Hf. rewrite lookup_app_r by lia. by replace (n - length l')%nat with 0%nat by lia.
Qed.

(** A loop whose every iteration succeeds, succeeds. *)
Lemma for_n_total {A} n (f : nat -> outcome A) :
  (forall i, (i < n)%nat -> exists x, f i = Ok x) -> exists l, for_n n f = Ok l.
Proof.
  induction n as [|n IH]; intros Hf; simpl; [by eexists|].
  destruct IH as [l ->]; [intros i Hi; apply Hf; lia|]. destruct (Hf n) as [x Hx]; [lia|].
  simpl. rewrite Hx. by eexists.
Qed.

(** A loop that reads a vector of the loop's length. *)
Lemma for_n_map_vget {A B} (f : A -> B) (l : list A) :
  for_n (length l) (fun i => s ← vget l i; Ok (f s)) = Ok (map f l).
Proof.
  apply for_n_ok. rewrite length_map. split; [done|]. intros i x Hx.
  rewrite list_lookup_fmap in Hx. apply fmap_Some in Hx as (y & Hy & ->). unfold vget. by rewrite Hy.
Qed.

Lemma for_n_vget_self {A} (l : list A) : for_n (length l) (fun i => vget l i) = Ok l.
Proof. apply for_n_ok. split; [done|]. intros i x Hx. unfold vget. by rewrite Hx. Qed.

(** A loop whose iterations are defined, is defined. *)
Lemma for_n_defined {A} n (f : nat -> outcome A) :
  (forall i, (i < n)%nat -> f i <> Undef) -> for_n n f <> Undef.
Proof.
  induction n as [|n IH]; intros Hf; simpl; [done|].
  destruct (for_n n f) eqn:E; simpl; [|done|by apply IH; auto with lia].
  specialize (Hf n). destruct (f n); simpl; [done|done|]. exfalso. by apply Hf; [lia|].
Qed.

(** A loop with an undefined iteration after defined ones. *)
Lemma for_n_undef {A} (f : nat -> outcome A) n k :
  (k < n)%nat -> f k = Undef -> (forall i, (i < k)%nat -> exists x, f i = Ok x) -> for_n n f = Undef.
Proof.
  intros Hk Hf Hlt. destruct (for_n_total k f Hlt) as [l Hl].
  induction n as [|n IH]; [lia|]. simpl. destruct (decide (k = n)) as [->|].
  - rewrite Hl. simpl. by rewrite Hf.
  - rewrite IH by lia. done.
Qed.

Lemma bind_defined {A B} (f : A -> outcome B) m :
  m <> Undef -> (forall a, m = Ok a -> f a <> Undef) -> (m ≫= f) <> Undef.
Proof. destruct m; simpl; naive_solver. Qed.
