(* ===== verification/Threads.v ===== *)
(** * Threads: programs of atomic steps, and their interleavings

    The programs share state between threads through mutexes and atomics. A
    thread is a [Prog]: a tree of accesses to the shared state, each of them
    atomic (one critical section, one load, store or exchange of an atomic, or
    one output), whose continuation may depend on what the access returned.
    [run_prog] executes a program without interruption; [sys_exec] interleaves the
    threads of a pool under an arbitrary schedule. [wp] is a rely/guarantee
    calculus for one thread, and [sys_exec_ok] its soundness for the pool. *)

From S2P Require Import Prelude.

(** ** Programs *)

Section programs.
Context {S L : Type}.

Inductive Prog (A : Type) : Type :=
| Done (a : A)
| Act {B : Type} (f : S -> outcome (S * list L * B)) (k : B -> Prog A).
Arguments Done {A} a.
Arguments Act {A B} f k.

Fixpoint prog_bind {A B} (p : Prog A) (k : A -> Prog B) : Prog B :=
  match p with
  | Done a => k a
  | Act f k' => Act f (fun b => prog_bind (k' b) k)
  end.

(** A load, a store, an output, and a computation on local values or on the shared
    state that may fail. *)
Definition load {A} (f : S -> A) : Prog A := Act (fun s => Ok (s, [], f s)) Done.
Definition store (f : S -> S) : Prog unit := Act (fun s => Ok (f s, [], tt)) Done.
Definition output (l : list L) : Prog unit := Act (fun s => Ok (s, l, tt)) Done.
Definition compute {A} (x : outcome A) : Prog A := Act (fun s => a ← x; Ok (s, [], a)) Done.
Definition query {A} (f : S -> outcome A) : Prog A := Act (fun s => a ← f s; Ok (s, [], a)) Done.

(** A program without interruption: the final state, the labels, the result. *)
Fixpoint run_prog {A} (p : Prog A) (s : S) : outcome (S * list L * A) :=
  match p with
  | Done a => Ok (s, [], a)
  | Act f k => '(s, l, b) ← f s; '(s, l', a) ← run_prog (k b) s; Ok (s, l ++ l', a)
  end.

Lemma run_bind {A B} (p : Prog A) (k : A -> Prog B) s :
  run_prog (prog_bind p k) s = '(s, l, a) ← run_prog p s; '(s, l', b) ← run_prog (k a) s; Ok (s, l ++ l', b).
Proof.
  revert s. induction p as [a|C f k' IH]; intros s; simpl.
  - by destruct (run_prog (k a) s) as [[[? ?] ?]| |].
  - destruct (f s) as [[[s1 l1] c]| |]; simpl; [|done|done]. rewrite IH.
    destruct (run_prog (k' c) s1) as [[[s2 l2] a]| |]; simpl; [|done|done].
    destruct (run_prog (k a) s2) as [[[s3 l3] b]| |]; simpl; [|done|done]. by rewrite app_assoc.
Qed.

(** ** Threads and pools *)

(** A thread, or two threads and what follows when both have been joined. *)
Inductive Thread :=
| Seq (p : Prog unit)
| Fork (p q k : Prog unit).

Definition idle : Thread := Seq (Done tt).
Definition is_idle (t : Thread) : bool := match t with Seq (Done _) => true | _ => false end.

(** Without interruption, the forked threads one after the other. *)
Definition run_thread (t : Thread) (s : S) : outcome (S * list L * unit) :=
  match t with
  | Seq p => run_prog p s
  | Fork p q k => run_prog (prog_bind p (fun _ => prog_bind q (fun _ => k))) s
  end.

(** One step; [None]: the thread has ended. *)
Definition prog_step (p : Prog unit) (s : S) : option (outcome (S * list L * Prog unit)) :=
  match p with
  | Done _ => None
  | Act f k => Some ('(s, l, b) ← f s; Ok (s, l, k b))
  end.

Definition wrap_step (w : Prog unit -> Thread) (r : option (outcome (S * list L * Prog unit)))
    : option (outcome (S * list L * Thread)) :=
  match r with
  | Some o => Some ('(s, l, p) ← o; Ok (s, l, w p))
  | None => None
  end.

(** [first] chooses between the two threads of a fork; choosing one that has
    ended does nothing. *)
Definition thread_step (first : bool) (t : Thread) (s : S) : option (outcome (S * list L * Thread)) :=
  match t with
  | Seq p => wrap_step Seq (prog_step p s)
  | Fork (Done _) (Done _) k => wrap_step Seq (prog_step k s)
  | Fork p q k =>
      if first then wrap_step (fun p' => Fork p' q k) (prog_step p s)
      else wrap_step (fun q' => Fork p q' k) (prog_step q s)
  end.

Record Sys := mkSys { sy_state : S; sy_threads : list Thread }.

Context {E : Type}.

(** What the schedule decides: thread [k] takes a step, or something happens
    outside that gives a thread work (or adds one). *)
Inductive Choice :=
| Run (k : nat) (first : bool)
| Event (e : E).

Context (begin : E -> S -> list Thread -> option (S * list Thread)).

(** A choice that is not possible changes nothing. *)
Definition sys_step (c : Choice) (x : Sys) : outcome (Sys * list L) :=
  match c with
  | Run k first =>
      match sy_threads x !! k with
      | Some t =>
          match thread_step first t (sy_state x) with
          | Some o => '(s, l, t') ← o; Ok (mkSys s (<[k := t']> (sy_threads x)), l)
          | None => Ok (x, [])
          end
      | None => Ok (x, [])
      end
  | Event e =>
      match begin e (sy_state x) (sy_threads x) with
      | Some (s, ts) => Ok (mkSys s ts, [])
      | None => Ok (x, [])
      end
  end.

Fixpoint sys_exec (cs : list Choice) (x : Sys) : outcome (Sys * list L) :=
  match cs with
  | [] => Ok (x, [])
  | c :: cs' => '(x, l) ← sys_step c x; '(x, l') ← sys_exec cs' x; Ok (x, l ++ l')
  end.

Lemma sys_exec_app cs cs' x :
  sys_exec (cs ++ cs') x = '(x, l) ← sys_exec cs x; '(x, l') ← sys_exec cs' x; Ok (x, l ++ l').
Proof.
  revert x. induction cs as [|c cs IH]; intros x; simpl.
  - by destruct (sys_exec cs' x) as [[? ?]| |].
  - destruct (sys_step c x) as [[x1 l1]| |]; simpl; [|done|done]. rewrite IH.
    destruct (sys_exec cs x1) as [[x2 l2]| |]; simpl; [|done|done].
    destruct (sys_exec cs' x2) as [[x3 l3]| |]; simpl; [|done|done]. by rewrite app_assoc.
Qed.

(** A step of thread [j], then the rest of a schedule. *)
Lemma exec_run j first t t' s s1 l1 ts cs y l2 :
  ts !! j = Some t -> thread_step first t s = Some (Ok (s1, l1, t')) ->
  sys_exec cs (mkSys s1 (<[j := t']> ts)) = Ok (y, l2) ->
  sys_exec (Run j first :: cs) (mkSys s ts) = Ok (y, l1 ++ l2).
Proof.
  intros Hj Hs Hr. cbn [sys_exec sys_step sy_threads sy_state]. rewrite Hj, Hs. cbn [mbind outcome_bind]. by rewrite Hr.
Qed.

(** A thread of the pool can be executed to its end. *)
Lemma exec_seq k (p : Prog unit) s s' l ts :
  run_prog p s = Ok (s', l, tt) -> ts !! k = Some (Seq p) ->
  exists cs, sys_exec cs (mkSys s ts) = Ok (mkSys s' (<[k := idle]> ts), l).
Proof.
  revert s l ts. induction p as [[]|B f kk IH]; intros s l ts; cbn [run_prog].
  - intros [= -> <-] Hk. exists []. cbn [sys_exec]. by rewrite list_insert_id.
  - intros ([[s1 l1] b] & Hf & ([[s2 l2] []] & Hr & [= <- <-])%bind_ok)%bind_ok Hk.
    destruct (IH b s1 l2 (<[k := Seq (kk b)]> ts) Hr) as [cs Hcs].
    { apply list_lookup_insert_eq. by eapply lookup_lt_Some. }
    rewrite list_insert_insert_eq in Hcs. exists (Run k true :: cs).
    eapply exec_run; [exact Hk| |exact Hcs]. cbn [thread_step wrap_step prog_step]. by rewrite Hf.
Qed.

Lemma exec_fork j (p q k : Prog unit) s s' l ts :
  run_thread (Fork p q k) s = Ok (s', l, tt) -> ts !! j = Some (Fork p q k) ->
  exists cs t, sys_exec cs (mkSys s ts) = Ok (mkSys s' (<[j := t]> ts), l).
Proof.
  cbn [run_thread]. revert s l ts. induction p as [[]|B f kk IH]; intros s l ts; cbn [prog_bind run_prog].
  - revert s l ts. induction q as [[]|B f kk IH]; intros s l ts; cbn [prog_bind run_prog].
    + intros Hk Hj. destruct k as [[]|B f kk].
      { injection Hk as -> <-. exists [], (Fork (Done tt) (Done tt) (Done tt)). cbn [sys_exec]. by rewrite list_insert_id. }
      apply bind_ok in Hk as ([[s1 l1] b] & Hf & ([[s2 l2] []] & Hr & [= <- <-])%bind_ok).
      destruct (exec_seq j (kk b) s1 s2 l2 (<[j := Seq (kk b)]> ts) Hr) as [cs Hcs].
      { apply list_lookup_insert_eq. by eapply lookup_lt_Some. }
      rewrite list_insert_insert_eq in Hcs. exists (Run j true :: cs), idle.
      eapply exec_run; [exact Hj| |exact Hcs]. cbn [thread_step wrap_step prog_step]. by rewrite Hf.
    + intros ([[s1 l1] b] & Hf & ([[s2 l2] []] & Hr & [= <- <-])%bind_ok)%bind_ok Hj.
      destruct (IH b s1 l2 (<[j := Fork (Done tt) (kk b) k]> ts) Hr) as (cs & t & Hcs).
      { apply list_lookup_insert_eq. by eapply lookup_lt_Some. }
      rewrite list_insert_insert_eq in Hcs. exists (Run j false :: cs), t.
      eapply exec_run; [exact Hj| |exact Hcs]. cbn [thread_step wrap_step prog_step]. by rewrite Hf.
  - intros ([[s1 l1] b] & Hf & ([[s2 l2] []] & Hr & [= <- <-])%bind_ok)%bind_ok Hj.
    destruct (IH b s1 l2 (<[j := Fork (kk b) q k]> ts) Hr) as (cs & t & Hcs).
    { apply list_lookup_insert_eq. by eapply lookup_lt_Some. }
    rewrite list_insert_insert_eq in Hcs. exists (Run j true :: cs), t.
    eapply exec_run; [exact Hj| |exact Hcs]. cbn [thread_step wrap_step prog_step]. by rewrite Hf.
Qed.

(** ** Rely and guarantee *)

(** The shared state with the labels so far. *)
Definition Config : Type := (S * list L)%type.

Definition extend (y : Config) (s : S) (l : list L) : Config := (s, y.2 ++ l).

(** Every access satisfies [g], whatever the program has read before. *)
Fixpoint acts {A} (g : S -> S -> list L -> Prop) (p : Prog A) : Prop :=
  match p with
  | Done _ => True
  | Act f k => (forall s s' l b, f s = Ok (s', l, b) -> g s s' l) /\ forall b, acts g (k b)
  end.

Lemma acts_bind {A B} g (p : Prog A) (k : A -> Prog B) :
  acts g p -> (forall a, acts g (k a)) -> acts g (prog_bind p k).
Proof. intros Hp Hk. induction p as [a|C f k' IH]; simpl in *; [done|]. destruct Hp as [Hf Hp]. split; [done|]. intros b. by apply IH. Qed.

Lemma acts_one {A} g (f : S -> outcome (S * list L * A)) :
  (forall s s' l a, f s = Ok (s', l, a) -> g s s' l) -> acts g (Act f Done).
Proof. done. Qed.

(** Failures that are allowed: all, none. *)
Definition any_failure : S -> Prop := fun _ => True.
Definition no_failure : S -> Prop := fun _ => False.

Section defined.
Context (excuse : S -> Prop) (I : S -> Prop).

(** Every access is defined and keeps [I], or fails with an excuse; the result
    satisfies [Phi]. *)
Fixpoint defined {A} (Phi : A -> Prop) (p : Prog A) : Prop :=
  match p with
  | Done a => Phi a
  | Act f k =>
      forall s, I s ->
        match f s with
        | Ok (s', l, b) => I s' /\ defined Phi (k b)
        | _ => excuse s
        end
  end.

Lemma defined_bind {A B} (Phi : A -> Prop) (Psi : B -> Prop) (p : Prog A) (k : A -> Prog B) :
  defined Phi p -> (forall a, Phi a -> defined Psi (k a)) -> defined Psi (prog_bind p k).
Proof.
  intros Hp Hk. induction p as [a|C f k' IH]; simpl in *; [by apply Hk|]. intros s Hs.
  specialize (Hp s Hs). destruct (f s) as [[[s' l] b]| |]; [|done|done]. destruct Hp as [Hs' Hb]. split; [done|by apply IH].
Qed.

Lemma defined_mono {A} (Phi Psi : A -> Prop) (p : Prog A) :
  (forall a, Phi a -> Psi a) -> defined Phi p -> defined Psi p.
Proof.
  intros H Hp. induction p as [a|C f k' IH]; simpl in *; [by apply H|]. intros s Hs.
  specialize (Hp s Hs). destruct (f s) as [[[s' l] b]| |]; [|done|done]. destruct Hp as [Hs' Hb]. split; [done|by apply IH].
Qed.

Lemma defined_act {A} (Phi : A -> Prop) (f : S -> outcome (S * list L * A)) :
  (forall s, I s -> exists s' l a, f s = Ok (s', l, a) /\ I s' /\ Phi a) -> defined Phi (Act f Done).
Proof. intros Hf s Hs. by destruct (Hf s Hs) as (s' & l & a & -> & Hs' & Ha). Qed.

Lemma defined_load {A} (Phi : A -> Prop) (f : S -> A) : (forall s, I s -> Phi (f s)) -> defined Phi (load f).
Proof. intros Hf s Hs. split; [done|by apply Hf]. Qed.

Lemma defined_store f : (forall s, I s -> I (f s)) -> defined (fun _ => True) (store f).
Proof. intros Hf s Hs. by split; [apply Hf|]. Qed.

Lemma defined_output l : defined (fun _ => True) (output l).
Proof. by intros s Hs. Qed.

Lemma defined_compute {A} (Phi : A -> Prop) x : (exists a, x = Ok a /\ Phi a) -> defined Phi (compute x).
Proof. by intros (a & -> & Ha) s Hs. Qed.

Lemma defined_query {A} (Phi : A -> Prop) (f : S -> outcome A) :
  (forall s, I s -> exists a, f s = Ok a /\ Phi a) -> defined Phi (query f).
Proof. intros Hf s Hs. by destruct (Hf s Hs) as (a & -> & Ha). Qed.
End defined.

Section wp.
(** [R]: what the other threads may do between two steps; [G]: what every step
    of this thread does; [excuse]: the states in which a step may fail. *)
Context (excuse : S -> Prop) (R G : Config -> Config -> Prop).

Fixpoint wp {A} (p : Prog A) (Q : A -> Config -> Prop) (x : Config) : Prop :=
  match p with
  | Done a => forall y, R x y -> Q a y
  | Act f k =>
      forall y, R x y ->
        match f y.1 with
        | Ok (s, l, b) => G y (extend y s l) /\ wp (k b) Q (extend y s l)
        | _ => excuse y.1
        end
  end.

Context (R_trans : forall x y z, R x y -> R y z -> R x z).

(** Interference does not hurt. *)
Lemma wp_rely {A} (p : Prog A) Q x y : R x y -> wp p Q x -> wp p Q y.
Proof using R_trans. destruct p; simpl; intros Hxy Hp z Hz; apply Hp; by eapply R_trans. Qed.

Lemma wp_mono {A} (p : Prog A) (Q Q' : A -> Config -> Prop) x :
  (forall a y, Q a y -> Q' a y) -> wp p Q x -> wp p Q' x.
Proof.
  intros HQ. revert x. induction p as [a|B f k IH]; intros x; simpl; [by auto|].
  intros Hp y Hy. specialize (Hp y Hy). destruct (f y.1) as [[[s l] b]| |]; [|done|done].
  destruct Hp as [HG Hp]. split; [done|]. by apply IH.
Qed.

(** The postcondition of the first part may be used after any interference. *)
Lemma wp_bind {A B} (p : Prog A) (k : A -> Prog B) Q x :
  (forall y, R y y) -> wp p (fun a y => wp (k a) Q y) x -> wp (prog_bind p k) Q x.
Proof.
  intros Hrefl. revert x. induction p as [a|C f k' IH]; intros x; simpl; [intros Hp; by apply Hp|].
  intros Hp y Hy. specialize (Hp y Hy). destruct (f y.1) as [[[s l] b]| |]; [|done|done].
  destruct Hp as [HG Hp]. split; [done|]. by apply IH.
Qed.

(** A program all of whose accesses satisfy [g], whatever was read before, keeps
    every assertion that the accesses and the interference keep. *)
Lemma wp_acts {A} (g : S -> S -> list L -> Prop) (P : Config -> Prop) (p : Prog A) x :
  (forall y z, R y z -> P y -> P z) ->
  (forall y s l, P y -> g y.1 s l -> G y (extend y s l) /\ P (extend y s l)) ->
  (forall s, excuse s) -> acts g p -> P x -> wp p (fun _ => P) x.
Proof using Type.
  intros HR HG Ht. revert x. induction p as [a|B f k IH]; intros x; simpl; [by eauto|].
  intros [Hf Hk] Hx y Hy. destruct (f y.1) as [[[s l] b]| |] eqn:Ef; [|done|done].
  destruct (HG y s l) as [HGy HP]; [by eapply HR|by eapply Hf|]. split; [done|]. by apply IH.
Qed.

(** [Q] holds when the thread has ended. *)
Definition thread_ok (Q : Config -> Prop) (t : Thread) (x : Config) : Prop :=
  match t with
  | Seq p => wp p (fun _ => Q) x
  | Fork p q k =>
      (forall y z, G y z -> R y z) /\
      exists Qp Qq : Config -> Prop,
        wp p (fun _ => Qp) x /\ wp q (fun _ => Qq) x /\
        forall y, Qp y -> Qq y -> wp k (fun _ => Q) y
  end.

(** A program whose accesses are all defined keeps [I] under any interference that
    keeps it. *)
Lemma wp_defined {A} (I : S -> Prop) (Phi : A -> Prop) (p : Prog A) x :
  (forall y z, R y z -> I y.1 -> I z.1) -> (forall y s l, I y.1 -> I s -> G y (extend y s l)) ->
  defined excuse I Phi p -> I x.1 -> wp p (fun a y => Phi a /\ I y.1) x.
Proof using Type.
  intros HR HG. revert x. induction p as [a|B f k IH]; intros x; simpl.
  - intros Ha Hx y Hy. split; [done|by eapply HR].
  - intros Hf Hx y Hy. specialize (Hf y.1 (HR _ _ Hy Hx)). destruct (f y.1) as [[[s l] b]| |]; [|done|done].
    destruct Hf as [Hs Hb]. split; [by apply HG; [eapply HR|]|]. by apply IH.
Qed.

Lemma thread_ok_rely Q t x y : R x y -> thread_ok Q t x -> thread_ok Q t y.
Proof using R_trans.
  destruct t as [p|p q k]; simpl; [by apply wp_rely|].
  intros HR (HG & Qp & Qq & Hp & Hq & Hk). split; [done|]. exists Qp, Qq. split_and!; [| |done]; by eapply wp_rely.
Qed.

Lemma prog_step_ok p Q x o :
  (forall y, R y y) -> wp p Q x -> prog_step p x.1 = Some o ->
  match o with
  | Ok (s, l, p') => G x (extend x s l) /\ wp p' Q (extend x s l)
  | _ => excuse x.1
  end.
Proof.
  intros Hrefl. destruct p as [a|B f k]; simpl; [done|]. intros Hp [= <-]. specialize (Hp x (Hrefl x)).
  by destruct (f x.1) as [[[s l] b]| |].
Qed.

Lemma thread_step_ok Q first t x o :
  (forall y, R y y) -> thread_ok Q t x -> thread_step first t x.1 = Some o ->
  match o with
  | Ok (s, l, t') => G x (extend x s l) /\ thread_ok Q t' (extend x s l)
  | _ => excuse x.1
  end.
Proof using R_trans.
  intros Hrefl Ht.
  assert (Hseq : forall p, wp p (fun _ => Q) x -> wrap_step Seq (prog_step p x.1) = Some o ->
    match o with Ok (s, l, t') => G x (extend x s l) /\ thread_ok Q t' (extend x s l) | _ => excuse x.1 end).
  { intros p Hp. destruct (prog_step p x.1) as [r|] eqn:Ep; [|done]. intros [= <-].
    pose proof (prog_step_ok _ _ _ _ Hrefl Hp Ep) as Hr. by destruct r as [[[s l] p']| |]. }
  destruct t as [p|p q k]; [by apply Hseq|]. destruct Ht as (HG & Qp & Qq & Hp & Hq & Hk).
  assert (Hpq : (if first then wrap_step (fun p' => Fork p' q k) (prog_step p x.1)
                 else wrap_step (fun q' => Fork p q' k) (prog_step q x.1)) = Some o ->
    match o with Ok (s, l, t') => G x (extend x s l) /\ thread_ok Q t' (extend x s l) | _ => excuse x.1 end).
  { destruct first.
    - destruct (prog_step p x.1) as [r|] eqn:Ep; [|done]. intros [= <-].
      pose proof (prog_step_ok _ _ _ _ Hrefl Hp Ep) as Hr. destruct r as [[[s l] p']| |]; [|done|done].
      destruct Hr as [Hg Hr]. split; [done|]. split; [done|]. exists Qp, Qq. split_and!; [done| |done].
      eapply wp_rely; [|exact Hq]. by apply HG.
    - destruct (prog_step q x.1) as [r|] eqn:Ep; [|done]. intros [= <-].
      pose proof (prog_step_ok _ _ _ _ Hrefl Hq Ep) as Hr. destruct r as [[[s l] q']| |]; [|done|done].
      destruct Hr as [Hg Hr]. split; [done|]. split; [done|]. exists Qp, Qq. split_and!; [|done|done].
      eapply wp_rely; [|exact Hp]. by apply HG. }
  destruct p as [a|C f k']; [|exact Hpq]. destruct q as [b|C f k']; [|exact Hpq].
  apply Hseq. apply Hk; [by apply (Hp x)|by apply (Hq x)].
Qed.
End wp.

(** ** Soundness for the pool *)

Section pool.
(** Thread [k] relies on [R k], guarantees [G k] and ends with [Q k]; [J] is an invariant of the
    shared state and the trace; the first [perm] threads are always there. *)
Context (perm : nat) (excuse : S -> Prop) (R G : nat -> Config -> Config -> Prop) (Q : nat -> Config -> Prop).
Context (J : Config -> Prop) (good : E -> Prop).
Context (R_refl : forall k x, R k x x).
Context (R_trans : forall k x y z, R k x y -> R k y z -> R k x z).
Context (G_R : forall j k x y, j <> k -> G j x y -> R k x y).
Context (G_J : forall k x y, G k x y -> J x -> J y).

Definition pool_ok (x : Config) (ts : list Thread) : Prop :=
  (perm <= length ts)%nat /\ forall k t, ts !! k = Some t -> thread_ok excuse (R k) (G k) (Q k) t x.

Context (begin_ok : forall e s tr ts s' ts',
  good e -> J (s, tr) -> pool_ok (s, tr) ts -> begin e s ts = Some (s', ts') ->
  J (s', tr) /\ pool_ok (s', tr) ts').

Definition good_choice (c : Choice) : Prop := match c with Run _ _ => True | Event e => good e end.

Lemma sys_step_ok c x tr :
  good_choice c -> J (sy_state x, tr) -> pool_ok (sy_state x, tr) (sy_threads x) ->
  match sys_step c x with
  | Ok (x', l) => J (sy_state x', tr ++ l) /\ pool_ok (sy_state x', tr ++ l) (sy_threads x')
  | _ => excuse (sy_state x)
  end.
Proof using R_refl R_trans G_R G_J begin_ok.
  intros Hc HJ Hpool. pose proof Hpool as [Hlen Hp]. destruct c as [k first|e]; simpl.
  - destruct (sy_threads x !! k) as [t|] eqn:Et; [|by rewrite app_nil_r].
    destruct (thread_step first t (sy_state x)) as [o|] eqn:Eo; [|by rewrite app_nil_r].
    pose proof (thread_step_ok excuse (R k) (G k) (R_trans k) (Q k) first t (sy_state x, tr) o (R_refl k) (Hp k t Et) Eo) as Ho.
    destruct o as [[[s l] t']| |]; simpl; [|done|done]. destruct Ho as [Hg Ht']. unfold extend in *. cbn [snd] in *.
    split; [by eapply G_J|]. split; [by rewrite length_insert|]. intros j u Hj. apply list_lookup_insert_Some in Hj as [(<- & <- & _)|[Hne Hj]]; [done|].
    eapply thread_ok_rely; [apply R_trans|by eapply G_R|by apply Hp].
  - destruct (begin e (sy_state x) (sy_threads x)) as [[s ts]|] eqn:Eb; [|by rewrite app_nil_r].
    rewrite app_nil_r. by eapply begin_ok.
Qed.

(** Every schedule keeps the invariant, or fails in a state with an excuse. *)
Lemma sys_exec_ok cs x tr :
  Forall good_choice cs -> J (sy_state x, tr) -> pool_ok (sy_state x, tr) (sy_threads x) ->
  match sys_exec cs x with
  | Ok (x', l) => J (sy_state x', tr ++ l) /\ pool_ok (sy_state x', tr ++ l) (sy_threads x')
  | _ => exists cs1 cs2 x' l, cs = cs1 ++ cs2 /\ sys_exec cs1 x = Ok (x', l) /\ excuse (sy_state x')
  end.
Proof using R_refl R_trans G_R G_J begin_ok.
  intros Hcs. revert x tr. induction Hcs as [|c cs Hc Hcs IH]; intros x tr HJ Hp; cbn [sys_exec].
  { by rewrite app_nil_r. }
  pose proof (sys_step_ok c x tr Hc HJ Hp) as Hs.
  destruct (sys_step c x) as [[x1 l1]| |] eqn:Es; simpl; [|by exists [], (c :: cs), x, []..].
  destruct Hs as [HJ1 Hp1]. specialize (IH x1 (tr ++ l1) HJ1 Hp1).
  assert (Hfail : (exists cs1 cs2 x' l, cs = cs1 ++ cs2 /\ sys_exec cs1 x1 = Ok (x', l) /\ excuse (sy_state x')) ->
    exists cs1 cs2 x' l, c :: cs = cs1 ++ cs2 /\ sys_exec cs1 x = Ok (x', l) /\ excuse (sy_state x')).
  { intros (cs1 & cs2 & x' & l & -> & He & Hx). exists (c :: cs1), cs2, x', (l1 ++ l). split; [done|]. split; [|done].
    cbn [sys_exec]. rewrite Es. cbn [mbind outcome_bind]. by rewrite He. }
  destruct (sys_exec cs x1) as [[x2 l2]| |]; simpl; [by rewrite app_assoc|by apply Hfail..].
Qed.
End pool.
End programs.

Arguments Prog : clear implicits.
Arguments Done {S L A} a.
Arguments Act {S L A B} f k.
Arguments Thread : clear implicits.
Arguments Sys : clear implicits.
Arguments Choice : clear implicits.
Arguments Run {E} k first.
Arguments Event {E} e.
Arguments Config : clear implicits.

(** No obligation at the end of a thread. *)
Definition anything {S L} (k : nat) (y : Config S L) : Prop := True.

#[export] Instance prog_ret {S L} : MRet (Prog S L) := fun A a => Done a.
#[export] Instance prog_mbind {S L} : MBind (Prog S L) := fun A B k p => prog_bind p k.

(** [for (i = 0; i < n; ++i)]. *)
Fixpoint for_prog {S L} (n : nat) (f : nat -> Prog S L unit) : Prog S L unit :=
  match n with
  | O => mret tt
  | S n' => _ ← for_prog n' f; f n'
  end.

Lemma acts_for {S L} (g : S -> S -> list L -> Prop) n (f : nat -> Prog S L unit) :
  (forall i, acts g (f i)) -> acts g (for_prog n f).
Proof. intros Hf. induction n as [|n IH]; simpl; [done|]. apply acts_bind; [done|]. intros _. apply Hf. Qed.

Lemma defined_for {S L} (excuse I : S -> Prop) n (f : nat -> Prog S L unit) :
  (forall i, (i < n)%nat -> defined excuse I (fun _ => True) (f i)) ->
  defined excuse I (fun _ => True) (for_prog n f).
Proof.
  induction n as [|n IH]; intros Hf; simpl; [done|]. eapply defined_bind; [apply IH; auto with lia|].
  intros _ _. apply Hf. lia.
Qed.

(** ** Classes of accesses *)

(** Decomposition of a program into its accesses. *)
Create HintDb acts discriminated.

Ltac acts_split :=
  repeat match goal with
    | |- forall _, _ => intros ?
    | |- acts _ (_ ≫= _) => apply acts_bind
    | |- acts _ (prog_bind _ _) => apply acts_bind
    | |- acts _ (for_prog _ _) => apply acts_for
    | |- acts _ (Done _) => exact I
    | |- acts _ (mret _) => exact I
    | |- acts _ (match ?x with _ => _ end) => destruct x
    | |- acts _ (let '_ := ?x in _) => destruct x
    end.

Section classes.
Context {S L : Type} (g : S -> S -> list L -> Prop).

Lemma acts_store f : (forall a, g a (f a) []) -> acts g (store f).
Proof using Type. intros Hf. apply acts_one. by intros s s' l a [= <- <- _]. Qed.

Lemma acts_output l : (forall a, g a a l) -> acts g (output l).
Proof using Type. intros Hf. apply acts_one. by intros s s' l' a [= <- <- _]. Qed.

Lemma acts_mono (h : S -> S -> list L -> Prop) {A} (p : Prog S L A) :
  (forall s s' l, h s s' l -> g s s' l) -> acts h p -> acts g p.
Proof using Type.
  intros Hg. induction p as [a|B f k IH]; cbn [acts]; [done|]. intros [Hf Hk]. split; [|by auto].
  intros s s' l b H. by eapply Hg, Hf.
Qed.

(** Reads without labels. *)
Context (g_read : forall a, g a a []).

Lemma acts_load {A} (f : S -> A) : acts g (load f).
Proof using g_read. apply acts_one. by intros s s' l a [= <- <- _]. Qed.

Lemma acts_compute {A} (x : outcome A) : acts g (compute x).
Proof using g_read. apply acts_one. by intros s s' l a (? & _ & [= <- <- _])%bind_ok. Qed.

Lemma acts_query {A} (f : S -> outcome A) : acts g (query f).
Proof using g_read. apply acts_one. by intros s s' l a (? & _ & [= <- <- _])%bind_ok. Qed.
End classes.

(** ** Programs without interruption *)

Section solo.
(** The labels that are compared. *)
Context {S L : Type} (vis : L -> bool).

Definition observed {A} (x : outcome (S * list L * A)) : outcome (S * list L * A) :=
  '(s, l, a) ← x; Ok (s, filter (fun x => vis x = true) l, a).

Definition solo {A} (p : Prog S L A) (s : S) : outcome (S * list L * A) := observed (run_prog p s).

Lemma alone_bind {A B} (p : Prog S L A) (k : A -> Prog S L B) s :
  solo (p ≫= k) s = '(s, l, a) ← solo p s; '(s, l', b) ← solo (k a) s; Ok (s, l ++ l', b).
Proof.
  unfold solo, mbind at 1, prog_mbind. rewrite run_bind. destruct (run_prog p s) as [[[s1 l1] a]| |]; simpl; [|done|done].
  destruct (run_prog (k a) s1) as [[[s2 l2] b]| |]; simpl; [|done|done]. by rewrite filter_app.
Qed.

Lemma alone_ret {A} (a : A) s : solo (mret a) s = Ok (s, [], a).
Proof. done. Qed.

Lemma alone_act {A} (f : S -> outcome (S * list L * A)) s : solo (Act f Done) s = observed (f s).
Proof.
  unfold solo, observed. simpl. destruct (f s) as [[[s' l] a]| |]; simpl; [|done|done]. by rewrite app_nil_r.
Qed.

Lemma alone_load {A B} (f : S -> A) (k : A -> Prog S L B) s : solo (load f ≫= k) s = solo (k (f s)) s.
Proof. rewrite alone_bind. simpl. by destruct (solo (k (f s)) s) as [[[? ?] ?]| |]. Qed.

Lemma alone_store {B} f (k : unit -> Prog S L B) s : solo (store f ≫= k) s = solo (k tt) (f s).
Proof. rewrite alone_bind. simpl. by destruct (solo (k tt) (f s)) as [[[? ?] ?]| |]. Qed.

Lemma alone_compute {A B} (x : outcome A) (k : A -> Prog S L B) s :
  solo (compute x ≫= k) s = a ← x; solo (k a) s.
Proof. rewrite alone_bind. destruct x as [a| |]; simpl; [|done|done]. by destruct (solo (k a) s) as [[[? ?] ?]| |]. Qed.

Lemma alone_query {A B} (f : S -> outcome A) (k : A -> Prog S L B) s :
  solo (query f ≫= k) s = x ← f s; solo (k x) s.
Proof. rewrite alone_bind. unfold query. rewrite alone_act. destruct (f s) as [a| |]; simpl; [|done|done]. by destruct (solo (k a) s) as [[[? ?] ?]| |]. Qed.

Lemma alone_output {B} l (k : unit -> Prog S L B) s :
  solo (output l ≫= k) s = '(s, l', b) ← solo (k tt) s; Ok (s, filter (fun x => vis x = true) l ++ l', b).
Proof. rewrite alone_bind. unfold output. by rewrite alone_act. Qed.

(** A program that only computes something from the state. *)
Lemma alone_reads {A B} (p : Prog S L A) o (k : A -> Prog S L B) s :
  solo p s = (x ← o; Ok (s, [], x)) -> solo (p ≫= k) s = x ← o; solo (k x) s.
Proof. intros E. rewrite alone_bind, E. destruct o as [a| |]; simpl; [|done|done]. by destruct (solo (k a) s) as [[[? ?] ?]| |]. Qed.

(** The labels of some class are among those compared. *)
Lemma alone_inv (keep : L -> bool) {A} (p : Prog S L A) s s' vl r :
  (forall x, keep x = true -> vis x = true) -> solo p s = Ok (s', vl, r) ->
  exists l, run_prog p s = Ok (s', l, r) /\
    filter (fun x => keep x = true) l = filter (fun x => keep x = true) vl.
Proof.
  intros Hk. unfold solo, observed. intros ([[s1 l] r'] & Hr & [= <- <- <-])%bind_ok. exists l. split; [done|].
  symmetry. by apply list_filter_filter_l.
Qed.
End solo.

(** ** Permanent threads *)

(** The first threads of a program's pool: the main loop, the control server, the
    signal handler. *)
Definition main_thread : nat := 0.
Definition server_thread : nat := 1.
Definition signal_thread : nat := 2.

Section pool.
Context {S L E : Type} (begin : E -> S -> list (Thread S L) -> option (S * list (Thread S L))).

(** A permanent thread takes up work when it is idle. *)
Definition give (k : nat) (p : Prog S L unit) (a : S) (ts : list (Thread S L)) : option (S * list (Thread S L)) :=
  match ts !! k with
  | Some t => if is_idle t then Some (a, <[k := Seq p]> ts) else None
  | None => None
  end.

Lemma give_inv k p a ts a' ts' : give k p a ts = Some (a', ts') -> a' = a /\ ts' = <[k := Seq p]> ts.
Proof. unfold give. destruct (ts !! k) as [t|]; [|done]. destruct (is_idle t); [|done]. by intros [= <- <-]. Qed.

(** It was idle before. *)
Lemma give_idle k p a ts a' ts' :
  give k p a ts = Some (a', ts') -> exists t, ts !! k = Some t /\ is_idle t = true.
Proof. unfold give. destruct (ts !! k) as [t|]; [|done]. destruct (is_idle t) eqn:Et; [|done]. by exists t. Qed.

(** The first [n] threads are idle. *)
Definition ready (n : nat) (ts : list (Thread S L)) : Prop := forall k, (k < n)%nat -> ts !! k = Some idle.

Lemma ready_replicate n : ready n (replicate n idle).
Proof. intros k Hk. by apply lookup_replicate_2. Qed.

Lemma exec_give n e k p a a' l ts :
  ready n ts -> (k < n)%nat -> begin e a ts = give k p a ts -> run_prog p a = Ok (a', l, tt) ->
  exists cs, sys_exec begin cs (mkSys a ts) = Ok (mkSys a' ts, l).
Proof.
  intros Hts Hk He Hr. specialize (Hts k Hk). unfold give in He. rewrite Hts in He. cbn [is_idle idle] in He.
  destruct (exec_seq begin k p a a' l (<[k := Seq p]> ts) Hr) as [cs Hcs].
  { apply list_lookup_insert_eq. by eapply lookup_lt_Some. }
  exists (Event e :: cs). cbn [sys_exec sys_step sy_state sy_threads]. rewrite He.
  cbn [mbind outcome_bind]. rewrite Hcs. cbn [mbind outcome_bind app].
  by rewrite list_insert_insert_eq, list_insert_id.
Qed.
End pool.

(** Evaluating the binds of [outcome] also unfolds those of programs. *)
Ltac fold_bind :=
  repeat match goal with
    | |- context [@prog_mbind ?S ?L ?A ?B ?k ?p] =>
        change (@prog_mbind S L A B k p) with (@mbind (Prog S L) (@prog_mbind S L) A B k p)
    end.

(** ** A quantity that grows by at most one per access *)

Section measure.
Context {S L E : Type} (begin : E -> S -> list (Thread S L) -> option (S * list (Thread S L))) (h : S -> nat).

Definition by_one (s s' : S) (l : list L) : Prop := (h s' <= 1 + h s)%nat.

Definition thread_acts (t : Thread S L) : Prop :=
  match t with
  | Seq p => acts by_one p
  | Fork p q k => acts by_one p /\ acts by_one q /\ acts by_one k
  end.

Lemma step_by_one first t s s' l t' :
  thread_acts t -> thread_step first t s = Some (Ok (s', l, t')) -> by_one s s' l /\ thread_acts t'.
Proof.
  assert (Hp : forall (w : Prog S L unit -> Thread S L) p,
    acts by_one p -> (forall p', acts by_one p' -> thread_acts (w p')) ->
    wrap_step w (prog_step p s) = Some (Ok (s', l, t')) -> by_one s s' l /\ thread_acts t').
  { intros w [a|B f k]; cbn [prog_step wrap_step acts]; [done|]. intros [Hf Hk] Hw [= H].
    apply bind_ok in H as ([[s1 l1] p'] & H & [= -> -> <-]). apply bind_ok in H as ([[s2 l2] b] & Ef & [= -> -> <-]).
    split; [by eapply Hf|by apply Hw]. }
  destruct t as [p|p q k]; cbn [thread_acts thread_step]; [intros H; by apply (Hp Seq)|]. intros (H1 & H2 & H3).
  assert (Hpq : (if first then wrap_step (fun p' => Fork p' q k) (prog_step p s)
                 else wrap_step (fun q' => Fork p q' k) (prog_step q s)) = Some (Ok (s', l, t')) ->
    by_one s s' l /\ thread_acts t').
  { destruct first; [by apply (Hp (fun p' => Fork p' q k))|by apply (Hp (fun q' => Fork p q' k))]. }
  destruct p as [a|C f k']; [|exact Hpq]. destruct q as [b|C f k']; [|exact Hpq]. by apply (Hp Seq).
Qed.

Context (begin_by_one : forall e s ts s' ts',
  Forall thread_acts ts -> begin e s ts = Some (s', ts') -> (h s' <= 1 + h s)%nat /\ Forall thread_acts ts').

Lemma exec_by_one cs s ts x l :
  Forall thread_acts ts -> sys_exec begin cs (mkSys s ts) = Ok (x, l) -> (h (sy_state x) <= h s + length cs)%nat.
Proof using begin_by_one.
  revert s ts x l. induction cs as [|c cs IH]; intros s ts x l Hts; cbn [sys_exec].
  { intros [= <- <-]. cbn. lia. }
  intros ([x1 l1] & Hs & ([x2 l2] & He & [= <- <-])%bind_ok)%bind_ok. destruct x1 as [s1 ts1].
  enough (H1 : (h s1 <= 1 + h s)%nat /\ Forall thread_acts ts1).
  { destruct H1 as [H1 Ht]. specialize (IH s1 ts1 x2 l2 Ht He). cbn [length]. lia. }
  destruct c as [k first|e]; cbn [sys_step sy_threads sy_state] in Hs.
  - destruct (ts !! k) as [t|] eqn:Ek; [|injection Hs as <- <- _; auto].
    destruct (thread_step first t s) as [o|] eqn:Eo; [|injection Hs as <- <- _; auto].
    apply bind_ok in Hs as ([[s' l'] t'] & -> & [= <- <- <-]).
    destruct (step_by_one first t s s' l' t') as [Hs Ht']; [by eapply Forall_lookup_1|done|].
    split; [exact Hs|]. by apply Forall_insert.
  - destruct (begin e s ts) as [[s' ts']|] eqn:Eb; [|injection Hs as <- <- _; auto].
    injection Hs as <- <- _. by eapply begin_by_one.
Qed.
End measure.
