(* ===== verification/Float64.v ===== *)
(** * IEEE 754 binary64 and binary32 values, as the C++ [double] and [float]

    A [double] is a [spec_float] of the standard library with the binary64
    parameters: signed zeros, infinities, one NaN, and finite values
    [(-1)^s * m * 2^e]. The operations are the correctly rounded ones
    (round to nearest, ties to even), which is what the compiled program runs.
    The NaN payload and the sign of a NaN are not modelled. *)

From S2P Require Import Prelude.
From Stdlib Require Import SpecFloat.
From stdpp Require Import pretty.

Open Scope Z_scope.

Abbreviation double := spec_float.

Declare Scope double_scope.
Delimit Scope double_scope with D.

(** ** Operations *)

Definition dadd : double -> double -> double := SFadd 53 1024.
Definition dsub : double -> double -> double := SFsub 53 1024.
Definition dmul : double -> double -> double := SFmul 53 1024.
Definition ddiv : double -> double -> double := SFdiv 53 1024.
Definition dsqrt : double -> double := SFsqrt 53 1024.
Definition dopp : double -> double := SFopp.
Definition dabs : double -> double := SFabs.

Definition dltb : double -> double -> bool := SFltb.
Definition dleb : double -> double -> bool := SFleb.
Definition deqb : double -> double -> bool := SFeqb.

Notation "x + y" := (dadd x y) : double_scope.
Notation "x - y" := (dsub x y) : double_scope.
Notation "x * y" := (dmul x y) : double_scope.
Notation "x / y" := (ddiv x y) : double_scope.
Notation "- x" := (dopp x) : double_scope.
(** [x < y], [x <= y], [x == y] of C++: false as soon as an operand is NaN. *)
Notation "x <? y" := (dltb x y) : double_scope.
Notation "x <=? y" := (dleb x y) : double_scope.
Notation "x =? y" := (deqb x y) : double_scope.
Notation "x >? y" := (dltb y x) (only parsing) : double_scope.
Notation "x >=? y" := (dleb y x) (only parsing) : double_scope.

Definition is_nan (x : double) : bool := match x with S754_nan => true | _ => false end.

(** [std::isfinite]. *)
Definition isfinite (x : double) : bool :=
  match x with S754_zero _ | S754_finite _ _ _ => true | _ => false end.

(** [std::min(a, b)] is [b < a ? b : a] and [std::max(a, b)] is
    [a < b ? b : a]: the operand order decides what a NaN does. *)
Definition dmin (a b : double) : double := if dltb b a then b else a.
Definition dmax (a b : double) : double := if dltb a b then b else a.

(** ** Conversions and literals *)

(** Conversion from an integer type: rounded to nearest even. *)
Definition d_of_Z (z : Z) : double := binary_normalize 53 1024 z 0 false.

(** The decimal literal [n * 10^-k], for [n] and [10^k] below 2^53: the
    quotient of two exact doubles is the correctly rounded literal. *)
Definition dlit (n k : Z) : double := ddiv (d_of_Z n) (d_of_Z (10 ^ k)).

Definition d0 : double := S754_zero false.
Definition d1 : double := Eval vm_compute in d_of_Z 1.

(** [static_cast<float>]: the nearest binary32 value. *)
Definition f32_of_double (x : double) : double :=
  match x with
  | S754_finite s m e => binary_round 24 128 s m e
  | _ => x
  end.

(** [static_cast<uint64_t>(x)]: truncation; undefined behaviour outside
    (-1, 2^64), which is [None]. *)
Definition trunc_Z (m : positive) (e : Z) : Z :=
  if 0 <=? e then Zpos m * 2 ^ e else Zpos m / 2 ^ (- e).

Definition u64_of_double (x : double) : option Z :=
  match x with
  | S754_zero _ => Some 0
  | S754_finite s m e =>
      let t := trunc_Z m e in
      if s then (if t =? 0 then Some 0 else None)
      else if t <? 2 ^ 64 then Some t else None
  | _ => None
  end.

(** [simpl] never unfolds the operations. *)
#[global] Arguments d_of_Z : simpl never.
#[global] Arguments dlit : simpl never.
#[global] Arguments dadd : simpl never.
#[global] Arguments dsub : simpl never.
#[global] Arguments dmul : simpl never.
#[global] Arguments ddiv : simpl never.
#[global] Arguments dltb : simpl never.
#[global] Arguments dleb : simpl never.
#[global] Arguments deqb : simpl never.

(** ** Representation as a 64-bit word *)

(** A [double] field of a packed struct holds a 64-bit word; these are the
    IEEE 754 encodings. *)
Definition double_of_bits (w : Z) : double :=
  let s := Z.testbit w 63 in
  let e := Z.shiftr w 52 mod 2 ^ 11 in
  let m := w mod 2 ^ 52 in
  if e =? 0 then
    match m with Zpos p => S754_finite s p (-1074) | _ => S754_zero s end
  else if e =? 2047 then
    (if m =? 0 then S754_infinity s else S754_nan)
  else
    match m + 2 ^ 52 with Zpos p => S754_finite s p (e - 1075) | _ => S754_zero s end.

Definition sign_bit (s : bool) : Z := if s then 2 ^ 63 else 0.

Definition bits_of_double (x : double) : Z :=
  match x with
  | S754_zero s => sign_bit s
  | S754_infinity s => sign_bit s + 2047 * 2 ^ 52
  | S754_nan => 2047 * 2 ^ 52 + 2 ^ 51
  | S754_finite s m e =>
      if Zpos m <? 2 ^ 52 then sign_bit s + Zpos m
      else sign_bit s + (e + 1075) * 2 ^ 52 + (Zpos m - 2 ^ 52)
  end.

(** A binary32 value as the 32-bit word of a [float] field, and back. *)
Definition bits_of_float (x : double) : Z :=
  let sb (s : bool) := if s then 2 ^ 31 else 0 in
  match x with
  | S754_zero s => sb s
  | S754_infinity s => sb s + 255 * 2 ^ 23
  | S754_nan => 255 * 2 ^ 23 + 2 ^ 22
  | S754_finite s m e =>
      if Zpos m <? 2 ^ 23 then sb s + Zpos m
      else sb s + (e + 150) * 2 ^ 23 + (Zpos m - 2 ^ 23)
  end.

(** The value of a 32-bit [float] word, as the [double] it promotes to
    (binary32 values are exactly representable). *)
Definition double_of_float_bits (w : Z) : double :=
  let s := Z.testbit w 31 in
  let e := Z.shiftr w 23 mod 2 ^ 8 in
  let m := w mod 2 ^ 23 in
  if e =? 0 then
    match m with Zpos p => binary_round 53 1024 s p (-149) | _ => S754_zero s end
  else if e =? 255 then
    (if m =? 0 then S754_infinity s else S754_nan)
  else
    match m + 2 ^ 23 with Zpos p => binary_round 53 1024 s p (e - 150) | _ => S754_zero s end.

(** ** Formatting with [std::fixed] and a precision of 2 *)

(** [m * 2^e * 100] rounded to the nearest integer, ties to even: the digits
    [printf("%.2f")] prints, exactly as glibc computes them. *)
Definition centi (m : positive) (e : Z) : Z :=
  if 0 <=? e then Zpos m * 2 ^ e * 100
  else
    let n := Zpos m * 100 in
    let d := 2 ^ (- e) in
    let q := n / d in
    match 2 * (n mod d) ?= d with
    | Lt => q
    | Eq => if Z.even q then q else q + 1
    | Gt => q + 1
    end.

Definition pad2 (z : Z) : string :=
  String.append (if z <? 10 then "0" else "") (pretty z).

Definition fixed2_abs (c : Z) : string :=
  String.append (pretty (c / 100)) (String.append "." (pad2 (c mod 100))).

(** [os << std::fixed << std::setprecision(2) << v]. *)
Definition fmt2 (v : double) : string :=
  match v with
  | S754_nan => "nan"
  | S754_infinity s => if s then "-inf" else "inf"
  | S754_zero s => if s then "-0.00" else "0.00"
  | S754_finite s m e => String.append (if s then "-" else "") (fixed2_abs (centi m e))
  end.

(** ** Validity *)

(** The values a [double] variable can hold: canonical mantissa, exponent in
    range. *)
Definition valid (x : double) : Prop := valid_binary 53 1024 x = true.
