(* ===== verification/Float64Round.v ===== *)
(** * Rounding theory of binary64

    Every finite [double] is an integer multiple of 2^-1074; [scaled x] is that
    integer. The file proves that comparison of doubles is comparison of
    [scaled] values and that each operation is the exact result, an integer
    fraction [N / D], followed by one rounding function [rnd], which is
    monotone. Everything the other files prove about doubles goes through
    these lemmas; no axiom about floating point is used. *)

From S2P Require Import Prelude Float64.
From Stdlib Require Import SpecFloat.

Open Scope Z_scope.

(** ** Round to nearest even, on integer fractions *)

Definition rne_div (n d : Z) : Z :=
  let q := n / d in
  match 2 * (n mod d) ?= d with
  | Lt => q
  | Eq => if Z.even q then q else q + 1
  | Gt => q + 1
  end.

(** The exponent (above 2^-1074) at which [n / d] is rounded. *)
Definition rnd_exp (n d : Z) : Z := Z.max 0 (Z.log2 (n / d) - 52).

(** [n / d] rounded to 53 significant bits, both in units of 2^-1074. *)
Definition rnd (n d : Z) : Z :=
  let k := rnd_exp n d in rne_div n (d * 2 ^ k) * 2 ^ k.

Lemma pow2_pos k : 0 <= k -> 0 < 2 ^ k.
Proof. intros. by apply Z.pow_pos_nonneg. Qed.

Lemma pow2_add a b : 0 <= a -> 0 <= b -> 2 ^ (a + b) = 2 ^ a * 2 ^ b.
Proof. intros. by apply Z.pow_add_r. Qed.

Lemma pow2_le a b : a <= b -> 2 ^ a <= 2 ^ b.
Proof. intros. apply Z.pow_le_mono_r; lia. Qed.

Lemma rne_div_bounds n d : 0 < d -> n / d <= rne_div n d <= n / d + 1.
Proof. intros Hd. unfold rne_div. destruct (_ ?= _); [destruct (Z.even _)|..]; lia. Qed.

(** Within half a unit of the exact quotient. *)
Lemma rne_div_half n d : 0 < d -> Z.abs (2 * (rne_div n d * d - n)) <= d.
Proof.
  intros Hd. unfold rne_div.
  pose proof (Z.div_mod n d ltac:(lia)). pose proof (Z.mod_pos_bound n d Hd).
  destruct (Z.compare_spec (2 * (n mod d)) d); [destruct (Z.even _)|..]; nia.
Qed.

Lemma rne_div_mono n n' d : 0 < d -> n <= n' -> rne_div n d <= rne_div n' d.
Proof.
  intros Hd Hn.
  pose proof (Z.div_le_mono n n' d Hd Hn) as Hq.
  destruct (decide (n / d = n' / d)) as [He|He].
  - unfold rne_div. rewrite He.
    pose proof (Z.div_mod n d ltac:(lia)). pose proof (Z.div_mod n' d ltac:(lia)).
    assert (n mod d <= n' mod d) by nia.
    destruct (Z.compare_spec (2 * (n mod d)) d), (Z.compare_spec (2 * (n' mod d)) d),
      (Z.even (n' / d)); lia.
  - pose proof (rne_div_bounds n d Hd). pose proof (rne_div_bounds n' d Hd). lia.
Qed.

Lemma rne_div_scale n d c : 0 < c -> 0 < d -> rne_div (n * c) (d * c) = rne_div n d.
Proof.
  intros Hc Hd. unfold rne_div.
  rewrite Z.div_mul_cancel_r, Zmult_mod_distr_r by lia.
  replace (2 * (n mod d * c) ?= d * c) with (2 * (n mod d) ?= d); [done|].
  rewrite Z.mul_assoc. apply Zmult_compare_compat_r. lia.
Qed.

Lemma rne_div_exact q d : 0 < d -> rne_div (q * d) d = q.
Proof.
  intros Hd. unfold rne_div. rewrite Z.div_mul, Z_mod_mult by lia.
  by replace (2 * 0 ?= d) with Lt by (symmetry; apply Z.compare_lt_iff; lia).
Qed.

Lemma rne_div_ge n d q : 0 < d -> q * d <= n -> q <= rne_div n d.
Proof.
  intros Hd Hq. pose proof (rne_div_bounds n d Hd).
  pose proof (Z.div_le_lower_bound n d q Hd). lia.
Qed.

Lemma rne_div_le n d q : 0 < d -> n <= q * d -> rne_div n d <= q.
Proof.
  intros Hd Hq. rewrite <- (rne_div_exact q d Hd). by apply rne_div_mono.
Qed.

(** ** Location of a remainder *)

Definition loc_of_rem (r d : Z) : location :=
  if r =? 0 then loc_Exact else loc_Inexact (2 * r ?= d).

(** [rec] is [n] divided by the unit [p], with its round and sticky bits. *)
Definition shr_rep (n p : Z) (rec : shr_record) : Prop :=
  0 <= shr_m rec /\
  exists r, n = shr_m rec * p + r /\ 0 <= r < p /\ loc_of_shr_record rec = loc_of_rem r p.

Lemma loc_of_rem_exact d : loc_of_rem 0 d = loc_Exact.
Proof. done. Qed.

Lemma loc_of_shr_record_of_loc m l : loc_of_shr_record (shr_record_of_loc m l) = l.
Proof. by destruct l as [|[]]. Qed.

Lemma shr_m_of_loc m l : shr_m (shr_record_of_loc m l) = m.
Proof. by destruct l as [|[]]. Qed.

Lemma shr_1_rep n p rec : 0 < p -> shr_rep n p rec -> shr_rep n (2 * p) (shr_1 rec).
Proof.
  intros Hp (Hm & r & Hn & Hr & Hl). destruct rec as [m rb sb]. simpl in Hm, Hn.
  assert (Hsticky : rb || sb = negb (r =? 0)).
  { destruct (Z.eqb_spec r 0) as [->|]; unfold loc_of_rem in Hl.
    - by destruct rb, sb.
    - rewrite (proj2 (Z.eqb_neq r 0)) in Hl by done. by destruct rb, sb. }
  assert (Hshape : shr_1 {| shr_m := m; shr_r := rb; shr_s := sb |} =
    {| shr_m := m / 2; shr_r := Z.odd m; shr_s := rb || sb |}).
  { rewrite <- Z.div2_div. destruct m as [|[]|]; done || lia. }
  rewrite Hshape. split; simpl; [apply Z.div_pos; lia|].
  pose proof (Z.div_mod m 2 ltac:(lia)) as Hm2. rewrite Zmod_odd in Hm2.
  exists ((if Z.odd m then 1 else 0) * p + r).
  split_and!; [destruct (Z.odd m); nia| | | ].
  - destruct (Z.odd m); lia.
  - destruct (Z.odd m); lia.
  - unfold loc_of_rem. rewrite Hsticky.
    assert (Hc : forall x c, x <> 0 -> (2 * x ?= 2 * p) = c ->
      loc_Inexact c = (if x =? 0 then loc_Exact else loc_Inexact (2 * x ?= 2 * p))).
    { intros x c Hx <-. by rewrite (proj2 (Z.eqb_neq x 0) Hx). }
    destruct (Z.eqb_spec r 0) as [->|]; destruct (Z.odd m);
      cbn [loc_of_shr_record shr_r shr_s negb].
    + apply Hc; [lia|]. apply Z.compare_eq_iff. lia.
    + done.
    + apply Hc; [lia|]. apply Z.compare_gt_iff. lia.
    + apply Hc; [lia|]. apply Z.compare_lt_iff. lia.
Qed.

Lemma iter_shr_rep n k : forall p rec,
  0 < p -> shr_rep n p rec -> shr_rep n (2 ^ Zpos k * p) (iter_pos shr_1 k rec).
Proof.
  induction k as [k IH|k IH|]; intros p rec Hp Hr; simpl.
  - apply (shr_1_rep n p) in Hr; [|done].
    apply IH in Hr; [|lia]. apply IH in Hr; [|pose proof (pow2_pos (Zpos k)); nia].
    replace (2 ^ Zpos k~1 * p) with (2 ^ Zpos k * (2 ^ Zpos k * (2 * p))); [done|].
    rewrite (Pos2Z.inj_xI k), pow2_add, Z.pow_1_r by lia.
    replace (2 * Zpos k) with (Zpos k + Zpos k) by lia. rewrite pow2_add by lia. ring.
  - apply IH in Hr; [|done]. apply IH in Hr; [|pose proof (pow2_pos (Zpos k)); nia].
    replace (2 ^ Zpos k~0 * p) with (2 ^ Zpos k * (2 ^ Zpos k * p)); [done|].
    rewrite (Pos2Z.inj_xO k). replace (2 * Zpos k) with (Zpos k + Zpos k) by lia.
    rewrite pow2_add by lia. ring.
  - by apply shr_1_rep.
Qed.

Lemma shr_spec n p rec e k :
  0 < p -> 0 <= k -> shr_rep n p rec ->
  exists rec', shr rec e k = (rec', e + k) /\ shr_rep n (p * 2 ^ k) rec'.
Proof.
  intros Hp Hk Hr. unfold shr. destruct k as [|k|]; [..|lia].
  - exists rec. by rewrite Z.add_0_r, Z.pow_0_r, Z.mul_1_r.
  - eexists; split; [done|]. rewrite Z.mul_comm. by apply iter_shr_rep.
Qed.

Lemma shr_rep_unique n p rec :
  0 < p -> shr_rep n p rec -> shr_m rec = n / p /\ loc_of_shr_record rec = loc_of_rem (n mod p) p.
Proof.
  intros Hp (Hm & r & Hn & Hr & Hl).
  assert (Hq : n / p = shr_m rec) by (symmetry; apply (Z.div_unique n p _ r); lia).
  pose proof (Z.div_mod n p ltac:(lia)) as Hdm. rewrite Hq in Hdm.
  assert (Hr' : n mod p = r) by lia. by rewrite Hq, Hr'.
Qed.

Lemma round_shr_rep n p rec :
  0 < p -> shr_rep n p rec -> round_nearest_even (shr_m rec) (loc_of_shr_record rec) = rne_div n p.
Proof.
  intros Hp Hr. destruct (shr_rep_unique n p rec Hp Hr) as [-> ->].
  unfold round_nearest_even, loc_of_rem, rne_div.
  destruct (Z.eqb_spec (n mod p) 0) as [->|Hn]; [|done].
  by replace (2 * 0 ?= p) with Lt by (symmetry; apply Z.compare_lt_iff; lia).
Qed.
