(* ===== verification/Float64Arith.v ===== *)
(** * Correct rounding of the binary64 operations

    [binary_round_aux] of the standard library's specification returns the
    exact value rounded by [Float64Round.rnd]; hence so do the operations
    [dadd], [dsub], [dmul], [ddiv] and the integer conversion, on valid
    operands, with overflow to infinity. *)

From S2P Require Import Prelude Float64 Float64Round.
From Stdlib Require Import SpecFloat.

Open Scope Z_scope.

(** ** Digits and canonical mantissas *)

Lemma digits2_bounds m :
  2 ^ (Zpos (digits2_pos m) - 1) <= Zpos m < 2 ^ Zpos (digits2_pos m).
Proof.
  induction m as [m IH|m IH|]; simpl digits2_pos; [| |done];
    rewrite Pos2Z.inj_succ; replace (Z.succ (Zpos (digits2_pos m)) - 1)
      with (Z.succ (Zpos (digits2_pos m) - 1)) by lia;
    rewrite !Z.pow_succ_r by lia; lia.
Qed.

Lemma Zdigits2_bounds m : 0 < m -> 1 <= Zdigits2 m /\ 2 ^ (Zdigits2 m - 1) <= m < 2 ^ Zdigits2 m.
Proof. intros Hm. destruct m as [|m|]; [lia| |lia]. split; [simpl; lia|apply digits2_bounds]. Qed.

Lemma Zdigits2_nonneg m : 0 <= Zdigits2 m.
Proof. destruct m; simpl; lia. Qed.

Lemma Zdigits2_le m k : 0 <= m -> 0 <= k -> m < 2 ^ k -> Zdigits2 m <= k.
Proof.
  intros Hm Hk Hlt. destruct (decide (m = 0)) as [->|]; [done|].
  destruct (Zdigits2_bounds m) as [? [Hb _]]; [lia|].
  assert (Zdigits2 m - 1 < k); [|lia]. apply (Z.pow_lt_mono_r_iff 2); lia.
Qed.

Lemma Zdigits2_ge m k : 0 <= k -> 2 ^ k <= m -> k < Zdigits2 m.
Proof.
  intros Hk Hle. pose proof (pow2_pos k Hk).
  destruct (Zdigits2_bounds m) as [? [_ Hb]]; [lia|].
  apply (Z.pow_lt_mono_r_iff 2); lia.
Qed.

Lemma Zdigits2_eq m k : 1 <= k -> 2 ^ (k - 1) <= m < 2 ^ k -> Zdigits2 m = k.
Proof.
  intros Hk [Hlo Hhi]. pose proof (pow2_pos (k - 1)).
  pose proof (Zdigits2_le m k). pose proof (Zdigits2_ge m (k - 1)). lia.
Qed.

Abbreviation fexp64 := (fexp 53 1024).

Lemma fexp64_eq e : fexp64 e = Z.max (e - 53) (-1074).
Proof. done. Qed.

(** A valid finite mantissa/exponent pair, arithmetically. *)
Lemma bounded_iff m e :
  bounded 53 1024 m e = true <->
  -1074 <= e <= 971 /\ Zdigits2 (Zpos m) <= 53 /\ (e = -1074 \/ Zdigits2 (Zpos m) = 53).
Proof.
  unfold bounded, canonical_mantissa. rewrite andb_true_iff, Z.eqb_eq, Z.leb_le.
  change (fexp 53 1024 (Zpos (digits2_pos m) + e)) with (fexp64 (Zdigits2 (Zpos m) + e)).
  rewrite fexp64_eq. lia.
Qed.

(** ** Scaled values *)

(** 2^1024 in units of 2^-1074: the magnitude of the infinities. *)
Definition ovf : Z := 2 ^ 2098.

Definition mag (x : double) : Z :=
  match x with
  | S754_finite _ m e => Zpos m * 2 ^ (e + 1074)
  | S754_infinity _ => ovf
  | _ => 0
  end.

Definition sign (x : double) : bool :=
  match x with
  | S754_zero s | S754_infinity s | S754_finite s _ _ => s
  | S754_nan => false
  end.

(** The value of a non-NaN double, in units of 2^-1074. *)
Definition scaled (x : double) : Z := cond_Zopp (sign x) (mag x).

Lemma mag_nonneg x : 0 <= mag x.
Proof.
  destruct x as [| | |s m e]; simpl; [done|by apply Z.pow_nonneg|done|].
  apply Z.mul_nonneg_nonneg; [lia|by apply Z.pow_nonneg].
Qed.

Lemma mag_finite_lt x : valid x -> isfinite x = true -> mag x < ovf.
Proof.
  destruct x as [| | |s m e]; intros Hv Hf; try discriminate Hf; [by apply pow2_pos|].
  apply bounded_iff in Hv as (He & Hd & _). simpl.
  destruct (Zdigits2_bounds (Zpos m)) as [_ [_ Hm]]; [lia|].
  pose proof (pow2_pos (e + 1074) ltac:(lia)).
  apply Z.lt_le_trans with (2 ^ Zdigits2 (Zpos m) * 2 ^ (e + 1074)); [nia|].
  rewrite <- pow2_add by (pose proof (Zdigits2_nonneg (Zpos m)); lia).
  apply pow2_le. lia.
Qed.

(** ** The rounding step *)

(** What a correctly rounded result is: valid, with the given sign, and of
    magnitude [rnd n d] or infinite on overflow. *)
Definition rounded_to (s : bool) (v : Z) (x : double) : Prop :=
  valid x /\ is_nan x = false /\ sign x = s /\ mag x = Z.min v ovf.

Section Rounding.
(** [n / d] is the exact magnitude in units of 2^-1074; [mx] is [n] divided by
    [p], and [hunit] says that [p / d] is the unit 2^ex. *)
Context (n d p mx ex : Z) (lx : location).
Context (Hd : 0 < d) (Hp : 0 < p).
Context (Hrep : shr_rep n p (shr_record_of_loc mx lx)).
Context (hunit : forall k, -1074 <= k -> ex <= k -> d * 2 ^ (k + 1074) = p * 2 ^ (k - ex)).
Context (Hshift : ex <= fexp64 (Zdigits2 mx + ex)).

Let e' := fexp64 (Zdigits2 mx + ex).
Let q := rne_div n (d * 2 ^ (e' + 1074)).

Lemma e'_range : ex <= e' /\ -1074 <= e'.
Proof using All. unfold e' in *. rewrite fexp64_eq in *. lia. Qed.

Lemma mx_bounds : 0 <= mx /\ mx * p <= n < (mx + 1) * p.
Proof using All.
  destruct Hrep as (H0 & r & Hn & Hr & _). rewrite shr_m_of_loc in *. nia.
Qed.

(** The target exponent is the one [rnd] chooses, and the rounded mantissa
    has 53 bits unless the exponent is minimal. *)
Lemma target_exp : rnd_exp n d = e' + 1074 /\ (e' = -1074 \/ 2 ^ 52 * (d * 2 ^ (e' + 1074)) <= n) /\
  n < 2 ^ 53 * (d * 2 ^ (e' + 1074)).
Proof using All.
  destruct e'_range as [He1 He2]. destruct mx_bounds as [Hm0 [Hlo Hhi]].
  pose proof (hunit e' He2 He1) as Hu.
  pose proof (Zdigits2_nonneg mx) as Hd0.
  assert (Hk : e' = Z.max (Zdigits2 mx + ex - 53) (-1074)) by (unfold e'; by rewrite fexp64_eq).
  pose proof (Zdigits2_bounds mx) as Hdb.
  set (D := Zdigits2 mx) in *.
  assert (Hmx : mx + 1 <= 2 ^ D).
  { destruct (decide (mx = 0)) as [->|]; [done|]. lia. }
  assert (Hup : n < 2 ^ 53 * (d * 2 ^ (e' + 1074))).
  { rewrite Hu. apply Z.lt_le_trans with (2 ^ D * p); [nia|].
    rewrite (Z.mul_comm p), Z.mul_assoc, <- pow2_add by lia.
    apply Z.mul_le_mono_nonneg_r; [lia|]. apply pow2_le. lia. }
  destruct (Z.le_gt_cases (-1073) (D + ex - 53)) as [Hbig|Hsmall].
  - assert (He : e' = D + ex - 53) by lia.
    assert (Hm1 : 2 ^ (D - 1) <= mx).
    { destruct (decide (mx = 0)) as [Hz|]; [|lia].
      assert (D = 0) by (unfold D; by rewrite Hz). lia. }
    assert (Hlow : 2 ^ 52 * (d * 2 ^ (e' + 1074)) <= n).
    { rewrite Hu. apply Z.le_trans with (2 ^ (D - 1) * p); [|nia].
      rewrite (Z.mul_comm p), Z.mul_assoc, <- pow2_add by lia.
      apply Z.mul_le_mono_nonneg_r; [lia|]. apply pow2_le. lia. }
    split; [|auto]. unfold rnd_exp.
    rewrite (Z.log2_unique (n / d) (e' + 1074 + 52)); [lia|lia|]. split.
    + apply Z.div_le_lower_bound; [done|]. rewrite pow2_add by lia. lia.
    + apply Z.div_lt_upper_bound; [done|].
      replace (Z.succ (e' + 1074 + 52)) with (53 + (e' + 1074)) by lia.
      rewrite pow2_add by lia. lia.
  - assert (He : e' = -1074) by lia. split; [|auto].
    rewrite He in *. change (2 ^ (-1074 + 1074)) with 1 in *. unfold rnd_exp.
    destruct (Z.le_gt_cases (n / d) 0) as [Hz|Hz].
    { rewrite Z.log2_nonpos by done. lia. }
    enough (Z.log2 (n / d) < 53) by lia.
    apply Z.log2_lt_pow2; [done|]. apply Z.div_lt_upper_bound; lia.
Qed.

Lemma rnd_target : rnd n d = q * 2 ^ (e' + 1074).
Proof using All.
  destruct target_exp as [Hk _]. unfold rnd. by rewrite Hk.
Qed.

Lemma q_bounds : 0 <= q <= 2 ^ 53 /\ (e' = -1074 \/ 2 ^ 52 <= q).
Proof using All.
  destruct target_exp as (_ & Hlo & Hhi). destruct e'_range as [_ He].
  destruct mx_bounds as [? [? _]].
  pose proof (pow2_pos (e' + 1074) ltac:(lia)).
  assert (0 < d * 2 ^ (e' + 1074)) by nia. unfold q. repeat split.
  - apply rne_div_ge; nia.
  - apply rne_div_le; lia.
  - destruct Hlo; [by left|]. right. by apply rne_div_ge.
Qed.

Lemma first_shift :
  exists rec, shr_fexp 53 1024 mx ex lx = (rec, e') /\
    round_nearest_even (shr_m rec) (loc_of_shr_record rec) = q.
Proof using All.
  destruct e'_range as [He1 He2].
  destruct (shr_spec n p _ ex (e' - ex) Hp ltac:(lia) Hrep) as (rec & Hs & Hr).
  replace (ex + (e' - ex)) with e' in Hs by lia.
  exists rec. split; [exact Hs|].
  pose proof (hunit e' He2 He1) as Hu.
  pose proof (pow2_pos (e' - ex) ltac:(lia)).
  rewrite (round_shr_rep n (p * 2 ^ (e' - ex))) by (nia || done).
  unfold q. by rewrite Hu.
Qed.

(** The value of the mantissa [q] at exponent [e'], after the carry of a
    mantissa that rounded up to 2^53. *)
Lemma second_shift :
  exists m e, (let '(rec, e1) := shr_fexp 53 1024 q e' loc_Exact in (shr_m rec, e1)) = (m, e) /\
    0 <= m < 2 ^ 53 /\ -1074 <= e /\ m * 2 ^ (e + 1074) = q * 2 ^ (e' + 1074) /\
    (e = -1074 \/ 2 ^ 52 <= m).
Proof using All.
  destruct e'_range as [_ He]. destruct q_bounds as [[Hq0 Hq1] Hq2].
  unfold shr_fexp. cbn [shr_record_of_loc].
  destruct (decide (q = 2 ^ 53)) as [Hc|Hc].
  - exists (2 ^ 52), (e' + 1). rewrite Hc.
    replace (fexp64 (Zdigits2 (2 ^ 53) + e') - e') with 1
      by (change (Zdigits2 (2 ^ 53)) with 54; rewrite fexp64_eq; lia).
    split; [done|]. split; [lia|]. split; [lia|]. split; [|by right].
    replace (e' + 1 + 1074) with (1 + (e' + 1074)) by lia. rewrite pow2_add by lia. lia.
  - exists q, e'. pose proof (Zdigits2_le q 53).
    assert (Hn : fexp64 (Zdigits2 q + e') - e' <= 0) by (rewrite fexp64_eq; lia).
    unfold shr. destruct (fexp64 (Zdigits2 q + e') - e'); try lia; simpl; split_and!; auto; lia.
Qed.

Lemma binary_round_aux_spec s :
  rounded_to s (rnd n d) (binary_round_aux 53 1024 s mx ex lx).
Proof using All.
  destruct first_shift as (rec & Hs1 & Hq).
  destruct second_shift as (m & e & Hs2 & Hm & He & Hv & Hn).
  unfold rounded_to. rewrite rnd_target, <- Hv.
  unfold binary_round_aux. rewrite Hs1, Hq.
  destruct (shr_fexp 53 1024 q e' loc_Exact) as [rec2 e2] in Hs2 |- *. simplify_eq.
  destruct (shr_m rec2) as [|pm|]; [..|lia].
  { by split_and!. }
  change (1024 - 53) with 971. destruct (Z.leb_spec e 971) as [He'|He'].
  - assert (Hdig : Zdigits2 (Zpos pm) <= 53) by (apply Zdigits2_le; lia).
    split_and!; try done.
    + apply bounded_iff. split; [lia|]. split; [done|].
      destruct Hn as [|Hn]; [by left|right]. apply Zdigits2_ge in Hn; lia.
    + simpl. rewrite Z.min_l; [done|]. unfold ovf.
      apply Z.le_trans with (2 ^ 53 * 2 ^ (e + 1074)).
      * apply Z.mul_le_mono_nonneg_r; [by apply Z.pow_nonneg|lia].
      * rewrite <- pow2_add by lia. apply pow2_le. lia.
  - destruct Hn as [|Hn]; [lia|]. split_and!; try done. simpl.
    rewrite Z.min_r; [done|]. unfold ovf. apply Z.le_trans with (2 ^ 52 * 2 ^ (e + 1074)).
    + rewrite <- pow2_add by lia. apply pow2_le. lia.
    + apply Z.mul_le_mono_nonneg_r; [by apply Z.pow_nonneg|lia].
Qed.
End Rounding.
