(* ===== verification/Float64Ops.v ===== *)
(** * Specifications of the binary64 operations

    Comparison is comparison of [scaled] values; addition, subtraction,
    multiplication, division and the conversion from integers return the exact
    result rounded by the monotone function [rnd], on valid operands. These
    lemmas, gathered in the hint database [float], are what the components'
    proofs use. *)

From S2P Require Import Prelude Float64 Float64Round Float64Arith.
From Stdlib Require Import SpecFloat.

Open Scope Z_scope.

Create HintDb float discriminated.
Create Rewrite HintDb float.

(** ** Monotonicity and exactness of [rnd] *)

Lemma rnd_exp_bounds n d :
  0 < d -> 0 <= n ->
  0 <= rnd_exp n d /\ n < d * 2 ^ (rnd_exp n d + 53) /\
  (rnd_exp n d = 0 \/ d * 2 ^ (rnd_exp n d + 52) <= n).
Proof.
  intros Hd Hn. unfold rnd_exp. set (q := n / d).
  assert (Hq : d * q <= n < d * (q + 1)).
  { pose proof (Z.div_mod n d ltac:(lia)). pose proof (Z.mod_pos_bound n d Hd).
    subst q. nia. }
  destruct (Z.le_gt_cases q 0) as [Hz|Hz].
  { rewrite Z.log2_nonpos by done. change (2 ^ (Z.max 0 (0 - 52) + 53)) with (2 ^ 53). nia. }
  pose proof (Z.log2_spec q Hz) as [Hlo Hhi]. split; [lia|]. split.
  - apply Z.lt_le_trans with (d * (q + 1)); [lia|]. apply Z.mul_le_mono_nonneg_l; [lia|].
    apply Z.le_trans with (2 ^ Z.succ (Z.log2 q)); [lia|]. apply pow2_le. lia.
  - destruct (Z.le_gt_cases (Z.log2 q) 52); [left; lia|right].
    replace (Z.max 0 (Z.log2 q - 52) + 52) with (Z.log2 q) by lia. nia.
Qed.

Lemma rnd_mono n d n' d' :
  0 < d -> 0 < d' -> 0 <= n -> 0 <= n' -> n * d' <= n' * d -> rnd n d <= rnd n' d'.
Proof.
  intros Hd Hd' Hn Hn' Hle.
  destruct (rnd_exp_bounds n d Hd Hn) as (Hk & Hhi & Hlo).
  destruct (rnd_exp_bounds n' d' Hd' Hn') as (Hk' & Hhi' & Hlo').
  unfold rnd. set (k := rnd_exp n d) in *. set (k' := rnd_exp n' d') in *.
  pose proof (pow2_pos k Hk) as Pk. pose proof (pow2_pos k' Hk') as Pk'.
  rewrite pow2_add in Hhi, Hhi', Hlo, Hlo' by lia.
  destruct (Z.lt_trichotomy k k') as [Hlt|[Heq|Hgt]].
  - assert (2 ^ 52 <= rne_div n' (d' * 2 ^ k')) by (apply rne_div_ge; nia).
    assert (rne_div n (d * 2 ^ k) <= 2 ^ 53) by (apply rne_div_le; nia).
    assert (2 * 2 ^ k <= 2 ^ k')
      by (rewrite <- (Z.pow_succ_r 2 k) by lia; apply pow2_le; lia).
    apply Z.le_trans with (2 ^ 53 * 2 ^ k); [nia|]. nia.
  - rewrite Heq. apply Z.mul_le_mono_nonneg_r; [lia|].
    rewrite <- (rne_div_scale n _ d'), <- (rne_div_scale n' _ d) by nia.
    replace (d' * 2 ^ k' * d) with (d * 2 ^ k' * d') by ring.
    apply rne_div_mono; [nia|done].
  - exfalso. destruct Hlo as [|Hlo]; [lia|].
    assert (2 * 2 ^ k' <= 2 ^ k)
      by (rewrite <- (Z.pow_succ_r 2 k') by lia; apply pow2_le; lia).
    assert (d * (2 ^ k * 2 ^ 52) * d' <= n' * d) by nia.
    assert (d' * (2 ^ k * 2 ^ 52) <= n') by nia. nia.
Qed.

(** Values with a 53-bit mantissa are fixed points of the rounding. *)
Definition representable (z : Z) : Prop := exists m k, z = m * 2 ^ k /\ 0 <= m < 2 ^ 53 /\ 0 <= k.

Lemma rnd_exact z d : 0 < d -> representable z -> rnd (z * d) d = z.
Proof.
  intros Hd (m & k & -> & Hm & Hk). pose proof (pow2_pos k Hk).
  destruct (rnd_exp_bounds (m * 2 ^ k * d) d) as (HK & _ & Hlo); [done|nia|].
  unfold rnd. set (K := rnd_exp _ d) in *. pose proof (pow2_pos K HK).
  destruct (Z.le_gt_cases K k) as [Hle|Hgt].
  - replace (m * 2 ^ k * d) with ((m * 2 ^ (k - K)) * (d * 2 ^ K)).
    + rewrite rne_div_exact by nia. rewrite <- Z.mul_assoc, <- pow2_add by lia.
      do 2 f_equal. lia.
    + transitivity (m * (2 ^ (k - K) * 2 ^ K) * d); [ring|].
      rewrite <- pow2_add by lia. do 3 f_equal. lia.
  - exfalso. destruct Hlo as [|Hlo]; [lia|]. rewrite pow2_add in Hlo by lia.
    assert (2 * 2 ^ k <= 2 ^ K)
      by (rewrite <- (Z.pow_succ_r 2 k) by lia; apply pow2_le; lia).
    assert (2 ^ K * 2 ^ 52 <= m * 2 ^ k) by nia. nia.
Qed.

Lemma rnd_nonneg n d : 0 < d -> 0 <= n -> 0 <= rnd n d.
Proof.
  intros Hd Hn. unfold rnd. destruct (rnd_exp_bounds n d Hd Hn) as [Hk _].
  pose proof (pow2_pos _ Hk). apply Z.mul_nonneg_nonneg; [|lia]. apply rne_div_ge; nia.
Qed.

Lemma representable_small z : 0 <= z < 2 ^ 53 -> representable z.
Proof. intros Hz. exists z, 0. by rewrite Z.mul_1_r. Qed.

Lemma representable_shift z k : representable z -> 0 <= k -> representable (z * 2 ^ k).
Proof.
  intros (m & j & -> & Hm & Hj) Hk. exists m, (j + k).
  rewrite pow2_add, Z.mul_assoc by lia. split; [done|]. lia.
Qed.

Lemma representable_mag x : valid x -> isfinite x = true -> representable (mag x).
Proof.
  destruct x as [| | |s m e]; intros Hv Hf; try discriminate Hf; [by apply representable_small|].
  apply bounded_iff in Hv as (He & Hd & _). exists (Zpos m), (e + 1074).
  destruct (Zdigits2_bounds (Zpos m)) as [_ [_ Hm]]; [lia|].
  split; [done|]. split; [|lia]. split; [lia|].
  apply Z.lt_le_trans with (1 := Hm). apply pow2_le. lia.
Qed.

(** ** Signed rounding *)

(** An integer in units of 2^-1074, rounded to a double, saturating at the
    infinities. *)
Definition rndZ (z : Z) : Z := Z.sgn z * Z.min (rnd (Z.abs z) 1) ovf.

Lemma rndZ_opp z : rndZ (- z) = - rndZ z.
Proof. unfold rndZ. rewrite Z.sgn_opp, Z.abs_opp. lia. Qed.

Lemma ovf_pos : 0 < ovf.
Proof. by apply pow2_pos. Qed.

Lemma rndZ_nonneg z : 0 <= z -> 0 <= rndZ z.
Proof.
  intros Hz. unfold rndZ. pose proof (rnd_nonneg (Z.abs z) 1). pose proof ovf_pos.
  apply Z.mul_nonneg_nonneg; [by apply Z.sgn_nonneg|lia].
Qed.

Lemma rndZ_mono z z' : z <= z' -> rndZ z <= rndZ z'.
Proof.
  assert (Hpos : forall a b, 0 <= a <= b -> rndZ a <= rndZ b).
  { intros a b Hab. destruct (decide (a = 0)) as [->|]; [by apply rndZ_nonneg; lia|].
    unfold rndZ. rewrite !Z.sgn_pos, !Z.abs_eq by lia.
    pose proof (rnd_mono a 1 b 1). lia. }
  intros Hle. destruct (Z.le_gt_cases 0 z); [apply Hpos; lia|].
  destruct (Z.le_gt_cases 0 z').
  - pose proof (rndZ_nonneg z'). pose proof (rndZ_nonneg (- z)). rewrite rndZ_opp in *. lia.
  - pose proof (Hpos (- z') (- z)) as H'. rewrite !rndZ_opp in H'. lia.
Qed.

Lemma rndZ_exact x : valid x -> is_nan x = false -> isfinite x = true -> rndZ (scaled x) = scaled x.
Proof.
  intros Hv _ Hf. unfold scaled.
  assert (Hm : rndZ (mag x) = mag x).
  { unfold rndZ. rewrite Z.abs_eq by apply mag_nonneg.
    pose proof (rnd_exact (mag x) 1 ltac:(lia) (representable_mag x Hv Hf)) as Hr.
    rewrite Z.mul_1_r in Hr. rewrite Hr. pose proof (mag_finite_lt x Hv Hf).
    pose proof (mag_nonneg x). lia. }
  destruct (sign x); simpl; [by rewrite rndZ_opp, Hm|done].
Qed.

Lemma scaled_sgn x s : sign x = s -> scaled x = cond_Zopp s (mag x).
Proof. by intros <-. Qed.

(** A double that is the correctly rounded value of the integer [z]. *)
Definition rounds (z : Z) (x : double) : Prop :=
  valid x /\ is_nan x = false /\ scaled x = rndZ z.

Lemma pos_iter_xO m d : Zpos (Pos.iter xO m d) = Zpos m * 2 ^ Zpos d.
Proof.
  induction d as [|d IH] using Pos.peano_ind; [simpl; lia|].
  rewrite Pos.iter_succ, Pos2Z.inj_succ, Z.pow_succ_r, Pos2Z.inj_xO, IH by lia. ring.
Qed.

Lemma Zdigits2_iter_xO m d : Zdigits2 (Zpos (Pos.iter xO m d)) = Zdigits2 (Zpos m) + Zpos d.
Proof.
  destruct (Zdigits2_bounds (Zpos m)) as [? [Hlo Hhi]]; [lia|].
  apply Zdigits2_eq; [lia|]. rewrite pos_iter_xO.
  replace (Zdigits2 (Zpos m) + Zpos d - 1) with (Zdigits2 (Zpos m) - 1 + Zpos d) by lia.
  rewrite !pow2_add by lia. pose proof (pow2_pos (Zpos d)). nia.
Qed.

Lemma binary_round_spec s m e :
  -1074 <= e -> rounded_to s (rnd (Zpos m * 2 ^ (e + 1074)) 1) (binary_round 53 1024 s m e).
Proof.
  intros He. unfold binary_round, shl_align.
  change (fexp 53 1024 (Zpos (digits2_pos m) + e)) with (fexp64 (Zdigits2 (Zpos m) + e)).
  set (f := fexp64 (Zdigits2 (Zpos m) + e)).
  assert (Hf : f = Z.max (Zdigits2 (Zpos m) + e - 53) (-1074)) by (unfold f; by rewrite fexp64_eq).
  assert (Hbase : forall mz ez, Zpos mz * 2 ^ (ez + 1074) = Zpos m * 2 ^ (e + 1074) ->
    -1074 <= ez -> ez <= fexp64 (Zdigits2 (Zpos mz) + ez) ->
    rounded_to s (rnd (Zpos m * 2 ^ (e + 1074)) 1) (binary_round_aux 53 1024 s (Zpos mz) ez loc_Exact)).
  { intros mz ez Hval Hez Hsh. rewrite <- Hval.
    apply (binary_round_aux_spec _ 1 (2 ^ (ez + 1074))); [lia|by apply pow2_pos; lia| |  |done].
    - split; simpl; [lia|]. exists 0. pose proof (pow2_pos (ez + 1074)).
      split; [lia|]. split; [lia|]. done.
    - intros k Hk1 Hk2. rewrite Z.mul_1_l, <- pow2_add by lia. f_equal. lia. }
  destruct (f - e) as [|d|d] eqn:Hfe; [apply Hbase; [done|done|fold f; lia]..|].
  pose proof (pos_iter_xO m d) as Hit.
  pose proof (Zdigits2_iter_xO m d) as Hdig.
  apply Hbase; [|lia|].
  - rewrite Hit, <- Z.mul_assoc, <- pow2_add by lia. do 2 f_equal. lia.
  - rewrite Hdig, fexp64_eq. lia.
Qed.

Lemma rounded_rounds s v x : 0 < v -> rounded_to s (rnd v 1) x -> rounds (cond_Zopp s v) x.
Proof.
  intros Hv (Hval & Hnan & Hs & Hm). split_and!; [done|done|].
  rewrite (scaled_sgn x s Hs), Hm. destruct s; simpl; [rewrite rndZ_opp; f_equal|];
    unfold rndZ; rewrite Z.sgn_pos, Z.abs_eq by lia; lia.
Qed.

Lemma binary_normalize_spec z e sz :
  -1074 <= e -> rounds (z * 2 ^ (e + 1074)) (binary_normalize 53 1024 z e sz).
Proof.
  intros He. pose proof (pow2_pos (e + 1074) ltac:(lia)) as Hp. destruct z as [|m|m]; simpl.
  - by destruct sz.
  - apply (rounded_rounds false (Zpos m * 2 ^ (e + 1074))); [lia|]. by apply binary_round_spec.
  - replace (Zneg m * 2 ^ (e + 1074)) with (cond_Zopp true (Zpos m * 2 ^ (e + 1074))) by (simpl; lia).
    apply rounded_rounds; [lia|]. by apply binary_round_spec.
Qed.

Lemma d_of_Z_spec z : rounds (z * 2 ^ 1074) (d_of_Z z).
Proof. by apply (binary_normalize_spec z 0). Qed.

(** ** Addition and subtraction *)

Lemma shl_align_value m e ez :
  ez <= e -> Zpos (fst (shl_align m e ez)) = Zpos m * 2 ^ (e - ez).
Proof.
  intros Hle. unfold shl_align. destruct (ez - e) as [|d|d] eqn:He; [|lia|].
  - replace (e - ez) with 0 by lia. by rewrite Z.mul_1_r.
  - replace (e - ez) with (Zpos d) by lia. apply pos_iter_xO.
Qed.

Lemma valid_exp s m e : valid (S754_finite s m e) -> -1074 <= e <= 971.
Proof. intros Hv. by apply bounded_iff in Hv as [? _]. Qed.

Lemma scaled_finite s m e : scaled (S754_finite s m e) = cond_Zopp s (Zpos m) * 2 ^ (e + 1074).
Proof. unfold scaled. destruct s; simpl; lia. Qed.

Lemma rounds_self x : valid x -> isfinite x = true -> rounds (scaled x) x.
Proof.
  intros Hv Hf. assert (is_nan x = false) by by destruct x.
  split_and!; [done|done|]. by rewrite rndZ_exact.
Qed.

Lemma dadd_spec x y :
  valid x -> valid y -> isfinite x = true -> isfinite y = true ->
  rounds (scaled x + scaled y) (dadd x y).
Proof.
  intros Hx Hy Fx Fy.
  destruct x as [sx| | |sx mx ex], y as [sy| | |sy my ey]; try discriminate; simpl dadd.
  - by destruct sx, sy.
  - replace (scaled (S754_zero sx)) with 0 by by destruct sx. by apply rounds_self.
  - replace (scaled (S754_zero sy)) with 0 by by destruct sy. rewrite Z.add_0_r.
    by apply rounds_self.
  - pose proof (valid_exp _ _ _ Hx). pose proof (valid_exp _ _ _ Hy).
    unfold dadd, SFadd. set (ez := Z.min ex ey).
    pose proof (binary_normalize_spec
      (cond_Zopp sx (Zpos (fst (shl_align mx ex ez))) + cond_Zopp sy (Zpos (fst (shl_align my ey ez))))
      ez false ltac:(lia)) as Hr.
    rewrite !shl_align_value in Hr |- * by lia.
    replace (scaled (S754_finite sx mx ex) + scaled (S754_finite sy my ey)) with
      ((cond_Zopp sx (Zpos mx * 2 ^ (ex - ez)) + cond_Zopp sy (Zpos my * 2 ^ (ey - ez))) * 2 ^ (ez + 1074));
      [exact Hr|].
    rewrite !scaled_finite.
    replace (2 ^ (ex + 1074)) with (2 ^ (ex - ez) * 2 ^ (ez + 1074))
      by (rewrite <- pow2_add by lia; f_equal; lia).
    replace (2 ^ (ey + 1074)) with (2 ^ (ey - ez) * 2 ^ (ez + 1074))
      by (rewrite <- pow2_add by lia; f_equal; lia).
    destruct sx, sy; simpl cond_Zopp; ring.
Qed.

Lemma dsub_dadd x y : dsub x y = dadd x (dopp y).
Proof.
  destruct x as [sx|sx| |sx mx ex], y as [sy|sy| |sy my ey]; try done;
    try by destruct sx, sy.
Qed.

Lemma dopp_props x : valid x -> valid (dopp x) /\ isfinite (dopp x) = isfinite x /\
  is_nan (dopp x) = is_nan x /\ scaled (dopp x) = - scaled x.
Proof. intros Hv. destruct x as [[]|[]| |[] m e]; simpl; split_and!; done || (unfold scaled; simpl; lia). Qed.

Lemma dsub_spec x y :
  valid x -> valid y -> isfinite x = true -> isfinite y = true ->
  rounds (scaled x - scaled y) (dsub x y).
Proof.
  intros Hx Hy Fx Fy. destruct (dopp_props y Hy) as (Hv & Hf & _ & Hs).
  rewrite dsub_dadd, <- Z.add_opp_r, <- Hs. apply dadd_spec; congruence.
Qed.
