(* ===== verification/Float64Order.v ===== *)
(** * Order, products and quotients of doubles

    Comparison through [scaled], the specifications of multiplication and
    division, and the derived facts about [std::min]/[std::max] clamps and
    about the 64-bit representation that the components use. *)

From S2P Require Import Prelude Float64 Float64Round Float64Arith Float64Ops.
From Stdlib Require Import SpecFloat.

Open Scope Z_scope.

(** ** Comparison *)

Lemma ovf_bound x : valid x -> isfinite x = true -> - ovf < scaled x < ovf.
Proof.
  intros Hv Hf. pose proof (mag_finite_lt x Hv Hf). pose proof (mag_nonneg x).
  unfold scaled. destruct (sign x); simpl; lia.
Qed.

(** Magnitudes of valid finite values compare as exponents first. *)
Lemma mag_compare m1 e1 m2 e2 :
  bounded 53 1024 m1 e1 = true -> bounded 53 1024 m2 e2 = true ->
  (Zpos m1 * 2 ^ (e1 + 1074) ?= Zpos m2 * 2 ^ (e2 + 1074)) =
    match e1 ?= e2 with Lt => Lt | Gt => Gt | Eq => Pos.compare m1 m2 end.
Proof.
  assert (Hlt : forall m1 e1 m2 e2, bounded 53 1024 m1 e1 = true -> bounded 53 1024 m2 e2 = true ->
    e1 < e2 -> Zpos m1 * 2 ^ (e1 + 1074) < Zpos m2 * 2 ^ (e2 + 1074)).
  { clear. intros m1 e1 m2 e2 H1 H2 Hlt.
    apply bounded_iff in H1 as (He1 & Hd1 & _). apply bounded_iff in H2 as (He2 & Hd2 & Hc2).
    destruct Hc2 as [|Hc2]; [lia|].
    destruct (Zdigits2_bounds (Zpos m1)) as [_ [_ Hm1]]; [lia|].
    destruct (Zdigits2_bounds (Zpos m2)) as [_ [Hm2 _]]; [lia|]. rewrite Hc2 in Hm2.
    pose proof (pow2_le _ _ Hd1). pose proof (pow2_pos (e1 + 1074) ltac:(lia)).
    assert (2 * 2 ^ (e1 + 1074) <= 2 ^ (e2 + 1074))
      by (rewrite <- (Z.pow_succ_r 2) by lia; apply pow2_le; lia).
    apply Z.lt_le_trans with (2 ^ 53 * 2 ^ (e1 + 1074)); [nia|].
    change (2 ^ 53) with (2 ^ (53 - 1) * 2). nia. }
  intros H1 H2. destruct (Z.compare_spec e1 e2) as [->|H|H].
  - apply bounded_iff in H1 as [? _]. symmetry. change (m1 ?= m2)%positive with (Zpos m1 ?= Zpos m2).
    apply Zmult_compare_compat_r, Z.lt_gt, pow2_pos. lia.
  - apply Z.compare_lt_iff. by apply Hlt.
  - apply Z.compare_gt_iff. by apply Hlt.
Qed.

Lemma compare_spec x y :
  valid x -> valid y -> is_nan x = false -> is_nan y = false ->
  SFcompare x y = Some (scaled x ?= scaled y).
Proof.
  pose proof ovf_pos as Ho.
  assert (Hpos : forall s m e, valid (S754_finite s m e) -> 0 < Zpos m * 2 ^ (e + 1074) < ovf).
  { intros s m e Hv. pose proof (mag_finite_lt _ Hv eq_refl). apply valid_exp in Hv.
    pose proof (pow2_pos (e + 1074)). simpl in *. nia. }
  assert (Hcases : forall a b (c : comparison),
    match c with Lt => a < b | Eq => a = b | Gt => b < a end -> Some c = Some (a ?= b)).
  { intros a b [] Hc; f_equal; symmetry; [by apply Z.compare_eq_iff|done|by apply Z.compare_gt_iff]. }
  intros Hx Hy Nx Ny.
  destruct x as [[]|[]| |[] mx ex], y as [[]|[]| |[] my ey]; try discriminate; simpl SFcompare;
    try (pose proof (Hpos _ _ _ Hx)); try (pose proof (Hpos _ _ _ Hy));
    try (apply Hcases; unfold scaled; simpl; lia);
    unfold scaled; simpl; rewrite ?Z.compare_opp; fold (Pos.compare mx my);
    rewrite mag_compare by done; f_equal;
    rewrite ?(Z.compare_antisym ex ey), ?(Pos.compare_antisym mx my); by destruct (ex ?= ey).
Qed.

Lemma dltb_scaled x y :
  valid x -> valid y -> is_nan x = false -> is_nan y = false -> dltb x y = (scaled x <? scaled y).
Proof.
  intros. unfold dltb, SFltb. rewrite compare_spec by done. unfold Z.ltb. by destruct (_ ?= _).
Qed.

Lemma dleb_scaled x y :
  valid x -> valid y -> is_nan x = false -> is_nan y = false -> dleb x y = (scaled x <=? scaled y).
Proof.
  intros. unfold dleb, SFleb. rewrite compare_spec by done. unfold Z.leb. by destruct (_ ?= _).
Qed.

Lemma deqb_scaled x y :
  valid x -> valid y -> is_nan x = false -> is_nan y = false -> deqb x y = (scaled x =? scaled y).
Proof.
  intros. unfold deqb, SFeqb. rewrite compare_spec by done.
  destruct (Z.compare_spec (scaled x) (scaled y)); symmetry;
    [by apply Z.eqb_eq|apply Z.eqb_neq; lia..].
Qed.

(** A NaN operand makes every comparison false. *)
Lemma dltb_nan x y : is_nan x || is_nan y = true -> dltb x y = false.
Proof. by destruct x, y. Qed.

Lemma dleb_nan x y : is_nan x || is_nan y = true -> dleb x y = false.
Proof. by destruct x, y. Qed.

Lemma dltb_true_not_nan x y : dltb x y = true -> is_nan x = false /\ is_nan y = false.
Proof. by destruct x, y. Qed.

Lemma dleb_true_not_nan x y : dleb x y = true -> is_nan x = false /\ is_nan y = false.
Proof. by destruct x, y. Qed.

Lemma isfinite_not_nan x : isfinite x = true -> is_nan x = false.
Proof. by destruct x. Qed.

#[export] Hint Resolve isfinite_not_nan : float.

(** Finite values are exactly the non-NaN values strictly between the
    infinities. *)
Lemma isfinite_iff x : valid x -> is_nan x = false -> isfinite x = true <-> - ovf < scaled x < ovf.
Proof.
  intros Hv Hn. split; [by apply ovf_bound|].
  destruct x as [|[]| |]; try done; unfold scaled; simpl; lia.
Qed.

(** Rewrites every float comparison of the context and goal into a [Z]
    comparison of [scaled] values, when validity is known. *)
Ltac scale_cmp :=
  repeat match goal with
    | H : context [dltb ?x ?y] |- _ => rewrite (dltb_scaled x y) in H by (done || auto with float)
    | H : context [dleb ?x ?y] |- _ => rewrite (dleb_scaled x y) in H by (done || auto with float)
    | |- context [dltb ?x ?y] => rewrite (dltb_scaled x y) by (done || auto with float)
    | |- context [dleb ?x ?y] => rewrite (dleb_scaled x y) by (done || auto with float)
    end.

(** ** Clamping: [std::max(-lim, std::min(lim, x))] *)

Definition dclamp (lim x : double) : double := dmax (dopp lim) (dmin lim x).

Lemma dclamp_range lim x :
  valid lim -> valid x -> isfinite lim = true -> 0 <= scaled lim -> is_nan x = false ->
  valid (dclamp lim x) /\ isfinite (dclamp lim x) = true /\
  scaled (dclamp lim x) = Z.max (- scaled lim) (Z.min (scaled lim) (scaled x)).
Proof.
  intros Hl Hx Fl Hp Nx. destruct (dopp_props lim Hl) as (Ho & Fo & No & So).
  assert (Nl : is_nan lim = false) by auto with float.
  unfold dclamp, dmin, dmax. rewrite (dltb_scaled x lim) by done.
  destruct (Z.ltb_spec (scaled x) (scaled lim)).
  - rewrite dltb_scaled, So by congruence.
    destruct (Z.ltb_spec (- scaled lim) (scaled x)).
    + split_and!; [done| |lia]. apply isfinite_iff; [done|done|].
      pose proof (ovf_bound lim Hl Fl). lia.
    + split_and!; [done|congruence|lia].
  - rewrite dltb_scaled, So by congruence.
    destruct (Z.ltb_spec (- scaled lim) (scaled lim)).
    + split_and!; [done|done|lia].
    + split_and!; [done|congruence|lia].
Qed.

(** ** Products and quotients *)

Lemma rounded_props s v x :
  rounded_to s v x -> valid x /\ is_nan x = false /\ scaled x = cond_Zopp s (Z.min v ovf).
Proof. intros (Hv & Hn & Hs & Hm). split_and!; [done|done|]. by rewrite (scaled_sgn x s Hs), Hm. Qed.

Lemma rnd_zero d : 0 < d -> rnd 0 d = 0.
Proof. intros Hd. apply (rnd_exact 0 d Hd). by apply representable_small. Qed.

Lemma dmul_spec x y :
  valid x -> valid y -> isfinite x = true -> isfinite y = true ->
  rounded_to (xorb (sign x) (sign y)) (rnd (mag x * mag y) (2 ^ 1074)) (dmul x y).
Proof.
  intros Hx Hy Fx Fy.
  assert (Hz : forall s, rounded_to s (rnd 0 (2 ^ 1074)) (S754_zero s)).
  { intros s. rewrite rnd_zero by by apply pow2_pos. split_and!; try done. }
  destruct x as [sx| | |sx mx ex], y as [sy| | |sy my ey]; try discriminate; simpl mag;
    rewrite ?Z.mul_0_r, ?Z.mul_0_l; try apply Hz.
  pose proof (proj1 (bounded_iff _ _) Hx) as (Hex & Hdx & Hcx).
  pose proof (proj1 (bounded_iff _ _) Hy) as (Hey & Hdy & Hcy).
  simpl sign. unfold dmul, SFmul.
  replace (Zpos mx * 2 ^ (ex + 1074) * (Zpos my * 2 ^ (ey + 1074)))
    with (Zpos (mx * my) * 2 ^ (ex + ey + 2148)).
  2: { replace (ex + ey + 2148) with ((ex + 1074) + (ey + 1074)) by lia.
       rewrite pow2_add, Pos2Z.inj_mul by lia. ring. }
  apply (binary_round_aux_spec _ _ (2 ^ (ex + ey + 2148))).
  - by apply pow2_pos.
  - apply pow2_pos. lia.
  - split; simpl; [lia|]. exists 0. pose proof (pow2_pos (ex + ey + 2148)). split; [lia|].
    split; [lia|done].
  - intros k Hk1 Hk2. rewrite <- !pow2_add by lia. f_equal. lia.
  - rewrite fexp64_eq.
    destruct Hcx as [|Hcx], Hcy as [|Hcy]; [lia|..];
    (enough (52 < Zdigits2 (Zpos (mx * my))) by lia;
     apply (Zdigits2_ge _ 52); [lia|]; rewrite Pos2Z.inj_mul;
     destruct (Zdigits2_bounds (Zpos mx)) as [_ [Hmx _]]; [lia|];
     destruct (Zdigits2_bounds (Zpos my)) as [_ [Hmy _]]; [lia|];
     rewrite ?Hcx, ?Hcy in *; change (53 - 1) with 52 in *; nia).
Qed.

Lemma new_location_rem r d : 0 < d -> 0 <= r < d -> new_location d r = loc_of_rem r d.
Proof.
  intros Hd Hr. unfold new_location, new_location_even, new_location_odd, loc_of_rem.
  change IntDef.Z.even with Z.even. destruct (Z.even d) eqn:He; cbv beta; [done|].
  destruct (Z.eqb_spec r 0); [done|]. f_equal.
  assert (Hodd : d mod 2 = 1) by (rewrite Zmod_odd, <- Z.negb_even, He; done).
  pose proof (Z.div_mod d 2 ltac:(lia)).
  destruct (Z.compare_spec (2 * r + 1) d); destruct (Z.compare_spec (2 * r) d); done || lia.
Qed.

(** The quotient of two finite values, canonical or not. *)
Lemma sfdiv_spec sx mx ex sy my ey :
  -1074 <= ex -> -1074 <= ey ->
  rounded_to (xorb sx sy) (rnd (mag (S754_finite sx mx ex) * 2 ^ 1074) (mag (S754_finite sy my ey)))
    (ddiv (S754_finite sx mx ex) (S754_finite sy my ey)).
Proof.
  intros Hex Hey. assert (Hpos : 0 < mag (S754_finite sy my ey)).
  { simpl. pose proof (pow2_pos (ey + 1074) ltac:(lia)). lia. }
  destruct (Zdigits2_bounds (Zpos mx)) as [? [Hmx _]]; [lia|].
  destruct (Zdigits2_bounds (Zpos my)) as [? [_ Hmy]]; [lia|].
  unfold ddiv, SFdiv, SFdiv_core_binary.
  change (Z.sub (Z.add (Zdigits2 (Zpos mx)) ex) (Z.add (Zdigits2 (Zpos my)) ey))
    with (Zdigits2 (Zpos mx) + ex - (Zdigits2 (Zpos my) + ey)).
  change (Z.sub ex ey) with (ex - ey).
  set (f := fexp64 (Zdigits2 (Zpos mx) + ex - (Zdigits2 (Zpos my) + ey))).
  assert (Hf : f = Z.max (Zdigits2 (Zpos mx) + ex - (Zdigits2 (Zpos my) + ey) - 53) (-1074))
    by (unfold f; by rewrite fexp64_eq).
  set (e := Z.min f (ex - ey)). set (s := ex - ey - e).
  assert (Hs : 0 <= s) by lia.
  assert (Hm' : match s with Zpos _ => Z.shiftl (Zpos mx) s | Z0 => Zpos mx | Zneg _ => Z0 end
                = Zpos mx * 2 ^ s).
  { destruct s eqn:Hse; [lia| |lia]. by rewrite Z.shiftl_mul_pow2 by lia. }
  rewrite Hm'.
  pose proof (Z_div_mod (Zpos mx * 2 ^ s) (Zpos my) ltac:(lia)) as Hqr.
  destruct (Z.div_eucl (Zpos mx * 2 ^ s) (Zpos my)) as [q r]. destruct Hqr as [Hqr Hr].
  pose proof (pow2_pos s Hs) as Hps.
  assert (Hq0 : 0 <= q) by nia.
  rewrite new_location_rem by lia.
  assert (Hpe : 0 < 2 ^ (ey + e + 2148)) by (apply pow2_pos; lia).
  apply (binary_round_aux_spec _ _ (Zpos my * 2 ^ (ey + e + 2148))).
  - done.
  - lia.
  - split; [by rewrite shr_m_of_loc|]. rewrite shr_m_of_loc, loc_of_shr_record_of_loc.
    exists (r * 2 ^ (ey + e + 2148)). split_and!; [|nia|nia|].
    + transitivity (Zpos mx * 2 ^ s * 2 ^ (ey + e + 2148)); [|rewrite Hqr; ring].
      simpl mag. rewrite <- !Z.mul_assoc, <- !pow2_add by lia. do 2 f_equal. lia.
    + unfold loc_of_rem.
      replace (r * 2 ^ (ey + e + 2148) =? 0) with (r =? 0) by nia.
      destruct (r =? 0); [done|]. f_equal. rewrite Z.mul_assoc.
      apply Zmult_compare_compat_r. lia.
  - intros k Hk1 Hk2. simpl mag. rewrite <- !Z.mul_assoc, <- !pow2_add by lia. do 2 f_equal. lia.
  - rewrite fexp64_eq. destruct (Z.le_gt_cases e (-1074)); [lia|].
    enough (52 < Zdigits2 q) by lia. apply (Zdigits2_ge _ 52); [lia|].
    assert (Hs53 : 53 + Zdigits2 (Zpos my) - Zdigits2 (Zpos mx) <= s) by lia.
    assert (2 ^ (52 + Zdigits2 (Zpos my)) <= Zpos mx * 2 ^ s).
    { apply Z.le_trans with (2 ^ (Zdigits2 (Zpos mx) - 1) * 2 ^ s); [|nia].
      rewrite <- pow2_add by lia. apply pow2_le. lia. }
    rewrite pow2_add in * by lia. nia.
Qed.

Lemma ddiv_spec x y :
  valid x -> valid y -> isfinite x = true -> isfinite y = true -> 0 < mag y ->
  rounded_to (xorb (sign x) (sign y)) (rnd (mag x * 2 ^ 1074) (mag y)) (ddiv x y).
Proof.
  intros Hx Hy Fx Fy Hpos. destruct y as [sy| | |sy my ey]; try discriminate.
  pose proof (proj1 (bounded_iff _ _) Hy) as (Hey & _ & _).
  destruct x as [sx| | |sx mx ex]; try discriminate.
  { simpl mag at 1. rewrite Z.mul_0_l, rnd_zero by done. by split_and!. }
  pose proof (proj1 (bounded_iff _ _) Hx) as (Hex & _ & _). simpl sign. apply sfdiv_spec; lia.
Qed.
