(* ===== verification/Float64Facts.v ===== *)
(** * Facts about doubles that the components share

    Validity of every operation, signs and monotonicity in terms of [scaled],
    exact integer conversion, and the round trip between a double and its
    64-bit representation. *)

From S2P Require Import Prelude Float64 Float64Round Float64Arith Float64Ops Float64Order.
From Stdlib Require Import SpecFloat.

Open Scope Z_scope.

(** ** Validity *)

Lemma valid_special x : isfinite x = false -> valid x.
Proof. by destruct x. Qed.

Lemma valid_zero s : valid (S754_zero s).
Proof. done. Qed.

Lemma valid_dopp x : valid x -> valid (dopp x).
Proof. by destruct x. Qed.

Lemma valid_dabs x : valid x -> valid (dabs x).
Proof. by destruct x. Qed.

Lemma valid_dadd x y : valid x -> valid y -> valid (dadd x y).
Proof.
  intros Hx Hy. destruct (isfinite x) eqn:Fx, (isfinite y) eqn:Fy.
  - by destruct (dadd_spec x y Hx Hy Fx Fy).
  - by destruct x, y as [|[]| |].
  - by destruct x as [|[]| |], y.
  - by destruct x as [|[]| |], y as [|[]| |].
Qed.

Lemma valid_dsub x y : valid x -> valid y -> valid (dsub x y).
Proof. intros. rewrite dsub_dadd. auto using valid_dadd, valid_dopp. Qed.

Lemma valid_dmul x y : valid x -> valid y -> valid (dmul x y).
Proof.
  intros Hx Hy. destruct (isfinite x) eqn:Fx, (isfinite y) eqn:Fy.
  - by destruct (dmul_spec x y Hx Hy Fx Fy).
  - by destruct x, y as [|[]| |].
  - by destruct x as [|[]| |], y.
  - by destruct x as [|[]| |], y as [|[]| |].
Qed.

Lemma valid_ddiv x y : valid x -> valid y -> valid (ddiv x y).
Proof.
  intros Hx Hy. destruct (isfinite x) eqn:Fx, (isfinite y) eqn:Fy.
  - destruct y as [sy| | |sy my ey]; try discriminate; [by destruct x|].
    eapply (ddiv_spec x); [done..|]. simpl. apply valid_exp in Hy.
    pose proof (pow2_pos (ey + 1074)). nia.
  - by destruct x, y as [|[]| |].
  - by destruct x as [|[]| |], y.
  - by destruct x as [|[]| |], y as [|[]| |].
Qed.

Lemma valid_dmin x y : valid x -> valid y -> valid (dmin x y).
Proof. unfold dmin. by destruct (dltb y x). Qed.

Lemma valid_dmax x y : valid x -> valid y -> valid (dmax x y).
Proof. unfold dmax. by destruct (dltb x y). Qed.

Lemma valid_d_of_Z z : valid (d_of_Z z).
Proof. by destruct (d_of_Z_spec z). Qed.

Lemma valid_dlit n k : valid (dlit n k).
Proof. apply valid_ddiv; apply valid_d_of_Z. Qed.

#[export] Hint Resolve valid_zero valid_dopp valid_dabs valid_dadd valid_dsub valid_dmul
  valid_ddiv valid_dmin valid_dmax valid_d_of_Z valid_dlit : float.

(** ** Comparisons *)

Lemma dleb_refl x : valid x -> is_nan x = false -> dleb x x = true.
Proof. intros. rewrite dleb_scaled by done. apply Z.leb_refl. Qed.

Lemma dltb_dleb x y : dltb x y = true -> dleb x y = true.
Proof. unfold dltb, dleb, SFltb, SFleb. by destruct (SFcompare x y) as [[]|]. Qed.

(** ** Integers *)

Lemma representable_abs_int z : Z.abs z <= 2 ^ 53 -> representable (Z.abs z * 2 ^ 1074).
Proof.
  intros Hz. apply representable_shift; [|done].
  destruct (decide (Z.abs z = 2 ^ 53)) as [->|]; [|apply representable_small; lia].
  by exists (2 ^ 52), 1.
Qed.

(** Integers up to 2^53 convert exactly. *)
Lemma d_of_Z_exact z :
  Z.abs z <= 2 ^ 53 ->
  valid (d_of_Z z) /\ isfinite (d_of_Z z) = true /\ scaled (d_of_Z z) = z * 2 ^ 1074.
Proof.
  intros Hz. destruct (d_of_Z_spec z) as (Hv & Hn & Hs).
  assert (Hr : rndZ (z * 2 ^ 1074) = z * 2 ^ 1074).
  { unfold rndZ. pose proof (pow2_pos 1074 ltac:(lia)) as Hp.
    rewrite Z.abs_mul, (Z.abs_eq (2 ^ 1074)) by lia.
    pose proof (rnd_exact _ 1 ltac:(lia) (representable_abs_int z Hz)) as Hx.
    rewrite Z.mul_1_r in Hx. rewrite Hx, Z.min_l.
    - rewrite Z.sgn_mul, (Z.sgn_pos (2 ^ 1074)) by lia. rewrite Z.mul_1_r, Z.mul_assoc.
      f_equal. lia.
    - unfold ovf. change 2098 with (1024 + 1074). rewrite pow2_add by lia.
      apply Z.mul_le_mono_nonneg_r; [lia|]. etransitivity; [done|]. by apply pow2_le. }
  rewrite Hr in Hs. split_and!; [done| |done]. apply isfinite_iff; [done|done|].
  rewrite Hs. unfold ovf. change 2098 with (1024 + 1074). rewrite pow2_add by lia.
  pose proof (pow2_pos 1074 ltac:(lia)). assert (2 ^ 53 < 2 ^ 1024) by by apply Z.pow_lt_mono_r.
  split; nia.
Qed.

Lemma d_of_Z_nonneg z : 0 <= z -> is_nan (d_of_Z z) = false /\ 0 <= scaled (d_of_Z z).
Proof.
  intros Hz. destruct (d_of_Z_spec z) as (_ & Hn & Hs). split; [done|]. rewrite Hs.
  apply rndZ_nonneg. pose proof (pow2_pos 1074 ltac:(lia)). lia.
Qed.

Lemma d_of_Z_mono z z' : z <= z' -> scaled (d_of_Z z) <= scaled (d_of_Z z').
Proof.
  intros Hz. destruct (d_of_Z_spec z) as (_ & _ & ->). destruct (d_of_Z_spec z') as (_ & _ & ->).
  apply rndZ_mono. pose proof (pow2_pos 1074 ltac:(lia)). nia.
Qed.

(** ** Signs and monotonicity of the operations *)

Lemma scaled_nonneg_mag x : 0 <= scaled x -> scaled x = mag x.
Proof. unfold scaled. pose proof (mag_nonneg x). destruct (sign x); simpl; lia. Qed.

Lemma dadd_nonneg x y :
  valid x -> valid y -> isfinite x = true -> isfinite y = true ->
  0 <= scaled x -> 0 <= scaled y -> is_nan (dadd x y) = false /\ 0 <= scaled (dadd x y).
Proof.
  intros. destruct (dadd_spec x y) as (_ & Hn & ->); [done..|]. split; [done|].
  apply rndZ_nonneg. lia.
Qed.

(** Adding a nonnegative value never decreases, subtracting never increases. *)
Lemma dadd_ge x y :
  valid x -> valid y -> isfinite x = true -> isfinite y = true -> 0 <= scaled y ->
  scaled x <= scaled (dadd x y).
Proof.
  intros Hx Hy Fx Fy Hp. destruct (dadd_spec x y) as (_ & _ & ->); [done..|].
  rewrite <- (rndZ_exact x) at 1 by auto with float. apply rndZ_mono. lia.
Qed.

Lemma dsub_le x y :
  valid x -> valid y -> isfinite x = true -> isfinite y = true -> 0 <= scaled y ->
  scaled (dsub x y) <= scaled x.
Proof.
  intros Hx Hy Fx Fy Hp. destruct (dsub_spec x y) as (_ & _ & ->); [done..|].
  rewrite <- (rndZ_exact x) at 2 by auto with float. apply rndZ_mono. lia.
Qed.

Lemma rounded_nonneg x v :
  rounded_to false v x -> 0 <= v -> valid x /\ is_nan x = false /\ 0 <= scaled x.
Proof.
  intros Hr Hv. destruct (rounded_props _ _ _ Hr) as (? & ? & Hs). split_and!; [done..|].
  rewrite Hs. pose proof ovf_pos. simpl. lia.
Qed.

(** Quotients by a positive constant are monotone in the dividend. *)
Lemma ddiv_mono x x' y :
  valid x -> valid x' -> valid y -> isfinite x = true -> isfinite x' = true -> isfinite y = true ->
  0 < scaled y -> 0 <= scaled x <= scaled x' -> sign x = false -> sign x' = false ->
  scaled (ddiv x y) <= scaled (ddiv x' y).
Proof.
  intros Hx Hx' Hy Fx Fx' Fy Hp Hle Sx Sx'.
  assert (Sy : sign y = false).
  { destruct (sign y) eqn:E; [|done]. unfold scaled in Hp. rewrite E in Hp. simpl in Hp.
    pose proof (mag_nonneg y). lia. }
  pose proof (scaled_nonneg_mag y ltac:(lia)). pose proof (scaled_nonneg_mag x ltac:(lia)).
  pose proof (scaled_nonneg_mag x' ltac:(lia)).
  destruct (rounded_props _ _ _ (ddiv_spec x y Hx Hy Fx Fy ltac:(lia))) as (_ & _ & ->).
  destruct (rounded_props _ _ _ (ddiv_spec x' y Hx' Hy Fx' Fy ltac:(lia))) as (_ & _ & ->).
  rewrite Sx, Sx', Sy. simpl cond_Zopp.
  pose proof (pow2_pos 1074 ltac:(lia)).
  pose proof (rnd_mono (mag x * 2 ^ 1074) (mag y) (mag x' * 2 ^ 1074) (mag y)). nia.
Qed.

(** Multiplying by 1.0 and adding a zero are exact. *)
Lemma double_ext x y :
  valid x -> valid y -> is_nan x = false -> is_nan y = false ->
  sign x = sign y -> mag x = mag y -> x = y.
Proof.
  assert (Hpos : forall s m e, valid (S754_finite s m e) -> 0 < mag (S754_finite s m e) < ovf).
  { intros s m e Hv. pose proof (mag_finite_lt _ Hv eq_refl). apply valid_exp in Hv.
    simpl in *. pose proof (pow2_pos (e + 1074)). nia. }
  pose proof ovf_pos as Ho. intros Hx Hy Nx Ny Hs Hm.
  destruct x as [sx|sx| |sx mx ex], y as [sy|sy| |sy my ey]; try discriminate; simpl in Hs; subst;
    try pose proof (Hpos _ _ _ Hx); try pose proof (Hpos _ _ _ Hy); try done;
    try (exfalso; simpl in *; lia).
  pose proof (mag_compare mx ex my ey Hx Hy) as Hc. simpl in Hm. rewrite Hm, Z.compare_refl in Hc.
  destruct (Z.compare_spec ex ey) as [->| |]; try discriminate.
  symmetry in Hc. apply Pos.compare_eq in Hc. by subst.
Qed.

Lemma dmul_1_r x : valid x -> isfinite x = true -> dmul x d1 = x.
Proof.
  intros Hv Hf. destruct (dmul_spec x d1 Hv eq_refl Hf eq_refl) as (Hv' & Hn & Hs & Hm).
  apply double_ext; [done|done|done|by auto with float|by rewrite Hs; destruct (sign x)|].
  rewrite Hm. change (mag d1) with (2 ^ 52 * 2 ^ (-52 + 1074)). rewrite <- pow2_add by lia.
  change (52 + (-52 + 1074)) with 1074.
  rewrite rnd_exact by (by apply pow2_pos || by apply representable_mag).
  pose proof (mag_finite_lt x Hv Hf). lia.
Qed.

(** ** Nonnegative values *)

(** [nonneg] includes +infinity, [fnn] is finite. *)
Definition nonneg (x : double) : Prop := valid x /\ is_nan x = false /\ sign x = false.
Definition fnn (x : double) : Prop := nonneg x /\ isfinite x = true.

Lemma nonneg_scaled x : nonneg x -> scaled x = mag x /\ 0 <= scaled x.
Proof. intros (_ & _ & Hs). rewrite (scaled_sgn x false Hs). split; [done|apply mag_nonneg]. Qed.

Lemma pos_sign x : 0 < scaled x -> sign x = false.
Proof.
  intros Hp. destruct (sign x) eqn:E; [|done]. unfold scaled in Hp. rewrite E in Hp. simpl in Hp.
  pose proof (mag_nonneg x). lia.
Qed.

Lemma d_of_Z_sign z : 0 <= z -> sign (d_of_Z z) = false.
Proof.
  intros Hz. destruct (decide (z = 0)) as [->|]; [done|]. apply pos_sign.
  pose proof (d_of_Z_mono 1 z ltac:(lia)). destruct (d_of_Z_exact 1) as (_ & _ & H1); [lia|].
  pose proof (pow2_pos 1074). lia.
Qed.

Lemma d_of_Z_fnn z : 0 <= z <= 2 ^ 64 -> fnn (d_of_Z z) /\ scaled (d_of_Z z) <= 2 ^ 1138.
Proof.
  intros Hz. destruct (d_of_Z_spec z) as (Hv & Hn & Hs).
  assert (Hle : scaled (d_of_Z z) <= 2 ^ 1138).
  { etransitivity; [apply (d_of_Z_mono z (2 ^ 64)); lia|]. by vm_compute. }
  split; [|done]. split; [split_and!; [done|done|apply d_of_Z_sign; lia]|].
  apply isfinite_iff; [done|done|]. destruct (d_of_Z_nonneg z) as [_ H0]; [lia|].
  pose proof ovf_pos. assert (2 ^ 1138 < ovf) by by apply Z.pow_lt_mono_r. lia.
Qed.

Lemma dadd_fnn x y : fnn x -> fnn y -> nonneg (dadd x y).
Proof.
  intros [Hx Fx] [Hy Fy]. pose proof (nonneg_scaled x Hx) as [_ Px].
  pose proof (nonneg_scaled y Hy) as [_ Py]. destruct Hx as (Vx & Nx & Sx), Hy as (Vy & Ny & Sy).
  destruct (dadd_spec x y) as (Hv & Hn & _); [done..|]. split_and!; [done..|].
  destruct x as [sx| | |sx mx ex]; try done; simpl in Sx; subst.
  - destruct y as [sy| | |sy my ey]; try done; simpl in Sy; by subst.
  - apply pos_sign. pose proof (dadd_ge _ y Vx Vy Fx Fy Py).
    assert (0 < scaled (S754_finite false mx ex)); [|lia].
    rewrite scaled_finite. simpl. apply valid_exp in Vx. pose proof (pow2_pos (ex + 1074)). nia.
Qed.

Lemma dmul_fnn x y : fnn x -> fnn y -> nonneg (dmul x y).
Proof.
  intros [(Vx & Nx & Sx) Fx] [(Vy & Ny & Sy) Fy].
  destruct (dmul_spec x y) as (? & ? & Hs & _); [done..|]. rewrite Sx, Sy in Hs. by split_and!.
Qed.

Lemma ddiv_fnn x y : fnn x -> fnn y -> 0 < scaled y -> nonneg (ddiv x y).
Proof.
  intros [(Vx & Nx & Sx) Fx] [(Vy & Ny & Sy) Fy] Hp. rewrite (scaled_sgn y _ Sy) in Hp.
  destruct (ddiv_spec x y) as (? & ? & Hs & _); [done..|]. rewrite Sx, Sy in Hs. by split_and!.
Qed.

Lemma nonneg_le_fnn x y : nonneg x -> fnn y -> scaled x <= scaled y -> fnn x.
Proof.
  intros Hx [Hy Fy] Hle. split; [done|]. pose proof (nonneg_scaled x Hx).
  destruct Hx as (Vx & Nx & _), Hy as (Vy & _). apply isfinite_iff; [done..|].
  pose proof (ovf_bound y Vy Fy). lia.
Qed.

(** Products of nonnegative values are monotone; a factor up to 1 shrinks. *)
Lemma dmul_mono x x' y :
  fnn x -> fnn x' -> fnn y -> scaled x <= scaled x' -> scaled (dmul x y) <= scaled (dmul x' y).
Proof.
  intros Hx Hx' Hy Hle. pose proof (nonneg_scaled x (proj1 Hx)) as [Ex Px].
  pose proof (nonneg_scaled x' (proj1 Hx')) as [Ex' Px'].
  pose proof (nonneg_scaled y (proj1 Hy)) as [Ey Py].
  rewrite (proj1 (nonneg_scaled _ (dmul_fnn x y Hx Hy))), (proj1 (nonneg_scaled _ (dmul_fnn x' y Hx' Hy))).
  destruct Hx as [(Vx & _ & _) Fx], Hx' as [(Vx' & _ & _) Fx'], Hy as [(Vy & _ & _) Fy].
  destruct (dmul_spec x y) as (_ & _ & _ & ->); [done..|].
  destruct (dmul_spec x' y) as (_ & _ & _ & ->); [done..|].
  pose proof (pow2_pos 1074 ltac:(lia)).
  pose proof (rnd_mono (mag x * mag y) (2 ^ 1074) (mag x' * mag y) (2 ^ 1074)). nia.
Qed.

(** A product, quotient or sum is at most any double that bounds the exact result. *)
Lemma dmul_le x y z :
  fnn x -> fnn y -> fnn z -> scaled x * scaled y <= scaled z * 2 ^ 1074 ->
  fnn (dmul x y) /\ scaled (dmul x y) <= scaled z.
Proof.
  intros Hx Hy Hz Hle. pose proof (dmul_fnn x y Hx Hy) as Hm.
  rewrite (proj1 (nonneg_scaled x (proj1 Hx))), (proj1 (nonneg_scaled y (proj1 Hy))) in Hle.
  rewrite (proj1 (nonneg_scaled z (proj1 Hz))) in Hle.
  assert (Hs : scaled (dmul x y) <= scaled z).
  { rewrite (proj1 (nonneg_scaled _ Hm)), (proj1 (nonneg_scaled z (proj1 Hz))).
    destruct Hx as [(Vx & _ & _) Fx], Hy as [(Vy & _ & _) Fy], Hz as [(Vz & _ & _) Fz].
    destruct (dmul_spec x y) as (_ & _ & _ & ->); [done..|]. pose proof (pow2_pos 1074 ltac:(lia)).
    pose proof (rnd_exact (mag z) (2 ^ 1074) ltac:(lia) (representable_mag z Vz Fz)) as He.
    pose proof (mag_nonneg x). pose proof (mag_nonneg y). pose proof (mag_nonneg z).
    pose proof (rnd_mono (mag x * mag y) (2 ^ 1074) (mag z * 2 ^ 1074) (2 ^ 1074)). nia. }
  split; [by apply (nonneg_le_fnn _ z)|done].
Qed.

Lemma ddiv_le x y z :
  fnn x -> fnn y -> fnn z -> 0 < scaled y -> scaled x * 2 ^ 1074 <= scaled z * scaled y ->
  fnn (ddiv x y) /\ scaled (ddiv x y) <= scaled z.
Proof.
  intros Hx Hy Hz Hp Hle. pose proof (ddiv_fnn x y Hx Hy Hp) as Hm.
  rewrite (proj1 (nonneg_scaled y (proj1 Hy))) in Hp.
  rewrite (proj1 (nonneg_scaled x (proj1 Hx))), (proj1 (nonneg_scaled y (proj1 Hy))) in Hle.
  rewrite (proj1 (nonneg_scaled z (proj1 Hz))) in Hle.
  assert (Hs : scaled (ddiv x y) <= scaled z).
  { rewrite (proj1 (nonneg_scaled _ Hm)), (proj1 (nonneg_scaled z (proj1 Hz))).
    destruct Hx as [(Vx & _ & _) Fx], Hy as [(Vy & _ & _) Fy], Hz as [(Vz & _ & _) Fz].
    destruct (ddiv_spec x y) as (_ & _ & _ & ->); [done..|]. pose proof (pow2_pos 1074 ltac:(lia)).
    pose proof (rnd_exact (mag z) (mag y) ltac:(lia) (representable_mag z Vz Fz)) as He.
    pose proof (mag_nonneg x). pose proof (mag_nonneg z).
    pose proof (rnd_mono (mag x * 2 ^ 1074) (mag y) (mag z * mag y) (mag y)). nia. }
  split; [by apply (nonneg_le_fnn _ z)|done].
Qed.

(** In particular a factor up to 1 shrinks, and so does a divisor of at least 1. *)
Lemma dmul_le_r x y : fnn x -> fnn y -> scaled y <= 2 ^ 1074 -> scaled (dmul x y) <= scaled x.
Proof.
  intros Hx Hy Hle. pose proof (nonneg_scaled x (proj1 Hx)). apply dmul_le; [done..|nia].
Qed.

Lemma dmul_le_l x y : fnn x -> fnn y -> scaled x <= 2 ^ 1074 -> scaled (dmul x y) <= scaled y.
Proof.
  intros Hx Hy Hle. pose proof (nonneg_scaled y (proj1 Hy)). apply dmul_le; [done..|nia].
Qed.

(** A sum is at most any representable bound of the exact sum. *)
Lemma dadd_le x y z :
  fnn x -> fnn y -> fnn z -> scaled x + scaled y <= scaled z ->
  fnn (dadd x y) /\ scaled (dadd x y) <= scaled z.
Proof.
  intros Hx Hy Hz Hle. assert (Hs : scaled (dadd x y) <= scaled z).
  { destruct Hx as [(Vx & _ & _) Fx], Hy as [(Vy & _ & _) Fy], Hz as [(Vz & Nz & _) Fz].
    destruct (dadd_spec x y) as (_ & _ & ->); [done..|].
    rewrite <- (rndZ_exact z) by done. by apply rndZ_mono. }
  split; [|done]. apply (nonneg_le_fnn _ z); [by apply dadd_fnn|done|done].
Qed.

Lemma dadd_mono_l x x' y :
  fnn x -> fnn x' -> fnn y -> scaled x <= scaled x' -> scaled (dadd x y) <= scaled (dadd x' y).
Proof.
  intros [(Vx & _ & _) Fx] [(Vx' & _ & _) Fx'] [(Vy & _ & _) Fy] Hle.
  destruct (dadd_spec x y) as (_ & _ & ->); [done..|].
  destruct (dadd_spec x' y) as (_ & _ & ->); [done..|]. apply rndZ_mono. lia.
Qed.

Lemma ddiv_le_l x y : fnn x -> fnn y -> 2 ^ 1074 <= scaled y -> scaled (ddiv x y) <= scaled x.
Proof.
  intros Hx Hy Hle. pose proof (nonneg_scaled x (proj1 Hx)). pose proof (pow2_pos 1074 ltac:(lia)).
  apply ddiv_le; [done..|lia|nia].
Qed.

Lemma ddiv_ge1_fnn x y : fnn x -> fnn y -> 2 ^ 1074 <= scaled y -> fnn (ddiv x y).
Proof.
  intros Hx Hy Hle. pose proof (pow2_pos 1074 ltac:(lia)).
  apply (nonneg_le_fnn _ x); [apply ddiv_fnn; [done|done|lia]|done|by apply ddiv_le_l].
Qed.

Lemma ddiv_mono_l x x' y :
  fnn x -> fnn x' -> fnn y -> 0 < scaled y -> scaled x <= scaled x' ->
  scaled (ddiv x y) <= scaled (ddiv x' y).
Proof.
  intros [Hx Fx] [Hx' Fx'] [Hy Fy] Hp Hle. pose proof (nonneg_scaled x Hx) as [_ Px].
  destruct Hx as (? & ? & ?), Hx' as (? & ? & ?), Hy as (? & ? & ?). by apply ddiv_mono.
Qed.

(** Comparison of nonnegative finite values. *)
Lemma fnn_leb x y : fnn x -> fnn y -> dleb x y = (scaled x <=? scaled y).
Proof. intros [(? & ? & ?) ?] [(? & ? & ?) ?]. by apply dleb_scaled. Qed.

Lemma fnn_ltb x y : fnn x -> fnn y -> dltb x y = (scaled x <? scaled y).
Proof. intros [(? & ? & ?) ?] [(? & ? & ?) ?]. by apply dltb_scaled. Qed.

(** A quotient is at most any integer that bounds the exact quotient. *)
Lemma ddiv_ratio x y m :
  fnn x -> fnn y -> 0 < scaled y -> 0 <= m <= 2 ^ 53 -> scaled x <= m * scaled y ->
  fnn (ddiv x y) /\ scaled (ddiv x y) <= m * 2 ^ 1074.
Proof.
  intros Hx Hy Hp Hm Hle. destruct (d_of_Z_fnn m) as [Fm _]; [lia|].
  destruct (d_of_Z_exact m) as (_ & _ & Em); [lia|]. rewrite <- Em.
  apply ddiv_le; [done..|]. rewrite Em. pose proof (pow2_pos 1074 ltac:(lia)). nia.
Qed.

(** Truncation to an unsigned integer. *)
Lemma u64_of_double_spec x :
  fnn x -> scaled x < 2 ^ 1138 -> u64_of_double x = Some (scaled x / 2 ^ 1074).
Proof.
  intros [(Vx & _ & Sx) Fx] Hlt. destruct x as [s| | |s m e]; try done; simpl in Sx; subst; [done|].
  rewrite scaled_finite in *. simpl cond_Zopp in *. apply valid_exp in Vx. simpl.
  assert (Ht : trunc_Z m e = Zpos m * 2 ^ (e + 1074) / 2 ^ 1074).
  { unfold trunc_Z. pose proof (pow2_pos 1074 ltac:(lia)). destruct (Z.leb_spec 0 e).
    - rewrite pow2_add, Z.mul_assoc, Z.div_mul by lia. done.
    - assert (2 ^ 1074 = 2 ^ (- e) * 2 ^ (e + 1074)) as ->.
      { rewrite <- pow2_add by lia. by replace (- e + (e + 1074)) with 1074 by lia. }
      pose proof (pow2_pos (e + 1074) ltac:(lia)). pose proof (pow2_pos (- e) ltac:(lia)).
      by rewrite Z.div_mul_cancel_r by lia. }
  rewrite <- Ht. destruct (Z.ltb_spec (trunc_Z m e) (2 ^ 64)) as [|Hge]; [done|].
  exfalso. rewrite Ht in Hge. change 1138 with (1074 + 64) in Hlt. rewrite (pow2_add 1074 64) in Hlt by lia.
  apply (Z.div_lt_upper_bound _ (2 ^ 1074)) in Hlt; [lia|by apply pow2_pos].
Qed.

(** ** The 64-bit representation *)

Lemma word_fields s e m :
  0 <= e < 2048 -> 0 <= m < 2 ^ 52 ->
  let w := sign_bit s + e * 2 ^ 52 + m in
  in_width 64 w /\ Z.testbit w 63 = s /\ Z.shiftr w 52 mod 2 ^ 11 = e /\ w mod 2 ^ 52 = m.
Proof.
  intros He Hm w. unfold in_width.
  assert (Hw : w = (if s then 2048 else 0) * 2 ^ 52 + e * 2 ^ 52 + m) by by destruct s.
  assert (Hq : w / 2 ^ 52 = (if s then 2048 else 0) + e).
  { symmetry. apply (Z.div_unique w (2 ^ 52) _ m); [lia|]. destruct s; lia. }
  split_and!.
  - destruct s; lia.
  - destruct s; lia.
  - rewrite Z.testbit_odd, Z.shiftr_div_pow2 by lia.
    replace (w / 2 ^ 63) with (if s then 1 else 0); [by destruct s|].
    apply (Z.div_unique w (2 ^ 63) _ (e * 2 ^ 52 + m)); destruct s; lia.
  - rewrite Z.shiftr_div_pow2, Hq by lia. symmetry.
    apply (Z.mod_unique _ _ (if s then 1 else 0)); destruct s; lia.
  - symmetry. apply (Z.mod_unique _ _ ((if s then 2048 else 0) + e)); [lia|]. destruct s; lia.
Qed.

Lemma bits_fields x :
  valid x -> is_nan x = false ->
  exists e m, 0 <= e < 2048 /\ 0 <= m < 2 ^ 52 /\
    bits_of_double x = sign_bit (sign x) + e * 2 ^ 52 + m /\
    x = (if e =? 0 then match m with Zpos p => S754_finite (sign x) p (-1074) | _ => S754_zero (sign x) end
         else if e =? 2047 then (if m =? 0 then S754_infinity (sign x) else S754_nan)
         else match m + 2 ^ 52 with Zpos p => S754_finite (sign x) p (e - 1075) | _ => S754_zero (sign x) end).
Proof.
  intros Hv Hn. destruct x as [s|s| |s m e]; try discriminate; simpl.
  - exists 0, 0. by rewrite !Z.add_0_r.
  - exists 2047, 0. by rewrite Z.add_0_r.
  - apply bounded_iff in Hv as (He & Hd & Hc).
    destruct (Zdigits2_bounds (Zpos m)) as [? [Hlo Hhi]]; [lia|]. pose proof (pow2_le _ _ Hd).
    destruct (Z.ltb_spec (Zpos m) (2 ^ 52)).
    + exists 0, (Zpos m). destruct Hc as [->|Hc]; [split_and!; lia || done|].
      rewrite Hc in Hlo. change (53 - 1) with 52 in Hlo. lia.
    + exists (e + 1075), (Zpos m - 2 ^ 52). split_and!; [lia..|].
      rewrite (proj2 (Z.eqb_neq (e + 1075) 0)), (proj2 (Z.eqb_neq (e + 1075) 2047)) by lia.
      replace (Zpos m - 2 ^ 52 + 2 ^ 52) with (Zpos m) by lia. f_equal. lia.
Qed.

Lemma bits_of_double_width x : valid x -> in_width 64 (bits_of_double x).
Proof.
  intros Hv. destruct (is_nan x) eqn:Hn; [by destruct x|].
  destruct (bits_fields x Hv Hn) as (e & m & He & Hm & -> & _). by apply word_fields.
Qed.

(** Every double survives the trip through its 64-bit word. *)
Lemma double_of_bits_of_double x : valid x -> double_of_bits (bits_of_double x) = x.
Proof.
  intros Hv. destruct (is_nan x) eqn:Hn; [by destruct x|].
  destruct (bits_fields x Hv Hn) as (e & m & He & Hm & -> & Hx).
  destruct (word_fields (sign x) e m He Hm) as (_ & Hs & He' & Hm').
  unfold double_of_bits. by rewrite Hs, He', Hm'.
Qed.

Lemma double_of_bits_valid w : valid (double_of_bits w).
Proof.
  unfold double_of_bits.
  pose proof (Z.mod_pos_bound (Z.shiftr w 52) (2 ^ 11) ltac:(lia)) as He.
  pose proof (Z.mod_pos_bound w (2 ^ 52) ltac:(lia)) as Hm.
  set (e := Z.shiftr w 52 mod 2 ^ 11) in *. set (m := w mod 2 ^ 52) in *.
  destruct (Z.eqb_spec e 0); [|destruct (Z.eqb_spec e 2047)].
  - destruct m as [|p|]; try done. apply bounded_iff. split; [lia|]. split; [|by left].
    apply Zdigits2_le; lia.
  - by destruct (m =? 0).
  - destruct (m + 2 ^ 52) as [|p|] eqn:Hp; try done. apply bounded_iff. split; [lia|].
    assert (Zdigits2 (Zpos p) = 53) by (apply Zdigits2_eq; lia). split; [lia|by right].
Qed.

#[export] Hint Resolve bits_of_double_width double_of_bits_valid : float.

(** ** Neutral elements *)

Lemma dsub_self x : valid x -> isfinite x = true -> valid (dsub x x) /\ isfinite (dsub x x) = true /\ scaled (dsub x x) = 0.
Proof.
  intros Hv Hf. destruct (dsub_spec x x Hv Hv Hf Hf) as (Hv' & Hn & Hs).
  rewrite Z.sub_diag in Hs. assert (Hz : scaled (dsub x x) = 0) by (rewrite Hs; reflexivity).
  split_and!; [done| |done]. apply isfinite_iff; [done|done|]. pose proof ovf_pos. lia.
Qed.

(** Multiplying by a zero gives a zero. *)
Lemma dmul_0_r x z :
  valid x -> isfinite x = true -> z = S754_zero (sign z) -> dmul x z = S754_zero (xorb (sign x) (sign z)).
Proof. intros _ Hf ->. by destruct x. Qed.

(** Adding a zero does not change a value, up to the sign of zero. *)
Lemma dadd_zero_r x s : valid x -> isfinite x = true -> deqb (dadd x (S754_zero s)) x = true.
Proof.
  intros Hv Hf. pose proof (valid_zero s) as Hz.
  destruct (dadd_spec x (S754_zero s) Hv Hz Hf eq_refl) as (Hv' & Hn & Hs).
  replace (scaled (S754_zero s)) with 0 in Hs by (by destruct s).
  rewrite Z.add_0_r, rndZ_exact in Hs by auto with float.
  rewrite deqb_scaled by auto with float. by apply Z.eqb_eq.
Qed.
