(* ===== verification/Clocks.v ===== *)
(** * Clocks: the readings of [utils/time.hpp]

    [now_ns] reads the monotonic clock, [system_now_ns] the wall clock, both as
    nanoseconds in a [uint64_t]. The other files take readings as inputs; here is what
    a difference of two readings means. *)

From S2P Require Import Prelude.

Open Scope Z_scope.

(** The clocks count nanoseconds in an [int64_t]; the conversion to [uint64_t] keeps
    the value modulo 2^64. *)
Definition now_ns (steady : Z) : Z := u64 steady.
Definition system_now_ns (system : Z) : Z := u64 system.

(** The age of an earlier reading is exact. *)
Lemma age_exact earlier later :
  0 <= later - earlier < 2 ^ 64 -> u64 (now_ns later - now_ns earlier) = later - earlier.
Proof.
  intros H. unfold now_ns, wrap. rewrite <- Zminus_mod, Z.mod_small; [done|exact H].
Qed.

(** The age of a later reading is not small: it wraps to more than 290 years when
    the two are less than 290 years apart. *)
Lemma age_of_later_wraps earlier later :
  earlier < later -> later - earlier <= 2 ^ 63 -> 2 ^ 63 <= u64 (now_ns earlier - now_ns later).
Proof.
  intros H1 H2. unfold now_ns, wrap. rewrite <- Zminus_mod.
  replace (earlier - later) with ((2 ^ 64 - (later - earlier)) + (-1) * 2 ^ 64) by lia.
  rewrite Z_mod_plus_full, Z.mod_small; lia.
Qed.
