(* ===== verification/Crc32.v ===== *)
(** * CRC-32 of a datagram ([PacketCodec::calculate_crc32])

    The bit-serial, reflected CRC with polynomial 0xEDB88320, as [src/src/net/packet_codec.cpp]
    writes it (branchless) and as the telemetry publisher writes it (branching),
    and the algebra behind its error detection: one register step is injective,
    and shifting up to four message bytes through the register is the same as
    xoring them in first. *)

From S2P Require Import Prelude.

Open Scope Z_scope.

(** ** Definitions *)

Definition crc_poly : Z := 0xEDB88320.

(** [crc = (crc >> 1) ^ (0xEDB88320 & (-(crc & 1)))] on [uint32_t]. *)
Definition crc_bit (crc : Z) : Z :=
  Z.lxor (Z.shiftr crc 1) (Z.land crc_poly (u32 (- Z.land crc 1))).

(** The body of the loop over the data: xor the byte in, then eight steps. *)
Definition crc_byte (crc b : Z) : Z := Nat.iter 8 crc_bit (Z.lxor crc b).

Definition crc_init : Z := 0xFFFFFFFF.

(** [data] is the [length] bytes at the pointer. [~crc] on [uint32_t] is the
    xor with all ones. *)
Definition calculate_crc32 (data : list Z) : Z :=
  Z.lxor (fold_left crc_byte data crc_init) 0xFFFFFFFF.

(** ** One step *)

Lemma crc_bit_alt crc :
  crc_bit crc = Z.lxor (Z.shiftr crc 1) (if Z.odd crc then crc_poly else 0).
Proof.
  unfold crc_bit. f_equal. change 1 with (Z.ones 1) at 1. rewrite Z.land_ones by lia.
  change (2 ^ 1) with 2. rewrite Zmod_odd. by destruct (Z.odd crc).
Qed.

Lemma crc_bit_width c : in_width 32 c -> in_width 32 (crc_bit c).
Proof.
  intros Hc. rewrite crc_bit_alt. apply in_width_lxor; [lia| |by destruct (Z.odd c)].
  apply in_width_shiftr; [lia|lia|done].
Qed.

(** Bit 31 of the result is bit 0 of the argument, since bit 31 of the
    polynomial is set: no information is lost. *)
Lemma crc_bit_inj c d :
  in_width 32 c -> in_width 32 d -> crc_bit c = crc_bit d -> c = d.
Proof.
  intros Hc Hd. rewrite !crc_bit_alt. intros He.
  assert (Ho : Z.odd c = Z.odd d).
  { pose proof (f_equal (fun z => Z.testbit z 31) He) as Hb.
    cbv beta in Hb. rewrite !Z.lxor_spec, !Z.shiftr_spec in Hb by lia.
    rewrite (testbit_in_width 32 c), (testbit_in_width 32 d) in Hb by (done || lia).
    by destruct (Z.odd c), (Z.odd d). }
  rewrite Ho in He. apply Z.bits_inj'. intros i Hi. destruct (decide (i = 0)) as [->|].
  - by rewrite !Z.bit0_odd.
  - pose proof (f_equal (fun z => Z.testbit z (i - 1)) He) as Hb.
    cbv beta in Hb. rewrite !Z.lxor_spec, !Z.shiftr_spec in Hb by lia.
    replace (i - 1 + 1) with i in Hb by lia.
    by destruct (Z.testbit c i), (Z.testbit d i), (Z.testbit _ (i - 1)).
Qed.

(** Bits above the one that is shifted out pass through unchanged. *)
Lemma crc_bit_lxor_shift x y : crc_bit (Z.lxor x (Z.shiftl y 1)) = Z.lxor (crc_bit x) y.
Proof.
  rewrite !crc_bit_alt.
  assert (Z.odd (Z.lxor x (Z.shiftl y 1)) = Z.odd x) as ->.
  { rewrite <- !Z.bit0_odd, Z.lxor_spec, (Z.shiftl_spec_low y) by lia. apply xorb_false_r. }
  bitwise i Hi. rewrite Z.lxor_spec, Z.shiftl_spec by lia. replace (i + 1 - 1) with i by lia.
  generalize (Z.testbit x (i + 1)), (Z.testbit y i), (Z.testbit (if Z.odd x then crc_poly else 0) i).
  by intros [] [] [].
Qed.

Lemma crc_byte_eq c b : crc_byte c b = Nat.iter 8 crc_bit (Z.lxor c b).
Proof. done. Qed.

(** The step is used through its equations only. *)
#[local] Opaque crc_bit crc_byte.

(** ** Many steps *)

Lemma crc_iter_width n c : in_width 32 c -> in_width 32 (Nat.iter n crc_bit c).
Proof. intros. induction n; simpl; auto using crc_bit_width. Qed.

Lemma crc_iter_inj n c d :
  in_width 32 c -> in_width 32 d -> Nat.iter n crc_bit c = Nat.iter n crc_bit d -> c = d.
Proof.
  intros Hc Hd. induction n as [|n IH]; simpl; [done|]. intros He.
  apply IH, crc_bit_inj; auto using crc_iter_width.
Qed.

Lemma crc_iter_lxor_shift n x y :
  Nat.iter n crc_bit (Z.lxor x (Z.shiftl y (Z.of_nat n))) = Z.lxor (Nat.iter n crc_bit x) y.
Proof.
  revert y. induction n as [|n IH]; intros y.
  - by rewrite Z.shiftl_0_r.
  - rewrite Nat2Z.inj_succ, <- Z.add_1_l, <- Z.shiftl_shiftl by lia.
    simpl. by rewrite IH, crc_bit_lxor_shift.
Qed.

Lemma crc_byte_width c b : in_width 32 c -> is_byte b -> in_width 32 (crc_byte c b).
Proof.
  intros Hc Hb. rewrite crc_byte_eq. apply crc_iter_width, in_width_lxor; [lia|done|].
  by apply (in_width_mono 8); [lia|].
Qed.

Lemma crc_fold_width data c :
  Forall is_byte data -> in_width 32 c -> in_width 32 (fold_left crc_byte data c).
Proof.
  intros Hd. revert c. induction Hd; intros c; rewrite ?fold_left_cons; auto using crc_byte_width.
Qed.

Lemma calculate_crc32_width data : Forall is_byte data -> in_width 32 (calculate_crc32 data).
Proof. intros Hd. apply in_width_lxor; [lia|by apply crc_fold_width|done]. Qed.

Lemma lxor_byte_shift b v : is_byte b -> Z.lxor b (Z.shiftl v 8) = b + 256 * v.
Proof.
  intros Hb. rewrite Z.add_nocarry_lxor.
  - f_equal. rewrite Z.shiftl_mul_pow2 by lia. change (2 ^ 8) with 256. lia.
  - replace (256 * v) with (Z.shiftl v 8) by (rewrite Z.shiftl_mul_pow2 by lia; change (2 ^ 8) with 256; lia).
    bitwise i Hi. rewrite Z.bits_0. destruct (decide (i < 8)).
    + rewrite (Z.testbit_neg_r v) by lia. apply andb_false_r.
    + by rewrite (testbit_in_width 8 b) by (done || lia).
Qed.

(** Shifting a byte string through the register equals xoring its
    little-endian value into the register first. *)
Lemma crc_fold_value w c :
  Forall is_byte w ->
  fold_left crc_byte w c = Nat.iter (8 * length w) crc_bit (Z.lxor c (le_value w)).
Proof.
  intros Hw. revert c. induction Hw as [|b w Hb Hw IH]; intros c.
  - by rewrite Z.lxor_0_r.
  - rewrite fold_left_cons, IH. replace (8 * length (b :: w))%nat with (8 * length w + 8)%nat by (simpl; lia).
    rewrite Nat.iter_add. f_equal. simpl le_value.
    rewrite <- lxor_byte_shift, <- Z.lxor_assoc by done.
    by rewrite crc_byte_eq, (crc_iter_lxor_shift 8).
Qed.

(** ** Error detection *)

Lemma crc_byte_inj c d b :
  in_width 32 c -> in_width 32 d -> is_byte b -> crc_byte c b = crc_byte d b -> c = d.
Proof.
  intros Hc Hd Hb He. apply (in_width_mono 8 32) in Hb; [|lia].
  rewrite !crc_byte_eq in He. apply crc_iter_inj in He; [|by apply in_width_lxor..].
  apply (f_equal (Z.lxor b)) in He.
  by rewrite !(Z.lxor_comm b), !Z.lxor_assoc, Z.lxor_nilpotent, !Z.lxor_0_r in He.
Qed.

Lemma crc_fold_inj data c d :
  Forall is_byte data -> in_width 32 c -> in_width 32 d ->
  fold_left crc_byte data c = fold_left crc_byte data d -> c = d.
Proof.
  intros Hb. revert c d. induction Hb; [done|]. intros c d Hc Hd He. rewrite !fold_left_cons in He.
  eapply crc_byte_inj; [done..|]. apply IHHb; auto using crc_byte_width.
Qed.

(** Two windows of at most 32 bits lead to different registers. *)
Lemma crc_window_inj w w' c :
  Forall is_byte w -> Forall is_byte w' -> length w = length w' -> (length w <= 4)%nat ->
  in_width 32 c -> fold_left crc_byte w c = fold_left crc_byte w' c -> w = w'.
Proof.
  intros Hw Hw' Hl Hs Hc He. rewrite !crc_fold_value, <- Hl in He by done.
  assert (Hv : forall u, Forall is_byte u -> length u = length w -> in_width 32 (Z.lxor c (le_value u))).
  { intros u Hu Hlu. apply in_width_lxor; [lia|done|].
    eapply in_width_mono; [|by apply le_value_range]. lia. }
  apply crc_iter_inj in He; [|by apply Hv..].
  apply (f_equal (Z.lxor c)) in He.
  rewrite <- !Z.lxor_assoc, Z.lxor_nilpotent, !Z.lxor_0_l in He. by apply le_value_inj.
Qed.

(** The register after a message followed by its own CRC is a constant. *)
Definition crc_residue : Z := Nat.iter 32 crc_bit 0xFFFFFFFF.

Lemma lxor_cancel_iff s crc : Z.lxor s 0xFFFFFFFF = crc <-> Z.lxor s crc = 0xFFFFFFFF.
Proof.
  split; [intros <-|intros <-]; rewrite <- Z.lxor_assoc, Z.lxor_nilpotent; apply Z.lxor_0_l.
Qed.

Lemma crc_iter_inj_iff n c d :
  in_width 32 c -> in_width 32 d -> Nat.iter n crc_bit c = Nat.iter n crc_bit d <-> c = d.
Proof. intros Hc Hd. split; [by apply crc_iter_inj|by intros ->]. Qed.

Lemma crc_residue_iff data crc :
  Forall is_byte data -> in_width 32 crc ->
  calculate_crc32 data = crc <->
  fold_left crc_byte (data ++ le_bytes 4 crc) crc_init = crc_residue.
Proof.
  intros Hd Hc. rewrite fold_left_app, crc_fold_value by apply le_bytes_bytes.
  rewrite length_le_bytes, le_value_bytes_small by done.
  assert (Hs : in_width 32 (fold_left crc_byte data crc_init)) by by apply crc_fold_width.
  unfold crc_residue, calculate_crc32. rewrite lxor_cancel_iff. symmetry.
  apply (crc_iter_inj_iff 32); [by apply in_width_lxor|done].
Qed.

(** Two messages with the same register constant do not differ in only one
    window of at most four bytes. *)
Lemma crc_burst pre w w' post :
  Forall is_byte (pre ++ w ++ post) -> Forall is_byte w' ->
  length w = length w' -> (length w <= 4)%nat -> w <> w' ->
  fold_left crc_byte (pre ++ w ++ post) crc_init <> fold_left crc_byte (pre ++ w' ++ post) crc_init.
Proof.
  rewrite !Forall_app. intros (Hp & Hw & Hq) Hw' Hl Hs Hn He. apply Hn.
  rewrite !fold_left_app in He.
  assert (Hc : in_width 32 (fold_left crc_byte pre crc_init)) by by apply crc_fold_width.
  apply crc_fold_inj in He; [|done|by apply crc_fold_width..].
  by eapply crc_window_inj.
Qed.

(** ** Linearity *)

Lemma crc_bit_lxor x y : crc_bit (Z.lxor x y) = Z.lxor (crc_bit x) (crc_bit y).
Proof.
  rewrite !crc_bit_alt, Z.shiftr_lxor.
  assert (Ho : Z.odd (Z.lxor x y) = xorb (Z.odd x) (Z.odd y)) by (rewrite <- !Z.bit0_odd; apply Z.lxor_spec).
  rewrite Ho. apply Z.bits_inj_iff. intros n. rewrite !Z.lxor_spec.
  generalize (Z.testbit (Z.shiftr x 1) n), (Z.testbit (Z.shiftr y 1) n). intros a b.
  destruct (Z.odd x), (Z.odd y); cbn [xorb]; rewrite ?Z.testbit_0_l; generalize (Z.testbit crc_poly n);
    by intros []; destruct a, b.
Qed.

Lemma crc_iter_lxor n x y : Nat.iter n crc_bit (Z.lxor x y) = Z.lxor (Nat.iter n crc_bit x) (Nat.iter n crc_bit y).
Proof. induction n as [|n IH]; simpl; [done|]. by rewrite IH, crc_bit_lxor. Qed.

Lemma crc_byte_lxor c d b e : crc_byte (Z.lxor c d) (Z.lxor b e) = Z.lxor (crc_byte c b) (crc_byte d e).
Proof.
  rewrite !crc_byte_eq.
  replace (Z.lxor (Z.lxor c d) (Z.lxor b e)) with (Z.lxor (Z.lxor c b) (Z.lxor d e))
    by (rewrite !Z.lxor_assoc; f_equal; rewrite <- !Z.lxor_assoc; f_equal; apply Z.lxor_comm).
  apply crc_iter_lxor.
Qed.

(** Data against the same number of zero bytes. *)
Lemma crc_fold_lxor w c d :
  fold_left crc_byte w (Z.lxor c d) =
  Z.lxor (fold_left crc_byte (replicate (length w) 0) c) (fold_left crc_byte w d).
Proof.
  revert c d. induction w as [|b w IH]; intros c d; [done|].
  change (replicate (length (b :: w)) 0) with (0 :: replicate (length w) 0). rewrite !fold_left_cons, <- IH.
  f_equal. by rewrite <- crc_byte_lxor, Z.lxor_0_l.
Qed.

Lemma crc_fold_zeros w c :
  fold_left crc_byte w c = Z.lxor (fold_left crc_byte (replicate (length w) 0) c) (fold_left crc_byte w 0).
Proof. rewrite <- crc_fold_lxor. by rewrite Z.lxor_0_r. Qed.

(** Clearing a window whose own CRC register is not zero is always noticed,
    whatever its length. *)
Lemma crc_differs pre w post c :
  Forall is_byte (pre ++ w ++ post) -> in_width 32 c -> fold_left crc_byte w 0 <> 0 ->
  fold_left crc_byte (pre ++ w ++ post) c <> fold_left crc_byte (pre ++ replicate (length w) 0 ++ post) c.
Proof.
  intros Hb Hc Hw. rewrite !fold_left_app. rewrite !Forall_app in Hb. destruct Hb as (Hp & Hb & Ht).
  pose proof (crc_fold_width pre c Hp Hc) as Hs. set (s := fold_left crc_byte pre c) in *.
  assert (Hz : Forall is_byte (replicate (length w) 0)) by (apply Forall_replicate; done).
  intros He. apply crc_fold_inj in He; [|done|by apply crc_fold_width..].
  rewrite crc_fold_zeros in He. apply Hw.
  apply (f_equal (Z.lxor (fold_left crc_byte (replicate (length w) 0) s))) in He.
  by rewrite <- Z.lxor_assoc, !Z.lxor_nilpotent, Z.lxor_0_l in He.
Qed.
