(* ===== verification/Wire.v ===== *)
(** * Wire structures: the interface between packet types and the codec

    A packet type of the protocol is a packed C structure whose last member is a
    32-bit [crc32]. [Wire] states what the codec relies on: the field widths, the
    field values in order, and that setting the CRC changes nothing else. The
    packet types of [Packets] are its instances; [PacketCodec] and
    [UdpReceiver] are proved against it. *)

From S2P Require Import Prelude Crc32.

Open Scope Z_scope.

Class Wire (A : Type) := {
  body_layout : list nat;            (* widths of all members before crc32 *)
  body : A -> list Z;                (* their values *)
  crc32 : A -> Z;
  with_crc : Z -> A -> A;
  of_fields : list Z -> A;           (* the structure with these members *)
  shaped : A -> Prop;                (* the C arrays have their declared length *)
  length_body p : shaped p -> length (body p) = length body_layout;
  body_with_crc p c : body (with_crc c p) = body p;
  crc_with_crc p c : crc32 (with_crc c p) = c;
  with_with_crc p c c' : with_crc c (with_crc c' p) = with_crc c p;
  with_own_crc p : with_crc (crc32 p) p = p;
  shaped_with_crc p c : shaped p -> shaped (with_crc c p);
  of_fields_fields p : shaped p -> of_fields (body p ++ [crc32 p]) = p;
  fields_of_fields vs :
    length vs = S (length body_layout) ->
    body (of_fields vs) ++ [crc32 (of_fields vs)] = vs /\ shaped (of_fields vs);
}.

Section wire.
Context {A : Type} `{Wire A}.

Definition layout : list nat := body_layout ++ [4%nat].
Definition fields (p : A) : list Z := body p ++ [crc32 p].

(** [sizeof(A)]. *)
Definition wire_size : nat := list_sum layout.

(** The bytes of the structure, and the structure [memcpy]'d from bytes. *)
Definition serialize (p : A) : list Z := pack layout (fields p).
Definition deserialize (bs : list Z) : A := of_fields (unpack layout bs).

(** [calculate_crc32(&packet, sizeof(A) - sizeof(uint32_t))]. *)
Definition struct_crc (p : A) : Z := calculate_crc32 (take (wire_size - 4) (serialize p)).

(** Every member holds a value of its type. *)
Definition well_formed (p : A) : Prop := shaped p /\ fits layout (fields p).

Lemma length_fields p : shaped p -> length layout = length (fields p).
Proof. intros Hs. unfold layout, fields. rewrite !length_app, length_body; done. Qed.

Lemma serialize_split p :
  shaped p -> serialize p = pack body_layout (body p) ++ le_bytes 4 (crc32 p).
Proof.
  intros Hs. unfold serialize, layout, fields. rewrite pack_app by by rewrite length_body.
  simpl. done.
Qed.

Lemma length_serialize p : shaped p -> length (serialize p) = wire_size.
Proof. intros Hs. by apply length_pack, length_fields. Qed.

Lemma serialize_bytes p : Forall is_byte (serialize p).
Proof. apply pack_bytes. Qed.

Lemma struct_crc_body p : shaped p -> struct_crc p = calculate_crc32 (pack body_layout (body p)).
Proof.
  intros Hs. unfold struct_crc. f_equal. rewrite serialize_split by done.
  apply take_app_length'. rewrite length_pack by by rewrite length_body.
  unfold wire_size, layout. rewrite list_sum_app. simpl. lia.
Qed.

Lemma struct_crc_with_crc p c : shaped p -> struct_crc (with_crc c p) = struct_crc p.
Proof. intros Hs. by rewrite !struct_crc_body, body_with_crc by auto using shaped_with_crc. Qed.

Lemma struct_crc_width p : in_width 32 (struct_crc p).
Proof. apply calculate_crc32_width, Forall_take, serialize_bytes. Qed.

Lemma deserialize_serialize p : well_formed p -> deserialize (serialize p) = p.
Proof.
  intros [Hs Hf]. unfold deserialize, serialize. rewrite unpack_pack by done.
  by apply of_fields_fields.
Qed.

Lemma deserialize_spec bs :
  Forall is_byte bs -> length bs = wire_size ->
  well_formed (deserialize bs) /\ serialize (deserialize bs) = bs.
Proof.
  intros Hb Hl. unfold well_formed, serialize, deserialize, fields.
  assert (Hlen : length (unpack layout bs) = S (length body_layout)).
  { rewrite length_unpack. unfold layout. rewrite length_app. simpl. lia. }
  destruct (fields_of_fields _ Hlen) as [-> Hs]. split_and!; [done| |].
  - by apply unpack_fits.
  - by apply pack_unpack.
Qed.

(** The CRC member matches the rest of the structure exactly when the bytes
    of the whole structure leave the residue in the register. *)
Lemma struct_crc_residue p :
  well_formed p ->
  struct_crc p = crc32 p <-> fold_left crc_byte (serialize p) crc_init = crc_residue.
Proof.
  intros [Hs Hf]. rewrite struct_crc_body, serialize_split by done.
  apply crc_residue_iff; [apply pack_bytes|].
  unfold layout, fields in Hf. apply Forall2_app_inv in Hf as [_ Hc]; [|by rewrite length_body].
  by inversion Hc.
Qed.
End wire.

Arguments layout A {_}.
Arguments wire_size A {_}.
#[export] Hint Resolve shaped_with_crc : teleop.
