(* ===== verification/Packets.v ===== *)
(** * The packet structures on the wire

    [TeleopPacket] and [FeedbackPacket] ([src/include/openarm_wifi_teleop/net/]),
    [VrRelativeTeleopPacketV2] ([vr_protocol.hpp]) and [OpenArmTelemetryPacketV1]
    ([telemetry/openarm_telemetry_packet.hpp]) as records of unsigned words. A
    [double] member is its 64-bit word ([double_of_bits] gives its value) and a
    [float] member its 32-bit word; a C array is a list. Each type is an instance
    of [Wire], its layout being the packed (pragma pack 1) member widths. *)

From S2P Require Import Prelude Crc32 Wire.

Open Scope Z_scope.

(** Destructs a list of known length into its elements. *)
Ltac explode_list vs n :=
  let rec go k := lazymatch k with
    | O => destruct vs; [|done]
    | S ?k' => destruct vs as [|? vs]; [done|]; go k'
    end in go n.

(** ** Enumerations *)

Inductive ArmSide := RIGHT | LEFT.
Inductive ControlMode := UNILATERAL | BILATERAL.

Definition arm_side_u8 (s : ArmSide) : Z := match s with RIGHT => 0 | LEFT => 1 end.
Definition control_mode_u8 (m : ControlMode) : Z := match m with UNILATERAL => 0 | BILATERAL => 1 end.

#[export] Instance ArmSide_eq_dec : EqDecision ArmSide.
Proof. solve_decision. Defined.
#[export] Instance ControlMode_eq_dec : EqDecision ControlMode.
Proof. solve_decision. Defined.

(** ** TeleopPacket *)

Definition TELEOP_MAGIC : Z := 0x4F415754.
Definition TELEOP_VERSION : Z := 1.

Record TeleopPacket := mkTeleopPacket {
  tp_magic : Z; tp_version : Z; tp_packet_size : Z; tp_seq : Z; tp_send_time_ns : Z;
  tp_arm_side : Z; tp_mode : Z; tp_enable : Z; tp_estop : Z;
  tp_arm_dof : Z; tp_hand_dof : Z; tp_reserved0 : Z; tp_reserved1 : Z;
  tp_arm_pos : list Z; tp_arm_vel : list Z; tp_hand_pos : list Z; tp_hand_vel : list Z;
  tp_crc32 : Z;
}.

Definition teleop_layout : list nat :=
  [4; 2; 2; 4; 8; 1; 1; 1; 1; 1; 1; 1; 1]%nat ++ replicate 24 8%nat.

Definition teleop_body (p : TeleopPacket) : list Z :=
  [tp_magic p; tp_version p; tp_packet_size p; tp_seq p; tp_send_time_ns p;
   tp_arm_side p; tp_mode p; tp_enable p; tp_estop p;
   tp_arm_dof p; tp_hand_dof p; tp_reserved0 p; tp_reserved1 p]
  ++ tp_arm_pos p ++ tp_arm_vel p ++ tp_hand_pos p ++ tp_hand_vel p.

Definition teleop_with_crc (c : Z) (p : TeleopPacket) : TeleopPacket :=
  mkTeleopPacket (tp_magic p) (tp_version p) (tp_packet_size p) (tp_seq p) (tp_send_time_ns p)
    (tp_arm_side p) (tp_mode p) (tp_enable p) (tp_estop p) (tp_arm_dof p) (tp_hand_dof p)
    (tp_reserved0 p) (tp_reserved1 p) (tp_arm_pos p) (tp_arm_vel p) (tp_hand_pos p)
    (tp_hand_vel p) c.

Definition teleop_of_fields (vs : list Z) : TeleopPacket :=
  let f i := nth i vs 0 in
  mkTeleopPacket (f 0%nat) (f 1%nat) (f 2%nat) (f 3%nat) (f 4%nat) (f 5%nat) (f 6%nat) (f 7%nat)
    (f 8%nat) (f 9%nat) (f 10%nat) (f 11%nat) (f 12%nat)
    (take 8 (drop 13 vs)) (take 8 (drop 21 vs)) (take 4 (drop 29 vs)) (take 4 (drop 33 vs))
    (f 37%nat).

Definition teleop_shaped (p : TeleopPacket) : Prop :=
  length (tp_arm_pos p) = 8%nat /\ length (tp_arm_vel p) = 8%nat /\
  length (tp_hand_pos p) = 4%nat /\ length (tp_hand_vel p) = 4%nat.

#[export, refine] Instance TeleopPacket_wire : Wire TeleopPacket := {
  body_layout := teleop_layout; body := teleop_body; crc32 := tp_crc32;
  with_crc := teleop_with_crc; of_fields := teleop_of_fields; shaped := teleop_shaped;
}.
Proof.
  - intros p (H1 & H2 & H3 & H4). unfold teleop_body. rewrite !length_app, H1, H2, H3, H4. done.
  - done.
  - done.
  - done.
  - by intros [].
  - done.
  - intros [? ? ? ? ? ? ? ? ? ? ? ? ? ap av hp hv c] (H1 & H2 & H3 & H4); simpl in *.
    explode_list ap 8%nat. explode_list av 8%nat. explode_list hp 4%nat. by explode_list hv 4%nat.
  - intros vs Hl. simpl in Hl. by explode_list vs 38%nat.
Defined.

(** A zero-initialised packet ([net::TeleopPacket p{}] or [memset]). *)
Definition teleop_zero : TeleopPacket :=
  mkTeleopPacket 0 0 0 0 0 0 0 0 0 0 0 0 0 (replicate 8 0) (replicate 8 0)
    (replicate 4 0) (replicate 4 0) 0.

(** ** FeedbackPacket *)

Definition FEEDBACK_MAGIC : Z := 0x4246414F.
Definition FEEDBACK_VERSION : Z := 1.

Record FeedbackPacket := mkFeedbackPacket {
  fp_magic : Z; fp_version : Z; fp_packet_size : Z; fp_seq : Z; fp_send_time_ns : Z;
  fp_arm_side : Z; fp_mode : Z; fp_enabled : Z; fp_estop : Z;
  fp_arm_dof : Z; fp_hand_dof : Z; fp_safety_state : Z; fp_link_ok : Z;
  fp_echo_cmd_seq : Z; fp_echo_cmd_send_time_ns : Z; fp_cmd_hold_ns : Z;
  fp_arm_pos : list Z; fp_arm_vel : list Z; fp_arm_tau : list Z;
  fp_hand_pos : list Z; fp_hand_vel : list Z; fp_hand_tau : list Z;
  fp_crc32 : Z;
}.

Definition feedback_layout : list nat :=
  [4; 2; 2; 4; 8; 1; 1; 1; 1; 1; 1; 1; 1; 4; 8; 8]%nat ++ replicate 36 8%nat.

Definition feedback_body (p : FeedbackPacket) : list Z :=
  [fp_magic p; fp_version p; fp_packet_size p; fp_seq p; fp_send_time_ns p;
   fp_arm_side p; fp_mode p; fp_enabled p; fp_estop p;
   fp_arm_dof p; fp_hand_dof p; fp_safety_state p; fp_link_ok p;
   fp_echo_cmd_seq p; fp_echo_cmd_send_time_ns p; fp_cmd_hold_ns p]
  ++ fp_arm_pos p ++ fp_arm_vel p ++ fp_arm_tau p ++ fp_hand_pos p ++ fp_hand_vel p ++ fp_hand_tau p.

Definition feedback_with_crc (c : Z) (p : FeedbackPacket) : FeedbackPacket :=
  mkFeedbackPacket (fp_magic p) (fp_version p) (fp_packet_size p) (fp_seq p) (fp_send_time_ns p)
    (fp_arm_side p) (fp_mode p) (fp_enabled p) (fp_estop p) (fp_arm_dof p) (fp_hand_dof p)
    (fp_safety_state p) (fp_link_ok p) (fp_echo_cmd_seq p) (fp_echo_cmd_send_time_ns p)
    (fp_cmd_hold_ns p) (fp_arm_pos p) (fp_arm_vel p) (fp_arm_tau p) (fp_hand_pos p)
    (fp_hand_vel p) (fp_hand_tau p) c.

Definition feedback_of_fields (vs : list Z) : FeedbackPacket :=
  let f i := nth i vs 0 in
  mkFeedbackPacket (f 0%nat) (f 1%nat) (f 2%nat) (f 3%nat) (f 4%nat) (f 5%nat) (f 6%nat) (f 7%nat)
    (f 8%nat) (f 9%nat) (f 10%nat) (f 11%nat) (f 12%nat) (f 13%nat) (f 14%nat) (f 15%nat)
    (take 8 (drop 16 vs)) (take 8 (drop 24 vs)) (take 8 (drop 32 vs))
    (take 4 (drop 40 vs)) (take 4 (drop 44 vs)) (take 4 (drop 48 vs)) (f 52%nat).

Definition feedback_shaped (p : FeedbackPacket) : Prop :=
  length (fp_arm_pos p) = 8%nat /\ length (fp_arm_vel p) = 8%nat /\ length (fp_arm_tau p) = 8%nat /\
  length (fp_hand_pos p) = 4%nat /\ length (fp_hand_vel p) = 4%nat /\ length (fp_hand_tau p) = 4%nat.

#[export, refine] Instance FeedbackPacket_wire : Wire FeedbackPacket := {
  body_layout := feedback_layout; body := feedback_body; crc32 := fp_crc32;
  with_crc := feedback_with_crc; of_fields := feedback_of_fields; shaped := feedback_shaped;
}.
Proof.
  - intros p (H1 & H2 & H3 & H4 & H5 & H6). unfold feedback_body.
    by rewrite !length_app, H1, H2, H3, H4, H5, H6.
  - done.
  - done.
  - done.
  - by intros [].
  - done.
  - intros [? ? ? ? ? ? ? ? ? ? ? ? ? ? ? ? ap av at_ hp hv ht c] (H1 & H2 & H3 & H4 & H5 & H6); simpl in *.
    explode_list ap 8%nat. explode_list av 8%nat. explode_list at_ 8%nat.
    explode_list hp 4%nat. explode_list hv 4%nat. by explode_list ht 4%nat.
  - intros vs Hl. simpl in Hl. by explode_list vs 53%nat.
Defined.

Definition feedback_zero : FeedbackPacket :=
  mkFeedbackPacket 0 0 0 0 0 0 0 0 0 0 0 0 0 0 0 0 (replicate 8 0) (replicate 8 0) (replicate 8 0)
    (replicate 4 0) (replicate 4 0) (replicate 4 0) 0.

(** ** Telemetry packet *)

Definition TELEMETRY_MAGIC : Z := 0x5054414F.

Record OpenArmTelemetryPacketV1 := mkTelemetryPacket {
  tm_magic : Z; tm_version : Z; tm_packet_size : Z; tm_seq : Z; tm_monotonic_time_ns : Z;
  tm_robot_type : Z; tm_control_mode : Z; tm_enabled : Z; tm_estop : Z;
  tm_state_dim : Z; tm_action_dim : Z; tm_velocity_dim : Z; tm_reserved0 : Z;
  tm_watchdog_state : Z; tm_safety_state : Z; tm_reserved1 : Z; tm_reserved2 : Z;
  tm_observation_state : list Z; tm_action : list Z; tm_observation_velocity : list Z;
  tm_crc32 : Z;
}.

Definition telemetry_layout : list nat :=
  [4; 2; 2; 4; 8; 1; 1; 1; 1; 1; 1; 1; 1; 1; 1; 1; 1]%nat ++ replicate 48 4%nat.

Definition telemetry_body (p : OpenArmTelemetryPacketV1) : list Z :=
  [tm_magic p; tm_version p; tm_packet_size p; tm_seq p; tm_monotonic_time_ns p;
   tm_robot_type p; tm_control_mode p; tm_enabled p; tm_estop p;
   tm_state_dim p; tm_action_dim p; tm_velocity_dim p; tm_reserved0 p;
   tm_watchdog_state p; tm_safety_state p; tm_reserved1 p; tm_reserved2 p]
  ++ tm_observation_state p ++ tm_action p ++ tm_observation_velocity p.

Definition telemetry_with_crc (c : Z) (p : OpenArmTelemetryPacketV1) : OpenArmTelemetryPacketV1 :=
  mkTelemetryPacket (tm_magic p) (tm_version p) (tm_packet_size p) (tm_seq p)
    (tm_monotonic_time_ns p) (tm_robot_type p) (tm_control_mode p) (tm_enabled p) (tm_estop p)
    (tm_state_dim p) (tm_action_dim p) (tm_velocity_dim p) (tm_reserved0 p)
    (tm_watchdog_state p) (tm_safety_state p) (tm_reserved1 p) (tm_reserved2 p)
    (tm_observation_state p) (tm_action p) (tm_observation_velocity p) c.

Definition telemetry_of_fields (vs : list Z) : OpenArmTelemetryPacketV1 :=
  let f i := nth i vs 0 in
  mkTelemetryPacket (f 0%nat) (f 1%nat) (f 2%nat) (f 3%nat) (f 4%nat) (f 5%nat) (f 6%nat) (f 7%nat)
    (f 8%nat) (f 9%nat) (f 10%nat) (f 11%nat) (f 12%nat) (f 13%nat) (f 14%nat) (f 15%nat) (f 16%nat)
    (take 16 (drop 17 vs)) (take 16 (drop 33 vs)) (take 16 (drop 49 vs)) (f 65%nat).

Definition telemetry_shaped (p : OpenArmTelemetryPacketV1) : Prop :=
  length (tm_observation_state p) = 16%nat /\ length (tm_action p) = 16%nat /\
  length (tm_observation_velocity p) = 16%nat.

#[export, refine] Instance TelemetryPacket_wire : Wire OpenArmTelemetryPacketV1 := {
  body_layout := telemetry_layout; body := telemetry_body; crc32 := tm_crc32;
  with_crc := telemetry_with_crc; of_fields := telemetry_of_fields; shaped := telemetry_shaped;
}.
Proof.
  - intros p (H1 & H2 & H3). unfold telemetry_body. by rewrite !length_app, H1, H2, H3.
  - done.
  - done.
  - done.
  - by intros [].
  - done.
  - intros [? ? ? ? ? ? ? ? ? ? ? ? ? ? ? ? ? os ac ov c] (H1 & H2 & H3); simpl in *.
    explode_list os 16%nat. explode_list ac 16%nat. by explode_list ov 16%nat.
  - intros vs Hl. simpl in Hl. by explode_list vs 66%nat.
Defined.

(** ** VR packet *)

Definition VR_MAGIC : Z := 0x3252564F.
Definition VR_VERSION : Z := 2.
Definition VR_BUTTON_A : Z := 0x01.
Definition VR_BUTTON_B : Z := 0x02.
Definition VR_BUTTON_X : Z := 0x01.
Definition VR_BUTTON_Y : Z := 0x02.
Definition VR_BUTTON_MENU : Z := 0x04.

(** The members of one controller, in the order both arms repeat them. *)
Record VrArm := mkVrArm {
  va_delta_pos_world : list Z; va_delta_rot_world : list Z;
  va_delta_pos_hmd : list Z; va_delta_rot_hmd : list Z;
  va_abs_pos_world : list Z; va_abs_rot_world : list Z;
  va_grip : Z; va_trigger : Z; va_thumbstick : list Z; va_buttons : Z;
}.

Record VrRelativeTeleopPacketV2 := mkVrPacket {
  vr_magic : Z; vr_version : Z; vr_packet_size : Z; vr_seq : Z; vr_timestamp_sec : Z;
  vr_hmd_abs_pos_world : list Z; vr_hmd_abs_quat_world : list Z;
  vr_left : VrArm; vr_right : VrArm;
  vr_reserved : Z; vr_crc32 : Z;
}.

Definition vr_arm_layout : list nat := replicate 25 4%nat ++ [1%nat].
Definition vr_layout : list nat :=
  [4; 2; 2; 4; 8]%nat ++ replicate 7 4%nat ++ vr_arm_layout ++ vr_arm_layout ++ [2%nat].

Definition vr_arm_fields (a : VrArm) : list Z :=
  va_delta_pos_world a ++ va_delta_rot_world a ++ va_delta_pos_hmd a ++ va_delta_rot_hmd a ++
  va_abs_pos_world a ++ va_abs_rot_world a ++ [va_grip a; va_trigger a] ++ va_thumbstick a ++
  [va_buttons a].

Definition vr_body (p : VrRelativeTeleopPacketV2) : list Z :=
  [vr_magic p; vr_version p; vr_packet_size p; vr_seq p; vr_timestamp_sec p] ++
  vr_hmd_abs_pos_world p ++ vr_hmd_abs_quat_world p ++
  vr_arm_fields (vr_left p) ++ vr_arm_fields (vr_right p) ++ [vr_reserved p].

Definition vr_with_crc (c : Z) (p : VrRelativeTeleopPacketV2) : VrRelativeTeleopPacketV2 :=
  mkVrPacket (vr_magic p) (vr_version p) (vr_packet_size p) (vr_seq p) (vr_timestamp_sec p)
    (vr_hmd_abs_pos_world p) (vr_hmd_abs_quat_world p) (vr_left p) (vr_right p) (vr_reserved p) c.

Definition vr_arm_of_fields (vs : list Z) : VrArm :=
  mkVrArm (take 3 vs) (take 4 (drop 3 vs)) (take 3 (drop 7 vs)) (take 4 (drop 10 vs))
    (take 3 (drop 14 vs)) (take 4 (drop 17 vs)) (nth 21 vs 0) (nth 22 vs 0)
    (take 2 (drop 23 vs)) (nth 25 vs 0).

Definition vr_of_fields (vs : list Z) : VrRelativeTeleopPacketV2 :=
  let f i := nth i vs 0 in
  mkVrPacket (f 0%nat) (f 1%nat) (f 2%nat) (f 3%nat) (f 4%nat) (take 3 (drop 5 vs))
    (take 4 (drop 8 vs)) (vr_arm_of_fields (take 26 (drop 12 vs)))
    (vr_arm_of_fields (take 26 (drop 38 vs))) (f 64%nat) (f 65%nat).

Definition vr_arm_shaped (a : VrArm) : Prop :=
  length (va_delta_pos_world a) = 3%nat /\ length (va_delta_rot_world a) = 4%nat /\
  length (va_delta_pos_hmd a) = 3%nat /\ length (va_delta_rot_hmd a) = 4%nat /\
  length (va_abs_pos_world a) = 3%nat /\ length (va_abs_rot_world a) = 4%nat /\
  length (va_thumbstick a) = 2%nat.

Definition vr_shaped (p : VrRelativeTeleopPacketV2) : Prop :=
  length (vr_hmd_abs_pos_world p) = 3%nat /\ length (vr_hmd_abs_quat_world p) = 4%nat /\
  vr_arm_shaped (vr_left p) /\ vr_arm_shaped (vr_right p).

Lemma vr_arm_fields_length a : vr_arm_shaped a -> length (vr_arm_fields a) = 26%nat.
Proof.
  intros (H1 & H2 & H3 & H4 & H5 & H6 & H7). unfold vr_arm_fields.
  by rewrite !length_app, H1, H2, H3, H4, H5, H6, H7.
Qed.

Lemma vr_arm_of_fields_fields a : vr_arm_shaped a -> vr_arm_of_fields (vr_arm_fields a) = a.
Proof.
  destruct a as [l1 l2 l3 l4 l5 l6 g t l7 b]. intros (H1 & H2 & H3 & H4 & H5 & H6 & H7); simpl in *.
  explode_list l1 3%nat. explode_list l2 4%nat. explode_list l3 3%nat. explode_list l4 4%nat.
  explode_list l5 3%nat. explode_list l6 4%nat. by explode_list l7 2%nat.
Qed.

#[export, refine] Instance VrPacket_wire : Wire VrRelativeTeleopPacketV2 := {
  body_layout := vr_layout; body := vr_body; crc32 := vr_crc32;
  with_crc := vr_with_crc; of_fields := vr_of_fields; shaped := vr_shaped;
}.
Proof.
  - intros p (H1 & H2 & H3 & H4). unfold vr_body.
    by rewrite !length_app, !vr_arm_fields_length, H1, H2.
  - done.
  - done.
  - done.
  - by intros [].
  - done.
  - intros [? ? ? ? ? hp hq la ra r c] (H1 & H2 & H3 & H4); simpl in *.
    explode_list hp 3%nat. explode_list hq 4%nat.
    pose proof (vr_arm_fields_length _ H3) as L3. pose proof (vr_arm_fields_length _ H4) as L4.
    rewrite <- (vr_arm_of_fields_fields la), <- (vr_arm_of_fields_fields ra) by done.
    revert L3 L4. generalize (vr_arm_fields la), (vr_arm_fields ra). intros lv rv L3 L4.
    explode_list lv 26%nat. by explode_list rv 26%nat.
  - intros vs Hl. simpl in Hl. by explode_list vs 66%nat.
Defined.

(** ** Sizes *)

(** [static_assert(sizeof(FeedbackPacket) == 340)] and the sizes the packed
    declarations of the other types give. *)
Lemma wire_sizes :
  wire_size TeleopPacket = 224%nat /\ wire_size FeedbackPacket = 340%nat /\
  wire_size OpenArmTelemetryPacketV1 = 228%nat /\ wire_size VrRelativeTeleopPacketV2 = 256%nat.
Proof. done. Qed.
