(* ===== verification/PacketCodec.v ===== *)
(** * PacketCodec: encoding and validation of packets

    [encode] and [decode_and_validate] of [src/src/net/packet_codec.cpp] for both
    packet types, and what a receiver does with a datagram: check its size, copy
    it into the structure, validate. The system clock is an argument. *)

From S2P Require Import Prelude Crc32 Wire Packets.

Open Scope Z_scope.

(** ** Definitions *)

Definition teleop_encode (now_ns : Z) (p : TeleopPacket) : TeleopPacket :=
  let p := mkTeleopPacket TELEOP_MAGIC TELEOP_VERSION (Z.of_nat (wire_size TeleopPacket))
    (tp_seq p) now_ns (tp_arm_side p) (tp_mode p) (tp_enable p) (tp_estop p) (tp_arm_dof p)
    (tp_hand_dof p) (tp_reserved0 p) (tp_reserved1 p) (tp_arm_pos p) (tp_arm_vel p)
    (tp_hand_pos p) (tp_hand_vel p) 0 in
  let crc := struct_crc p in
  with_crc crc p.

(** The verdict and the packet after the call (the CRC member is cleared and
    restored). *)
Definition teleop_decode_and_validate (p : TeleopPacket) : bool * TeleopPacket :=
  if negb (tp_magic p =? TELEOP_MAGIC) then (false, p)
  else if negb (tp_version p =? TELEOP_VERSION) then (false, p)
  else if negb (tp_packet_size p =? Z.of_nat (wire_size TeleopPacket)) then (false, p)
  else
    let received_crc := tp_crc32 p in
    let p := with_crc 0 p in
    let calculated_crc := struct_crc p in
    let p := with_crc received_crc p in
    (calculated_crc =? received_crc, p).

Definition feedback_encode (now_ns : Z) (p : FeedbackPacket) : FeedbackPacket :=
  let p := mkFeedbackPacket FEEDBACK_MAGIC FEEDBACK_VERSION (Z.of_nat (wire_size FeedbackPacket))
    (fp_seq p) now_ns (fp_arm_side p) (fp_mode p) (fp_enabled p) (fp_estop p) (fp_arm_dof p)
    (fp_hand_dof p) (fp_safety_state p) (fp_link_ok p) (fp_echo_cmd_seq p)
    (fp_echo_cmd_send_time_ns p) (fp_cmd_hold_ns p) (fp_arm_pos p) (fp_arm_vel p) (fp_arm_tau p)
    (fp_hand_pos p) (fp_hand_vel p) (fp_hand_tau p) 0 in
  with_crc (struct_crc p) p.

Definition feedback_decode_and_validate (p : FeedbackPacket) : bool * FeedbackPacket :=
  if negb (fp_magic p =? FEEDBACK_MAGIC) then (false, p)
  else if negb (fp_version p =? FEEDBACK_VERSION) then (false, p)
  else if negb (fp_packet_size p =? Z.of_nat (wire_size FeedbackPacket)) then (false, p)
  else
    let received_crc := fp_crc32 p in
    let p := with_crc 0 p in
    let calculated_crc := struct_crc p in
    let p := with_crc received_crc p in
    (calculated_crc =? received_crc, p).

(** What the teleop receiver ([UdpReceiver::receive_loop]) and the leader's
    feedback receiver do with a datagram: the packet they go on with, if any. *)
Definition receive_teleop (bs : list Z) : option TeleopPacket :=
  if decide (length bs = wire_size TeleopPacket) then
    let '(ok, p) := teleop_decode_and_validate (deserialize bs) in
    if ok then Some p else None
  else None.

Definition receive_feedback (bs : list Z) : option FeedbackPacket :=
  if decide (length bs = wire_size FeedbackPacket) then
    let '(ok, p) := feedback_decode_and_validate (deserialize bs) in
    if ok then Some p else None
  else None.

(** ** A common form of both codecs *)

Section codec.
Context {A : Type} `{Wire A} (header : A -> list Z) (expected : list Z).

(** Header check followed by CRC check. *)
Definition accepts (p : A) : Prop := header p = expected /\ struct_crc p = crc32 p.

(** Two accepted structures of the same type never differ in one window of
    up to four bytes. *)
Lemma accepts_burst bs bs' pre w w' post :
  Forall is_byte bs -> Forall is_byte bs' ->
  length bs = wire_size A -> bs = pre ++ w ++ post -> bs' = pre ++ w' ++ post ->
  length w = length w' -> (length w <= 4)%nat -> w <> w' ->
  accepts (deserialize bs) -> ~ accepts (deserialize bs').
Proof.
  intros Hb Hb' Hl -> -> Hw H4 Hn [_ Hc] [_ Hc'].
  destruct (deserialize_spec _ Hb Hl) as [Hwf Hs].
  assert (Hl' : length (pre ++ w' ++ post) = wire_size A) by (rewrite !length_app in *; lia).
  destruct (deserialize_spec _ Hb' Hl') as [Hwf' Hs'].
  apply struct_crc_residue in Hc; [|done]. apply struct_crc_residue in Hc'; [|done].
  rewrite Hs in Hc. rewrite Hs' in Hc'. rewrite !Forall_app in Hb'.
  eapply crc_burst; [done| | | | |by rewrite Hc, Hc']; [by destruct Hb' as (?&?&?)|done..].
Qed.
End codec.

Definition teleop_header (p : TeleopPacket) := [tp_magic p; tp_version p; tp_packet_size p].
Definition feedback_header (p : FeedbackPacket) := [fp_magic p; fp_version p; fp_packet_size p].

Definition teleop_accepts :=
  accepts teleop_header [TELEOP_MAGIC; TELEOP_VERSION; Z.of_nat (wire_size TeleopPacket)].
Definition feedback_accepts :=
  accepts feedback_header [FEEDBACK_MAGIC; FEEDBACK_VERSION; Z.of_nat (wire_size FeedbackPacket)].

(** Case analysis on a three-field header check and the CRC comparison. *)
Ltac header_cases :=
  repeat match goal with
    | |- context [Z.eqb ?a ?b] => destruct (Z.eqb_spec a b); simpl
    end.

Lemma teleop_decode_spec p :
  shaped p ->
  (teleop_decode_and_validate p).2 = p /\
  ((teleop_decode_and_validate p).1 = true <-> teleop_accepts p).
Proof.
  intros Hs. unfold teleop_decode_and_validate, teleop_accepts, accepts, teleop_header.
  cbv zeta. change (tp_crc32 p) with (crc32 p).
  rewrite struct_crc_with_crc, with_with_crc, with_own_crc by done.
  header_cases; split; try done; split; intros; destruct_and?; simplify_eq; try done.
  by rewrite e, e0, e1.
Qed.

Lemma feedback_decode_spec p :
  shaped p ->
  (feedback_decode_and_validate p).2 = p /\
  ((feedback_decode_and_validate p).1 = true <-> feedback_accepts p).
Proof.
  intros Hs. unfold feedback_decode_and_validate, feedback_accepts, accepts, feedback_header.
  cbv zeta. change (fp_crc32 p) with (crc32 p).
  rewrite struct_crc_with_crc, with_with_crc, with_own_crc by done.
  header_cases; split; try done; split; intros; destruct_and?; simplify_eq; try done.
  by rewrite e, e0, e1.
Qed.

Lemma deserialize_shaped `{Wire A} bs : shaped (deserialize (A := A) bs).
Proof.
  apply fields_of_fields. rewrite length_unpack. unfold layout. rewrite length_app. simpl. lia.
Qed.

Lemma receive_teleop_iff bs p :
  receive_teleop bs = Some p <->
  length bs = wire_size TeleopPacket /\ p = deserialize bs /\ teleop_accepts p.
Proof.
  unfold receive_teleop. destruct (decide _) as [Hl|]; [|by split; [|intros [? _]]].
  destruct (teleop_decode_spec (deserialize bs) (deserialize_shaped bs)) as [H1 H2].
  destruct (teleop_decode_and_validate _) as [ok q]; simpl in *; subst q.
  destruct ok; split.
  - intros [= <-]. split_and!; [done..|by apply H2].
  - by intros (_ & -> & _).
  - done.
  - intros (_ & -> & Ha). by apply H2 in Ha.
Qed.

Lemma receive_feedback_iff bs p :
  receive_feedback bs = Some p <->
  length bs = wire_size FeedbackPacket /\ p = deserialize bs /\ feedback_accepts p.
Proof.
  unfold receive_feedback. destruct (decide _) as [Hl|]; [|by split; [|intros [? _]]].
  destruct (feedback_decode_spec (deserialize bs) (deserialize_shaped bs)) as [H1 H2].
  destruct (feedback_decode_and_validate _) as [ok q]; simpl in *; subst q.
  destruct ok; split.
  - intros [= <-]. split_and!; [done..|by apply H2].
  - by intros (_ & -> & _).
  - done.
  - intros (_ & -> & Ha). by apply H2 in Ha.
Qed.

(** ** Encoded packets are well formed and accepted *)

Lemma fits_crc `{Wire A} (p q : A) c :
  well_formed p -> in_width 32 c -> shaped q -> fits body_layout (body q) ->
  well_formed (with_crc c q).
Proof.
  intros _ Hc Hs Hf. split; [by apply shaped_with_crc|].
  unfold layout, fields. rewrite body_with_crc, crc_with_crc.
  apply Forall2_app; [done|]. by constructor.
Qed.

(** Both packet types start with magic, version, size, sequence number and
    time; [encode] replaces all of these but the sequence number. *)
Lemma fits_header ws rest m v s q t m' v' s' t' :
  fits (4 :: 2 :: 2 :: 4 :: 8 :: ws)%nat (m :: v :: s :: q :: t :: rest) ->
  in_width 32 m' -> in_width 16 v' -> in_width 16 s' -> in_width 64 t' ->
  fits (4 :: 2 :: 2 :: 4 :: 8 :: ws)%nat (m' :: v' :: s' :: q :: t' :: rest).
Proof.
  unfold fits. rewrite !Forall2_cons. intros (_ & _ & _ & Hq & _ & Hr) Hm Hv Hs Ht.
  by split_and!.
Qed.

Lemma fits_body `{Wire A} (p : A) : well_formed p -> fits body_layout (body p).
Proof. intros [Hs Hf]. by apply Forall2_app_inv in Hf as [Hf _]; [|rewrite length_body]. Qed.

Lemma teleop_encode_wf now p :
  well_formed p -> in_width 64 now -> well_formed (teleop_encode now p).
Proof.
  intros Hw Hn. apply (fits_crc p); [done|apply struct_crc_width|apply Hw|].
  apply fits_body in Hw. eapply (fits_header _ _ (tp_magic p)); [exact Hw|const_width..|done].
Qed.

Lemma feedback_encode_wf now p :
  well_formed p -> in_width 64 now -> well_formed (feedback_encode now p).
Proof.
  intros Hw Hn. apply (fits_crc p); [done|apply struct_crc_width|apply Hw|].
  apply fits_body in Hw. eapply (fits_header _ _ (fp_magic p)); [exact Hw|const_width..|done].
Qed.

Lemma teleop_encode_accepts now p : shaped p -> teleop_accepts (teleop_encode now p).
Proof.
  intros Hs. split; [done|]. unfold teleop_encode. cbv zeta.
  rewrite struct_crc_with_crc by done. by rewrite crc_with_crc.
Qed.

Lemma feedback_encode_accepts now p : shaped p -> feedback_accepts (feedback_encode now p).
Proof.
  intros Hs. split; [done|]. unfold feedback_encode. cbv zeta.
  rewrite struct_crc_with_crc by done. by rewrite crc_with_crc.
Qed.

(** What [encode] returns passes the validation unchanged. *)
Lemma teleop_encode_validates now (p : TeleopPacket) :
  shaped p -> teleop_decode_and_validate (teleop_encode now p) = (true, teleop_encode now p).
Proof.
  intros Sp. pose proof (teleop_encode_accepts now p Sp) as Hacc.
  assert (Se : shaped (teleop_encode now p)) by exact Sp.
  destruct (teleop_decode_spec _ Se) as [D2 D1]. apply D1 in Hacc.
  by destruct (teleop_decode_and_validate _); simpl in *; subst.
Qed.

Lemma receive_teleop_encode now p :
  well_formed p -> in_width 64 now ->
  receive_teleop (serialize (teleop_encode now p)) = Some (teleop_encode now p).
Proof.
  intros Hw Hn. pose proof (teleop_encode_wf now p Hw Hn) as He.
  apply receive_teleop_iff. rewrite deserialize_serialize by done.
  split_and!; [by apply length_serialize, He|done|by apply teleop_encode_accepts, Hw].
Qed.

Lemma receive_feedback_encode now p :
  well_formed p -> in_width 64 now ->
  receive_feedback (serialize (feedback_encode now p)) = Some (feedback_encode now p).
Proof.
  intros Hw Hn. pose proof (feedback_encode_wf now p Hw Hn) as He.
  apply receive_feedback_iff. rewrite deserialize_serialize by done.
  split_and!; [by apply length_serialize, He|done|by apply feedback_encode_accepts, Hw].
Qed.

(** ** Properties *)

(** C33: Encode/decode round trip. Whatever well-formed packet a sender encodes,
    at any clock value, the receiver that gets the transmitted bytes accepts
    them and goes on with exactly the packet the sender built; for commands and
    for feedback. *)
Theorem codec_roundtrip (now : Z) (p : TeleopPacket) (q : FeedbackPacket) :
  in_width 64 now -> well_formed p -> well_formed q ->
  receive_teleop (serialize (teleop_encode now p)) = Some (teleop_encode now p) /\
  receive_feedback (serialize (feedback_encode now q)) = Some (feedback_encode now q).
Proof. intros Hn Hp Hq. by split; [apply receive_teleop_encode|apply receive_feedback_encode]. Qed.

Lemma teleop_zero_wf : well_formed teleop_zero.
Proof. split; [done|]. apply (bool_decide_unpack _). vm_compute. exact I. Defined.

Lemma feedback_zero_wf : well_formed feedback_zero.
Proof. split; [done|]. apply (bool_decide_unpack _). vm_compute. exact I. Defined.

Lemma codec_roundtrip_witness :
  receive_teleop (serialize (teleop_encode 1234567 teleop_zero)) =
    Some (teleop_encode 1234567 teleop_zero) /\
  receive_feedback (serialize (feedback_encode 1234567 feedback_zero)) =
    Some (feedback_encode 1234567 feedback_zero).
Proof.
  apply codec_roundtrip; [const_width|apply teleop_zero_wf|apply feedback_zero_wf].
Defined.

(** C22: Burst errors never get through. If a datagram is accepted, any datagram
    that differs from it only inside one window of up to four consecutive bytes,
    anywhere in the packet (header, payload or the CRC itself), is rejected. *)
Theorem codec_burst_detected (pre w w' post : list Z) :
  Forall is_byte (pre ++ w ++ post) -> Forall is_byte w' ->
  length w = length w' -> (length w <= 4)%nat -> w <> w' ->
  (is_Some (receive_teleop (pre ++ w ++ post)) -> receive_teleop (pre ++ w' ++ post) = None) /\
  (is_Some (receive_feedback (pre ++ w ++ post)) -> receive_feedback (pre ++ w' ++ post) = None).
Proof.
  intros Hb Hw' Hl H4 Hn.
  assert (Hb' : Forall is_byte (pre ++ w' ++ post)) by (rewrite !Forall_app in *; tauto).
  split; intros [p Hp]; apply eq_None_not_Some; intros [p' Hp'].
  - apply receive_teleop_iff in Hp as (Hs & -> & Ha). apply receive_teleop_iff in Hp' as (_ & -> & Ha').
    exact (accepts_burst _ _ _ _ pre w w' post Hb Hb' Hs eq_refl eq_refl Hl H4 Hn Ha Ha').
  - apply receive_feedback_iff in Hp as (Hs & -> & Ha). apply receive_feedback_iff in Hp' as (_ & -> & Ha').
    exact (accepts_burst _ _ _ _ pre w w' post Hb Hb' Hs eq_refl eq_refl Hl H4 Hn Ha Ha').
Qed.

(** A concrete accepted command packet, as bytes. *)
Definition sample_datagram : list Z := Eval vm_compute in serialize (teleop_encode 42 teleop_zero).

Lemma codec_burst_detected_witness :
  is_Some (receive_teleop sample_datagram) /\
  receive_teleop (take 100 sample_datagram ++ [1; 2; 3; 4] ++ drop 104 sample_datagram) = None.
Proof.
  assert (Hs : is_Some (receive_teleop sample_datagram)) by (vm_compute; eexists; reflexivity).
  split; [exact Hs|].
  apply (codec_burst_detected (take 100 sample_datagram) [0; 0; 0; 0] [1; 2; 3; 4]
           (drop 104 sample_datagram)).
  - apply (bool_decide_unpack _). vm_compute. exact I.
  - apply (bool_decide_unpack _). vm_compute. exact I.
  - reflexivity.
  - simpl. lia.
  - discriminate.
  - exact Hs.
Defined.

(** Acceptance, on every branch. A command (feedback) datagram is accepted
    exactly when it has the size of the structure, its magic, version and size
    members are the expected ones and its CRC member is the CRC of the other
    bytes; validation hands the packet on unchanged; and a datagram accepted as
    one packet type is never accepted as the other. *)
Lemma codec_acceptance (bs : list Z) :
  let p := deserialize bs in let q := deserialize bs in
  (receive_teleop bs = Some p <->
     length bs = 224%nat /\ tp_magic p = TELEOP_MAGIC /\ tp_version p = TELEOP_VERSION /\
     tp_packet_size p = 224 /\ tp_crc32 p = struct_crc p) /\
  (receive_feedback bs = Some q <->
     length bs = 340%nat /\ fp_magic q = FEEDBACK_MAGIC /\ fp_version q = FEEDBACK_VERSION /\
     fp_packet_size q = 340 /\ fp_crc32 q = struct_crc q) /\
  (receive_teleop bs = None \/ receive_teleop bs = Some p) /\
  (receive_feedback bs = None \/ receive_feedback bs = Some q) /\
  (receive_teleop bs = None \/ receive_feedback bs = None).
Proof.
  cbv zeta. split_and!.
  - rewrite receive_teleop_iff. unfold teleop_accepts, accepts, teleop_header.
    split; [intros (Hl & _ & [= ? ? ?] & Hc)|intros (Hl & -> & -> & -> & Hc)]; by split_and!.
  - rewrite receive_feedback_iff. unfold feedback_accepts, accepts, feedback_header.
    split; [intros (Hl & _ & [= ? ? ?] & Hc)|intros (Hl & -> & -> & -> & Hc)]; by split_and!.
  - destruct (receive_teleop bs) as [p|] eqn:He; [right|by left].
    by apply receive_teleop_iff in He as (_ & -> & _).
  - destruct (receive_feedback bs) as [p|] eqn:He; [right|by left].
    by apply receive_feedback_iff in He as (_ & -> & _).
  - destruct (receive_teleop bs) as [p|] eqn:He; [right|by left].
    apply receive_teleop_iff in He as (Hl & _ & _). apply eq_None_not_Some. intros [q Hq].
    apply receive_feedback_iff in Hq as (Hl' & _ & _). by rewrite Hl in Hl'.
Qed.
