(* ===== verification/TeleopStateBuffer.v ===== *)
(** * TeleopStateBuffer: the follower's latest command and its statistics

    [src/src/core/teleop_state_buffer.cpp]. Every public method takes the mutex
    for its whole body, so an execution is a sequence of calls; [tsb_update] is
    one call of [update], with the monotonic clock it reads as an argument. *)

From S2P Require Import Prelude Float64 Float64Round Float64Ops Float64Arith Float64Order Float64Facts Crc32 Wire Packets.

Open Scope Z_scope.

(** ** State and operations *)

Record TeleopStateBuffer := mkTeleopStateBuffer {
  tsb_latest_packet : TeleopPacket;
  tsb_has_data : bool;
  tsb_last_receive_time_ns : Z;
  tsb_last_seq : Z;
  tsb_lost_packet_count : Z;
  tsb_average_receive_period_ms : double;
  tsb_max_receive_gap_ms : double;
}.

(** [latest_packet_] is not initialised by the constructor; [get_latest] does
    not read it before the first update. *)
Definition tsb_new (uninitialised : TeleopPacket) : TeleopStateBuffer :=
  mkTeleopStateBuffer uninitialised false 0 0 0 d0 d0.

Definition alpha_ : double := dlit 1 1.

(** A [uint64_t] difference of nanoseconds, in milliseconds: [(a - b) / 1e6]. *)
Definition ns_diff_ms (a b : Z) : double := (d_of_Z (u64 (a - b)) / d_of_Z 1000000)%D.

Definition tsb_update (now_ns : Z) (packet : TeleopPacket) (b : TeleopStateBuffer) : TeleopStateBuffer :=
  let '(lost, avg, gap) :=
    if tsb_has_data b then
      let diff := u32 (tp_seq packet - tsb_last_seq b) in
      if 0x7FFFFFFF <? diff then
        (* backwards jump: reset the statistics and start over *)
        (tsb_lost_packet_count b, d0, d0)
      else
        let lost := if 1 <? diff then u32 (tsb_lost_packet_count b + u32 (diff - 1))
                    else tsb_lost_packet_count b in
        let gap_ms := ns_diff_ms now_ns (tsb_last_receive_time_ns b) in
        let max_gap := if (gap_ms >? tsb_max_receive_gap_ms b)%D then gap_ms
                       else tsb_max_receive_gap_ms b in
        let avg := if (tsb_average_receive_period_ms b =? d0)%D then gap_ms
                   else (alpha_ * gap_ms + (d1 - alpha_) * tsb_average_receive_period_ms b)%D in
        (lost, avg, max_gap)
    else (tsb_lost_packet_count b, tsb_average_receive_period_ms b, tsb_max_receive_gap_ms b) in
  mkTeleopStateBuffer packet true now_ns (tp_seq packet) lost avg gap.

(** [get_latest(out)]: whether there is data, and what [out] then holds. *)
Definition tsb_get_latest (b : TeleopStateBuffer) : option TeleopPacket :=
  if tsb_has_data b then Some (tsb_latest_packet b) else None.

(** A run of updates, each at its clock value. *)
Definition tsb_run (b : TeleopStateBuffer) (l : list (Z * TeleopPacket)) : TeleopStateBuffer :=
  fold_left (fun b '(now, p) => tsb_update now p b) l b.

(** ** Lemmas *)

Lemma tsb_run_cons b now p l : tsb_run b ((now, p) :: l) = tsb_run (tsb_update now p b) l.
Proof. done. Qed.

Lemma tsb_run_snoc b l now p : tsb_run b (l ++ [(now, p)]) = tsb_update now p (tsb_run b l).
Proof. unfold tsb_run. by rewrite fold_left_app. Qed.

(** Whatever the statistics do, the packet is taken over. *)
Lemma tsb_update_fields now p b :
  tsb_latest_packet (tsb_update now p b) = p /\ tsb_has_data (tsb_update now p b) = true /\
  tsb_last_receive_time_ns (tsb_update now p b) = now /\ tsb_last_seq (tsb_update now p b) = tp_seq p.
Proof. unfold tsb_update. by destruct (if tsb_has_data b then _ else _) as [[? ?] ?]. Qed.

(** Forward distance between sequence numbers. *)
Definition seq_diff (a b : Z) : Z := u32 (b - a).

(** [l] never jumps backwards, starting from sequence number [s]. *)
Fixpoint forward (s : Z) (l : list (Z * TeleopPacket)) : Prop :=
  match l with
  | [] => True
  | (_, p) :: l' => seq_diff s (tp_seq p) <= 0x7FFFFFFF /\ forward (tp_seq p) l'
  end.

#[export] Instance forward_dec s l : Decision (forward s l).
Proof. revert s. induction l as [|[t p] l IH]; intros s; simpl; apply _. Defined.

(** Last sequence number of a run, and the number of packets in it that are
    not repetitions of their predecessor. *)
Fixpoint last_seq (s : Z) (l : list (Z * TeleopPacket)) : Z :=
  match l with [] => s | (_, p) :: l' => last_seq (tp_seq p) l' end.

Definition is_new (s s' : Z) : Z := if seq_diff s s' =? 0 then 0 else 1.

Fixpoint count_new (s : Z) (l : list (Z * TeleopPacket)) : Z :=
  match l with [] => 0 | (_, p) :: l' => is_new s (tp_seq p) + count_new (tp_seq p) l' end.

Lemma u32_congr x y k : x = y + k * 2 ^ 32 -> u32 x = u32 y.
Proof. intros ->. apply Z.mod_add. lia. Qed.

Lemma seq_diff_eq s s' : exists k, s' - s = seq_diff s s' + k * 2 ^ 32.
Proof.
  exists ((s' - s) / 2 ^ 32). unfold seq_diff, wrap.
  pose proof (Z.div_mod (s' - s) (2 ^ 32) ltac:(lia)). lia.
Qed.

Lemma tsb_update_lost now p b :
  tsb_has_data b = true -> seq_diff (tsb_last_seq b) (tp_seq p) <= 0x7FFFFFFF ->
  in_width 32 (tsb_lost_packet_count b) ->
  tsb_lost_packet_count (tsb_update now p b) =
    u32 (tsb_lost_packet_count b + (tp_seq p - tsb_last_seq b) - is_new (tsb_last_seq b) (tp_seq p)).
Proof.
  intros Hd Hs Hl. destruct (seq_diff_eq (tsb_last_seq b) (tp_seq p)) as [k Hk].
  pose proof (wrap_range 32 (tp_seq p - tsb_last_seq b) ltac:(lia)) as Hr.
  unfold tsb_update, is_new. rewrite Hd. unfold seq_diff in *. set (d := u32 _) in *.
  rewrite (proj2 (Z.ltb_ge _ _)) by lia. destruct Hr as [Hr _].
  destruct (Z.ltb_spec 1 d); simpl.
  - rewrite wrap_add_r, (proj2 (Z.eqb_neq d 0)) by lia. apply (u32_congr _ _ (- k)). lia.
  - rewrite <- (wrap_small 32 (tsb_lost_packet_count b)) at 1 by done.
    destruct (Z.eqb_spec d 0); apply (u32_congr _ _ (- k)); lia.
Qed.

Lemma tsb_update_lost_width now p b :
  in_width 32 (tsb_lost_packet_count b) -> in_width 32 (tsb_lost_packet_count (tsb_update now p b)).
Proof.
  intros Hl. unfold tsb_update. destruct (tsb_has_data b); [|done]. simpl.
  destruct (_ <? _); [done|]. simpl. destruct (_ <? _); simpl; [|done]. apply wrap_range. lia.
Qed.

Lemma tsb_run_lost b l :
  tsb_has_data b = true -> in_width 32 (tsb_lost_packet_count b) -> forward (tsb_last_seq b) l ->
  tsb_lost_packet_count (tsb_run b l) =
    u32 (tsb_lost_packet_count b + (last_seq (tsb_last_seq b) l - tsb_last_seq b)
         - count_new (tsb_last_seq b) l).
Proof.
  revert b. induction l as [|[now p] l IH]; intros b Hd Hw Ha.
  - simpl. rewrite <- (wrap_small 32 (tsb_lost_packet_count b)) at 1 by done. f_equal. lia.
  - destruct Ha as [Hs Ha]. destruct (tsb_update_fields now p b) as (_ & Hd' & _ & Hq).
    rewrite tsb_run_cons, IH, Hq, tsb_update_lost by (done || by rewrite Hq || by apply tsb_update_lost_width).
    simpl last_seq. simpl count_new. rewrite <- Z.add_sub_assoc, wrap_add_l. f_equal. lia.
Qed.

(** ** The receive gap *)

Lemma ns_per_ms_fnn : fnn (d_of_Z 1000000) /\ 2 ^ 1074 <= scaled (d_of_Z 1000000).
Proof.
  split; [apply d_of_Z_fnn; lia|]. destruct (d_of_Z_exact 1000000) as (_ & _ & ->); [lia|].
  pose proof (pow2_pos 1074). lia.
Qed.

Lemma ns_ms_fnn n : in_width 64 n -> fnn (d_of_Z n / d_of_Z 1000000)%D.
Proof.
  intros [H0 H1]. destruct ns_per_ms_fnn. apply ddiv_ge1_fnn; [|done|done].
  apply d_of_Z_fnn. lia.
Qed.

Lemma ns_diff_ms_fnn a b : fnn (ns_diff_ms a b).
Proof. apply ns_ms_fnn, wrap_range. lia. Qed.

#[export] Hint Resolve ns_diff_ms_fnn : float.

(** The gaps between consecutive receive times. *)
Fixpoint gaps (t : Z) (l : list (Z * TeleopPacket)) : list double :=
  match l with [] => [] | (t', _) :: l' => ns_diff_ms t' t :: gaps t' l' end.

Definition max_of (g : double) (l : list double) : double := fold_left (fun m x => dmax m x) l g.

Lemma tsb_update_gap now p b :
  tsb_has_data b = true -> seq_diff (tsb_last_seq b) (tp_seq p) <= 0x7FFFFFFF ->
  tsb_max_receive_gap_ms (tsb_update now p b) =
    dmax (tsb_max_receive_gap_ms b) (ns_diff_ms now (tsb_last_receive_time_ns b)).
Proof.
  unfold seq_diff, tsb_update, dmax. intros -> Hd. simpl.
  by rewrite (proj2 (Z.ltb_ge _ _)) by lia.
Qed.

Lemma tsb_run_gap b l :
  tsb_has_data b = true -> forward (tsb_last_seq b) l ->
  tsb_max_receive_gap_ms (tsb_run b l) =
    max_of (tsb_max_receive_gap_ms b) (gaps (tsb_last_receive_time_ns b) l).
Proof.
  revert b. induction l as [|[now p] l IH]; intros b Hd Hf; [done|]. destruct Hf as [Hs Hf].
  destruct (tsb_update_fields now p b) as (_ & Hd' & Ht & Hq).
  rewrite tsb_run_cons, IH, tsb_update_gap, Ht by (done || by rewrite Hq). done.
Qed.

Lemma max_of_spec g l :
  fnn g -> Forall fnn l ->
  fnn (max_of g l) /\ max_of g l ∈ g :: l /\ Forall (fun x => dleb x (max_of g l) = true) (g :: l).
Proof.
  intros Hg Hl. revert g Hg. induction Hl as [|x l Hx Hl IH]; intros g Hg; simpl.
  - split_and!; [done|by apply list_elem_of_singleton|]. constructor; [|done].
    rewrite fnn_leb by done. apply Z.leb_refl.
  - assert (Hm : fnn (dmax g x)) by (unfold dmax; by destruct (dltb g x)).
    destruct (IH _ Hm) as (Hf & Hi & Ha). split; [done|]. inversion Ha as [|? ? Ha1 Ha2]; subst.
    fold (max_of (dmax g x) l). rewrite fnn_leb in Ha1 by done. apply Z.leb_le in Ha1.
    assert (Hgx : scaled g <= scaled (dmax g x) /\ scaled x <= scaled (dmax g x)).
    { unfold dmax. rewrite fnn_ltb by done. destruct (Z.ltb_spec (scaled g) (scaled x)); lia. }
    split.
    + apply elem_of_cons in Hi as [->|Hi]; [|by do 2 right]. unfold dmax.
      destruct (dltb g x); [by right; left|by left].
    + repeat constructor; [rewrite fnn_leb by done; apply Z.leb_le; lia..|done].
Qed.

Lemma gaps_fnn t l : Forall fnn (gaps t l).
Proof. revert t. induction l as [|[t' p] l IH]; intros t; simpl; constructor; auto with float. Qed.

(** ** Properties *)

(** Loss accounting. From the first packet on, as long as no sequence number
    jumps backwards, the loss counter is exactly the number of sequence numbers
    skipped, modulo 2^32: the distance from the first to the last number less
    the packets received that were not repetitions. Wrap-around of the sequence
    number is handled, whatever the arrival times. *)
Lemma teleop_loss_accounting (u : TeleopPacket) (t0 : Z) (p0 : TeleopPacket) (l : list (Z * TeleopPacket)) :
  forward (tp_seq p0) l ->
  tsb_lost_packet_count (tsb_run (tsb_new u) ((t0, p0) :: l)) =
    u32 (last_seq (tp_seq p0) l - tp_seq p0 - count_new (tp_seq p0) l).
Proof. intros Hf. rewrite tsb_run_cons. by rewrite tsb_run_lost. Qed.

(** Packets that differ from the zero packet in the sequence number only. *)
Definition packet_seq (n : Z) : TeleopPacket :=
  mkTeleopPacket 0 0 0 n 0 0 0 0 0 0 0 0 0 (replicate 8 0) (replicate 8 0) (replicate 4 0)
    (replicate 4 0) 0.

Lemma teleop_loss_accounting_witness :
  tsb_lost_packet_count (tsb_run (tsb_new teleop_zero)
    [(0, packet_seq 4294967290); (10, packet_seq 4294967293); (20, packet_seq 4294967293);
     (30, packet_seq 5)]) = 9.
Proof.
  rewrite (teleop_loss_accounting teleop_zero 0 (packet_seq 4294967290)).
  - reflexivity.
  - apply (bool_decide_unpack _). vm_compute. exact I.
Defined.

(** The newest call wins, and only the statistics are guarded. After any run
    of updates that ends with a packet, [get_latest] returns that packet and the
    watchdog time is its arrival, also when its sequence number is a repetition
    or a jump backwards; a backward jump clears the timing statistics and keeps
    the loss count; on a forward run the maximum gap is one of the observed
    gaps (or the initial 0) and bounds all of them. *)
Lemma teleop_latest_and_gap (u : TeleopPacket) (l : list (Z * TeleopPacket)) (now : Z) (p : TeleopPacket) :
  let b := tsb_run (tsb_new u) l in
  let b' := tsb_update now p b in
  tsb_get_latest b' = Some p /\ tsb_last_receive_time_ns b' = now /\
  (tsb_has_data b = true -> 0x7FFFFFFF < seq_diff (tsb_last_seq b) (tp_seq p) ->
    tsb_lost_packet_count b' = tsb_lost_packet_count b /\
    tsb_max_receive_gap_ms b' = d0 /\ tsb_average_receive_period_ms b' = d0) /\
  forall t0 p0 l',
    l = (t0, p0) :: l' -> forward (tp_seq p0) l' ->
    tsb_max_receive_gap_ms b ∈ d0 :: gaps t0 l' /\
    Forall (fun g => dleb g (tsb_max_receive_gap_ms b) = true) (gaps t0 l').
Proof.
  cbv zeta. destruct (tsb_update_fields now p (tsb_run (tsb_new u) l)) as (Hp & Hd & Ht & _).
  unfold tsb_get_latest. rewrite Hd, Hp. split_and!; [done|done| |].
  - unfold tsb_update, seq_diff. intros -> Hj. by rewrite (proj2 (Z.ltb_lt _ _) Hj).
  - intros t0 p0 l' -> Hf. rewrite tsb_run_cons, tsb_run_gap by done. simpl.
    destruct (max_of_spec d0 (gaps t0 l')) as (_ & Hi & Ha); [done|apply gaps_fnn|].
    by inversion Ha.
Qed.
