(* ===== verification/FeedbackStateBuffer.v ===== *)
(** * FeedbackStateBuffer: the leader's view of one follower arm

    [src/src/core/feedback_state_buffer.cpp]: newest feedback packet, and rate,
    loss and round-trip statistics over a sliding window. Each method holds the
    mutex throughout, so executions are sequences of calls; the monotonic clock
    each call reads is an argument. [None] marks what would be undefined
    behaviour of the C++ (an out-of-range index or float-to-integer cast);
    [feedback_snapshot_defined] shows it never happens. *)

From S2P Require Import Prelude Float64 Float64Round Float64Ops Float64Arith Float64Order Float64Facts.
From S2P Require Import Crc32 Wire Packets TeleopStateBuffer.
From stdpp Require Import sorting.

Open Scope Z_scope.

(** ** State *)

Record Stats := mkStats {
  st_has_data : bool;
  st_age_ms : double;
  st_rate_hz : double;
  st_loss_percent : double;
  st_rtt_p50_ms : double;
  st_rtt_p95_ms : double;
  st_rtt_max_ms : double;
  st_cmd_hold_p95_ms : double;
  st_received_total : Z;
  st_lost_total : Z;
}.

Definition d_neg1 : double := dopp d1.

(** The member initialisers of [Stats]. *)
Definition stats_default : Stats := mkStats false d_neg1 d0 d0 d_neg1 d_neg1 d_neg1 d_neg1 0 0.

Record Sample := mkSample {
  sm_recv_time_ns : Z;
  sm_lost_before : Z;
  sm_rtt_ns : Z;
  sm_cmd_hold_ns : Z;
}.

Record FeedbackStateBuffer := mkFeedbackStateBuffer {
  fsb_window_ns : Z;
  fsb_latest : FeedbackPacket;
  fsb_has_data : bool;
  fsb_last_receive_time_ns : Z;
  fsb_last_seq : Z;
  fsb_received_total : Z;
  fsb_lost_total : Z;
  fsb_samples : list Sample;         (* front first *)
}.

(** The constructor: [static_cast<uint64_t>(window_s * 1e9)]. *)
Definition fsb_new (window_s : double) : option FeedbackStateBuffer :=
  match u64_of_double (window_s * d_of_Z 1000000000)%D with
  | Some w => Some (mkFeedbackStateBuffer w feedback_zero false 0 0 0 0 [])
  | None => None
  end.

(** ** Operations *)

(** [now_ns - t > window_ns_] on [uint64_t]. *)
Definition expired (window now t : Z) : bool := window <? u64 (now - t).

Fixpoint trim_locked (window now_ns : Z) (l : list Sample) : list Sample :=
  match l with
  | s :: l' => if expired window now_ns (sm_recv_time_ns s) then trim_locked window now_ns l' else l
  | [] => []
  end.

Definition fsb_update (now_ns : Z) (packet : FeedbackPacket) (rtt_ns : Z) (b : FeedbackStateBuffer)
    : FeedbackStateBuffer :=
  let diff := u32 (fp_seq packet - fsb_last_seq b) in
  let accept (samples : list Sample) (lost_before lost_total : Z) :=
    mkFeedbackStateBuffer (fsb_window_ns b) packet true now_ns (fp_seq packet)
      (u32 (fsb_received_total b + 1)) lost_total
      (trim_locked (fsb_window_ns b) now_ns
         (samples ++ [mkSample now_ns lost_before rtt_ns (fp_cmd_hold_ns packet)])) in
  if fsb_has_data b then
    if 0x7FFFFFFF <? diff then accept [] 0 (fsb_lost_total b)
    else if diff =? 0 then b
    else if 1 <? diff then
      accept (fsb_samples b) (diff - 1) (u32 (fsb_lost_total b + (diff - 1)))
    else accept (fsb_samples b) 0 (fsb_lost_total b)
  else accept (fsb_samples b) 0 (fsb_lost_total b).

Definition fsb_get_latest (b : FeedbackStateBuffer) : option FeedbackPacket :=
  if fsb_has_data b then Some (fsb_latest b) else None.

Definition fsb_reset (b : FeedbackStateBuffer) : FeedbackStateBuffer :=
  mkFeedbackStateBuffer (fsb_window_ns b) (fsb_latest b) false (fsb_last_receive_time_ns b)
    (fsb_last_seq b) (fsb_received_total b) (fsb_lost_total b) [].

(** [std::sort] on [uint64_t]: the sorted permutation. *)
Definition sort_u64 (v : list Z) : list Z := merge_sort Z.le v.

(** Nanoseconds as milliseconds. *)
Definition ns_ms (n : Z) : double := (d_of_Z n / d_of_Z 1000000)%D.

(** The [percentile] lambda: it sorts its vector in place. *)
Definition percentile_index (n : nat) (p : double) : option Z :=
  u64_of_double (p * d_of_Z (Z.of_nat (n - 1)) + dlit 5 1)%D.

Definition percentile (v : list Z) (p : double) : option (list Z * double) :=
  let v := sort_u64 v in
  match percentile_index (length v) p with
  | Some idx =>
      match v !! Z.to_nat (Z.min idx (Z.of_nat (length v - 1))) with
      | Some x => Some (v, ns_ms x)
      | None => None
      end
  | None => None
  end.

Definition p50 : double := dlit 50 2.
Definition p95 : double := dlit 95 2.

(** The samples [snapshot] counts. *)
Definition live (window now : Z) (l : list Sample) : list Sample :=
  filter (fun s => expired window now (sm_recv_time_ns s) = false) l.

Definition loss_percent (received lost : Z) : double :=
  if 0 <? u32 (received + lost)
  then (d_of_Z 100 * d_of_Z lost / d_of_Z (u32 (received + lost)))%D else d0.

Definition fsb_snapshot (now_ns : Z) (b : FeedbackStateBuffer) : option Stats :=
  if fsb_has_data b then
    let age := ns_ms (u64 (now_ns - fsb_last_receive_time_ns b)) in
    let smps := live (fsb_window_ns b) now_ns (fsb_samples b) in
    let received := u32 (Z.of_nat (length smps)) in
    let lost := fold_left (fun a s => u32 (a + sm_lost_before s)) smps 0 in
    let rtts := filter (fun n => 0 < n) (map sm_rtt_ns smps) in
    let holds := map sm_cmd_hold_ns smps in
    let rate := (d_of_Z received / (d_of_Z (fsb_window_ns b) / d_of_Z 1000000000))%D in
    let loss := loss_percent received lost in
    match
      (match rtts with
       | [] => Some (d_neg1, d_neg1, d_neg1)
       | _ =>
           match percentile rtts p50 with
           | Some (v, a) =>
               match percentile v p95 with
               | Some (v, b) =>
                   match last v with Some m => Some (a, b, ns_ms m) | None => None end
               | None => None
               end
           | None => None
           end
       end),
      (match holds with
       | [] => Some d_neg1
       | _ => match percentile holds p95 with Some (_, a) => Some a | None => None end
       end)
    with
    | Some (r50, r95, rmax), Some hold =>
        Some (mkStats true age rate loss r50 r95 rmax hold (fsb_received_total b) (fsb_lost_total b))
    | _, _ => None
    end
  else
    Some (mkStats false d_neg1 d0 d0 d_neg1 d_neg1 d_neg1 d_neg1 (fsb_received_total b) (fsb_lost_total b)).

(** ** Percentiles *)

Lemma sort_u64_sorted v : StronglySorted Z.le (sort_u64 v).
Proof. apply (StronglySorted_merge_sort Z.le). Qed.

Lemma sort_u64_perm v : sort_u64 v ≡ₚ v.
Proof. apply merge_sort_Permutation. Qed.

Lemma length_sort_u64 v : length (sort_u64 v) = length v.
Proof. by rewrite sort_u64_perm. Qed.

Lemma sort_u64_idemp v : sort_u64 (sort_u64 v) = sort_u64 v.
Proof.
  apply (StronglySorted_unique Z.le); [apply sort_u64_sorted..|].
  by rewrite sort_u64_perm.
Qed.

Lemma sorted_lookup_le v i j x y :
  StronglySorted Z.le v -> v !! i = Some x -> v !! j = Some y -> (i <= j)%nat -> x <= y.
Proof.
  intros Hs. revert i j. induction Hs as [|a v Hs IH Ha]; intros i j Hi Hj Hle; [done|].
  destruct i as [|i], j as [|j]; simplify_eq/=; [done| |lia|].
  - rewrite Forall_lookup in Ha. by eapply Ha.
  - apply (IH i j); [done..|lia].
Qed.

Lemma p95_fnn : fnn p95 /\ scaled p95 <= 2 ^ 1074.
Proof. vm_compute. split_and!; (reflexivity || discriminate). Qed.

Lemma p50_fnn : fnn p50 /\ scaled p50 <= 2 ^ 1074.
Proof. vm_compute. split_and!; (reflexivity || discriminate). Qed.

Lemma half_fnn : fnn (dlit 5 1) /\ scaled (dlit 5 1) = 2 ^ 1073.
Proof. vm_compute. by split_and!. Qed.

(** The index computation neither overflows nor leaves the nonnegative range,
    and is monotone in the percentile. *)
Lemma percentile_arg n p :
  fnn p -> scaled p <= 2 ^ 1074 -> Z.of_nat n <= 2 ^ 52 ->
  let x := (p * d_of_Z (Z.of_nat (n - 1)) + dlit 5 1)%D in
  fnn x /\ scaled x < 2 ^ 1138.
Proof.
  intros Hp Hp1 Hn x. set (z := Z.of_nat (n - 1)) in *.
  destruct (d_of_Z_fnn z) as [Hz _]; [lia|]. destruct half_fnn as [Hh Eh].
  destruct (d_of_Z_exact z) as (_ & _ & Ez); [lia|].
  destruct (d_of_Z_fnn (2 ^ 53)) as [Hb _]; [lia|].
  destruct (d_of_Z_exact (2 ^ 53)) as (_ & _ & Eb); [lia|].
  pose proof (pow2_pos 1073 ltac:(lia)). assert (2 ^ 1074 = 2 * 2 ^ 1073) as E1074 by reflexivity.
  pose proof (dmul_le_l p (d_of_Z z) Hp Hz Hp1) as Hm.
  assert (Hmf : fnn (dmul p (d_of_Z z))).
  { apply (nonneg_le_fnn _ (d_of_Z z)); [by apply dmul_fnn|done|done]. }
  destruct (dadd_le _ _ (d_of_Z (2 ^ 53)) Hmf Hh Hb) as [Hx Hle]; [nia|].
  split; [done|]. fold x in Hle. rewrite Eb in Hle. eapply Z.le_lt_trans; [exact Hle|].
  rewrite <- pow2_add by lia. by apply Z.pow_lt_mono_r.
Qed.

Lemma percentile_index_mono n :
  Z.of_nat n <= 2 ^ 52 ->
  exists i j, percentile_index n p50 = Some i /\ percentile_index n p95 = Some j /\ 0 <= i <= j.
Proof.
  intros Hn. destruct p50_fnn as [H5 L5], p95_fnn as [H9 L9]. destruct half_fnn as [Hh _].
  destruct (percentile_arg n p50 H5 L5 Hn) as [F5 B5].
  destruct (percentile_arg n p95 H9 L9 Hn) as [F9 B9].
  eexists _, _. split_and!; [by apply u64_of_double_spec..| |].
  - apply Z.div_pos; [apply nonneg_scaled, F5|by apply pow2_pos].
  - apply Z.div_le_mono; [by apply pow2_pos|].
    set (z := Z.of_nat (n - 1)) in *. destruct (d_of_Z_fnn z) as [Hz _]; [lia|].
    assert (Hf : forall p, fnn p -> scaled p <= 2 ^ 1074 -> fnn (dmul p (d_of_Z z))).
    { intros p Hp Hp1. apply (nonneg_le_fnn _ (d_of_Z z)); [by apply dmul_fnn|done|by apply dmul_le_l]. }
    apply dadd_mono_l; [by apply Hf|by apply Hf|done|].
    apply dmul_mono; [done..|]. by vm_compute.
Qed.

Lemma percentile_spec v :
  v <> [] -> Z.of_nat (length v) <= 2 ^ 52 ->
  exists x5 x9 m, percentile v p50 = Some (sort_u64 v, ns_ms x5) /\
    percentile (sort_u64 v) p95 = Some (sort_u64 v, ns_ms x9) /\ last (sort_u64 v) = Some m /\
    x5 ∈ v /\ x9 ∈ v /\ m ∈ v /\ x5 <= x9 <= m.
Proof.
  intros Hne Hn. unfold percentile. rewrite sort_u64_idemp, length_sort_u64.
  destruct (percentile_index_mono (length v) Hn) as (i & j & -> & -> & Hi & Hij).
  assert (0 < length v)%nat by (destruct v; [done|simpl; lia]).
  assert (Hlk : forall k, exists x, 0 <= k -> sort_u64 v !! Z.to_nat (Z.min k (Z.of_nat (length v - 1))) = Some x).
  { intros k. destruct (sort_u64 v !! Z.to_nat (Z.min k (Z.of_nat (length v - 1)))) eqn:E; [by eexists|].
    exists 0. intros Hk. apply lookup_ge_None in E. rewrite length_sort_u64 in E. lia. }
  destruct (Hlk i) as [x5 H5]; destruct (Hlk j) as [x9 H9]. specialize (H5 ltac:(lia)). specialize (H9 ltac:(lia)).
  rewrite H5, H9. destruct (last (sort_u64 v)) as [m|] eqn:Hm.
  2:{ apply last_None in Hm. pose proof (length_sort_u64 v) as Hl. rewrite Hm in Hl. simpl in Hl. lia. }
  assert (Hin : forall k x, sort_u64 v !! k = Some x -> x ∈ v).
  { intros k x Hx. rewrite <- sort_u64_perm. by eapply list_elem_of_lookup_2. }
  rewrite last_lookup, length_sort_u64 in Hm.
  exists x5, x9, m. split_and!; try done; try by eapply Hin.
  - apply (sorted_lookup_le _ _ _ _ _ (sort_u64_sorted v) H5 H9). lia.
  - apply (sorted_lookup_le _ _ _ _ _ (sort_u64_sorted v) H9 Hm). lia.
Qed.

Lemma percentile_single v :
  v <> [] -> Z.of_nat (length v) <= 2 ^ 52 ->
  exists x, percentile v p95 = Some (sort_u64 v, ns_ms x) /\ x ∈ v.
Proof.
  intros Hne Hn. destruct (percentile_spec v Hne Hn) as (x5 & x9 & m & _ & H9 & _ & _ & Hx & _).
  exists x9. split; [|done]. unfold percentile in *. by rewrite sort_u64_idemp in H9.
Qed.

(** ** Derived quantities *)

Lemma ns_ms_mono m n : in_width 64 m -> in_width 64 n -> m <= n -> dleb (ns_ms m) (ns_ms n) = true.
Proof.
  intros Hm Hn Hle. rewrite fnn_leb by by apply ns_ms_fnn. apply Z.leb_le.
  destruct ns_per_ms_fnn as [F6 P6]. pose proof (pow2_pos 1074 ltac:(lia)).
  destruct Hm, Hn. apply ddiv_mono_l; [apply d_of_Z_fnn; lia..|done|lia|by apply d_of_Z_mono].
Qed.

Lemma loss_percent_range received lost :
  0 <= received -> 0 <= lost -> received + lost < 2 ^ 32 ->
  fnn (loss_percent received lost) /\ dleb (loss_percent received lost) (d_of_Z 100) = true.
Proof.
  intros Hr Hl Ht. unfold loss_percent. rewrite wrap_small by (split; lia).
  destruct (Z.ltb_spec 0 (received + lost)) as [Hp|]; [|done]. set (t := received + lost) in *.
  destruct (d_of_Z_fnn 100) as [F100 _]; [lia|]. destruct (d_of_Z_exact 100) as (_ & _ & E100); [lia|].
  destruct (d_of_Z_fnn lost) as [Fl _]; [lia|]. destruct (d_of_Z_exact lost) as (_ & _ & El); [lia|].
  destruct (d_of_Z_fnn t) as [Ft _]; [lia|]. destruct (d_of_Z_exact t) as (_ & _ & Et); [lia|].
  destruct (d_of_Z_fnn (100 * t)) as [Fz _]; [lia|].
  destruct (d_of_Z_exact (100 * t)) as (_ & _ & Ez); [lia|]. pose proof (pow2_pos 1074 ltac:(lia)).
  destruct (dmul_le (d_of_Z 100) (d_of_Z lost) (d_of_Z (100 * t)) F100 Fl Fz) as [Fm Lm].
  { rewrite E100, El, Ez. nia. }
  destruct (ddiv_le _ (d_of_Z t) (d_of_Z 100) Fm Ft F100) as [Fq Lq]; [nia| |].
  { rewrite Et, E100. nia. }
  split; [done|]. rewrite fnn_leb by done. by apply Z.leb_le.
Qed.

(** ** Properties *)

(** Sums of the loss counters of samples, as the snapshot adds them. *)
Definition lost_sum (l : list Sample) : Z := fold_left (fun a s => u32 (a + sm_lost_before s)) l 0.

Lemma lost_sum_range l : in_width 32 (lost_sum l).
Proof.
  unfold lost_sum. induction l as [|s l IH] using rev_ind; [done|].
  rewrite fold_left_app. apply wrap_range. lia.
Qed.

(** The members of a sample are [uint64_t]. *)
Definition sample_ok (s : Sample) : Prop :=
  in_width 64 (sm_rtt_ns s) /\ in_width 64 (sm_cmd_hold_ns s).

#[export] Instance sample_ok_dec s : Decision (sample_ok s).
Proof. unfold sample_ok, in_width. apply _. Defined.

(** The statistics are well defined and ordered. For every buffer with data
    (fewer than 2^32 packets received or lost in the window) [snapshot] returns,
    without an out-of-range index or cast; the loss is between 0 and 100 percent,
    the age is a nonnegative number, and the round-trip percentiles are either
    all -1 (no measurable sample) or round trips of samples inside the window
    with p50 <= p95 <= max. *)
Lemma feedback_snapshot_defined (now : Z) (b : FeedbackStateBuffer) :
  fsb_has_data b = true -> Forall sample_ok (fsb_samples b) ->
  Z.of_nat (length (fsb_samples b)) + lost_sum (live (fsb_window_ns b) now (fsb_samples b)) < 2 ^ 32 ->
  exists s, fsb_snapshot now b = Some s /\
    fnn (st_age_ms s) /\
    dleb d0 (st_loss_percent s) = true /\ dleb (st_loss_percent s) (d_of_Z 100) = true /\
    (let rtts := filter (fun n => 0 < n)
                   (map sm_rtt_ns (live (fsb_window_ns b) now (fsb_samples b))) in
     (rtts = [] /\ st_rtt_p50_ms s = d_neg1 /\ st_rtt_p95_ms s = d_neg1 /\ st_rtt_max_ms s = d_neg1) \/
     (exists x5 x9 m, x5 ∈ rtts /\ x9 ∈ rtts /\ m ∈ rtts /\
        st_rtt_p50_ms s = ns_ms x5 /\ st_rtt_p95_ms s = ns_ms x9 /\ st_rtt_max_ms s = ns_ms m /\
        dleb (st_rtt_p50_ms s) (st_rtt_p95_ms s) = true /\
        dleb (st_rtt_p95_ms s) (st_rtt_max_ms s) = true)).
Proof.
  intros Hd Hok Hsz. unfold fsb_snapshot. rewrite Hd. cbv zeta.
  set (smps := live _ now _) in *. fold (lost_sum smps).
  assert (Hlen : (length smps <= length (fsb_samples b))%nat) by apply length_filter.
  pose proof (lost_sum_range smps) as Hls. pose proof (proj1 Hls) as Hl0.
  assert (Hoks : Forall sample_ok smps).
  { apply Forall_forall. intros s Hs. apply list_elem_of_filter in Hs as [_ Hs].
    rewrite Forall_forall in Hok. by apply Hok. }
  set (rtts := filter _ (map sm_rtt_ns smps)).
  assert (Hrl : (length rtts <= length smps)%nat).
  { etransitivity; [apply length_filter|]. by rewrite length_map. }
  assert (Hrw : forall x, x ∈ rtts -> in_width 64 x).
  { intros x Hx. apply list_elem_of_filter in Hx as [_ Hx]. apply list_elem_of_fmap in Hx as (s & -> & Hs).
    rewrite Forall_forall in Hoks. by apply Hoks. }
  assert (Hhold : exists a, match map sm_cmd_hold_ns smps with
    | [] => Some d_neg1
    | _ => match percentile (map sm_cmd_hold_ns smps) p95 with Some (_, a) => Some a | None => None end
    end = Some a).
  { destruct (map sm_cmd_hold_ns smps) eqn:Eh; [by eexists|]. rewrite <- Eh.
    destruct (percentile_single (map sm_cmd_hold_ns smps)) as (x & -> & _);
      [by rewrite Eh|rewrite length_map; lia|by eexists]. }
  destruct Hhold as [hold ->].
  destruct (loss_percent_range (u32 (Z.of_nat (length smps))) (lost_sum smps)) as [Lf L1];
    [apply wrap_range; lia|apply Hls|rewrite wrap_small by (split; lia); lia|].
  pose proof (nonneg_scaled _ (proj1 Lf)) as [_ L0].
  assert (Hld : dleb d0 (loss_percent (u32 (Z.of_nat (length smps))) (lost_sum smps)) = true).
  { rewrite fnn_leb by done. by apply Z.leb_le. }
  pose proof (ns_ms_fnn (u64 (now - fsb_last_receive_time_ns b)) ltac:(apply wrap_range; lia)) as Hage.
  destruct rtts as [|r rtts'] eqn:Er.
  - eexists. split; [done|]. simpl. split_and!; try done. left. by split_and!.
  - rewrite <- Er in *. destruct (percentile_spec rtts) as (x5 & x9 & m & -> & -> & -> & H5 & H9 & Hm & Hle & Hle');
      [by rewrite Er|lia|].
    eexists. split; [done|]. simpl. split_and!; try done. right. exists x5, x9, m.
    split_and!; try done; apply ns_ms_mono; auto.
Qed.

(** [snapshot] returns for every buffer that is not larger than any memory. *)
Lemma fsb_snapshot_some now b :
  Z.of_nat (length (fsb_samples b)) <= 2 ^ 52 -> exists s, fsb_snapshot now b = Some s.
Proof.
  intros Hn. unfold fsb_snapshot. destruct (fsb_has_data b); [|by eexists]. cbv zeta.
  set (smps := live _ now _).
  assert (Hlen : (length smps <= length (fsb_samples b))%nat) by apply length_filter.
  set (rtts := filter _ (map sm_rtt_ns smps)).
  assert (Hrl : (length rtts <= length smps)%nat) by (etransitivity; [apply length_filter|by rewrite length_map]).
  assert (Hr : exists t, match rtts with
     | [] => Some (d_neg1, d_neg1, d_neg1)
     | _ => match percentile rtts p50 with
            | Some (v, a) => match percentile v p95 with
                             | Some (v, b) => match last v with Some m => Some (a, b, ns_ms m) | None => None end
                             | None => None
                             end
            | None => None
            end
     end = Some t).
  { destruct rtts as [|x l] eqn:E; [by eexists|]. rewrite <- E in *.
    destruct (percentile_spec rtts) as (x5 & x9 & m & -> & -> & -> & _); [by rewrite E|lia|]. by eexists. }
  destruct Hr as [[[r5 r9] rm] ->].
  destruct (map sm_cmd_hold_ns smps) as [|x l] eqn:E; [by eexists|]. rewrite <- E.
  destruct (percentile_single (map sm_cmd_hold_ns smps)) as (h & -> & _); [by rewrite E|rewrite length_map; lia|]. by eexists.
Qed.

(** What an update does to the packet and to the number of samples. *)
Lemma length_trim_locked w now l : (length (trim_locked w now l) <= length l)%nat.
Proof. induction l as [|s l IH]; cbn [trim_locked length]; [done|]. destruct (expired _ _ _); cbn [length]; lia. Qed.

Lemma fsb_update_latest now p rtt b q :
  fsb_get_latest (fsb_update now p rtt b) = Some q -> q = p \/ fsb_get_latest b = Some q.
Proof.
  unfold fsb_update. cbv zeta. destruct (fsb_has_data b) eqn:E; [|intros [= <-]; by left].
  destruct (0x7FFFFFFF <? _); [intros [= <-]; by left|]. destruct (_ =? 0); [by right|].
  destruct (1 <? _); intros [= <-]; by left.
Qed.

Lemma fsb_update_samples now p rtt b :
  (length (fsb_samples (fsb_update now p rtt b)) <= 1 + length (fsb_samples b))%nat.
Proof.
  assert (Ht : forall w l x, (length (trim_locked w now (l ++ [x])) <= 1 + length l)%nat).
  { intros w l x. rewrite length_trim_locked, length_app. cbn [length]. lia. }
  unfold fsb_update. cbv zeta. destruct (fsb_has_data b); [|apply Ht].
  destruct (0x7FFFFFFF <? _); [etransitivity; [apply Ht|cbn [length]; lia]|]. destruct (_ =? 0); [lia|].
  destruct (1 <? _); apply Ht.
Qed.

(** A buffer after three samples. *)
Definition sample_buffer : FeedbackStateBuffer :=
  mkFeedbackStateBuffer 1000000000 feedback_zero true 30000000 7 3 1
    [mkSample 10000000 0 3000000 100; mkSample 20000000 1 2000000 200; mkSample 30000000 0 5000000 300].

Lemma feedback_snapshot_defined_witness :
  exists s, fsb_snapshot 40000000 sample_buffer = Some s /\ dleb (st_loss_percent s) (d_of_Z 100) = true.
Proof.
  destruct (feedback_snapshot_defined 40000000 sample_buffer) as (s & Hs & _ & _ & Hl & _).
  - reflexivity.
  - apply (bool_decide_unpack _). vm_compute. exact I.
  - vm_compute. reflexivity.
  - exists s. split; [exact Hs|exact Hl].
Defined.

(** ** Specification: the full history *)

(** What the buffer stands for: every sample accepted since the stream last
    (re)started, and the time and sequence number of the newest one. *)
Record Hist := mkHist { h_last : option (Z * Z); h_samples : list Sample }.

Definition hist_accept (now : Z) (packet : FeedbackPacket) (rtt lost : Z) (l : list Sample) : Hist :=
  mkHist (Some (now, fp_seq packet)) (l ++ [mkSample now lost rtt (fp_cmd_hold_ns packet)]).

Definition hist_update (now : Z) (packet : FeedbackPacket) (rtt : Z) (h : Hist) : Hist :=
  match h_last h with
  | None => hist_accept now packet rtt 0 (h_samples h)
  | Some (_, s) =>
      let d := seq_diff s (fp_seq packet) in
      if 0x7FFFFFFF <? d then hist_accept now packet rtt 0 []
      else if d =? 0 then h
      else hist_accept now packet rtt (d - 1) (h_samples h)
  end.

Definition hist_empty : Hist := mkHist None [].

(** Calls on the buffer, each with its clock value. *)
Inductive Call :=
| Update (now : Z) (packet : FeedbackPacket) (rtt : Z)
| Reset (now : Z).

Definition call_time (c : Call) : Z := match c with Update now _ _ | Reset now => now end.

Definition fsb_call (b : FeedbackStateBuffer) (c : Call) : FeedbackStateBuffer :=
  match c with Update now p rtt => fsb_update now p rtt b | Reset _ => fsb_reset b end.

Definition hist_call (h : Hist) (c : Call) : Hist :=
  match c with Update now p rtt => hist_update now p rtt h | Reset _ => hist_empty end.

(** The clock never runs backwards. *)
Fixpoint monotone_from (t : Z) (l : list Call) : Prop :=
  match l with [] => True | c :: l' => t <= call_time c /\ monotone_from (call_time c) l' end.

Definition last_time (t : Z) (l : list Call) : Z := fold_left (fun _ c => call_time c) l t.

#[export] Instance monotone_from_dec t l : Decision (monotone_from t l).
Proof. revert t. induction l as [|c l IH]; intros t; simpl; apply _. Defined.

Lemma monotone_last t l : monotone_from t l -> t <= last_time t l.
Proof.
  unfold last_time. revert t. induction l as [|c l IH]; intros t; simpl; [lia|].
  intros [H1 H2]. specialize (IH _ H2). lia.
Qed.

(** Receive times between [lo] and [hi], in order. *)
Fixpoint ordered (lo : Z) (l : list Sample) (hi : Z) : Prop :=
  match l with
  | [] => lo <= hi
  | s :: l' => lo <= sm_recv_time_ns s /\ ordered (sm_recv_time_ns s) l' hi
  end.

Lemma ordered_weaken lo lo' l hi hi' : ordered lo l hi -> lo' <= lo -> hi <= hi' -> ordered lo' l hi'.
Proof.
  revert lo lo'. induction l as [|s l IH]; intros lo lo'; simpl; [lia|].
  intros [H1 H2] Hlo Hhi. split; [lia|]. by apply (IH (sm_recv_time_ns s)).
Qed.

Lemma ordered_snoc lo l hi s :
  ordered lo l hi -> hi <= sm_recv_time_ns s -> ordered lo (l ++ [s]) (sm_recv_time_ns s).
Proof.
  revert lo. induction l as [|a l IH]; intros lo; simpl; [lia|]. intros [H1 H2] Hs.
  split; [done|]. by apply IH.
Qed.

Lemma ordered_filter lo l hi (P : Sample -> Prop) `{forall s, Decision (P s)} :
  ordered lo l hi -> ordered lo (filter P l) hi.
Proof.
  revert lo. induction l as [|a l IH]; intros lo; [done|]. intros [H1 H2].
  rewrite filter_cons. destruct (decide (P a)); simpl.
  - split; [done|]. by apply IH.
  - apply IH. by eapply ordered_weaken; [exact H2|lia|lia].
Qed.

Lemma ordered_bounds lo l hi : ordered lo l hi -> lo <= hi /\ Forall (fun s => lo <= sm_recv_time_ns s <= hi) l.
Proof.
  revert lo. induction l as [|a l IH]; intros lo; simpl; [by split|].
  intros [H1 H2]. destruct (IH _ H2) as [H3 H4]. split; [lia|]. constructor; [lia|].
  eapply Forall_impl; [exact H4|]. simpl. lia.
Qed.

Lemma expired_exact w now t :
  0 <= t <= now -> now < 2 ^ 64 -> expired w now t = (w <? now - t).
Proof. intros Ht Hn. unfold expired. by rewrite wrap_small by (split; lia). Qed.

Lemma live_all w lo now l :
  0 <= lo -> now < 2 ^ 64 -> ordered lo l now -> expired w now lo = false -> live w now l = l.
Proof.
  intros Hlo Hn Ho He. destruct (ordered_bounds _ _ _ Ho) as [Hb Ha]. clear Ho.
  rewrite expired_exact in He by lia. apply Z.ltb_ge in He.
  unfold live. induction Ha as [|s l' Hs Ha IH]; [done|].
  rewrite filter_cons_True; [by rewrite IH|]. rewrite expired_exact by lia. apply Z.ltb_ge. lia.
Qed.

(** On samples in time order, popping expired ones from the front is filtering. *)
Lemma trim_live w lo now l :
  0 <= lo -> ordered lo l now -> now < 2 ^ 64 -> trim_locked w now l = live w now l.
Proof.
  intros Hlo Ho Hn. revert lo Hlo Ho. induction l as [|s l IH]; intros lo Hlo Ho; [done|].
  destruct Ho as [H1 H2]. simpl. destruct (expired w now (sm_recv_time_ns s)) eqn:He.
  - unfold live. rewrite filter_cons_False by by rewrite He. apply (IH (sm_recv_time_ns s)); [lia|done].
  - symmetry. apply (live_all w (sm_recv_time_ns s)); [lia|done| |done]. by split.
Qed.

(** Filtering at an earlier time first changes nothing. *)
Lemma live_live w t now l :
  ordered 0 l t -> t <= now -> now < 2 ^ 64 -> live w now (live w t l) = live w now l.
Proof.
  intros Ho Ht Hn. destruct (ordered_bounds _ _ _ Ho) as [Hb Ha]. clear Ho.
  unfold live. induction Ha as [|s l Hs Ha IH]; [done|].
  rewrite !filter_cons. destruct (decide (expired w t (sm_recv_time_ns s) = false)) as [Hl|Hl].
  - rewrite filter_cons, IH. done.
  - rewrite IH. destruct (decide (expired w now (sm_recv_time_ns s) = false)) as [Hl'|]; [|done].
    exfalso. apply Hl. rewrite expired_exact in * by lia. rewrite Z.ltb_ge in *. lia.
Qed.

(** The buffer's samples are the part of the history inside the window at the
    time of the newest packet. *)
Definition represents (w : Z) (h : Hist) (b : FeedbackStateBuffer) : Prop :=
  fsb_window_ns b = w /\
  match h_last h with
  | None => fsb_has_data b = false /\ fsb_samples b = [] /\ h_samples h = []
  | Some (t, s) =>
      fsb_has_data b = true /\ fsb_last_receive_time_ns b = t /\ fsb_last_seq b = s /\
      ordered 0 (h_samples h) t /\ fsb_samples b = live w t (h_samples h)
  end.

(** [now] is not before the newest packet of the history. *)
Definition not_before (now : Z) (h : Hist) : Prop :=
  0 <= now < 2 ^ 64 /\ match h_last h with Some (t, _) => t <= now | None => True end.

Lemma ordered_history h now w b :
  represents w h b -> not_before now h ->
  ordered 0 (h_samples h) now /\ live w now (fsb_samples b) = live w now (h_samples h).
Proof.
  intros [_ Hr] [Hn Ht]. destruct (h_last h) as [[t s]|].
  - destruct Hr as (_ & _ & _ & Ho & ->).
    split; [by eapply ordered_weaken; [exact Ho|lia|]|]. apply live_live; [done|done|lia].
  - destruct Hr as (_ & -> & ->). split; [simpl; lia|done].
Qed.

Lemma represents_accept w h b now p rtt lost l :
  0 <= now < 2 ^ 64 -> ordered 0 l now -> fsb_window_ns b = w ->
  represents w (hist_accept now p rtt lost l)
    (mkFeedbackStateBuffer (fsb_window_ns b) p true now (fp_seq p) (u32 (fsb_received_total b + 1)) h
      (live w now (l ++ [mkSample now lost rtt (fp_cmd_hold_ns p)]))).
Proof.
  intros Hn Ho Hw. split; [done|]. simpl. split_and!; try done.
  apply (ordered_snoc _ _ _ (mkSample now lost rtt (fp_cmd_hold_ns p)) Ho). simpl. lia.
Qed.

Lemma trim_accept w now p rtt lost l l' :
  0 <= now < 2 ^ 64 -> ordered 0 l now -> ordered 0 l' now -> live w now l = live w now l' ->
  trim_locked w now (l ++ [mkSample now lost rtt (fp_cmd_hold_ns p)]) =
    live w now (l' ++ [mkSample now lost rtt (fp_cmd_hold_ns p)]).
Proof.
  intros Hn Ho Ho' He. rewrite (trim_live w 0).
  - unfold live in *. by rewrite !filter_app, He.
  - done.
  - apply (ordered_snoc _ _ _ (mkSample now lost rtt (fp_cmd_hold_ns p)) Ho). simpl. lia.
  - lia.
Qed.

Lemma fsb_update_represents w h b now p rtt :
  represents w h b -> not_before now h -> represents w (hist_update now p rtt h) (fsb_update now p rtt b).
Proof.
  intros Hr Hn. destruct (ordered_history _ _ _ _ Hr Hn) as [Ho Hl].
  assert (Hob : ordered 0 (fsb_samples b) now).
  { destruct Hr as [_ Hr]. destruct (h_last h) as [[t s]|].
    - destruct Hr as (_ & _ & _ & Ho' & ->). destruct Hn as [Hn Ht].
      eapply ordered_weaken; [by apply ordered_filter|done|done].
    - destruct Hr as (_ & -> & _). simpl. destruct Hn. lia. }
  pose proof (proj1 Hn) as Hn0. pose proof Hr as [Hw Hr'].
  unfold hist_update, fsb_update. cbv zeta.
  destruct (h_last h) as [[t s]|] eqn:Eh.
  - destruct Hr' as (-> & Et & -> & Ho' & Hs). unfold seq_diff. set (d := u32 _).
    destruct (0x7FFFFFFF <? d); [|destruct (Z.eqb_spec d 0)].
    + rewrite Hw at 2. rewrite (trim_accept w _ _ _ _ [] []); [|done|simpl; lia|simpl; lia|done].
      apply represents_accept; [done|simpl; lia|done].
    + done.
    + destruct (Z.ltb_spec 1 d).
      * rewrite Hw at 2. rewrite (trim_accept w _ _ _ _ _ _ Hn0 Hob Ho Hl). by apply represents_accept.
      * assert (d - 1 = 0) as -> by (pose proof (wrap_range 32 (fp_seq p - s) ltac:(lia)) as []; unfold d in *; lia).
        rewrite Hw at 2. rewrite (trim_accept w _ _ _ _ _ _ Hn0 Hob Ho Hl). by apply represents_accept.
  - destruct Hr' as (-> & Hs & Hh).
    rewrite Hw at 2. rewrite (trim_accept w _ _ _ _ _ _ Hn0 Hob Ho Hl). by apply represents_accept.
Qed.

Lemma represents_run w l h b t :
  represents w h b -> 0 <= t -> not_before t h -> monotone_from t l -> last_time t l < 2 ^ 64 ->
  represents w (fold_left hist_call l h) (fold_left fsb_call l b) /\
  not_before (last_time t l) (fold_left hist_call l h).
Proof.
  revert h b t. induction l as [|c l IH]; intros h b t Hr H0 Ht Hm Hl; [done|].
  destruct Hm as [Hc Hm]. pose proof (monotone_last _ _ Hm) as Hml.
  assert (Hlt : call_time c < 2 ^ 64) by (unfold last_time in *; simpl in *; lia).
  apply (IH (hist_call h c) (fsb_call b c) (call_time c)); [|lia| |done|done].
  - destruct c as [now p rtt|now]; simpl in *.
    + apply fsb_update_represents; [done|]. destruct Ht as [_ Ht]. split; [lia|].
      destruct (h_last h) as [[? ?]|]; [lia|done].
    + destruct Hr as [Hw _]. by split.
  - split; [lia|]. destruct c as [now p rtt|now]; simpl in *; [|done].
    unfold hist_update. destruct (h_last h) as [[t' s]|] eqn:Eh; simpl; [|lia].
    destruct (_ <? _); simpl; [lia|]. destruct (_ =? _); simpl; [|lia].
    rewrite Eh. destruct Ht as [_ Ht]. rewrite Eh in Ht. lia.
Qed.

(** The buffer with its samples replaced. *)
Definition with_samples (l : list Sample) (b : FeedbackStateBuffer) : FeedbackStateBuffer :=
  mkFeedbackStateBuffer (fsb_window_ns b) (fsb_latest b) (fsb_has_data b)
    (fsb_last_receive_time_ns b) (fsb_last_seq b) (fsb_received_total b) (fsb_lost_total b) l.

Lemma fsb_snapshot_samples now b l :
  live (fsb_window_ns b) now (fsb_samples b) = live (fsb_window_ns b) now l ->
  fsb_snapshot now b = fsb_snapshot now (with_samples l b).
Proof.
  intros He. unfold fsb_snapshot, with_samples.
  cbn [fsb_samples fsb_window_ns fsb_has_data fsb_last_receive_time_ns fsb_received_total fsb_lost_total].
  by rewrite He.
Qed.

(** C40: Trimming loses nothing (refinement). Run any sequence of updates and
    resets under a clock that does not run backwards; at any later time, the
    statistics computed from the trimmed deque are those computed from the full
    history of the samples accepted since the last reset or stream restart, and
    the deque never holds a sample older than the window at the newest packet. *)
Theorem feedback_window_refinement (window_s : double) (b0 : FeedbackStateBuffer) (l : list Call) (now : Z) :
  fsb_new window_s = Some b0 -> monotone_from 0 l -> last_time 0 l <= now -> now < 2 ^ 64 ->
  let b := fold_left fsb_call l b0 in
  let h := fold_left hist_call l hist_empty in
  fsb_snapshot now b = fsb_snapshot now (with_samples (h_samples h) b) /\
  (fsb_has_data b = true ->
     Forall (fun s => fsb_last_receive_time_ns b - sm_recv_time_ns s <= fsb_window_ns b) (fsb_samples b)).
Proof.
  intros Hnew Hm Hl Hn b h.
  assert (Hr0 : represents (fsb_window_ns b0) hist_empty b0).
  { unfold fsb_new in Hnew. destruct (u64_of_double _); [|done]. by injection Hnew as <-. }
  pose proof (monotone_last _ _ Hm).
  destruct (represents_run (fsb_window_ns b0) l _ _ 0 Hr0 (Z.le_refl 0)) as [Hr Hb]; [by split|done|lia|].
  fold b h in Hr, Hb.
  assert (Hb' : not_before now h).
  { destruct Hb as [Hb1 Hb2]. split; [lia|]. destruct (h_last h) as [[? ?]|]; [lia|done]. }
  destruct (ordered_history _ _ _ _ Hr Hb') as [Ho He]. pose proof Hr as [Hw Hr']. split.
  - apply fsb_snapshot_samples. by rewrite Hw.
  - intros Hd. destruct (h_last h) as [[t s]|] eqn:Eh; [|destruct Hr' as (Hf & _); by rewrite Hf in Hd].
    destruct Hr' as (_ & -> & _ & Hot & ->). destruct Hb' as [Hb1 Hb2]. rewrite Eh in Hb2.
    destruct (ordered_bounds _ _ _ Hot) as [_ Ha]. rewrite Forall_forall in Ha.
    apply Forall_forall. intros x Hx. apply list_elem_of_filter in Hx as [Hx1 Hx2].
    specialize (Ha _ Hx2). cbv beta in Ha, Hx1. rewrite expired_exact in Hx1 by lia. apply Z.ltb_ge in Hx1. lia.
Qed.

(** A feedback packet with a given sequence number. *)
Definition feedback_seq (n : Z) : FeedbackPacket :=
  mkFeedbackPacket 0 0 0 n 0 0 0 0 0 0 0 0 0 0 0 0 (replicate 8 0) (replicate 8 0) (replicate 8 0)
    (replicate 4 0) (replicate 4 0) (replicate 4 0) 0.

Lemma feedback_window_refinement_witness :
  exists b0, fsb_new d1 = Some b0 /\
    let l := [Update 0 (feedback_seq 1) 5; Update 900000000 (feedback_seq 3) 6;
              Update 1500000000 (feedback_seq 4) 7] in
    length (fsb_samples (fold_left fsb_call l b0)) = 2%nat /\
    fsb_snapshot 1600000000 (fold_left fsb_call l b0) =
      fsb_snapshot 1600000000 (with_samples (h_samples (fold_left hist_call l hist_empty))
        (fold_left fsb_call l b0)).
Proof.
  exists (mkFeedbackStateBuffer 1000000000 feedback_zero false 0 0 0 0 []).
  split; [reflexivity|]. split; [reflexivity|].
  apply (feedback_window_refinement d1); [reflexivity| |vm_compute; discriminate|reflexivity].
  apply (bool_decide_unpack _). vm_compute. exact I.
Defined.

(** ** Accounting *)

Fixpoint fb_forward (s : Z) (l : list (Z * FeedbackPacket * Z)) : Prop :=
  match l with
  | [] => True
  | (_, p, _) :: l' => seq_diff s (fp_seq p) <= 0x7FFFFFFF /\ fb_forward (fp_seq p) l'
  end.

#[export] Instance fb_forward_dec s l : Decision (fb_forward s l).
Proof. revert s. induction l as [|[[t p] r] l IH]; intros s; simpl; apply _. Defined.

Definition fsb_run (b : FeedbackStateBuffer) (l : list (Z * FeedbackPacket * Z)) : FeedbackStateBuffer :=
  fold_left (fun b '(now, p, rtt) => fsb_update now p rtt b) l b.

Definition fb_last_seq (s : Z) (l : list (Z * FeedbackPacket * Z)) : Z :=
  fold_left (fun _ '(_, p, _) => fp_seq p) l s.

(** The totals counted so far, as one sequence-number distance. *)
Definition accounted (b : FeedbackStateBuffer) : Z := u32 (fsb_received_total b + fsb_lost_total b).

Lemma fsb_update_accounted now p rtt b :
  fsb_has_data b = true -> seq_diff (fsb_last_seq b) (fp_seq p) <= 0x7FFFFFFF ->
  let b' := fsb_update now p rtt b in
  fsb_has_data b' = true /\ u32 (fsb_last_seq b') = u32 (fp_seq p) /\
  accounted b' = u32 (fsb_received_total b + fsb_lost_total b + (fp_seq p - fsb_last_seq b)).
Proof.
  intros Hd Hs b'. destruct (seq_diff_eq (fsb_last_seq b) (fp_seq p)) as [k Hk].
  pose proof (wrap_range 32 (fp_seq p - fsb_last_seq b) ltac:(lia)) as [Hr _].
  subst b'. unfold fsb_update, accounted. rewrite Hd. unfold seq_diff in *. cbv zeta.
  set (d := u32 (fp_seq p - fsb_last_seq b)) in *. rewrite (proj2 (Z.ltb_ge _ _)) by lia.
  destruct (Z.eqb_spec d 0); [|destruct (Z.ltb_spec 1 d)]; simpl.
  - split_and!; [done|apply (u32_congr _ _ (- k)); lia|apply (u32_congr _ _ (- k)); lia].
  - split_and!; [done|done|]. rewrite wrap_add_l, wrap_add_r. apply (u32_congr _ _ (- k)). lia.
  - split_and!; [done|done|]. rewrite wrap_add_l. apply (u32_congr _ _ (- k)). lia.
Qed.

(** Link accounting. On a stream of feedback packets that never jumps
    backwards (duplicates and 32-bit wrap-around allowed), packets received plus
    packets counted as lost is exactly the number of sequence numbers the
    follower used, from the first packet to the newest, modulo 2^32. *)
Lemma feedback_accounting (window_s : double) (b0 : FeedbackStateBuffer)
    (now : Z) (p0 : FeedbackPacket) (rtt : Z) (l : list (Z * FeedbackPacket * Z)) :
  fsb_new window_s = Some b0 -> fb_forward (fp_seq p0) l ->
  accounted (fsb_run (fsb_update now p0 rtt b0) l) = u32 (fb_last_seq (fp_seq p0) l - fp_seq p0 + 1).
Proof.
  intros Hnew Hf. set (b1 := fsb_update now p0 rtt b0).
  assert (H1 : fsb_has_data b1 = true /\ fsb_last_seq b1 = fp_seq p0 /\
    fsb_received_total b1 = 1 /\ fsb_lost_total b1 = 0).
  { unfold fsb_new in Hnew. destruct (u64_of_double _); [|done]. by injection Hnew as <-. }
  destruct H1 as (Hd & Hs & Hr & Hl).
  assert (Hgen : forall l b s, fsb_has_data b = true -> u32 (fsb_last_seq b) = u32 s -> fb_forward s l ->
    accounted (fsb_run b l) =
      u32 (fsb_received_total b + fsb_lost_total b + (fb_last_seq s l - s))).
  { clear. induction l as [|[[t p] r] l IH]; intros b s Hd Hs Hf.
    - simpl. unfold accounted. f_equal. unfold fb_last_seq. simpl. lia.
    - destruct Hf as [Hq Hf].
      assert (Hq' : forall x, u32 (x + (fp_seq p - fsb_last_seq b)) = u32 (x + (fp_seq p - s))).
      { intros x. unfold wrap in *. rewrite Z.add_sub_assoc, <- (Zminus_mod_idemp_r (x + _)), Hs.
        rewrite Zminus_mod_idemp_r. f_equal. lia. }
      destruct (fsb_update_accounted t p r b Hd) as (Hd' & Hs' & Ha).
      { unfold seq_diff. pose proof (Hq' 0) as H0. rewrite !Z.add_0_l in H0. by rewrite H0. }
      unfold fsb_run, fb_last_seq in *. simpl. rewrite (IH _ (fp_seq p) Hd' Hs' Hf).
      unfold accounted in Ha. rewrite <- wrap_add_l, Ha, Hq', wrap_add_l. f_equal. lia. }
  rewrite (Hgen l b1 (fp_seq p0)); [|done|by rewrite Hs|done]. rewrite Hr, Hl. f_equal. lia.
Qed.

Lemma feedback_accounting_witness :
  exists b0, fsb_new d1 = Some b0 /\
    accounted (fsb_run (fsb_update 0 (feedback_seq 4294967295) 0 b0)
      [(10, feedback_seq 4294967295, 0); (20, feedback_seq 3, 0)]) = 5.
Proof.
  exists (mkFeedbackStateBuffer 1000000000 feedback_zero false 0 0 0 0 []). split; [reflexivity|].
  rewrite (feedback_accounting d1); [reflexivity|reflexivity|].
  apply (bool_decide_unpack _). vm_compute. exact I.
Defined.
