(* ===== verification/Safety.v ===== *)
(** * Safety: watchdog, safety state machine and rate limiter

    [src/src/safety/watchdog.cpp], [safety_manager.cpp] and [rate_limiter.cpp].
    The safety manager's methods hold its mutex throughout, so a concurrent
    execution is a sequence of the [SafetyOp]s below. Log output is not modelled. *)

From S2P Require Import Prelude Float64 Float64Ops Float64Arith Float64Order Float64Facts.
From S2P Require Import Crc32 Wire Packets.

Open Scope Z_scope.

(** ** Watchdog *)

Inductive WatchdogStatus := OK | WARNING | WD_HOLD | DISABLE.

Record Watchdog := mkWatchdog { warning_ms : double; hold_ms : double; disable_ms : double }.

Definition watchdog_check (w : Watchdog) (gap : double) : WatchdogStatus :=
  if (gap >=? disable_ms w)%D then DISABLE
  else if (gap >=? hold_ms w)%D then WD_HOLD
  else if (gap >=? warning_ms w)%D then WARNING
  else OK.

(** ** Safety manager *)

Inductive SafetyState :=
| DISABLED | WAITING_FOR_ENABLE | READY | ACTIVE | WARNING_TIMEOUT | HOLD | ESTOP | FAULT.

#[export] Instance SafetyState_eq_dec : EqDecision SafetyState.
Proof. solve_decision. Defined.

(** The enumerator's value, as it is sent in feedback packets. *)
Definition safety_state_u8 (s : SafetyState) : Z :=
  match s with
  | DISABLED => 0 | WAITING_FOR_ENABLE => 1 | READY => 2 | ACTIVE => 3
  | WARNING_TIMEOUT => 4 | HOLD => 5 | ESTOP => 6 | FAULT => 7
  end.

Record SafetyConfig := mkSafetyConfig {
  require_enable : bool;
  watchdog_warning_ms : double;
  watchdog_hold_ms : double;
  watchdog_disable_ms : double;
  initial_pose_max_error_rad : double;
  max_target_delta_rad_per_cycle : double;
  max_joint_velocity_rad_s : double;
  reject_out_of_order_packets : bool;
}.

(** The member initialisers. *)
Definition safety_config_default : SafetyConfig :=
  mkSafetyConfig true (d_of_Z 20) (d_of_Z 50) (d_of_Z 100) (dlit 3 1) (dlit 2 2) (dlit 15 1) true.

Record SafetyManager := mkSafetyManager {
  sm_config : SafetyConfig;
  sm_state : SafetyState;
  sm_estop_triggered : bool;
}.

Definition initial_state (c : SafetyConfig) : SafetyState :=
  if require_enable c then WAITING_FOR_ENABLE else READY.

Definition safety_new (c : SafetyConfig) : SafetyManager := mkSafetyManager c (initial_state c) false.

Definition with_state (s : SafetyState) (m : SafetyManager) : SafetyManager :=
  mkSafetyManager (sm_config m) s (sm_estop_triggered m).

Definition safety_update (p : TeleopPacket) (gap : double) (m : SafetyManager) : SafetyManager :=
  let c := sm_config m in
  if sm_estop_triggered m || (tp_estop p =? 1) then with_state ESTOP m
  else if bool_decide (sm_state m = DISABLED) then m
  else if require_enable c && (tp_enable p =? 0) then with_state WAITING_FOR_ENABLE m
  else
    let wd := mkWatchdog (watchdog_warning_ms c) (watchdog_hold_ms c) (watchdog_disable_ms c) in
    let wd_status := watchdog_check wd gap in
    match wd_status with
    | DISABLE => with_state FAULT m
    | _ =>
        if bool_decide (sm_state m = WAITING_FOR_ENABLE) && negb (tp_enable p =? 1) then m
        else
          let st := if bool_decide (sm_state m = WAITING_FOR_ENABLE) then READY else sm_state m in
          match st with
          | READY | ACTIVE | WARNING_TIMEOUT | HOLD =>
              with_state (match wd_status with
                          | WD_HOLD => HOLD
                          | WARNING => WARNING_TIMEOUT
                          | _ => ACTIVE
                          end) m
          | _ => with_state st m
          end
    end.

Definition safety_trigger_estop (m : SafetyManager) : SafetyManager :=
  mkSafetyManager (sm_config m) ESTOP true.

Definition safety_reset (m : SafetyManager) : SafetyManager :=
  mkSafetyManager (sm_config m) (initial_state (sm_config m)) false.

(** ** Rate limiter *)

Record RateLimiter := mkRateLimiter {
  rl_max_delta_per_cycle : double;
  rl_max_velocity_rad_s : double;
  rl_cycle_time_s : double;
}.

Definition effective_max_delta (r : RateLimiter) : double :=
  dmin (rl_max_delta_per_cycle r) (rl_max_velocity_rad_s r * rl_cycle_time_s r)%D.

(** The loop body for one joint. *)
Definition limit_joint (eff cur tgt : double) : double :=
  let delta := (tgt - cur)%D in
  if (delta >? eff)%D then (cur + eff)%D
  else if (delta <? - eff)%D then (cur - eff)%D
  else tgt.

(** [limit]: the new [target_pos]. *)
Definition limit (r : RateLimiter) (current_pos target_pos : list double) : list double :=
  if decide (length current_pos = length target_pos)
  then zip_with (limit_joint (effective_max_delta r)) current_pos target_pos
  else target_pos.

(** ** Traces *)

Inductive SafetyOp :=
| OpUpdate (p : TeleopPacket) (gap : double)
| OpTriggerEstop
| OpReset.

Definition safety_op (m : SafetyManager) (o : SafetyOp) : SafetyManager :=
  match o with
  | OpUpdate p gap => safety_update p gap m
  | OpTriggerEstop => safety_trigger_estop m
  | OpReset => safety_reset m
  end.

Definition safety_run (m : SafetyManager) (l : list SafetyOp) : SafetyManager := fold_left safety_op l m.

Lemma safety_run_app m l l' : safety_run m (l ++ l') = safety_run (safety_run m l) l'.
Proof. apply fold_left_app. Qed.

(** Case analysis on the conditions of [safety_update]. *)
Ltac safety_cases :=
  unfold safety_update, with_state; cbn;
  repeat match goal with
    | |- context [bool_decide ?P] => destruct (bool_decide_reflect P); cbn; try congruence
    | |- context [match ?x with _ => _ end] => destruct x eqn:?; cbn; try congruence
    end.

Lemma safety_op_config m o : sm_config (safety_op m o) = sm_config m.
Proof. destruct o; [|done|done]. cbn [safety_op]. safety_cases; done. Qed.

Lemma safety_run_config m l : sm_config (safety_run m l) = sm_config m.
Proof.
  unfold safety_run. revert m. induction l as [|o l IH]; intros m; simpl; [done|].
  by rewrite IH, safety_op_config.
Qed.

Lemma safety_update_estop_flag p gap m :
  sm_estop_triggered (safety_update p gap m) = sm_estop_triggered m.
Proof. safety_cases; done. Qed.

(** A software ESTOP dominates every update. *)
Lemma safety_update_latched p gap m :
  sm_estop_triggered m = true -> sm_state (safety_update p gap m) = ESTOP.
Proof. unfold safety_update. by intros ->. Qed.

Definition is_update (o : SafetyOp) : bool := match o with OpUpdate _ _ => true | _ => false end.

Definition is_reset (o : SafetyOp) : bool := match o with OpReset => true | _ => false end.

Lemma safety_latched_run m l :
  sm_estop_triggered m = true -> sm_state m = ESTOP -> Forall (fun o => is_reset o = false) l ->
  sm_state (safety_run m l) = ESTOP.
Proof.
  intros Hf Hs Hl. revert m Hf Hs. induction Hl as [|o l Ho _ IH]; intros m Hf Hs; [done|].
  apply IH.
  - destruct o; simpl; [by rewrite safety_update_estop_flag|done|done].
  - destruct o; simpl; [by apply safety_update_latched|done|done].
Qed.

(** The update in closed form. *)
Definition tracking (s : SafetyState) : bool :=
  match s with READY | ACTIVE | WARNING_TIMEOUT | HOLD => true | _ => false end.

Definition stopped (s : SafetyState) : bool :=
  match s with ESTOP | FAULT => true | _ => false end.

Definition gap_status (c : SafetyConfig) (gap : double) : WatchdogStatus :=
  watchdog_check (mkWatchdog (watchdog_warning_ms c) (watchdog_hold_ms c) (watchdog_disable_ms c)) gap.

Lemma safety_update_state p gap m :
  sm_state (safety_update p gap m) =
    let c := sm_config m in
    if sm_estop_triggered m || (tp_estop p =? 1) then ESTOP
    else if bool_decide (sm_state m = DISABLED) then DISABLED
    else if require_enable c && (tp_enable p =? 0) then WAITING_FOR_ENABLE
    else match gap_status c gap with
         | DISABLE => FAULT
         | s =>
             if tracking (sm_state m) || (bool_decide (sm_state m = WAITING_FOR_ENABLE) && (tp_enable p =? 1))
             then match s with WD_HOLD => HOLD | WARNING => WARNING_TIMEOUT | _ => ACTIVE end
             else sm_state m
         end.
Proof.
  unfold safety_update, gap_status, with_state. cbv zeta.
  destruct (_ || _); [done|]. case_bool_decide as Hd; [done|].
  destruct (_ && _); [done|].
  destruct (watchdog_check _ gap); try done;
    destruct (sm_state m) eqn:E; simpl; try done; destruct (tp_enable p =? 1); simpl; congruence.
Qed.

(** Recovery from ESTOP or FAULT needs an update with [enable = 0] (where
    enabling is required) or a reset. *)
Definition keeps_stop (c : SafetyConfig) (o : SafetyOp) : Prop :=
  match o with
  | OpUpdate p _ => require_enable c = false \/ tp_enable p <> 0
  | OpTriggerEstop => True
  | OpReset => False
  end.

#[export] Instance keeps_stop_dec c o : Decision (keeps_stop c o).
Proof. destruct o; simpl; apply _. Defined.

Lemma safety_stopped_step m o :
  stopped (sm_state m) = true -> keeps_stop (sm_config m) o -> stopped (sm_state (safety_op m o)) = true.
Proof.
  intros Hs Hk. destruct o as [p gap| |]; simpl in *; [|done|done].
  rewrite safety_update_state. cbv zeta. destruct (_ || _); [done|].
  case_bool_decide as Hd; [by rewrite Hd in Hs|].
  assert (require_enable (sm_config m) && (tp_enable p =? 0) = false) as ->.
  { destruct Hk as [->|Hk]; [done|]. apply Z.eqb_neq in Hk. rewrite Hk. apply andb_false_r. }
  by destruct (gap_status _ _), (sm_state m).
Qed.

Lemma safety_stopped_run m l :
  stopped (sm_state m) = true -> Forall (keeps_stop (sm_config m)) l ->
  stopped (sm_state (safety_run m l)) = true.
Proof.
  intros Hs Hl. revert m Hs Hl. induction l as [|o l IH]; intros m Hs Hl; [done|].
  inversion Hl; subst. apply IH; [by apply safety_stopped_step|by rewrite safety_op_config].
Qed.

(** Tracking states need a preceding enabling packet since the last packet that
    cleared the enable flag and since the last reset. *)
Definition keeps_enable (o : SafetyOp) : Prop :=
  match o with OpUpdate p _ => tp_enable p <> 0 | _ => False end.

Definition enabled_since (l : list SafetyOp) : Prop :=
  exists l1 p gap l2, l = l1 ++ OpUpdate p gap :: l2 /\ tp_enable p = 1 /\ tp_estop p <> 1 /\
    Forall keeps_enable l2.

Lemma enabled_since_snoc l p gap :
  enabled_since l -> tp_enable p <> 0 -> enabled_since (l ++ [OpUpdate p gap]).
Proof.
  intros (l1 & q & g & l2 & -> & He & Hs & Hf) Hp.
  exists l1, q, g, (l2 ++ [OpUpdate p gap]). split_and!; [by rewrite <- app_assoc|done|done|].
  apply Forall_app. split; [done|]. by repeat constructor.
Qed.

Lemma safety_run_enabled c l :
  require_enable c = true ->
  sm_state (safety_run (safety_new c) l) <> DISABLED /\
  (tracking (sm_state (safety_run (safety_new c) l)) = true -> enabled_since l).
Proof.
  intros Hc. induction l as [|o l [IHd IH]] using rev_ind.
  - simpl. unfold initial_state. by rewrite Hc.
  - rewrite safety_run_app. simpl. set (m := safety_run (safety_new c) l) in *.
    assert (Hcm : require_enable (sm_config m) = true).
    { subst m. rewrite safety_run_config. done. }
    destruct o as [p gap| |]; simpl; [|done|unfold initial_state; by rewrite Hcm].
    rewrite safety_update_state. cbv zeta. rewrite Hcm. simpl.
    destruct (sm_estop_triggered m || (tp_estop p =? 1)) eqn:Es; [done|]. bool_prop.
    case_bool_decide; [done|]. destruct (Z.eqb_spec (tp_enable p) 0) as [|Hp]; [done|].
    destruct (gap_status (sm_config m) gap); [| | |done];
      (destruct (tracking (sm_state m)) eqn:Et; simpl;
       [split; [done|]; intros _; by apply enabled_since_snoc, Hp; apply IH|];
       case_bool_decide as Ew; simpl; [|by rewrite Et];
       destruct (Z.eqb_spec (tp_enable p) 1); simpl; [|by rewrite Ew];
       split; [done|]; intros _; exists l, p, gap, []; by split_and!).
Qed.

(** ** Watchdog and rate limiter lemmas *)

Lemma dleb_trans x y z : valid x -> valid y -> valid z -> dleb x y = true -> dleb y z = true -> dleb x z = true.
Proof.
  intros Hx Hy Hz H1 H2. destruct (dleb_true_not_nan _ _ H1). destruct (dleb_true_not_nan _ _ H2).
  rewrite dleb_scaled in * by done. rewrite Z.leb_le in *. lia.
Qed.

Definition wd_rank (s : WatchdogStatus) : Z :=
  match s with OK => 0 | WARNING => 1 | WD_HOLD => 2 | DISABLE => 3 end.

Definition watchdog_valid (w : Watchdog) : Prop :=
  valid (warning_ms w) /\ valid (hold_ms w) /\ valid (disable_ms w).

Lemma watchdog_mono w gap gap' :
  watchdog_valid w -> valid gap -> valid gap' -> dleb gap gap' = true ->
  wd_rank (watchdog_check w gap) <= wd_rank (watchdog_check w gap').
Proof.
  intros (Hw & Hh & Hd) Hg Hg' Hle. unfold watchdog_check.
  assert (Ht : forall t, valid t -> dleb t gap = true -> dleb t gap' = true).
  { intros t Vt H. by apply (dleb_trans t gap). }
  destruct (dleb (disable_ms w) gap) eqn:E1; [by rewrite (Ht _ Hd E1)|].
  destruct (dleb (disable_ms w) gap'); [by repeat case_match|].
  destruct (dleb (hold_ms w) gap) eqn:E2; [by rewrite (Ht _ Hh E2)|].
  destruct (dleb (hold_ms w) gap'); [by repeat case_match|].
  destruct (dleb (warning_ms w) gap) eqn:E3; [by rewrite (Ht _ Hw E3)|].
  by destruct (dleb (warning_ms w) gap').
Qed.

Definition safety_rank (s : SafetyState) : Z :=
  match s with ACTIVE => 0 | WARNING_TIMEOUT => 1 | HOLD => 2 | FAULT => 4 | _ => 3 end.

Lemma dsub_gt_exact x y e :
  valid x -> valid y -> isfinite x = true -> isfinite y = true -> valid e -> isfinite e = true ->
  (dltb e (dsub x y) = true -> scaled y + scaled e < scaled x) /\
  (dltb (dsub x y) e = true -> scaled x < scaled y + scaled e).
Proof.
  intros Vx Vy Fx Fy Ve Fe. destruct (dsub_spec x y) as (Vd & Nd & Ed); [done..|].
  pose proof (rndZ_exact e Ve ltac:(auto with float) Fe) as Ee.
  rewrite !dltb_scaled, !Z.ltb_lt, Ed by auto with float. split; intros Hlt.
  - destruct (Z.le_gt_cases (scaled x - scaled y) (scaled e)) as [Hle|]; [|lia].
    apply rndZ_mono in Hle. lia.
  - destruct (Z.le_gt_cases (scaled e) (scaled x - scaled y)) as [Hle|]; [|lia].
    apply rndZ_mono in Hle. lia.
Qed.

(** Between two values, endpoints included, in either order. *)
Definition between (a x b : double) : Prop :=
  (dleb a x = true /\ dleb x b = true) \/ (dleb b x = true /\ dleb x a = true).

Definition fin (x : double) : Prop := valid x /\ isfinite x = true.

Lemma limit_joint_spec eff cur tgt :
  fnn eff -> fin cur -> fin tgt ->
  fin (limit_joint eff cur tgt) /\ between cur (limit_joint eff cur tgt) tgt /\
  (limit_joint eff cur tgt = tgt /\ dltb eff (tgt - cur)%D = false /\ dltb (tgt - cur)%D (- eff)%D = false \/
   limit_joint eff cur tgt = (cur + eff)%D /\ dltb cur tgt = true \/
   limit_joint eff cur tgt = (cur - eff)%D /\ dltb tgt cur = true).
Proof.
  intros [(Ve & Ne & Se) Fe] [Vc Fc] [Vt Ft].
  pose proof (nonneg_scaled eff ltac:(by split_and!)) as [_ Pe].
  destruct (dopp_props eff Ve) as (Vo & Fo & _ & Eo). rewrite Fe in Fo.
  destruct (dsub_gt_exact tgt cur eff) as [Hup _]; [done..|].
  destruct (dsub_gt_exact tgt cur (dopp eff)) as [_ Hdn]; [done..|].
  assert (Hbt : forall x, valid x -> is_nan x = false ->
    (scaled cur <= scaled x <= scaled tgt \/ scaled tgt <= scaled x <= scaled cur) ->
    fin x /\ between cur x tgt).
  { intros x Vx Nx Hx. split.
    - split; [done|]. apply isfinite_iff; [done..|].
      pose proof (ovf_bound cur Vc Fc). pose proof (ovf_bound tgt Vt Ft). lia.
    - unfold between. rewrite !dleb_scaled by auto with float. rewrite !Z.leb_le. lia. }
  unfold limit_joint. destruct (dltb eff (tgt - cur)%D) eqn:E1; [|destruct (dltb (tgt - cur)%D (- eff)%D) eqn:E2].
  - specialize (Hup eq_refl). destruct (dadd_spec cur eff) as (Va & Na & Ea); [done..|].
    assert (scaled (cur + eff)%D <= scaled tgt).
    { rewrite Ea, <- (rndZ_exact tgt) by auto with float. apply rndZ_mono. lia. }
    pose proof (dadd_ge cur eff Vc Ve Fc Fe Pe).
    destruct (Hbt _ Va Na) as [? ?]; [lia|]. split_and!; [apply H1..|done|].
    right; left. split; [done|]. rewrite dltb_scaled by auto with float. apply Z.ltb_lt. lia.
  - specialize (Hdn eq_refl). destruct (dsub_spec cur eff) as (Va & Na & Ea); [done..|].
    assert (scaled tgt <= scaled (cur - eff)%D).
    { rewrite Ea, <- (rndZ_exact tgt) by auto with float. apply rndZ_mono. lia. }
    pose proof (dsub_le cur eff Vc Ve Fc Fe Pe).
    destruct (Hbt _ Va Na) as [? ?]; [lia|]. split_and!; [apply H1..|done|].
    right; right. split; [done|]. rewrite dltb_scaled by auto with float. apply Z.ltb_lt. lia.
  - destruct (Hbt tgt Vt) as [? ?]; [auto with float|lia|]. split; [done|]. split; [done|]. by left.
Qed.

(** ** Properties *)

(** The software ESTOP is latched. After [trigger_estop], whatever packets
    arrive afterwards (enabled, fresh, or not), the state stays ESTOP until
    [reset] is called. *)
Lemma software_estop_latched (c : SafetyConfig) (before after : list SafetyOp) :
  Forall (fun o => is_reset o = false) after ->
  sm_state (safety_run (safety_new c) (before ++ [OpTriggerEstop] ++ after)) = ESTOP.
Proof. intros Ha. rewrite !safety_run_app. by apply safety_latched_run. Qed.

Definition enabled_packet : TeleopPacket :=
  mkTeleopPacket 0 0 0 1 0 0 0 1 0 0 0 0 0 (replicate 8 0) (replicate 8 0) (replicate 4 0) (replicate 4 0) 0.
Definition disabled_packet : TeleopPacket := teleop_zero.
Definition estop_packet : TeleopPacket :=
  mkTeleopPacket 0 0 0 1 0 0 0 1 1 0 0 0 0 (replicate 8 0) (replicate 8 0) (replicate 4 0) (replicate 4 0) 0.

Lemma software_estop_latched_witness :
  sm_state (safety_run (safety_new safety_config_default)
    ([OpUpdate enabled_packet d0] ++ [OpTriggerEstop] ++
     [OpUpdate disabled_packet d0; OpUpdate enabled_packet d0])) = ESTOP.
Proof. apply software_estop_latched. repeat constructor. Defined.

(** C7: Leaving ESTOP or FAULT takes an operator action. Once a run has reached
    ESTOP (by software or by a packet) or FAULT (watchdog), it stays in one of
    these two states until a packet clears the enable flag (with
    [require_enable]) or [reset] is called; a fresh, enabled packet stream alone
    never resumes motion. *)
Theorem stop_needs_operator (c : SafetyConfig) (before after : list SafetyOp) :
  stopped (sm_state (safety_run (safety_new c) before)) = true ->
  Forall (keeps_stop c) after ->
  stopped (sm_state (safety_run (safety_new c) (before ++ after))) = true.
Proof.
  intros Hs Ha. rewrite safety_run_app. apply safety_stopped_run; [done|].
  by rewrite safety_run_config.
Qed.

Lemma stop_needs_operator_witness :
  stopped (sm_state (safety_run (safety_new safety_config_default)
    ([OpUpdate enabled_packet d0; OpUpdate estop_packet d0] ++
     [OpUpdate enabled_packet d0; OpUpdate enabled_packet (d_of_Z 200); OpUpdate enabled_packet d0]))) = true.
Proof.
  apply stop_needs_operator; [vm_compute; reflexivity|].
  apply (bool_decide_unpack _). vm_compute. exact I.
Defined.

(** C10: ACTIVE means enabled and fresh. If a run that ends with an update is
    ACTIVE, the packet is not an ESTOP, no software ESTOP is pending, and the age
    reaches none of the three watchdog thresholds; and where enabling is
    required, an enabling packet was processed after the last packet that
    cleared the flag and after the last reset or software ESTOP, and the state
    DISABLED was never entered. *)
Theorem active_needs_live_enable (c : SafetyConfig) (l : list SafetyOp) (p : TeleopPacket) (gap : double) :
  let m := safety_run (safety_new c) (l ++ [OpUpdate p gap]) in
  sm_state m = ACTIVE ->
  tp_estop p <> 1 /\ sm_estop_triggered m = false /\
  dleb (watchdog_warning_ms c) gap = false /\ dleb (watchdog_hold_ms c) gap = false /\
  dleb (watchdog_disable_ms c) gap = false /\
  (require_enable c = true -> enabled_since (l ++ [OpUpdate p gap])).
Proof.
  cbv zeta. intros Ha.
  assert (He : require_enable c = true -> enabled_since (l ++ [OpUpdate p gap])).
  { intros Hc. destruct (safety_run_enabled c (l ++ [OpUpdate p gap]) Hc) as [_ He].
    apply He. by rewrite Ha. }
  rewrite safety_run_app in *. simpl in *. set (m := safety_run (safety_new c) l) in *.
  assert (Hm : sm_config m = c) by (subst m; by rewrite safety_run_config).
  rewrite safety_update_estop_flag. rewrite safety_update_state in Ha. cbv zeta in Ha. rewrite Hm in Ha.
  destruct (sm_estop_triggered m || (tp_estop p =? 1)) eqn:Es; [done|]. bool_prop.
  case_bool_decide; [done|]. destruct (_ && _); [done|].
  assert (Hg : gap_status c gap = OK \/ tracking (sm_state m) || bool_decide (sm_state m = WAITING_FOR_ENABLE) && (tp_enable p =? 1) = false).
  { destruct (_ || _); [left|by right]. by destruct (gap_status c gap). }
  assert (Hok : gap_status c gap = OK).
  { destruct Hg as [|Hg]; [done|]. rewrite Hg in Ha. apply orb_false_iff in Hg as [Hg _].
    destruct (gap_status c gap); [done| | |done]; by rewrite Ha in Hg. }
  unfold gap_status, watchdog_check in Hok. simpl in Hok.
  destruct (dleb _ gap); [done|]. destruct (dleb _ gap); [done|]. destruct (dleb _ gap); [done|]. by split_and!.
Qed.

Lemma active_needs_live_enable_witness :
  enabled_since ([OpUpdate disabled_packet d0; OpUpdate enabled_packet d0] ++ [OpUpdate enabled_packet (d_of_Z 19)]).
Proof.
  apply (active_needs_live_enable safety_config_default
           [OpUpdate disabled_packet d0; OpUpdate enabled_packet d0] enabled_packet (d_of_Z 19));
    vm_compute; reflexivity.
Defined.

(** The reaction to silence escalates. For any thresholds, an older newest
    packet never leads to a milder watchdog status nor to a milder safety state
    (ACTIVE, WARNING_TIMEOUT, HOLD, not tracking, FAULT in this order). *)
Lemma staleness_escalates (m : SafetyManager) (p : TeleopPacket) (gap gap' : double) :
  let c := sm_config m in
  let w := mkWatchdog (watchdog_warning_ms c) (watchdog_hold_ms c) (watchdog_disable_ms c) in
  watchdog_valid w -> valid gap -> valid gap' -> dleb gap gap' = true ->
  wd_rank (watchdog_check w gap) <= wd_rank (watchdog_check w gap') /\
  safety_rank (sm_state (safety_update p gap m)) <= safety_rank (sm_state (safety_update p gap' m)).
Proof.
  cbv zeta. intros Hw Hg Hg' Hle. pose proof (watchdog_mono _ _ _ Hw Hg Hg' Hle) as Hr.
  split; [done|]. rewrite !safety_update_state. cbv zeta. fold (gap_status (sm_config m) gap) in Hr.
  fold (gap_status (sm_config m) gap') in Hr.
  destruct (_ || _); [done|]. case_bool_decide; [done|]. destruct (_ && _); [done|].
  destruct (_ || _); destruct (gap_status _ gap), (gap_status _ gap'); simpl in *; try lia;
    destruct (sm_state m); simpl; lia.
Qed.

Lemma staleness_escalates_witness :
  safety_rank (sm_state (safety_update enabled_packet (d_of_Z 30) (safety_new safety_config_default))) <=
  safety_rank (sm_state (safety_update enabled_packet (d_of_Z 60) (safety_new safety_config_default))).
Proof.
  apply (staleness_escalates (safety_new safety_config_default) enabled_packet (d_of_Z 30) (d_of_Z 60));
    [vm_compute; auto|vm_compute; reflexivity..].
Defined.

(** The rate limiter on every branch. With vectors of equal length, finite
    values and a finite nonnegative step, every limited target is finite, lies
    between the current position and the requested target (it never overshoots
    and never moves the wrong way), and is either the requested target, whose
    computed step is within the limit, or the current position plus or minus
    the limit, in the direction of the target. With vectors of different length
    nothing is limited at all. *)
Lemma rate_limiter_spec (r : RateLimiter) (cur tgt : list double) :
  let eff := effective_max_delta r in
  (length cur = length tgt -> fnn eff -> Forall fin cur -> Forall fin tgt ->
   length (limit r cur tgt) = length tgt /\
   forall i c t x, cur !! i = Some c -> tgt !! i = Some t -> limit r cur tgt !! i = Some x ->
     fin x /\ between c x t /\
     (x = t /\ dltb eff (t - c)%D = false /\ dltb (t - c)%D (- eff)%D = false \/
      x = (c + eff)%D /\ dltb c t = true \/
      x = (c - eff)%D /\ dltb t c = true)) /\
  (length cur <> length tgt -> limit r cur tgt = tgt).
Proof.
  cbv zeta. unfold limit. split.
  - intros Hl He Hc Ht. rewrite decide_True by done. split; [rewrite length_zip_with; lia|].
    intros i c t x Hic Hit Hx. apply lookup_zip_with_Some in Hx as (c' & t' & -> & Hc' & Ht').
    simplify_eq. apply limit_joint_spec; [done| |].
    + rewrite Forall_lookup in Hc. by eapply Hc.
    + rewrite Forall_lookup in Ht. by eapply Ht.
  - intros Hl. by rewrite decide_False.
Qed.
