(* ===== verification/LinkCheck.v ===== *)
(** * Link check: which interface reaches a peer, and what kind of link it is

    [src/src/utils/link_check.cpp] and [network.cpp]. The operating system is a
    record of functions ([Os]): address parsing, the routing decision of a
    connected UDP socket, the interface list, sysfs. The model follows the code's
    early returns. *)

From S2P Require Import Prelude.
From stdpp Require Import pretty.
From Stdlib Require Import Ascii.

Open Scope Z_scope.

(** ** The operating system *)

(** One entry of [getifaddrs]: the IPv4 address, if the entry has one (a null
    address or another family is [None]). *)
Record IfAddr := mkIfAddr { ifa_name : string; ifa_ipv4 : option Z; ifa_loopback : bool }.

Record Os := mkOs {
  os_inet_pton : string -> option Z;         (* IPv4 text to address *)
  os_inet_ntop : Z -> string;
  os_socket : option string;                 (* [Some e]: socket() fails with strerror e *)
  os_connect : Z -> option string;           (* failure text, if connect() fails *)
  os_getsockname : Z -> string + Z;          (* failure text, or the local address *)
  os_getifaddrs : string + list IfAddr;
  os_exists : string -> bool;                (* stat() succeeds *)
  os_first_line : string -> option string;   (* open and read one line *)
  os_ioctl_wireless : string -> bool;        (* SIOCGIWNAME succeeds on this name *)
}.

(** ** [std::stol] *)

Definition is_space (c : Ascii.ascii) : bool :=
  let n := Z.of_nat (Ascii.nat_of_ascii c) in (n =? 32) || ((9 <=? n) && (n <=? 13)).

Definition digit_value (c : Ascii.ascii) : option Z :=
  let n := Z.of_nat (Ascii.nat_of_ascii c) in
  if (48 <=? n) && (n <=? 57) then Some (n - 48) else None.

Fixpoint skip_space (s : string) : string :=
  match s with
  | String c s' => if is_space c then skip_space s' else s
  | EmptyString => s
  end.

(** The longest run of digits: the accumulated value, and whether there was
    any digit. *)
Fixpoint digits (acc : Z) (seen : bool) (s : string) : option Z :=
  match s with
  | String c s' =>
      match digit_value c with
      | Some d => digits (10 * acc + d) true s'
      | None => if seen then Some acc else None
      end
  | EmptyString => if seen then Some acc else None
  end.

(** [std::stol]: [None] is an exception (no digits, or out of the range of a
    64-bit [long]). *)
Definition stol (s : string) : option Z :=
  let s := skip_space s in
  let '(neg, s) :=
    match s with
    | String c s' => if Ascii.eqb c "-"%char then (true, s') else if Ascii.eqb c "+"%char then (false, s') else (false, s)
    | EmptyString => (false, s)
    end in
  match digits 0 false s with
  | Some v =>
      let v := if neg : bool then - v else v in
      if (- 2 ^ 63 <=? v) && (v <? 2 ^ 63) then Some v else None
  | None => None
  end.

(** [static_cast<int>] of a [long]. *)
Definition int_of_long (v : Z) : Z := (v + 2 ^ 31) mod 2 ^ 32 - 2 ^ 31.

(** ** LinkInfo *)

Record LinkInfo := mkLinkInfo {
  li_resolved : bool;
  li_ifname : string;
  li_local_ip : string;
  li_is_loopback : bool;
  li_is_wireless : bool;
  li_has_device : bool;
  li_carrier : bool;
  li_speed_mbps : Z;
  li_error : string;
}.

Definition link_info_default : LinkInfo := mkLinkInfo false "" "" false false false false (-1) "".

(** A default [LinkInfo] with an error text and the address found so far. *)
Definition link_failed (local_ip error : string) : LinkInfo :=
  mkLinkInfo false "" local_ip false false false false (-1) error.

Definition describe (i : LinkInfo) : string :=
  if negb (li_resolved i) then "unresolved (" +:+ li_error i +:+ ")"
  else li_ifname i +:+ " local_ip=" +:+ li_local_ip i
       +:+ (if li_is_loopback i then " loopback" else "")
       +:+ (if li_is_wireless i then " wireless" else " wired")
       +:+ (if li_has_device i then "" else " virtual")
       +:+ " carrier=" +:+ (if li_carrier i then "1" else "0")
       +:+ " speed=" +:+ pretty (li_speed_mbps i) +:+ "Mbps".

Definition path_exists (os : Os) (path : string) : bool := os_exists os path.

Definition read_sysfs_int (os : Os) (path : string) : option Z :=
  match os_first_line os path with Some line => stol line | None => None end.

(** [strncpy(req, ifname, IFNAMSIZ - 1)]. *)
Definition ioctl_is_wireless (os : Os) (ifname : string) : bool :=
  match os_socket os with
  | Some _ => false
  | None => os_ioctl_wireless os (String.substring 0 15 ifname)
  end.

(** The first interface that owns the address. *)
Fixpoint find_interface (addr : Z) (l : list IfAddr) : option IfAddr :=
  match l with
  | [] => None
  | i :: l' =>
      match ifa_ipv4 i with
      | Some a => if a =? addr then Some i else find_interface addr l'
      | None => find_interface addr l'
      end
  end.

(** The sysfs part, for an interface with a non-empty name. *)
Definition sysfs_info (os : Os) (local_ip : string) (i : IfAddr) : LinkInfo :=
  let sys := "/sys/class/net/" +:+ ifa_name i in
  let wireless := path_exists os (sys +:+ "/wireless") || path_exists os (sys +:+ "/phy80211")
                  || ioctl_is_wireless os (ifa_name i) in
  let has_device := path_exists os (sys +:+ "/device") in
  let carrier := match read_sysfs_int os (sys +:+ "/carrier") with Some v => v =? 1 | None => false end in
  let carrier := if ifa_loopback i then true else carrier in
  let speed := match read_sysfs_int os (sys +:+ "/speed") with Some v => int_of_long v | None => -1 end in
  mkLinkInfo true (ifa_name i) local_ip (ifa_loopback i) wireless has_device carrier speed "".

Definition query_link_to (os : Os) (peer_ip : string) : LinkInfo :=
  match os_inet_pton os peer_ip with
  | None => link_failed "" ("invalid peer ip: " +:+ peer_ip)
  | Some peer =>
      match os_socket os with
      | Some e => link_failed "" ("socket: " +:+ e)
      | None =>
          match os_connect os peer with
          | Some e => link_failed "" ("no route to " +:+ peer_ip +:+ ": " +:+ e)
          | None =>
              match os_getsockname os peer with
              | inl e => link_failed "" ("getsockname: " +:+ e)
              | inr local =>
                  let local_ip := os_inet_ntop os local in
                  match os_getifaddrs os with
                  | inl e => link_failed local_ip ("getifaddrs: " +:+ e)
                  | inr ifs =>
                      match find_interface local ifs with
                      | Some i =>
                          if String.eqb (ifa_name i) ""
                          then mkLinkInfo false "" local_ip (ifa_loopback i) false false false (-1)
                                 ("no interface owns " +:+ local_ip)
                          else sysfs_info os local_ip i
                      | None => link_failed local_ip ("no interface owns " +:+ local_ip)
                      end
                  end
              end
          end
      end
  end.

(** [get_interface_ip]: the address of the first IPv4 entry with this name. *)
Fixpoint first_ip (os : Os) (name : string) (l : list IfAddr) : string :=
  match l with
  | [] => ""
  | i :: l' =>
      match ifa_ipv4 i with
      | Some a => if String.eqb name (ifa_name i) then os_inet_ntop os a else first_ip os name l'
      | None => first_ip os name l'
      end
  end.

Definition get_interface_ip (os : Os) (interface_name : string) : string :=
  match os_getifaddrs os with inl _ => "" | inr l => first_ip os interface_name l end.

(** ** Lemmas *)

Lemma find_interface_spec addr l i :
  find_interface addr l = Some i -> i ∈ l /\ ifa_ipv4 i = Some addr.
Proof.
  induction l as [|j l IH]; [done|]. simpl.
  destruct (ifa_ipv4 j) as [a|] eqn:Ej.
  - destruct (Z.eqb_spec a addr) as [->|].
    + intros [= <-]. split; [by left|done].
    + intros H. destruct (IH H). split; [by right|done].
  - intros H. destruct (IH H). split; [by right|done].
Qed.

(** What a resolved link is known to be. *)
Lemma query_link_resolved os peer_ip :
  li_resolved (query_link_to os peer_ip) = true ->
  exists peer local ifs i,
    os_inet_pton os peer_ip = Some peer /\ os_getsockname os peer = inr local /\
    os_getifaddrs os = inr ifs /\ i ∈ ifs /\ ifa_ipv4 i = Some local /\ ifa_name i <> "" /\
    query_link_to os peer_ip = sysfs_info os (os_inet_ntop os local) i.
Proof.
  unfold query_link_to. destruct (os_inet_pton os peer_ip) as [peer|]; [|done].
  destruct (os_socket os); [done|]. destruct (os_connect os peer); [done|].
  destruct (os_getsockname os peer) as [|local] eqn:El; [done|].
  destruct (os_getifaddrs os) as [|ifs]; [done|].
  destruct (find_interface local ifs) as [i|] eqn:Ei; [|done].
  destruct (String.eqb_spec (ifa_name i) ""); [done|]. intros _.
  destruct (find_interface_spec _ _ _ Ei). exists peer, local, ifs, i. by split_and!.
Qed.

Lemma query_link_unresolved os peer_ip :
  li_resolved (query_link_to os peer_ip) = false ->
  li_error (query_link_to os peer_ip) <> "" /\ li_carrier (query_link_to os peer_ip) = false /\
  li_speed_mbps (query_link_to os peer_ip) = -1.
Proof.
  unfold query_link_to. destruct (os_inet_pton os peer_ip) as [peer|]; [|done].
  destruct (os_socket os); [done|]. destruct (os_connect os peer); [done|].
  destruct (os_getsockname os peer) as [|local]; [done|].
  destruct (os_getifaddrs os) as [|ifs]; [done|].
  destruct (find_interface local ifs) as [i|]; [|done].
  by destruct (String.eqb (ifa_name i) "").
Qed.
