(* ===== verification/BilateralGate.v ===== *)
(** * BilateralGate: when force feedback may be applied

    [src/src/safety/bilateral_gate.cpp]: the checks on the local link and on the
    feedback stream, with their reason texts, and the theorem that [ok] is
    exactly the conjunction of the documented conditions. *)

From S2P Require Import Prelude Float64 Crc32 Wire Packets FeedbackStateBuffer LinkCheck.
From stdpp Require Import pretty.

Open Scope Z_scope.

(** ** Definitions *)

Record BilateralGateConfig := mkGateConfig {
  g_require_wired : bool;
  g_allow_loopback : bool;
  g_min_link_speed_mbps : Z;
  g_min_feedback_rate_hz : double;
  g_max_feedback_age_ms : double;
  g_max_rtt_p95_ms : double;
  g_max_loss_percent : double;
  g_require_follower_link_ok : bool;
}.

(** The member initialisers. *)
Definition gate_config_default : BilateralGateConfig :=
  mkGateConfig true false 100 (d_of_Z 400) (d_of_Z 20) (d_of_Z 8) (d_of_Z 1) true.

Record BilateralGateResult := mkGateResult { gr_ok : bool; gr_reasons : list string }.

Definition reasons_joined (sep : string) (r : BilateralGateResult) : string :=
  String.concat sep (gr_reasons r).

(** [r.ok = r.reasons.empty()]. *)
Definition gate_result (reasons : list string) : BilateralGateResult :=
  mkGateResult (match reasons with [] => true | _ => false end) reasons.

(** [if (cond) r.reasons.push_back(text)]. *)
Definition reason (cond : bool) (text : string) : list string := if cond then [text] else [].

Definition check_link (c : BilateralGateConfig) (link : LinkInfo) : BilateralGateResult :=
  if negb (li_resolved link) then mkGateResult false ["link unresolved: " +:+ li_error link]
  else if li_is_loopback link then
    gate_result (reason (negb (g_allow_loopback c))
      "peer is reached over loopback (set AllowLoopback for tests)")
  else if g_require_wired c then
    gate_result
      (reason (li_is_wireless link) ("interface " +:+ li_ifname link +:+ " is wireless")
       ++ reason (negb (li_has_device link))
            ("interface " +:+ li_ifname link +:+ " is virtual (no physical device)")
       ++ reason (negb (li_carrier link)) ("interface " +:+ li_ifname link +:+ " has no carrier")
       ++ reason (li_speed_mbps link <? g_min_link_speed_mbps c)
            ("interface " +:+ li_ifname link +:+ " speed " +:+ pretty (li_speed_mbps link)
             +:+ " Mbps < " +:+ pretty (g_min_link_speed_mbps c) +:+ " Mbps"))
  else gate_result [].

Definition check_feedback (c : BilateralGateConfig) (arm_name : string) (s : Stats)
    (latest : option FeedbackPacket) : BilateralGateResult :=
  match latest with
  | Some fb =>
      if negb (st_has_data s) then mkGateResult false [arm_name +:+ ": no feedback received"]
      else
        gate_result
          (reason (st_age_ms s >? g_max_feedback_age_ms c)%D
             (arm_name +:+ ": feedback age " +:+ fmt2 (st_age_ms s) +:+ " ms > " +:+ fmt2 (g_max_feedback_age_ms c))
           ++ reason (st_rate_hz s <? g_min_feedback_rate_hz c)%D
                (arm_name +:+ ": feedback rate " +:+ fmt2 (st_rate_hz s) +:+ " Hz < " +:+ fmt2 (g_min_feedback_rate_hz c))
           ++ (if (st_rtt_p95_ms s <? d0)%D
               then [arm_name +:+ ": no round-trip samples (follower not echoing commands)"]
               else reason (st_rtt_p95_ms s >? g_max_rtt_p95_ms c)%D
                      (arm_name +:+ ": rtt p95 " +:+ fmt2 (st_rtt_p95_ms s) +:+ " ms > " +:+ fmt2 (g_max_rtt_p95_ms c)))
           ++ reason (st_loss_percent s >? g_max_loss_percent c)%D
                (arm_name +:+ ": loss " +:+ fmt2 (st_loss_percent s) +:+ " % > " +:+ fmt2 (g_max_loss_percent c))
           ++ reason (g_require_follower_link_ok c && (fp_link_ok fb =? 0))
                (arm_name +:+ ": follower reports its own link is not wired/fast enough")
           ++ reason (negb (fp_estop fb =? 0)) (arm_name +:+ ": follower in ESTOP"))
  | None => mkGateResult false [arm_name +:+ ": no feedback received"]
  end.

(** ** Lemmas *)

Lemma gate_result_ok l : gr_ok (gate_result l) = true <-> l = [].
Proof. by destruct l. Qed.

Lemma reason_nil b t : reason b t = [] <-> b = false.
Proof. by destruct b. Qed.

(** ** Properties *)

(** The link check is the wired-link rule. It passes exactly when the link
    was resolved and it is a permitted loopback peer, or a link that (where
    wired links are required) is not wireless, belongs to a physical device, has
    carrier and reaches the minimum speed; and it fails with at least one reason
    otherwise. *)
Lemma check_link_spec (c : BilateralGateConfig) (link : LinkInfo) :
  (gr_ok (check_link c link) = true <->
     li_resolved link = true /\
     (if li_is_loopback link then g_allow_loopback c = true
      else g_require_wired c = true ->
           li_is_wireless link = false /\ li_has_device link = true /\ li_carrier link = true /\
           g_min_link_speed_mbps c <= li_speed_mbps link)) /\
  (gr_ok (check_link c link) = false <-> gr_reasons (check_link c link) <> []).
Proof.
  assert (Hr : forall l, gr_ok (gate_result l) = false <-> gr_reasons (gate_result l) <> []) by by intros [].
  unfold check_link. destruct (li_resolved link); cbn [negb]; [|split; [naive_solver|done]].
  destruct (li_is_loopback link); [split; [|apply Hr]|
    destruct (g_require_wired c); (split; [|apply Hr])].
  - rewrite gate_result_ok, reason_nil, negb_false_iff. naive_solver.
  - rewrite gate_result_ok, !app_nil, !reason_nil, !negb_false_iff, Z.ltb_ge. naive_solver.
  - by naive_solver.
Qed.

(** The feedback check is the conjunction of the gate conditions. It passes
    exactly when feedback was received, its age, loss and 95th-percentile round
    trip do not exceed the limits, round trips were measured at all, the rate is
    not below the minimum, the follower is not in ESTOP and (where required) the
    follower reports a good link; it fails with at least one reason otherwise. *)
Lemma check_feedback_spec (c : BilateralGateConfig) (arm : string) (s : Stats)
    (latest : option FeedbackPacket) :
  (gr_ok (check_feedback c arm s latest) = true <->
     exists fb, latest = Some fb /\ st_has_data s = true /\
       (st_age_ms s >? g_max_feedback_age_ms c)%D = false /\
       (st_rate_hz s <? g_min_feedback_rate_hz c)%D = false /\
       (st_rtt_p95_ms s <? d0)%D = false /\
       (st_rtt_p95_ms s >? g_max_rtt_p95_ms c)%D = false /\
       (st_loss_percent s >? g_max_loss_percent c)%D = false /\
       (g_require_follower_link_ok c = true -> fp_link_ok fb <> 0) /\ fp_estop fb = 0) /\
  (gr_ok (check_feedback c arm s latest) = false <-> gr_reasons (check_feedback c arm s latest) <> []).
Proof.
  assert (Hr : forall l, gr_ok (gate_result l) = false <-> gr_reasons (gate_result l) <> []) by by intros [].
  unfold check_feedback. destruct latest as [fb|]; [|split; [naive_solver|done]].
  destruct (st_has_data s); cbn [negb]; [|split; [naive_solver|done]]. split; [|apply Hr].
  assert (Hl : g_require_follower_link_ok c && (fp_link_ok fb =? 0) = false <->
               (g_require_follower_link_ok c = true -> fp_link_ok fb <> 0)).
  { destruct (g_require_follower_link_ok c); simpl; rewrite ?Z.eqb_neq; naive_solver. }
  rewrite gate_result_ok, !app_nil, !reason_nil, Hl, negb_false_iff, Z.eqb_eq.
  destruct (st_rtt_p95_ms s <? d0)%D; rewrite ?reason_nil; naive_solver.
Qed.
