(* ===== verification/BilateralEngager.v ===== *)
(** * BilateralEngager: ramping force feedback in and out

    [src/include/openarm_wifi_teleop/control/bilateral_engager.hpp]: the state
    machine OFF, WAIT_ALIGN, RAMP_UP, ENGAGED, RAMP_DOWN and its gain [scale]. *)

From S2P Require Import Prelude Float64 Float64Round Float64Ops Float64Arith Float64Order Float64Facts.

Open Scope Z_scope.

(** ** Definitions *)

Record EngagerConfig := mkEngagerConfig { ramp_up_s : double; ramp_down_s : double }.

Definition engager_config_default : EngagerConfig := mkEngagerConfig (dlit 5 1) (dlit 1 1).

Inductive EngagerState := OFF | WAIT_ALIGN | RAMP_UP | ENGAGED | RAMP_DOWN.

#[export] Instance EngagerState_eq_dec : EqDecision EngagerState.
Proof. solve_decision. Defined.

Record BilateralEngager := mkEngager {
  en_config : EngagerConfig;
  en_state : EngagerState;
  en_scale : double;
}.

Definition engager_new (c : EngagerConfig) : BilateralEngager := mkEngager c OFF d0.

(** [dt_s / std::max(ramp, 1e-3)]. *)
Definition ramp_step (ramp dt : double) : double := (dt / dmax ramp (dlit 1 3))%D.

Definition engager_update (want aligned : bool) (dt_s : double) (e : BilateralEngager) : BilateralEngager :=
  let c := en_config e in
  match en_state e with
  | OFF => mkEngager c (if want then WAIT_ALIGN else OFF) d0
  | WAIT_ALIGN => mkEngager c (if negb want then OFF else if aligned then RAMP_UP else WAIT_ALIGN) d0
  | RAMP_UP =>
      if negb want then mkEngager c RAMP_DOWN (en_scale e)
      else
        let s := dmin d1 (en_scale e + ramp_step (ramp_up_s c) dt_s)%D in
        mkEngager c (if (s >=? d1)%D then ENGAGED else RAMP_UP) s
  | ENGAGED => mkEngager c (if negb want then RAMP_DOWN else ENGAGED) d1
  | RAMP_DOWN =>
      let s := dmax d0 (en_scale e - ramp_step (ramp_down_s c) dt_s)%D in
      mkEngager c (if (s <=? d0)%D then (if want then WAIT_ALIGN else OFF) else RAMP_DOWN) s
  end.

Definition engager_reset (e : BilateralEngager) : BilateralEngager := mkEngager (en_config e) OFF d0.

Definition engager_active (e : BilateralEngager) : bool := (en_scale e >? d0)%D.
Definition engager_engaged (e : BilateralEngager) : bool := bool_decide (en_state e = ENGAGED).

Definition state_name (e : BilateralEngager) : string :=
  match en_state e with
  | OFF => "off" | WAIT_ALIGN => "wait_align" | RAMP_UP => "ramp_up"
  | ENGAGED => "engaged" | RAMP_DOWN => "ramp_down"
  end.

(** ** Traces *)

Record EngagerInput := mkInput { in_want : bool; in_aligned : bool; in_dt : double }.

Definition engager_step (e : BilateralEngager) (i : EngagerInput) : BilateralEngager :=
  engager_update (in_want i) (in_aligned i) (in_dt i) e.

Definition engager_run (e : BilateralEngager) (l : list EngagerInput) : BilateralEngager :=
  fold_left engager_step l e.

Lemma engager_run_snoc e l i : engager_run e (l ++ [i]) = engager_step (engager_run e l) i.
Proof. unfold engager_run. by rewrite fold_left_app. Qed.

Lemma engager_step_config e i : en_config (engager_step e i) = en_config e.
Proof. unfold engager_step, engager_update. destruct (en_state e); try done. by destruct (negb _). Qed.

Lemma engager_run_config e l : en_config (engager_run e l) = en_config e.
Proof.
  induction l as [|i l IH] using rev_ind; [done|]. by rewrite engager_run_snoc, engager_step_config.
Qed.

(** ** The gain *)

(** A finite value between 0 and 1. *)
Definition unit_range (x : double) : Prop := fnn x /\ scaled x <= 2 ^ 1074.

Lemma fnn_d1 : fnn d1 /\ scaled d1 = 2 ^ 1074.
Proof. by vm_compute. Qed.

Lemma fnn_milli : fnn (dlit 1 3) /\ 2 ^ 1064 <= scaled (dlit 1 3).
Proof. split; [by vm_compute|]. vm_compute. discriminate. Qed.

(** The time step and the ramp times are finite, nonnegative numbers, and a
    step is at most 10^6 seconds. *)
Definition config_ok (c : EngagerConfig) : Prop := fnn (ramp_up_s c) /\ fnn (ramp_down_s c).
Definition dt_ok (dt : double) : Prop := fnn dt /\ dleb dt (d_of_Z 1000000) = true.

Lemma dmax_ge x y : fnn x -> fnn y -> fnn (dmax x y) /\ scaled y <= scaled (dmax x y).
Proof.
  intros Hx Hy. unfold dmax. rewrite fnn_ltb by done.
  destruct (Z.ltb_spec (scaled x) (scaled y)); (split; [done|lia]).
Qed.

Lemma million_ratio d y : d <= 1000000 * 2 ^ 1074 -> 2 ^ 1064 <= y -> d <= 2 ^ 40 * y.
Proof.
  pose proof (pow2_pos 1064 ltac:(lia)) as Hp. revert Hp. change 1074 with (10 + 1064).
  rewrite pow2_add by lia. generalize (2 ^ 1064). intros. lia.
Qed.

Lemma ramp_step_fnn ramp dt : fnn ramp -> dt_ok dt -> fnn (ramp_step ramp dt).
Proof.
  intros Hr [Hd Hm]. destruct fnn_milli as [Fm Lm].
  destruct (dmax_ge ramp _ Hr Fm) as [Fx Lx]. destruct (d_of_Z_exact 1000000) as (_ & _ & E6); [lia|].
  rewrite fnn_leb, Z.leb_le, E6 in Hm by (exact Hd || apply d_of_Z_fnn; lia).
  pose proof (pow2_pos 1064 ltac:(lia)).
  apply (ddiv_ratio dt _ (2 ^ 40)); [exact Hd|exact Fx|lia|lia|].
  apply million_ratio; [exact Hm|lia].
Qed.

Lemma dmin_one_range x : valid x -> is_nan x = false -> sign x = false -> unit_range (dmin d1 x).
Proof.
  intros Vx Nx Sx. destruct fnn_d1 as [F1 E1]. unfold dmin.
  rewrite dltb_scaled by done. destruct (Z.ltb_spec (scaled x) (scaled d1)) as [Hlt|].
  - assert (nonneg x) as Hx by by split_and!. split; [|lia].
    apply (nonneg_le_fnn x d1 Hx F1). lia.
  - split; [done|lia].
Qed.

Lemma dmax_zero_range x y :
  unit_range x -> fnn y -> unit_range (dmax d0 (x - y)%D) /\ scaled (dmax d0 (x - y)%D) <= scaled x.
Proof.
  intros [Hx Lx] Hy. pose proof (nonneg_scaled x (proj1 Hx)) as [_ Px].
  pose proof (nonneg_scaled y (proj1 Hy)) as [_ Py].
  pose proof Hx as [(Vx & Nx & Sx) Fx]. pose proof Hy as [(Vy & Ny & Sy) Fy].
  destruct (dsub_spec x y) as (Vd & Nd & _); [done..|]. pose proof (dsub_le x y Vx Vy Fx Fy Py) as Hle.
  unfold dmax. rewrite dltb_scaled by done. destruct (Z.ltb_spec (scaled d0) (scaled (x - y)%D)) as [Hlt|].
  - assert (nonneg (x - y)%D) as Hn by (split_and!; [done|done|by apply pos_sign]).
    split; [split; [|lia]|done]. apply (nonneg_le_fnn _ x Hn Hx). lia.
  - change (scaled d0) with 0. split; [|lia]. split; [done|]. change (scaled d0) with 0. by apply Z.pow_nonneg.
Qed.

(** ** Invariant *)

(** Gain 0 while off or waiting, gain 1 once engaged, and between 0 and 1
    throughout. *)
Definition engager_inv (e : BilateralEngager) : Prop :=
  unit_range (en_scale e) /\
  match en_state e with
  | OFF | WAIT_ALIGN => scaled (en_scale e) = 0
  | ENGAGED => scaled (en_scale e) = 2 ^ 1074
  | _ => True
  end.

Lemma engager_step_inv e i :
  config_ok (en_config e) -> dt_ok (in_dt i) -> engager_inv e -> engager_inv (engager_step e i).
Proof.
  intros [Hu Hd] Hdt [Hr Hs]. destruct fnn_d1 as [F1 E1].
  assert (U0 : unit_range d0) by (split; [done|]; by apply Z.pow_nonneg).
  assert (U1 : unit_range d1) by (split; [done|lia]).
  unfold engager_step, engager_update, engager_inv. destruct (en_state e).
  - by destruct (in_want i).
  - by destruct (in_want i), (in_aligned i).
  - destruct (in_want i); cbn; [|done].
    pose proof (ramp_step_fnn _ _ Hu Hdt) as Hk. destruct (dadd_fnn _ _ (proj1 Hr) Hk) as (Va & Na & Sa).
    pose proof (dmin_one_range _ Va Na Sa) as Hm. split; [done|].
    destruct (_ >=? d1)%D eqn:E; [|done]. destruct Hm as [[(Vm & Nm & Sm) Fm] Lm].
    rewrite dleb_scaled, Z.leb_le in E by done. lia.
  - by destruct (in_want i).
  - pose proof (ramp_step_fnn _ _ Hd Hdt) as Hk.
    destruct (dmax_zero_range _ _ Hr Hk) as [Hm _]. cbn. split; [done|].
    destruct (_ <=? d0)%D eqn:E; [|done]. pose proof (nonneg_scaled _ (proj1 (proj1 Hm))) as [_ P0].
    destruct Hm as [[(Vm & Nm & Sm) Fm] Lm]. rewrite dleb_scaled, Z.leb_le in E by done.
    change (scaled d0) with 0 in E. destruct (in_want i); cbn in *; lia.
Qed.

Lemma engager_run_inv c l :
  config_ok c -> Forall (fun i => dt_ok (in_dt i)) l -> engager_inv (engager_run (engager_new c) l).
Proof.
  intros Hc. induction l as [|i l IH] using rev_ind; intros Hl.
  - split; [|done]. split; [done|]. by apply Z.pow_nonneg.
  - apply Forall_app in Hl as [Hl Hi]. inversion Hi; subst. rewrite engager_run_snoc.
    apply engager_step_inv; [by rewrite engager_run_config|done|by apply IH].
Qed.

(** Rendering started at an update with [want] and [aligned], and since then
    the scale has not returned to zero by way of OFF or WAIT_ALIGN. *)
Definition rendering (s : EngagerState) : bool :=
  match s with RAMP_UP | ENGAGED | RAMP_DOWN => true | _ => false end.

Definition pushing (s : EngagerState) : bool :=
  match s with RAMP_UP | ENGAGED => true | _ => false end.

(** Some earlier input was wanted and aligned, and every input since was wanted. *)
Definition engaged_since (l : list EngagerInput) : Prop :=
  exists l1 i l2, l = l1 ++ i :: l2 /\ in_want i = true /\ in_aligned i = true /\
    Forall (fun j => in_want j = true) l2.

Lemma engaged_since_snoc l i : engaged_since l -> in_want i = true -> engaged_since (l ++ [i]).
Proof.
  intros (l1 & j & l2 & -> & H1 & H2 & H3) Hi. exists l1, j, (l2 ++ [i]).
  split_and!; [by rewrite <- app_assoc|done|done|]. apply Forall_app. split; [done|by constructor].
Qed.

Lemma engager_pushing c l :
  pushing (en_state (engager_run (engager_new c) l)) = true -> engaged_since l.
Proof.
  induction l as [|i l IH] using rev_ind; [done|]. rewrite engager_run_snoc.
  unfold engager_step, engager_update. destruct (en_state (engager_run _ l)) eqn:Es; cbn in *.
  - by destruct (in_want i).
  - destruct (in_want i) eqn:Ew, (in_aligned i) eqn:Ea; try done. intros _.
    exists l, i, []. by split_and!.
  - destruct (in_want i) eqn:Ew; [|done]. intros _. by apply engaged_since_snoc; [apply IH|].
  - destruct (in_want i) eqn:Ew; [|done]. intros _. by apply engaged_since_snoc; [apply IH|].
  - destruct (_ <=? d0)%D; [|done]. by destruct (in_want i).
Qed.

(** ** Release *)

(** One step of the downward ramp. *)
Definition release_step (k s : double) : double := dmax d0 (s - k)%D.

Lemma release_step_mono k s s' :
  fnn k -> unit_range s -> unit_range s' -> scaled s <= scaled s' ->
  scaled (release_step k s) <= scaled (release_step k s').
Proof.
  intros Hk Hs Hs' Hle. unfold release_step.
  destruct (dmax_zero_range s k Hs Hk) as [[H1 _] _]. destruct (dmax_zero_range s' k Hs' Hk) as [[H2 _] _].
  pose proof (nonneg_scaled _ (proj1 H2)) as [_ P2]. revert P2. clear H1 H2.
  destruct Hs as [[(V & N & S) F] _], Hs' as [[(V' & N' & S') F'] _], Hk as [(Vk & Nk & Sk) Fk].
  destruct (dsub_spec s k) as (Vd & Nd & Ed); [done..|]. destruct (dsub_spec s' k) as (Vd' & Nd' & Ed'); [done..|].
  assert (Hm : scaled (s - k)%D <= scaled (s' - k)%D) by (rewrite Ed, Ed'; apply rndZ_mono; lia).
  unfold dmax. rewrite !dltb_scaled by done. change (scaled d0) with 0.
  destruct (Z.ltb_spec 0 (scaled (s - k)%D)), (Z.ltb_spec 0 (scaled (s' - k)%D)); cbv iota;
    change (scaled d0) with 0; lia.
Qed.

Lemma release_iter k n s :
  fnn k -> unit_range s ->
  unit_range (Nat.iter n (release_step k) s) /\
  scaled (Nat.iter n (release_step k) s) <= scaled (Nat.iter n (release_step k) d1).
Proof.
  intros Hk Hs. destruct fnn_d1 as [F1 E1]. assert (U1 : unit_range d1) by (split; [done|lia]).
  assert (Hu : forall x, unit_range x -> unit_range (Nat.iter n (release_step k) x)).
  { intros x Hx. induction n as [|n IH]; simpl; [done|]. by apply dmax_zero_range. }
  split; [by apply Hu|]. induction n as [|n IH]; simpl; [rewrite E1; apply Hs|].
  assert (Hun : forall x, unit_range x -> unit_range (Nat.iter n (release_step k) x)).
  { intros x Hx. clear IH Hu. induction n as [|n IH]; simpl; [done|]. by apply dmax_zero_range. }
  apply release_step_mono; auto.
Qed.

(** Without [want] the engager is off, or ramping down from at most the gain a
    release from 1 would have by now. *)
Definition releasing (k : double) (n : nat) (e : BilateralEngager) : Prop :=
  en_state e = OFF \/
  en_state e = RAMP_DOWN /\ exists s, unit_range s /\ en_scale e = Nat.iter n (release_step k) s.

Lemma engager_release_first e i :
  engager_inv e -> in_want i = false -> config_ok (en_config e) -> dt_ok (in_dt i) ->
  releasing (ramp_step (ramp_down_s (en_config e)) (in_dt i)) 0 (engager_step e i).
Proof.
  intros [Hr Hs] Hw [Hu Hd] Hdt. unfold engager_step, engager_update, releasing. rewrite Hw.
  destruct fnn_d1 as [F1 E1]. assert (U1 : unit_range d1) by (split; [done|lia]).
  destruct (en_state e); cbn; [by left|by left|right|right|].
  - split; [done|]. by exists (en_scale e).
  - split; [done|]. by exists d1.
  - destruct (_ <=? d0)%D; [by left|right]. split; [done|]. eexists. split; [|done].
    apply dmax_zero_range; [done|]. by apply ramp_step_fnn.
Qed.

Lemma engager_release_next n e i :
  let k := ramp_step (ramp_down_s (en_config e)) (in_dt i) in
  in_want i = false -> releasing k n e -> releasing k (S n) (engager_step e i).
Proof.
  cbv zeta. intros Hw Hr. unfold engager_step, engager_update, releasing. rewrite Hw.
  destruct Hr as [->|(-> & s & Hs & ->)]; [by left|]. cbn [en_config en_state en_scale].
  destruct (_ <=? d0)%D; [by left|right]. split; [done|]. by exists s.
Qed.

Lemma engager_release_run k dt n e :
  releasing k 0 e -> k = ramp_step (ramp_down_s (en_config e)) dt ->
  releasing k n (engager_run e (replicate n (mkInput false false dt))).
Proof.
  intros Hr Hk. induction n as [|n IH]; [done|].
  replace (S n) with (n + 1)%nat at 2 by lia. rewrite replicate_add. simpl replicate at 2.
  rewrite engager_run_snoc. rewrite Hk in *.
  pose proof (engager_release_next n (engager_run e (replicate n (mkInput false false dt))) (mkInput false false dt)) as H.
  cbv zeta in H. rewrite engager_run_config in H. by apply H.
Qed.

(** ** Properties *)

(** The force gain is always safe. Under any sequence of updates with finite
    nonnegative time steps and ramp times, the gain stays a finite number
    between 0 and 1; it is 0 in OFF and WAIT_ALIGN and 1 in ENGAGED; and no force
    is rendered (the engager is not active) unless the state is RAMP_UP, ENGAGED
    or RAMP_DOWN. *)
Lemma engager_scale_safe (c : EngagerConfig) (l : list EngagerInput) :
  config_ok c -> Forall (fun i => dt_ok (in_dt i)) l ->
  let e := engager_run (engager_new c) l in
  isfinite (en_scale e) = true /\ dleb d0 (en_scale e) = true /\ dleb (en_scale e) d1 = true /\
  (en_state e = ENGAGED -> deqb (en_scale e) d1 = true) /\
  (engager_active e = true -> rendering (en_state e) = true).
Proof.
  intros Hc Hl e. destruct (engager_run_inv c l Hc Hl) as [[Hf Hle] Hs]. fold e in Hf, Hle, Hs.
  destruct fnn_d1 as [F1 E1]. pose proof (nonneg_scaled _ (proj1 Hf)) as [_ P0].
  destruct Hf as [(V & N & S) F]. unfold engager_active.
  rewrite !dleb_scaled, deqb_scaled, dltb_scaled, !Z.leb_le, Z.eqb_eq, Z.ltb_lt by done.
  change (scaled d0) with 0. rewrite E1. split_and!; [done|done|done| |].
  - intros He. by rewrite He in Hs.
  - intros Hp. destruct (en_state e); cbn in *; try done; lia.
Qed.

Definition loop_dt : double := dlit 2 3.

Lemma engager_scale_safe_witness :
  let e := engager_run (engager_new engager_config_default)
    (replicate 40 (mkInput true true loop_dt)) in
  dleb (en_scale e) d1 = true /\ (engager_active e = true -> rendering (en_state e) = true).
Proof.
  destruct (engager_scale_safe engager_config_default (replicate 40 (mkInput true true loop_dt)))
    as (_ & _ & H1 & _ & H2).
  - vm_compute. repeat split.
  - apply Forall_replicate. vm_compute. repeat split.
  - exact (conj H1 H2).
Defined.

(** C35: No engagement without alignment. If the engager is ramping up or engaged
    after any sequence of updates, then at some earlier update feedback was
    wanted and the poses were aligned, and feedback has been wanted at every
    update since: a lost request or stale feedback always ends the push, and
    resuming it needs a new alignment. *)
Theorem engager_needs_alignment (c : EngagerConfig) (l : list EngagerInput) :
  pushing (en_state (engager_run (engager_new c) l)) = true -> engaged_since l.
Proof. apply engager_pushing. Qed.

Lemma engager_needs_alignment_witness :
  engaged_since (mkInput true false loop_dt :: replicate 3 (mkInput true true loop_dt)).
Proof. apply (engager_needs_alignment engager_config_default). vm_compute. reflexivity. Defined.

(** Release always completes, in a computable time. If ramping down from gain
    1 with the loop's time step reaches 0 within [n] steps (for the default ramp
    of 0.1 s at 500 Hz, 51 steps), then from every reachable state [n + 2]
    updates without [want] end in OFF with gain 0, whatever gain the release
    starts from. *)
Lemma engager_releases (c : EngagerConfig) (dt : double) (n : nat) (l : list EngagerInput) :
  config_ok c -> dt_ok dt -> Forall (fun i => dt_ok (in_dt i)) l ->
  (Nat.iter n (release_step (ramp_step (ramp_down_s c) dt)) d1 <=? d0)%D = true ->
  let e := engager_run (engager_new c) (l ++ replicate (n + 2) (mkInput false false dt)) in
  en_state e = OFF /\ (en_scale e >? d0)%D = false.
Proof.
  intros Hc Hdt Hl Hn e.
  set (e0 := engager_run (engager_new c) l). set (i := mkInput false false dt).
  assert (Hinv : engager_inv e0) by by apply engager_run_inv.
  assert (Hc0 : en_config e0 = c) by by (unfold e0; rewrite engager_run_config).
  assert (He : e = engager_step (engager_run (engager_step e0 i) (replicate n i)) i).
  { unfold e, e0, engager_run. rewrite fold_left_app.
    replace (n + 2)%nat with (1 + (n + 1))%nat by lia.
    rewrite !replicate_add, !fold_left_app. done. }
  pose proof (engager_release_first e0 i Hinv eq_refl ltac:(by rewrite Hc0) Hdt) as H0.
  rewrite Hc0 in H0. simpl in_dt in H0. set (k := ramp_step (ramp_down_s c) dt) in *.
  pose proof (engager_release_run k dt n (engager_step e0 i) H0) as Hr.
  rewrite engager_step_config, Hc0 in Hr. specialize (Hr eq_refl). fold i in Hr.
  assert (Hk : fnn k) by (apply ramp_step_fnn; [apply Hc|done]).
  rewrite He. set (e1 := engager_run (engager_step e0 i) (replicate n i)) in *.
  assert (Hc1 : en_config e1 = c).
  { unfold e1. by rewrite engager_run_config, engager_step_config. }
  unfold engager_step, engager_update. destruct Hr as [->|(-> & s & Hs & Hsc)]; [done|].
  cbn [in_want in_dt i]. rewrite Hc1. fold k.
  destruct fnn_d1 as [F1 E1]. assert (U1 : unit_range d1) by (split; [done|lia]).
  assert (Hz : scaled (Nat.iter n (release_step k) s) <= 0).
  { destruct (release_iter k n s Hk Hs) as [Hu Hle]. destruct (release_iter k n d1 Hk U1) as [Hu1 _].
    rewrite fnn_leb, Z.leb_le in Hn by (done || apply Hu1). change (scaled d0) with 0 in Hn. lia. }
  rewrite Hsc. destruct (release_iter k n s Hk Hs) as [Hu _].
  destruct (dmax_zero_range _ _ Hu Hk) as [Hm Hle]. pose proof (nonneg_scaled _ (proj1 (proj1 Hm))).
  destruct Hm as [Hm _].
  rewrite fnn_leb, (proj2 (Z.leb_le _ _)) by (done || (change (scaled d0) with 0; lia)). cbn.
  split; [done|]. rewrite fnn_ltb by done. apply Z.ltb_ge. change (scaled d0) with 0. lia.
Qed.

Lemma engager_releases_witness :
  let e := engager_run (engager_new engager_config_default)
    (replicate 100 (mkInput true true loop_dt) ++ replicate 53 (mkInput false false loop_dt)) in
  en_state e = OFF /\ (en_scale e >? d0)%D = false.
Proof.
  apply (engager_releases engager_config_default loop_dt 51).
  - vm_compute. repeat split.
  - vm_compute. repeat split.
  - apply Forall_replicate. vm_compute. repeat split.
  - vm_compute. reflexivity.
Defined.
