(* ===== verification/RuntimeControl.v ===== *)
(** * RuntimeControlServer: the text command interface

    [src/src/control/runtime_control_server.cpp]: line trimming and splitting,
    dispatch to registered handlers, JSON responses, the TCP server's life cycle
    and one accepted connection. A handler is a function on the program state
    that returns a response; the OS calls of [start] are arguments. *)

From S2P Require Import Prelude LinkCheck.
From stdpp Require Import gmap.
From Stdlib Require Import Ascii.

Open Scope Z_scope.

(** ** Text *)

Definition nl : string := String (ascii_of_nat 10) EmptyString.
Definition cr : string := String (ascii_of_nat 13) EmptyString.
Definition tab : string := String (ascii_of_nat 9) EmptyString.
Definition quote : string := String (ascii_of_nat 34) EmptyString.

(** The characters of " \t\r\n". *)
Definition is_blank (c : ascii) : bool :=
  let n := nat_of_ascii c in
  (n =? 32)%nat || (n =? 9)%nat || (n =? 13)%nat || (n =? 10)%nat.

(** The characters of " \t". *)
Definition is_sep (c : ascii) : bool :=
  let n := nat_of_ascii c in (n =? 32)%nat || (n =? 9)%nat.

(** From [find_first_not_of] on. *)
Fixpoint ltrim (s : string) : string :=
  match s with
  | String c s' => if is_blank c then ltrim s' else s
  | EmptyString => ""
  end.

(** Up to [find_last_not_of]. *)
Fixpoint rtrim (s : string) : string :=
  match s with
  | String c s' =>
      match rtrim s' with
      | EmptyString => if is_blank c then "" else String c ""
      | r => String c r
      end
  | EmptyString => ""
  end.

Definition trim (text : string) : string := rtrim (ltrim text).

(** [find_first_of(" \t")]: the text before the first separator, and the text
    after it if there is one. *)
Fixpoint split_first (s : string) : string * option string :=
  match s with
  | String c s' =>
      if is_sep c then ("", Some s')
      else let '(w, r) := split_first s' in (String c w, r)
  | EmptyString => ("", None)
  end.

(** ** JSON *)

Definition escape_char (c : ascii) : string :=
  match nat_of_ascii c with
  | 92%nat => String (ascii_of_nat 92) (String (ascii_of_nat 92) "")
  | 34%nat => String (ascii_of_nat 92) quote
  | 10%nat => String (ascii_of_nat 92) "n"
  | 13%nat => String (ascii_of_nat 92) "r"
  | 9%nat => String (ascii_of_nat 92) "t"
  | _ => String c ""
  end.

Fixpoint json_escape (value : string) : string :=
  match value with
  | String c s' => escape_char c +:+ json_escape s'
  | EmptyString => ""
  end.

(** A JSON string in quotes. *)
Definition quoted (s : string) : string := quote +:+ s +:+ quote.

Definition json_ok (fields : string) : string :=
  if String.eqb fields "" then "{" +:+ quoted "status" +:+ ":" +:+ quoted "ok" +:+ "}"
  else "{" +:+ quoted "status" +:+ ":" +:+ quoted "ok" +:+ "," +:+ fields +:+ "}".

Definition json_error (message : string) : string :=
  "{" +:+ quoted "status" +:+ ":" +:+ quoted "error" +:+ "," +:+ quoted "message" +:+ ":"
  +:+ quoted (json_escape message) +:+ "}".

(** ** Dispatch *)

Section server.
Context {St : Type}.

(** A handler gets the argument text and may change the program state. *)
Definition Handler : Type := string -> St -> St * string.

Definition register_handler (command : string) (h : Handler) (m : gmap string Handler)
    : gmap string Handler := <[command := h]> m.

Definition handle_command (handlers : gmap string Handler) (line : string) (st : St) : St * string :=
  let command := trim line in
  let '(command, args) :=
    match split_first command with
    | (w, Some rest) => (w, trim rest)
    | (w, None) => (w, "")
    end in
  match handlers !! command with
  | None => (st, json_error ("unknown command: " +:+ command))
  | Some h => h args st
  end.

(** [std::string(buffer)]: up to the first NUL. *)
Fixpoint c_string (bytes : list ascii) : string :=
  match bytes with
  | [] => ""
  | c :: bytes' => if (nat_of_ascii c =? 0)%nat then "" else String c (c_string bytes')
  end.

(** One accepted connection: what [recv] with room for 1023 bytes returned
    ([None] for an error), and the bytes sent back. *)
Definition serve (handlers : gmap string Handler) (received : option (list ascii)) (st : St) : St * string :=
  let '(st, response) :=
    match received with
    | Some (c :: bytes) => handle_command handlers (c_string (take 1023 (c :: bytes))) st
    | _ => (st, json_error "empty command")
    end in
  (st, response +:+ nl).
End server.

Arguments Handler St : clear implicits.

(** ** Life cycle *)

Record ServerOs := mkServerOs {
  so_socket : bool;          (* socket() succeeds *)
  so_valid_ip : string -> bool;
  so_bind : bool;
  so_listen : bool;
}.

(** [sv_fd]: the listening socket is open; [sv_thread]: the server thread runs. *)
Record ServerState := mkServer { sv_fd : bool; sv_running : bool; sv_thread : bool }.

Definition server_new : ServerState := mkServer false false false.

Definition server_start (os : ServerOs) (bind_ip : string) (s : ServerState) : bool * ServerState :=
  if sv_running s then (true, s)
  else if negb (so_socket os) then (false, mkServer false (sv_running s) (sv_thread s))
  else if negb (so_valid_ip os bind_ip) then (false, mkServer false (sv_running s) (sv_thread s))
  else if negb (so_bind os) then (false, mkServer false (sv_running s) (sv_thread s))
  else if negb (so_listen os) then (false, mkServer false (sv_running s) (sv_thread s))
  else (true, mkServer true true true).

Definition server_stop (s : ServerState) : ServerState :=
  if negb (sv_running s) && negb (sv_fd s) then s else mkServer false false false.

(** ** Trimming *)

Fixpoint all_blank (s : string) : Prop :=
  match s with String c s' => is_blank c = true /\ all_blank s' | EmptyString => True end.

(** No blank at the front; no blank at the end. *)
Definition head_ok (s : string) : Prop :=
  match s with String c _ => is_blank c = false | EmptyString => True end.

Fixpoint last_ok (s : string) : Prop :=
  match s with
  | String c EmptyString => is_blank c = false
  | String _ s' => last_ok s'
  | EmptyString => True
  end.

Definition trimmed (s : string) : Prop := head_ok s /\ last_ok s.

Lemma string_app_assoc (a b c : string) : (a +:+ b) +:+ c = a +:+ (b +:+ c).
Proof. induction a as [|x a IH]; [done|]. exact (f_equal (String x) IH). Qed.

Lemma string_app_nil_r (a : string) : a +:+ "" = a.
Proof. induction a as [|x a IH]; [done|]. exact (f_equal (String x) IH). Qed.

Lemma ltrim_app a s : all_blank a -> ltrim (a +:+ s) = ltrim s.
Proof. induction a as [|c a IH]; simpl; [done|]. intros [-> Ha]. by apply IH. Qed.

Lemma rtrim_all_blank s : all_blank s -> rtrim s = "".
Proof. induction s as [|c s IH]; simpl; [done|]. intros [-> Hs]. by rewrite IH. Qed.

Lemma rtrim_app s b : last_ok s -> all_blank b -> rtrim (s +:+ b) = s.
Proof.
  intros Hs Hb. induction s as [|c s IH]; [by apply rtrim_all_blank|]. simpl.
  destruct s as [|d s].
  - simpl in *. by rewrite rtrim_all_blank, Hs.
  - rewrite IH; [done|]. exact Hs.
Qed.

(** Surrounding blanks never matter. *)
Lemma trim_padded a s b : trimmed s -> all_blank a -> all_blank b -> trim (a +:+ s +:+ b) = s.
Proof.
  intros [Hh Hl] Ha Hb. unfold trim. rewrite ltrim_app by done.
  assert (ltrim (s +:+ b) = match s with EmptyString => ltrim b | _ => s +:+ b end) as ->.
  { destruct s as [|c s]; [done|]. simpl in *. by rewrite Hh. }
  destruct s as [|c s]; [|by apply rtrim_app].
  assert (ltrim b = "") as ->; [|done]. clear -Hb. induction b as [|c b IH]; simpl; [done|].
  destruct Hb as [-> Hb]. by apply IH.
Qed.

Lemma rtrim_last_ok s : last_ok (rtrim s).
Proof.
  induction s as [|c s IH]; simpl; [done|]. destruct (rtrim s) as [|d r] eqn:E.
  - by destruct (is_blank c) eqn:Ec.
  - exact IH.
Qed.

Lemma rtrim_head_ok s : head_ok s -> head_ok (rtrim s).
Proof.
  destruct s as [|c s]; simpl; [done|]. intros Hc. destruct (rtrim s); [by rewrite Hc|done].
Qed.

Lemma ltrim_head_ok s : head_ok (ltrim s).
Proof. induction s as [|c s IH]; simpl; [done|]. by destruct (is_blank c) eqn:E. Qed.

Lemma trim_trimmed s : trimmed (trim s).
Proof. split; [apply rtrim_head_ok, ltrim_head_ok|apply rtrim_last_ok]. Qed.

(** ** Splitting *)

Fixpoint no_sep (s : string) : Prop :=
  match s with String c s' => is_sep c = false /\ no_sep s' | EmptyString => True end.

Lemma split_first_none s : no_sep s -> split_first s = (s, None).
Proof. induction s as [|c s IH]; simpl; [done|]. intros [-> Hs]. by rewrite IH. Qed.

Lemma split_first_some w c s :
  no_sep w -> is_sep c = true -> split_first (w +:+ String c s) = (w, Some s).
Proof.
  intros Hw Hc. induction w as [|d w IH]; simpl; [by rewrite Hc|].
  destruct Hw as [-> Hw]. by rewrite IH.
Qed.

(** ** Escaping *)

(** Decodes the escapes [json_escape] produces. *)
Fixpoint json_unescape (s : string) : string :=
  match s with
  | String c s' =>
      if (nat_of_ascii c =? 92)%nat then
        match s' with
        | String d s'' =>
            String (match nat_of_ascii d with
                    | 110%nat => ascii_of_nat 10 | 114%nat => ascii_of_nat 13
                    | 116%nat => ascii_of_nat 9 | _ => d end) (json_unescape s'')
        | EmptyString => ""
        end
      else String c (json_unescape s')
  | EmptyString => ""
  end.

(** A JSON string body: no raw quote, line feed, carriage return or tab, and
    every backslash starts an escape. *)
Fixpoint body_ok (s : string) : bool :=
  match s with
  | String c s' =>
      match nat_of_ascii c with
      | 92%nat => match s' with String _ s'' => body_ok s'' | EmptyString => false end
      | 34%nat | 10%nat | 13%nat | 9%nat => false
      | _ => body_ok s'
      end
  | EmptyString => true
  end.

Lemma escape_char_spec c r :
  json_unescape (escape_char c +:+ r) = String c (json_unescape r) /\
  body_ok (escape_char c +:+ r) = body_ok r.
Proof. destruct c as [[] [] [] [] [] [] [] []]; split; reflexivity. Qed.

Lemma json_escape_spec s : json_unescape (json_escape s) = s /\ body_ok (json_escape s) = true.
Proof.
  induction s as [|c s [IH1 IH2]]; [done|]. simpl json_escape.
  destruct (escape_char_spec c (json_escape s)) as [-> ->]. by rewrite IH1, IH2.
Qed.

(** ** Properties *)

(** Commands are dispatched whatever the spacing. A line consisting of a
    command word, optionally followed by blanks and an argument text, with any
    blanks, tabs, carriage returns or newlines around it, runs exactly the
    handler registered for that word on exactly that argument text; an
    unregistered word leaves the state unchanged and is answered with a JSON
    error naming it. *)
Lemma command_dispatch {St : Type} (handlers : gmap string (Handler St)) (st : St)
    (pre cmd sep1 args post : string) (sep : ascii) :
  all_blank pre -> all_blank post -> trimmed cmd -> no_sep cmd -> cmd <> "" -> is_sep sep = true ->
  all_blank sep1 -> trimmed args -> args <> "" ->
  let respond a := match handlers !! cmd with
                   | Some h => h a st
                   | None => (st, json_error ("unknown command: " +:+ cmd))
                   end in
  handle_command handlers (pre +:+ cmd +:+ post) st = respond "" /\
  handle_command handlers (pre +:+ (cmd +:+ String sep (sep1 +:+ args)) +:+ post) st = respond args.
Proof.
  intros Hpre Hpost Hcmd Hns Hne Hsep Hsep1 Hargs Hane respond. unfold handle_command. split.
  - rewrite trim_padded by done. by rewrite split_first_none.
  - rewrite trim_padded; [|split|done|done].
    + rewrite split_first_some by done.
      pose proof (trim_padded sep1 args "" Hargs Hsep1 I) as Ht. rewrite string_app_nil_r in Ht.
      by rewrite Ht.
    + destruct Hcmd as [Hh _]. by destruct cmd.
    + destruct Hargs as [_ Hl].
      assert (Hx : forall x, last_ok (x +:+ args)).
      { intros x. induction x as [|c x IH]; [done|]. simpl. destruct (x +:+ args) eqn:E; [|done].
        destruct x; simpl in E; [|done]. by subst. }
      assert (Hy : forall y, last_ok (y +:+ String sep (sep1 +:+ args))).
      { intros y. pose proof (Hx (y +:+ String sep sep1)) as Hz. rewrite string_app_assoc in Hz. exact Hz. }
      apply Hy.
Qed.

(** A handler map with one command that records its argument. *)
Definition demo_handlers : gmap string (Handler (list string)) :=
  register_handler "goto_pose" (fun a st => (a :: st, json_ok "")) ∅.

Lemma command_dispatch_witness :
  handle_command demo_handlers (" " +:+ ("goto_pose" +:+ String (ascii_of_nat 32) (" " +:+ "1 2")) +:+ nl) [] =
    (["1 2"], json_ok "").
Proof.
  rewrite (proj2 (command_dispatch demo_handlers [] " " "goto_pose" " " "1 2" nl (ascii_of_nat 32)
    ltac:(repeat split) ltac:(repeat split) ltac:(repeat split) ltac:(repeat split) ltac:(discriminate)
    ltac:(reflexivity) ltac:(repeat split) ltac:(repeat split) ltac:(discriminate))).
  reflexivity.
Defined.

(** JSON escaping is lossless and never breaks the response. Unescaping an
    escaped text gives the text back (so different messages give different
    responses), and the escaped text contains no raw quote, newline, carriage
    return or tab and no dangling backslash, for every input text. *)
Lemma json_escape_roundtrip (s : string) :
  json_unescape (json_escape s) = s /\ body_ok (json_escape s) = true.
Proof. apply json_escape_spec. Qed.
