(* ===== verification/Udp.v ===== *)
(** * UdpReceiver, UdpSender and the telemetry publisher

    [src/src/net/udp_receiver.cpp], [udp_sender.cpp] and
    [src/src/telemetry/openarm_telemetry_publisher.cpp]. Sockets are reduced to
    whether they are open and to what their calls return; one iteration of the
    receive thread is [receive_step] on what [poll] and [recvfrom] report. *)

From S2P Require Import Prelude Crc32 Wire Packets PacketCodec.

Open Scope Z_scope.

(** ** Receiver *)

(** The OS calls of the constructor: socket(), bind() and address parsing. *)
Record SocketOs := mkSocketOs {
  sk_socket : bool;
  sk_inet_pton : string -> option Z;
  sk_bind : Z -> Z -> bool;                  (* address and port *)
}.

(** The address the receiver binds: INADDR_ANY (0) for "0.0.0.0" and for the
    empty text, and also when the text does not parse (the zeroed address is
    kept). *)
Definition bind_address (os : SocketOs) (bind_ip : string) : Z :=
  if String.eqb bind_ip "0.0.0.0" || String.eqb bind_ip "" then 0
  else default 0 (sk_inet_pton os bind_ip).

Record UdpReceiver := mkUdpReceiver {
  ur_socket_open : bool;
  ur_running : bool;
  ur_received_count : Z;
  ur_invalid_count : Z;
}.

Definition receiver_new (os : SocketOs) (bind_ip : string) (bind_port : Z) : UdpReceiver :=
  mkUdpReceiver (sk_socket os && sk_bind os (bind_address os bind_ip) bind_port) false 0 0.

(** [start_internal]: the result, and the state. *)
Definition receiver_start (r : UdpReceiver) : bool * UdpReceiver :=
  if negb (ur_socket_open r) then (false, r)
  else if ur_running r then (true, r)
  else (true, mkUdpReceiver true true (ur_received_count r) (ur_invalid_count r)).

Definition receiver_stop (r : UdpReceiver) : UdpReceiver :=
  if ur_running r then mkUdpReceiver (ur_socket_open r) false (ur_received_count r) (ur_invalid_count r)
  else r.

(** What one iteration of the loop sees: [poll] times out or fails, or it is
    ready and [recvfrom] fails or returns a datagram. *)
Inductive RecvEvent :=
| PollTimeout
| PollError
| RecvError
| Datagram (bytes : list Z).

Definition buffer_size : nat := 4096.

Section receiver.
Context {St : Type}.

(** The registered callbacks; [now] is the time at which the callback runs. *)
Context (callback : option (Z -> TeleopPacket -> St -> St)).
Context (raw_callback : option (Z -> list Z -> St -> St)).

Definition count_received (r : UdpReceiver) : UdpReceiver :=
  mkUdpReceiver (ur_socket_open r) (ur_running r) (u32 (ur_received_count r + 1)) (ur_invalid_count r).

Definition count_invalid (r : UdpReceiver) : UdpReceiver :=
  mkUdpReceiver (ur_socket_open r) (ur_running r) (ur_received_count r) (u32 (ur_invalid_count r + 1)).

(** One iteration of [receive_loop] while [running_]. *)
Definition receive_step (now : Z) (ev : RecvEvent) (s : UdpReceiver * St) : UdpReceiver * St :=
  let '(r, st) := s in
  if negb (ur_running r) then s
  else
    match ev with
    | PollTimeout | PollError | RecvError => s
    | Datagram bytes =>
        let buffer := take buffer_size bytes in
        if decide (length buffer = 0%nat) then s
        else
          let r := count_received r in
          match raw_callback with
          | Some cb => (r, cb now buffer st)
          | None =>
              match callback with
              | Some cb =>
                  if decide (length buffer = wire_size TeleopPacket) then
                    let '(ok, packet) := teleop_decode_and_validate (deserialize buffer) in
                    if ok then (r, cb now packet st) else (count_invalid r, st)
                  else (count_invalid r, st)
              | None => (r, st)
              end
          end
    end.

Definition receive_run (s : UdpReceiver * St) (l : list (Z * RecvEvent)) : UdpReceiver * St :=
  fold_left (fun s '(now, ev) => receive_step now ev s) l s.
End receiver.

(** ** Sender *)

Record UdpSender := mkUdpSender { us_socket_open : bool; us_target_ip : string; us_sent_count : Z }.

(** The two constructors: the second one also binds a local address; a failure
    to do so leaves the socket open. *)
Definition sender_new (os : SocketOs) (target_ip : string) : UdpSender :=
  mkUdpSender (sk_socket os) target_ip 0.

Definition sender_new_local (os : SocketOs) (target_ip local_ip : string) : UdpSender :=
  mkUdpSender (sk_socket os) target_ip 0.

(** [send_raw]: [transmit] is what [sendto] does with the bytes (how many it
    takes, or an error); the result and the state. *)
Definition send_raw (os : SocketOs) (transmit : list Z -> option Z) (data : list Z) (s : UdpSender)
    : bool * UdpSender :=
  if negb (us_socket_open s) then (false, s)
  else
    match sk_inet_pton os (us_target_ip s) with
    | None => (false, s)
    | Some _ =>
        if decide (transmit data = Some (Z.of_nat (length data)))
        then (true, mkUdpSender (us_socket_open s) (us_target_ip s) (u32 (us_sent_count s + 1)))
        else (false, s)
    end.

Definition send (os : SocketOs) (transmit : list Z -> option Z) (p : TeleopPacket) (s : UdpSender)
    : bool * UdpSender := send_raw os transmit (serialize p) s.

(** ** Telemetry publisher *)

(** The publisher's own CRC: the branching form of the bit loop. *)
Definition telemetry_crc_bit (crc : Z) : Z :=
  if negb (Z.land crc 1 =? 0) then Z.lxor (Z.shiftr crc 1) 0xEDB88320 else Z.shiftr crc 1.

Definition telemetry_crc_byte (crc b : Z) : Z := Nat.iter 8 telemetry_crc_bit (Z.lxor crc b).

Definition telemetry_calculate_crc32 (data : list Z) : Z :=
  Z.lxor (fold_left telemetry_crc_byte data 0xFFFFFFFF) 0xFFFFFFFF.

Record TelemetryPublisher := mkTelemetryPublisher { pub_socket_open : bool; pub_seq : Z }.

Definition publisher_new : TelemetryPublisher := mkTelemetryPublisher false 0.

Definition publisher_start (socket_ok : bool) (p : TelemetryPublisher) : bool * TelemetryPublisher :=
  (socket_ok, mkTelemetryPublisher socket_ok (pub_seq p)).

Definition publisher_stop (p : TelemetryPublisher) : TelemetryPublisher :=
  mkTelemetryPublisher false (pub_seq p).

(** [publish]: the datagram handed to [sendto], if any, and the state. *)
Definition publish (packet : OpenArmTelemetryPacketV1) (p : TelemetryPublisher)
    : option (list Z) * TelemetryPublisher :=
  if negb (pub_socket_open p) then (None, p)
  else
    let to_send := mkTelemetryPacket TELEMETRY_MAGIC 1 (Z.of_nat (wire_size OpenArmTelemetryPacketV1))
      (pub_seq p) (tm_monotonic_time_ns packet) (tm_robot_type packet) (tm_control_mode packet)
      (tm_enabled packet) (tm_estop packet) (tm_state_dim packet) (tm_action_dim packet)
      (tm_velocity_dim packet) (tm_reserved0 packet) (tm_watchdog_state packet)
      (tm_safety_state packet) (tm_reserved1 packet) (tm_reserved2 packet)
      (tm_observation_state packet) (tm_action packet) (tm_observation_velocity packet) 0 in
    let crc := telemetry_calculate_crc32
      (take (wire_size OpenArmTelemetryPacketV1 - 4) (serialize to_send)) in
    (Some (serialize (with_crc crc to_send)), mkTelemetryPublisher true (u32 (pub_seq p + 1))).

(** ** Lemmas *)

Lemma telemetry_crc_bit_eq c : telemetry_crc_bit c = crc_bit c.
Proof.
  rewrite crc_bit_alt. unfold telemetry_crc_bit.
  assert ((Z.land c 1 =? 0) = negb (Z.odd c)) as ->.
  { change 1 with (Z.ones 1). rewrite Z.land_ones by lia. change (2 ^ 1) with 2.
    rewrite Zmod_odd. by destruct (Z.odd c). }
  destruct (Z.odd c); simpl; [done|]. by rewrite Z.lxor_0_r.
Qed.

Lemma iter_ext {A} (f g : A -> A) n x : (forall y, f y = g y) -> Nat.iter n f x = Nat.iter n g x.
Proof. intros He. induction n as [|n IH]; simpl; [done|]. by rewrite IH, He. Qed.

Lemma fold_left_ext {A B} (f g : A -> B -> A) l a :
  (forall x y, f x y = g x y) -> fold_left f l a = fold_left g l a.
Proof. intros He. revert a. induction l as [|b l IH]; intros a; simpl; [done|]. by rewrite He, IH. Qed.

Lemma telemetry_crc_eq data : telemetry_calculate_crc32 data = calculate_crc32 data.
Proof.
  unfold telemetry_calculate_crc32, calculate_crc32. f_equal. apply fold_left_ext.
  intros c b. apply iter_ext. apply telemetry_crc_bit_eq.
Qed.

Section accounting.
Context {St : Type} (cb : Z -> TeleopPacket -> St -> St).

Definition is_datagram (ev : RecvEvent) : option (list Z) :=
  match ev with
  | Datagram bytes => if decide (take buffer_size bytes = []) then None else Some (take buffer_size bytes)
  | _ => None
  end.

(** The non-empty datagrams of a run, truncated to the receive buffer. *)
Definition datagrams (l : list (Z * RecvEvent)) : list (Z * list Z) :=
  omap (fun '(now, ev) => match is_datagram ev with Some b => Some (now, b) | None => None end) l.

(** The packets the validation accepts, with their times. *)
Definition accepted (l : list (Z * list Z)) : list (Z * TeleopPacket) :=
  omap (fun '(now, b) => match receive_teleop b with Some p => Some (now, p) | None => None end) l.

Lemma receive_step_spec now ev r st :
  ur_running r = true ->
  receive_step (Some cb) None now ev (r, st) =
    match is_datagram ev with
    | None => (r, st)
    | Some b =>
        match receive_teleop b with
        | Some p => (count_received r, cb now p st)
        | None => (count_invalid (count_received r), st)
        end
    end.
Proof.
  intros Hr. unfold receive_step. rewrite Hr. cbn [negb].
  destruct ev as [| | |bytes]; try done. cbn [is_datagram].
  destruct (decide (length (take buffer_size bytes) = 0%nat)) as [He|He].
  - apply nil_length_inv in He. by destruct (decide (take buffer_size bytes = [])).
  - destruct (decide (take buffer_size bytes = [])) as [Hn|_]; [by rewrite Hn in He|].
    unfold receive_teleop. destruct (decide _); [|done].
    destruct (teleop_decode_and_validate _) as [ok p]. by destruct ok.
Qed.

Lemma datagrams_cons now ev l :
  datagrams ((now, ev) :: l) =
    match is_datagram ev with Some b => (now, b) :: datagrams l | None => datagrams l end.
Proof. unfold datagrams. simpl. by destruct (is_datagram ev). Qed.

Lemma accepted_cons now b l :
  accepted ((now, b) :: l) =
    match receive_teleop b with Some p => (now, p) :: accepted l | None => accepted l end.
Proof. unfold accepted. simpl. by destruct (receive_teleop b). Qed.

Lemma receive_run_spec l r st :
  ur_running r = true -> in_width 32 (ur_received_count r) -> in_width 32 (ur_invalid_count r) ->
  let n := Z.of_nat (length (datagrams l)) in
  let k := Z.of_nat (length (accepted (datagrams l))) in
  receive_run (Some cb) None (r, st) l =
    (mkUdpReceiver (ur_socket_open r) true (u32 (ur_received_count r + n))
       (u32 (ur_invalid_count r + (n - k))),
     fold_left (fun st '(now, p) => cb now p st) (accepted (datagrams l)) st).
Proof.
  cbv zeta. revert r st. induction l as [|[now ev] l IH]; intros r st Hr H1 H2.
  - destruct r; simpl in *. subst. by rewrite !Z.add_0_r, !wrap_small.
  - change (receive_run (Some cb) None (r, st) ((now, ev) :: l))
      with (receive_run (Some cb) None (receive_step (Some cb) None now ev (r, st)) l).
    rewrite receive_step_spec, datagrams_cons by done.
    destruct (is_datagram ev) as [b|]; [|by apply IH]. rewrite accepted_cons.
    assert (Hw : forall x, in_width 32 (u32 x)) by (intros; apply wrap_range; lia).
    destruct (receive_teleop b) as [p|]; rewrite IH by (done || apply Hw);
      cbn [length ur_received_count ur_invalid_count ur_socket_open count_received count_invalid fold_left];
      rewrite !Nat2Z.inj_succ, ?wrap_add_l; f_equal; f_equal; f_equal; lia.
Qed.
End accounting.

(** ** Properties *)

(** The receiver accounts for every datagram and delivers exactly the valid
    ones. Over any run of the receive loop with a packet callback, whatever mix
    of timeouts, errors and datagrams of any size it sees: the callback runs
    once for each datagram that validates, in arrival order, on the decoded
    packet; [received_count] is the number of non-empty datagrams and
    [invalid_count] the number of those not delivered (modulo 2^32). *)
Lemma receiver_accounting {St : Type} (cb : Z -> TeleopPacket -> St -> St)
    (os : SocketOs) (ip : string) (port : Z) (st : St) (l : list (Z * RecvEvent)) :
  sk_socket os = true -> sk_bind os (bind_address os ip) port = true ->
  let r := (receiver_start (receiver_new os ip port)).2 in
  let r' := (receive_run (Some cb) None (r, st) l).1 in
  let delivered := accepted (datagrams l) in
  (receive_run (Some cb) None (r, st) l).2 = fold_left (fun st '(now, p) => cb now p st) delivered st /\
  ur_received_count r' = u32 (Z.of_nat (length (datagrams l))) /\
  ur_invalid_count r' = u32 (Z.of_nat (length (datagrams l)) - Z.of_nat (length delivered)).
Proof.
  intros Hs Hb. unfold receiver_start, receiver_new. rewrite Hs, Hb. cbn [andb ur_socket_open negb ur_running snd].
  cbv zeta. rewrite receive_run_spec by done. done.
Qed.

Definition socket_os_ok : SocketOs := mkSocketOs true (fun _ => Some 1) (fun _ _ => true).

Lemma receiver_accounting_witness :
  let r := (receiver_start (receiver_new socket_os_ok "0.0.0.0" 50000)).2 in
  ur_invalid_count (receive_run (Some (fun (_ : Z) (p : TeleopPacket) (st : list Z) => tp_seq p :: st)) None (r, [])
    [(0, PollTimeout); (1, Datagram sample_datagram); (2, Datagram [1; 2; 3]); (3, RecvError)]).1 = 1.
Proof.
  cbv zeta.
  rewrite (proj2 (proj2 (receiver_accounting (fun (_ : Z) (p : TeleopPacket) (st : list Z) => tp_seq p :: st)
    socket_os_ok "0.0.0.0" 50000 []
    [(0, PollTimeout); (1, Datagram sample_datagram); (2, Datagram [1; 2; 3]); (3, RecvError)]
    eq_refl eq_refl))).
  vm_compute. reflexivity.
Defined.

(** Both CRC implementations are the same function. The branching bit loop of
    the telemetry publisher computes the CRC of the packet codec (branchless) on
    every byte string, so every published datagram carries a CRC that a receiver
    using the codec's function accepts. *)
Lemma telemetry_crc_equivalence (data : list Z) :
  telemetry_calculate_crc32 data = calculate_crc32 data.
Proof. apply telemetry_crc_eq. Qed.

(** What is published. While the publisher is started, the n-th call of
    [publish] sends one datagram of 228 bytes that decodes to the given packet
    with the telemetry magic, version 1, its own size, sequence number n (modulo
    2^32) and a CRC matching the other bytes; a stopped publisher sends nothing
    and uses up no number. *)
Lemma publish_spec (packet : OpenArmTelemetryPacketV1) (p : TelemetryPublisher) :
  well_formed packet -> in_width 32 (pub_seq p) ->
  (pub_socket_open p = false -> publish packet p = (None, p)) /\
  (pub_socket_open p = true -> exists bytes,
     publish packet p = (Some bytes, mkTelemetryPublisher true (u32 (pub_seq p + 1))) /\
     length bytes = 228%nat /\
     let q := deserialize bytes in
     tm_magic q = TELEMETRY_MAGIC /\ tm_version q = 1 /\ tm_packet_size q = 228 /\
     tm_seq q = pub_seq p /\ tm_crc32 q = struct_crc q /\
     tm_observation_state q = tm_observation_state packet /\ tm_action q = tm_action packet /\
     tm_enabled q = tm_enabled packet /\ tm_safety_state q = tm_safety_state packet /\
     tm_state_dim q = tm_state_dim packet).
Proof.
  intros [Hsh Hf] Hq. unfold publish. split; [by intros ->|]. intros ->. cbn [negb]. cbv zeta.
  set (q := mkTelemetryPacket _ _ _ _ _ _ _ _ _ _ _ _ _ _ _ _ _ _ _ _ _).
  set (crc := telemetry_calculate_crc32 _).
  assert (Hc : crc = struct_crc q) by apply telemetry_crc_eq.
  assert (Hsq : shaped q) by exact Hsh.
  assert (Hwf : well_formed (with_crc crc q)).
  { split; [by apply shaped_with_crc|]. unfold layout, fields. rewrite body_with_crc, crc_with_crc, Hc.
    apply Forall2_app; [|by constructor; [apply struct_crc_width|constructor]].
    apply Forall2_app_inv in Hf as [Hf _]; [|by rewrite length_body].
    change (fits (4 :: 2 :: 2 :: 4 :: 8 :: drop 5 telemetry_layout)%nat
      (tm_magic packet :: tm_version packet :: tm_packet_size packet :: tm_seq packet ::
       tm_monotonic_time_ns packet :: drop 5 (telemetry_body packet))) in Hf.
    change (fits (4 :: 2 :: 2 :: 4 :: 8 :: drop 5 telemetry_layout)%nat
      (TELEMETRY_MAGIC :: 1 :: Z.of_nat (wire_size OpenArmTelemetryPacketV1) :: pub_seq p ::
       tm_monotonic_time_ns packet :: drop 5 (telemetry_body packet))).
    unfold fits in *. rewrite !Forall2_cons in *. destruct Hf as (_ & _ & _ & _ & Ht & Hr).
    split_and!; [const_width..|exact Hq|exact Ht|exact Hr]. }
  eexists. split; [done|]. rewrite length_serialize by apply Hwf. split; [done|].
  rewrite deserialize_serialize by done. cbv zeta. split_and!; try done.
  change (tm_crc32 (with_crc crc q)) with crc. by rewrite struct_crc_with_crc.
Qed.

Definition telemetry_zero : OpenArmTelemetryPacketV1 :=
  mkTelemetryPacket 0 0 0 0 0 0 0 0 0 0 0 0 0 0 0 0 0 (replicate 16 0) (replicate 16 0) (replicate 16 0) 0.

Lemma publish_spec_witness :
  publish telemetry_zero publisher_new = (None, publisher_new) /\
  exists bytes, (publish telemetry_zero (mkTelemetryPublisher true 7)).1 = Some bytes /\
    length bytes = 228%nat.
Proof.
  assert (Hw : well_formed telemetry_zero).
  { split; [repeat split|]. apply (bool_decide_unpack _). vm_compute. exact I. }
  split.
  - apply (publish_spec telemetry_zero publisher_new Hw ltac:(const_width)). reflexivity.
  - destruct (proj2 (publish_spec telemetry_zero (mkTelemetryPublisher true 7) Hw ltac:(const_width)) eq_refl)
      as (bytes & Hp & Hl & _).
    exists bytes. split; [exact (f_equal fst Hp)|exact Hl].
Defined.
