(* ===== verification/RobotState.v ===== *)
(** * Joint states, robot state, converters and differentiator

    [src/src/robot_state.hpp], [joint_state_converter.hpp],
    [controller/diff.hpp] and the constants of [openarm_constants.hpp].
    [RobotState]'s methods hold its mutex, so calls are atomic. *)

From S2P Require Import Prelude Float64 Float64Round Float64Ops Float64Arith Float64Order Float64Facts.

Open Scope Z_scope.

(** ** Constants *)

(** 3.14159265358979323846 as a double. *)
Definition PI : double := Eval vm_compute in double_of_bits 0x400921FB54442D18.

Definition NJOINTS : nat := 8.
Definition NMOTORS : nat := 8.
Definition CUTOFF_FREQUENCY : double := d_of_Z 90.

Inductive Role := ROLE_LEADER | ROLE_FOLLOWER.

Definition INITIAL_POSITION : list double :=
  [d0; d0; d0; (PI / d_of_Z 5)%D; d0; d0; d0; d0].

Definition velocity_limit_L : list double := replicate 8 (d_of_Z 8).
Definition velocity_limit_F : list double := replicate 8 (d_of_Z 8).
Definition effort_limit_L : list double := replicate 8 (d_of_Z 20).
Definition effort_limit_F : list double := replicate 8 (d_of_Z 20).

(** ** Joint and motor states *)

Record JointState := mkJointState { js_position : double; js_velocity : double; js_effort : double }.
Record MotorState := mkMotorState { ms_position : double; ms_velocity : double; ms_effort : double }.

Definition joint_zero : JointState := mkJointState d0 d0 d0.

(** ** RobotState *)

Record RobotState := mkRobotState { rs_response : list JointState; rs_reference : list JointState }.

Definition robot_state_new (num_joints : nat) : RobotState :=
  mkRobotState (replicate num_joints joint_zero) (replicate num_joints joint_zero).

(** Out of range, [set_reference] and [set_response] do nothing, as does [set_nth]. *)
Definition set_reference (index : nat) (s : JointState) (r : RobotState) : RobotState :=
  mkRobotState (rs_response r) (set_nth index s (rs_reference r)).

Definition set_references (states : list JointState) (r : RobotState) : RobotState :=
  mkRobotState (rs_response r) states.

Definition get_reference (index : nat) (r : RobotState) : JointState :=
  nth index (rs_reference r) joint_zero.

Definition set_response (index : nat) (s : JointState) (r : RobotState) : RobotState :=
  mkRobotState (set_nth index s (rs_response r)) (rs_reference r).

Definition set_responses (states : list JointState) (r : RobotState) : RobotState :=
  mkRobotState states (rs_reference r).

Definition get_response (index : nat) (r : RobotState) : JointState :=
  nth index (rs_response r) joint_zero.

(** [std::vector::resize]. *)
Definition vresize (n : nat) (l : list JointState) : list JointState :=
  take n l ++ replicate (n - length l) joint_zero.

Definition robot_state_resize (n : nat) (r : RobotState) : RobotState :=
  mkRobotState (vresize n (rs_response r)) (vresize n (rs_reference r)).

Definition get_size (r : RobotState) : nat := length (rs_response r).

(** ** RobotSystemState *)

Record RobotSystemState := mkRobotSystem { arm_state : RobotState; hand_state : RobotState }.

Definition robot_system_new (arm_joint_count hand_joint_count : nat) : RobotSystemState :=
  mkRobotSystem (robot_state_new arm_joint_count) (robot_state_new hand_joint_count).

Definition get_all_responses (s : RobotSystemState) : list JointState :=
  rs_response (arm_state s) ++ rs_response (hand_state s).

Definition get_all_references (s : RobotSystemState) : list JointState :=
  rs_reference (arm_state s) ++ rs_reference (hand_state s).

Definition set_all_references (all_refs : list JointState) (s : RobotSystemState)
    : outcome RobotSystemState :=
  let arm_size := get_size (arm_state s) in
  let hand_size := get_size (hand_state s) in
  if decide (length all_refs = arm_size + hand_size)%nat then
    Ok (mkRobotSystem (set_references (take arm_size all_refs) (arm_state s))
          (set_references (drop arm_size all_refs) (hand_state s)))
  else Throw "set_all_references: size mismatch.".

Definition set_all_responses (all_responses : list JointState) (s : RobotSystemState)
    : outcome RobotSystemState :=
  let arm_size := get_size (arm_state s) in
  let hand_size := get_size (hand_state s) in
  if decide (length all_responses = arm_size + hand_size)%nat then
    Ok (mkRobotSystem (set_responses (take arm_size all_responses) (arm_state s))
          (set_responses (drop arm_size all_responses) (hand_state s)))
  else Throw "set_all_responses: size mismatch.".

Definition get_total_joint_count (s : RobotSystemState) : nat :=
  get_size (arm_state s) + get_size (hand_state s).

(** ** Motor/joint converters *)

(** [MotorJointConverter]: the arm and the gripper convert differently. *)
Class MotorJointConverter := {
  motor_to_joint : list MotorState -> list JointState;
  joint_to_motor : list JointState -> list MotorState;
}.

Definition arm_motor_to_joint (m : list MotorState) : list JointState :=
  map (fun s => mkJointState (ms_position s) (ms_velocity s) (ms_effort s)) m.

Definition arm_joint_to_motor (j : list JointState) : list MotorState :=
  map (fun s => mkMotorState (js_position s) (js_velocity s) (js_effort s)) j.

Definition gripper_range_m : double := dlit 44 3.
Definition gripper_range_rad : double := dopp (dlit 10472 4).

Definition gripper_motor_to_joint (m : list MotorState) : list JointState :=
  map (fun s =>
         let motor_pos := ms_position s in
         let joint_pos := (gripper_range_m * (motor_pos / gripper_range_rad))%D in
         mkJointState joint_pos (ms_velocity s) (ms_effort s)) m.

Definition gripper_joint_to_motor (j : list JointState) : list MotorState :=
  map (fun s =>
         let joint_pos := js_position s in
         let motor_pos := (joint_pos / gripper_range_m * gripper_range_rad)%D in
         mkMotorState motor_pos (js_velocity s) (js_effort s)) j.

Definition OpenArmJointConverter : MotorJointConverter :=
  {| motor_to_joint := arm_motor_to_joint; joint_to_motor := arm_joint_to_motor |}.

Definition OpenArmJGripperJointConverter : MotorJointConverter :=
  {| motor_to_joint := gripper_motor_to_joint; joint_to_motor := gripper_joint_to_motor |}.

(** ** Differentiator *)

(** Per motor: velocity, position and acceleration of the previous step, and
    the last acceleration. *)
Record DiffMotor := mkDiffMotor {
  velocity_z1 : double; position_z1 : double; acc_z1 : double; acc : double;
}.

Record Differentiator := mkDifferentiator { df_Ts : double; df_motors : list DiffMotor }.

Definition differentiator_new (Ts : double) : Differentiator :=
  mkDifferentiator Ts (replicate NMOTORS (mkDiffMotor d0 d0 d0 d0)).

Definition diff_a (Ts : double) : double := (d1 / (d1 + Ts * CUTOFF_FREQUENCY))%D.
Definition diff_b (Ts : double) : double := (diff_a Ts * CUTOFF_FREQUENCY)%D.

(** One motor of [Differentiate]: new state and velocity. *)
Definition differentiate_motor (Ts position : double) (m : DiffMotor) : DiffMotor * double :=
  let z1 := if (position_z1 m =? d0)%D then position else position_z1 m in
  let v := (velocity_z1 m * diff_a Ts + diff_b Ts * (position - z1))%D in
  (mkDiffMotor v position (acc_z1 m) (acc m), v).

Definition Differentiate (position : list double) (d : Differentiator) : Differentiator * list double :=
  let r := zip_with (fun p m => differentiate_motor (df_Ts d) p m) position (df_motors d) in
  (mkDifferentiator (df_Ts d) (map fst r), map snd r).

(** One motor of [Differentiate_w_obs]. *)
Definition differentiate_motor_w_obs (Ts position mass input_torque : double) (m : DiffMotor)
    : DiffMotor * double :=
  let init := (position_z1 m =? d0)%D in
  let z1 := if init then position else position_z1 m in
  let a_z1 := if init then acc m else acc_z1 m in
  let ac := (a_z1 * diff_a Ts + diff_b Ts * (input_torque / mass))%D in
  let v := (velocity_z1 m * diff_a Ts + diff_b Ts * (position - z1) + ac)%D in
  (mkDiffMotor v position ac ac, v).

Definition Differentiate_w_obs (position mass input_torque : list double) (d : Differentiator)
    : Differentiator * list double :=
  let r := zip_with (fun '(p, (ma, t)) m => differentiate_motor_w_obs (df_Ts d) p ma t m)
             (zip position (zip mass input_torque)) (df_motors d) in
  (mkDifferentiator (df_Ts d) (map fst r), map snd r).

(** ** Lemmas *)

Lemma length_arm_motor_to_joint m : length (arm_motor_to_joint m) = length m.
Proof. apply length_map. Qed.

Lemma length_gripper_motor_to_joint m : length (gripper_motor_to_joint m) = length m.
Proof. apply length_map. Qed.

Lemma length_arm_joint_to_motor m : length (arm_joint_to_motor m) = length m.
Proof. apply length_map. Qed.

Lemma length_gripper_joint_to_motor m : length (gripper_joint_to_motor m) = length m.
Proof. apply length_map. Qed.

Lemma arm_round_trip j : arm_motor_to_joint (arm_joint_to_motor j) = j.
Proof.
  unfold arm_motor_to_joint, arm_joint_to_motor. rewrite map_map. rewrite <- (map_id j) at 2.
  apply map_ext. by intros [].
Qed.

#[export] Hint Rewrite length_arm_motor_to_joint length_gripper_motor_to_joint
  length_arm_joint_to_motor length_gripper_joint_to_motor : teleop.

(** Setting and reading back the references of both components. References
    set for arm and hand together are split at the arm size and read back
    unchanged, and leave the responses alone; a vector of any other length is
    rejected with an exception. The same holds for the responses, for which the
    sizes are kept. *)
Lemma robot_system_set_get (s : RobotSystemState) (l : list JointState) :
  (length l = get_total_joint_count s ->
   (exists s', set_all_references l s = Ok s' /\ get_all_references s' = l /\
      get_all_responses s' = get_all_responses s /\
      length (rs_reference (arm_state s')) = get_size (arm_state s)) /\
   (exists s', set_all_responses l s = Ok s' /\ get_all_responses s' = l /\
      get_all_references s' = get_all_references s /\
      get_size (arm_state s') = get_size (arm_state s) /\
      get_size (hand_state s') = get_size (hand_state s))) /\
  (length l <> get_total_joint_count s ->
   set_all_references l s = Throw "set_all_references: size mismatch." /\
   set_all_responses l s = Throw "set_all_responses: size mismatch.").
Proof.
  unfold set_all_references, set_all_responses, get_total_joint_count. split; intros Hl.
  - rewrite !decide_True by done. split; eexists; (split; [done|]); simpl.
    + unfold get_all_references, get_all_responses; simpl. rewrite take_drop. split_and!; try done.
      rewrite length_take. lia.
    + unfold get_all_references, get_all_responses, get_size in *; simpl. rewrite take_drop.
      split_and!; try done; [rewrite length_take|rewrite length_drop]; lia.
  - by rewrite !decide_False.
Qed.
