(* ===== verification/Dynamics.v ===== *)
(** * Dynamics: the wrapper around the rigid-body solver

    [src/src/controller/dynamics.cpp]. The URDF parser and the KDL solvers are
    third-party code and stay parameters (a record of functions with the vector
    length they document); modelled is how the wrapper copies C arrays into and
    out of them, and that it runs past an array shorter than the chain. *)

From S2P Require Import Prelude Float64.

Open Scope Z_scope.

(** ** The solver *)

Record Dynamics := mkDynamics {
  njoints : nat;                                         (* kdl_chain.getNrOfJoints() *)
  JntToGravity : list double -> list double;
  JntToCoriolis : list double -> list double -> list double;
  JntToMass : list double -> nat -> nat -> double;
  JntToJac : list double -> nat -> nat -> double;
  getNrOfSegments : nat;
  (* forward kinematics up to a segment: rotation and position, or failure *)
  JntToCart : list double -> nat -> option (list (list double) * list double);
  JntToGravity_length q : length (JntToGravity q) = njoints;
  JntToCoriolis_length q qd : length (JntToCoriolis q qd) = njoints;
}.

(** ** Start-up *)

(** What [Init] needs from the file system and the parsers. *)
Record InitEnv := mkInitEnv {
  ie_read : string -> option string;                     (* file contents *)
  ie_parse_urdf : string -> bool;
  ie_tree : string -> bool;
  ie_chain : string -> string -> string -> option Dynamics;
}.

Definition Dynamics_Init (env : InitEnv) (urdf_path start_link end_link : string) : option Dynamics :=
  match ie_read env urdf_path with
  | None => None
  | Some text =>
      if negb (ie_parse_urdf env text) then None
      else if negb (ie_tree env text) then None
      else ie_chain env text start_link end_link
  end.

(** ** Array copies *)

(** [q_(i) = array[i]] for the chain's joints. *)
Definition read_joints (n : nat) (a : list double) : outcome (list double) :=
  if decide (n <= length a)%nat then Ok (take n a) else Undef.

(** [array[i] = v(i)] for the chain's joints; the rest of the array is kept. *)
Definition write_joints (v a : list double) : outcome (list double) :=
  if decide (length v <= length a)%nat then Ok (v ++ drop (length v) a) else Undef.

Definition GetGravity (d : Dynamics) (motor_position gravity : list double) : outcome (list double) :=
  q ← read_joints (njoints d) motor_position;
  write_joints (JntToGravity d q) gravity.

Definition GetCoriolis (d : Dynamics) (motor_position motor_velocity coriolis : list double)
    : outcome (list double) :=
  q ← read_joints (njoints d) motor_position;
  qd ← read_joints (njoints d) motor_velocity;
  write_joints (JntToCoriolis d q qd) coriolis.

Definition GetMassMatrixDiagonal (d : Dynamics) (motor_position inertia_diag : list double)
    : outcome (list double) :=
  q ← read_joints (njoints d) motor_position;
  write_joints (map (fun i => JntToMass d q i i) (seq 0 (njoints d))) inertia_diag.

(** The 6 x n matrix, by rows. *)
Definition GetJacobian (d : Dynamics) (motor_position : list double) : outcome (list (list double)) :=
  q ← read_joints (njoints d) motor_position;
  Ok (map (fun i => map (fun j => JntToJac d q i j) (seq 0 (njoints d))) (seq 0 6)).

(** *** Null space and end-effector frame *)

Definition Matrix : Type := list (list double).

(** The operations of the linear-algebra library the code composes. *)
Record EigenOps := mkEigen {
  m_transpose : Matrix -> Matrix;
  m_mul : Matrix -> Matrix -> Matrix;
  m_inverse : Matrix -> Matrix;
  m_identity : nat -> Matrix;
  m_sub : Matrix -> Matrix -> Matrix;
}.

(** The branch taken: [use_stable_svd] is the constant [false]. *)
Definition GetNullSpace (e : EigenOps) (d : Dynamics) (motor_position : list double) : outcome Matrix :=
  J ← GetJacobian d motor_position;
  let J_pinv := m_mul e (m_transpose e J) (m_inverse e (m_mul e J (m_transpose e J))) in
  Ok (m_sub e (m_identity e (njoints d)) (m_mul e J_pinv J)).

Definition GetNullSpaceTauSpace (e : EigenOps) (d : Dynamics) (motor_position : list double)
    : outcome Matrix :=
  J ← GetJacobian d motor_position;
  let J_pinv := m_mul e (m_transpose e J) (m_inverse e (m_mul e J (m_transpose e J))) in
  let N := m_sub e (m_identity e (njoints d)) (m_mul e J_pinv J) in
  Ok (m_transpose e N).

(** A failed solve leaves the output arguments as they were. *)
Definition GetEECordinate (d : Dynamics) (motor_position : list double) (Rp : Matrix * list double)
    : outcome (Matrix * list double) :=
  q ← read_joints (njoints d) motor_position;
  Ok (default Rp (JntToCart d q (getNrOfSegments d))).

Definition GetPreEECordinate (d : Dynamics) (motor_position : list double) (Rp : Matrix * list double)
    : outcome (Matrix * list double) :=
  q ← read_joints (njoints d) motor_position;
  Ok (default Rp (JntToCart d q (getNrOfSegments d - 1))).

(** ** Lemmas *)

Lemma read_joints_ok n a : (n <= length a)%nat -> read_joints n a = Ok (take n a).
Proof. intros Hn. unfold read_joints. by rewrite decide_True. Qed.

Lemma GetGravity_ok d q g :
  (njoints d <= length q)%nat -> (njoints d <= length g)%nat ->
  exists g', GetGravity d q g = Ok g' /\ length g' = length g /\
    g' = JntToGravity d (take (njoints d) q) ++ drop (njoints d) g.
Proof.
  intros Hq Hg. unfold GetGravity. rewrite read_joints_ok by done. simpl. unfold write_joints.
  rewrite JntToGravity_length, decide_True by done. eexists. split; [done|]. split; [|done].
  rewrite length_app, length_drop, JntToGravity_length. lia.
Qed.

Lemma GetCoriolis_ok d q qd c :
  (njoints d <= length q)%nat -> (njoints d <= length qd)%nat -> (njoints d <= length c)%nat ->
  exists c', GetCoriolis d q qd c = Ok c' /\ length c' = length c /\
    c' = JntToCoriolis d (take (njoints d) q) (take (njoints d) qd) ++ drop (njoints d) c.
Proof.
  intros Hq Hqd Hc. unfold GetCoriolis. rewrite !read_joints_ok by done. simpl. unfold write_joints.
  rewrite JntToCoriolis_length, decide_True by done. eexists. split; [done|]. split; [|done].
  rewrite length_app, length_drop, JntToCoriolis_length. lia.
Qed.
