(* ===== verification/Control.v ===== *)
(** * Control: one arm's control cycles

    [src/src/controller/control.cpp]: the leader cycle (gravity and friction
    compensation plus the clamped bilateral force), the follower cycle, the
    older symmetric bilateral cycle, pose interpolation and vibration detection.
    The motors are lists of readings taken at the start of a cycle; a cycle
    returns the commands it sends. [std::tanh] is a parameter, as its last bit is
    implementation-defined. *)

From S2P Require Import Prelude Float64 Float64Ops Float64Order Float64Facts Dynamics RobotState.

Open Scope Z_scope.

(** ** Data *)

(** Command of one motor: stiffness, damping, position, velocity, torque. *)
Record MITParam := mkMIT { kp : double; kd : double; q_ref : double; dq_ref : double; tau : double }.

Record LeaderBilateralCommand := mkLeaderCommand {
  arm_pos_ref : list double;
  hand_pos_ref : list double;
  arm_tau_f : list double;
  hand_tau_f : list double;
  bc_scale : double;
}.

(** The motor readings of the two buses. *)
Record Motors := mkMotors { arm_motors : list MotorState; gripper_motors : list MotorState }.

Record Control := mkControl {
  ct_Ts : double;
  ct_role : Role;
  ct_robot_state : RobotSystemState;
  ct_dynamics_f : option Dynamics;
  ct_dynamics_l : option Dynamics;
  Kp_ : list double; Kd_ : list double;
  Fc_ : list double; k_ : list double; Fv_ : list double; Fo_ : list double;
  gscale_ : list double; goffset_ : list double;
  effort_limit_ : list double;
  bkp_ : list double; bkd_ : list double; bkf_ : list double;
  follower_gravity_ff_ : bool;
  follower_gravity_ff_scale_ : double;
  velocity_buffer_ : list (list double);
}.

(** ** Configuration *)

(** [effort_limit_] after the defaults and one pass over the given limits. *)
Definition effort_default : list double := set_nth (NMOTORS - 1) (d_of_Z 2) effort_limit_L.

Definition effort_limits (limits : list double) : list double :=
  imap (fun i def =>
          match limits !! i with
          | Some l => if isfinite l && (l >? d0)%D then l else def
          | None => def
          end) effort_default.

Definition SetEffortLimits (limits : list double) (c : Control) : Control :=
  mkControl (ct_Ts c) (ct_role c) (ct_robot_state c) (ct_dynamics_f c) (ct_dynamics_l c)
    (Kp_ c) (Kd_ c) (Fc_ c) (k_ c) (Fv_ c) (Fo_ c) (gscale_ c) (goffset_ c)
    (effort_limits limits) (bkp_ c) (bkd_ c) (bkf_ c)
    (follower_gravity_ff_ c) (follower_gravity_ff_scale_ c) (velocity_buffer_ c).

(** The constructor: [dynamics_l] comes before [dynamics_f]. *)
Definition control_new (dynamics_l dynamics_f : option Dynamics) (robot_state : RobotSystemState)
    (Ts : double) (role : Role) : Control :=
  SetEffortLimits []
    (mkControl Ts role robot_state dynamics_f dynamics_l [] [] [] [] [] [] [] [] [] [] [] []
       false d1 (replicate NJOINTS [])).

Definition SetParameter (Kp Kd Fc k Fv Fo : list double) (c : Control) : Control :=
  mkControl (ct_Ts c) (ct_role c) (ct_robot_state c) (ct_dynamics_f c) (ct_dynamics_l c)
    Kp Kd Fc k Fv Fo (gscale_ c) (goffset_ c) (effort_limit_ c) (bkp_ c) (bkd_ c) (bkf_ c)
    (follower_gravity_ff_ c) (follower_gravity_ff_scale_ c) (velocity_buffer_ c).

Definition SetGravityTrim (scale offset : list double) (c : Control) : Control :=
  mkControl (ct_Ts c) (ct_role c) (ct_robot_state c) (ct_dynamics_f c) (ct_dynamics_l c)
    (Kp_ c) (Kd_ c) (Fc_ c) (k_ c) (Fv_ c) (Fo_ c) scale offset (effort_limit_ c)
    (bkp_ c) (bkd_ c) (bkf_ c)
    (follower_gravity_ff_ c) (follower_gravity_ff_scale_ c) (velocity_buffer_ c).

Definition SetBilateralGains (Kp Kd Kf : list double) (c : Control) : Control :=
  mkControl (ct_Ts c) (ct_role c) (ct_robot_state c) (ct_dynamics_f c) (ct_dynamics_l c)
    (Kp_ c) (Kd_ c) (Fc_ c) (k_ c) (Fv_ c) (Fo_ c) (gscale_ c) (goffset_ c) (effort_limit_ c)
    Kp Kd Kf (follower_gravity_ff_ c) (follower_gravity_ff_scale_ c) (velocity_buffer_ c).

Definition SetFollowerGravityFeedforward (enabled : bool) (scale : double) (c : Control) : Control :=
  mkControl (ct_Ts c) (ct_role c) (ct_robot_state c) (ct_dynamics_f c) (ct_dynamics_l c)
    (Kp_ c) (Kd_ c) (Fc_ c) (k_ c) (Fv_ c) (Fo_ c) (gscale_ c) (goffset_ c) (effort_limit_ c)
    (bkp_ c) (bkd_ c) (bkf_ c) enabled scale (velocity_buffer_ c).

Definition with_robot_state (s : RobotSystemState) (c : Control) : Control :=
  mkControl (ct_Ts c) (ct_role c) s (ct_dynamics_f c) (ct_dynamics_l c)
    (Kp_ c) (Kd_ c) (Fc_ c) (k_ c) (Fv_ c) (Fo_ c) (gscale_ c) (goffset_ c) (effort_limit_ c)
    (bkp_ c) (bkd_ c) (bkf_ c)
    (follower_gravity_ff_ c) (follower_gravity_ff_scale_ c) (velocity_buffer_ c).

(** Access to the state of one component. *)
Definition on_arm (f : RobotState -> RobotState) (c : Control) : Control :=
  with_robot_state (mkRobotSystem (f (arm_state (ct_robot_state c))) (hand_state (ct_robot_state c))) c.

Definition on_hand (f : RobotState -> RobotState) (c : Control) : Control :=
  with_robot_state (mkRobotSystem (arm_state (ct_robot_state c)) (f (hand_state (ct_robot_state c)))) c.

(** [set_all_responses] of both components with the converted motor states. *)
Definition with_responses (m : Motors) (c : Control) : Control :=
  with_robot_state
    (mkRobotSystem
       (set_responses (arm_motor_to_joint (arm_motors m)) (arm_state (ct_robot_state c)))
       (set_responses (gripper_motor_to_joint (gripper_motors m)) (hand_state (ct_robot_state c)))) c.

(** ** Torque building blocks *)

Definition ClampLeaderEffort (c : Control) (index : nat) (tau : double) : double :=
  if negb (isfinite tau) then d0
  else
    let lim := default d0 (effort_limit_ c !! index) in
    dmax (- lim)%D (dmin lim tau).

Section control.
Context (tanh : double -> double).

(** The [TANHFRIC] branch, which the build selects: friction of one joint. *)
Definition ComputeFriction (c : Control) (velocity : list double) (index : nat) : outcome double :=
  v ← vget velocity index;
  Fc ← vat (Fc_ c) index;
  k ← vat (k_ c) index;
  Fv ← vat (Fv_ c) index;
  Fo ← vat (Fo_ c) index;
  Ok (d1 * Fc * tanh (dlit 1 1 * k * v) + Fv * v + Fo)%D.

(** Arm and gripper velocities are concatenated first. *)
Definition ComputeAllFriction (c : Control) (arm_velocity gripper_velocity : list double)
    : outcome (list double) :=
  let velocity := arm_velocity ++ gripper_velocity in
  for_n (length velocity) (ComputeFriction c velocity).

(** ** The leader cycle *)

(** [bilateral]: whether the command adds force at all. *)
Definition bilateral_active (c : Control) (cmd : option LeaderBilateralCommand) (arm_dof gripper_dof : nat)
    : option LeaderBilateralCommand :=
  match cmd with
  | Some b =>
      if (bc_scale b >? d0)%D && bool_decide (arm_dof + gripper_dof <= length (bkp_ c))%nat
         && bool_decide (arm_dof + gripper_dof <= length (bkd_ c))%nat
         && bool_decide (arm_dof <= length (arm_pos_ref b))%nat
         && bool_decide (gripper_dof <= length (hand_pos_ref b))%nat
      then Some b else None
  | None => None
  end.

(** [use_kf]. *)
Definition force_channel (c : Control) (b : LeaderBilateralCommand) (arm_dof gripper_dof : nat) : bool :=
  bool_decide (arm_dof + gripper_dof <= length (bkf_ c))%nat
  && bool_decide (arm_dof <= length (arm_tau_f b))%nat.

Definition clamped_scale (b : LeaderBilateralCommand) : double := dmax d0 (dmin d1 (bc_scale b)).

(** [tau_b] of arm joint [i]. *)
Definition arm_tau_b (c : Control) (b : option LeaderBilateralCommand) (use_kf : bool)
    (gravity_ref pos vel : list double) (i : nat) : outcome double :=
  match b with
  | None => Ok d0
  | Some b =>
      bkp ← vget (bkp_ c) i; bkd ← vget (bkd_ c) i;
      r ← vget (arm_pos_ref b) i; p ← vget pos i; v ← vget vel i;
      let t := (bkp * (r - p) - bkd * v)%D in
      t ← (if use_kf then
             bkf ← vget (bkf_ c) i; f ← vget (arm_tau_f b) i; g ← vget gravity_ref i;
             Ok (t - bkf * (f - g))%D
           else Ok t);
      Ok (t * clamped_scale b)%D
  end.

(** [tau_b] of gripper [i], in motor space. *)
Definition gripper_tau_b (c : Control) (b : option LeaderBilateralCommand) (use_kf : bool)
    (arm_dof : nat) (gripper : list MotorState) (i : nat) : outcome double :=
  match b with
  | None => Ok d0
  | Some b =>
      r ← vget (hand_pos_ref b) i;
      let ref_joint := [mkJointState r d0 d0] in
      ref_motor ← vget (gripper_joint_to_motor ref_joint) 0;
      bkp ← vget (bkp_ c) (arm_dof + i); m ← vget gripper i; bkd ← vget (bkd_ c) (arm_dof + i);
      let t := (bkp * (ms_position ref_motor - ms_position m) - bkd * ms_velocity m)%D in
      t ← (if use_kf && bool_decide (i < length (hand_tau_f b))%nat then
             bkf ← vget (bkf_ c) (arm_dof + i); f ← vget (hand_tau_f b) i;
             Ok (t - bkf * f)%D
           else Ok t);
      Ok (t * clamped_scale b)%D
  end.

(** The torques of one cycle, arm and gripper, from the stored responses. *)
Definition leader_torques (c : Control) (cmd : option LeaderBilateralCommand) (m : Motors)
    : outcome (list double * list double) :=
  let arm := rs_response (arm_state (ct_robot_state c)) in
  let hand := rs_response (hand_state (ct_robot_state c)) in
  let arm_dof := length arm in
  let gripper_dof := length hand in
  let pos := map js_position arm in
  let vel := map js_velocity arm in
  let gvel := map js_velocity hand in
  let b := bilateral_active c cmd arm_dof gripper_dof in
  let use_kf := match b with Some b => force_channel c b arm_dof gripper_dof | None => false end in
  let zeros := replicate arm_dof d0 in
  gravity_ref ←
    match b with
    | Some b => if use_kf then d ← deref (ct_dynamics_l c); GetGravity d (arm_pos_ref b) zeros else Ok zeros
    | None => Ok zeros
    end;
  d ← deref (ct_dynamics_l c);
  gravity ← GetGravity d pos zeros;
  coriolis ← GetCoriolis d pos vel zeros;
  friction ← ComputeAllFriction c vel gvel;
  arm_tau ← for_n arm_dof (fun i =>
    g ← vget gravity i; f ← vget friction i; co ← vget coriolis i;
    let gs := default d1 (gscale_ c !! i) in
    let go := default d0 (goffset_ c !! i) in
    let grav_cmd := (g * gs + go)%D in
    tb ← arm_tau_b c b use_kf gravity_ref pos vel i;
    Ok (ClampLeaderEffort c i (grav_cmd + f * dlit 3 1 + co * dlit 1 1 + tb)%D));
  gripper_tau ← for_n gripper_dof (fun i =>
    f ← vget friction (arm_dof + i);
    tb ← gripper_tau_b c b use_kf arm_dof (gripper_motors m) i;
    Ok (ClampLeaderEffort c (arm_dof + i) (f * dlit 3 1 + tb)%D));
  Ok (arm_tau, gripper_tau).

Definition torque_cmd (t : double) : MITParam := mkMIT d0 d0 d0 d0 t.

(** Commands sent to the arm and to the gripper. *)
Definition Commands : Type := (list MITParam * list MITParam)%type.

(** The responses are stored first, whatever happens afterwards. *)
Definition leader_step (cmd : option LeaderBilateralCommand) (m : Motors) (c : Control)
    : Control * outcome Commands :=
  let c := with_responses m c in
  (c, '(a, g) ← leader_torques c cmd m; Ok (map torque_cmd a, map torque_cmd g)).

(** ** The follower cycle *)

Definition follower_ff (c : Control) (pos : list double) (arm_dof : nat) : outcome (list double) :=
  match follower_gravity_ff_ c, ct_dynamics_f c with
  | true, Some d =>
      gravity ← GetGravity d pos (replicate arm_dof d0);
      for_n arm_dof (fun i =>
        g ← vget gravity i;
        let g := (g * follower_gravity_ff_scale_ c)%D in
        let g := if negb (isfinite g) then d0 else g in
        let lim := if decide (i < NMOTORS)%nat then default d0 (effort_limit_F !! i) else d0 in
        Ok (dmax (- lim)%D (dmin lim g)))
  | _, _ => Ok (replicate arm_dof d0)
  end.

Definition follower_commands (c : Control) (arm_dof : nat) (ff : list double) : outcome Commands :=
  let arm_refs := arm_joint_to_motor (rs_reference (arm_state (ct_robot_state c))) in
  let hand_refs := gripper_joint_to_motor (rs_reference (hand_state (ct_robot_state c))) in
  arm_cmds ← for_n (length arm_refs) (fun i =>
    p ← vget (Kp_ c) i; d ← vget (Kd_ c) i; r ← vget arm_refs i;
    Ok (mkMIT p d (ms_position r) (ms_velocity r) (default d0 (ff !! i))));
  hand_cmds ← for_n (length hand_refs) (fun i =>
    p ← vget (Kp_ c) (i + arm_dof); d ← vget (Kd_ c) (i + arm_dof); r ← vget hand_refs i;
    Ok (mkMIT p d (ms_position r) (ms_velocity r) d0));
  Ok (arm_cmds, hand_cmds).

Definition unilateral_step (m : Motors) (c : Control) : Control * outcome Commands :=
  let c := with_responses m c in
  match ct_role c with
  | ROLE_LEADER => leader_step None m c
  | ROLE_FOLLOWER =>
      let arm := rs_response (arm_state (ct_robot_state c)) in
      let arm_dof := length arm in
      (c, ff ← follower_ff c (map js_position arm) arm_dof; follower_commands c arm_dof ff)
  end.

(** ** The symmetric bilateral cycle *)

Definition bilateral_step (m : Motors) (c : Control) : Control * outcome Commands :=
  let c := with_responses m c in
  let arm := rs_response (arm_state (ct_robot_state c)) in
  let hand := rs_response (hand_state (ct_robot_state c)) in
  let arm_dof := length arm in
  let gripper_dof := length hand in
  let pos := map js_position arm in
  let vel := map js_velocity arm in
  let gvel := map js_velocity hand in
  let zeros := replicate arm_dof d0 in
  let arm_ref := rs_reference (arm_state (ct_robot_state c)) in
  let hand_ref := rs_reference (hand_state (ct_robot_state c)) in
  (c,
   _ ← for_n arm_dof (fun i => vget arm_ref i);
   d ← deref (match ct_role c with ROLE_LEADER => ct_dynamics_l c | ROLE_FOLLOWER => ct_dynamics_f c end);
   gravity ← GetGravity d pos zeros;
   coriolis ← GetCoriolis d pos vel zeros;
   friction ← ComputeAllFriction c vel gvel;
   arm_ref' ← for_n (length arm_ref) (fun i =>
     r ← vget arm_ref i;
     if decide (i < arm_dof)%nat then
       g ← vget gravity i; f ← vget friction i;
       Ok (mkJointState (js_position r) (js_velocity r) (g + f)%D)
     else Ok r);
   _ ← for_n gripper_dof (fun i => vget hand_ref i);
   hand_ref' ← for_n (length hand_ref) (fun i =>
     r ← vget hand_ref i;
     if decide (i < gripper_dof)%nat then
       f ← vget friction (i + arm_dof);
       Ok (mkJointState (js_position r) (js_velocity r) f)
     else Ok r);
   let motor_arm := arm_joint_to_motor arm_ref' in
   let motor_gripper := gripper_joint_to_motor hand_ref' in
   arm_cmds ← for_n arm_dof (fun i =>
     p ← vget (Kp_ c) i; dd ← vget (Kd_ c) i; r ← vget motor_arm i;
     Ok (mkMIT p dd (ms_position r) (ms_velocity r) (ms_effort r)));
   gripper_cmds ← for_n gripper_dof (fun i =>
     p ← vget (Kp_ c) (i + arm_dof); dd ← vget (Kd_ c) (i + arm_dof); r ← vget motor_gripper i;
     Ok (mkMIT p dd (ms_position r) (ms_velocity r) (ms_effort r)));
   Ok (arm_cmds, gripper_cmds)).
End control.

(** ** Moving to a pose *)

Definition nstep : nat := 220.
Definition kp_arm_temp : list double := map d_of_Z [50; 50; 50; 50; 10; 10; 10].
Definition kd_arm_temp : list double :=
  [dlit 12 1; dlit 12 1; dlit 12 1; dlit 12 1; dlit 3 1; dlit 2 1; dlit 3 1].
Definition kp_hand_temp : list double := [d_of_Z 10].
Definition kd_hand_temp : list double := [dlit 5 1].

(** Readings with the effort field zero, as [MoveToPose] takes them. *)
Definition without_effort (l : list MotorState) : list MotorState :=
  map (fun s => mkMotorState (ms_position s) (ms_velocity s) d0) l.

Definition arm_goal (target_arm : list double) : list double :=
  map (fun i => default (nth i INITIAL_POSITION d0) (target_arm !! i)) (seq 0 (NMOTORS - 1)).

Definition hand_goal (target_gripper : list double) (n : nat) : list double :=
  map (fun i => default d0 (target_gripper !! i)) (seq 0 n).

Definition interpolate (alpha goal now : double) : double := (goal * alpha + now * (d1 - alpha))%D.

Definition move_alpha (step : nat) : double := (d_of_Z (Z.of_nat step + 1) / d_of_Z (Z.of_nat nstep))%D.

(** The commands of one step, towards goals and from the initial readings. *)
Definition move_commands (agoal hgoal : list double) (arm_now hand_now : list JointState) (step : nat)
    : outcome Commands :=
  let alpha := move_alpha step in
  arm_interp ← for_n (NMOTORS - 1) (fun i =>
    g ← vget agoal i; n ← vget arm_now i;
    Ok (mkJointState (interpolate alpha g (js_position n)) d0 d0));
  hand_interp ← for_n (length hgoal) (fun i =>
    g ← vget hgoal i; n ← vget hand_now i;
    Ok (mkJointState (interpolate alpha g (js_position n)) d0 d0));
  let arm_refs := arm_joint_to_motor arm_interp in
  let hand_refs := gripper_joint_to_motor hand_interp in
  arm_cmds ← for_n (length arm_refs) (fun i =>
    p ← vget kp_arm_temp i; d ← vget kd_arm_temp i; r ← vget arm_refs i;
    Ok (mkMIT p d (ms_position r) (ms_velocity r) d0));
  hand_cmds ← for_n (length hand_refs) (fun i =>
    p ← vget kp_hand_temp i; d ← vget kd_hand_temp i; r ← vget hand_refs i;
    Ok (mkMIT p d (ms_position r) (ms_velocity r) d0));
  Ok (arm_cmds, hand_cmds).

(** [reading k] is what the motors report before step [k] (0: at the start); the
    last one is read again for the final state. A step sends its commands, waits
    and stores the new readings as responses: the result lists the commands of
    every step with the robot state other threads see after it. *)
Definition MoveToPose (target_arm target_gripper : list double) (reading : nat -> Motors) (c : Control)
    : outcome (list (Commands * RobotSystemState) * Control) :=
  let at_k k := mkMotors (without_effort (arm_motors (reading k))) (without_effort (gripper_motors (reading k))) in
  let arm_now := arm_motor_to_joint (arm_motors (at_k 0%nat)) in
  let hand_now := gripper_motor_to_joint (gripper_motors (at_k 0%nat)) in
  let agoal := arm_goal target_arm in
  let hgoal := hand_goal target_gripper (length hand_now) in
  steps ← for_n nstep (fun step =>
    cmds ← move_commands agoal hgoal arm_now hand_now step;
    Ok (cmds, ct_robot_state (with_responses (at_k (S step)) c)));
  let fin := at_k nstep in
  let arm_final := arm_motor_to_joint (arm_motors fin) in
  let hand_final := gripper_motor_to_joint (gripper_motors fin) in
  Ok (steps, with_robot_state
               (mkRobotSystem (mkRobotState arm_final arm_final) (mkRobotState hand_final hand_final)) c).

Definition AdjustPosition (reading : nat -> Motors) (c : Control)
    : outcome (list (Commands * RobotSystemState) * Control) :=
  MoveToPose (take (NMOTORS - 1) INITIAL_POSITION) [d0] reading c.

(** ** Vibration detection *)

Definition VEL_WINDOW_SIZE : nat := 10.
Definition VIB_THRESHOLD : double := dlit 7 1.

Definition push_velocity (v : double) (buf : list double) : list double :=
  let buf := buf ++ [v] in
  if decide (VEL_WINDOW_SIZE < length buf)%nat then tail buf else buf.

Definition buffer_stddev (buf : list double) : double :=
  let n := d_of_Z (Z.of_nat (length buf)) in
  let mean := (fold_left dadd buf d0 / n)%D in
  let var := fold_left (fun a v => a + (v - mean) * (v - mean))%D buf d0 in
  dsqrt (var / n)%D.

Definition joint_vibrates (buf : list double) : bool :=
  if decide (length buf < VEL_WINDOW_SIZE)%nat then false
  else (buffer_stddev buf >? VIB_THRESHOLD)%D.

(** The new buffers and [what_axis]; the result is whether any joint vibrates. *)
Definition DetectVibration (velocity : list double) (buffers : list (list double))
    : list (list double) * list bool * bool :=
  let buffers := zip_with push_velocity velocity buffers in
  let what_axis := map joint_vibrates buffers in
  (buffers, what_axis, existsb id what_axis).
