(* ===== verification/ControlFacts.v ===== *)
(** * Facts about the control cycles

    The theorems about [Control]: every leader torque is clamped whatever the
    inputs, the cycle never reads out of range, an inactive command is plain
    gravity compensation, what the follower sends, and how pose moves end. *)

From Stdlib Require Import SpecFloat.
From S2P Require Import Prelude Float64 Float64Round Float64Ops Float64Arith Float64Order Float64Facts.
From S2P Require Import Dynamics RobotState Control.

Open Scope Z_scope.

(** ** Clamping *)

(** [x] is within [-lim, lim], as the code compares. *)
Definition within (lim x : double) : Prop :=
  isfinite x = true /\ dleb (- lim)%D x = true /\ dleb x lim = true.

Lemma within_self lim : fnn lim -> within lim lim /\ within lim (- lim)%D.
Proof.
  intros [(V & N & S) F]. pose proof (nonneg_scaled lim ltac:(by split_and!)) as [_ P].
  destruct (dopp_props lim V) as (Vo & Fo & No & So). rewrite F in Fo. rewrite N in No.
  unfold within. rewrite !dleb_scaled, !Z.leb_le by done. split_and!; (done || lia).
Qed.

(** The clamp needs no assumption on the clamped value. *)
Lemma clamp_within lim x : fnn lim -> isfinite x = true -> within lim (dmax (- lim)%D (dmin lim x)).
Proof.
  intros Hl Fx. destruct (within_self lim Hl) as [H1 H2]. unfold dmin, dmax.
  destruct (dltb x lim) eqn:E1.
  - destruct (dltb (- lim)%D x) eqn:E2; [|done]. split_and!; [done|by apply dltb_dleb..].
  - by destruct (dltb (- lim)%D lim).
Qed.

Lemma within_zero lim : fnn lim -> within lim d0.
Proof.
  intros Hl. pose proof Hl as [(V & N & S) F]. pose proof (nonneg_scaled lim (proj1 Hl)) as [_ P].
  destruct (dopp_props lim V) as (Vo & Fo & No & So). rewrite F in Fo. rewrite N in No.
  unfold within. rewrite !dleb_scaled, !Z.leb_le by done. change (scaled d0) with 0. split_and!; (done || lia).
Qed.

(** The limit of index [i]; indices beyond the vector have limit 0. *)
Definition leader_limit (c : Control) (i : nat) : double := default d0 (effort_limit_ c !! i).

Definition limits_ok (c : Control) : Prop := Forall fnn (effort_limit_ c).

Lemma leader_limit_fnn c i : limits_ok c -> fnn (leader_limit c i).
Proof.
  intros Hl. unfold leader_limit. destruct (effort_limit_ c !! i) as [l|] eqn:E; [|done].
  unfold limits_ok in Hl. rewrite Forall_lookup in Hl. by eapply Hl.
Qed.

Lemma ClampLeaderEffort_within c i t : limits_ok c -> within (leader_limit c i) (ClampLeaderEffort c i t).
Proof.
  intros Hl. pose proof (leader_limit_fnn c i Hl) as Hf. unfold ClampLeaderEffort.
  destruct (isfinite t) eqn:F; simpl; [|by apply within_zero]. by apply clamp_within.
Qed.

(** ** Effort limits *)

Lemma effort_default_ok : Forall (fun l => fnn l /\ dltb d0 l = true) effort_default.
Proof. vm_compute. repeat constructor. Qed.

(** Effort limits can be lowered or raised but never disabled. Whatever
    vector is configured (too short, too long, with zero, negative, infinite or
    NaN entries), there are exactly eight limits afterwards, each a finite
    positive number, namely the configured entry if it is one and the default
    otherwise. *)
Lemma effort_limits_positive (limits : list double) (c : Control) :
  Forall valid limits ->
  length (effort_limit_ (SetEffortLimits limits c)) = 8%nat /\
  Forall (fun l => fnn l /\ dltb d0 l = true) (effort_limit_ (SetEffortLimits limits c)) /\
  forall i l, (i < 8)%nat -> limits !! i = Some l -> isfinite l = true -> dltb d0 l = true ->
    effort_limit_ (SetEffortLimits limits c) !! i = Some l.
Proof.
  intros Hv. change (effort_limit_ (SetEffortLimits limits c)) with (effort_limits limits).
  unfold effort_limits. split; [by rewrite length_imap|]. split.
  - apply Forall_lookup. intros i l. rewrite list_lookup_imap. intros He.
    apply fmap_Some in He as (def & Hd & ->). pose proof effort_default_ok as Hok.
    rewrite Forall_lookup in Hok. destruct (limits !! i) as [l|] eqn:El; [|by apply (Hok i)].
    destruct (isfinite l) eqn:F; simpl; [|by apply (Hok i)].
    destruct (l >? d0)%D eqn:P; [|by apply (Hok i)].
    split; [|done]. rewrite Forall_lookup in Hv. specialize (Hv _ _ El).
    destruct (dltb_true_not_nan _ _ P) as [_ N]. rewrite dltb_scaled, Z.ltb_lt in P by done.
    split; [|done]. split_and!; [done|done|by apply pos_sign].
  - intros i l Hi Hl F P. rewrite list_lookup_imap. rewrite Hl, F, P.
    assert (exists d, effort_default !! i = Some d) as [d ->].
    { apply lookup_lt_is_Some_2. exact Hi. }
    done.
Qed.

(** A leader arm with seven joints and one gripper and no dynamics. *)
Definition bare_leader : Control :=
  control_new None None (robot_system_new 7 1) (dlit 2 3) ROLE_LEADER.

Lemma effort_limits_positive_witness :
  length (effort_limit_ (SetEffortLimits [d_of_Z 5; S754_nan; S754_zero true] bare_leader)) = 8%nat.
Proof.
  apply (effort_limits_positive [d_of_Z 5; S754_nan; S754_zero true] bare_leader).
  repeat constructor.
Defined.

(** ** The leader cycle *)

Section leader.
Context (tanh : double -> double).

Lemma leader_torques_within c cmd m a g :
  limits_ok c -> leader_torques tanh c cmd m = Ok (a, g) ->
  length a = length (rs_response (arm_state (ct_robot_state c))) /\
  length g = length (rs_response (hand_state (ct_robot_state c))) /\
  (forall i t, a !! i = Some t -> within (leader_limit c i) t) /\
  (forall i t, g !! i = Some t -> within (leader_limit c (length a + i)) t).
Proof.
  intros Hl. unfold leader_torques. cbv zeta. rewrite bind_ok. intros (gr & _ & H).
  rewrite bind_ok in H. destruct H as (d & _ & H). rewrite bind_ok in H. destruct H as (gv & _ & H).
  rewrite bind_ok in H. destruct H as (co & _ & H). rewrite bind_ok in H. destruct H as (fr & _ & H).
  rewrite bind_ok in H. destruct H as (at_ & Ha & H). rewrite bind_ok in H. destruct H as (gt & Hg & H).
  injection H as <- <-. apply for_n_ok in Ha as [La Ha]. apply for_n_ok in Hg as [Lg Hg].
  split_and!; [done|done| |].
  - intros i t Ht. specialize (Ha i t Ht). rewrite bind_ok in Ha. destruct Ha as (x1 & _ & Ha).
    rewrite bind_ok in Ha. destruct Ha as (x2 & _ & Ha). rewrite bind_ok in Ha. destruct Ha as (x3 & _ & Ha).
    rewrite bind_ok in Ha. destruct Ha as (x4 & _ & [= <-]). by apply ClampLeaderEffort_within.
  - intros i t Ht. specialize (Hg i t Ht). rewrite bind_ok in Hg. destruct Hg as (x1 & _ & Hg).
    rewrite bind_ok in Hg. destruct Hg as (x2 & _ & [= <-]). rewrite La. by apply ClampLeaderEffort_within.
Qed.

(** *** No out-of-range access *)

(** The dynamics model fits the arm. *)
Definition dynamics_fit (c : Control) (arm_dof : nat) : Prop :=
  exists d, ct_dynamics_l c = Some d /\ (njoints d <= arm_dof)%nat.

Lemma bilateral_active_some c cmd ad gd b :
  bilateral_active c cmd ad gd = Some b ->
  cmd = Some b /\ (ad + gd <= length (bkp_ c))%nat /\ (ad + gd <= length (bkd_ c))%nat /\
  (ad <= length (arm_pos_ref b))%nat /\ (gd <= length (hand_pos_ref b))%nat.
Proof.
  unfold bilateral_active. destruct cmd as [b'|]; [|done].
  destruct (bc_scale b' >? d0)%D; simpl; [|done].
  repeat case_bool_decide; simpl; try done. intros [= <-]. by split_and!.
Qed.

Lemma force_channel_true c b ad gd :
  force_channel c b ad gd = true -> (ad + gd <= length (bkf_ c))%nat /\ (ad <= length (arm_tau_f b))%nat.
Proof. unfold force_channel. repeat case_bool_decide; by simpl. Qed.

(** Reads in range, one after the other. *)
Ltac read_ok :=
  repeat match goal with
    | |- context [vget ?v ?i] =>
        let x := fresh "x" in let Hx := fresh "Hx" in
        destruct (vget_lt v i) as (x & Hx & _);
        [rewrite ?length_map, ?length_replicate in *; lia|rewrite Hx; cbn [mbind outcome_bind]]
    end.

Lemma arm_tau_b_ok c cmd ad gd gr pos vel i :
  let b := bilateral_active c cmd ad gd in
  let kf := match b with Some b => force_channel c b ad gd | None => false end in
  (i < ad)%nat -> length pos = ad -> length vel = ad -> length gr = ad ->
  exists t, arm_tau_b c b kf gr pos vel i = Ok t.
Proof.
  cbv zeta. intros Hi Hp Hv Hg. destruct (bilateral_active c cmd ad gd) as [b|] eqn:Eb; [|by eexists].
  apply bilateral_active_some in Eb as (_ & H1 & H2 & H3 & H4). unfold arm_tau_b. read_ok.
  destruct (force_channel c b ad gd) eqn:Ek; [|by eexists].
  apply force_channel_true in Ek as [H5 H6]. read_ok. by eexists.
Qed.

Lemma gripper_tau_b_ok c cmd ad gd (gripper : list MotorState) i :
  let b := bilateral_active c cmd ad gd in
  let kf := match b with Some b => force_channel c b ad gd | None => false end in
  (i < gd)%nat -> length gripper = gd -> exists t, gripper_tau_b c b kf ad gripper i = Ok t.
Proof.
  cbv zeta. intros Hi Hg. destruct (bilateral_active c cmd ad gd) as [b|] eqn:Eb; [|by eexists].
  apply bilateral_active_some in Eb as (_ & H1 & H2 & H3 & H4). unfold gripper_tau_b.
  destruct (vget_lt (hand_pos_ref b) i) as (r & Hr & _); [lia|]. rewrite Hr. cbn [mbind outcome_bind].
  destruct (vget_lt (gripper_joint_to_motor [mkJointState r d0 d0]) 0) as (rm & Hrm & _); [simpl; lia|].
  rewrite Hrm. cbn [mbind outcome_bind]. read_ok.
  destruct (force_channel c b ad gd) eqn:Ek; cbn [andb]; [|by eexists].
  apply force_channel_true in Ek as [H5 H6]. case_bool_decide; [|by eexists]. read_ok. by eexists.
Qed.

(** Friction: defined whatever the lengths of the parameter vectors; a value for
    every joint if they are long enough. *)
Lemma friction_defined c av gv : ComputeAllFriction tanh c av gv <> Undef.
Proof.
  unfold ComputeAllFriction. apply for_n_defined. intros i Hi. unfold ComputeFriction.
  destruct (vget_lt (av ++ gv) i Hi) as (v & -> & _). cbn [mbind outcome_bind].
  repeat (apply bind_defined; [apply vat_defined|intros ? _]). done.
Qed.

Definition friction_params (c : Control) (n : nat) : Prop :=
  (n <= length (Fc_ c))%nat /\ (n <= length (k_ c))%nat /\ (n <= length (Fv_ c))%nat /\
  (n <= length (Fo_ c))%nat.

Lemma vat_lt {A} (v : list A) i : (i < length v)%nat -> exists x, vat v i = Ok x.
Proof. intros Hi. destruct (lookup_lt_is_Some_2 v i Hi) as [x Hx]. exists x. by apply vat_ok. Qed.

Lemma friction_total c av gv :
  friction_params c (length av + length gv) -> exists f, ComputeAllFriction tanh c av gv = Ok f.
Proof.
  intros (H1 & H2 & H3 & H4). apply for_n_total. intros i Hi. rewrite length_app in Hi.
  unfold ComputeFriction. destruct (vget_lt (av ++ gv) i) as (v & -> & _); [rewrite length_app; lia|].
  destruct (vat_lt (Fc_ c) i) as [? ->]; [lia|]. destruct (vat_lt (k_ c) i) as [? ->]; [lia|].
  destruct (vat_lt (Fv_ c) i) as [? ->]; [lia|]. destruct (vat_lt (Fo_ c) i) as [? ->]; [lia|].
  by eexists.
Qed.

Lemma friction_length c av gv f :
  ComputeAllFriction tanh c av gv = Ok f -> length f = (length av + length gv)%nat.
Proof. intros Hf. apply for_n_ok in Hf as [Hl _]. by rewrite length_app in Hl. Qed.

(** The cycle returns as soon as the friction computation does. *)
Lemma leader_torques_reduce c cmd m :
  dynamics_fit c (length (rs_response (arm_state (ct_robot_state c)))) ->
  length (gripper_motors m) = length (rs_response (hand_state (ct_robot_state c))) ->
  let fr := ComputeAllFriction tanh c (map js_velocity (rs_response (arm_state (ct_robot_state c))))
              (map js_velocity (rs_response (hand_state (ct_robot_state c)))) in
  match fr with
  | Ok _ => exists a g, leader_torques tanh c cmd m = Ok (a, g)
  | Throw e => leader_torques tanh c cmd m = Throw e
  | Undef => leader_torques tanh c cmd m = Undef
  end.
Proof.
  intros (d & Hd & Hn) Hg. cbv zeta. unfold leader_torques.
  set (arm := rs_response (arm_state _)) in *. set (hand := rs_response (hand_state _)) in *.
  set (b := bilateral_active c cmd (length arm) (length hand)).
  set (kf := match b with Some b => _ | None => _ end).
  assert (Hgr : exists gr, length gr = length arm /\
    match b with
    | Some b => if kf then d ← deref (ct_dynamics_l c); GetGravity d (arm_pos_ref b) (replicate (length arm) d0)
                else Ok (replicate (length arm) d0)
    | None => Ok (replicate (length arm) d0)
    end = Ok gr).
  { destruct b as [b'|] eqn:Eb; [|eexists; split; [|done]; by rewrite length_replicate].
    destruct kf eqn:Ek; [|eexists; split; [|done]; by rewrite length_replicate].
    apply bilateral_active_some in Eb as (_ & _ & _ & Hr & _). rewrite Hd. simpl.
    destruct (GetGravity_ok d (arm_pos_ref b') (replicate (length arm) d0)) as (gr & -> & Hl & _);
      [lia|rewrite length_replicate; lia|]. exists gr. split; [|done]. by rewrite Hl, length_replicate. }
  destruct Hgr as (gr & Lgr & ->). cbn [mbind outcome_bind]. rewrite Hd. cbn [deref mbind outcome_bind].
  destruct (GetGravity_ok d (map js_position arm) (replicate (length arm) d0)) as (gv & -> & Lgv & _);
    [rewrite length_map; lia|rewrite length_replicate; lia|]. cbn [mbind outcome_bind].
  destruct (GetCoriolis_ok d (map js_position arm) (map js_velocity arm) (replicate (length arm) d0))
    as (co & -> & Lco & _); [rewrite length_map; lia|rewrite length_map; lia|rewrite length_replicate; lia|].
  cbn [mbind outcome_bind]. rewrite length_replicate in Lgv, Lco.
  destruct (ComputeAllFriction tanh c _ _) as [fr|e|] eqn:Ef; [|done|done].
  apply friction_length in Ef as Lf. rewrite !length_map in Lf. cbn [mbind outcome_bind].
  match goal with |- context [for_n (length arm) ?f] => destruct (for_n_total (length arm) f) as [a ->] end.
  { intros i Hi. read_ok.
    destruct (arm_tau_b_ok c cmd (length arm) (length hand) gr (map js_position arm) (map js_velocity arm) i)
      as [t Ht]; [lia|by rewrite length_map..|done|]. fold b in Ht. fold kf in Ht. rewrite Ht. by eexists. }
  cbn [mbind outcome_bind].
  match goal with |- context [for_n (length hand) ?f] => destruct (for_n_total (length hand) f) as [g ->] end.
  { intros i Hi. read_ok.
    destruct (gripper_tau_b_ok c cmd (length arm) (length hand) (gripper_motors m) i) as [t Ht]; [lia|done|].
    fold b in Ht. fold kf in Ht. rewrite Ht. by eexists. }
  by eexists _, _.
Qed.
End leader.

(** ** Properties *)

(** C23: No torque bypasses the limits. Whatever the bilateral command, the sensor
    readings, the dynamics model and the gains are (including NaN and infinite
    values), every command a leader cycle sends has zero stiffness, damping,
    position and velocity, and a finite torque within the configured limit of
    its joint; there is one command per motor. *)
Theorem leader_commands_safe (tanh : double -> double) (c : Control)
    (cmd : option LeaderBilateralCommand) (m : Motors) (arm gripper : list MITParam) :
  limits_ok c -> (leader_step tanh cmd m c).2 = Ok (arm, gripper) ->
  length arm = length (arm_motors m) /\ length gripper = length (gripper_motors m) /\
  forall i p, (arm ++ gripper) !! i = Some p ->
    kp p = d0 /\ kd p = d0 /\ q_ref p = d0 /\ dq_ref p = d0 /\ within (leader_limit c i) (tau p).
Proof.
  intros Hl. unfold leader_step. cbn [snd]. rewrite bind_ok. intros ([a g] & Ht & [= <- <-]).
  apply leader_torques_within in Ht as (La & Lg & Ha & Hg); [|exact Hl].
  cbn in La, Lg. autorewrite with teleop in La, Lg. rewrite !length_map. split_and!; [done|done|].
  intros i p Hp. apply lookup_app_Some in Hp as [Hp|[Hge Hp]].
  - rewrite list_lookup_fmap in Hp. apply fmap_Some in Hp as (t & Ht & ->). simpl.
    split_and!; try done; by apply Ha.
  - rewrite length_map in Hge, Hp. rewrite list_lookup_fmap in Hp. apply fmap_Some in Hp as (t & Ht & ->).
    simpl. specialize (Hg _ _ Ht). replace (length a + (i - length a))%nat with i in Hg by lia.
    split_and!; try done; by apply Hg.
Qed.

(** A leader with seven joints and a gripper in which every term is active:
    unit gravity, bilateral gains and friction parameters. *)
Definition unit_dynamics : Dynamics :=
  mkDynamics 7 (fun _ => replicate 7 d1) (fun _ _ => replicate 7 d1) (fun _ _ _ => d1) (fun _ _ _ => d1)
    8 (fun _ _ => None) (fun _ => eq_refl) (fun _ _ => eq_refl).

Definition test_leader : Control :=
  let ones := replicate 8 d1 in
  SetBilateralGains (replicate 8 (d_of_Z 50)) ones ones
    (SetParameter ones ones ones ones ones ones
       (control_new (Some unit_dynamics) None (robot_system_new 7 1) (dlit 2 3) ROLE_LEADER)).

Definition test_motors : Motors :=
  mkMotors (replicate 7 (mkMotorState d1 d0 d0)) [mkMotorState d1 d1 S754_nan].

Definition test_command : LeaderBilateralCommand :=
  mkLeaderCommand (replicate 7 (d_of_Z 3)) [d1] (replicate 7 d1) [S754_nan] d1.

(** The clamp is at work: unclamped, the torques below would be about 101 or NaN. *)
Lemma leader_commands_safe_witness :
  exists arm gripper,
    (leader_step id (Some test_command) test_motors test_leader).2 = Ok (arm, gripper) /\
    map tau arm = replicate 7 (d_of_Z 20) /\ map tau gripper = [d0] /\ length arm = 7%nat.
Proof.
  do 2 eexists. split; [vm_compute; reflexivity|]. split; [vm_compute; reflexivity|].
  split; [vm_compute; reflexivity|].
  refine (proj1 (leader_commands_safe id test_leader (Some test_command) test_motors _ _ _ _)).
  - apply (Forall_impl _ _ _ effort_default_ok). by intros ? [? _].
  - vm_compute. reflexivity.
Defined.

Lemma leader_step_outcome tanh c cmd m :
  dynamics_fit c (length (arm_motors m)) ->
  (leader_step tanh cmd m c).2 <> Undef /\
  (friction_params c (length (arm_motors m) + length (gripper_motors m)) ->
   exists cmds, (leader_step tanh cmd m c).2 = Ok cmds).
Proof.
  intros Hd. unfold leader_step. cbn [snd].
  pose proof (leader_torques_reduce tanh (with_responses m c) cmd m) as H. cbv zeta in H.
  cbn [rs_response arm_state hand_state ct_robot_state with_responses with_robot_state set_responses] in H.
  autorewrite with teleop in H. specialize (H Hd eq_refl).
  match type of H with context [ComputeAllFriction tanh ?c' ?av ?gv] =>
    pose proof (friction_defined tanh c' av gv) as Hdef;
    pose proof (friction_total tanh c' av gv) as Htot end.
  rewrite !length_map in Htot. autorewrite with teleop in Htot.
  destruct (ComputeAllFriction tanh _ _ _) as [fr|e|] eqn:Ef; [| |done].
  - destruct H as (a & g & ->). cbn [mbind outcome_bind]. by split; [|eexists].
  - rewrite H. cbn [mbind outcome_bind]. split; [done|]. intros Hf. by destruct (Htot Hf).
Qed.

(** A leader cycle never reads out of range and, with friction parameters for
    every motor, always sends commands. With a dynamics model whose chain is no
    longer than the arm, no bilateral command (missing, too short, too long) and
    no gain vector leads to undefined behaviour; short friction parameters raise
    the exception of [at], after the responses have been stored. *)
Lemma leader_step_total (tanh : double -> double) (c : Control)
    (cmd : option LeaderBilateralCommand) (m : Motors) :
  dynamics_fit c (length (arm_motors m)) ->
  (leader_step tanh cmd m c).1 = with_responses m c /\
  (leader_step tanh cmd m c).2 <> Undef /\
  (friction_params c (length (arm_motors m) + length (gripper_motors m)) ->
   exists cmds, (leader_step tanh cmd m c).2 = Ok cmds).
Proof. intros Hd. split; [done|]. by apply leader_step_outcome. Qed.

Lemma leader_step_total_witness :
  exists cmds, (leader_step id (Some test_command) test_motors test_leader).2 = Ok cmds.
Proof.
  refine (proj2 (proj2 (leader_step_total id test_leader (Some test_command) test_motors _)) _).
  - exists unit_dynamics. split; [reflexivity|simpl; lia].
  - unfold friction_params. simpl. lia.
Defined.

(** Force is rendered only on a complete request. Unless a bilateral command
    with a positive gain ramp is given, the gains cover every motor and the
    command covers every joint, the leader's cycle is exactly the unilateral one:
    gravity and friction compensation only, whatever else the command holds. *)
Lemma leader_force_needs_request (tanh : double -> double) (c : Control)
    (cmd : option LeaderBilateralCommand) (m : Motors) :
  ct_role c = ROLE_LEADER ->
  (forall b, cmd = Some b ->
     dltb d0 (bc_scale b) = false \/
     (length (bkp_ c) < length (arm_motors m) + length (gripper_motors m))%nat \/
     (length (bkd_ c) < length (arm_motors m) + length (gripper_motors m))%nat \/
     (length (arm_pos_ref b) < length (arm_motors m))%nat \/
     (length (hand_pos_ref b) < length (gripper_motors m))%nat) ->
  leader_step tanh cmd m c = unilateral_step tanh m c.
Proof.
  intros Hr Hb. unfold unilateral_step. change (ct_role (with_responses m c)) with (ct_role c). rewrite Hr.
  unfold leader_step. change (with_responses m (with_responses m c)) with (with_responses m c).
  f_equal. f_equal. unfold leader_torques. cbv zeta.
  cbn [rs_response arm_state hand_state ct_robot_state with_responses with_robot_state set_responses].
  autorewrite with teleop.
  replace (bilateral_active (with_responses m c) cmd (length (arm_motors m)) (length (gripper_motors m)))
    with (@None LeaderBilateralCommand); [done|].
  destruct (bilateral_active _ cmd _ _) as [b|] eqn:Eb; [|done]. exfalso.
  destruct cmd as [b'|]; [|done]. pose proof Eb as Es. unfold bilateral_active in Es.
  destruct (dltb d0 (bc_scale b')) eqn:Hs; [|done].
  apply bilateral_active_some in Eb as ([= ->] & H1 & H2 & H3 & H4). cbn in H1, H2.
  destruct (Hb b eq_refl) as [?|[?|[?|[?|?]]]]; [congruence|lia..].
Qed.

Lemma leader_force_needs_request_witness :
  leader_step id (Some (mkLeaderCommand (replicate 7 d1) [] (replicate 7 d1) [] d1)) test_motors test_leader
  = unilateral_step id test_motors test_leader.
Proof.
  apply leader_force_needs_request; [reflexivity|]. intros b [= <-]. do 4 right. simpl. lia.
Defined.

(** ** The follower cycle *)

Lemma follower_limit_ok i :
  (if decide (i < NMOTORS)%nat then default d0 (effort_limit_F !! i) else d0) =
  default d0 (effort_limit_F !! i).
Proof.
  destruct (decide (i < NMOTORS)%nat); [done|].
  rewrite lookup_ge_None_2; [done|]. unfold effort_limit_F. rewrite length_replicate. unfold NMOTORS in *. lia.
Qed.

Lemma follower_limit_fnn i : fnn (default d0 (effort_limit_F !! i)).
Proof.
  destruct (effort_limit_F !! i) as [l|] eqn:E; [|done].
  apply lookup_replicate in E as [-> _]. by vm_compute.
Qed.

Lemma follower_ff_within c pos ad ff :
  follower_ff c pos ad = Ok ff ->
  length ff = ad /\ (forall i t, ff !! i = Some t -> within (default d0 (effort_limit_F !! i)) t) /\
  (follower_gravity_ff_ c = false -> ff = replicate ad d0).
Proof.
  unfold follower_ff. intros H.
  assert (Hz : Ok (replicate ad d0) = Ok ff ->
    length ff = ad /\ (forall i t, ff !! i = Some t -> within (default d0 (effort_limit_F !! i)) t)).
  { intros [= <-]. split; [apply length_replicate|]. intros i t Ht. apply lookup_replicate in Ht as [-> _].
    apply within_zero, follower_limit_fnn. }
  destruct (follower_gravity_ff_ c); [|split_and!; [by apply Hz..|by injection H as <-]].
  destruct (ct_dynamics_f c) as [d|]; [|split_and!; [by apply Hz..|done]].
  rewrite bind_ok in H. destruct H as (gr & _ & H). apply for_n_ok in H as [Hl Hf].
  split_and!; [done| |done]. intros i t Ht. specialize (Hf i t Ht). rewrite bind_ok in Hf.
  destruct Hf as (g & _ & Hg). cbv zeta in Hg. rewrite follower_limit_ok in Hg. injection Hg as <-.
  apply clamp_within; [apply follower_limit_fnn|].
  destruct (isfinite (g * follower_gravity_ff_scale_ c)%D) eqn:F; simpl; [done|reflexivity].
Qed.

(** One list of follower commands: a loop over the references. *)
Lemma follower_cmds_ok (Kp Kd : list double) (n : nat) (ix : nat -> nat) (refs : list MotorState)
    (t : nat -> double) cmds :
  for_n n (fun i =>
    p ← vget Kp (ix i); d ← vget Kd (ix i); r ← vget refs i;
    Ok (mkMIT p d (ms_position r) (ms_velocity r) (t i))) = Ok cmds ->
  length cmds = n /\
  forall i p, cmds !! i = Some p -> exists r, refs !! i = Some r /\
    Kp !! ix i = Some (kp p) /\ Kd !! ix i = Some (kd p) /\
    q_ref p = ms_position r /\ dq_ref p = ms_velocity r /\ tau p = t i.
Proof.
  intros H. apply for_n_ok in H as [Hl Hf]. split; [done|]. intros i p Hp. specialize (Hf i p Hp).
  rewrite bind_ok in Hf. destruct Hf as (a & Ha & Hf). rewrite bind_ok in Hf. destruct Hf as (b & Hb & Hf).
  rewrite bind_ok in Hf. destruct Hf as (r & Hr & [= <-]). apply vget_ok in Ha, Hb, Hr.
  exists r. by split_and!.
Qed.

Definition hand_to_motor (x : double) : double := (x / gripper_range_m * gripper_range_rad)%D.

Lemma unilateral_follower (tanh : double -> double) (m : Motors) (c c' : Control)
    (arm hand : list MITParam) :
  ct_role c = ROLE_FOLLOWER -> unilateral_step tanh m c = (c', Ok (arm, hand)) ->
  let arm_refs := rs_reference (arm_state (ct_robot_state c)) in
  let hand_refs := rs_reference (hand_state (ct_robot_state c)) in
  c' = with_responses m c /\
  rs_reference (arm_state (ct_robot_state c')) = arm_refs /\
  rs_reference (hand_state (ct_robot_state c')) = hand_refs /\
  length arm = length arm_refs /\ length hand = length hand_refs /\
  (forall i p, arm !! i = Some p -> exists r, arm_refs !! i = Some r /\
     Kp_ c !! i = Some (kp p) /\ Kd_ c !! i = Some (kd p) /\
     q_ref p = js_position r /\ dq_ref p = js_velocity r /\
     within (default d0 (effort_limit_F !! i)) (tau p) /\
     (follower_gravity_ff_ c = false -> tau p = d0)) /\
  (forall i p, hand !! i = Some p -> exists r, hand_refs !! i = Some r /\
     Kp_ c !! (i + length (arm_motors m))%nat = Some (kp p) /\
     Kd_ c !! (i + length (arm_motors m))%nat = Some (kd p) /\
     q_ref p = hand_to_motor (js_position r) /\ dq_ref p = js_velocity r /\ tau p = d0).
Proof.
  intros Hr. cbv zeta. unfold unilateral_step.
  change (ct_role (with_responses m c)) with (ct_role c). rewrite Hr. intros [= <- H].
  rewrite bind_ok in H. destruct H as (ff & Hff & H). unfold follower_commands in H. cbv zeta in H.
  rewrite bind_ok in H. destruct H as (ac & Ha & H).
  rewrite bind_ok in H. destruct H as (hc & Hh & [= <- <-]).
  cbn [rs_response rs_reference arm_state hand_state ct_robot_state with_responses with_robot_state
    set_responses Kp_ Kd_] in *.
  apply follower_ff_within in Hff as (_ & Wff & Zff). rewrite length_arm_motor_to_joint in *.
  apply (follower_cmds_ok (Kp_ c) (Kd_ c) _ (fun i => i) _ (fun i => default d0 (ff !! i))) in Ha as [La Ha].
  apply (follower_cmds_ok (Kp_ c) (Kd_ c) _ (fun i => (i + length (arm_motors m))%nat) _ (fun _ => d0))
    in Hh as [Lh Hh].
  rewrite length_arm_joint_to_motor in La. rewrite length_gripper_joint_to_motor in Lh.
  split_and!; [done..| |].
  - intros i p Hp. destruct (Ha i p Hp) as (r & Hr' & H1 & H2 & H3 & H4 & H5).
    unfold arm_joint_to_motor in Hr'. rewrite list_lookup_fmap in Hr'.
    apply fmap_Some in Hr' as (j & Hj & ->). exists j. split_and!; try done.
    + rewrite H5. destruct (ff !! i) as [t|] eqn:Et; [by apply Wff|]. apply within_zero, follower_limit_fnn.
    + intros Hoff. rewrite H5, (Zff Hoff). destruct (replicate _ d0 !! i) eqn:E; [|done].
      by apply lookup_replicate in E as [-> _].
  - intros i p Hp. destruct (Hh i p Hp) as (r & Hr' & H1 & H2 & H3 & H4 & H5).
    unfold gripper_joint_to_motor in Hr'. rewrite list_lookup_fmap in Hr'.
    apply fmap_Some in Hr' as (j & Hj & ->). exists j. by split_and!.
Qed.

(** What a follower cycle sends. Every arm motor gets its configured stiffness
    and damping, the referenced joint position and velocity unchanged, and a
    feed-forward torque that is finite, within the follower's limit and zero when
    the feed-forward is off; every gripper motor gets the gains after the arm's,
    the reference converted to motor space and no torque. The references
    themselves do not change and the responses are those of the motors. *)
Lemma follower_commands_spec (tanh : double -> double) (m : Motors) (c c' : Control)
    (arm hand : list MITParam) :
  ct_role c = ROLE_FOLLOWER -> unilateral_step tanh m c = (c', Ok (arm, hand)) ->
  let arm_refs := rs_reference (arm_state (ct_robot_state c)) in
  let hand_refs := rs_reference (hand_state (ct_robot_state c)) in
  c' = with_responses m c /\
  rs_reference (arm_state (ct_robot_state c')) = arm_refs /\
  rs_reference (hand_state (ct_robot_state c')) = hand_refs /\
  length arm = length arm_refs /\ length hand = length hand_refs /\
  (forall i p, arm !! i = Some p -> exists r, arm_refs !! i = Some r /\
     Kp_ c !! i = Some (kp p) /\ Kd_ c !! i = Some (kd p) /\
     q_ref p = js_position r /\ dq_ref p = js_velocity r /\
     within (default d0 (effort_limit_F !! i)) (tau p) /\
     (follower_gravity_ff_ c = false -> tau p = d0)) /\
  (forall i p, hand !! i = Some p -> exists r, hand_refs !! i = Some r /\
     Kp_ c !! (i + length (arm_motors m))%nat = Some (kp p) /\
     Kd_ c !! (i + length (arm_motors m))%nat = Some (kd p) /\
     q_ref p = hand_to_motor (js_position r) /\ dq_ref p = js_velocity r /\ tau p = d0).
Proof. apply unilateral_follower. Qed.

Definition test_follower : Control :=
  SetFollowerGravityFeedforward true (d_of_Z 100)
    (SetParameter (replicate 8 (d_of_Z 30)) (replicate 8 d1) [] [] [] []
       (control_new None (Some unit_dynamics) (robot_system_new 7 1) (dlit 2 3) ROLE_FOLLOWER)).

Lemma follower_commands_spec_witness :
  exists c' arm hand, unilateral_step id test_motors test_follower = (c', Ok (arm, hand)) /\
    map tau arm = replicate 7 (d_of_Z 20) /\ c' = with_responses test_motors test_follower.
Proof.
  do 3 eexists. split; [vm_compute; reflexivity|]. split; [vm_compute; reflexivity|].
  refine (proj1 (follower_commands_spec id test_motors test_follower _ _ _ _ _));
    [reflexivity|vm_compute; reflexivity].
Defined.

(** ** Moving to a pose *)

(** The last step's weight is exactly one. *)
Lemma last_alpha : move_alpha (nstep - 1) = d1.
Proof. by vm_compute. Qed.

(** The last interpolated position equals the goal, whatever the start was. *)
Lemma interpolate_last goal now :
  valid goal -> isfinite goal = true -> isfinite now = true ->
  deqb (interpolate (move_alpha (nstep - 1)) goal now) goal = true.
Proof.
  intros Vg Fg Fn. rewrite last_alpha. unfold interpolate. rewrite dmul_1_r by done.
  replace (now * (d1 - d1))%D with (S754_zero (sign now)); [by apply dadd_zero_r|].
  replace (d1 - d1)%D with d0 by by vm_compute. destruct now as [[]|[]| |[]]; by (done || vm_compute).
Qed.

Lemma length_arm_goal ta : length (arm_goal ta) = 7%nat.
Proof. unfold arm_goal. by rewrite length_map, length_seq. Qed.

Lemma arm_goal_lookup ta i :
  (i < 7)%nat -> arm_goal ta !! i = Some (default (nth i INITIAL_POSITION d0) (ta !! i)).
Proof.
  intros Hi. unfold arm_goal. rewrite list_lookup_fmap, lookup_seq_lt by done. done.
Qed.

Lemma home_ok i : valid (nth i INITIAL_POSITION d0) /\ isfinite (nth i INITIAL_POSITION d0) = true.
Proof. do 8 (destruct i as [|i]; [by vm_compute|]). by destruct i. Qed.

Lemma length_hand_goal tg n : length (hand_goal tg n) = n.
Proof. unfold hand_goal. by rewrite length_map, length_seq. Qed.

(** The interpolated joints of a step. *)
Lemma interpolation_ok goal now alpha :
  (length goal <= length now)%nat ->
  exists l, for_n (length goal) (fun i =>
      g ← vget goal i; n ← vget now i; Ok (mkJointState (interpolate alpha g (js_position n)) d0 d0)) = Ok l /\
    length l = length goal /\
    forall i j, l !! i = Some j -> exists g n, goal !! i = Some g /\ now !! i = Some n /\
      j = mkJointState (interpolate alpha g (js_position n)) d0 d0.
Proof.
  intros Hl. match goal with |- context [for_n (length goal) ?f] => destruct (for_n_total (length goal) f) as [l E] end.
  { intros i Hi. destruct (vget_lt goal i) as (g & -> & _); [done|]. cbn [mbind outcome_bind].
    destruct (vget_lt now i) as (n & -> & _); [lia|]. by eexists. }
  exists l. apply for_n_ok in E as E'. destruct E' as [Ll El]. split_and!; [done|done|]. intros i j Hj.
  specialize (El i j Hj). apply bind_ok in El as (g & Hg & El). apply bind_ok in El as (n & Hn & [= <-]).
  apply vget_ok in Hg, Hn. by exists g, n.
Qed.

(** The commands of a step, with the gains of pose moves. *)
Lemma pose_cmds_ok (Kp Kd : list double) (refs : list MotorState) :
  (length refs <= length Kp)%nat -> (length refs <= length Kd)%nat ->
  exists cmds, for_n (length refs) (fun i =>
      p ← vget Kp i; d ← vget Kd i; r ← vget refs i; Ok (mkMIT p d (ms_position r) (ms_velocity r) d0)) = Ok cmds /\
    length cmds = length refs /\
    forall i p, cmds !! i = Some p -> exists r, refs !! i = Some r /\ Kp !! i = Some (kp p) /\ Kd !! i = Some (kd p) /\
      q_ref p = ms_position r /\ dq_ref p = ms_velocity r /\ tau p = d0.
Proof.
  intros Hp Hd. match goal with |- context [for_n (length refs) ?f] => destruct (for_n_total (length refs) f) as [l E] end.
  { intros i Hi. destruct (vget_lt Kp i) as (x & -> & _); [lia|]. cbn [mbind outcome_bind].
    destruct (vget_lt Kd i) as (y & -> & _); [lia|]. cbn [mbind outcome_bind].
    destruct (vget_lt refs i) as (r & -> & _); [done|]. by eexists. }
  exists l. split; [done|]. by apply (follower_cmds_ok Kp Kd _ (fun i => i) refs (fun _ => d0)) in E.
Qed.

(** What a step commands joint [i], in joint space: the interpolated position,
    without velocity or torque, with the gains of pose moves. *)
Definition pose_command (Kp Kd goal : list double) (now : list JointState) (convert : double -> double) (step i : nat)
    (p : MITParam) : Prop :=
  Kp !! i = Some (kp p) /\ Kd !! i = Some (kd p) /\ tau p = d0 /\ dq_ref p = d0 /\
  exists g n, goal !! i = Some g /\ now !! i = Some n /\
    q_ref p = convert (interpolate (move_alpha step) g (js_position n)).

(** A step of a move: defined for seven arm motors and at most one gripper. *)
Lemma move_commands_ok agoal hgoal arm_now hand_now step :
  length agoal = 7%nat -> (7 <= length arm_now)%nat -> (length hgoal <= 1)%nat ->
  length hand_now = length hgoal ->
  exists a h, move_commands agoal hgoal arm_now hand_now step = Ok (a, h) /\
    length a = 7%nat /\ length h = length hgoal /\
    (forall i p, a !! i = Some p -> pose_command kp_arm_temp kd_arm_temp agoal arm_now (fun x => x) step i p) /\
    (forall i p, h !! i = Some p -> pose_command kp_hand_temp kd_hand_temp hgoal hand_now hand_to_motor step i p).
Proof.
  intros Ha Hn Hh Hhn. unfold move_commands. cbv zeta.
  destruct (interpolation_ok agoal arm_now (move_alpha step)) as (ai & Eai & Lai & Iai); [lia|].
  rewrite Ha in Eai at 1. change 7%nat with (NMOTORS - 1)%nat in Eai. rewrite Eai. cbn [mbind outcome_bind].
  destruct (interpolation_ok hgoal hand_now (move_alpha step)) as (hi & Ehi & Lhi & Ihi); [lia|].
  rewrite Ehi. cbn [mbind outcome_bind].
  destruct (pose_cmds_ok kp_arm_temp kd_arm_temp (arm_joint_to_motor ai)) as (ac & Eac & Lac & Iac);
    [rewrite length_arm_joint_to_motor, Lai, Ha; cbn; lia..|].
  destruct (pose_cmds_ok kp_hand_temp kd_hand_temp (gripper_joint_to_motor hi)) as (hc & Ehc & Lhc & Ihc);
    [rewrite length_gripper_joint_to_motor, Lhi; cbn; lia..|].
  rewrite Eac. cbn [mbind outcome_bind]. rewrite Ehc. cbn [mbind outcome_bind].
  rewrite length_arm_joint_to_motor in Lac. rewrite length_gripper_joint_to_motor in Lhc.
  exists ac, hc. split_and!; [done|congruence|congruence| |].
  - intros i p Hp. destruct (Iac i p Hp) as (r & Hr & Hkp & Hkd & Hq & Hdq & Ht). unfold arm_joint_to_motor in Hr.
    rewrite list_lookup_fmap in Hr. apply fmap_Some in Hr as (j & Hj & ->).
    destruct (Iai i j Hj) as (g & n & Hg & Hn' & ->). split_and!; try done. by exists g, n.
  - intros i p Hp. destruct (Ihc i p Hp) as (r & Hr & Hkp & Hkd & Hq & Hdq & Ht). unfold gripper_joint_to_motor in Hr.
    rewrite list_lookup_fmap in Hr. apply fmap_Some in Hr as (j & Hj & ->).
    destruct (Ihi i j Hj) as (g & n & Hg & Hn' & ->). split_and!; try done. by exists g, n.
Qed.

(** What the motors of an arm with seven joints and one gripper report. *)
Definition full_motors (m : Motors) : Prop := length (arm_motors m) = 7%nat /\ length (gripper_motors m) = 1%nat.

Lemma MoveToPose_defined target_arm target_gripper reading c :
  full_motors (reading 0%nat) ->
  exists steps rs, MoveToPose target_arm target_gripper reading c = Ok (steps, with_robot_state rs c).
Proof.
  intros [Ha Hh]. unfold MoveToPose. cbv zeta. cbn [arm_motors gripper_motors].
  match goal with |- context [for_n nstep ?f] => destruct (for_n_total nstep f) as [steps ->] end; [|by eexists _, _].
  intros step _. edestruct move_commands_ok as (a & h & -> & _); [apply length_arm_goal|..|by eexists].
  - unfold without_effort. rewrite length_arm_motor_to_joint, length_map. lia.
  - rewrite length_hand_goal. unfold without_effort. rewrite length_gripper_motor_to_joint, length_map. lia.
  - by rewrite length_hand_goal.
Qed.

Lemma hand_goal_lookup tg n i : (i < n)%nat -> hand_goal tg n !! i = Some (default d0 (tg !! i)).
Proof. intros Hi. unfold hand_goal. rewrite list_lookup_fmap, lookup_seq_lt by done. done. Qed.

(** A target's entry, or the default of a missing one. *)
Lemma default_target (P : double -> Prop) (t : list double) (dflt : double) i :
  Forall P t -> P dflt -> P (default dflt (t !! i)).
Proof. intros Ht Hd. destruct (t !! i) as [x|] eqn:E; [|done]. rewrite Forall_lookup in Ht. by eapply Ht. Qed.

Definition finite_target (x : double) : Prop := valid x /\ isfinite x = true.

(** The last command of a move, from a finite position. *)
Lemma last_pose_command Kp Kd goal now convert i p g :
  pose_command Kp Kd goal now convert (nstep - 1) i p -> goal !! i = Some g -> finite_target g ->
  Forall (fun s => isfinite (js_position s) = true) now ->
  exists x, deqb x g = true /\ q_ref p = convert x.
Proof.
  intros (_ & _ & _ & _ & g' & n & Hg & Hn & Hq) Hg' [Vg Fg] Fn. rewrite Hg' in Hg. injection Hg as <-.
  eexists. split; [|exact Hq]. apply interpolate_last; [done|done|]. rewrite Forall_lookup in Fn. by eapply Fn.
Qed.

(** What a pose move does in step [k]: exactly seven arm commands and one for
    each gripper, then new responses from the motors. *)
Definition pose_step (target_arm target_gripper : list double) (reading : nat -> Motors) (c : Control) (k : nat)
    (step : Commands * RobotSystemState) : Prop :=
  let arm_now := arm_motor_to_joint (without_effort (arm_motors (reading 0%nat))) in
  let hand_now := gripper_motor_to_joint (without_effort (gripper_motors (reading 0%nat))) in
  let '((arm, hand), s) := step in
  length arm = 7%nat /\ length hand = length (gripper_motors (reading 0%nat)) /\
  (forall i p, arm !! i = Some p ->
     pose_command kp_arm_temp kd_arm_temp (arm_goal target_arm) arm_now (fun x => x) k i p) /\
  (forall i p, hand !! i = Some p ->
     pose_command kp_hand_temp kd_hand_temp (hand_goal target_gripper (length hand_now)) hand_now hand_to_motor k i p) /\
  map js_position (rs_response (arm_state s)) = map ms_position (arm_motors (reading (S k))) /\
  rs_reference (arm_state s) = rs_reference (arm_state (ct_robot_state c)).

Lemma MoveToPose_steps target_arm target_gripper reading c :
  length (arm_motors (reading 0%nat)) = 7%nat -> (length (gripper_motors (reading 0%nat)) <= 1)%nat ->
  exists steps c', MoveToPose target_arm target_gripper reading c = Ok (steps, c') /\
    length steps = nstep /\
    (forall k step, steps !! k = Some step -> pose_step target_arm target_gripper reading c k step) /\
    rs_reference (arm_state (ct_robot_state c')) = rs_response (arm_state (ct_robot_state c')) /\
    rs_reference (hand_state (ct_robot_state c')) = rs_response (hand_state (ct_robot_state c')) /\
    map js_position (rs_response (arm_state (ct_robot_state c'))) = map ms_position (arm_motors (reading nstep)).
Proof.
  intros Ha Hh. unfold MoveToPose. cbv zeta. cbn [arm_motors gripper_motors].
  set (arm_now := arm_motor_to_joint (without_effort (arm_motors (reading 0%nat)))).
  set (hand_now := gripper_motor_to_joint (without_effort (gripper_motors (reading 0%nat)))).
  assert (Lan : length arm_now = 7%nat) by (unfold arm_now, without_effort; by rewrite length_arm_motor_to_joint, length_map).
  assert (Lhn : length hand_now = length (gripper_motors (reading 0%nat)))
    by (unfold hand_now, without_effort; by rewrite length_gripper_motor_to_joint, length_map).
  assert (Hstep : forall step, exists a h, move_commands (arm_goal target_arm) (hand_goal target_gripper (length hand_now))
      arm_now hand_now step = Ok (a, h) /\ pose_step target_arm target_gripper reading c step
      ((a, h), ct_robot_state (with_responses (mkMotors (without_effort (arm_motors (reading (S step))))
                                 (without_effort (gripper_motors (reading (S step))))) c))).
  { intros step. destruct (move_commands_ok (arm_goal target_arm) (hand_goal target_gripper (length hand_now))
      arm_now hand_now step (length_arm_goal _)) as (a & h & E & La & Lh & Pa & Ph);
      [lia|rewrite length_hand_goal; lia|by rewrite length_hand_goal|].
    exists a, h. split; [done|]. rewrite length_hand_goal, Lhn in Lh. split_and!; try done.
    cbn. unfold arm_motor_to_joint, without_effort. by rewrite !map_map. }
  match goal with |- context [for_n nstep ?f] => destruct (for_n_total nstep f) as [steps Es] end.
  { intros step _. destruct (Hstep step) as (a & h & -> & _). by eexists. }
  rewrite Es. cbn [mbind outcome_bind]. apply for_n_ok in Es as [Ls Es].
  eexists _, _. split; [reflexivity|]. split; [exact Ls|]. split; [|split_and!; [done|done|]].
  - intros k step Hk. specialize (Es k _ Hk). destruct (Hstep k) as (a & h & E & Hs). rewrite E in Es.
    by injection Es as <-.
  - cbn. unfold arm_motor_to_joint, without_effort. by rewrite !map_map.
Qed.

(** C37: A pose move drives every joint to the pose. With seven arm motors and at
    most one gripper, [MoveToPose] finishes after exactly 220 steps. Each step
    sends seven arm commands and one per gripper, each with the gains of pose
    moves, no torque and no velocity, at the position interpolated between the
    position at the start and the target (the home position of a joint, and 0 for
    a gripper, where the target has no entry), and then publishes the new
    readings without touching the references. With finite targets and start
    positions the last step commands every arm joint and every gripper its
    target exactly. Afterwards references and responses both hold the last
    reading. *)
Theorem move_to_pose_reaches (target_arm target_gripper : list double) (reading : nat -> Motors) (c : Control) :
  let arm_now := arm_motor_to_joint (without_effort (arm_motors (reading 0%nat))) in
  let hand_now := gripper_motor_to_joint (without_effort (gripper_motors (reading 0%nat))) in
  let finite_position s := isfinite (js_position s) = true in
  length (arm_motors (reading 0%nat)) = 7%nat -> (length (gripper_motors (reading 0%nat)) <= 1)%nat ->
  exists steps c', MoveToPose target_arm target_gripper reading c = Ok (steps, c') /\
    length steps = 220%nat /\
    (forall k step, steps !! k = Some step -> pose_step target_arm target_gripper reading c k step) /\
    (Forall finite_target target_arm -> Forall finite_target target_gripper ->
     Forall finite_position arm_now -> Forall finite_position hand_now ->
     forall arm hand s, steps !! 219%nat = Some ((arm, hand), s) ->
       (forall i, (i < 7)%nat -> exists p, arm !! i = Some p /\
          deqb (q_ref p) (default (nth i INITIAL_POSITION d0) (target_arm !! i)) = true) /\
       (forall i, (i < length (gripper_motors (reading 0%nat)))%nat -> exists p x, hand !! i = Some p /\
          deqb x (default d0 (target_gripper !! i)) = true /\ q_ref p = hand_to_motor x)) /\
    rs_reference (arm_state (ct_robot_state c')) = rs_response (arm_state (ct_robot_state c')) /\
    rs_reference (hand_state (ct_robot_state c')) = rs_response (hand_state (ct_robot_state c')) /\
    map js_position (rs_response (arm_state (ct_robot_state c'))) = map ms_position (arm_motors (reading nstep)).
Proof.
  intros arm_now hand_now fp Ha Hh.
  destruct (MoveToPose_steps target_arm target_gripper reading c Ha Hh) as (steps & c' & Hm & Ls & Hs & Hc).
  exists steps, c'. split; [done|]. split; [done|]. split; [done|]. split; [|done].
  intros Fa Fg Sa Sg arm hand s Hlast. destruct (Hs _ _ Hlast) as (La & Lh & Pa & Ph & _). split.
  - intros i Hi. destruct (lookup_lt_is_Some_2 arm i) as [p Hp]; [lia|]. exists p. split; [done|].
    destruct (last_pose_command _ _ _ _ _ i p _ (Pa i p Hp) (arm_goal_lookup target_arm i Hi)) as (x & Hx & ->); [|done|done].
    apply (default_target finite_target); [done|apply home_ok].
  - intros i Hi. destruct (lookup_lt_is_Some_2 hand i) as [p Hp]; [lia|].
    destruct (last_pose_command _ _ _ _ _ i p (default d0 (target_gripper !! i)) (Ph i p Hp)) as (x & Hx & Hq);
      [|by apply (default_target finite_target)|done|by exists p, x].
    apply hand_goal_lookup. unfold without_effort. by rewrite length_gripper_motor_to_joint, length_map.
Qed.

(** From a pose with every joint at 1 rad, home. *)
Lemma move_to_pose_reaches_witness :
  exists steps c', MoveToPose [] [] (fun _ => test_motors) test_leader = Ok (steps, c') /\
    length steps = 220%nat /\
    exists arm hand s p, steps !! 219%nat = Some ((arm, hand), s) /\ length arm = 7%nat /\ arm !! 3%nat = Some p /\
      deqb (q_ref p) (nth 3 INITIAL_POSITION d0) = true.
Proof.
  destruct (move_to_pose_reaches [] [] (fun _ => test_motors) test_leader) as (steps & c' & H1 & H2 & H3 & H4 & _);
    [reflexivity|simpl; lia|]. exists steps, c'. split; [exact H1|]. split; [exact H2|].
  destruct (lookup_lt_is_Some_2 steps 219) as [[[arm hand] s] Hs]; [lia|].
  destruct (H3 _ _ Hs) as (La & _).
  destruct (H4 ltac:(constructor) ltac:(constructor) ltac:(repeat constructor) ltac:(repeat constructor) arm hand s Hs)
    as [Harm _].
  destruct (Harm 3%nat ltac:(lia)) as (p & Hp & Hq). exists arm, hand, s, p. exact (conj Hs (conj La (conj Hp Hq))).
Defined.

(** ** Vibration detection *)

(** Velocities of joint [i] over the cycles [hist], oldest first. *)
Definition joint_history (hist : list (list double)) (i : nat) : list double :=
  omap (fun v => v !! i) hist.

(** The last [n] entries. *)
Definition last_n {A} (n : nat) (l : list A) : list A := drop (length l - n) l.

Definition vibration_run (hist : list (list double)) (buffers : list (list double)) : list (list double) :=
  fold_left (fun b v => (DetectVibration v b).1.1) hist buffers.

Lemma push_velocity_last_n v l : push_velocity v (last_n 10 l) = last_n 10 (l ++ [v]).
Proof.
  unfold push_velocity, last_n, VEL_WINDOW_SIZE. rewrite !length_app, length_drop.
  cbn [length]. case_decide as Hc.
  - destruct (drop (length l - 10) l) as [|x r] eqn:E.
    { apply (f_equal length) in E. rewrite length_drop in E. simpl in E. lia. }
    rewrite drop_app_le by lia. cbn [app tail]. replace (length l + 1 - 10)%nat with (S (length l - 10)) by lia.
    replace (drop (S (length l - 10)) l) with r; [done|].
    rewrite <- Nat.add_1_r, <- drop_drop, E. done.
  - replace (length l - 10)%nat with 0%nat by lia. replace (length l + 1 - 10)%nat with 0%nat by lia. done.
Qed.

Lemma vibration_run_snoc hist v b :
  vibration_run (hist ++ [v]) b = zip_with push_velocity v (vibration_run hist b).
Proof. unfold vibration_run. by rewrite fold_left_app. Qed.

Lemma vibration_run_lookup hist n i :
  Forall (fun v => length v = n) hist -> (i < n)%nat ->
  vibration_run hist (replicate n []) !! i = Some (last_n 10 (joint_history hist i)) /\
  length (vibration_run hist (replicate n [])) = n.
Proof.
  intros Hh Hi. induction hist as [|v hist IH] using rev_ind.
  - simpl. rewrite length_replicate. split; [|done]. by apply lookup_replicate.
  - apply Forall_app in Hh as [Hh Hv]. apply Forall_cons_1 in Hv as [Hv _]. destruct (IH Hh) as [IH1 IH2].
    rewrite vibration_run_snoc. split; [|rewrite length_zip_with; lia].
    rewrite lookup_zip_with, IH1. destruct (lookup_lt_is_Some_2 v i) as [x Hx]; [lia|].
    rewrite Hx. simpl. rewrite push_velocity_last_n. do 2 f_equal. unfold joint_history.
    rewrite omap_app. simpl. by rewrite Hx.
Qed.

Lemma length_joint_history l i n :
  Forall (fun u => length u = n) l -> (i < n)%nat -> length (joint_history l i) = length l.
Proof.
  intros Hl Hi. unfold joint_history. induction Hl as [|u l Hu Hl IH]; [done|]. simpl.
  destruct (lookup_lt_is_Some_2 u i) as [x Hx]; [lia|]. rewrite Hx. simpl. by f_equal.
Qed.

(** The vibration detector looks at exactly the last ten cycles. After any
    number of cycles, each joint's buffer holds its last ten velocities in order;
    a joint is never reported before its tenth sample, from then on exactly when
    the standard deviation of those ten exceeds the threshold, and the detector
    reports vibration exactly when it reports some joint. *)
Lemma vibration_window (hist : list (list double)) (v : list double) :
  Forall (fun u => length u = NJOINTS) (hist ++ [v]) ->
  let '(buffers, what_axis, detected) := DetectVibration v (vibration_run hist (replicate NJOINTS [])) in
  (forall i, (i < NJOINTS)%nat ->
     buffers !! i = Some (last_n 10 (joint_history (hist ++ [v]) i)) /\
     what_axis !! i = Some (bool_decide (10 <= length hist + 1)%nat &&
                            (buffer_stddev (last_n 10 (joint_history (hist ++ [v]) i)) >? VIB_THRESHOLD)%D)) /\
  (detected = true <-> exists i, what_axis !! i = Some true).
Proof.
  intros Hh. unfold DetectVibration. split.
  - intros i Hi. destruct (vibration_run_lookup (hist ++ [v]) NJOINTS i Hh Hi) as [H1 _].
    rewrite vibration_run_snoc in H1. split; [exact H1|]. rewrite list_lookup_fmap, H1. simpl. f_equal. unfold joint_vibrates, VEL_WINDOW_SIZE.
    assert (Hl : length (joint_history (hist ++ [v]) i) = (length hist + 1)%nat).
    { by rewrite (length_joint_history _ i NJOINTS), length_app. }
    assert (Hn : length (last_n 10 (joint_history (hist ++ [v]) i)) = (length hist + 1 - (length hist + 1 - 10))%nat)
      by (unfold last_n; rewrite length_drop, Hl; lia).
    rewrite Hn. case_decide; case_bool_decide; simpl; (done || lia).
  - rewrite existsb_exists. split.
    + intros (x & Hx & Ht). destruct x; [|done]. apply list_elem_of_In in Hx.
      by apply list_elem_of_lookup in Hx.
    + intros [i Hi]. exists true. split; [|done]. apply list_elem_of_In. by apply list_elem_of_lookup; eexists.
Qed.

(** Ten samples that alternate between 1 and -1 rad/s on the first joint. *)
Definition shaking (k : nat) : list double :=
  (if Nat.even k then d1 else dopp d1) :: replicate 7 d0.

Lemma vibration_window_witness :
  (DetectVibration (shaking 9) (vibration_run (map shaking (seq 0 9)) (replicate NJOINTS []))).2 = true.
Proof.
  pose proof (vibration_window (map shaking (seq 0 9)) (shaking 9)) as H.
  destruct (DetectVibration _ _) as [[b w] d] eqn:E. refine (proj2 (proj2 (H _)) _).
  - repeat constructor.
  - exists 0%nat. apply (f_equal (fun r => r.1.2 !! 0%nat)) in E. simpl in E. rewrite <- E. vm_compute. reflexivity.
Defined.
