(* ===== verification/NumParse.v ===== *)
(** * Numbers read from text

    What the programs use of the C++ library to read numbers: [istream >> double]
    as [std::num_get] and [strtod] define it (scan the longest text that can be a
    decimal number, convert it to the nearest double, fail on anything else), and
    [parse_pose16], which both bimanual programs define on top of it. *)

From Stdlib Require Import SpecFloat Ascii.
From S2P Require Import Prelude Float64 Float64Round Float64Ops Float64Arith Float64Order Float64Facts LinkCheck.

Open Scope Z_scope.

(** ** Nearest doubles *)

(** The double nearest to [num / den]. *)
Definition double_of_ratio (neg : bool) (num den : Z) : double :=
  match num, den with
  | Zpos n, Zpos d => ddiv (S754_finite neg n 0) (S754_finite false d 0)
  | _, _ => S754_zero neg
  end.

(** The double nearest to [m * 10^k]. *)
Definition double_of_decimal (neg : bool) (m k : Z) : double :=
  if 0 <=? k then double_of_ratio neg (m * 10 ^ k) 1 else double_of_ratio neg m (10 ^ (- k)).

(** ** Scanning *)

(** A run of digits: the accumulated value, how many there were, and the rest. *)
Fixpoint scan_digits (acc : Z) (n : nat) (s : string) : Z * nat * string :=
  match s with
  | String c s' =>
      match digit_value c with
      | Some d => scan_digits (10 * acc + d) (S n) s'
      | None => (acc, n, s)
      end
  | EmptyString => (acc, n, s)
  end.

Definition scan_sign (s : string) : bool * string :=
  match s with
  | String c s' => if Ascii.eqb c "-" then (true, s') else if Ascii.eqb c "+" then (false, s') else (false, s)
  | EmptyString => (false, s)
  end.

(** Out-of-range values set the failure bit. *)
Definition finish_double (x : double) (s : string) : option double * string :=
  (if isfinite x then Some x else None, s).

(** [iss >> v]: the value, if the stream did not fail, and the rest. *)
Definition read_double (s : string) : option double * string :=
  let '(neg, s) := scan_sign (skip_space s) in
  let '(iv, ni, s) := scan_digits 0 0 s in
  let '(m, nf, s) :=
    match s with
    | String c s' => if Ascii.eqb c "." then scan_digits iv 0 s' else (iv, 0%nat, s)
    | EmptyString => (iv, 0%nat, s)
    end in
  if decide (ni + nf = 0)%nat then (None, s)
  else
    match s with
    | String c s' =>
        if Ascii.eqb c "e" || Ascii.eqb c "E" then
          let '(eneg, s') := scan_sign s' in
          let '(ev, ne, s') := scan_digits 0 0 s' in
          if decide (ne = 0)%nat then (None, s')
          else finish_double (double_of_decimal neg m ((if eneg : bool then - ev else ev) - Z.of_nat nf)) s'
        else finish_double (double_of_decimal neg m (- Z.of_nat nf)) s
    | EmptyString => finish_double (double_of_decimal neg m (- Z.of_nat nf)) s
    end.

(** [while (iss >> v) out.push_back(v)]; every value consumes a character, so the
    length of the text is fuel enough. *)
Fixpoint read_doubles (fuel : nat) (s : string) : list double :=
  match fuel with
  | O => []
  | S fuel =>
      match read_double s with
      | (Some v, s') => v :: read_doubles fuel s'
      | (None, _) => []
      end
  end.

(** [parse_pose16]: [out], and whether exactly 16 values were read. *)
Definition parse_pose16 (args : string) : bool * list double :=
  let out := read_doubles (S (String.length args)) args in
  (bool_decide (length out = 16)%nat, out).

(** ** Lemmas *)

Lemma rnd_scale n d c : 0 < c -> 0 < d -> rnd (n * c) (d * c) = rnd n d.
Proof.
  intros Hc Hd. unfold rnd, rnd_exp. rewrite Z.div_mul_cancel_r by lia.
  set (k := Z.max _ _). replace (d * c * 2 ^ k) with (d * 2 ^ k * c) by ring.
  rewrite rne_div_scale; [done|done|]. pose proof (pow2_pos k ltac:(lia)). nia.
Qed.

Lemma double_of_ratio_spec neg num den :
  0 <= num -> 0 < den -> rounded_to neg (rnd (num * 2 ^ 1074) den) (double_of_ratio neg num den).
Proof.
  intros Hn Hd. destruct den as [|d|d]; [lia| |lia]. destruct num as [|n|n]; [| |lia].
  - simpl double_of_ratio. rewrite Z.mul_0_l, rnd_zero by lia. by split_and!.
  - unfold double_of_ratio. pose proof (sfdiv_spec neg n 0 false d 0 ltac:(lia) ltac:(lia)) as H.
    rewrite xorb_false_r in H. cbn [mag] in H. rewrite Z.add_0_l in H.
    rewrite rnd_scale in H by (lia || by apply pow2_pos).
    replace (Zpos n * 2 ^ 1074) with (Zpos n * 2 ^ 1074) by done. exact H.
Qed.

Lemma double_of_decimal_spec neg m k :
  0 <= m ->
  rounded_to neg (rnd (m * 10 ^ Z.max 0 k * 2 ^ 1074) (10 ^ Z.max 0 (- k))) (double_of_decimal neg m k).
Proof.
  intros Hm. unfold double_of_decimal. destruct (Z.leb_spec 0 k) as [Hk|Hk].
  - rewrite Z.max_r, Z.max_l by lia. apply double_of_ratio_spec; [|done].
    pose proof (Z.pow_nonneg 10 k ltac:(lia)). nia.
  - rewrite Z.max_l, Z.max_r by lia. rewrite Z.mul_1_r. apply double_of_ratio_spec; [done|].
    apply Z.pow_pos_nonneg; lia.
Qed.

(** *** Text of decimals *)

(** A decimal number as it is written: sign, digits, digits after the point. *)
Record Decimal := mkDecimal { dc_neg : bool; dc_int : list Z; dc_frac : list Z }.

Definition digit_char (d : Z) : ascii := ascii_of_nat (Z.to_nat (48 + d)).

Fixpoint digits_text (l : list Z) : string :=
  match l with [] => "" | d :: l' => String (digit_char d) (digits_text l') end.

Definition decimal_text (d : Decimal) : string :=
  (if dc_neg d then "-" else "") +:+ digits_text (dc_int d) +:+
  match dc_frac d with [] => "" | f => "." +:+ digits_text f end.

Definition digits_value (acc : Z) (l : list Z) : Z := fold_left (fun a d => 10 * a + d) l acc.

(** Its value: a numerator over a power of ten. *)
Definition decimal_num (d : Decimal) : Z := digits_value (digits_value 0 (dc_int d)) (dc_frac d).

Definition nearest_double (d : Decimal) : double :=
  double_of_decimal (dc_neg d) (decimal_num d) (- Z.of_nat (length (dc_frac d))).

Definition is_digit (d : Z) : Prop := 0 <= d < 10.

Definition decimal_ok (d : Decimal) : Prop :=
  dc_int d <> [] /\ Forall is_digit (dc_int d) /\ Forall is_digit (dc_frac d) /\
  isfinite (nearest_double d) = true.

#[export] Instance decimal_ok_dec d : Decision (decimal_ok d).
Proof. unfold decimal_ok, is_digit. apply _. Defined.

(** The texts separated by single spaces. *)
Fixpoint join_decimals (l : list Decimal) : string :=
  match l with
  | [] => ""
  | [d] => decimal_text d
  | d :: l' => decimal_text d +:+ " " +:+ join_decimals l'
  end.

Lemma digits_value_nonneg acc l : 0 <= acc -> Forall is_digit l -> 0 <= digits_value acc l.
Proof.
  intros Ha Hl. revert acc Ha. induction Hl as [|d l [Hd _] Hl IH]; intros acc Ha; [done|].
  unfold digits_value in *. simpl. apply IH. lia.
Qed.

Lemma digit_char_value d : is_digit d -> digit_value (digit_char d) = Some d.
Proof.
  intros [H0 H1].
  assert (d = 0 \/ d = 1 \/ d = 2 \/ d = 3 \/ d = 4 \/ d = 5 \/ d = 6 \/ d = 7 \/ d = 8 \/ d = 9) as Hd by lia.
  by repeat destruct Hd as [->|Hd]; [..|subst].
Qed.

(** A text at which a run of digits ends. *)
Definition ends_digits (s : string) : Prop :=
  match s with String c _ => digit_value c = None | EmptyString => True end.

Lemma scan_digits_text l acc n s :
  Forall is_digit l -> ends_digits s ->
  scan_digits acc n (digits_text l +:+ s) = (digits_value acc l, (n + length l)%nat, s).
Proof.
  intros Hl Hs. revert acc n. induction Hl as [|d l Hd Hl IH]; intros acc n; simpl.
  - rewrite Nat.add_0_r. destruct s as [|c s]; [done|]. simpl in *. by rewrite Hs.
  - rewrite digit_char_value by done. rewrite IH. do 2 f_equal. lia.
Qed.

Lemma text_app_assoc (a b c : string) : (a +:+ b) +:+ c = a +:+ b +:+ c.
Proof.
  induction a as [|x a IH]; [done|].
  change (String x ((a +:+ b) +:+ c) = String x (a +:+ b +:+ c)). by f_equal.
Qed.

Lemma text_app_nil (a : string) : a +:+ "" = a.
Proof. induction a as [|x a IH]; [done|]. change (String x (a +:+ "") = String x a). by f_equal. Qed.

Lemma digit_not_special c d :
  digit_value c = Some d ->
  is_space c = false /\ Ascii.eqb c "-" = false /\ Ascii.eqb c "+" = false /\ Ascii.eqb c "." = false.
Proof. by destruct c as [[] [] [] [] [] [] [] []]. Qed.

(** The text after a number: the end, or a space. *)
Definition after_number (s : string) : Prop := s = "" \/ exists s', s = String " " s'.

Lemma digits_text_first l s :
  l <> [] -> Forall is_digit l ->
  exists c s', digits_text l +:+ s = String c s' /\ exists d, digit_value c = Some d.
Proof.
  intros Hn Hl. destruct Hl as [|d l Hd Hl]; [done|]. simpl. eexists _, _. split; [done|].
  exists d. by apply digit_char_value.
Qed.

(** Skipping spaces and the sign in front of the digits. *)
Lemma scan_sign_text neg l s :
  l <> [] -> Forall is_digit l ->
  scan_sign (skip_space ((if neg : bool then "-" else "") +:+ digits_text l +:+ s)) = (neg, digits_text l +:+ s).
Proof.
  intros Hn Hl. destruct (digits_text_first l s Hn Hl) as (c & s' & E & d & Hd). rewrite E.
  destruct (digit_not_special c d Hd) as (H1 & H2 & H3 & _).
  destruct neg; simpl; [done|]. rewrite H1. simpl. by rewrite H2, H3.
Qed.

Lemma after_number_ends s : after_number s -> ends_digits s.
Proof. by intros [->|[s' ->]]. Qed.

Lemma read_decimal d s :
  decimal_ok d -> after_number s -> read_double (decimal_text d +:+ s) = (Some (nearest_double d), s).
Proof.
  intros (Hn & Hi & Hf & Hfin) Hs. pose proof (after_number_ends s Hs) as He.
  unfold decimal_text, read_double. rewrite !text_app_assoc, scan_sign_text by done.
  assert (Hlen : (length (dc_int d) <> 0)%nat) by (by destruct (dc_int d)).
  assert (Hfinish : forall x r, isfinite x = true -> finish_double x r = (Some x, r)).
  { intros x r Hx. unfold finish_double. by rewrite Hx. }
  unfold nearest_double, decimal_num in *. destruct (dc_frac d) as [|f fs] eqn:Ef.
  - change ("" +:+ s) with s. rewrite scan_digits_text by done. cbv iota beta.
    destruct Hs as [->|[s' ->]]; cbv iota beta; [|change (Ascii.eqb " " ".") with false; cbv iota beta];
      rewrite decide_False by lia; [by apply Hfinish|].
    change (Ascii.eqb " " "e" || Ascii.eqb " " "E") with false. by apply Hfinish.
  - rewrite text_app_assoc. change ("." +:+ ?x) with (String "." x). rewrite scan_digits_text by done. cbv iota beta.
    change (Ascii.eqb "." ".") with true. cbv iota beta. rewrite scan_digits_text by done. cbv iota beta.
    rewrite decide_False by lia. rewrite Nat.add_0_l.
    destruct Hs as [->|[s' ->]]; cbv iota beta; [by apply Hfinish|].
    change (Ascii.eqb " " "e" || Ascii.eqb " " "E") with false. by apply Hfinish.
Qed.

(** A leading space is skipped. *)
Lemma read_double_space s : read_double (String " " s) = read_double s.
Proof. done. Qed.

Lemma join_decimals_length l : Forall decimal_ok l -> (length l <= String.length (join_decimals l))%nat.
Proof.
  assert (Happ : forall a b, String.length (a +:+ b) = (String.length a + String.length b)%nat).
  { induction a as [|c a IH]; intros b; simpl; [done|]. by rewrite IH. }
  intros Hl. induction Hl as [|d l (Hn & _) Hl IH]; [done|].
  assert (Hd : (1 <= String.length (decimal_text d))%nat).
  { unfold decimal_text. rewrite !Happ. destruct (dc_int d); [done|]. simpl. lia. }
  destruct l as [|d' l]; simpl in *; [lia|]. rewrite !Happ. simpl. lia.
Qed.

Lemma read_doubles_join l fuel :
  Forall decimal_ok l -> (length l < fuel)%nat -> read_doubles fuel (join_decimals l) = map nearest_double l.
Proof.
  intros Hl. revert fuel. induction Hl as [|d l Hd Hl IH]; intros fuel Hf; [by destruct fuel|].
  destruct fuel as [|fuel]; simpl in Hf; [lia|]. destruct l as [|d' l].
  - simpl join_decimals. cbn [read_doubles].
    rewrite <- (text_app_nil (decimal_text d)).
    rewrite read_decimal by (done || by left). simpl. destruct fuel as [|[|]]; [simpl in Hf; lia|done|done].
  - change (join_decimals (d :: d' :: l)) with (decimal_text d +:+ " " +:+ join_decimals (d' :: l)).
    cbn [read_doubles]. change (" " +:+ ?x) with (String " " x).
    rewrite read_decimal by (done || (right; by eexists)).
    change (map nearest_double (d :: d' :: l)) with (nearest_double d :: map nearest_double (d' :: l)). f_equal.
    specialize (IH fuel ltac:(lia)). rewrite <- IH. destruct fuel; [done|]. cbn [read_doubles].
    by rewrite read_double_space.
Qed.

(** ** Property *)

(** A pose command is read exactly. Any list of decimal numbers (signs, digits,
    optional fractions, in the range of a double) written with single spaces is
    read back as the list of the nearest doubles, rounded once, and is accepted
    if and only if there are sixteen of them. *)
Lemma parse_pose16_reads (l : list Decimal) :
  Forall decimal_ok l ->
  parse_pose16 (join_decimals l) = (bool_decide (length l = 16)%nat, map nearest_double l) /\
  forall d, d ∈ l ->
    rounded_to (dc_neg d) (rnd (decimal_num d * 2 ^ 1074) (10 ^ Z.of_nat (length (dc_frac d)))) (nearest_double d).
Proof.
  intros Hl. split.
  - unfold parse_pose16. rewrite read_doubles_join; [|done|].
    + by rewrite length_map.
    + pose proof (join_decimals_length l Hl). lia.
  - intros d Hd. rewrite Forall_forall in Hl. destruct (Hl d Hd) as (_ & Hi & Hf & _).
    pose proof (double_of_decimal_spec (dc_neg d) (decimal_num d) (- Z.of_nat (length (dc_frac d)))) as H.
    rewrite Z.max_l, Z.mul_1_r, Z.opp_involutive, Z.max_r in H by lia. apply H.
    unfold decimal_num. by apply digits_value_nonneg; [apply digits_value_nonneg|].
Qed.

Definition pose_text : list Decimal := replicate 15 (mkDecimal false [0] [2; 5]) ++ [mkDecimal true [1; 0] []].

Lemma parse_pose16_reads_witness :
  parse_pose16 (join_decimals pose_text) = (true, replicate 15 (dlit 25 2) ++ [dopp (d_of_Z 10)]).
Proof.
  rewrite (proj1 (parse_pose16_reads pose_text ltac:(apply (bool_decide_unpack _); vm_compute; exact I))).
  vm_compute. reflexivity.
Defined.
