(* ===== verification/Logging.v ===== *)
(** * Logging: the log with its levels

    [src/src/utils/logging.cpp]: the threshold, read from [OPENARM_LOG_LEVEL] when the
    first message is logged and then kept, and the two streams messages go to. A call
    of [log] is one step, the critical section of [log_mutex]; its clock reading is an
    input. The environment can change between calls. *)

From S2P Require Import Prelude.
From stdpp Require Import pretty.

Open Scope Z_scope.

(** ** Levels *)

Inductive LogLevel := DEBUG | INFO | WARN | ERROR | FATAL.

(** Their order in the enumeration. *)
Definition severity (l : LogLevel) : Z := match l with DEBUG => 0 | INFO => 1 | WARN => 2 | ERROR => 3 | FATAL => 4 end.

(** [std::toupper] in the "C" locale, on every character. *)
Definition toupper (c : Ascii.ascii) : Ascii.ascii :=
  let n := Ascii.nat_of_ascii c in
  if ((97 <=? n) && (n <=? 122))%nat then Ascii.ascii_of_nat (n - 32) else c.

Fixpoint upcase (s : string) : string :=
  match s with
  | EmptyString => EmptyString
  | String c s' => String (toupper c) (upcase s')
  end.

(** [None]: the variable is not set. *)
Definition parse_log_level (s : option string) : LogLevel :=
  let v := upcase (default "" s) in
  if String.eqb v "DEBUG" then DEBUG
  else if String.eqb v "WARN" || String.eqb v "WARNING" then WARN
  else if String.eqb v "ERROR" then ERROR
  else if String.eqb v "FATAL" then FATAL
  else INFO.

(** ** The log *)

(** The [static] of [min_log_level] and what has been written. *)
Record Logger := mkLogger { lg_level : option LogLevel; lg_cout : list string; lg_cerr : list string }.

Definition logger_new : Logger := mkLogger None [] [].

(** A call, with the environment and the clock it finds. *)
Record LogCall := mkLogCall { lc_env : option string; lc_now_ms : Z; lc_level : LogLevel; lc_msg : string }.

Definition min_log_level (env : option string) (l : Logger) : LogLevel := default (parse_log_level env) (lg_level l).

Definition level_str (l : LogLevel) : string :=
  match l with DEBUG => "DEBUG" | INFO => "INFO " | WARN => "WARN " | ERROR => "ERROR" | FATAL => "FATAL" end.

Definition log_line (c : LogCall) : string :=
  "[" +:+ pretty (lc_now_ms c) +:+ "] [" +:+ level_str (lc_level c) +:+ "] " +:+ lc_msg c.

Definition to_cerr (l : LogLevel) : bool := match l with ERROR | FATAL => true | _ => false end.

Definition log (c : LogCall) (l : Logger) : Logger :=
  let m := min_log_level (lc_env c) l in
  let l := mkLogger (Some m) (lg_cout l) (lg_cerr l) in
  if severity (lc_level c) <? severity m then l
  else if to_cerr (lc_level c) then mkLogger (Some m) (lg_cout l) (lg_cerr l ++ [log_line c])
  else mkLogger (Some m) (lg_cout l ++ [log_line c]) (lg_cerr l).

Definition log_all (cs : list LogCall) (l : Logger) : Logger := fold_left (fun l c => log c l) cs l.

(** ** What is written *)

Definition log_kept (m : LogLevel) (c : LogCall) : bool := severity m <=? severity (lc_level c).

(** To which stream. *)
Definition to_stream (cerr : bool) (m : LogLevel) (c : LogCall) : bool := log_kept m c && eqb (to_cerr (lc_level c)) cerr.

Definition written (cerr : bool) (m : LogLevel) (cs : list LogCall) : list string :=
  map log_line (filter (fun c => to_stream cerr m c = true) cs).

Lemma written_cons cerr m c cs :
  written cerr m (c :: cs) = (if to_stream cerr m c then [log_line c] else []) ++ written cerr m cs.
Proof. unfold written. rewrite filter_cons. case_decide as H; [by rewrite H|]. by apply not_true_iff_false in H as ->. Qed.

Lemma log_level m c l :
  lg_level l = Some m ->
  log c l = mkLogger (Some m) (lg_cout l ++ if to_stream false m c then [log_line c] else [])
              (lg_cerr l ++ if to_stream true m c then [log_line c] else []).
Proof.
  intros Hl. unfold log, min_log_level, to_stream, log_kept. rewrite Hl, Z.ltb_antisym. cbn [default from_option id].
  destruct (severity m <=? severity (lc_level c)), (to_cerr (lc_level c)); cbn; by rewrite ?app_nil_r.
Qed.

Lemma log_all_level m cs l :
  lg_level l = Some m ->
  log_all cs l = mkLogger (Some m) (lg_cout l ++ written false m cs) (lg_cerr l ++ written true m cs).
Proof.
  revert l. induction cs as [|c cs IH]; intros l Hl; unfold log_all; cbn [fold_left].
  { unfold written. cbn. rewrite !app_nil_r. destruct l. cbn in *. by subst. }
  fold (log_all cs (log c l)). rewrite (log_level m c l Hl), IH, !written_cons, !app_assoc by done. done.
Qed.

(** The log of a program: the first call's environment decides the threshold for all
    of them, later changes have no effect; a message is written when it is at least as
    severe, errors and fatal errors to [cerr], the others to [cout], each stream in the
    order of the calls. *)
Lemma log_spec (c : LogCall) (cs : list LogCall) :
  let m := parse_log_level (lc_env c) in
  log_all (c :: cs) logger_new =
    mkLogger (Some m) (written false m (c :: cs)) (written true m (c :: cs)).
Proof.
  cbv zeta. set (m := parse_log_level (lc_env c)).
  transitivity (log_all (c :: cs) (mkLogger (Some m) [] [])); [done|]. by apply log_all_level.
Qed.

(** Fatal errors are always written, and the threshold never hides an error of the
    level it is named after. *)
Lemma fatal_always_written env : log_kept (parse_log_level env) (mkLogCall env 0 FATAL "") = true.
Proof. unfold log_kept, parse_log_level. cbv zeta. repeat case_match; done. Qed.

(** The setting is read without regard to case; anything else means [INFO]. *)
Lemma parse_log_level_case s : parse_log_level (Some (upcase s)) = parse_log_level (Some s).
Proof.
  assert (H : upcase (upcase s) = upcase s); [|by unfold parse_log_level; cbn [default from_option id]; rewrite H].
  induction s as [|c s IH]; cbn [upcase]; [done|]. rewrite IH. f_equal.
  destruct c as [[] [] [] [] [] [] [] []]; vm_compute; done.
Qed.

Example log_levels :
  map (fun s => parse_log_level (Some s)) ["debug"; "Info"; "warning"; "ERROR"; "fatal"; "verbose"]
  = [DEBUG; INFO; WARN; ERROR; FATAL; INFO].
Proof. reflexivity. Qed.
