(* ===== verification/AppCommon.v ===== *)
(** * What the bimanual programs share

    Pieces that [src/src/apps/wifi_bimanual_leader.cpp] and
    [wifi_bimanual_follower.cpp] both define: the hardware check, the split of a
    pose command into arm and gripper targets, float conversion of telemetry
    fields, and control handlers that run code with C++ outcomes. *)

From Stdlib Require Import SpecFloat.
From S2P Require Import Prelude Float64 Dynamics RobotState Control LinkCheck RuntimeControl Crc32 Wire.

Open Scope Z_scope.

(** ** Small conversions *)

Definition json_bool (b : bool) : string := if b then "true" else "false".

(** [static_cast<float>] stored in a packet member. *)
Definition float_bits (x : double) : Z := bits_of_float (f32_of_double x).

(** The first [n] entries of [l], padded with zero words: an array of a zeroed
    packet after a loop that copied them. *)
Definition pad (n : nat) (l : list Z) : list Z := take n l ++ replicate (n - length l) 0.

(** [duration_cast<nanoseconds>(duration<double>(s))]: truncation to a 64-bit
    count; undefined behaviour out of range. *)
Definition ns_of_seconds (s : double) : outcome Z :=
  let x := (s * d_of_Z 1000000000)%D in
  match x with
  | S754_zero _ => Ok 0
  | S754_finite neg m e =>
      let t := if neg then - trunc_Z m e else trunc_Z m e in
      if (- 2 ^ 63 <=? t) && (t <? 2 ^ 63) then Ok t else Undef
  | _ => Undef
  end.

(** The period fits. *)
Definition ticks (s : double) : Prop := exists dt, ns_of_seconds s = Ok dt.

(** A value the model keeps as [None] for undefined behaviour. *)
Definition of_option {A} (x : option A) : outcome A := match x with Some a => Ok a | None => Undef end.

(** ** Hardware check *)

(** [has_data]: the motor reports something other than zero. *)
Definition responding (m : MotorState) : bool :=
  negb (ms_position m =? d0)%D || negb (ms_velocity m =? d0)%D.

(** [verify_arm_hardware] on what the motors report after the second [recv_all]:
    false only when nothing responds; partial answers are logged. *)
Definition verify_arm_hardware (m : Motors) : bool :=
  let arm_responding := length (filter (fun s => responding s = true) (arm_motors m)) in
  let grip_responding := length (filter (fun s => responding s = true) (gripper_motors m)) in
  negb (bool_decide (arm_responding = 0)%nat && bool_decide (grip_responding = 0)%nat).

(** ** Pose commands *)

(** The targets of the two arms in [R_arm(7), R_grip(1), L_arm(7), L_grip(1)]. *)
Record PoseTargets := mkTargets {
  tg_r : list double; tg_gr : list double; tg_l : list double; tg_gl : list double;
}.

Definition split_pose (t : list double) : option PoseTargets :=
  if decide (length t = 16)%nat
  then Some (mkTargets (take 7 t) (take 1 (drop 7 t)) (take 7 (drop 8 t)) (take 1 (drop 15 t)))
  else None.

(** ** Handlers *)

(** A control handler whose code may throw or be undefined. *)
Definition lift_handler {A} (h : string -> A -> outcome (A * string)) : Handler (outcome A) :=
  fun args st =>
    match st with
    | Ok a =>
        match h args a with
        | Ok (a', r) => (Ok a', r)
        | Throw e => (Throw e, "")
        | Undef => (Undef, "")
        end
    | Throw e => (Throw e, "")
    | Undef => (Undef, "")
    end.

(** ** Lemmas *)

Lemma length_pad n l : length (pad n l) = n.
Proof. unfold pad. rewrite length_app, length_take, length_replicate. lia. Qed.

(** Columns of words of [b] bytes. *)
Lemma fits_words b n l : length l = n -> Forall (in_width (8 * Z.of_nat b)) l -> fits (replicate n b) l.
Proof. intros <- Hl. induction Hl; simpl; [constructor|]. by constructor. Qed.

Lemma pad_width w n l : 0 <= w -> Forall (in_width w) l -> Forall (in_width w) (pad n l).
Proof.
  intros Hw Hl. apply Forall_app. split; [by apply Forall_take|]. apply Forall_replicate. split; [lia|].
  by apply Z.pow_pos_nonneg.
Qed.

Lemma pad_full n l : length l = n -> pad n l = l.
Proof.
  intros Hl. unfold pad. rewrite take_ge by lia. replace (n - length l)%nat with 0%nat by lia.
  apply app_nil_r.
Qed.

Lemma split_pose_join t p :
  split_pose t = Some p -> tg_r p ++ tg_gr p ++ tg_l p ++ tg_gl p = t /\
    length (tg_r p) = 7%nat /\ length (tg_l p) = 7%nat /\ length (tg_gr p) = 1%nat /\ length (tg_gl p) = 1%nat.
Proof.
  unfold split_pose. case_decide as Hl; [|done]. intros [= <-].
  do 16 (destruct t as [|? t]; [done|]). by destruct t.
Qed.
