(* ===== verification/Float32.v ===== *)
(** * Float32: numbers carried as [float]

    Telemetry and VR packets hold [float] fields. The conversion of a [double]
    to [float] rounds to 24 bits; the word on the wire holds its sign, exponent
    and mantissa; reading it back gives the [float]'s value. A joint position
    therefore arrives with a relative error of at most 2^-24. *)

From Stdlib Require Import SpecFloat.
From S2P Require Import Prelude Float64 Float64Round Float64Arith Float64Ops Float64Facts AppCommon.

Open Scope Z_scope.

(** A [double] after a trip through a [float] field. *)
Definition as_float (x : double) : double := double_of_float_bits (float_bits x).

(** Finite binary32 mantissas and exponents. *)
Definition float_range (m e : Z) : Prop := 0 < m < 2 ^ 24 /\ -149 <= e <= 104 /\ (e = -149 \/ 2 ^ 23 <= m).

(** ** Rounding to 24 bits *)

#[local] Abbreviation fexp32 := (fexp 24 128).

Lemma fexp32_eq e : fexp32 e = Z.max (e - 24) (-149).
Proof. done. Qed.

(** The mantissa [q] at the exponent [f] of a number [n * 2^ez], and how far it
    is from the number. *)
Lemma round24 n ez :
  0 < n -> ez <= fexp32 (Zdigits2 n + ez) ->
  let f := fexp32 (Zdigits2 n + ez) in
  let q := rne_div n (2 ^ (f - ez)) in
  (exists rec, shr_fexp 24 128 n ez loc_Exact = (rec, f) /\
     round_nearest_even (shr_m rec) (loc_of_shr_record rec) = q) /\
  0 <= q <= 2 ^ 24 /\ (f = -149 \/ 2 ^ 23 <= q) /\ Z.abs (2 * (q * 2 ^ (f - ez) - n)) <= 2 ^ (f - ez) /\
  (f = -149 \/ 2 ^ 23 * 2 ^ (f - ez) <= n).
Proof.
  intros Hn Hf. cbv zeta. set (f := fexp32 (Zdigits2 n + ez)) in *. set (k := f - ez).
  assert (Hk : 0 <= k) by lia. pose proof (pow2_pos k Hk) as Hp.
  assert (Hfe : f = Z.max (Zdigits2 n + ez - 24) (-149)) by apply fexp32_eq.
  destruct (Zdigits2_bounds n Hn) as (Hd1 & Hlo & Hhi).
  assert (Hup : n <= 2 ^ 24 * 2 ^ k).
  { rewrite <- pow2_add by lia. apply Z.le_trans with (2 ^ Zdigits2 n); [lia|]. apply pow2_le. lia. }
  assert (Hdown : f = -149 \/ 2 ^ 23 * 2 ^ k <= n).
  { destruct (Z.eq_dec f (-149)); [by left|right]. rewrite <- pow2_add by lia.
    apply Z.le_trans with (2 ^ (Zdigits2 n - 1)); [|lia]. apply pow2_le. lia. }
  split_and!.
  - destruct (shr_spec n 1 (shr_record_of_loc n loc_Exact) ez k) as (rec & Hs & Hr); [lia|done| |].
    { split; [simpl; lia|]. exists 0. simpl. split_and!; try lia. done. }
    exists rec. replace (ez + k) with f in Hs by lia. split; [exact Hs|].
    rewrite Z.mul_1_l in Hr. by apply round_shr_rep.
  - apply rne_div_ge; lia.
  - by apply rne_div_le.
  - destruct Hdown; [by left|right]. apply rne_div_ge; lia.
  - by apply rne_div_half.
  - done.
Qed.

(** The carry of a mantissa that rounded up to 2^24. *)
Lemma carry24 q f :
  0 <= q <= 2 ^ 24 -> -149 <= f -> (f = -149 \/ 2 ^ 23 <= q) ->
  exists rec m e, shr_fexp 24 128 q f loc_Exact = (rec, e) /\ shr_m rec = m /\ 0 <= m < 2 ^ 24 /\ -149 <= e /\
    m * 2 ^ (e + 149) = q * 2 ^ (f + 149) /\ (e = -149 \/ 2 ^ 23 <= m).
Proof.
  intros Hq Hf Hn. unfold shr_fexp. cbn [shr_record_of_loc]. destruct (decide (q = 2 ^ 24)) as [->|Hc].
  - eexists _, (2 ^ 23), (f + 1).
    replace (fexp32 (Zdigits2 (2 ^ 24) + f) - f) with 1 by (change (Zdigits2 (2 ^ 24)) with 25; rewrite fexp32_eq; lia).
    split; [done|]. split; [done|]. split; [lia|]. split; [lia|]. split; [|by right].
    replace (f + 1 + 149) with (1 + (f + 149)) by lia. rewrite pow2_add by lia. lia.
  - eexists _, q, f. pose proof (Zdigits2_le q 24).
    assert (Hk : fexp32 (Zdigits2 q + f) - f <= 0) by (rewrite fexp32_eq; lia).
    unfold shr. destruct (fexp32 (Zdigits2 q + f) - f); try lia; simpl; split_and!; auto; lia.
Qed.

(** ** The conversion *)

(** What a [float] holds of a positive magnitude [v], in units of 2^-1074, below
    2^127: at most half a unit in the last of 24 bits away. *)
Definition near24 (v w : Z) : Prop := 2 ^ 24 * Z.abs (w - v) <= Z.max v (2 ^ 948).

(** The result of rounding the magnitude [v]. *)
Definition rounded24 (s : bool) (v : Z) (y : double) : Prop :=
  (y = S754_zero s \/ exists m e, y = S754_finite s m e /\ float_range (Zpos m) e) /\ near24 v (mag y) \/
  y = S754_infinity s /\ 2 ^ 1201 <= v.

Lemma f32_aux s n ez :
  0 < n -> -1074 <= ez -> ez <= fexp32 (Zdigits2 n + ez) ->
  rounded24 s (n * 2 ^ (ez + 1074)) (binary_round_aux 24 128 s n ez loc_Exact).
Proof.
  intros Hn Hez Hf. destruct (round24 n ez Hn Hf) as ((rec & Hs & Hq) & Hq1 & Hq2 & Herr & Hlow).
  set (f := fexp32 (Zdigits2 n + ez)) in *. set (q := rne_div n (2 ^ (f - ez))) in *.
  assert (Hf149 : -149 <= f) by (unfold f; rewrite fexp32_eq; lia).
  destruct (carry24 q f Hq1 Hf149 Hq2) as (rec2 & m & e & Hs2 & Hm & Hmr & He & Hv & Hn2).
  pose proof (pow2_pos (ez + 1074) ltac:(lia)) as Hp.
  assert (Hval : m * 2 ^ (e + 1074) = q * 2 ^ (f - ez) * 2 ^ (ez + 1074)).
  { rewrite <- Z.mul_assoc, <- pow2_add by lia. replace (f - ez + (ez + 1074)) with (f + 149 + 925) by lia.
    replace (e + 1074) with (e + 149 + 925) by lia. rewrite (pow2_add (e + 149)), (pow2_add (f + 149)) by lia. lia. }
  assert (Hunit : 2 ^ (f - ez) * 2 ^ (ez + 1074) = 2 ^ (f + 1074)).
  { rewrite <- pow2_add by lia. f_equal. lia. }
  assert (Hnear : near24 (n * 2 ^ (ez + 1074)) (m * 2 ^ (e + 1074))).
  { unfold near24. rewrite Hval.
    replace (q * 2 ^ (f - ez) * 2 ^ (ez + 1074) - n * 2 ^ (ez + 1074))
      with ((q * 2 ^ (f - ez) - n) * 2 ^ (ez + 1074)) by ring.
    rewrite Z.abs_mul, (Z.abs_eq (2 ^ (ez + 1074))) by lia.
    apply Z.le_trans with (2 ^ 23 * 2 ^ (f - ez) * 2 ^ (ez + 1074)).
    - rewrite Z.mul_assoc. apply Z.mul_le_mono_nonneg_r; [lia|].
      change (2 ^ 24) with (2 ^ 23 * 2). rewrite <- Z.mul_assoc. apply Z.mul_le_mono_nonneg_l; [lia|].
      rewrite Z.abs_mul in Herr. lia.
    - destruct Hlow as [->|Hlow].
      + rewrite <- Z.mul_assoc, Hunit. apply Z.le_trans with (2 ^ 948); [|lia]. by rewrite <- pow2_add.
      + apply Z.le_trans with (n * 2 ^ (ez + 1074)); [|lia]. by apply Z.mul_le_mono_nonneg_r; [lia|]. }
  unfold binary_round_aux. rewrite Hs, Hq, Hs2, Hm. destruct m as [|pm|]; [..|lia].
  { left. split; [by left|exact Hnear]. }
  change (128 - 24) with 104. destruct (Z.leb_spec e 104) as [He'|He'].
  { left. split; [right|exact Hnear]. exists pm, e. split; [done|]. unfold float_range. lia. }
  right. split; [done|]. destruct Hn2 as [|Hn2]; [lia|].
  assert (Hbig : 2 ^ 23 * 2 ^ (105 + 1074) <= Zpos pm * 2 ^ (e + 1074)).
  { apply Z.mul_le_mono_nonneg; [lia|done|by apply Z.pow_nonneg|]. apply pow2_le. lia. }
  unfold near24 in Hnear. rewrite <- pow2_add in Hbig by lia. change (23 + (105 + 1074)) with (1 + 1201) in Hbig.
  rewrite pow2_add in Hbig by lia.
  set (w := Zpos pm * 2 ^ (e + 1074)) in *. set (v := n * 2 ^ (ez + 1074)) in *.
  assert (2 ^ 948 <= 2 ^ 1201) by (apply pow2_le; lia). clear - Hbig Hnear H.
  set (t := 2 ^ 1201) in *. set (u := 2 ^ 948) in *. lia.
Qed.

Lemma f32_of_double_spec s m e :
  -1074 <= e -> rounded24 s (Zpos m * 2 ^ (e + 1074)) (f32_of_double (S754_finite s m e)).
Proof.
  intros He. cbn [f32_of_double]. unfold binary_round, shl_align.
  change (fexp 24 128 (Zpos (digits2_pos m) + e)) with (fexp32 (Zdigits2 (Zpos m) + e)).
  set (f := fexp32 (Zdigits2 (Zpos m) + e)).
  assert (Hf : f = Z.max (Zdigits2 (Zpos m) + e - 24) (-149)) by (unfold f; by rewrite fexp32_eq).
  destruct (f - e) as [|d|d] eqn:Hfe; [apply f32_aux; [done|done|fold f; lia]..|].
  pose proof (pos_iter_xO m d) as Hit.
  assert (Hval : Zpos (Pos.iter xO m d) * 2 ^ (f + 1074) = Zpos m * 2 ^ (e + 1074)).
  { rewrite Hit, <- Z.mul_assoc, <- pow2_add by lia. do 2 f_equal. lia. }
  rewrite <- Hval. apply f32_aux; [done|lia|].
  rewrite Zdigits2_iter_xO, fexp32_eq. lia.
Qed.

(** ** The 32-bit word *)

Lemma float_word_fields (s : bool) e m :
  0 <= e < 256 -> 0 <= m < 2 ^ 23 ->
  let w := (if s then 2 ^ 31 else 0) + e * 2 ^ 23 + m in
  in_width 32 w /\ Z.testbit w 31 = s /\ Z.shiftr w 23 mod 2 ^ 8 = e /\ w mod 2 ^ 23 = m.
Proof.
  intros He Hm w. unfold in_width.
  assert (Hw : w = (if s then 256 else 0) * 2 ^ 23 + e * 2 ^ 23 + m) by by destruct s.
  assert (Hq : w / 2 ^ 23 = (if s then 256 else 0) + e).
  { symmetry. apply (Z.div_unique w (2 ^ 23) _ m); [lia|]. destruct s; lia. }
  split_and!.
  - destruct s; lia.
  - destruct s; lia.
  - rewrite Z.testbit_odd, Z.shiftr_div_pow2 by lia.
    replace (w / 2 ^ 31) with (if s then 1 else 0); [by destruct s|].
    apply (Z.div_unique w (2 ^ 31) _ (e * 2 ^ 23 + m)); destruct s; lia.
  - rewrite Z.shiftr_div_pow2, Hq by lia. symmetry.
    apply (Z.mod_unique _ _ (if s then 1 else 0)); destruct s; lia.
  - symmetry. apply (Z.mod_unique _ _ ((if s then 256 else 0) + e)); [lia|]. destruct s; lia.
Qed.

(** Reading a word whose fields are known. *)
Lemma double_of_float_fields (s : bool) e m :
  0 <= e < 255 -> 0 <= m < 2 ^ 23 ->
  double_of_float_bits ((if s then 2 ^ 31 else 0) + e * 2 ^ 23 + m) =
    match (if e =? 0 then m else m + 2 ^ 23) with
    | Zpos p => binary_round 53 1024 s p (if e =? 0 then -149 else e - 150)
    | _ => S754_zero s
    end.
Proof.
  intros He Hm. destruct (float_word_fields s e m ltac:(lia) Hm) as (_ & Hs & He' & Hm').
  unfold double_of_float_bits. rewrite Hs, He', Hm'.
  rewrite (proj2 (Z.eqb_neq e 255)) by lia. by destruct (e =? 0).
Qed.

(** A mantissa of 24 bits is exact in a [double]. *)
Lemma promote_exact s p e :
  float_range (Zpos p) e ->
  let y := binary_round 53 1024 s p e in
  valid y /\ isfinite y = true /\ sign y = s /\ mag y = Zpos p * 2 ^ (e + 1074).
Proof.
  intros (Hp & He & _). cbv zeta. destruct (binary_round_spec s p e ltac:(lia)) as (Hv & Hn & Hs & Hm).
  assert (Hr : rnd (Zpos p * 2 ^ (e + 1074)) 1 = Zpos p * 2 ^ (e + 1074)).
  { rewrite <- (Z.mul_1_r (Zpos p * 2 ^ (e + 1074))) at 1. apply rnd_exact; [lia|].
    apply representable_shift; [|lia]. apply representable_small. lia. }
  assert (Hlt : Zpos p * 2 ^ (e + 1074) < ovf).
  { unfold ovf. apply Z.lt_le_trans with (2 ^ 24 * 2 ^ (e + 1074)).
    - apply Z.mul_lt_mono_pos_r; [apply pow2_pos; lia|lia].
    - rewrite <- pow2_add by lia. apply pow2_le. lia. }
  rewrite Hr, Z.min_l in Hm by (apply Z.lt_le_incl; exact Hlt). split_and!; try done.
  destruct (binary_round 53 1024 s p e); try done. cbn [mag] in Hm. rewrite <- Hm in Hlt. by apply Z.lt_irrefl in Hlt.
Qed.

(** A finite [float] survives its word. *)
Lemma float_word s m e :
  float_range (Zpos m) e ->
  let w := bits_of_float (S754_finite s m e) in
  in_width 32 w /\ double_of_float_bits w = binary_round 53 1024 s m e.
Proof.
  intros (Hm & He & Hn). cbn [bits_of_float]. destruct (Z.ltb_spec (Zpos m) (2 ^ 23)) as [Hlt|Hge].
  - assert (e = -149) as -> by lia.
    pose proof (float_word_fields s 0 (Zpos m) ltac:(lia) ltac:(lia)) as [Hw _].
    pose proof (double_of_float_fields s 0 (Zpos m) ltac:(lia) ltac:(lia)) as Hd.
    rewrite Z.mul_0_l, Z.add_0_r in Hw, Hd. split; [exact Hw|exact Hd].
  - pose proof (float_word_fields s (e + 150) (Zpos m - 2 ^ 23) ltac:(lia) ltac:(lia)) as [Hw _].
    pose proof (double_of_float_fields s (e + 150) (Zpos m - 2 ^ 23) ltac:(lia) ltac:(lia)) as Hd.
    split; [exact Hw|]. rewrite Hd, (proj2 (Z.eqb_neq (e + 150) 0)) by lia.
    replace (Zpos m - 2 ^ 23 + 2 ^ 23) with (Zpos m) by lia. by replace (e + 150 - 150) with e by lia.
Qed.

(** ** The trip of a number *)

(** A finite number below 2^127 in magnitude arrives as a finite number of the
    same sign, off by at most 2^-24 of its magnitude (or by 2^-150 near zero). *)
Lemma as_float_near x :
  valid x -> isfinite x = true -> mag x < 2 ^ 1201 ->
  valid (as_float x) /\ isfinite (as_float x) = true /\ sign (as_float x) = sign x /\ near24 (mag x) (mag (as_float x)).
Proof.
  intros Hv Hf Hlim. unfold as_float, float_bits. destruct x as [s| | |s m e]; try discriminate Hf.
  { destruct s; vm_compute; repeat split; discriminate. }
  pose proof (valid_exp _ _ _ Hv) as He. cbn [mag sign] in *.
  destruct (f32_of_double_spec s m e (proj1 He)) as [[Hy Hnear]|[_ Hbig]]; [|by apply Z.lt_nge in Hlim].
  set (y := f32_of_double (S754_finite s m e)) in *. destruct Hy as [Hy|(m' & e' & Hy & Hr)]; rewrite Hy in *.
  - cbn [mag] in Hnear. split; [by destruct s|]. split; [by destruct s|]. split; [by destruct s|].
    destruct s; exact Hnear.
  - destruct (float_word s m' e' Hr) as [_ ->]. destruct (promote_exact s m' e' Hr) as (P1 & P2 & P3 & P4).
    split_and!; try done. by rewrite P4.
Qed.

Lemma float_bits_width x : valid x -> in_width 32 (float_bits x).
Proof.
  unfold float_bits. destruct x as [[]|[]| |s m e]; try done. intros Hv. pose proof (valid_exp _ _ _ Hv) as He.
  destruct (f32_of_double_spec s m e (proj1 He)) as [[[->|(m' & e' & -> & Hr)] _]|[-> _]]; [by destruct s| |by destruct s].
  by apply float_word.
Qed.

#[export] Hint Resolve float_bits_width : float.
