(* ===== verification/LeaderApp.v ===== *)
(** * LeaderApp: the bimanual leader program

    [src/src/apps/wifi_bimanual_leader.cpp]: the state its threads share, the
    runtime control handlers, the feedback callback and one iteration of the main
    loop. The loop body, a handler and a callback are each one step; the clocks,
    the motor readings and the link queries of a step are its inputs, and what it
    sends is its output. [LeaderThreads] refines these steps into single accesses. *)

From Stdlib Require Import SpecFloat.
From S2P Require Import Prelude Float64 Crc32 Wire Packets PacketCodec FeedbackStateBuffer LinkCheck.
From S2P Require Import BilateralGate BilateralEngager RuntimeControl Udp Dynamics RobotState Control.
From S2P Require Import NumParse AppCommon.
From stdpp Require Import gmap pretty.

Open Scope Z_scope.

(** ** Settings *)

Record BilateralSettings := mkBilateralSettings {
  bi_feedback_enabled : bool;
  bi_bind_ip : string;
  bi_right_port : Z;
  bi_left_port : Z;
  bi_peer_ip : string;
  bi_eval_window_s : double;
  bi_link_recheck_s : double;
  bi_gate : BilateralGateConfig;
  bi_render_enabled : bool;
  bi_kp : list double; bi_kd : list double; bi_kf : list double;
  bi_engage_max_error_rad : double;
  bi_engage_max_error_gripper : double;
  bi_engager : EngagerConfig;
}.

(** The member initialisers. *)
Definition bilateral_settings_default : BilateralSettings :=
  mkBilateralSettings false "0.0.0.0" 50500 50501 "" d1 d1 gate_config_default
    false [] [] [] (dlit 1 1) (dlit 1 2) engager_config_default.

(** What is fixed once the program runs. *)
Record LeaderEnv := mkLeaderEnv {
  le_mock : bool;
  le_rate_hz : double;
  le_bi : BilateralSettings;
  le_follower_ip : string;
  le_right_port : Z;
  le_left_port : Z;
  le_publish_telemetry : bool;
  le_telemetry_rate_hz : double;
}.

(** ** State *)

(** The atomics the control handlers and the main loop share. *)
Record LeaderFlags := mkLeaderFlags {
  lf_keep_running : bool;
  lf_command_enabled : bool;
  lf_init_requested : bool;
  lf_init_in_progress : bool;
  lf_goto_requested : bool;
  lf_goto_in_progress : bool;
  lf_goto_target : list double;
  lf_bilateral_requested : bool;
}.

(** One arm: controller (absent in mock mode), feedback buffer, engager and the
    last usable follower state. *)
Record LeaderSide := mkLeaderSide {
  ls_control : option Control;
  ls_buffer : FeedbackStateBuffer;
  ls_engager : BilateralEngager;
  ls_bcmd : LeaderBilateralCommand;
}.

Record LeaderApp := mkLeaderApp {
  la_flags : LeaderFlags;
  la_right : LeaderSide;
  la_left : LeaderSide;
  la_link : LinkInfo;
  la_link_result : BilateralGateResult;
  la_next_link_check : Z;
  la_next_gate_check : Z;
  la_seq : Z;
  la_publisher : TelemetryPublisher;
  la_next_telemetry : Z;
}.

(** *** Updates of single members *)

Definition with_flags (f : LeaderFlags -> LeaderFlags) (a : LeaderApp) : LeaderApp :=
  mkLeaderApp (f (la_flags a)) (la_right a) (la_left a) (la_link a) (la_link_result a)
    (la_next_link_check a) (la_next_gate_check a) (la_seq a) (la_publisher a) (la_next_telemetry a).

Definition with_sides (r l : LeaderSide) (a : LeaderApp) : LeaderApp :=
  mkLeaderApp (la_flags a) r l (la_link a) (la_link_result a)
    (la_next_link_check a) (la_next_gate_check a) (la_seq a) (la_publisher a) (la_next_telemetry a).

Definition with_link (i : LinkInfo) (r : BilateralGateResult) (a : LeaderApp) : LeaderApp :=
  mkLeaderApp (la_flags a) (la_right a) (la_left a) i r
    (la_next_link_check a) (la_next_gate_check a) (la_seq a) (la_publisher a) (la_next_telemetry a).

Definition with_checks (link gate : Z) (a : LeaderApp) : LeaderApp :=
  mkLeaderApp (la_flags a) (la_right a) (la_left a) (la_link a) (la_link_result a)
    link gate (la_seq a) (la_publisher a) (la_next_telemetry a).

Definition with_seq (s : Z) (a : LeaderApp) : LeaderApp :=
  mkLeaderApp (la_flags a) (la_right a) (la_left a) (la_link a) (la_link_result a)
    (la_next_link_check a) (la_next_gate_check a) s (la_publisher a) (la_next_telemetry a).

Definition with_telemetry (p : TelemetryPublisher) (t : Z) (a : LeaderApp) : LeaderApp :=
  mkLeaderApp (la_flags a) (la_right a) (la_left a) (la_link a) (la_link_result a)
    (la_next_link_check a) (la_next_gate_check a) (la_seq a) p t.

Definition set_keep_running (b : bool) (f : LeaderFlags) : LeaderFlags :=
  mkLeaderFlags b (lf_command_enabled f) (lf_init_requested f) (lf_init_in_progress f)
    (lf_goto_requested f) (lf_goto_in_progress f) (lf_goto_target f) (lf_bilateral_requested f).
Definition set_command_enabled (b : bool) (f : LeaderFlags) : LeaderFlags :=
  mkLeaderFlags (lf_keep_running f) b (lf_init_requested f) (lf_init_in_progress f)
    (lf_goto_requested f) (lf_goto_in_progress f) (lf_goto_target f) (lf_bilateral_requested f).
Definition set_init (requested in_progress : bool) (f : LeaderFlags) : LeaderFlags :=
  mkLeaderFlags (lf_keep_running f) (lf_command_enabled f) requested in_progress
    (lf_goto_requested f) (lf_goto_in_progress f) (lf_goto_target f) (lf_bilateral_requested f).
Definition set_goto (requested in_progress : bool) (target : list double) (f : LeaderFlags) : LeaderFlags :=
  mkLeaderFlags (lf_keep_running f) (lf_command_enabled f) (lf_init_requested f) (lf_init_in_progress f)
    requested in_progress target (lf_bilateral_requested f).
Definition set_bilateral_requested (b : bool) (f : LeaderFlags) : LeaderFlags :=
  mkLeaderFlags (lf_keep_running f) (lf_command_enabled f) (lf_init_requested f) (lf_init_in_progress f)
    (lf_goto_requested f) (lf_goto_in_progress f) (lf_goto_target f) b.

Section leader.
Context (env : LeaderEnv).
#[local] Abbreviation bi := (le_bi env).

(** ** Link and gate *)

(** [refresh_link]. *)
Definition refresh_link (os : Os) (a : LeaderApp) : LeaderApp :=
  let link :=
    if String.eqb (bi_peer_ip bi) ""
    then link_failed "" "BilateralLink.PeerIp is not set"
    else query_link_to os (bi_peer_ip bi) in
  with_link link (check_link (bi_gate bi) link) a.

(** [evaluate_gate]: local link and both arms' feedback. *)
Definition evaluate_gate (now : Z) (a : LeaderApp) : outcome BilateralGateResult :=
  if negb (bi_feedback_enabled bi)
  then Ok (mkGateResult false ["BilateralFeedback.Enabled is false in config/leader.yaml"])
  else
    sr ← of_option (fsb_snapshot now (ls_buffer (la_right a)));
    let rr := check_feedback (bi_gate bi) "right" sr (fsb_get_latest (ls_buffer (la_right a))) in
    sl ← of_option (fsb_snapshot now (ls_buffer (la_left a)));
    let rl := check_feedback (bi_gate bi) "left" sl (fsb_get_latest (ls_buffer (la_left a))) in
    Ok (gate_result (gr_reasons (la_link_result a) ++ gr_reasons rr ++ gr_reasons rl)).

(** ** Feedback callback *)

(** The round trip, from the system clock: 0 without an echo or when the clock
    went backwards. *)
Definition feedback_rtt (sys_now : Z) (fb : FeedbackPacket) : Z :=
  if negb (fp_echo_cmd_send_time_ns fb =? 0) && (fp_echo_cmd_send_time_ns fb <? sys_now)
  then sys_now - fp_echo_cmd_send_time_ns fb else 0.

Definition feedback_callback (sys_now now : Z) (data : list Z) (b : FeedbackStateBuffer)
    : FeedbackStateBuffer :=
  match receive_feedback data with
  | Some fb => fsb_update now fb (feedback_rtt sys_now fb) b
  | None => b
  end.

Definition with_buffer (b : FeedbackStateBuffer) (s : LeaderSide) : LeaderSide :=
  mkLeaderSide (ls_control s) b (ls_engager s) (ls_bcmd s).

(** A datagram at the right or the left feedback port. *)
Definition feedback_arrives (side : ArmSide) (sys_now now : Z) (data : list Z) (a : LeaderApp) : LeaderApp :=
  match side with
  | RIGHT => with_sides (with_buffer (feedback_callback sys_now now data (ls_buffer (la_right a))) (la_right a))
               (la_left a) a
  | LEFT => with_sides (la_right a)
              (with_buffer (feedback_callback sys_now now data (ls_buffer (la_left a))) (la_left a)) a
  end.

(** ** Status text *)

Definition key (k : string) : string := quoted k +:+ ":".

Definition feedback_stats_json (s : Stats) (latest : option FeedbackPacket) : string :=
  "{" +:+ key "has_data" +:+ json_bool (st_has_data s) +:+ ","
  +:+ key "age_ms" +:+ fmt2 (st_age_ms s) +:+ ","
  +:+ key "rate_hz" +:+ fmt2 (st_rate_hz s) +:+ ","
  +:+ key "loss_percent" +:+ fmt2 (st_loss_percent s) +:+ ","
  +:+ key "rtt_p50_ms" +:+ fmt2 (st_rtt_p50_ms s) +:+ ","
  +:+ key "rtt_p95_ms" +:+ fmt2 (st_rtt_p95_ms s) +:+ ","
  +:+ key "rtt_max_ms" +:+ fmt2 (st_rtt_max_ms s) +:+ ","
  +:+ key "cmd_hold_p95_ms" +:+ fmt2 (st_cmd_hold_p95_ms s) +:+ ","
  +:+ key "received_total" +:+ pretty (st_received_total s) +:+ ","
  +:+ key "lost_total" +:+ pretty (st_lost_total s) +:+ ","
  +:+ key "follower_link_ok"
    +:+ json_bool (match latest with Some f => negb (fp_link_ok f =? 0) | None => false end) +:+ ","
  +:+ key "follower_enabled"
    +:+ json_bool (match latest with Some f => negb (fp_enabled f =? 0) | None => false end) +:+ ","
  +:+ key "follower_safety_state"
    +:+ pretty (match latest with Some f => fp_safety_state f | None => 0 end) +:+ ","
  +:+ key "follower_mode" +:+ pretty (match latest with Some f => fp_mode f | None => 0 end)
  +:+ "}".

(** [reasons_joined()] with its default separator. *)
Definition reasons_text (r : BilateralGateResult) : string := reasons_joined "; " r.

(** What a status text is put together from: the gate, the link and its check, the
    request, both engagers, both statistics (and, in the long form, both latest
    packets). *)
Definition both_engaged (er el : BilateralEngager) : bool := engager_engaged er && engager_engaged el.

Definition bilateral_status_text (g : BilateralGateResult) (link : LinkInfo) (link_result : BilateralGateResult)
    (requested : bool) (er el : BilateralEngager) (sr sl : Stats) (lr ll : option FeedbackPacket) : string :=
  key "bilateral" +:+ "{"
  +:+ key "feedback_enabled" +:+ json_bool (bi_feedback_enabled bi) +:+ ","
  +:+ key "requested" +:+ json_bool requested +:+ ","
  +:+ key "render_enabled" +:+ json_bool (bi_render_enabled bi) +:+ ","
  +:+ key "engaged" +:+ json_bool (both_engaged er el) +:+ ","
  +:+ key "state_right" +:+ quoted (state_name er) +:+ ","
  +:+ key "state_left" +:+ quoted (state_name el) +:+ ","
  +:+ key "scale_right" +:+ fmt2 (en_scale er) +:+ ","
  +:+ key "scale_left" +:+ fmt2 (en_scale el) +:+ ","
  +:+ key "gate_ok" +:+ json_bool (gr_ok g) +:+ ","
  +:+ key "gate_reasons" +:+ quoted (json_escape (reasons_text g)) +:+ ","
  +:+ key "peer_ip" +:+ quoted (json_escape (bi_peer_ip bi)) +:+ ","
  +:+ key "link" +:+ quoted (json_escape (describe link)) +:+ ","
  +:+ key "link_reasons" +:+ quoted (json_escape (reasons_text link_result)) +:+ ","
  +:+ key "right" +:+ feedback_stats_json sr lr +:+ ","
  +:+ key "left" +:+ feedback_stats_json sl ll
  +:+ "}".

Definition bilateral_summary_text (g : BilateralGateResult) (requested : bool) (er el : BilateralEngager)
    (sr sl : Stats) : string :=
  key "bilateral" +:+ "{"
  +:+ key "feedback_enabled" +:+ json_bool (bi_feedback_enabled bi) +:+ ","
  +:+ key "render_enabled" +:+ json_bool (bi_render_enabled bi) +:+ ","
  +:+ key "requested" +:+ json_bool requested +:+ ","
  +:+ key "engaged" +:+ json_bool (both_engaged er el) +:+ ","
  +:+ key "state_right" +:+ quoted (state_name er) +:+ ","
  +:+ key "state_left" +:+ quoted (state_name el) +:+ ","
  +:+ key "gate_ok" +:+ json_bool (gr_ok g) +:+ ","
  +:+ key "gate_reasons" +:+ quoted (json_escape (reasons_text g)) +:+ ","
  +:+ key "rtt_p95_ms" +:+ fmt2 (dmax (st_rtt_p95_ms sr) (st_rtt_p95_ms sl)) +:+ ","
  +:+ key "rate_hz" +:+ fmt2 (dmin (st_rate_hz sr) (st_rate_hz sl)) +:+ ","
  +:+ key "loss_percent" +:+ fmt2 (dmax (st_loss_percent sr) (st_loss_percent sl))
  +:+ "}".

Definition bilateral_status_json (now : Z) (a : LeaderApp) : outcome string :=
  g ← evaluate_gate now a;
  sr ← of_option (fsb_snapshot now (ls_buffer (la_right a)));
  sl ← of_option (fsb_snapshot now (ls_buffer (la_left a)));
  Ok (bilateral_status_text g (la_link a) (la_link_result a) (lf_bilateral_requested (la_flags a))
        (ls_engager (la_right a)) (ls_engager (la_left a)) sr sl
        (fsb_get_latest (ls_buffer (la_right a))) (fsb_get_latest (ls_buffer (la_left a)))).

Definition bilateral_summary_json (now : Z) (a : LeaderApp) : outcome string :=
  g ← evaluate_gate now a;
  sr ← of_option (fsb_snapshot now (ls_buffer (la_right a)));
  sl ← of_option (fsb_snapshot now (ls_buffer (la_left a)));
  Ok (bilateral_summary_text g (lf_bilateral_requested (la_flags a))
        (ls_engager (la_right a)) (ls_engager (la_left a)) sr sl).

(** ** Control handlers *)

Section handlers.
(** The link queries and the clock a handler call sees. *)
Context (os : Os) (now : Z).

Definition message (text : string) : string := json_ok (key "message" +:+ quoted text).

Definition h_bilateral_enable (args : string) (a : LeaderApp) : outcome (LeaderApp * string) :=
  if negb (lf_command_enabled (la_flags a))
  then Ok (a, json_error "leader is not enabled; switch mode to leader first")
  else
    let a := refresh_link os a in
    g ← evaluate_gate now a;
    if negb (gr_ok g) then Ok (a, json_error ("bilateral refused: " +:+ reasons_text g))
    else
      let a := with_flags (set_bilateral_requested true) a in
      j ← bilateral_status_json now a;
      Ok (a, json_ok (key "message" +:+ quoted "bilateral requested" +:+ "," +:+ j)).

Definition h_bilateral_disable (args : string) (a : LeaderApp) : outcome (LeaderApp * string) :=
  Ok (with_flags (set_bilateral_requested false) a, message "bilateral disabled").

Definition h_bilateral_status (args : string) (a : LeaderApp) : outcome (LeaderApp * string) :=
  j ← bilateral_status_json now a;
  Ok (a, json_ok j).

Definition leader_status_reply (enabled init_requested init_in_progress goto_in_progress running requested : bool)
    (summary : string) : string :=
  json_ok
    (key "role" +:+ quoted "leader" +:+ ","
     +:+ key "follower_ip" +:+ quoted (json_escape (le_follower_ip env)) +:+ ","
     +:+ key "right_port" +:+ pretty (le_right_port env) +:+ ","
     +:+ key "left_port" +:+ pretty (le_left_port env) +:+ ","
     +:+ key "enabled" +:+ json_bool enabled +:+ ","
     +:+ key "init_requested" +:+ json_bool init_requested +:+ ","
     +:+ key "init_in_progress" +:+ json_bool init_in_progress +:+ ","
     +:+ key "goto_in_progress" +:+ json_bool goto_in_progress +:+ ","
     +:+ key "running" +:+ json_bool running +:+ ","
     +:+ key "bilateral_requested" +:+ json_bool requested +:+ ","
     +:+ summary).

Definition h_status (args : string) (a : LeaderApp) : outcome (LeaderApp * string) :=
  let f := la_flags a in
  j ← bilateral_summary_json now a;
  Ok (a, leader_status_reply (lf_command_enabled f) (lf_init_requested f) (lf_init_in_progress f)
           (lf_goto_in_progress f) (lf_keep_running f) (lf_bilateral_requested f) j).

Definition h_disable (args : string) (a : LeaderApp) : outcome (LeaderApp * string) :=
  Ok (with_flags (fun f => set_bilateral_requested false (set_command_enabled false f)) a,
      message "leader disabled").

Definition h_enable (args : string) (a : LeaderApp) : outcome (LeaderApp * string) :=
  Ok (with_flags (set_command_enabled true) a, message "leader enabled").

Definition h_init_position (args : string) (a : LeaderApp) : outcome (LeaderApp * string) :=
  Ok (with_flags (fun f => set_init true (lf_init_in_progress f) f) a,
      message "leader init_position requested").

Definition h_goto_pose (args : string) (a : LeaderApp) : outcome (LeaderApp * string) :=
  let '(ok, vals) := parse_pose16 args in
  if negb ok then Ok (a, json_error "goto_pose expects 16 whitespace-separated values")
  else Ok (with_flags (fun f => set_goto true (lf_goto_in_progress f) vals f) a,
           message "leader goto_pose requested").

Definition h_estop (args : string) (a : LeaderApp) : outcome (LeaderApp * string) :=
  Ok (with_flags (fun f => set_keep_running false (set_bilateral_requested false (set_command_enabled false f))) a,
      message "leader estop requested").

Definition h_shutdown (args : string) (a : LeaderApp) : outcome (LeaderApp * string) :=
  Ok (with_flags (fun f => set_keep_running false (set_command_enabled false f)) a,
      message "leader shutdown requested").

Definition leader_handlers : gmap string (Handler (outcome LeaderApp)) :=
  let reg c h m := register_handler c (lift_handler h) m in
  reg "shutdown" h_shutdown (reg "estop" h_estop (reg "goto_pose" h_goto_pose
    (reg "init_position" h_init_position (reg "enable" h_enable (reg "disable" h_disable
    (reg "status" h_status (reg "bilateral_status" h_bilateral_status
    (reg "bilateral_disable" h_bilateral_disable (reg "bilateral_enable" h_bilateral_enable ∅))))))))).
End handlers.

(** ** One arm of the control loop *)

(** The alignment loops: stop at the first joint out of tolerance. *)
Fixpoint aligned_joints (tol : double) (js : list JointState) (i : nat) (ws : list Z) : outcome bool :=
  match js with
  | [] => Ok true
  | j :: js' =>
      w ← vget ws i;
      if (dabs (js_position j - double_of_bits w) <=? tol)%D then aligned_joints tol js' (S i) ws else Ok false
  end.

(** [v.assign(p, p + n)] from an array of words. *)
Definition assign_words (ws : list Z) (n : Z) : outcome (list double) :=
  for_n (Z.to_nat n) (fun i => w ← vget ws i; Ok (double_of_bits w)).

Definition fresh_feedback (st : Stats) : bool :=
  (st_age_ms st >=? d0)%D && (st_age_ms st <=? g_max_feedback_age_ms (bi_gate bi))%D.

(** [aligned], and the follower state to render. *)
Definition side_reference (c : Control) (fb : FeedbackPacket) (scale : double)
    : outcome (bool * LeaderBilateralCommand) :=
  let arm := rs_response (arm_state (ct_robot_state c)) in
  let hand := rs_response (hand_state (ct_robot_state c)) in
  aligned ←
    (if bool_decide (Z.of_nat (length arm) <= fp_arm_dof fb) && bool_decide (Z.of_nat (length hand) <= fp_hand_dof fb)
     then
       al ← aligned_joints (bi_engage_max_error_rad bi) arm 0 (fp_arm_pos fb);
       if al : bool then aligned_joints (bi_engage_max_error_gripper bi) hand 0 (fp_hand_pos fb) else Ok false
     else Ok false);
  ap ← assign_words (fp_arm_pos fb) (fp_arm_dof fb);
  hp ← assign_words (fp_hand_pos fb) (fp_hand_dof fb);
  at_ ← assign_words (fp_arm_tau fb) (fp_arm_dof fb);
  ht ← assign_words (fp_hand_tau fb) (fp_hand_dof fb);
  Ok (aligned, mkLeaderCommand ap hp at_ ht scale).

Definition with_scale (s : double) (b : LeaderBilateralCommand) : LeaderBilateralCommand :=
  mkLeaderCommand (arm_pos_ref b) (hand_pos_ref b) (arm_tau_f b) (hand_tau_f b) s.

(** [want]. *)
Definition side_want (requested : bool) (st : Stats) (latest : option FeedbackPacket) : bool :=
  match latest with
  | Some fb =>
      bi_render_enabled bi && requested && fresh_feedback st && negb (fp_enabled fb =? 0) && (fp_estop fb =? 0)
  | None => false
  end.

Context (tanh : double -> double).

(** [step_side]: engager, command and control cycle of one arm. *)
Definition step_side (requested : bool) (now : Z) (m : Motors) (s : LeaderSide) : outcome (LeaderSide * Commands) :=
  c ← deref (ls_control s);
  let latest := fsb_get_latest (ls_buffer s) in
  st ← of_option (fsb_snapshot now (ls_buffer s));
  let want := side_want requested st latest in
  '(aligned, bcmd) ←
    match latest with
    | Some fb => if fresh_feedback st then side_reference c fb (bc_scale (ls_bcmd s)) else Ok (false, ls_bcmd s)
    | None => Ok (false, ls_bcmd s)
    end;
  let engager := engager_update want aligned (d1 / le_rate_hz env)%D (ls_engager s) in
  let bcmd := with_scale (en_scale engager) bcmd in
  let '(c, r) := leader_step tanh (if engager_active engager then Some bcmd else None) m c in
  cmds ← r;
  Ok (mkLeaderSide (Some c) (ls_buffer s) engager bcmd, cmds).

(** ** Packets *)

(** The joint part of a zeroed packet after the fill loops. *)
Definition fill_joints (arm hand : list JointState) : TeleopPacket :=
  let arm_dof := Z.of_nat (length arm) mod 2 ^ 8 in
  let hand_dof := Z.of_nat (length hand) mod 2 ^ 8 in
  let na := Z.to_nat (Z.min arm_dof 8) in
  let nh := Z.to_nat (Z.min hand_dof 4) in
  let bits n f (l : list JointState) := map (fun j => bits_of_double (f j)) (take n l) in
  mkTeleopPacket 0 0 0 0 0 0 0 0 0 arm_dof hand_dof 0 0
    (pad 8 (bits na js_position arm)) (pad 8 (bits na js_velocity arm))
    (pad 4 (bits nh js_position hand)) (pad 4 (bits nh js_velocity hand)) 0.

(** The joint part in mock mode; [osc] is [std::sin] or [std::cos] of the clock. *)
Definition fill_mock (osc : double -> double) (sys_now : Z) : TeleopPacket :=
  let t := (d_of_Z sys_now / d_of_Z 1000000000)%D in
  mkTeleopPacket 0 0 0 0 0 0 0 0 0 7 1 0 0
    (pad 8 (map (fun i => bits_of_double (osc (t * d_of_Z 2 + d_of_Z (Z.of_nat i))%D)) (seq 0 7)))
    (replicate 8 0) (replicate 4 0) (replicate 4 0) 0.

(** The header members set before encoding. *)
Definition command_header (side : ArmSide) (seq : Z) (mode : ControlMode) (enabled : bool) (p : TeleopPacket)
    : TeleopPacket :=
  mkTeleopPacket (tp_magic p) (tp_version p) (tp_packet_size p) seq (tp_send_time_ns p)
    (arm_side_u8 side) (control_mode_u8 mode) (if enabled then 1 else 0) 0
    (tp_arm_dof p) (tp_hand_dof p) (tp_reserved0 p) (tp_reserved1 p)
    (tp_arm_pos p) (tp_arm_vel p) (tp_hand_pos p) (tp_hand_vel p) (tp_crc32 p).

(** Words of a teleop packet as telemetry floats. *)
Definition float_words (n : nat) (ws : list Z) : list Z := map (fun w => float_bits (double_of_bits w)) (take n ws).

(** Eight entries per arm: seven joints and the gripper. *)
Definition telemetry_arm (p : TeleopPacket) (arm hand : list Z) : list Z :=
  pad 7 (float_words (Z.to_nat (Z.min (tp_arm_dof p) 7)) arm)
  ++ pad 1 (if 0 <? tp_hand_dof p then float_words 1 hand else []).

Definition leader_telemetry (now : Z) (enabled : bool) (r l : TeleopPacket) : OpenArmTelemetryPacketV1 :=
  mkTelemetryPacket 0 0 0 0 now 1 1 (if enabled then 1 else 0) 0 16 16 16 0 3 3 0 0
    (telemetry_arm r (tp_arm_pos r) (tp_hand_pos r) ++ telemetry_arm l (tp_arm_pos l) (tp_hand_pos l))
    (replicate 16 0)
    (telemetry_arm r (tp_arm_vel r) (tp_hand_vel r) ++ telemetry_arm l (tp_arm_vel l) (tp_hand_vel l))
    0.

(** ** The main loop *)

(** What one iteration reads: motor readings (during pose moves and for the
    control cycle), clocks, link state. *)
Record LeaderInput := mkLeaderInput {
  in_init_r : nat -> Motors; in_init_l : nat -> Motors;
  in_goto_r : nat -> Motors; in_goto_l : nat -> Motors;
  in_motors_r : Motors; in_motors_l : Motors;
  in_now_r : Z; in_now_l : Z;            (* snapshots of the two arms *)
  in_tnow : Z; in_gate_now : Z;          (* continuous gate *)
  in_sys_mock : Z; in_sys_r : Z; in_sys_l : Z;
  in_now_end : Z; in_telemetry_ns : Z;
  in_os : Os;
}.

(** Commands of the two arms' moves, step by step. *)
Definition MoveTrace : Type := (list (Commands * RobotSystemState) * list (Commands * RobotSystemState))%type.

Record LeaderOutput := mkLeaderOutput {
  out_init : option MoveTrace;
  out_goto : option MoveTrace;
  out_arms : option (Commands * Commands);
  out_pkt_r : TeleopPacket;
  out_pkt_l : TeleopPacket;
  out_telemetry : option (list Z);
}.

Definition with_control (c : Control) (s : LeaderSide) : LeaderSide :=
  mkLeaderSide (Some c) (ls_buffer s) (ls_engager s) (ls_bcmd s).

(** Both arms move at once, in two threads that are joined. *)
Definition move_both (tr gr tl gl : list double) (rr rl : nat -> Motors) (a : LeaderApp)
    : outcome (LeaderApp * MoveTrace) :=
  cr ← deref (ls_control (la_right a));
  cl ← deref (ls_control (la_left a));
  '(sr, cr) ← MoveToPose tr gr rr cr;
  '(sl, cl) ← MoveToPose tl gl rl cl;
  Ok (with_sides (with_control cr (la_right a)) (with_control cl (la_left a)) a, (sr, sl)).

Definition real_arms (a : LeaderApp) : bool :=
  negb (le_mock env) && bool_decide (is_Some (ls_control (la_right a)))
  && bool_decide (is_Some (ls_control (la_left a))).

(** Target of [AdjustPosition]. *)
Definition home : list double := take (NMOTORS - 1) INITIAL_POSITION.

(** [init_position_requested.exchange(false)] and the move it starts. *)
Definition serve_init (i : LeaderInput) (a : LeaderApp) : outcome (LeaderApp * option MoveTrace) :=
  if lf_init_requested (la_flags a) then
    let a := with_flags (set_init false true) a in
    '(a, t) ←
      (if real_arms a then
         '(a, t) ← move_both home [d0] home [d0] (in_init_r i) (in_init_l i) a; Ok (a, Some t)
       else Ok (a, None));
    Ok (with_flags (fun f => set_init (lf_init_requested f) false f) a, t)
  else Ok (a, None).

Definition serve_goto (i : LeaderInput) (a : LeaderApp) : outcome (LeaderApp * option MoveTrace) :=
  if lf_goto_requested (la_flags a) then
    let a := with_flags (fun f => set_goto false true (lf_goto_target f) f) a in
    '(a, t) ←
      (if real_arms a then
         match split_pose (lf_goto_target (la_flags a)) with
         | Some p =>
             '(a, t) ← move_both (tg_r p) (tg_gr p) (tg_l p) (tg_gl p) (in_goto_r i) (in_goto_l i) a;
             Ok (a, Some t)
         | None => Ok (a, None)
         end
       else Ok (a, None));
    Ok (with_flags (fun f => set_goto (lf_goto_requested f) false (lf_goto_target f) f) a, t)
  else Ok (a, None).

Definition side_joints (s : LeaderSide) : outcome TeleopPacket :=
  c ← deref (ls_control s);
  Ok (fill_joints (rs_response (arm_state (ct_robot_state c))) (rs_response (hand_state (ct_robot_state c)))).

Context (sin cos : double -> double).

(** Control cycles of both arms and the joint parts of the packets. *)
Definition serve_arms (i : LeaderInput) (a : LeaderApp)
    : outcome (LeaderApp * option (Commands * Commands) * TeleopPacket * TeleopPacket) :=
  if le_mock env
  then Ok (a, None, fill_mock sin (in_sys_mock i), fill_mock cos (in_sys_mock i))
  else
    let requested := lf_bilateral_requested (la_flags a) in
    '(r, cr) ← step_side requested (in_now_r i) (in_motors_r i) (la_right a);
    '(l, cl) ← step_side requested (in_now_l i) (in_motors_l i) (la_left a);
    pr ← side_joints r;
    pl ← side_joints l;
    Ok (with_sides r l a, Some (cr, cl), pr, pl).

(** The continuous gate: any failure drops back to unilateral. *)
Definition continuous_gate (i : LeaderInput) (a : LeaderApp) : outcome LeaderApp :=
  if lf_bilateral_requested (la_flags a) then
    a ← (if la_next_link_check a <=? in_tnow i then
           let a := refresh_link (in_os i) a in
           dt ← ns_of_seconds (bi_link_recheck_s bi);
           Ok (with_checks (in_tnow i + dt) (la_next_gate_check a) a)
         else Ok a);
    if la_next_gate_check a <=? in_tnow i then
      g ← evaluate_gate (in_gate_now i) a;
      let a := if negb (gr_ok g) then with_flags (set_bilateral_requested false) a else a in
      Ok (with_checks (la_next_link_check a) (in_tnow i + 100 * 1000000) a)
    else Ok a
  else Ok a.

Definition cmd_mode (a : LeaderApp) : ControlMode :=
  if lf_bilateral_requested (la_flags a) then BILATERAL else UNILATERAL.

Definition publish_leader (i : LeaderInput) (p : OpenArmTelemetryPacketV1) (a : LeaderApp)
    : outcome (LeaderApp * option (list Z)) :=
  let '(d, pub) := publish p (la_publisher a) in
  dt ← ns_of_seconds (d1 / le_telemetry_rate_hz env)%D;
  Ok (with_telemetry pub (in_now_end i + dt) a, d).

Definition serve_telemetry (i : LeaderInput) (pr pl : TeleopPacket) (a : LeaderApp)
    : outcome (LeaderApp * option (list Z)) :=
  if le_publish_telemetry env && (la_next_telemetry a <=? in_now_end i)
  then publish_leader i (leader_telemetry (in_telemetry_ns i) (lf_command_enabled (la_flags a)) pr pl) a
  else Ok (a, None).

(** One iteration. *)
Definition leader_cycle (i : LeaderInput) (a : LeaderApp) : outcome (LeaderApp * LeaderOutput) :=
  '(a, ti) ← serve_init i a;
  '(a, tg) ← serve_goto i a;
  '(a, cmds, jr, jl) ← serve_arms i a;
  a ← continuous_gate i a;
  let enabled := lf_command_enabled (la_flags a) in
  let pr := teleop_encode (in_sys_r i) (command_header RIGHT (la_seq a) (cmd_mode a) enabled jr) in
  let pl := teleop_encode (in_sys_l i) (command_header LEFT (la_seq a) (cmd_mode a) enabled jl) in
  let a := with_seq (u32 (la_seq a + 1)) a in
  '(a, tel) ← serve_telemetry i pr pl a;
  Ok (a, mkLeaderOutput ti tg cmds pr pl tel).

(** ** Executions *)

(** A step of the program: the threads take turns. *)
Inductive LeaderEvent :=
| EvCommand (os : Os) (now : Z) (line : string)
| EvFeedback (side : ArmSide) (sys_now now : Z) (data : list Z)
| EvSignal
| EvCycle (i : LeaderInput).

(** The main loop only runs while [keep_running]. *)
Definition leader_event (e : LeaderEvent) (st : outcome LeaderApp) : outcome LeaderApp * option LeaderOutput :=
  match e with
  | EvCommand os now line => ((handle_command (leader_handlers os now) line st).1, None)
  | EvFeedback side sys_now now data => (a ← st; Ok (feedback_arrives side sys_now now data a), None)
  | EvSignal => (a ← st; Ok (with_flags (set_keep_running false) a), None)
  | EvCycle i =>
      match st with
      | Ok a =>
          if lf_keep_running (la_flags a) then
            match leader_cycle i a with
            | Ok (a, o) => (Ok a, Some o)
            | Throw e => (Throw e, None)
            | Undef => (Undef, None)
            end
          else (Ok a, None)
      | _ => (st, None)
      end
  end.

Definition leader_run (st : outcome LeaderApp) (l : list LeaderEvent) : outcome LeaderApp :=
  fold_left (fun st e => (leader_event e st).1) l st.
End leader.

(** ** Start of the program *)

(** The state when the loop is entered: the arms' controllers after their first
    move, the first link check if feedback is enabled. *)
Definition leader_new (env : LeaderEnv) (initial_enable : bool) (os : Os) (start : Z) (pub : TelemetryPublisher)
    (cr cl : option Control) : outcome LeaderApp :=
  buf ← of_option (fsb_new (bi_eval_window_s (le_bi env)));
  let side c := mkLeaderSide c buf (engager_new (bi_engager (le_bi env))) (mkLeaderCommand [] [] [] [] d0) in
  let a := mkLeaderApp (mkLeaderFlags true initial_enable false false false false [] false)
    (side cr) (side cl) link_info_default (mkGateResult false []) start start 0 pub start in
  Ok (if bi_feedback_enabled (le_bi env) then refresh_link env os a else a).
