(* ===== verification/LeaderFacts.v ===== *)
(** * Facts about the leader program

    The theorems about [LeaderApp]: the packets of a cycle, what turns force
    rendering on and what always turns it off, which torques an arm's cycle
    sends, and when the cycle is free of undefined behaviour. *)

From Stdlib Require Import SpecFloat.
From S2P Require Import Prelude Float64 Float64Round Float64Ops Float64Arith Float64Order Float64Facts.
From S2P Require Import Crc32 Wire Packets PacketCodec FeedbackStateBuffer LinkCheck.
From S2P Require Import BilateralGate BilateralEngager RuntimeControl Udp Dynamics RobotState Control ControlFacts.
From S2P Require Import NumParse AppCommon LeaderApp.
From stdpp Require Import gmap.

Open Scope Z_scope.

(** Splits a computation that returned into its steps. *)
Ltac run_ok H :=
  repeat match type of H with
    | (_ ≫= _) = Ok _ =>
        let x := fresh "x" in let E := fresh "E" in
        rewrite bind_ok in H; destruct H as (x & E & H)
    | (let '(_, _) := ?p in _) = Ok _ => destruct p eqn:?
    | (match ?p with (_, _) => _ end) = Ok _ => destruct p eqn:?
    end.

Section facts.
Context (env : LeaderEnv) (tanh sin cos : double -> double).

(** ** What the phases of a cycle leave alone *)

(** Everything but the pose-move flags and the controllers. *)
Definition core (a : LeaderApp) :=
  (lf_keep_running (la_flags a), lf_command_enabled (la_flags a), lf_bilateral_requested (la_flags a),
   (la_link a, la_link_result a, la_next_link_check a, la_next_gate_check a),
   la_seq a, (la_publisher a, la_next_telemetry a),
   (ls_buffer (la_right a), ls_engager (la_right a), ls_bcmd (la_right a)),
   (ls_buffer (la_left a), ls_engager (la_left a), ls_bcmd (la_left a))).

(** Everything but the two sides. *)
Definition shared (a : LeaderApp) :=
  (la_flags a, (la_link a, la_link_result a, la_next_link_check a, la_next_gate_check a),
   la_seq a, (la_publisher a, la_next_telemetry a)).

Lemma move_both_core tr gr tl gl rr rl a a' t :
  move_both tr gr tl gl rr rl a = Ok (a', t) -> core a' = core a /\ la_flags a' = la_flags a.
Proof. unfold move_both. intros H. run_ok H. by injection H as <- _. Qed.

Lemma serve_init_core i a a' t : serve_init env i a = Ok (a', t) -> core a' = core a.
Proof.
  unfold serve_init. destruct (lf_init_requested _); [|by intros [= <- _]]. cbv zeta.
  destruct (real_arms env _); intros H; run_ok H.
  - run_ok E. injection E as <- <-. injection H as <- _. apply move_both_core in E0 as [E0 _]. exact E0.
  - injection E as <- <-. by injection H as <- _.
Qed.

Lemma serve_goto_core i a a' t : serve_goto env i a = Ok (a', t) -> core a' = core a.
Proof.
  unfold serve_goto. destruct (lf_goto_requested _); [|by intros [= <- _]]. cbv zeta.
  destruct (real_arms env _); intros H; run_ok H.
  - destruct (split_pose _) as [p|].
    + run_ok E. injection E as <- <-. injection H as <- _. apply move_both_core in E0 as [E0 _]. exact E0.
    + injection E as <- <-. by injection H as <- _.
  - injection E as <- <-. by injection H as <- _.
Qed.

Lemma serve_arms_shared i a a' cmds pr pl :
  serve_arms env tanh sin cos i a = Ok (a', cmds, pr, pl) -> shared a' = shared a.
Proof.
  unfold serve_arms. destruct (le_mock env); [by intros [= <- _ _ _]|]. cbv zeta. intros H.
  run_ok H. by injection H as <- _ _ _.
Qed.

(** ** Packets *)

Lemma fill_joints_shaped arm hand : shaped (fill_joints arm hand).
Proof. unfold fill_joints. split_and!; simpl; apply length_pad. Qed.

Lemma fill_mock_shaped osc t : shaped (fill_mock osc t).
Proof. unfold fill_mock. by split_and!. Qed.

Lemma command_header_shaped side seq mode en p : shaped p -> shaped (command_header side seq mode en p).
Proof. by intros (? & ? & ? & ?). Qed.

Lemma serve_arms_shaped i a a' cmds pr pl :
  serve_arms env tanh sin cos i a = Ok (a', cmds, pr, pl) -> shaped pr /\ shaped pl.
Proof.
  unfold serve_arms. destruct (le_mock env); [intros [= _ _ <- <-]; split; apply fill_mock_shaped|].
  cbv zeta. intros H. run_ok H. injection H as _ _ <- <-.
  unfold side_joints in *. run_ok E1. run_ok E2. injection E1 as <-. injection E2 as <-.
  split; apply fill_joints_shaped.
Qed.

(** *** The continuous gate *)

Lemma continuous_gate_spec i a a' :
  continuous_gate env i a = Ok a' ->
  lf_keep_running (la_flags a') = lf_keep_running (la_flags a) /\
  lf_command_enabled (la_flags a') = lf_command_enabled (la_flags a) /\
  la_seq a' = la_seq a /\ la_right a' = la_right a /\ la_left a' = la_left a /\
  (lf_bilateral_requested (la_flags a') = true -> lf_bilateral_requested (la_flags a) = true) /\
  (lf_bilateral_requested (la_flags a') = true -> la_next_gate_check a <= in_tnow i ->
   exists g, evaluate_gate env (in_gate_now i) a' = Ok g /\ gr_ok g = true).
Proof.
  unfold continuous_gate. destruct (lf_bilateral_requested (la_flags a)) eqn:Er.
  2: { intros [= <-]. split_and!; try done; by rewrite Er. }
  intros H. rewrite bind_ok in H. destruct H as (b & Eb & H).
  assert (Hb : la_flags b = la_flags a /\ la_seq b = la_seq a /\ la_right b = la_right a /\
               la_left b = la_left a /\ la_next_gate_check b = la_next_gate_check a).
  { destruct (la_next_link_check a <=? in_tnow i); [|by injection Eb as <-].
    run_ok Eb. by injection Eb as <-. }
  destruct Hb as (Hf & Hs & Hr & Hl & Hn).
  destruct (Z.leb_spec (la_next_gate_check b) (in_tnow i)) as [Hle|Hgt].
  - rewrite bind_ok in H. destruct H as (g & Eg & H). cbv zeta in H. injection H as <-.
    destruct (gr_ok g) eqn:Eok; simpl; rewrite ?Hf, ?Hs, ?Hr, ?Hl; split_and!; try done; intros ?; try done.
    intros _. exists g. split; [|done]. exact Eg.
  - injection H as <-. rewrite Hf, Hs, Hr, Hl. split_and!; try done. intros _ ?. lia.
Qed.

(** *** One cycle *)

Lemma serve_telemetry_flags i pr pl a a' d :
  serve_telemetry env i pr pl a = Ok (a', d) ->
  la_flags a' = la_flags a /\ la_seq a' = la_seq a /\ la_right a' = la_right a /\ la_left a' = la_left a.
Proof.
  unfold serve_telemetry. destruct (_ && _); [|by intros [= <- _]].
  unfold publish_leader. destruct (publish _ _) as [d' pub]. intros H. run_ok H. by injection H as <- _.
Qed.

(** A cycle is its phases; the flags it ends with are those of the gate. *)
Lemma leader_cycle_inv i a a' o :
  leader_cycle env tanh sin cos i a = Ok (a', o) ->
  exists a1 a2 a3 jr jl,
    core a1 = core a /\
    serve_arms env tanh sin cos i a1 = Ok (a2, out_arms o, jr, jl) /\ continuous_gate env i a2 = Ok a3 /\
    la_flags a' = la_flags a3 /\ la_right a' = la_right a3 /\ la_left a' = la_left a3 /\
    la_seq a' = u32 (la_seq a3 + 1) /\
    out_pkt_r o = teleop_encode (in_sys_r i)
      (command_header RIGHT (la_seq a3) (cmd_mode a3) (lf_command_enabled (la_flags a3)) jr) /\
    out_pkt_l o = teleop_encode (in_sys_l i)
      (command_header LEFT (la_seq a3) (cmd_mode a3) (lf_command_enabled (la_flags a3)) jl).
Proof.
  unfold leader_cycle. intros H. rewrite bind_ok in H. destruct H as ([b ti] & E1 & H).
  rewrite bind_ok in H. destruct H as ([c tg] & E2 & H).
  rewrite bind_ok in H. destruct H as ([[[d cmds] jr] jl] & E3 & H).
  rewrite bind_ok in H. destruct H as (e & E4 & H). cbv zeta in H.
  rewrite bind_ok in H. destruct H as ([f tel] & E5 & H). injection H as <- <-.
  apply serve_init_core in E1. apply serve_goto_core in E2.
  apply serve_telemetry_flags in E5 as (H1 & H2 & H3 & H4).
  exists c, d, e, jr, jl. rewrite H1, H2, H3, H4. split_and!; try done. congruence.
Qed.

Lemma core_flags a b :
  core a = core b ->
  lf_keep_running (la_flags a) = lf_keep_running (la_flags b) /\
  lf_command_enabled (la_flags a) = lf_command_enabled (la_flags b) /\
  lf_bilateral_requested (la_flags a) = lf_bilateral_requested (la_flags b) /\ la_seq a = la_seq b /\
  la_next_gate_check a = la_next_gate_check b.
Proof. intros [=]. by split_and!. Qed.

Lemma shared_flags a b :
  shared a = shared b -> la_flags a = la_flags b /\ la_seq a = la_seq b /\
  la_next_gate_check a = la_next_gate_check b.
Proof. intros [=]. by split_and!. Qed.

Lemma leader_cycle_flags i a a' o :
  leader_cycle env tanh sin cos i a = Ok (a', o) ->
  lf_keep_running (la_flags a') = lf_keep_running (la_flags a) /\
  lf_command_enabled (la_flags a') = lf_command_enabled (la_flags a) /\
  la_seq a' = u32 (la_seq a + 1) /\
  (lf_bilateral_requested (la_flags a') = true -> lf_bilateral_requested (la_flags a) = true) /\
  (lf_bilateral_requested (la_flags a') = true -> la_next_gate_check a <= in_tnow i ->
   exists b g, la_right b = la_right a' /\ la_left b = la_left a' /\
     evaluate_gate env (in_gate_now i) b = Ok g /\ gr_ok g = true).
Proof.
  intros H. apply leader_cycle_inv in H as (a1 & a2 & a3 & jr & jl & H1 & H2 & H3 & Hf & Hr & Hl & Hs & _ & _).
  apply serve_arms_shared, shared_flags in H2 as (F2 & S2 & N2).
  apply core_flags in H1 as (K1 & C1 & B1 & S1 & N1).
  apply continuous_gate_spec in H3 as (K3 & C3 & S3 & R3 & L3 & B3 & G3).
  rewrite Hf, Hs. rewrite F2 in K3, C3, B3. split_and!; [congruence|congruence|congruence|naive_solver congruence|].
  intros Hb Hn. destruct G3 as (g & Eg & Eok); [done|congruence|]. exists a3, g. by rewrite Hr, Hl.
Qed.

(** *** What an arm's cycle leaves behind *)

Lemma leader_step_responses cmd m c :
  (leader_step tanh cmd m c).1 = with_responses m c.
Proof. done. Qed.

Lemma step_side_joints requested now m s s' cmds :
  step_side env tanh requested now m s = Ok (s', cmds) ->
  side_joints s' = Ok (fill_joints (arm_motor_to_joint (arm_motors m)) (gripper_motor_to_joint (gripper_motors m))).
Proof.
  unfold step_side. cbv zeta. intros H. rewrite bind_ok in H. destruct H as (c & _ & H).
  rewrite bind_ok in H. destruct H as (st & _ & H). rewrite bind_ok in H. destruct H as ([al bc] & _ & H).
  destruct (leader_step _ _ _ _) as [c' r] eqn:El. rewrite bind_ok in H. destruct H as (x & _ & [= <- _]).
  apply (f_equal fst) in El. rewrite leader_step_responses in El. simpl in El. subst c'. done.
Qed.

Lemma serve_arms_joints i a a' cmds jr jl :
  le_mock env = false ->
  serve_arms env tanh sin cos i a = Ok (a', cmds, jr, jl) ->
  jr = fill_joints (arm_motor_to_joint (arm_motors (in_motors_r i))) (gripper_motor_to_joint (gripper_motors (in_motors_r i))) /\
  jl = fill_joints (arm_motor_to_joint (arm_motors (in_motors_l i))) (gripper_motor_to_joint (gripper_motors (in_motors_l i))).
Proof.
  intros Hm. unfold serve_arms. rewrite Hm. cbv zeta. intros H.
  rewrite bind_ok in H. destruct H as ([r cr] & Er & H). rewrite bind_ok in H. destruct H as ([l cl] & El & H).
  apply step_side_joints in Er, El. rewrite Er, El in H. cbn [mbind outcome_bind] in H. by injection H as _ _ <- <-.
Qed.

(** The packet's words are the joint positions and velocities. *)
Lemma fill_joints_words m g :
  (length m <= 8)%nat -> (length g <= 4)%nat ->
  let p := fill_joints (arm_motor_to_joint m) (gripper_motor_to_joint g) in
  tp_arm_dof p = Z.of_nat (length m) /\ tp_hand_dof p = Z.of_nat (length g) /\
  tp_arm_pos p = pad 8 (map (fun s => bits_of_double (ms_position s)) m) /\
  tp_arm_vel p = pad 8 (map (fun s => bits_of_double (ms_velocity s)) m) /\
  tp_hand_vel p = pad 4 (map (fun s => bits_of_double (ms_velocity s)) g).
Proof.
  intros Hm Hg. cbv zeta. unfold fill_joints. autorewrite with teleop.
  rewrite !Z.mod_small by lia. rewrite !Z.min_l by lia. rewrite !Nat2Z.id.
  cbn [tp_arm_dof tp_hand_dof tp_arm_pos tp_arm_vel tp_hand_vel].
  rewrite !take_ge by (autorewrite with teleop; done).
  unfold arm_motor_to_joint, gripper_motor_to_joint. rewrite !map_map. by split_and!.
Qed.

(** ** Commands *)

(** The command word of a line. *)
Definition command_word (line : string) : string := (split_first (trim line)).1.

(** What every command but [bilateral_enable] does to the flags: it never turns
    force rendering on, three of them turn it off, none restarts the program, and
    the arms are disabled only together with rendering or with the program. *)
Definition benign (w : string) (a a' : LeaderApp) : Prop :=
  (lf_bilateral_requested (la_flags a') = true ->
     lf_bilateral_requested (la_flags a) = true /\ w <> "bilateral_disable" /\ w <> "disable" /\ w <> "estop") /\
  (lf_keep_running (la_flags a') = lf_keep_running (la_flags a) \/ lf_keep_running (la_flags a') = false) /\
  (lf_command_enabled (la_flags a') = false -> lf_command_enabled (la_flags a) = true ->
     lf_bilateral_requested (la_flags a') = false \/ lf_keep_running (la_flags a') = false) /\
  la_seq a' = la_seq a.

Lemma benign_refl w a : w <> "bilateral_disable" -> w <> "disable" -> w <> "estop" -> benign w a a.
Proof. intros H1 H2 H3. unfold benign. split_and!; try done; [by left|intros ->; done]. Qed.

Lemma leader_handlers_inv os now w h :
  leader_handlers env os now !! w = Some h ->
  (w = "bilateral_enable" /\ h = lift_handler (h_bilateral_enable env os now)) \/
  exists g, h = lift_handler g /\ forall args a a' r, g args a = Ok (a', r) -> benign w a a'.
Proof.
  unfold leader_handlers, register_handler.
  repeat (rewrite lookup_insert_Some; intros [[<- <-]|[_ H]]; [|revert H]).
  11: by intros H; apply lookup_empty_Some in H.
  10: by left.
  all: right; eexists; (split; [reflexivity|]); intros args a a' r;
    unfold h_shutdown, h_estop, h_goto_pose, h_init_position, h_enable, h_disable, h_status,
      h_bilateral_status, h_bilateral_disable; intros H.
  3: destruct (parse_pose16 args) as [[] vals]; cbn [negb] in H.
  all: run_ok H; injection H as <- _; try (by apply benign_refl);
    unfold benign; simpl; split_and!; try done; try (by intros ->); auto.
Qed.

(** *** What turns force rendering on *)

(** The event enables rendering: the command, an enabled leader and a gate that
    passes at that moment, with the link queried again. *)
Definition armed (e : LeaderEvent) (a : LeaderApp) : Prop :=
  exists os now line g, e = EvCommand os now line /\ command_word line = "bilateral_enable" /\
    lf_command_enabled (la_flags a) = true /\
    evaluate_gate env now (refresh_link env os a) = Ok g /\ gr_ok g = true.

(** The event lets rendering go on. *)
Definition kept (e : LeaderEvent) (a a' : LeaderApp) : Prop :=
  match e with
  | EvCommand _ _ line =>
      command_word line <> "bilateral_disable" /\ command_word line <> "disable" /\ command_word line <> "estop"
  | EvCycle i =>
      lf_keep_running (la_flags a) = true -> la_next_gate_check a <= in_tnow i ->
      exists b g, la_right b = la_right a' /\ la_left b = la_left a' /\
        evaluate_gate env (in_gate_now i) b = Ok g /\ gr_ok g = true
  | _ => True
  end.

Lemma bilateral_enable_inv os now args a a' r :
  h_bilateral_enable env os now args a = Ok (a', r) ->
  lf_keep_running (la_flags a') = lf_keep_running (la_flags a) /\
  lf_command_enabled (la_flags a') = lf_command_enabled (la_flags a) /\ la_seq a' = la_seq a /\
  (lf_bilateral_requested (la_flags a') = lf_bilateral_requested (la_flags a) \/
   lf_command_enabled (la_flags a) = true /\
   exists g, evaluate_gate env now (refresh_link env os a) = Ok g /\ gr_ok g = true).
Proof.
  unfold h_bilateral_enable. destruct (lf_command_enabled (la_flags a)) eqn:Ec; cbn [negb].
  2: { intros [= <- _]. split_and!; try done. by left. }
  intros H. rewrite bind_ok in H. destruct H as (g & Eg & H). destruct (gr_ok g) eqn:Eok; cbn [negb] in H.
  - rewrite bind_ok in H. destruct H as (j & _ & [= <- _]). split_and!; [done|done|done|].
    right. split; [done|]. by exists g.
  - injection H as <- _. split_and!; [done|done|done|by left].
Qed.

(** A command line that returns a state: what it did. *)
Lemma command_inv os now line a a' r :
  handle_command (leader_handlers env os now) line (Ok a) = (Ok a', r) ->
  (command_word line = "bilateral_enable" /\ exists args, h_bilateral_enable env os now args a = Ok (a', r)) \/
  benign (command_word line) a a'.
Proof.
  unfold handle_command, command_word. cbv zeta.
  assert (Hcase : forall w args,
    match leader_handlers env os now !! w with
    | Some h => h args (Ok a)
    | None => (Ok a, json_error ("unknown command: " +:+ w))
    end = (Ok a', r) ->
    (w = "bilateral_enable" /\ exists args, h_bilateral_enable env os now args a = Ok (a', r)) \/ benign w a a').
  { intros w args. destruct (leader_handlers env os now !! w) as [h|] eqn:Eh.
    - destruct (leader_handlers_inv _ _ _ _ Eh) as [[-> ->]|(g & -> & Hg)]; intros H; [left|right].
      + split; [done|]. exists args. unfold lift_handler in H.
        destruct (h_bilateral_enable _ _ _ _ _) as [[b rb]| |]; by simplify_eq.
      + unfold lift_handler in H. destruct (g args a) as [[b rb]| |] eqn:Eg; simplify_eq. by eapply Hg.
    - intros [= <- _]. right. apply benign_refl; intros ->; by vm_compute in Eh. }
  destruct (split_first (trim line)) as [w [rest|]]; apply Hcase.
Qed.

Lemma leader_event_requested e a a' :
  (leader_event env tanh sin cos e (Ok a)).1 = Ok a' -> lf_bilateral_requested (la_flags a') = true ->
  armed e a \/ (lf_bilateral_requested (la_flags a) = true /\ kept e a a').
Proof.
  destruct e as [os now line|side sys_now now data| |i]; cbn [leader_event].
  - intros H Hr. destruct (handle_command _ line (Ok a)) as [st r] eqn:E. cbn [fst] in H. subst st.
    destruct (command_inv _ _ _ _ _ _ E) as [(Hw & args & Hh)|Hb].
    + apply bilateral_enable_inv in Hh as (_ & _ & _ & [Hq|(Hc & g & Hg & Hok)]).
      * right. split; [congruence|]. unfold kept. by rewrite Hw.
      * left. by exists os, now, line, g.
    + right. destruct Hb as (H1 & _). destruct (H1 Hr) as (? & ? & ? & ?). by split_and!.
  - cbn [fst mbind outcome_bind]. intros [= <-] Hr. right. split; [|done]. by destruct side.
  - cbn [fst mbind outcome_bind]. intros [= <-] Hr. by right.
  - destruct (lf_keep_running (la_flags a)) eqn:Ek.
    + destruct (leader_cycle _ _ _ _ i a) as [[b o]| |] eqn:Ec; cbn [fst]; try done. intros [= <-] Hr.
      apply leader_cycle_flags in Ec as (_ & _ & _ & H1 & H2). right. split; [by apply H1|]. intros _. by apply H2.
    + cbn [fst]. intros [= <-] Hr. right. split; [done|]. intros Hk. congruence.
Qed.

Lemma leader_event_ok e st a' :
  (leader_event env tanh sin cos e st).1 = Ok a' -> exists a, st = Ok a.
Proof.
  destruct st as [a|x|]; [by eexists| |]; intros H; exfalso; destruct e as [os now line|? ? ? ?| |i]; try done;
    revert H; cbn [leader_event]; unfold handle_command; cbv zeta;
    destruct (split_first (trim line)) as [w [rest|]];
    (destruct (leader_handlers env os now !! w) as [h|] eqn:Eh; [|done];
     destruct (leader_handlers_inv _ _ _ _ Eh) as [[_ ->]|(g & -> & _)]; done).
Qed.

Lemma leader_run_snoc st l e :
  leader_run env tanh sin cos st (l ++ [e]) = (leader_event env tanh sin cos e (leader_run env tanh sin cos st l)).1.
Proof. unfold leader_run. by rewrite fold_left_app. Qed.
End facts.

(** ** A concrete leader *)

(** One interface with the local address 2, a physical gigabit link to peer 1. *)
Definition test_os : Os :=
  mkOs (fun ip => if String.eqb ip "10.0.0.1" then Some 1 else None) (fun _ => "10.0.0.2") None (fun _ => None)
    (fun _ => inr 2) (inr [mkIfAddr "eth0" (Some 2) false])
    (fun p => String.eqb p "/sys/class/net/eth0/device")
    (fun p => if String.eqb p "/sys/class/net/eth0/carrier" then Some "1" else Some "1000")
    (fun _ => false).

Definition test_settings : BilateralSettings :=
  mkBilateralSettings true "0.0.0.0" 50500 50501 "10.0.0.1" d1 d1
    (mkGateConfig true false 100 d1 (d_of_Z 20) (d_of_Z 8) d1 true)
    true (replicate 8 (d_of_Z 50)) (replicate 8 d1) (replicate 8 d1) (d_of_Z 100) (d_of_Z 100) engager_config_default.

Definition test_env (mock : bool) : LeaderEnv :=
  mkLeaderEnv mock (d_of_Z 500) test_settings "10.0.0.1" 50000 50001 true (d_of_Z 100).

(** A follower in state ACTIVE that echoes a command sent at 1 ms. *)
Definition test_feedback (side seq : Z) : FeedbackPacket :=
  mkFeedbackPacket 0 0 0 seq 0 side 1 1 0 7 1 3 1 seq 1000000 0
    (replicate 8 0) (replicate 8 0) (replicate 8 0) (replicate 4 0) (replicate 4 0) (replicate 4 0) 0.

Definition test_datagram (side seq : Z) : list Z :=
  serialize (feedback_encode 0 (test_feedback side seq)).

Definition test_app (c : option Control) : LeaderApp :=
  let side c :=
    mkLeaderSide c (mkFeedbackStateBuffer 1000000000 feedback_zero false 0 0 0 0 [])
      (engager_new engager_config_default) (mkLeaderCommand [] [] [] [] d0) in
  mkLeaderApp (mkLeaderFlags true false false false false false [] false) (side c) (side c)
    link_info_default (mkGateResult false []) 0 0 7 (mkTelemetryPublisher true 0) 0.

Definition test_input (t : Z) : LeaderInput :=
  mkLeaderInput (fun _ => test_motors) (fun _ => test_motors) (fun _ => test_motors) (fun _ => test_motors)
    test_motors test_motors t t t t t t t t t test_os.

Definition test_events : list LeaderEvent :=
  [EvFeedback RIGHT 2000000 5000000 (test_datagram 0 1); EvFeedback LEFT 2000000 5000000 (test_datagram 1 1);
   EvCommand test_os 6000000 "enable"; EvCommand test_os 7000000 " bilateral_enable "; EvCycle (test_input 8000000)].

(** ** Properties *)

(** C16: Force feedback is never on without a passed gate. In any execution that
    starts with it off, if it is requested at the end then some
    [bilateral_enable] command was given while the leader was enabled and the
    gate (link queried afresh, feedback of both arms) passed, and since then
    there was no [bilateral_disable], [disable] or [estop] command and every
    periodic gate check that was due passed. *)
Theorem bilateral_needs_gate (env : LeaderEnv) (tanh sin cos : double -> double) (l : list LeaderEvent)
    (a0 a : LeaderApp) :
  let run := leader_run env tanh sin cos (Ok a0) in
  lf_bilateral_requested (la_flags a0) = false ->
  run l = Ok a -> lf_bilateral_requested (la_flags a) = true ->
  exists l1 e l2 a1, l = l1 ++ e :: l2 /\ run l1 = Ok a1 /\ armed env e a1 /\
    forall l3 e' l4, l2 = l3 ++ e' :: l4 ->
      exists b b', run (l1 ++ e :: l3) = Ok b /\ run (l1 ++ e :: l3 ++ [e']) = Ok b' /\ kept env e' b b'.
Proof.
  cbv zeta. intros H0. revert a. induction l as [|e l IH] using rev_ind; intros a Hrun Hr.
  { simpl in Hrun. injection Hrun as <-. congruence. }
  pose proof Hrun as Hlast. rewrite leader_run_snoc in Hrun.
  destruct (leader_event_ok _ _ _ _ _ _ _ Hrun) as [b Hb]. rewrite Hb in Hrun.
  destruct (leader_event_requested _ _ _ _ _ _ _ Hrun Hr) as [Ha|[Hrb Hk]].
  - exists l, e, [], b. split_and!; [done|done|done|]. intros l3 e' l4 Hl. by destruct l3.
  - destruct (IH b Hb Hrb) as (l1 & e1 & l2 & a1 & -> & Hr1 & Ha1 & Hkept).
    exists l1, e1, (l2 ++ [e]), a1. split_and!; [by rewrite <- app_assoc|done|done|].
    intros l3 e' l4 Hl. destruct l4 as [|x l4 _] using rev_ind.
    + apply app_inj_tail in Hl as [-> ->]. exists b, a. split; [done|]. split; [|done].
      rewrite <- app_assoc in Hlast. exact Hlast.
    + rewrite app_comm_cons, app_assoc in Hl. apply app_inj_tail in Hl as [-> _]. by eapply Hkept.
Qed.

Lemma bilateral_needs_gate_witness :
  exists a, leader_run (test_env true) id id id (Ok (test_app None)) test_events = Ok a /\
    exists l1 e l2 a1, test_events = l1 ++ e :: l2 /\
      leader_run (test_env true) id id id (Ok (test_app None)) l1 = Ok a1 /\ armed (test_env true) e a1.
Proof.
  eexists. split; [vm_compute; reflexivity|].
  destruct (bilateral_needs_gate (test_env true) id id id test_events (test_app None) _ eq_refl
    ltac:(vm_compute; reflexivity) eq_refl) as (l1 & e & l2 & a1 & H1 & H2 & H3 & _).
  exact (ex_intro _ l1 (ex_intro _ e (ex_intro _ l2 (ex_intro _ a1 (conj H1 (conj H2 H3)))))).
Defined.

(** A requested force feedback implies an enabled leader, until shutdown. In any
    execution from a state without force feedback, whenever it is requested the
    leader's commands carry the enable flag, or the program has been told to
    stop (the [shutdown] command clears only the enable flag). *)
Lemma bilateral_implies_enabled (env : LeaderEnv) (tanh sin cos : double -> double) (l : list LeaderEvent)
    (a0 a : LeaderApp) :
  lf_bilateral_requested (la_flags a0) = false ->
  leader_run env tanh sin cos (Ok a0) l = Ok a -> lf_bilateral_requested (la_flags a) = true ->
  lf_command_enabled (la_flags a) = true \/ lf_keep_running (la_flags a) = false.
Proof.
  intros H0. revert a. induction l as [|e l IH] using rev_ind; intros a Hrun Hr.
  { simpl in Hrun. injection Hrun as <-. congruence. }
  rewrite leader_run_snoc in Hrun. destruct (leader_event_ok _ _ _ _ _ _ _ Hrun) as [b Hb]. rewrite Hb in Hrun.
  specialize (IH b Hb). destruct e as [os now line|side sys_now now data| |i]; cbn [leader_event] in Hrun.
  - destruct (handle_command _ line (Ok b)) as [st r] eqn:E. cbn [fst] in Hrun. subst st.
    destruct (command_inv _ _ _ _ _ _ _ E) as [(_ & args & Hh)|(H1 & H2 & H3 & _)].
    + apply bilateral_enable_inv in Hh as (Hk & Hc & _ & Hq). rewrite Hk, Hc.
      destruct Hq as [Hq|[Hq _]]; [apply IH; congruence|by left].
    + destruct (H1 Hr) as [Hrb _]. specialize (IH Hrb). destruct (lf_command_enabled (la_flags a)) eqn:Ea; [by left|right].
      destruct (lf_command_enabled (la_flags b)) eqn:Eb.
      * destruct (H3 eq_refl eq_refl) as [|]; [congruence|done].
      * destruct IH as [|IH]; [done|]. destruct H2 as [->|]; done.
  - cbn [fst mbind outcome_bind] in Hrun. injection Hrun as <-. by destruct side; apply IH.
  - cbn [fst mbind outcome_bind] in Hrun. injection Hrun as <-. by right.
  - destruct (lf_keep_running (la_flags b)) eqn:Ek; cbn [fst] in Hrun.
    + destruct (leader_cycle _ _ _ _ i b) as [[b' o]| |] eqn:Ec; cbn [fst] in Hrun; try done. injection Hrun as <-.
      apply leader_cycle_flags in Ec as (H1 & H2 & _ & H3 & _). rewrite H1, H2, Ek. apply IH. by apply H3.
    + injection Hrun as <-. by right.
Qed.

Lemma bilateral_implies_enabled_witness :
  exists a, leader_run (test_env true) id id id (Ok (test_app None)) test_events = Ok a /\
    (lf_command_enabled (la_flags a) = true \/ lf_keep_running (la_flags a) = false).
Proof.
  eexists. split; [vm_compute; reflexivity|].
  exact (bilateral_implies_enabled (test_env true) id id id test_events (test_app None) _ eq_refl
    ltac:(vm_compute; reflexivity) eq_refl).
Defined.

(** C29: The packets of a leader cycle. Both packets pass validation, carry the
    same sequence number (the next cycle's is one higher, modulo 2^32) and the
    arm's side, never the ESTOP flag, the enable flag exactly when the leader is
    enabled, and BILATERAL exactly when force feedback is still requested after
    the gate; with real arms (at most 8 joints and 4 grippers) they hold exactly
    the joint positions and velocities measured in this cycle. *)
Theorem leader_cycle_packets (env : LeaderEnv) (tanh sin cos : double -> double) (i : LeaderInput)
    (a a' : LeaderApp) (o : LeaderOutput) :
  leader_cycle env tanh sin cos i a = Ok (a', o) ->
  la_seq a' = u32 (la_seq a + 1) /\
  forall side p m,
    (side = RIGHT /\ p = out_pkt_r o /\ m = in_motors_r i \/ side = LEFT /\ p = out_pkt_l o /\ m = in_motors_l i) ->
    teleop_decode_and_validate p = (true, p) /\ tp_seq p = la_seq a /\ tp_arm_side p = arm_side_u8 side /\
    tp_estop p = 0 /\ tp_enable p = (if lf_command_enabled (la_flags a) then 1 else 0) /\
    tp_mode p = (if lf_bilateral_requested (la_flags a') then 1 else 0) /\
    (le_mock env = false -> (length (arm_motors m) <= 8)%nat -> (length (gripper_motors m) <= 4)%nat ->
     tp_arm_dof p = Z.of_nat (length (arm_motors m)) /\ tp_hand_dof p = Z.of_nat (length (gripper_motors m)) /\
     tp_arm_pos p = pad 8 (map (fun s => bits_of_double (ms_position s)) (arm_motors m)) /\
     tp_arm_vel p = pad 8 (map (fun s => bits_of_double (ms_velocity s)) (arm_motors m))).
Proof.
  intros H. pose proof (leader_cycle_flags _ _ _ _ _ _ _ _ H) as (_ & Hc & Hs & _).
  apply leader_cycle_inv in H as (a1 & a2 & a3 & jr & jl & H1 & H2 & H3 & Hf & _ & _ & Hs3 & Hpr & Hpl).
  split; [done|]. apply core_flags in H1 as (_ & C1 & _ & S1 & _).
  pose proof (serve_arms_shaped _ _ _ _ _ _ _ _ _ _ H2) as [Sr Sl].
  pose proof (serve_arms_shared _ _ _ _ _ _ _ _ _ _ H2) as Hsh. apply shared_flags in Hsh as (F2 & S2 & _).
  apply continuous_gate_spec in H3 as (_ & C3 & S3 & _).
  assert (Hseq : la_seq a3 = la_seq a) by congruence. rewrite Hf in Hc.
  intros side p m Hp.
  assert (Hj : exists j now, shaped j /\
    p = teleop_encode now (command_header side (la_seq a) (cmd_mode a3) (lf_command_enabled (la_flags a)) j) /\
    (le_mock env = false ->
     j = fill_joints (arm_motor_to_joint (arm_motors m)) (gripper_motor_to_joint (gripper_motors m)))).
  { rewrite <- Hseq, <- Hc. destruct Hp as [(-> & -> & ->)|(-> & -> & ->)].
    - exists jr, (in_sys_r i). split_and!; [done|done|]. intros Hm. by apply (serve_arms_joints _ _ _ _ _ _ _ _ _ _ Hm) in H2 as [? _].
    - exists jl, (in_sys_l i). split_and!; [done|done|]. intros Hm. by apply (serve_arms_joints _ _ _ _ _ _ _ _ _ _ Hm) in H2 as [_ ?]. }
  destruct Hj as (j & now & Sj & -> & Hjoints). set (q := command_header _ _ _ _ _).
  assert (Sq : shaped q) by by apply command_header_shaped.
  split; [by apply teleop_encode_validates|].
  rewrite Hf. split_and!; try done.
  - unfold q, cmd_mode. by destruct (lf_bilateral_requested (la_flags a3)).
  - intros Hm Lm Lg. specialize (Hjoints Hm). subst j.
    destruct (fill_joints_words (arm_motors m) (gripper_motors m) Lm Lg) as (W1 & W2 & W3 & W4 & _).
    by split_and!.
Qed.

Lemma leader_cycle_packets_witness :
  exists a' o, leader_cycle (test_env false) id id id (test_input 0) (test_app (Some test_leader)) = Ok (a', o) /\
    la_seq a' = 8 /\ tp_arm_pos (out_pkt_l o) = replicate 7 (bits_of_double d1) ++ [0].
Proof.
  assert (H : exists a' o,
    leader_cycle (test_env false) id id id (test_input 0) (test_app (Some test_leader)) = Ok (a', o)).
  { do 2 eexists. vm_compute. reflexivity. }
  destruct H as (a' & o & H). exists a', o. split; [exact H|].
  destruct (leader_cycle_packets _ _ _ _ _ _ _ _ H) as [H1 H2]. split; [exact H1|].
  destruct (H2 LEFT _ _ (or_intror (conj eq_refl (conj eq_refl eq_refl)))) as (_ & _ & _ & _ & _ & _ & H3).
  destruct H3 as (_ & _ & H3 & _); [reflexivity|simpl; lia|simpl; lia|]. rewrite H3. vm_compute. reflexivity.
Defined.

(** ** One arm *)

Lemma aligned_joints_true tol js i ws :
  aligned_joints tol js i ws = Ok true ->
  forall k j, js !! k = Some j ->
    exists w, ws !! (i + k)%nat = Some w /\ dleb (dabs (js_position j - double_of_bits w)%D) tol = true.
Proof.
  revert i. induction js as [|j js IH]; intros i H k j' Hk; [done|]. cbn [aligned_joints] in H.
  rewrite bind_ok in H. destruct H as (w & Hw & H). destruct (dleb _ tol) eqn:E; [|done].
  destruct k as [|k]; simpl in Hk.
  - injection Hk as <-. exists w. rewrite Nat.add_0_r. split; [by apply vget_ok|done].
  - destruct (IH (S i) H k j' Hk) as (w' & Hw' & Hle). exists w'. by rewrite <- Nat.add_succ_comm.
Qed.

Lemma aligned_joints_ok tol js i ws :
  (i + length js <= length ws)%nat -> exists b, aligned_joints tol js i ws = Ok b.
Proof.
  revert i. induction js as [|j js IH]; intros i Hl; [by eexists|]. cbn [aligned_joints].
  simpl in Hl. destruct (vget_lt ws i) as (w & -> & _); [lia|]. cbn [mbind outcome_bind].
  destruct (dleb _ tol); [apply IH; lia|by eexists].
Qed.

Lemma aligned_joints_no_throw tol js i ws e : aligned_joints tol js i ws <> Throw e.
Proof.
  revert i. induction js as [|j js IH]; intros i; [done|]. cbn [aligned_joints]. unfold vget.
  destruct (ws !! i); cbn [mbind outcome_bind]; [|done]. by destruct (dleb _ tol).
Qed.

Lemma assign_words_ok ws n : (Z.to_nat n <= length ws)%nat -> exists l, assign_words ws n = Ok l.
Proof.
  intros Hn. apply for_n_total. intros i Hi. destruct (vget_lt ws i) as (w & -> & _); [lia|]. by eexists.
Qed.

Lemma assign_words_undef ws n : (length ws < Z.to_nat n)%nat -> assign_words ws n = Undef.
Proof.
  intros Hn. apply (for_n_undef _ _ (length ws)); [done| |].
  - unfold vget. by rewrite lookup_ge_None_2.
  - intros i Hi. destruct (vget_lt ws i Hi) as (w & -> & _). by eexists.
Qed.

(** The degrees of freedom of a feedback packet are within its arrays. *)
Definition dof_ok (fb : FeedbackPacket) : Prop := 0 <= fp_arm_dof fb <= 8 /\ 0 <= fp_hand_dof fb <= 4.

Lemma side_reference_ok env c fb sc :
  shaped fb -> dof_ok fb -> exists b cmd, side_reference env c fb sc = Ok (b, cmd).
Proof.
  intros (L1 & L2 & L3 & L4 & L5 & L6) [Ha Hh]. unfold side_reference. cbv zeta.
  assert (Hal : exists b,
    (if bool_decide (Z.of_nat (length (rs_response (arm_state (ct_robot_state c)))) <= fp_arm_dof fb)
        && bool_decide (Z.of_nat (length (rs_response (hand_state (ct_robot_state c)))) <= fp_hand_dof fb)
     then
       al ← aligned_joints (bi_engage_max_error_rad (le_bi env)) (rs_response (arm_state (ct_robot_state c))) 0 (fp_arm_pos fb);
       if al : bool
       then aligned_joints (bi_engage_max_error_gripper (le_bi env)) (rs_response (hand_state (ct_robot_state c))) 0 (fp_hand_pos fb)
       else Ok false
     else Ok false) = Ok b).
  { case_bool_decide as H1; cbn [andb]; [|by eexists]. case_bool_decide as H2; [|by eexists].
    match goal with |- context [aligned_joints ?t ?js 0 (fp_arm_pos fb)] =>
      destruct (aligned_joints_ok t js 0 (fp_arm_pos fb)) as [[] ->] end; [lia| |by eexists].
    cbn [mbind outcome_bind]. apply aligned_joints_ok. lia. }
  destruct Hal as [b ->]. cbn [mbind outcome_bind].
  destruct (assign_words_ok (fp_arm_pos fb) (fp_arm_dof fb)) as [l1 ->]; [lia|].
  destruct (assign_words_ok (fp_hand_pos fb) (fp_hand_dof fb)) as [l2 ->]; [lia|].
  destruct (assign_words_ok (fp_arm_tau fb) (fp_arm_dof fb)) as [l3 ->]; [lia|].
  destruct (assign_words_ok (fp_hand_tau fb) (fp_hand_dof fb)) as [l4 ->]; [lia|].
  by eexists _, _.
Qed.

Lemma side_reference_undef env c fb sc :
  shaped fb -> 8 < fp_arm_dof fb -> side_reference env c fb sc = Undef.
Proof.
  intros (L1 & L2 & L3 & L4 & L5 & L6) Ha. unfold side_reference. cbv zeta.
  match goal with |- (?m ≫= _) = _ => destruct m as [b|e|] eqn:E end; [|exfalso|done].
  - cbn [mbind outcome_bind]. rewrite (assign_words_undef (fp_arm_pos fb)) by lia. done.
  - revert E. destruct (_ && _); [|done].
    destruct (aligned_joints (bi_engage_max_error_rad (le_bi env)) _ 0 (fp_arm_pos fb)) as [[]|e'|] eqn:E';
      cbn [mbind outcome_bind]; try done; intros H;
      by (apply aligned_joints_no_throw in H || apply aligned_joints_no_throw in E').
Qed.

Lemma side_reference_aligned env c fb sc cmd :
  side_reference env c fb sc = Ok (true, cmd) ->
  forall k j, rs_response (arm_state (ct_robot_state c)) !! k = Some j ->
    exists w, fp_arm_pos fb !! k = Some w /\
      dleb (dabs (js_position j - double_of_bits w)%D) (bi_engage_max_error_rad (le_bi env)) = true.
Proof.
  unfold side_reference. cbv zeta. intros H. rewrite bind_ok in H. destruct H as (b & Hb & H).
  run_ok H. injection H as -> _. destruct (_ && _); [|done].
  rewrite bind_ok in Hb. destruct Hb as ([] & Ha & Hb); [|done]. exact (aligned_joints_true _ _ _ _ Ha).
Qed.

(** C28: What an arm's control cycle does in the leader program. The feedback buffer is
    only read; the engager makes one update whose request flag needs rendering
    to be configured and requested and fresh feedback from an enabled follower
    that is not in ESTOP, and whose alignment flag needs every joint within the
    tolerance of the follower's; without a positive gain the arm does plain
    gravity compensation; and every command is a finite torque within its limit. *)
Theorem step_side_spec (env : LeaderEnv) (tanh : double -> double) (requested : bool) (now : Z) (m : Motors)
    (s s' : LeaderSide) (c : Control) (arm gripper : list MITParam) :
  ls_control s = Some c -> limits_ok c ->
  step_side env tanh requested now m s = Ok (s', (arm, gripper)) ->
  ls_buffer s' = ls_buffer s /\ ls_control s' = Some (with_responses m c) /\
  (exists st want aligned, fsb_snapshot now (ls_buffer s) = Some st /\
     ls_engager s' = engager_update want aligned (d1 / le_rate_hz env)%D (ls_engager s) /\
     bc_scale (ls_bcmd s') = en_scale (ls_engager s') /\
     (want = true <-> exists fb, fsb_get_latest (ls_buffer s) = Some fb /\ bi_render_enabled (le_bi env) = true /\
        requested = true /\ dleb d0 (st_age_ms st) = true /\
        dleb (st_age_ms st) (g_max_feedback_age_ms (bi_gate (le_bi env))) = true /\
        fp_enabled fb <> 0 /\ fp_estop fb = 0) /\
     (aligned = true -> exists fb, fsb_get_latest (ls_buffer s) = Some fb /\
        forall k j, rs_response (arm_state (ct_robot_state c)) !! k = Some j -> exists w, fp_arm_pos fb !! k = Some w /\
          dleb (dabs (js_position j - double_of_bits w)%D) (bi_engage_max_error_rad (le_bi env)) = true)) /\
  (dltb d0 (en_scale (ls_engager s')) = false -> Ok (arm, gripper) = (leader_step tanh None m c).2) /\
  (forall i p, (arm ++ gripper) !! i = Some p ->
     kp p = d0 /\ kd p = d0 /\ within (leader_limit c i) (tau p)).
Proof.
  intros Hc Hl. unfold step_side. rewrite Hc. cbn [deref mbind outcome_bind]. cbv zeta. intros H.
  rewrite bind_ok in H. destruct H as (st & Hst & H). rewrite bind_ok in H. destruct H as ([al bc] & Hr & H).
  destruct (leader_step _ _ _ _) as [c' r] eqn:El. rewrite bind_ok in H. destruct H as (cmds & -> & [= <- ->]).
  unfold leader_step in El. cbn [ls_buffer ls_control ls_engager ls_bcmd] in *.
  pose proof (f_equal fst El) as E1. cbn [fst] in E1. subst c'.
  split; [done|]. split; [done|]. split; [|split].
  - exists st, (side_want env requested st (fsb_get_latest (ls_buffer s))), al. split; [by destruct (fsb_snapshot _ _); simplify_eq/=|].
    split; [done|]. split; [done|]. split.
    + unfold side_want, fresh_feedback. destruct (fsb_get_latest (ls_buffer s)) as [fb|]; [|naive_solver].
      rewrite !andb_true_iff, negb_true_iff, Z.eqb_neq, Z.eqb_eq. naive_solver.
    + intros ->. destruct (fsb_get_latest (ls_buffer s)) as [fb|]; [|done].
      destruct (fresh_feedback env st); [|done]. exists fb. split; [done|]. by eapply side_reference_aligned.
  - intros Hz. unfold engager_active in El. rewrite Hz in El. apply (f_equal snd) in El. cbn [snd] in El. exact (eq_sym El).
  - intros i p Hp. apply (f_equal snd) in El. cbn [snd] in El. rewrite bind_ok in El.
    destruct El as ([a g] & Ht & [= <- <-]).
    apply leader_torques_within in Ht as (La & Lg & Ha & Hg); [|exact Hl].
    apply lookup_app_Some in Hp as [Hp|[Hge Hp]]; rewrite list_lookup_fmap in Hp;
      apply fmap_Some in Hp as (t & Ht & ->); cbn [kp kd tau torque_cmd]; (split; [done|]); (split; [done|]).
    + by apply Ha.
    + rewrite length_map in *. specialize (Hg _ _ Ht). by replace (length a + (i - length a))%nat with i in Hg by lia.
Qed.

Lemma step_side_spec_witness :
  exists s' arm gripper,
    step_side (test_env false) id true 5000000 test_motors (la_right (test_app (Some test_leader))) = Ok (s', (arm, gripper)) /\
    ls_control s' = Some (with_responses test_motors test_leader).
Proof.
  do 3 eexists. split; [vm_compute; reflexivity|].
  refine (proj1 (proj2 (step_side_spec (test_env false) id true 5000000 test_motors
    (la_right (test_app (Some test_leader))) _ test_leader _ _ eq_refl _ _))).
  - apply (Forall_impl _ _ _ effort_default_ok). by intros ? [? _].
  - vm_compute. reflexivity.
Defined.

(** When an arm's cycle is free of undefined behaviour. With a dynamics model
    that fits the arm and friction parameters for every motor, and statistics
    that can be computed, the cycle sends commands if the feedback packet's
    degrees of freedom are within its arrays; a fresh, valid packet that claims
    more than eight arm joints makes it read past the array. *)
Lemma step_side_defined (env : LeaderEnv) (tanh : double -> double) (requested : bool) (now : Z) (m : Motors)
    (s : LeaderSide) (c : Control) (st : Stats) (fb : FeedbackPacket) :
  ls_control s = Some c -> dynamics_fit c (length (arm_motors m)) ->
  friction_params c (length (arm_motors m) + length (gripper_motors m)) ->
  fsb_snapshot now (ls_buffer s) = Some st -> fsb_get_latest (ls_buffer s) = Some fb -> shaped fb ->
  (dof_ok fb -> exists s' cmds, step_side env tanh requested now m s = Ok (s', cmds)) /\
  (8 < fp_arm_dof fb -> fresh_feedback env st = true -> step_side env tanh requested now m s = Undef).
Proof.
  intros Hc Hd Hf Hst Hfb Hsh. unfold step_side. rewrite Hc, Hst, Hfb. cbn [deref of_option mbind outcome_bind]. cbv zeta.
  split.
  - intros Hdof.
    assert (Hr : exists b cmd, (if fresh_feedback env st then side_reference env c fb (bc_scale (ls_bcmd s))
                                else Ok (false, ls_bcmd s)) = Ok (b, cmd)).
    { destruct (fresh_feedback env st); [by apply side_reference_ok|by eexists _, _]. }
    destruct Hr as (b & cmd & ->). cbn [mbind outcome_bind].
    match goal with |- context [leader_step tanh ?x m c] =>
      destruct (leader_step tanh x m c) as [c' r] eqn:El;
      destruct (proj2 (leader_step_outcome tanh c x m Hd) Hf) as [cmds Hok] end.
    rewrite El in Hok. cbn [snd] in Hok. subst r. by eexists _, _.
  - intros Ha ->. by rewrite side_reference_undef.
Qed.

Definition greedy_feedback : FeedbackPacket :=
  mkFeedbackPacket 0 0 0 1 0 0 1 1 0 9 1 3 1 1 1000000 0
    (replicate 8 0) (replicate 8 0) (replicate 8 0) (replicate 4 0) (replicate 4 0) (replicate 4 0) 0.

Definition greedy_side : LeaderSide :=
  with_buffer (fsb_update 4000000 greedy_feedback 0 (mkFeedbackStateBuffer 1000000000 feedback_zero false 0 0 0 0 []))
    (la_right (test_app (Some test_leader))).

Lemma step_side_defined_witness :
  step_side (test_env false) id true 5000000 test_motors greedy_side = Undef.
Proof.
  assert (H : exists st, fsb_snapshot 5000000 (ls_buffer greedy_side) = Some st /\ fresh_feedback (test_env false) st = true).
  { eexists. split; [vm_compute; reflexivity|vm_compute; reflexivity]. }
  destruct H as (st & H1 & H2).
  refine (proj2 (step_side_defined (test_env false) id true 5000000 test_motors greedy_side test_leader st
    greedy_feedback eq_refl _ _ H1 eq_refl _) _ H2).
  - exists unit_dynamics. split; [reflexivity|simpl; lia].
  - unfold friction_params. simpl. lia.
  - by split_and!.
  - reflexivity.
Defined.
