(* ===== verification/LeaderThreads.v ===== *)
(** * LeaderThreads: the leader's threads, access by access

    [src/src/apps/wifi_bimanual_leader.cpp] again, at the granularity of its shared
    accesses. [LeaderApp] takes an iteration of the main loop or a handler as one
    step; here each of them is a program whose steps are the single critical
    sections and atomic accesses, in the order of the source, so that the main loop,
    the control server, the feedback receivers and the signal handler can interleave
    between any two of them. Variables that only the main loop uses (robot states,
    controllers, check and telemetry schedules, the packet counter) are accessed in
    one step; the threads of a pose move work on them while the main loop waits in
    [join], so a move is one step, too. *)

From S2P Require Import Prelude Float64 Crc32 Wire Packets PacketCodec FeedbackStateBuffer LinkCheck.
From S2P Require Import BilateralGate BilateralEngager RuntimeControl Udp Dynamics RobotState Control.
From S2P Require Import NumParse AppCommon LeaderApp Threads.
From stdpp Require Import gmap.

Open Scope Z_scope.

(** ** Labels *)

(** The atomics that say what the leader may do: [command_enabled],
    [bilateral_requested], [keep_running]. *)
Inductive Switch := SwEnabled | SwBilateral | SwRunning.

#[export] Instance Switch_eq_dec : EqDecision Switch.
Proof. solve_decision. Defined.

Definition switch_on (sw : Switch) (a : LeaderApp) : bool :=
  match sw with
  | SwEnabled => lf_command_enabled (la_flags a)
  | SwBilateral => lf_bilateral_requested (la_flags a)
  | SwRunning => lf_keep_running (la_flags a)
  end.

Definition set_switch (sw : Switch) (b : bool) : LeaderFlags -> LeaderFlags :=
  match sw with
  | SwEnabled => set_command_enabled b
  | SwBilateral => set_bilateral_requested b
  | SwRunning => set_keep_running b
  end.

(** What the threads do to the outside, and the writes to the switches. *)
Inductive LLabel :=
| GSet (sw : Switch) (b : bool)
| GMoved (t : MoveTrace)                                   (* a pose move of both arms *)
| GEngage (side : ArmSide) (want : bool)                   (* the engager's update *)
| GRender (side : ArmSide) (c : Commands)                  (* leader_step *)
| GSend (side : ArmSide) (p : TeleopPacket)
| GTelemetry (d : list Z)
| GReply (s : string).                                     (* answer of the control server *)

Abbreviation LProg := (Prog LeaderApp LLabel).
Abbreviation LThread := (Thread LeaderApp LLabel).

(** ** Single accesses *)

Definition arm_side (side : ArmSide) (a : LeaderApp) : LeaderSide :=
  match side with RIGHT => la_right a | LEFT => la_left a end.

Definition upd_arm (side : ArmSide) (f : LeaderSide -> LeaderSide) (a : LeaderApp) : LeaderApp :=
  match side with
  | RIGHT => with_sides (f (la_right a)) (la_left a) a
  | LEFT => with_sides (la_right a) (f (la_left a)) a
  end.

Definition read_switch (sw : Switch) : LProg bool := load (switch_on sw).

Definition write_switch (sw : Switch) (b : bool) : LProg unit :=
  Act (fun a => Ok (with_flags (set_switch sw b) a, [GSet sw b], tt)) Done.

(** [get_latest] and [snapshot] take the buffer's mutex each. *)
Definition latest_feedback (side : ArmSide) : LProg (option FeedbackPacket) :=
  load (fun a => fsb_get_latest (ls_buffer (arm_side side a))).

Definition statistics (side : ArmSide) (now : Z) : LProg Stats :=
  query (fun a => of_option (fsb_snapshot now (ls_buffer (arm_side side a)))).

Section leader.
Context (env : LeaderEnv) (tanh sin cos : double -> double).
#[local] Abbreviation bi := (le_bi env).

(** ** Link and gate *)

(** The link is queried under the gate's mutex. *)
Definition refresh_prog (os : Os) : LProg unit := store (refresh_link env os).

(** Both packets are fetched before both statistics. *)
Definition gate_prog (now_r now_l : Z) : LProg BilateralGateResult :=
  if negb (bi_feedback_enabled bi)
  then mret (mkGateResult false ["BilateralFeedback.Enabled is false in config/leader.yaml"])
  else
    reasons ← load (fun a => gr_reasons (la_link_result a));
    lr ← latest_feedback RIGHT; ll ← latest_feedback LEFT;
    sr ← statistics RIGHT now_r; sl ← statistics LEFT now_l;
    mret (gate_result (reasons ++ gr_reasons (check_feedback (bi_gate bi) "right" sr lr)
                       ++ gr_reasons (check_feedback (bi_gate bi) "left" sl ll))).

(** ** The main loop *)

(** The two pose requests: the exchange, the move, the end. *)
Definition moving (tr gr tl gl : list double) (rr rl : nat -> Motors) : LProg (option MoveTrace) :=
  Act (fun a => '(a', t) ← move_both tr gr tl gl rr rl a; Ok (a', [GMoved t], Some t)) Done.

Definition init_move_prog (i : LeaderInput) : LProg (option MoveTrace) :=
  b ← Act (fun a => Ok (with_flags (fun f => set_init false (lf_init_in_progress f) f) a, [],
                        lf_init_requested (la_flags a))) Done;
  if (b : bool) then
    _ ← store (with_flags (fun f => set_init (lf_init_requested f) true f));
    real ← load (real_arms env);
    t ← (if (real : bool) then moving home [d0] home [d0] (in_init_r i) (in_init_l i) else mret None);
    _ ← store (with_flags (fun f => set_init (lf_init_requested f) false f));
    mret t
  else mret None.

Definition goto_move_prog (i : LeaderInput) : LProg (option MoveTrace) :=
  b ← Act (fun a => Ok (with_flags (fun f => set_goto false (lf_goto_in_progress f) (lf_goto_target f) f) a, [],
                        lf_goto_requested (la_flags a))) Done;
  if (b : bool) then
    _ ← store (with_flags (fun f => set_goto (lf_goto_requested f) true (lf_goto_target f) f));
    t ← load (fun a => lf_goto_target (la_flags a));
    real ← load (real_arms env);
    m ← match (if real : bool then split_pose t else None) with
        | Some p => moving (tg_r p) (tg_gr p) (tg_l p) (tg_gl p) (in_goto_r i) (in_goto_l i)
        | None => mret None
        end;
    _ ← store (with_flags (fun f => set_goto (lf_goto_requested f) false (lf_goto_target f) f));
    mret m
  else mret None.

(** The second half of [step_side]: the engager is updated under its mutex, the
    command follows. *)
Definition engage_prog (side : ArmSide) (want aligned : bool) (bcmd : LeaderBilateralCommand) (m : Motors) : LProg Commands :=
  _ ← Act (fun a =>
     let engager := engager_update want aligned (d1 / le_rate_hz env)%D (ls_engager (arm_side side a)) in
     Ok (upd_arm side (fun s => mkLeaderSide (ls_control s) (ls_buffer s) engager (with_scale (en_scale engager) bcmd)) a,
         [GEngage side want], tt)) Done;
  Act (fun a =>
     let s := arm_side side a in
     c ← deref (ls_control s);
     let '(c', r) := leader_step tanh (if engager_active (ls_engager s) then Some (ls_bcmd s) else None) m c in
     cmds ← r;
     Ok (upd_arm side (with_control c') a, [GRender side cmds], cmds)) Done.

(** [step_side]: [bilateral_requested] is only read when rendering is configured. *)
Definition arm_prog (side : ArmSide) (now : Z) (m : Motors) : LProg Commands :=
  latest ← latest_feedback side;
  st ← statistics side now;
  requested ← (if bi_render_enabled bi then read_switch SwBilateral else mret false);
  '(aligned, bcmd) ← query (fun a =>
     match latest with
     | Some fb =>
         if fresh_feedback env st then
           c ← deref (ls_control (arm_side side a));
           side_reference env c fb (bc_scale (ls_bcmd (arm_side side a)))
         else Ok (false, ls_bcmd (arm_side side a))
     | None => Ok (false, ls_bcmd (arm_side side a))
     end);
  engage_prog side (side_want env requested st latest) aligned bcmd m.

Definition both_arms_prog (i : LeaderInput) : LProg (option (Commands * Commands) * TeleopPacket * TeleopPacket) :=
  if le_mock env then mret (None, fill_mock sin (in_sys_mock i), fill_mock cos (in_sys_mock i))
  else
    cr ← arm_prog RIGHT (in_now_r i) (in_motors_r i);
    cl ← arm_prog LEFT (in_now_l i) (in_motors_l i);
    '(pr, pl) ← query (fun a => pr ← side_joints (la_right a); pl ← side_joints (la_left a); Ok (pr, pl));
    mret (Some (cr, cl), pr, pl).

(** The continuous gate; [gate_l] is the clock of its second statistics. *)
Definition supervise_prog (i : LeaderInput) (gate_l : Z) : LProg unit :=
  requested ← read_switch SwBilateral;
  if (requested : bool) then
    link_due ← load (fun a => la_next_link_check a <=? in_tnow i);
    _ ← (if (link_due : bool) then
           _ ← refresh_prog (in_os i);
           dt ← compute (ns_of_seconds (bi_link_recheck_s bi));
           store (fun a => with_checks (in_tnow i + dt) (la_next_gate_check a) a)
         else mret tt);
    gate_due ← load (fun a => la_next_gate_check a <=? in_tnow i);
    if (gate_due : bool) then
      g ← gate_prog (in_gate_now i) gate_l;
      _ ← (if negb (gr_ok g) then write_switch SwBilateral false else mret tt);
      store (fun a => with_checks (la_next_link_check a) (in_tnow i + 100 * 1000000) a)
    else mret tt
  else mret tt.

(** [bilateral_requested] is read once for both packets, [command_enabled] for
    each. *)
Definition send_prog (i : LeaderInput) (jr jl : TeleopPacket) : LProg (TeleopPacket * TeleopPacket) :=
  requested ← read_switch SwBilateral;
  let mode := if (requested : bool) then BILATERAL else UNILATERAL in
  en_r ← read_switch SwEnabled;
  en_l ← read_switch SwEnabled;
  seq ← Act (fun a => Ok (with_seq (u32 (la_seq a + 1)) a, [], la_seq a)) Done;
  let pr := teleop_encode (in_sys_r i) (command_header RIGHT seq mode en_r jr) in
  let pl := teleop_encode (in_sys_l i) (command_header LEFT seq mode en_l jl) in
  _ ← output [GSend RIGHT pr]; _ ← output [GSend LEFT pl];
  mret (pr, pl).

Definition publish_prog (i : LeaderInput) (pr pl : TeleopPacket) : LProg (option (list Z)) :=
  due ← load (fun a => le_publish_telemetry env && (la_next_telemetry a <=? in_now_end i));
  if (due : bool) then
    enabled ← read_switch SwEnabled;
    Act (fun a =>
      '(a', d) ← publish_leader env i (leader_telemetry (in_telemetry_ns i) enabled pr pl) a;
      Ok (a', match d with Some d => [GTelemetry d] | None => [] end, d)) Done
  else mret None.

(** One iteration. *)
Definition leader_prog (i : LeaderInput) (gate_l : Z) : LProg LeaderOutput :=
  ti ← init_move_prog i;
  tg ← goto_move_prog i;
  '(cmds, jr, jl) ← both_arms_prog i;
  _ ← supervise_prog i gate_l;
  '(pr, pl) ← send_prog i jr jl;
  tel ← publish_prog i pr pl;
  mret (mkLeaderOutput ti tg cmds pr pl tel).

(** [while (keep_running)]. *)
Definition loop_prog (i : LeaderInput) (gate_l : Z) : LProg unit :=
  go ← read_switch SwRunning;
  if (go : bool) then _ ← leader_prog i gate_l; mret tt else mret tt.

(** ** The other threads *)

(** The feedback callback: one critical section. *)
Definition receive_prog (side : ArmSide) (sys_now now : Z) (data : list Z) : LProg unit :=
  store (feedback_arrives side sys_now now data).

(** [signal_handler]. *)
Definition interrupt_prog : LProg unit := write_switch SwRunning false.

(** ** The control server *)

Section handlers.
(** The link queries a call sees, and its clock readings one after the other. *)
Context (os : Os) (clk : nat -> Z).

Definition bilateral_text_prog (clk : nat -> Z) : LProg string :=
  lr ← latest_feedback RIGHT; ll ← latest_feedback LEFT;
  g ← gate_prog (clk 0%nat) (clk 1%nat);
  '(link, link_result) ← load (fun a => (la_link a, la_link_result a));
  requested ← read_switch SwBilateral;
  '(er, el) ← load (fun a => (ls_engager (la_right a), ls_engager (la_left a)));
  sr ← statistics RIGHT (clk 2%nat); sl ← statistics LEFT (clk 3%nat);
  mret (bilateral_status_text env g link link_result requested er el sr sl lr ll).

Definition summary_prog (clk : nat -> Z) : LProg string :=
  g ← gate_prog (clk 0%nat) (clk 1%nat);
  sr ← statistics RIGHT (clk 2%nat); sl ← statistics LEFT (clk 3%nat);
  '(er, el) ← load (fun a => (ls_engager (la_right a), ls_engager (la_left a)));
  requested ← read_switch SwBilateral;
  mret (bilateral_summary_text env g requested er el sr sl).

Definition enable_bilateral_prog (args : string) : LProg string :=
  enabled ← read_switch SwEnabled;
  if negb enabled then mret (json_error "leader is not enabled; switch mode to leader first")
  else
    _ ← refresh_prog os;
    g ← gate_prog (clk 0%nat) (clk 1%nat);
    if negb (gr_ok g) then mret (json_error ("bilateral refused: " +:+ reasons_text g))
    else
      _ ← write_switch SwBilateral true;
      j ← bilateral_text_prog (fun k => clk (2 + k)%nat);
      mret (json_ok (key "message" +:+ quoted "bilateral requested" +:+ "," +:+ j)).

Definition disable_bilateral_prog (args : string) : LProg string :=
  _ ← write_switch SwBilateral false; mret (message "bilateral disabled").

Definition bilateral_status_prog (args : string) : LProg string :=
  j ← bilateral_text_prog clk; mret (json_ok j).

(** The language leaves the order of these reads open; here they are in the order
    of the text. *)
Definition leader_status_prog (args : string) : LProg string :=
  enabled ← read_switch SwEnabled;
  ir ← load (fun a => lf_init_requested (la_flags a)); ip ← load (fun a => lf_init_in_progress (la_flags a));
  gp ← load (fun a => lf_goto_in_progress (la_flags a));
  run ← read_switch SwRunning; requested ← read_switch SwBilateral;
  j ← summary_prog clk;
  mret (leader_status_reply env enabled ir ip gp run requested j).

Definition disable_prog (args : string) : LProg string :=
  _ ← write_switch SwEnabled false; _ ← write_switch SwBilateral false; mret (message "leader disabled").

Definition enable_prog (args : string) : LProg string :=
  _ ← write_switch SwEnabled true; mret (message "leader enabled").

Definition request_init_prog (args : string) : LProg string :=
  _ ← store (with_flags (fun f => set_init true (lf_init_in_progress f) f));
  mret (message "leader init_position requested").

Definition request_goto_prog (args : string) : LProg string :=
  let '(ok, vals) := parse_pose16 args in
  if negb ok then mret (json_error "goto_pose expects 16 whitespace-separated values")
  else
    _ ← store (with_flags (fun f => set_goto (lf_goto_requested f) (lf_goto_in_progress f) vals f));
    _ ← store (with_flags (fun f => set_goto true (lf_goto_in_progress f) (lf_goto_target f) f));
    mret (message "leader goto_pose requested").

Definition leader_estop_prog (args : string) : LProg string :=
  _ ← write_switch SwEnabled false; _ ← write_switch SwBilateral false; _ ← write_switch SwRunning false;
  mret (message "leader estop requested").

Definition leader_shutdown_prog (args : string) : LProg string :=
  _ ← write_switch SwEnabled false; _ ← write_switch SwRunning false;
  mret (message "leader shutdown requested").

Definition leader_handler_progs : gmap string (string -> LProg string) :=
  <["shutdown" := leader_shutdown_prog]> (<["estop" := leader_estop_prog]> (<["goto_pose" := request_goto_prog]>
  (<["init_position" := request_init_prog]> (<["enable" := enable_prog]> (<["disable" := disable_prog]>
  (<["status" := leader_status_prog]> (<["bilateral_status" := bilateral_status_prog]>
  (<["bilateral_disable" := disable_bilateral_prog]> (<["bilateral_enable" := enable_bilateral_prog]> ∅))))))))).

(** A command line: [handle_command], then the answer. *)
Definition answer_prog (line : string) : LProg unit :=
  let '(command, args) :=
    match split_first (trim line) with
    | (w, Some rest) => (w, trim rest)
    | (w, None) => (w, "")
    end in
  r ← match leader_handler_progs !! command with
      | Some h => h args
      | None => mret (json_error ("unknown command: " +:+ command))
      end;
  output [GReply r].
End handlers.

(** ** The program's threads *)

(** Behind the main loop, the control server and the signal handler, the two
    feedback receivers. *)
Definition feedback_thread (side : ArmSide) : nat := match side with RIGHT => 3%nat | LEFT => 4%nat end.

Definition leader_pool : list LThread := replicate 5 idle.

Inductive LEvent :=
| LtCycle (i : LeaderInput) (gate_l : Z)
| LtCommand (os : Os) (clk : nat -> Z) (line : string)
| LtSignal
| LtFeedback (side : ArmSide) (sys_now now : Z) (data : list Z).

Definition leader_begin (e : LEvent) (a : LeaderApp) (ts : list LThread) : option (LeaderApp * list LThread) :=
  match e with
  | LtCycle i gate_l => give main_thread (loop_prog i gate_l) a ts
  | LtCommand os clk line => give server_thread (answer_prog os clk line) a ts
  | LtSignal => give signal_thread interrupt_prog a ts
  | LtFeedback side sys_now now data => give (feedback_thread side) (receive_prog side sys_now now data) a ts
  end.

Definition leader_exec : list (Choice LEvent) -> Sys LeaderApp LLabel -> outcome (Sys LeaderApp LLabel * list LLabel) :=
  sys_exec leader_begin.
End leader.
