(* ===== verification/LeaderInterleavings.v ===== *)
(** * The leader's threads under every schedule

    Safety of [LeaderThreads] for arbitrary interleavings: once the arms have been
    disabled, force feedback has been dropped or the program has been told to stop,
    how much the iteration under way can still send; and a schedule that shows what
    is not guaranteed. *)

From S2P Require Import Prelude Float64 Crc32 Wire Packets PacketCodec FeedbackStateBuffer LinkCheck.
From S2P Require Import BilateralGate BilateralEngager RuntimeControl Udp Dynamics RobotState Control ControlFacts.
From S2P Require Import NumParse AppCommon LeaderApp LeaderFacts Threads LeaderThreads.
From stdpp Require Import gmap.

Open Scope Z_scope.

Abbreviation LConfig := (Config LeaderApp LLabel).

(** ** What a switch permits *)

(** Packets with the enable flag and engagement of force feedback, packets in
    bilateral mode, packets at all. *)
Inductive Use := UEnabled | UBilateral | UWant | UAny.

#[export] Instance Use_eq_dec : EqDecision Use.
Proof. solve_decision. Defined.

(** The switch that permits it. *)
Definition switch_of (u : Use) : Switch :=
  match u with UEnabled => SwEnabled | UBilateral | UWant => SwBilateral | UAny => SwRunning end.

(** The label is such a use, on one side. *)
Definition uses (u : Use) (side : ArmSide) (l : LLabel) : bool :=
  match u, l with
  | UWant, GEngage s w => bool_decide (s = side) && w
  | UEnabled, GSend s p => bool_decide (s = side) && negb (tp_enable p =? 0)
  | UBilateral, GSend s p => bool_decide (s = side) && (tp_mode p =? control_mode_u8 BILATERAL)
  | UAny, GSend s _ => bool_decide (s = side)
  | _, _ => false
  end.

Definition count_uses (u : Use) (side : ArmSide) (l : list LLabel) : nat :=
  length (filter (fun x => uses u side x = true) l).

(** The uses since the switch was turned off; [None] while it is on. *)
Definition since_label (u : Use) (side : ArmSide) (n : option nat) (l : LLabel) : option nat :=
  match l with
  | GSet sw b =>
      if decide (sw = switch_of u) then
        if b then None else match n with None => Some 0%nat | _ => n end
      else n
  | _ => if uses u side l then option_map S n else n
  end.

Definition since (u : Use) (side : ArmSide) (tr : list LLabel) : option nat := fold_left (since_label u side) tr None.

Lemma l_since_app u side tr l : since u side (tr ++ l) = fold_left (since_label u side) l (since u side tr).
Proof. apply fold_left_app. Qed.

(** No use since the switch was turned off. *)
Definition fresh (u : Use) (side : ArmSide) (tr : list LLabel) : Prop := forall n, since u side tr = Some n -> n = 0%nat.

(** The invariant of the shared state and the trace. *)
Record Inv (y : LConfig) : Prop := {
  inv_off u side : is_Some (since u side y.2) -> switch_on (switch_of u) y.1 = false;
  inv_once u side n : since u side y.2 = Some n -> (n <= 1)%nat;
  inv_request tr1 tr2 side : y.2 = tr1 ++ GSet SwBilateral true :: tr2 -> since UEnabled side tr1 = None;
  inv_stop : GSet SwRunning true ∉ y.2;
}.

(** ** Classes of labels *)

Definition not_use (l : LLabel) : bool := match l with GEngage _ _ | GSend _ _ => false | _ => true end.
Definition not_enable (l : LLabel) : bool := match l with GSet SwEnabled _ => false | _ => true end.
Definition not_request (l : LLabel) : bool := match l with GSet SwBilateral true | GSet SwRunning true => false | _ => true end.

Abbreviation all := (fun p l => Forall (fun x : LLabel => p x = true) l).

(** A trace extended without uses. *)
Lemma l_since_quiet u side l n m :
  all not_use l -> fold_left (since_label u side) l n = Some m -> m = 0%nat \/ n = Some m.
Proof.
  intros Hl. revert n. induction Hl as [|x l Hx Hl IH]; intros n; cbn [fold_left]; [by right|].
  intros Hm. destruct (IH _ Hm) as [->|Hn]; [by left|]. destruct x as [sw b| | | | | |]; try done; cbn [since_label] in Hn;
    try (by destruct u; right).
  case_decide; [|by right]. destruct b; [done|]. destruct n; [by right|left; congruence].
Qed.

Lemma l_fresh_quiet u side tr l : all not_use l -> fresh u side tr -> fresh u side (tr ++ l).
Proof. intros Hl Hf n. rewrite l_since_app. intros [->|Hn]%l_since_quiet; [done|by apply Hf|done]. Qed.

(** Nothing but the command [enable] ends the time since the arms were disabled, and
    only [disable] begins it. *)
Lemma since_enabled_none side l : all not_enable l -> fold_left (since_label UEnabled side) l None = None.
Proof.
  intros Hl. induction Hl as [|x l Hx Hl IH]; cbn [fold_left]; [done|].
  destruct x as [[] b| | | | | |]; try done; cbn [since_label]; rewrite ?decide_False by done; try exact IH;
    by destruct (uses _ _ _).
Qed.

(** A label of a class does not begin in an extension without it. *)
Lemma app_split (ok : LLabel -> bool) tr l tr1 x tr2 :
  all ok l -> ok x = false -> tr ++ l = tr1 ++ x :: tr2 -> exists tr2', tr = tr1 ++ x :: tr2'.
Proof.
  intros Hl Hx He. apply app_eq_inv in He as [(k & -> & Hk)|(k & -> & ->)].
  - destruct k as [|z k]; simplify_eq/=; [|by eexists]. inversion Hl; subst. congruence.
  - apply Forall_app in Hl as [_ Hl]. inversion Hl; subst. congruence.
Qed.

(** ** Steps that keep the invariant *)

(** A step keeps what the state says about the trace. *)
Definition keeps (s s' : LeaderApp) (l : list LLabel) : Prop :=
  forall u side n, (is_Some n -> switch_on (switch_of u) s = false) ->
    is_Some (fold_left (since_label u side) l n) -> switch_on (switch_of u) s' = false.

(** Steps of the control server, and steps that every thread may make. *)
Definition server_step (s s' : LeaderApp) (l : list LLabel) : Prop :=
  keeps s s' l /\ all not_use l /\ all not_request l.
Definition tame (s s' : LeaderApp) (l : list LLabel) : Prop := server_step s s' l /\ all not_enable l.

Lemma l_inv_step y s l : Inv y -> server_step y.1 s l -> Inv (extend y s l).
Proof.
  intros [H1 H2 H3 H4] (K & Hu & Hr). unfold extend. split; cbn [fst snd].
  - intros u side. rewrite l_since_app. apply K, H1.
  - intros u side n. rewrite l_since_app. intros [->|Hn]%l_since_quiet; [lia|by eapply H2|done].
  - intros tr1 tr2 side (tr2' & Htr)%(app_split not_request); [by eapply H3|done|done].
  - rewrite elem_of_app. intros [H|H]; [done|]. rewrite Forall_forall in Hr. by apply Hr in H.
Qed.

(** Labels that are neither uses nor writes to a switch. *)
Definition silent (l : LLabel) : bool := match l with GMoved _ | GRender _ _ | GTelemetry _ | GReply _ => true | _ => false end.

Lemma l_since_silent u side l n : all silent l -> fold_left (since_label u side) l n = n.
Proof.
  intros Hl. revert n. induction Hl as [|x l Hx Hl IH]; intros n; cbn [fold_left]; [done|]. rewrite IH. by destruct x, u.
Qed.

Lemma l_tame_silent s s' l : (forall sw, switch_on sw s' = switch_on sw s) -> all silent l -> tame s s' l.
Proof.
  intros Hs Hl. split; [split; [|split]|].
  - intros u side n Hn. rewrite l_since_silent, Hs by done. done.
  - eapply Forall_impl; [exact Hl|]. by intros [].
  - eapply Forall_impl; [exact Hl|]. by intros [].
  - eapply Forall_impl; [exact Hl|]. by intros [].
Qed.

Lemma l_tame_read a : tame a a [].
Proof. by apply l_tame_silent. Qed.

(** Turning a switch off is safe for every thread but for [command_enabled], which
    only the control server writes. *)
Lemma switch_written sw b sw' a :
  switch_on sw' (with_flags (set_switch sw b) a) = if decide (sw' = sw) then b else switch_on sw' a.
Proof. by destruct sw, sw'. Qed.

Lemma keeps_write sw b a : keeps a (with_flags (set_switch sw b) a) [GSet sw b].
Proof.
  intros u side n Hn. cbn [fold_left since_label]. rewrite switch_written.
  destruct (decide (sw = switch_of u)) as [->|Hd].
  - rewrite decide_True by done. destruct b; [by intros []|done].
  - rewrite decide_False by done. done.
Qed.

Lemma server_write sw b a : (b = true -> sw = SwEnabled) -> server_step a (with_flags (set_switch sw b) a) [GSet sw b].
Proof. intros Hb. split; [apply keeps_write|]. split; repeat constructor. destruct sw, b; try done; by specialize (Hb eq_refl). Qed.

Lemma tame_off sw a : sw <> SwEnabled -> tame a (with_flags (set_switch sw false) a) [GSet sw false].
Proof. intros Hs. split; [by apply server_write|]. repeat constructor. by destruct sw. Qed.

Lemma server_tame s s' l : tame s s' l -> server_step s s' l.
Proof. by intros [H _]. Qed.

Lemma acts_server {A} (p : LProg A) : acts tame p -> acts server_step p.
Proof. apply acts_mono, server_tame. Qed.

#[export] Hint Resolve l_tame_read : acts.

(** ** Programs *)

Lemma l_acts_tame_store f : (forall a sw, switch_on sw (f a) = switch_on sw a) -> acts tame (store f).
Proof. intros H. apply acts_store. intros a. by apply l_tame_silent. Qed.

Lemma l_acts_tame_output l : all silent l -> acts tame (output l).
Proof. intros Hl. apply acts_output. intros a. by apply l_tame_silent. Qed.

(** An exchange. *)
Lemma acts_tame_act {A} (f : LeaderApp -> LeaderApp) (b : LeaderApp -> A) :
  (forall a sw, switch_on sw (f a) = switch_on sw a) -> acts tame (Act (fun a => Ok (f a, [], b a)) Done).
Proof. intros H. apply acts_one. intros s s' l x [= <- <- _]. by apply l_tame_silent. Qed.

Lemma acts_off sw : sw <> SwEnabled -> acts tame (write_switch sw false).
Proof. intros Hs. apply acts_one. intros s s' l x [= <- <- _]. by apply tame_off. Qed.

Lemma acts_write sw b : (b = true -> sw = SwEnabled) -> acts server_step (write_switch sw b).
Proof. intros Hs. apply acts_one. intros s s' l x [= <- <- _]. by apply server_write. Qed.

#[export] Hint Resolve acts_load acts_compute acts_query : acts.
#[export] Hint Extern 2 (acts tame (store _)) => apply l_acts_tame_store; by intros ? [] : acts.
#[export] Hint Extern 2 (acts tame (output _)) => apply l_acts_tame_output; by repeat constructor : acts.
#[export] Hint Extern 2 (acts tame (write_switch _ false)) => apply acts_off; done : acts.

Lemma acts_read_switch sw : acts tame (read_switch sw).
Proof. apply acts_load, l_tame_read. Qed.
Lemma acts_latest side : acts tame (latest_feedback side).
Proof. apply acts_load, l_tame_read. Qed.
Lemma acts_statistics side now : acts tame (statistics side now).
Proof. apply acts_query, l_tame_read. Qed.

#[export] Hint Resolve acts_read_switch acts_latest acts_statistics : acts.

Ltac tame := acts_split; auto with acts.

Section programs.
Context (env : LeaderEnv) (tanh sin cos : double -> double).

Lemma acts_refresh os : acts tame (refresh_prog env os).
Proof. unfold refresh_prog. tame. Qed.

Lemma acts_gate now_r now_l : acts tame (gate_prog env now_r now_l).
Proof. unfold gate_prog. tame. Qed.

Hint Resolve acts_refresh acts_gate : acts.

Lemma move_both_switch tr gr tl gl rr rl a a' t sw :
  move_both tr gr tl gl rr rl a = Ok (a', t) -> switch_on sw a' = switch_on sw a.
Proof. intros [_ H]%move_both_core. unfold switch_on. by rewrite H. Qed.

Lemma acts_moving tr gr tl gl rr rl : acts tame (moving tr gr tl gl rr rl).
Proof.
  apply acts_one. intros s s' l x ([a t] & Hm & [= <- <- _])%bind_ok. apply l_tame_silent; [|by repeat constructor].
  intros sw. by eapply move_both_switch.
Qed.

Hint Resolve acts_moving : acts.

Lemma acts_init_move i : acts tame (init_move_prog env i).
Proof. unfold init_move_prog. tame. apply acts_tame_act. by intros ? []. Qed.

Lemma acts_goto_move i : acts tame (goto_move_prog env i).
Proof. unfold goto_move_prog. tame. apply acts_tame_act. by intros ? []. Qed.

Lemma acts_supervise i gate_l : acts tame (supervise_prog env i gate_l).
Proof. unfold supervise_prog. tame. Qed.

Lemma publish_leader_switch i p a a' d sw :
  publish_leader env i p a = Ok (a', d) -> switch_on sw a' = switch_on sw a.
Proof. unfold publish_leader. destruct (publish _ _) as [x pub]. intros (dt & _ & [= <- _])%bind_ok. done. Qed.

Lemma acts_publish i pr pl : acts tame (publish_prog env i pr pl).
Proof.
  unfold publish_prog. tame. apply acts_one.
  intros s s' l x ([b d] & Hp & [= <- <- _])%bind_ok. apply l_tame_silent; [|by destruct d; repeat constructor].
  intros sw. by eapply publish_leader_switch.
Qed.

(** *** Handlers *)

Lemma acts_bilateral_text clk : acts tame (bilateral_text_prog env clk).
Proof. unfold bilateral_text_prog. tame. Qed.

Lemma acts_summary clk : acts tame (summary_prog env clk).
Proof. unfold summary_prog. tame. Qed.

Hint Resolve acts_bilateral_text acts_summary : acts.

Lemma acts_receive side sys_now now data : acts tame (receive_prog side sys_now now data).
Proof. apply l_acts_tame_store. intros a sw. by destruct side. Qed.

Lemma acts_interrupt : acts tame interrupt_prog.
Proof. by apply acts_off. Qed.

Lemma acts_handlers os clk w h args :
  leader_handler_progs env os clk !! w = Some h -> w <> "bilateral_enable" -> acts server_step (h args).
Proof.
  unfold leader_handler_progs. intros H Hw.
  repeat (rewrite lookup_insert_Some in H; destruct H as [[<- <-]|[_ H]]); [..|by apply lookup_empty_Some in H].
  all: try done.
  all: unfold leader_shutdown_prog, leader_estop_prog, request_goto_prog, request_init_prog, enable_prog, disable_prog,
    leader_status_prog, bilateral_status_prog, disable_bilateral_prog.
  all: acts_split; try (apply acts_write; by intros); apply acts_server; auto with acts.
Qed.
End programs.

(** ** Interference *)

(** What a thread does to the state and the trace, as a class of labels and the
    invariant. *)
Definition grows (ok : LLabel -> bool) (y z : LConfig) : Prop :=
  exists l, z.2 = y.2 ++ l /\ all ok l /\ (Inv y -> Inv z).

Lemma grows_refl ok y : grows ok y y.
Proof. exists []. by rewrite app_nil_r. Qed.

Lemma grows_trans ok x y z : grows ok x y -> grows ok y z -> grows ok x z.
Proof.
  intros (l1 & E1 & H1 & I1) (l2 & E2 & H2 & I2). exists (l1 ++ l2). rewrite E2, E1, app_assoc.
  split_and!; [done|by apply Forall_app|auto].
Qed.

Lemma grows_mono ok ok' y z : (forall l, ok l = true -> ok' l = true) -> grows ok y z -> grows ok' y z.
Proof. intros H (l & E & Hl & Hi). exists l. split_and!; [done| |done]. eapply Forall_impl; [exact Hl|]. exact H. Qed.

(** Only the main loop uses what the switches permit, and only the control server
    writes [command_enabled]. *)
Definition main_label := not_enable.
Definition server_label := not_use.
Definition other_label (l : LLabel) : bool := not_enable l && not_use l.

Definition guarantee (k : nat) : LConfig -> LConfig -> Prop :=
  match k with
  | 0%nat => grows main_label
  | 1%nat => grows server_label
  | _ => grows other_label
  end.

Definition rely (k : nat) : LConfig -> LConfig -> Prop :=
  match k with
  | 0%nat => grows not_use
  | 1%nat => grows not_enable
  | _ => grows (fun _ => true)
  end.

Lemma rely_refl k y : rely k y y.
Proof. destruct k as [|[|k]]; apply grows_refl. Qed.

Lemma rely_trans k x y z : rely k x y -> rely k y z -> rely k x z.
Proof. destruct k as [|[|k]]; apply grows_trans. Qed.

Lemma guarantee_rely j k y z : j <> k -> guarantee j y z -> rely k y z.
Proof.
  destruct j as [|[|j]], k as [|[|k]]; try done; intros _; apply grows_mono; intros l; unfold other_label; rewrite ?andb_true_iff;
    naive_solver.
Qed.

Lemma guarantee_inv k y z : guarantee k y z -> Inv y -> Inv z.
Proof. destruct k as [|[|k]]; intros (l & _ & _ & H); exact H. Qed.

(** A step that every thread may make. *)
Lemma tame_guarantee k y s l : tame y.1 s l -> guarantee k y (extend y s l).
Proof.
  intros [Hs He]. assert (Hi : Inv y -> Inv (extend y s l)) by (intros Hy; by apply l_inv_step).
  destruct Hs as (_ & Hu & _). destruct k as [|[|k]]; exists l; (split; [done|]); (split; [|exact Hi]); try done.
  unfold other_label. rewrite Forall_forall in *. intros x Hx. by rewrite He, Hu.
Qed.

Lemma l_tame_ok k (p : LProg unit) y : acts tame p -> thread_ok any_failure (rely k) (guarantee k) (anything k) (Seq p) y.
Proof.
  intros Hp. cbn [thread_ok]. eapply wp_mono; [|apply (wp_acts _ _ _ tame (fun _ => True)); try done]; [done|].
  intros z s l _ Hz. split; [by apply tame_guarantee|done].
Qed.

(** ** The main loop *)

Section main.
Context (env : LeaderEnv) (tanh sin cos : double -> double).

Abbreviation mwp := (wp any_failure (rely 0) (guarantee 0)).
Abbreviation mwp_bind := (wp_bind any_failure (rely 0) (guarantee 0)).

(** The invariant, and the uses [K] that the switches permitted when they were
    read. *)
Definition main_at (K : Use -> ArmSide -> bool) (y : LConfig) : Prop :=
  Inv y /\ forall u side, K u side = true -> fresh u side y.2.

Lemma main_stable K y z : rely 0 y z -> main_at K y -> main_at K z.
Proof.
  intros (l & E & Hl & Hi) [Hy Hk]. split; [auto|]. intros u side Hu. rewrite E. apply l_fresh_quiet; auto.
Qed.

Lemma main_weaken (K K' : Use -> ArmSide -> bool) y :
  (forall u side, K' u side = true -> K u side = true) -> main_at K y -> main_at K' y.
Proof. intros H [Hy Hk]. split; auto. Qed.

(** A program of steps that every thread may make. *)
Lemma main_tame {A} K (p : LProg A) y : acts tame p -> main_at K y -> mwp p (fun _ => main_at K) y.
Proof.
  intros Hp Hy. apply (wp_acts _ _ _ tame); [|..|done|done|done].
  - intros u v. apply main_stable.
  - intros u s l Hu Ht. split; [by apply tame_guarantee|]. destruct Hu as [Hi Hk]. destruct Ht as [Ht _].
    split; [by apply l_inv_step|]. intros w side Hw. cbn [extend snd]. destruct Ht as (_ & Hq & _). apply l_fresh_quiet; auto.
Qed.

(** A switch found on permits its uses. *)
Definition permit (sw : Switch) (b : bool) (K : Use -> ArmSide -> bool) (u : Use) (side : ArmSide) : bool :=
  K u side || (b && bool_decide (switch_of u = sw)).

Lemma main_read K sw y : main_at K y -> mwp (read_switch sw) (fun b => main_at (permit sw b K)) y.
Proof.
  intros Hy z Hz. assert (Hm : main_at K z) by by eapply main_stable. split.
  { apply tame_guarantee, l_tame_read. }
  intros w Hw. eapply main_stable; [exact Hw|]. unfold extend. cbn [fst snd]. rewrite app_nil_r.
  destruct Hm as [Hi Hk]. split; [by destruct z|]. intros u side. unfold permit. intros [Hu|[Hb Hs%bool_decide_eq_true]%andb_prop]%orb_true_iff; [by apply Hk|].
  intros n Hn. cbn [snd] in Hn. pose proof (inv_off z Hi u side (ex_intro _ n Hn)) as Hoff. rewrite Hs in Hoff. congruence.
Qed.

(** A step with one use, all of it permitted. *)
Definition used (x : LLabel) (K : Use -> ArmSide -> bool) (u : Use) (side : ArmSide) : bool :=
  K u side && negb (uses u side x).

Lemma main_use {A} K (f : LeaderApp -> outcome (LeaderApp * list LLabel * A)) x y :
  not_use x = false -> (forall u side, uses u side x = true -> K u side = true) ->
  (forall a a' l b, f a = Ok (a', l, b) -> l = [x] /\ forall sw, switch_on sw a' = switch_on sw a) ->
  main_at K y -> mwp (Act f Done) (fun _ => main_at (used x K)) y.
Proof.
  intros Hx HK Hf Hy z Hz. assert (Hm : main_at K z) by by eapply main_stable.
  destruct (f z.1) as [[[s l] b]| |] eqn:Ef; [|done|done]. apply Hf in Ef as [-> Hs]. destruct Hm as [Hi Hk].
  assert (Hl : forall u side n, fold_left (since_label u side) [x] n = if uses u side x then option_map S n else n).
  { intros u side n. destruct x; try done. }
  assert (Hi' : Inv (extend z s [x])).
  { destruct Hi as [H1 H2 H3 H4]. unfold extend. split; cbn [fst snd].
    - intros u side. rewrite l_since_app, Hl, Hs. intros H. apply (H1 u side). destruct (uses u side x); [|done].
      by destruct (since u side z.2); [|by destruct H].
    - intros u side n. rewrite l_since_app, Hl. destruct (uses u side x) eqn:Eu; [|by apply H2].
      specialize (Hk u side (HK u side Eu)). destruct (since u side z.2) as [m|] eqn:Em; [|done]. rewrite (Hk m Em). intros [= <-]. lia.
    - intros tr1 tr2 side (tr2' & Htr)%(app_split (fun l => negb (not_use l))); [by eapply H3| |done].
      repeat constructor. by rewrite Hx.
    - rewrite elem_of_app, list_elem_of_singleton. intros [H| <-]; done. }
  split.
  - exists [x]. split_and!; [done| |done]. repeat constructor. by destruct x.
  - intros w Hw. eapply main_stable; [exact Hw|]. split; [done|]. intros u side [Hu Hn]%andb_prop. cbn [extend snd].
    intros n. rewrite l_since_app, Hl. apply negb_true_iff in Hn. rewrite Hn. by apply Hk.
Qed.

(** *** One arm *)

Definition allowed : Use -> ArmSide -> bool := fun u _ => bool_decide (u = UAny).

Lemma side_want_requested requested st latest : side_want env requested st latest = true -> requested = true.
Proof. unfold side_want. destruct latest as [fb|]; [|done]. intros [[[[_ H]%andb_prop _]%andb_prop _]%andb_prop _]%andb_prop. exact H. Qed.

Lemma engage_ok b side want aligned bcmd m y :
  (want = true -> b = true) -> main_at (permit SwBilateral b allowed) y ->
  mwp (engage_prog env tanh side want aligned bcmd m) (fun _ => main_at allowed) y.
Proof.
  intros Hw Hy. unfold engage_prog. cbv zeta. apply mwp_bind; [apply (rely_refl 0)|].
  eapply wp_mono; [|eapply (main_use _ _ (GEngage side want)); [done| | |exact Hy]].
  - intros [] y5 Hy5. apply main_tame.
    + apply acts_one. intros s s' l x (c & _ & H)%bind_ok. destruct (leader_step tanh _ m c) as [c' r].
      apply bind_ok in H as (cmds & _ & [= <- <- _]). apply l_tame_silent; [|by repeat constructor]. by destruct side.
    + eapply main_weaken; [|exact Hy5]. intros u sd H. unfold used, permit. rewrite H. by destruct u.
  - intros u sd Hu. destruct u; try done. cbn [uses] in Hu. apply andb_prop in Hu as [_ ->].
    rewrite Hw by done. unfold permit. by rewrite orb_true_r.
  - intros a a' l x [= <- <- _]. split; [done|]. by destruct side.
Qed.

Lemma arm_ok side now m y : main_at allowed y -> mwp (arm_prog env tanh side now m) (fun _ => main_at allowed) y.
Proof.
  intros Hy. unfold arm_prog. apply mwp_bind; [apply (rely_refl 0)|].
  eapply wp_mono; [|apply (main_tame allowed); [auto with acts|done]]. intros latest y1 Hy1.
  apply mwp_bind; [apply (rely_refl 0)|].
  eapply wp_mono; [|apply (main_tame allowed); [auto with acts|done]]. intros st y2 Hy2.
  apply mwp_bind; [apply (rely_refl 0)|]. apply (wp_mono _ _ _ _ (fun b => main_at (permit SwBilateral b allowed))).
  2: { destruct (bi_render_enabled _); [by apply main_read|]. intros z Hz. eapply main_weaken; [|exact (main_stable _ _ _ Hz Hy2)].
       intros u sd. unfold permit. by rewrite orb_false_r. }
  intros b y3 Hy3. apply mwp_bind; [apply (rely_refl 0)|].
  eapply wp_mono; [|apply (main_tame (permit SwBilateral b allowed)); [auto with acts|done]]. intros [aligned bcmd] y4 Hy4.
  apply (engage_ok b); [|done]. by apply side_want_requested.
Qed.

Lemma main_arms_ok i y : main_at allowed y -> mwp (both_arms_prog env tanh sin cos i) (fun _ => main_at allowed) y.
Proof.
  intros Hy. unfold both_arms_prog. destruct (le_mock env).
  { intros z Hz. by eapply main_stable. }
  apply mwp_bind; [apply (rely_refl 0)|]. eapply wp_mono; [|by apply arm_ok]. intros cr y1 Hy1.
  apply mwp_bind; [apply (rely_refl 0)|]. eapply wp_mono; [|by apply arm_ok]. intros cl y2 Hy2.
  apply main_tame; [tame|done].
Qed.

(** *** The packets *)

Lemma command_flags side seq mode en t p :
  tp_enable (teleop_encode t (command_header side seq mode en p)) = (if en : bool then 1 else 0) /\
  tp_mode (teleop_encode t (command_header side seq mode en p)) = control_mode_u8 mode.
Proof. done. Qed.

(** The uses of a packet. *)
Lemma send_uses u sd side t seq (requested en : bool) p :
  let pkt := teleop_encode t (command_header side seq (if requested then BILATERAL else UNILATERAL) en p) in
  uses u sd (GSend side pkt) = true ->
  side = sd /\ (u = UEnabled /\ en = true \/ u = UBilateral /\ requested = true \/ u = UAny).
Proof.
  cbv zeta. destruct (command_flags side seq (if requested then BILATERAL else UNILATERAL) en t p) as [He Hm].
  destruct u; cbn [uses]; rewrite ?He, ?Hm.
  - intros [Hs%bool_decide_eq_true H]%andb_prop. split; [done|]. left. by destruct en.
  - intros [Hs%bool_decide_eq_true H]%andb_prop. split; [done|]. right; left. by destruct requested.
  - done.
  - intros Hs%bool_decide_eq_true. split; [done|]. by right; right.
Qed.

Lemma main_send_ok i jr jl y : main_at allowed y -> mwp (send_prog i jr jl) (fun _ => Inv) y.
Proof.
  intros Hy. unfold send_prog. cbv zeta.
  apply mwp_bind; [apply (rely_refl 0)|]. eapply wp_mono; [|apply (main_read _ _ _ Hy)]. intros requested y1 Hy1.
  apply mwp_bind; [apply (rely_refl 0)|]. eapply wp_mono; [|apply (main_read _ _ _ Hy1)]. intros en_r y2 Hy2.
  apply mwp_bind; [apply (rely_refl 0)|]. eapply wp_mono; [|apply (main_read _ _ _ Hy2)]. intros en_l y3 Hy3.
  set (K := permit SwEnabled en_l (permit SwEnabled en_r (permit SwBilateral requested allowed))).
  change (main_at K y3) in Hy3.
  apply mwp_bind; [apply (rely_refl 0)|].
  eapply wp_mono; [|apply (main_tame K); [by apply acts_tame_act|exact Hy3]]. intros seq y4 Hy4.
  set (pr := teleop_encode (in_sys_r i) _). set (pl := teleop_encode (in_sys_l i) _).
  assert (HK : forall u sd side en p t, (en = en_r \/ en = en_l) ->
    uses u sd (GSend side (teleop_encode t (command_header side seq (if requested then BILATERAL else UNILATERAL) en p))) = true ->
    K u sd = true).
  { intros u sd side en p t He Hu. apply send_uses in Hu as [_ [[-> ->]|[[-> ->]| ->]]]; unfold K, permit; cbn.
    - by destruct He as [He|He], en_r, en_l, requested.
    - by destruct en_r, en_l.
    - by destruct en_r, en_l, requested. }
  apply mwp_bind; [apply (rely_refl 0)|]. eapply wp_mono; [|eapply (main_use _ _ (GSend RIGHT pr)); [done| | |exact Hy4]].
  - intros [] y5 Hy5. apply mwp_bind; [apply (rely_refl 0)|].
    eapply wp_mono; [|eapply (main_use _ _ (GSend LEFT pl)); [done| | |exact Hy5]].
    + intros [] y6 Hy6 z Hz. eapply main_stable in Hz; [|exact Hy6]. apply Hz.
    + intros u sd Hu. unfold used. rewrite (HK u sd LEFT en_l jl (in_sys_l i) (or_intror eq_refl) Hu).
      unfold pl in Hu. apply send_uses in Hu as [<- _]. by destruct u.
    + by intros a a' l x [= <- <- _].
  - intros u sd. by apply HK; left.
  - by intros a a' l x [= <- <- _].
Qed.

Lemma l_main_ok i gate_l y : Inv y -> mwp (loop_prog env tanh sin cos i gate_l) (fun _ _ => True) y.
Proof.
  intros Hy. unfold loop_prog, leader_prog.
  assert (H0 : main_at (fun _ _ => false) y) by done.
  apply mwp_bind; [apply (rely_refl 0)|]. eapply wp_mono; [|apply (main_read _ SwRunning _ H0)]. intros [] y0 Hy0; [|done].
  assert (Ha : main_at allowed y0) by (eapply main_weaken; [|exact Hy0]; by intros []).
  apply mwp_bind; [apply (rely_refl 0)|]. apply (wp_mono _ _ _ _ (fun _ _ => True)); [done|].
  apply mwp_bind; [apply (rely_refl 0)|].
  eapply wp_mono; [|apply (main_tame allowed); [apply acts_init_move|done]]. intros ti y1 Hy1.
  apply mwp_bind; [apply (rely_refl 0)|].
  eapply wp_mono; [|apply (main_tame allowed); [apply acts_goto_move|done]]. intros tg y2 Hy2.
  apply mwp_bind; [apply (rely_refl 0)|].
  eapply wp_mono; [|apply (main_arms_ok i _ Hy2)]. intros [[cmds jr] jl] y3 Hy3.
  apply mwp_bind; [apply (rely_refl 0)|].
  eapply wp_mono; [|apply (main_tame allowed); [apply acts_supervise|done]]. intros [] y4 Hy4.
  apply mwp_bind; [apply (rely_refl 0)|].
  eapply wp_mono; [|apply (main_send_ok i jr jl _ Hy4)]. intros [pr pl] y5 Hy5.
  apply mwp_bind; [apply (rely_refl 0)|].
  eapply wp_mono; [|apply (main_tame (fun _ _ => false)); [apply acts_publish|done]]. done.
Qed.
End main.

(** ** The control server *)

Section server.
Context (env : LeaderEnv).

Abbreviation swp := (wp any_failure (rely 1) (guarantee 1)).
Abbreviation swp_bind := (wp_bind any_failure (rely 1) (guarantee 1)).

(** The invariant; and that the arms have not been disabled. *)
Definition server_at (enabled : bool) (y : LConfig) : Prop :=
  Inv y /\ (enabled = true -> forall side, since UEnabled side y.2 = None).

Lemma server_stable e y z : rely 1 y z -> server_at e y -> server_at e z.
Proof.
  intros (l & E & Hl & Hi) [Hy He]. split; [auto|]. intros Ht side. rewrite E, l_since_app, (He Ht). by apply since_enabled_none.
Qed.

Lemma server_tame_wp {A} e (p : LProg A) y : acts tame p -> server_at e y -> swp p (fun _ => server_at e) y.
Proof.
  intros Hp Hy. apply (wp_acts _ _ _ tame); [|..|done|done|done].
  - intros u v. apply server_stable.
  - intros u s l [Hi He] Ht. split; [by apply tame_guarantee|]. destruct Ht as [Ht Hn]. split; [by apply l_inv_step|].
    intros H side. cbn [extend snd]. rewrite l_since_app, (He H). by apply since_enabled_none.
Qed.

(** A program of the server's own steps. *)
Lemma server_acts_wp {A} (p : LProg A) y : acts server_step p -> Inv y -> swp p (fun _ => Inv) y.
Proof.
  intros Hp Hy. apply (wp_acts _ _ _ server_step); [|..|done|done|done].
  - by intros u v (l & _ & _ & Hi).
  - intros u s l Hu Hs. assert (Hi : Inv (extend u s l)) by by apply l_inv_step. split; [|done]. exists l.
    by destruct Hs as (_ & Hs & _).
Qed.

Lemma enable_bilateral_ok os clk args y : Inv y -> swp (enable_bilateral_prog env os clk args) (fun _ => Inv) y.
Proof.
  intros Hy. unfold enable_bilateral_prog. apply swp_bind; [apply (rely_refl 1)|].
  apply (wp_mono _ _ _ _ (fun b => server_at b)).
  2: { intros z (l & E & Hl & Hi). specialize (Hi Hy). split; [apply tame_guarantee, l_tame_read|].
       intros w Hw. eapply server_stable; [exact Hw|]. unfold extend. cbn [fst snd]. rewrite app_nil_r.
       split; [by destruct z|]. intros Hb side. pose proof (inv_off z Hi UEnabled side) as Ho.
       destruct (since UEnabled side z.2) as [n|] eqn:En; [exfalso|exact En]. cbn [switch_of] in Ho. specialize (Ho (ex_intro _ _ eq_refl)). congruence. }
  intros [] y1 Hy1; cbn [negb]; [|intros z Hz; by apply (server_stable _ _ _ Hz Hy1)].
  apply swp_bind; [apply (rely_refl 1)|]. eapply wp_mono; [|apply (server_tame_wp true); [apply acts_refresh|done]]. intros [] y2 Hy2.
  apply swp_bind; [apply (rely_refl 1)|]. eapply wp_mono; [|apply (server_tame_wp true); [apply acts_gate|done]]. intros g y3 Hy3.
  destruct (negb (gr_ok g)); [intros z Hz; by apply (server_stable _ _ _ Hz Hy3)|].
  apply swp_bind; [apply (rely_refl 1)|]. apply (wp_mono _ _ _ _ (fun _ => Inv)).
  - intros [] y4 Hy4. apply swp_bind; [apply (rely_refl 1)|].
    eapply wp_mono; [|apply (server_acts_wp _ y4); [apply acts_server, acts_bilateral_text|done]].
    intros j y5 Hy5 z (l & _ & _ & Hi). auto.
  - intros z Hz. destruct (server_stable _ _ _ Hz Hy3) as [[H1 H2 H3 H4] He].
    assert (Hi : Inv (extend z (with_flags (set_switch SwBilateral true) z.1) [GSet SwBilateral true])).
    { unfold extend. split; cbn [fst snd].
      - intros u side. rewrite l_since_app. apply keeps_write, H1.
      - intros u side n. rewrite l_since_app. intros [->|Hn]%l_since_quiet; [lia|by eapply H2|by repeat constructor].
      - intros tr1 tr2 side Htr. apply app_eq_inv in Htr as [(k & Hz2 & Hk)|(k & -> & Hk)].
        + destruct k as [|v k]; [rewrite app_nil_r in Hz2; rewrite <- Hz2; by apply He|].
          injection Hk as <- _. by eapply H3.
        + destruct k as [|v k]; [rewrite app_nil_r; by apply He|]. by destruct k.
      - rewrite elem_of_app, list_elem_of_singleton. by intros [H|H]. }
    split; [exists [GSet SwBilateral true]; split_and!; [done|by repeat constructor|by intros _]|].
    intros w (l & _ & _ & Hw). auto.
Qed.

Lemma answer_ok os clk line y : Inv y -> thread_ok any_failure (rely 1) (guarantee 1) (anything 1) (Seq (answer_prog env os clk line)) y.
Proof.
  intros Hy. cbn [thread_ok]. unfold answer_prog.
  assert (Hh : forall w args,
    swp (match leader_handler_progs env os clk !! w with
         | Some h => h args
         | None => mret (json_error ("unknown command: " +:+ w))
         end) (fun _ => Inv) y).
  { intros w args. destruct (leader_handler_progs env os clk !! w) as [h|] eqn:Eh.
    - destruct (decide (w = "bilateral_enable")) as [->|Hw].
      + unfold leader_handler_progs in Eh. rewrite !lookup_insert_ne, lookup_insert_eq in Eh by done. injection Eh as <-.
        by apply enable_bilateral_ok.
      + apply server_acts_wp; [by eapply acts_handlers|done].
    - intros z (l & _ & _ & Hz). auto. }
  destruct (split_first (trim line)) as [w [rest|]].
  all: apply swp_bind; [apply (rely_refl 1)|]; eapply wp_mono; [|apply Hh]; intros r z Hz; apply (wp_mono _ _ _ _ (fun _ => Inv)); [done|];
    apply server_acts_wp; [apply acts_server, l_acts_tame_output; by repeat constructor|done].
Qed.
End server.

(** ** Every schedule *)

Section schedules.
Context (env : LeaderEnv) (tanh sin cos : double -> double).

Abbreviation ok_pool := (pool_ok 5 any_failure rely guarantee anything).

Lemma l_begin_ok e s tr ts s' ts' :
  Inv (s, tr) -> ok_pool (s, tr) ts -> leader_begin env tanh sin cos e s ts = Some (s', ts') ->
  Inv (s', tr) /\ ok_pool (s', tr) ts'.
Proof.
  intros Hi [Hlen Hp] Hb.
  assert (Hgive : forall k p, give k p s ts = Some (s', ts') -> thread_ok any_failure (rely k) (guarantee k) (anything k) (Seq p) (s, tr) ->
    Inv (s', tr) /\ ok_pool (s', tr) ts').
  { intros k p [-> ->]%give_inv Ht. split; [done|]. split; [by rewrite length_insert|]. intros j u Hj.
    apply list_lookup_insert_Some in Hj as [(<- & <- & _)|[_ Hj]]; [done|by apply Hp]. }
  destruct e as [i gate_l|os clk line| |side sys_now now data]; cbn [leader_begin] in Hb.
  - eapply Hgive; [exact Hb|]. by apply l_main_ok.
  - eapply Hgive; [exact Hb|]. by apply answer_ok.
  - eapply Hgive; [exact Hb|]. apply l_tame_ok, acts_interrupt.
  - eapply Hgive; [exact Hb|]. apply l_tame_ok, acts_receive.
Qed.

(** The invariant holds after every schedule from an idle pool. *)
Lemma l_exec_inv cs a x l :
  leader_exec env tanh sin cos cs (mkSys a leader_pool) = Ok (x, l) -> Inv (sy_state x, l).
Proof.
  intros H.
  pose proof (sys_exec_ok (leader_begin env tanh sin cos) 5 any_failure rely guarantee anything Inv (fun _ => True)
    rely_refl rely_trans guarantee_rely guarantee_inv) as Hok.
  specialize (Hok (fun e s tr ts s' ts' _ => l_begin_ok e s tr ts s' ts') cs (mkSys a leader_pool) []).
  unfold leader_exec in H. rewrite H in Hok. apply Hok.
  - by apply Forall_true; intros [].
  - split; cbn [fst snd].
    + by intros u side [? ?].
    + done.
    + by intros [].
    + apply not_elem_of_nil.
  - split; [done|]. intros k t Ht. apply lookup_replicate in Ht as [-> _]. cbn. done.
Qed.
End schedules.

(** ** Properties *)

Lemma l_since_count u side l n :
  Forall (fun x => x <> GSet (switch_of u) true) l ->
  fold_left (since_label u side) l (Some n) = Some (n + count_uses u side l)%nat.
Proof.
  intros Hl. revert n. induction Hl as [|x l Hx Hl IH]; intros n; cbn [fold_left].
  { f_equal. unfold count_uses. cbn. lia. }
  unfold count_uses in *. rewrite filter_cons.
  assert (Hs : since_label u side (Some n) x = Some (if uses u side x then S n else n)).
  { destruct x as [sw b| | | | | |]; cbn [since_label]; try (by destruct (uses u side _)).
    case_decide as Hd; [|by destruct u]. subst sw. destruct b; [done|]. by destruct u. }
  rewrite Hs, IH. destruct (uses u side x); [rewrite decide_True by done|rewrite decide_False by done]; cbn [length]; f_equal; lia.
Qed.

(** C9: The leader's switches under every interleaving. Whatever the main loop, the
    control server, the feedback receivers and the signal handler are doing, and in
    whatever order their accesses interleave: once [command_enabled] has been
    cleared, and until the command [enable], at most one more packet per arm has the
    enable flag, and force feedback cannot be requested; once
    [bilateral_requested] has been cleared, and until it is requested again, at most
    one more packet per arm is in bilateral mode and at most one more cycle per arm
    asks its engager for force; and once [keep_running] has been cleared, for good,
    at most one more packet per arm is sent. The switch itself stays off. *)
Theorem leader_off_any_interleaving (env : LeaderEnv) (tanh sin cos : double -> double) (cs : list (Choice LEvent))
    (a : LeaderApp) (x : Sys LeaderApp LLabel) (u : Use) (side : ArmSide) (l1 l2 : list LLabel) :
  leader_exec env tanh sin cos cs (mkSys a leader_pool) = Ok (x, l1 ++ GSet (switch_of u) false :: l2) ->
  (u <> UAny -> Forall (fun z => z <> GSet (switch_of u) true) l2) ->
  (count_uses u side l2 <= 1)%nat /\ switch_on (switch_of u) (sy_state x) = false /\
  (u = UEnabled -> GSet SwBilateral true ∉ l2).
Proof.
  intros H Hu. apply l_exec_inv in H.
  assert (Hl : Forall (fun z => z <> GSet (switch_of u) true) l2).
  { destruct (decide (u = UAny)) as [->|Hd]; [|by apply Hu]. apply Forall_forall. intros z Hz ->. apply (inv_stop _ H).
    cbn [snd]. rewrite elem_of_app, elem_of_cons. by right; right. }
  assert (Hs : forall l, Forall (fun z => z <> GSet (switch_of u) true) l ->
    exists n, since u side (l1 ++ GSet (switch_of u) false :: l) = Some (n + count_uses u side l)%nat).
  { intros l Hf. rewrite l_since_app. cbn [fold_left since_label]. rewrite decide_True by done.
    destruct (since u side l1) as [n|]; eexists; by apply l_since_count. }
  destruct (Hs l2 Hl) as [n Hn]. split_and!.
  - pose proof (inv_once _ H u side _ Hn). lia.
  - apply (inv_off _ H u side). by eexists.
  - intros -> (l3 & l4 & ->)%list_elem_of_split.
    apply Forall_app in Hl as [Hl _]. destruct (Hs l3 Hl) as [m Hm].
    pose proof (inv_request _ H (l1 ++ GSet SwEnabled false :: l3) l4 side) as Hr. cbn [snd switch_of] in Hr, Hm.
    rewrite Hm in Hr. discriminate Hr. by rewrite <- app_assoc.
Qed.

(** *** Schedules *)

Definition lsteps (k n : nat) : list (Choice LEvent) := replicate n (Run k true).

Definition lcommand (line : string) : list (Choice LEvent) :=
  Event (LtCommand test_os (fun _ => 6000000) line) :: lsteps server_thread 40.

Definition lcycle (t : Z) : list (Choice LEvent) := Event (LtCycle (test_input t) t) :: lsteps main_thread 60.

(** The main loop has read [command_enabled] for the right packet when the arms are
    disabled. *)
Definition disable_schedule : list (Choice LEvent) :=
  lcommand "enable" ++ Event (LtCycle (test_input 8000000) 8000000) :: lsteps main_thread 19
  ++ lcommand "disable" ++ lsteps main_thread 60 ++ lcycle 10000000.

(** The trace before and after the first write of [false] to a switch. *)
Fixpoint cut_off (sw : Switch) (l : list LLabel) : option (list LLabel * list LLabel) :=
  match l with
  | [] => None
  | x :: l' =>
      if match x with GSet s false => bool_decide (s = sw) | _ => false end then Some ([], l')
      else match cut_off sw l' with Some (p, q) => Some (x :: p, q) | None => None end
  end.

Lemma cut_off_spec sw l p q : cut_off sw l = Some (p, q) -> l = p ++ GSet sw false :: q.
Proof.
  revert p q. induction l as [|x l IH]; intros p q; [done|]. cbn [cut_off].
  destruct (match x with GSet s false => bool_decide (s = sw) | _ => false end) eqn:E.
  - destruct x as [s []| | | | | |]; try done. apply bool_decide_eq_true in E as ->. by intros [= <- <-].
  - destruct (cut_off sw l) as [[p' q']|]; [|done]. intros [= <- <-]. cbn [app]. f_equal. by apply IH.
Qed.

Definition never_on (sw : Switch) (l : list LLabel) : bool :=
  forallb (fun z => match z with GSet s true => negb (bool_decide (s = sw)) | _ => true end) l.

Lemma never_on_spec sw l : never_on sw l = true -> Forall (fun z => z <> GSet sw true) l.
Proof.
  intros H. apply Forall_forall. intros z Hz ->. unfold never_on in H. rewrite forallb_forall in H.
  apply list_elem_of_In in Hz. specialize (H _ Hz). cbn beta iota in H. by rewrite bool_decide_true in H.
Qed.

Lemma leader_off_any_interleaving_witness :
  exists x l1 l2,
    leader_exec (test_env false) id id id disable_schedule (mkSys (test_app (Some test_leader)) leader_pool) =
      Ok (x, l1 ++ GSet (switch_of UEnabled) false :: l2) /\
    count_uses UEnabled RIGHT l2 = 1%nat /\ count_uses UAny RIGHT l2 = 2%nat /\
    switch_on SwEnabled (sy_state x) = false.
Proof.
  assert (Hb : match leader_exec (test_env false) id id id disable_schedule (mkSys (test_app (Some test_leader)) leader_pool) with
    | Ok (x, l) =>
        match cut_off SwEnabled l with
        | Some (l1, l2) =>
            never_on SwEnabled l2 && bool_decide (count_uses UEnabled RIGHT l2 = 1%nat)
            && bool_decide (count_uses UAny RIGHT l2 = 2%nat)
        | None => false
        end
    | _ => false
    end = true) by (vm_compute; reflexivity).
  destruct (leader_exec _ _ _ _ disable_schedule _) as [[x l]| |] eqn:H; [|discriminate Hb|discriminate Hb].
  destruct (cut_off SwEnabled l) as [[l1 l2]|] eqn:E; [|discriminate Hb]. apply cut_off_spec in E. subst l.
  apply andb_prop in Hb as [[Hn Hc%bool_decide_eq_true]%andb_prop Ha%bool_decide_eq_true].
  exists x, l1, l2. split; [reflexivity|]. split; [exact Hc|]. split; [exact Ha|].
  refine (proj1 (proj2 (leader_off_any_interleaving (test_env false) id id id disable_schedule
    (test_app (Some test_leader)) x UEnabled RIGHT l1 l2 H _))).
  intros _. by apply never_on_spec.
Defined.

(** ** What is not guaranteed *)

(** Force for a follower that has stopped. [step_side] fetches the latest packet and
    its age in two critical sections: when a packet arrives in between, the
    contents of the old packet are judged by the age of the new one. Here the old
    packet is stale and the new one comes from a follower in ESTOP; neither of them
    permits force, but their mixture does, for one cycle. *)
Definition stopped_feedback : FeedbackPacket :=
  mkFeedbackPacket 0 0 0 2 0 0 1 0 1 7 1 6 1 2 1000000 0
    (replicate 8 0) (replicate 8 0) (replicate 8 0) (replicate 4 0) (replicate 4 0) (replicate 4 0) 0.

Definition arrives (t : Z) (fb : FeedbackPacket) : list (Choice LEvent) :=
  Event (LtFeedback RIGHT 2000000 t (serialize (feedback_encode 0 fb))) :: lsteps 3 1.

Definition mixed_schedule (before between : bool) : list (Choice LEvent) :=
  arrives 5000000 (test_feedback 0 1)
  ++ (if before then arrives 99000000 stopped_feedback else [])
  ++ Event (LtCycle (test_input 100000000) 100000000) :: lsteps main_thread 4
  ++ (if between then arrives 99000000 stopped_feedback else []) ++ lsteps main_thread 4.

Definition wants (l : list LLabel) : list bool := omap (fun x => match x with GEngage RIGHT w => Some w | _ => None end) l.

Definition requesting_app : LeaderApp := with_flags (set_bilateral_requested true) (test_app (Some test_leader)).

Lemma mixed_packets_engage :
  map (fun c => match leader_exec (test_env false) id id id (mixed_schedule c.1 c.2) (mkSys requesting_app leader_pool) with
                | Ok (_, l) => Some (wants l)
                | _ => None
                end) [(false, false); (true, false); (false, true)] =
  [Some [false]; Some [false]; Some [true]].
Proof. vm_compute. reflexivity. Qed.
