(* ===== verification/LeaderDefined.v ===== *)
(** * No undefined behaviour in the leader's threads

    With arms of seven motors and a gripper, dynamics and friction parameters that
    fit them, and feedback packets whose degrees of freedom fit their arrays, every
    access of every thread of [LeaderThreads] is defined, whatever the schedule. The
    statistics need buffers of at most [2^52] samples, so the schedules are shorter
    than that. *)

From S2P Require Import Prelude Float64 Crc32 Wire Packets PacketCodec FeedbackStateBuffer LinkCheck.
From S2P Require Import BilateralGate BilateralEngager RuntimeControl Udp Dynamics RobotState Control ControlFacts.
From S2P Require Import NumParse AppCommon LeaderApp LeaderFacts Threads LeaderThreads LeaderInterleavings.
From stdpp Require Import gmap.

Open Scope Z_scope.

(** ** What the program relies on *)

Definition ready_control (c : Control) : Prop := dynamics_fit c 7 /\ friction_params c 8.

(** A datagram that does not claim more joints than a packet has. *)
Definition feedback_fits (data : list Z) : Prop := forall fb, receive_feedback data = Some fb -> dof_ok fb.

Definition samples (side : ArmSide) (a : LeaderApp) : nat := length (fsb_samples (ls_buffer (arm_side side a))).

(** A buffer that no memory holds. *)
Definition overfull (a : LeaderApp) : Prop := exists side, 2 ^ 52 < Z.of_nat (samples side a).

Section defined.
Context (env : LeaderEnv) (tanh sin cos : double -> double).
(** Whether the controllers were created. *)
Context (arms : bool).

Record sound (a : LeaderApp) : Prop := {
  so_arms side : bool_decide (is_Some (ls_control (arm_side side a))) = arms;
  so_control side c : ls_control (arm_side side a) = Some c -> ready_control c;
  so_packet side fb : fsb_get_latest (ls_buffer (arm_side side a)) = Some fb -> shaped fb /\ dof_ok fb;
}.

(** In real mode the program creates the controllers before the loop. *)
Context (real : le_mock env = false -> arms = true).
Context (recheck : ticks (bi_link_recheck_s (le_bi env))) (period : ticks (d1 / le_telemetry_rate_hz env)%D).

Abbreviation def := (defined (L := LLabel) overfull sound).
Abbreviation any := (fun _ => True).

Create HintDb ldefined discriminated.

(** ** Single accesses *)

(** States that differ elsewhere. *)
Lemma l_sound_same a b :
  (forall side, ls_control (arm_side side b) = ls_control (arm_side side a) /\
                ls_buffer (arm_side side b) = ls_buffer (arm_side side a)) -> sound a -> sound b.
Proof using Type.
  intros Hs [H1 H2 H3]. split; intros side; destruct (Hs side) as [E1 E2]; rewrite ?E1, ?E2; [apply H1|apply H2|apply H3].
Qed.

Lemma l_sound_get side a : sound a -> arms = true -> exists c, ls_control (arm_side side a) = Some c /\ ready_control c.
Proof using Type.
  intros [H1 H2 _] Ha. specialize (H1 side). rewrite Ha in H1. apply bool_decide_eq_true in H1 as [c Hc].
  exists c. split; [done|by eapply H2].
Qed.

Lemma l_def_keep {A} (f : LeaderApp -> LeaderApp) (l : LeaderApp -> list LLabel) (r : LeaderApp -> A) :
  (forall a side, ls_control (arm_side side (f a)) = ls_control (arm_side side a) /\
                  ls_buffer (arm_side side (f a)) = ls_buffer (arm_side side a)) ->
  def any (Act (fun a => Ok (f a, l a, r a)) Done).
Proof using Type. intros Hs a Ha. split; [|done]. eapply l_sound_same; [apply Hs|done]. Qed.

Lemma l_def_store f :
  (forall a side, ls_control (arm_side side (f a)) = ls_control (arm_side side a) /\
                  ls_buffer (arm_side side (f a)) = ls_buffer (arm_side side a)) -> def any (store f).
Proof using Type. apply (l_def_keep f (fun _ => []) (fun _ => tt)). Qed.

Lemma l_def_any_load {A} (f : LeaderApp -> A) : def any (load f).
Proof using Type. by apply defined_load. Qed.

Lemma l_def_output l : def any (output l).
Proof using Type. apply defined_output. Qed.

Lemma def_read_switch sw : def any (read_switch sw).
Proof using Type. apply l_def_any_load. Qed.

Lemma def_write_switch sw b : def any (write_switch sw b).
Proof using Type. by apply (l_def_keep _ (fun _ => _) (fun _ => _)). Qed.

(** The arms, with a new controller. *)
Lemma sound_upd side c a f :
  arms = true -> ready_control c ->
  (forall s, ls_control (f s) = Some c /\ ls_buffer (f s) = ls_buffer s) -> sound a -> sound (upd_arm side f a).
Proof using Type.
  intros Ha Hc Hf [H1 H2 H3]. split; intros s.
  - specialize (H1 s). destruct side, s; cbn in *; try done; rewrite (proj1 (Hf _)); by rewrite Ha.
  - intros d. specialize (H2 s d). destruct side, s; cbn in *; try done; rewrite (proj1 (Hf _)); by intros [= <-].
  - intros fb. specialize (H3 s fb). destruct side, s; cbn in *; try done; by rewrite (proj2 (Hf _)).
Qed.

Lemma def_latest side : def (fun t => forall fb, t = Some fb -> shaped fb /\ dof_ok fb) (latest_feedback side).
Proof using Type. apply defined_load. intros a Ha fb. by apply (so_packet a Ha). Qed.

Lemma def_any_latest side : def any (latest_feedback side).
Proof using Type. apply l_def_any_load. Qed.

Lemma def_statistics side now : def any (statistics side now).
Proof using Type.
  intros a Ha. destruct (fsb_snapshot now (ls_buffer (arm_side side a))) as [st|] eqn:E; [done|]. cbn [of_option mbind outcome_bind].
  exists side. destruct (Z.le_gt_cases (Z.of_nat (samples side a)) (2 ^ 52)) as [Hle|]; [|lia].
  destruct (fsb_snapshot_some now _ Hle) as [s Hs]. congruence.
Qed.

Hint Resolve l_def_any_load l_def_output def_read_switch def_write_switch def_any_latest def_statistics : ldefined.
Hint Extern 2 (defined _ _ _ (store _)) => apply l_def_store; by intros ? [] : ldefined.

(** Programs whose results are not used further. *)
Ltac def_split :=
  repeat match goal with
    | |- defined _ _ _ (_ ≫= _) => eapply (defined_bind _ _ any); [solve [auto with ldefined]|intros ? _]
    | |- defined _ _ _ (mret _) => exact I
    | |- defined _ _ _ (if ?b then _ else _) => destruct b eqn:?
    | |- defined _ _ _ (let '_ := ?x in _) => destruct x
    end; auto with ldefined.

(** ** Link and gate *)

Lemma def_refresh os : def any (refresh_prog env os).
Proof using Type. apply l_def_store. by intros ? []. Qed.

Lemma def_gate now_r now_l : def any (gate_prog env now_r now_l).
Proof using Type. unfold gate_prog. def_split. Qed.

Hint Resolve def_refresh def_gate : ldefined.

(** ** The main loop *)

Lemma l_def_exchange {A} f (b : LeaderApp -> A) : def any (store f) -> def any (Act (fun a => Ok (f a, [], b a)) Done).
Proof using Type. intros Hf a Ha. exact (Hf a Ha). Qed.

Lemma def_real : def (fun b => b = true -> arms = true) (load (real_arms env)).
Proof using Type.
  apply defined_load. intros a Ha Hr. unfold real_arms in Hr. apply andb_prop in Hr as [_ Hl]. by rewrite <- (so_arms a Ha LEFT).
Qed.

Lemma ready_moved rs c : ready_control c -> ready_control (with_robot_state rs c).
Proof using Type. done. Qed.

Lemma def_moving tr gr tl gl rr rl :
  arms = true -> full_motors (rr 0%nat) -> full_motors (rl 0%nat) -> def any (moving tr gr tl gl rr rl).
Proof using Type.
  intros Ha Hr Hl. apply defined_act. intros a Hs. destruct (l_sound_get RIGHT a Hs Ha) as (cr & Er & Cr).
  destruct (l_sound_get LEFT a Hs Ha) as (cl & El & Cl). unfold move_both. cbn [arm_side] in *. rewrite Er, El. cbn [deref mbind outcome_bind].
  destruct (MoveToPose_defined tr gr rr cr Hr) as (sr & rs & ->). cbn [mbind outcome_bind].
  destruct (MoveToPose_defined tl gl rl cl Hl) as (sl & ls & ->). cbn [mbind outcome_bind].
  do 3 eexists. split; [reflexivity|]. split; [|done].
  apply (sound_upd LEFT (with_robot_state ls cl) (upd_arm RIGHT (with_control (with_robot_state rs cr)) a) (with_control _)); [done..|].
  by apply (sound_upd RIGHT (with_robot_state rs cr) a (with_control _)).
Qed.

Lemma def_init_move i :
  full_motors (in_init_r i 0%nat) -> full_motors (in_init_l i 0%nat) -> def any (init_move_prog env i).
Proof using Type.
  intros Hr Hl. unfold init_move_prog. eapply (defined_bind _ _ any); [apply l_def_exchange; auto with ldefined|intros b _].
  destruct b; [|done]. eapply (defined_bind _ _ any); [auto with ldefined|intros _ _].
  eapply defined_bind; [apply def_real|intros r Ha]. eapply (defined_bind _ _ any); [|intros t _; def_split].
  destruct r; [|done]. apply def_moving; auto.
Qed.

Lemma def_goto_move i :
  full_motors (in_goto_r i 0%nat) -> full_motors (in_goto_l i 0%nat) -> def any (goto_move_prog env i).
Proof using Type.
  intros Hr Hl. unfold goto_move_prog. eapply (defined_bind _ _ any); [apply l_def_exchange; auto with ldefined|intros b _].
  destruct b; [|done]. eapply (defined_bind _ _ any); [auto with ldefined|intros _ _].
  eapply (defined_bind _ _ any); [auto with ldefined|intros t _].
  eapply defined_bind; [apply def_real|intros r Ha]. eapply (defined_bind _ _ any); [|intros m _; def_split].
  destruct r; [|done]. destruct (split_pose t); [|done]. apply def_moving; auto.
Qed.

(** *** One arm *)

Lemma def_engage side want aligned bcmd m : arms = true -> full_motors m -> def any (engage_prog env tanh side want aligned bcmd m).
Proof using Type.
  intros Ha [Hm Hg]. unfold engage_prog. cbv zeta. eapply (defined_bind _ _ any); [|intros _ _].
  - apply (l_def_keep (fun a => _) (fun a => _) (fun a => _)). intros a []; by destruct side.
  - apply defined_act. intros a Hs. destruct (l_sound_get side a Hs Ha) as (c & Ec & [Cd Cf]). rewrite Ec. cbn [deref mbind outcome_bind].
    match goal with |- context [leader_step tanh ?b m c] => destruct (leader_step tanh b m c) as [c' r] eqn:El;
      destruct (leader_step_outcome tanh c b m) as [_ Hok] end; [by rewrite Hm|].
    destruct Hok as [cmds Hok]; [by rewrite Hm, Hg|]. rewrite El in Hok. cbn [snd] in Hok. subst r. cbn [mbind outcome_bind].
    do 3 eexists. split; [reflexivity|]. split; [|done]. apply (sound_upd side c'); [done| |done|done].
    apply (f_equal fst) in El. cbn [fst] in El. by subst c'.
Qed.

Lemma def_arm side now m : arms = true -> full_motors m -> def any (arm_prog env tanh side now m).
Proof using Type.
  intros Ha Hm. unfold arm_prog. eapply defined_bind; [apply def_latest|intros latest Hl].
  eapply (defined_bind _ _ any); [auto with ldefined|intros st _].
  eapply (defined_bind _ _ any); [destruct (bi_render_enabled _); [auto with ldefined|done]|intros requested _].
  eapply (defined_bind _ _ any); [|intros [al bcmd] _; by apply def_engage].
  apply defined_query. intros a Hs. destruct latest as [fb|]; [|by eexists]. destruct (fresh_feedback env st); [|by eexists].
  destruct (l_sound_get side a Hs Ha) as (c & -> & _). cbn [deref mbind outcome_bind]. destruct (Hl fb eq_refl) as [H1 H2].
  destruct (side_reference_ok env c fb (bc_scale (ls_bcmd (arm_side side a))) H1 H2) as (b & cmd & ->). by eexists.
Qed.

Lemma l_def_arms i : full_motors (in_motors_r i) -> full_motors (in_motors_l i) -> def any (both_arms_prog env tanh sin cos i).
Proof using real.
  intros Hr Hl. unfold both_arms_prog. destruct (le_mock env) eqn:Em; [done|]. pose proof (real eq_refl) as Ha.
  eapply (defined_bind _ _ any); [by apply def_arm|intros cr _]. eapply (defined_bind _ _ any); [by apply def_arm|intros cl _].
  eapply (defined_bind _ _ any); [|by intros [] _]. apply defined_query. intros a Hs.
  destruct (l_sound_get RIGHT a Hs Ha) as (c & Ec & _). destruct (l_sound_get LEFT a Hs Ha) as (d & Ed & _).
  unfold side_joints. cbn [arm_side] in *. rewrite Ec, Ed. by eexists.
Qed.

Lemma def_supervise i gate_l : def any (supervise_prog env i gate_l).
Proof using recheck.
  unfold supervise_prog. def_split.
  - eapply (defined_bind _ _ any); [|intros _ _; def_split].
    + def_split. eapply (defined_bind _ _ any); [|intros dt _; def_split]. apply defined_compute. destruct recheck as [dt ->]. by exists dt.
    + eapply (defined_bind _ _ any); [def_split|intros _ _; def_split].
Qed.

Lemma l_def_send i jr jl : def any (send_prog i jr jl).
Proof using Type.
  unfold send_prog. cbv zeta. def_split. eapply (defined_bind _ _ any); [by apply (l_def_keep _ (fun _ => _) (fun _ => _))|intros seq _].
  def_split.
Qed.

Lemma def_publish i pr pl : def any (publish_prog env i pr pl).
Proof using period.
  unfold publish_prog. def_split. apply defined_act. intros x Hx. unfold publish_leader. destruct (publish _ _) as [d pub].
  destruct period as [dt ->]. do 3 eexists. split; [reflexivity|]. split; [|done]. apply (l_sound_same x); [by intros []|done].
Qed.

Definition good_input (i : LeaderInput) : Prop :=
  full_motors (in_init_r i 0%nat) /\ full_motors (in_init_l i 0%nat) /\
  full_motors (in_goto_r i 0%nat) /\ full_motors (in_goto_l i 0%nat) /\
  full_motors (in_motors_r i) /\ full_motors (in_motors_l i).

Lemma def_loop i gate_l : good_input i -> def any (loop_prog env tanh sin cos i gate_l).
Proof using real recheck period.
  intros (I1 & I2 & G1 & G2 & M1 & M2). unfold loop_prog, leader_prog. def_split.
  eapply (defined_bind _ _ any); [|done]. eapply (defined_bind _ _ any); [by apply def_init_move|intros ti _].
  eapply (defined_bind _ _ any); [by apply def_goto_move|intros tg _].
  eapply (defined_bind _ _ any); [by apply l_def_arms|intros [[cmds jr] jl] _].
  eapply (defined_bind _ _ any); [apply def_supervise|intros _ _]. eapply (defined_bind _ _ any); [apply l_def_send|intros [pr pl] _].
  by eapply (defined_bind _ _ any); [apply def_publish|].
Qed.

(** ** The other threads *)

Lemma def_receive side sys_now now data : feedback_fits data -> def any (receive_prog side sys_now now data).
Proof using Type.
  intros Hf. apply defined_store. intros a [H1 H2 H3].
  assert (Hb : forall b fb, fsb_get_latest (feedback_callback sys_now now data b) = Some fb ->
    shaped fb /\ dof_ok fb \/ fsb_get_latest b = Some fb).
  { intros b fb. unfold feedback_callback. destruct (receive_feedback data) as [q|] eqn:E; [|by right].
    intros [->|H]%fsb_update_latest; [left|by right]. split; [|by apply Hf].
    apply receive_feedback_iff in E as (_ & -> & _). apply deserialize_shaped. }
  split; intros s.
  - specialize (H1 s). by destruct side, s.
  - intros c. specialize (H2 s c). by destruct side, s.
  - intros fb. specialize (H3 s fb). destruct side, s; try done; intros H; destruct (Hb _ _ H); auto.
Qed.

Lemma def_bilateral_text clk : def any (bilateral_text_prog env clk).
Proof using Type. unfold bilateral_text_prog. def_split. Qed.

Lemma def_summary clk : def any (summary_prog env clk).
Proof using Type. unfold summary_prog. def_split. Qed.

Hint Resolve def_bilateral_text def_summary : ldefined.

Lemma def_answer os clk line : def any (answer_prog env os clk line).
Proof using Type.
  unfold answer_prog. destruct (match split_first (trim line) with (w, Some rest) => _ | _ => _ end) as [w args].
  eapply (defined_bind _ _ any); [|intros r _; auto with ldefined].
  destruct (leader_handler_progs env os clk !! w) as [h|] eqn:E; [|done]. revert E. unfold leader_handler_progs.
  repeat (rewrite lookup_insert_Some; intros [[<- <-]|[_ H]]; [|revert H]); [..|by rewrite lookup_empty].
  all: unfold leader_shutdown_prog, leader_estop_prog, request_goto_prog, request_init_prog, enable_prog, disable_prog,
    leader_status_prog, bilateral_status_prog, disable_bilateral_prog, enable_bilateral_prog.
  all: def_split.
Qed.

(** ** The pool *)

Definition sound_rely (k : nat) (x y : LConfig) : Prop := sound x.1 -> sound y.1.

Definition good_event (e : LEvent) : Prop :=
  match e with
  | LtCycle i _ => good_input i
  | LtFeedback _ _ _ data => feedback_fits data
  | _ => True
  end.

Abbreviation sound_pool := (pool_ok 5 overfull sound_rely sound_rely anything).

Lemma l_sound_begin e s tr ts s' ts' :
  good_event e -> sound s -> sound_pool (s, tr) ts -> leader_begin env tanh sin cos e s ts = Some (s', ts') ->
  sound s' /\ sound_pool (s', tr) ts'.
Proof using real recheck period.
  intros He Hs [Hlen Hp] Hb.
  assert (Hgive : forall k p, def any p -> give k p s ts = Some (s', ts') -> sound s' /\ sound_pool (s', tr) ts').
  { intros k p Hd [-> ->]%give_inv. split; [done|]. split; [by rewrite length_insert|]. intros j u Hj.
    apply list_lookup_insert_Some in Hj as [(<- & <- & _)|[_ Hj]]; [|by apply Hp]. cbn [thread_ok].
    eapply wp_mono; [|apply (wp_defined overfull (sound_rely k) (sound_rely k) sound any p (s, tr))]; [done|auto|
      by intros y z l _ Hz _|done|done]. }
  destruct e as [i gate_l|os clk line| |side sys_now now data]; cbn [leader_begin good_event] in *; eapply Hgive; try exact Hb.
  - by apply def_loop.
  - apply def_answer.
  - apply def_write_switch.
  - by apply def_receive.
Qed.

Definition good_choices (cs : list (Choice LEvent)) : Prop :=
  Forall (fun c => match c with Run _ _ => True | Event e => good_event e end) cs.

Lemma l_exec_sound cs a :
  sound a -> good_choices cs ->
  match leader_exec env tanh sin cos cs (mkSys a leader_pool) with
  | Ok (x, _) => sound (sy_state x)
  | _ => exists cs1 cs2 x l, cs = cs1 ++ cs2 /\
           leader_exec env tanh sin cos cs1 (mkSys a leader_pool) = Ok (x, l) /\ overfull (sy_state x)
  end.
Proof using real recheck period.
  intros Ha Hc.
  pose proof (sys_exec_ok (leader_begin env tanh sin cos) 5 overfull sound_rely sound_rely anything (fun y => sound y.1) good_event) as Hok.
  assert (H1 : forall (k : nat) x, sound_rely k x x) by (intros k x H; exact H).
  assert (H2 : forall (k : nat) x y z, sound_rely k x y -> sound_rely k y z -> sound_rely k x z).
  { intros k x y z Hxy Hyz H. by apply Hyz, Hxy. }
  specialize (Hok H1 H2 (fun _ _ _ _ _ H => H) (fun _ _ _ H => H) l_sound_begin cs (mkSys a leader_pool) [] Hc Ha).
  assert (Hpool : sound_pool (a, []) leader_pool).
  { split; [done|]. intros k t Ht. by apply lookup_replicate in Ht as [-> _]. }
  specialize (Hok Hpool). unfold leader_exec. by destruct (sys_exec _ cs _) as [[x l]| |]; [apply Hok|..].
Qed.
End defined.

(** ** A packet adds at most one sample *)

Section samples.
Context (env : LeaderEnv) (tanh sin cos : double -> double) (side : ArmSide).

Abbreviation grow := (by_one (L := LLabel) (samples side)).

Lemma grow_same a b (l : list LLabel) : ls_buffer (arm_side side b) = ls_buffer (arm_side side a) -> grow a b l.
Proof. unfold by_one, samples. intros ->. lia. Qed.

Lemma grow_act {A} (f : LeaderApp -> outcome (LeaderApp * list LLabel * A)) :
  (forall a a' l x, f a = Ok (a', l, x) -> ls_buffer (arm_side side a') = ls_buffer (arm_side side a)) -> acts grow (Act f Done).
Proof. intros Hf. apply acts_one. intros s s' l a H. by eapply grow_same, Hf. Qed.

Lemma grow_read a : grow a a [].
Proof. by apply grow_same. Qed.

Lemma grow_store f : (forall a, ls_buffer (arm_side side (f a)) = ls_buffer (arm_side side a)) -> acts grow (store f).
Proof. intros Hf. apply acts_store. intros a. by apply grow_same. Qed.

Lemma grow_output l : acts grow (output l).
Proof. apply acts_output. intros a. by apply grow_same. Qed.

Lemma grow_write sw b : acts grow (write_switch sw b).
Proof. apply grow_act. by intros a a' l x [= <- _ _]. Qed.

Lemma grow_moving tr gr tl gl rr rl : acts grow (moving tr gr tl gl rr rl).
Proof.
  apply grow_act. intros a a' l x ([b t] & Hm & [= <- _ _])%bind_ok. apply move_both_core in Hm as [Hm _].
  unfold core in Hm. injection Hm as _ _ _ _ _ _ _ _ _ _ H1 _ _ H2. by destruct side.
Qed.

#[local] Hint Resolve grow_read grow_output grow_write grow_moving : acts.
#[local] Hint Extern 2 (acts _ (store _)) => apply grow_store; by destruct side : acts.
#[local] Hint Extern 2 (acts _ (read_switch _)) => apply acts_load : acts.
#[local] Hint Extern 2 (acts _ (latest_feedback _)) => apply acts_load : acts.
#[local] Hint Extern 2 (acts _ (statistics _ _)) => apply acts_query : acts.

Lemma grow_gate now_r now_l : acts grow (gate_prog env now_r now_l).
Proof. unfold gate_prog. acts_split; auto with acts. Qed.

Lemma grow_refresh os : acts grow (refresh_prog env os).
Proof. unfold refresh_prog. auto with acts. Qed.

Hint Resolve grow_gate grow_refresh : acts.

Lemma grow_engage sd want aligned bcmd m : acts grow (engage_prog env tanh sd want aligned bcmd m).
Proof.
  unfold engage_prog. acts_split; apply grow_act.
  - intros a0 a' l x [= <- _ _]. by destruct sd, side.
  - intros a0 a' l x (c & _ & H)%bind_ok. destruct (leader_step tanh _ m c) as [c' r].
    apply bind_ok in H as (cmds & _ & [= <- _ _]). by destruct sd, side.
Qed.

Lemma grow_publish i pr pl : acts grow (publish_prog env i pr pl).
Proof.
  unfold publish_prog. acts_split; auto with acts. apply grow_act. intros a0 a' l x ([b d] & Hp & [= <- _ _])%bind_ok.
  unfold publish_leader in Hp. destruct (publish _ _). apply bind_ok in Hp as (dt & _ & [= <- _]). by destruct side.
Qed.

Hint Resolve grow_engage grow_publish : acts.

Lemma grow_loop i gate_l : acts grow (loop_prog env tanh sin cos i gate_l).
Proof.
  unfold loop_prog, leader_prog, init_move_prog, goto_move_prog, both_arms_prog, arm_prog, supervise_prog, send_prog. cbv zeta.
  acts_split; auto with acts; apply grow_act; intros ? ? ? ? [= <- _ _]; by destruct side.
Qed.

Lemma grow_receive sd sys_now now data : acts grow (receive_prog sd sys_now now data).
Proof.
  apply acts_store. intros a. unfold by_one, samples.
  assert (H : forall b, (length (fsb_samples (feedback_callback sys_now now data b)) <= 1 + length (fsb_samples b))%nat).
  { intros b. unfold feedback_callback. destruct (receive_feedback data); [apply fsb_update_samples|lia]. }
  destruct sd, side; cbn; try apply H; lia.
Qed.

Lemma grow_answer os clk line : acts grow (answer_prog env os clk line).
Proof.
  unfold answer_prog. destruct (match split_first (trim line) with (w, Some rest) => _ | _ => _ end) as [w args].
  apply acts_bind; [|intros r; apply grow_output].
  destruct (leader_handler_progs env os clk !! w) as [h|] eqn:E; [|done]. revert E. unfold leader_handler_progs.
  repeat (rewrite lookup_insert_Some; intros [[<- <-]|[_ H]]; [|revert H]); [..|by rewrite lookup_empty].
  all: unfold leader_shutdown_prog, leader_estop_prog, request_goto_prog, request_init_prog, enable_prog, disable_prog,
    leader_status_prog, bilateral_status_prog, disable_bilateral_prog, enable_bilateral_prog, summary_prog, bilateral_text_prog.
  all: acts_split; auto with acts.
Qed.

Lemma exec_samples cs a x l :
  leader_exec env tanh sin cos cs (mkSys a leader_pool) = Ok (x, l) ->
  (samples side (sy_state x) <= samples side a + length cs)%nat.
Proof.
  apply exec_by_one.
  - intros e s ts s' ts' Hts Hb.
    assert (Hgive : forall k p, acts grow p -> give k p s ts = Some (s', ts') ->
      (samples side s' <= 1 + samples side s)%nat /\ Forall (thread_acts (samples side)) ts').
    { intros k p Hp [-> ->]%give_inv. split; [lia|]. by apply Forall_insert. }
    destruct e as [i gate_l|os clk line| |sd sys_now now data]; cbn [leader_begin] in Hb; eapply Hgive; try exact Hb.
    + apply grow_loop.
    + apply grow_answer.
    + apply grow_write.
    + apply grow_receive.
  - by repeat constructor.
Qed.
End samples.

(** ** Properties *)

(** C30: No undefined behaviour under any interleaving of the leader's threads, as
    long as the feedback packets do not claim more joints than a packet holds and
    there are not more than [2^52] of them. For arms of seven motors and a gripper
    whose dynamics and friction parameters fit, in real or mock mode, with periods
    that fit a clock count: whatever the schedule of the main loop, the control
    server, the signal handler and the receivers, no thread reads out of range,
    uses a null pointer or throws, and the state keeps this well-formedness. The
    receiver does not check the degrees of freedom: a feedback packet with more
    than eight arm joints is accepted from the network, and the cycle that takes
    its reference from it reads past its arrays. *)
Theorem leader_threads_defined (env : LeaderEnv) (tanh sin cos : double -> double) :
  (forall (arms : bool) (cs : list (Choice LEvent)) (a : LeaderApp),
    (le_mock env = false -> arms = true) ->
    ticks (bi_link_recheck_s (le_bi env)) -> ticks (d1 / le_telemetry_rate_hz env)%D ->
    sound arms a -> good_choices cs ->
    (forall side, Z.of_nat (samples side a) + Z.of_nat (length cs) <= 2 ^ 52) ->
    exists x l, leader_exec env tanh sin cos cs (mkSys a leader_pool) = Ok (x, l) /\ sound arms (sy_state x)) /\
  (forall fb now requested now_ns m s c st, well_formed fb -> in_width 64 now -> 8 < fp_arm_dof fb ->
    let fb' := feedback_encode now fb in
    receive_feedback (serialize fb') = Some fb' /\
    (ls_control s = Some c -> fsb_snapshot now_ns (ls_buffer s) = Some st -> fsb_get_latest (ls_buffer s) = Some fb' ->
     fresh_feedback env st = true -> step_side env tanh requested now_ns m s = Undef)).
Proof.
  split.
  - intros arms cs a H1 H2 H3 Ha Hc Hn. pose proof (l_exec_sound env tanh sin cos arms H1 H2 H3 cs a Ha Hc) as H.
    assert (Hno : ~ exists cs1 cs2 x l, cs = cs1 ++ cs2 /\
      leader_exec env tanh sin cos cs1 (mkSys a leader_pool) = Ok (x, l) /\ overfull (sy_state x)).
    { intros (cs1 & cs2 & x & l & -> & He & side & Ho). apply (exec_samples _ _ _ _ side) in He.
      specialize (Hn side). rewrite length_app in Hn. lia. }
    destruct (leader_exec _ _ _ _ cs _) as [[x l]| |]; [by exists x, l|done|done].
  - intros fb now requested now_ns m s c st Hw Hn Hd fb'. split; [by apply receive_feedback_encode|].
    intros Hc Hst Hfb Hf. unfold step_side. rewrite Hc, Hst, Hfb. cbn [deref of_option mbind outcome_bind]. cbv zeta.
    rewrite Hf, side_reference_undef; [done|apply Hw|done].
Qed.

Lemma test_leader_ready : ready_control test_leader.
Proof. split; [exists unit_dynamics; split; [reflexivity|simpl; lia]|unfold friction_params; simpl; lia]. Qed.

Lemma test_app_sound : sound true (test_app (Some test_leader)).
Proof. split; [by intros []| |by intros []]. intros [] c [= <-]; apply test_leader_ready. Qed.

(** Packets, commands and an iteration that is interrupted by one. *)
Definition busy_schedule : list (Choice LEvent) :=
  arrives 5000000 (test_feedback 0 1) ++ disable_schedule.

Lemma leader_threads_defined_witness :
  sound true (test_app (Some test_leader)) /\
  exists x l, leader_exec (test_env false) id id id busy_schedule (mkSys (test_app (Some test_leader)) leader_pool) = Ok (x, l) /\
    sound true (sy_state x).
Proof.
  split; [exact test_app_sound|].
  apply (proj1 (leader_threads_defined (test_env false) id id id) true busy_schedule (test_app (Some test_leader))).
  - reflexivity.
  - eexists. vm_compute. reflexivity.
  - eexists. vm_compute. reflexivity.
  - exact test_app_sound.
  - unfold good_choices, busy_schedule, arrives, disable_schedule, lcommand, lcycle, lsteps.
    repeat (first [simple apply Forall_replicate; exact I|simple apply Forall_app_2|simple apply Forall_cons_2|exact I]);
      try exact I; cbn [good_event]; try (repeat split; reflexivity).
    intros fb H. assert (Hd : match receive_feedback (serialize (feedback_encode 0 (test_feedback 0 1))) with
      | Some fb => bool_decide (dof_ok fb) | None => true end = true) by (vm_compute; reflexivity).
    rewrite H in Hd. exact (proj1 (bool_decide_eq_true _) Hd).
  - intros []; vm_compute; discriminate.
Defined.
