(* ===== verification/LeaderAlone.v ===== *)
(** * The leader's threads without interruption

    Each program of [LeaderThreads], executed without interruption, does what
    [LeaderApp] takes as one step; so every execution of [LeaderApp] is an execution
    of the threads. *)

From S2P Require Import Prelude Float64 Crc32 Wire Packets PacketCodec FeedbackStateBuffer LinkCheck.
From S2P Require Import BilateralGate BilateralEngager RuntimeControl Udp Dynamics RobotState Control ControlFacts.
From S2P Require Import NumParse AppCommon LeaderApp LeaderFacts Threads LeaderThreads.
From stdpp Require Import gmap.

Open Scope Z_scope.

(** ** Observing a run *)

(** The outputs, and those of the main loop. *)
Definition lvisible (l : LLabel) : bool := match l with GSet _ _ | GEngage _ _ => false | _ => true end.
Definition lloop_output (l : LLabel) : bool :=
  match l with GMoved _ | GRender _ _ | GSend _ _ | GTelemetry _ => true | _ => false end.

Abbreviation loop_outputs := (filter (fun l => lloop_output l = true)).
Abbreviation alone := (solo lvisible).

Definition moved (t : option MoveTrace) : list LLabel := match t with Some t => [GMoved t] | None => [] end.
Definition rendered (c : option (Commands * Commands)) : list LLabel :=
  match c with Some (r, l) => [GRender RIGHT r; GRender LEFT l] | None => [] end.
Definition told (d : option (list Z)) : list LLabel := match d with Some d => [GTelemetry d] | None => [] end.

(** What an iteration sends. *)
Definition emitted (o : LeaderOutput) : list LLabel :=
  moved (out_init o) ++ moved (out_goto o) ++ rendered (out_arms o)
  ++ [GSend RIGHT (out_pkt_r o); GSend LEFT (out_pkt_l o)] ++ told (out_telemetry o).

Lemma l_emitted_loop_outputs o : loop_outputs (emitted o) = emitted o.
Proof.
  unfold emitted. rewrite !filter_app. f_equal; [by destruct (out_init o)|]. f_equal; [by destruct (out_goto o)|].
  f_equal; [by destruct (out_arms o) as [[]|]|]. f_equal. by destruct (out_telemetry o).
Qed.

Create Rewrite HintDb lalone.
#[export] Hint Rewrite @alone_load @alone_store @alone_compute @alone_query @alone_ret : lalone.

Lemma alone_switch {B} sw a (k : bool -> LProg B) : alone (read_switch sw ≫= k) a = alone (k (switch_on sw a)) a.
Proof. exact (alone_load lvisible _ k a). Qed.

Lemma alone_write_switch {B} sw b a (k : unit -> LProg B) :
  alone (write_switch sw b ≫= k) a = alone (k tt) (with_flags (set_switch sw b) a).
Proof.
  rewrite alone_bind. unfold write_switch. rewrite alone_act. cbn [observed mbind outcome_bind].
  by destruct (alone (k tt) _) as [[[? ?] ?]| |].
Qed.

Lemma alone_latest {B} side a (k : option FeedbackPacket -> LProg B) :
  alone (latest_feedback side ≫= k) a = alone (k (fsb_get_latest (ls_buffer (arm_side side a)))) a.
Proof. exact (alone_load lvisible _ k a). Qed.

Lemma alone_statistics {B} side now a (k : Stats -> LProg B) :
  alone (statistics side now ≫= k) a =
    st ← of_option (fsb_snapshot now (ls_buffer (arm_side side a))); alone (k st) a.
Proof. exact (alone_query lvisible _ k a). Qed.

#[export] Hint Rewrite @alone_switch @alone_write_switch @alone_latest @alone_statistics : lalone.

Ltac lalone := autorewrite with lalone; cbn [mbind outcome_bind]; fold_bind.

Section alone.
Context (env : LeaderEnv) (tanh sin cos : double -> double).

(** ** Link and gate *)

Lemma gate_alone now a : alone (gate_prog env now now) a = g ← evaluate_gate env now a; Ok (a, [], g).
Proof.
  unfold gate_prog, evaluate_gate. destruct (negb _); [done|]. lalone. cbn [arm_side].
  destruct (of_option (fsb_snapshot now (ls_buffer (la_right a)))) as [sr| |]; cbn [mbind outcome_bind]; [|done|done]. lalone.
  cbn [arm_side]. destruct (of_option (fsb_snapshot now (ls_buffer (la_left a)))) as [sl| |]; cbn [mbind outcome_bind]; done.
Qed.

Lemma alone_gate {B} now a (k : BilateralGateResult -> LProg B) :
  alone (gate_prog env now now ≫= k) a = g ← evaluate_gate env now a; alone (k g) a.
Proof. apply alone_reads, gate_alone. Qed.

(** ** One iteration *)

Lemma l_init_alone i a :
  alone (init_move_prog env i) a = '(a', t) ← serve_init env i a; Ok (a', moved t, t).
Proof.
  unfold init_move_prog, serve_init. rewrite alone_bind, alone_act. cbn [observed mbind outcome_bind].
  destruct (lf_init_requested (la_flags a)) eqn:E.
  2: { rewrite alone_ret. cbn [mbind outcome_bind filter list_filter app]. f_equal. f_equal. f_equal.
       destruct a as [[] ? ? ? ? ? ? ? ? ?]. cbn in *. by subst. }
  rewrite alone_store, alone_load. cbv zeta.
  change (real_arms env (with_flags _ _)) with (real_arms env a).
  change (real_arms env (with_flags (set_init false true) a)) with (real_arms env a).
  change (with_flags (fun f => set_init (lf_init_requested f) true f)
            (with_flags (fun f => set_init false (lf_init_in_progress f) f) a)) with (with_flags (set_init false true) a).
  rewrite alone_bind. destruct (real_arms env a).
  - unfold moving. rewrite alone_act. destruct (move_both _ _ _ _ _ _ _) as [[b t]| |]; cbn [observed mbind outcome_bind]; [|done|done].
    by rewrite alone_store, alone_ret.
  - rewrite alone_ret. cbn [mbind outcome_bind]. by rewrite alone_store, alone_ret.
Qed.

Lemma l_goto_alone i a :
  alone (goto_move_prog env i) a = '(a', t) ← serve_goto env i a; Ok (a', moved t, t).
Proof.
  unfold goto_move_prog, serve_goto. rewrite alone_bind, alone_act. cbn [observed mbind outcome_bind].
  destruct (lf_goto_requested (la_flags a)) eqn:E.
  2: { rewrite alone_ret. cbn [mbind outcome_bind filter list_filter app]. f_equal. f_equal. f_equal.
       destruct a as [[] ? ? ? ? ? ? ? ? ?]. cbn in *. by subst. }
  rewrite alone_store, !alone_load. cbv zeta.
  set (b := with_flags (fun f => set_goto false true (lf_goto_target f) f) a).
  change (with_flags _ (with_flags (fun f => set_goto false (lf_goto_in_progress f) (lf_goto_target f) f) a)) with b.
  rewrite alone_bind. destruct (real_arms env b).
  - destruct (split_pose _) as [p|].
    + unfold moving. rewrite alone_act. destruct (move_both _ _ _ _ _ _ _) as [[c t]| |]; cbn [observed mbind outcome_bind]; [|done|done].
      by rewrite alone_store, alone_ret.
    + rewrite alone_ret. cbn [mbind outcome_bind]. by rewrite alone_store, alone_ret.
  - rewrite alone_ret. cbn [mbind outcome_bind]. by rewrite alone_store, alone_ret.
Qed.
(** Whether the request is read does not matter without rendering. *)
Lemma side_want_read st latest b :
  side_want env (if bi_render_enabled (le_bi env) then b else false) st latest = side_want env b st latest.
Proof. unfold side_want. destruct latest; [|done]. by destruct (bi_render_enabled (le_bi env)). Qed.

Lemma request_alone {B} a (k : bool -> LProg B) :
  alone ((if bi_render_enabled (le_bi env) then read_switch SwBilateral else mret false) ≫= k) a =
  alone (k (if bi_render_enabled (le_bi env) then lf_bilateral_requested (la_flags a) else false)) a.
Proof.
  destruct (bi_render_enabled (le_bi env)); [apply alone_switch|]. rewrite alone_bind, alone_ret. cbn [mbind outcome_bind].
  by destruct (alone (k false) a) as [[[? ?] ?]| |].
Qed.

Lemma upd_arm_twice side f g a : upd_arm side f (upd_arm side g a) = upd_arm side (fun s => f (g s)) a.
Proof. by destruct side. Qed.

Lemma arm_upd side f a : arm_side side (upd_arm side f a) = f (arm_side side a).
Proof. by destruct side. Qed.

Lemma upd_arm_ext side f g a : f (arm_side side a) = g (arm_side side a) -> upd_arm side f a = upd_arm side g a.
Proof. destruct side; cbn; by intros ->. Qed.

Lemma engage_alone side want aligned bcmd m a :
  let e := engager_update want aligned (d1 / le_rate_hz env)%D (ls_engager (arm_side side a)) in
  let b := with_scale (en_scale e) bcmd in
  alone (engage_prog env tanh side want aligned bcmd m) a =
    c ← deref (ls_control (arm_side side a));
    let '(c', r) := leader_step tanh (if engager_active e then Some b else None) m c in
    cmds ← r;
    Ok (upd_arm side (fun s => mkLeaderSide (Some c') (ls_buffer s) e b) a, [GRender side cmds], cmds).
Proof.
  cbv zeta. unfold engage_prog. rewrite alone_bind, alone_act. cbn [observed mbind outcome_bind].
  rewrite alone_act, arm_upd. cbv zeta. cbn [ls_control ls_engager ls_bcmd].
  destruct (ls_control (arm_side side a)) as [c|]; cbn [deref mbind outcome_bind]; [|done].
  destruct (leader_step tanh _ m c) as [c' r]. destruct r as [cmds| |]; cbn [observed mbind outcome_bind]; [|done|done].
  by rewrite upd_arm_twice.
Qed.

Lemma arm_alone side now m a :
  alone (arm_prog env tanh side now m) a =
    '(s, cmds) ← step_side env tanh (lf_bilateral_requested (la_flags a)) now m (arm_side side a);
    Ok (upd_arm side (fun _ => s) a, [GRender side cmds], cmds).
Proof.
  unfold arm_prog, step_side. cbv zeta. lalone. set (s := arm_side side a).
  destruct (fsb_snapshot now (ls_buffer s)) as [st|]; cbn [of_option mbind outcome_bind]; [|by destruct (ls_control s)].
  rewrite request_alone, side_want_read, alone_query. fold s. set (want := side_want _ _ _ _).
  set (latest := fsb_get_latest _). pose proof (engage_alone side want) as He. cbv zeta in He. fold s in He.
  destruct (ls_control s) as [c|] eqn:Ec; cbn [deref mbind outcome_bind].
  - destruct (match latest with Some fb => _ | None => _ end) as [[al bcmd]| |]; cbn [mbind outcome_bind]; [|done|done].
    rewrite (He al bcmd m a). fold s. rewrite Ec. cbn [deref mbind outcome_bind].
    destruct (leader_step tanh _ m c) as [c' r]. destruct r as [cmds| |]; cbn [mbind outcome_bind]; [|done|done].
    f_equal. f_equal. f_equal. by apply upd_arm_ext.
  - assert (Hu : forall al bcmd, alone (engage_prog env tanh side want al bcmd m) a = Undef).
    { intros al bcmd. rewrite (He al bcmd m a). fold s. by rewrite Ec. }
    destruct latest as [fb|]; [destruct (fresh_feedback env st)|]; cbn [mbind outcome_bind]; [done| |]; apply Hu.
Qed.

Lemma l_arms_alone i a :
  alone (both_arms_prog env tanh sin cos i) a =
    '(a', cmds, jr, jl) ← serve_arms env tanh sin cos i a; Ok (a', rendered cmds, (cmds, jr, jl)).
Proof.
  unfold both_arms_prog, serve_arms. destruct (le_mock env); [done|]. cbv zeta. rewrite alone_bind, arm_alone. cbn [arm_side].
  destruct (step_side env tanh _ _ _ (la_right a)) as [[r cr]| |]; cbn [mbind outcome_bind]; [|done|done].
  rewrite alone_bind, arm_alone. cbn [arm_side upd_arm].
  change (la_left (with_sides r (la_left a) a)) with (la_left a).
  change (la_flags (with_sides r (la_left a) a)) with (la_flags a).
  destruct (step_side env tanh _ _ _ (la_left a)) as [[l cl]| |]; cbn [mbind outcome_bind]; [|done|done].
  rewrite alone_query. change (la_right (with_sides _ l _)) with r. change (la_left (with_sides _ l _)) with l.
  destruct (side_joints r) as [pr| |]; cbn [mbind outcome_bind]; [|done|done].
  destruct (side_joints l) as [pl| |]; cbn [mbind outcome_bind]; [|done|done]. by rewrite alone_ret.
Qed.

(** The link part of the continuous gate. *)
Lemma link_alone {B} i a (k : unit -> LProg B) :
  alone ((if la_next_link_check a <=? in_tnow i then
            _ ← refresh_prog env (in_os i);
            dt ← compute (ns_of_seconds (bi_link_recheck_s (le_bi env)));
            store (fun a => with_checks (in_tnow i + dt) (la_next_gate_check a) a)
          else mret tt) ≫= k) a =
  a ← (if la_next_link_check a <=? in_tnow i then
         let a := refresh_link env (in_os i) a in
         dt ← ns_of_seconds (bi_link_recheck_s (le_bi env));
         Ok (with_checks (in_tnow i + dt) (la_next_gate_check a) a)
       else Ok a);
  alone (k tt) a.
Proof.
  rewrite alone_bind. destruct (la_next_link_check a <=? in_tnow i).
  - unfold refresh_prog. rewrite alone_store, alone_compute. cbv zeta.
    destruct (ns_of_seconds _) as [dt| |]; cbn [mbind outcome_bind]; [|done|done].
    unfold store. rewrite alone_act. cbn [observed mbind outcome_bind filter list_filter].
    by destruct (alone (k tt) _) as [[[? ?] ?]| |].
  - rewrite alone_ret. cbn [mbind outcome_bind]. by destruct (alone (k tt) _) as [[[? ?] ?]| |].
Qed.

Lemma supervise_alone i a :
  alone (supervise_prog env i (in_gate_now i)) a = a' ← continuous_gate env i a; Ok (a', [], tt).
Proof.
  unfold supervise_prog, continuous_gate. rewrite alone_switch. cbn [switch_on].
  destruct (lf_bilateral_requested (la_flags a)); [|done]. rewrite alone_load, link_alone.
  destruct (if la_next_link_check a <=? in_tnow i then _ else _) as [b| |]; cbn [mbind outcome_bind]; [|done|done].
  fold_bind. rewrite alone_load. destruct (la_next_gate_check b <=? in_tnow i); [|done]. rewrite alone_gate.
  destruct (evaluate_gate env (in_gate_now i) b) as [g| |]; cbn [mbind outcome_bind]; [|done|done]. cbv zeta.
  rewrite alone_bind. by destruct (negb (gr_ok g)).
Qed.

Lemma send_alone i jr jl a :
  let en := lf_command_enabled (la_flags a) in
  let pr := teleop_encode (in_sys_r i) (command_header RIGHT (la_seq a) (cmd_mode a) en jr) in
  let pl := teleop_encode (in_sys_l i) (command_header LEFT (la_seq a) (cmd_mode a) en jl) in
  alone (send_prog i jr jl) a = Ok (with_seq (u32 (la_seq a + 1)) a, [GSend RIGHT pr; GSend LEFT pl], (pr, pl)).
Proof.
  cbv zeta. unfold send_prog. cbv zeta. lalone. cbn [switch_on]. rewrite alone_bind, alone_act.
  cbn [observed mbind outcome_bind]. rewrite alone_output. cbn [filter list_filter]. rewrite alone_output, alone_ret. done.
Qed.

Lemma publish_alone i pr pl a :
  alone (publish_prog env i pr pl) a = '(a', d) ← serve_telemetry env i pr pl a; Ok (a', told d, d).
Proof.
  unfold publish_prog, serve_telemetry. rewrite alone_load. destruct (_ && _); [|done].
  rewrite alone_switch, alone_act. cbn [switch_on].
  destruct (publish_leader _ _ _ _) as [[a' d]| |]; cbn [observed mbind outcome_bind]; [|done|done]. by destruct d.
Qed.

Lemma l_cycle_alone i a :
  alone (leader_prog env tanh sin cos i (in_gate_now i)) a =
    '(a', o) ← leader_cycle env tanh sin cos i a; Ok (a', emitted o, o).
Proof.
  unfold leader_prog, leader_cycle. rewrite alone_bind, l_init_alone.
  destruct (serve_init env i a) as [[a1 ti]| |]; cbn [mbind outcome_bind]; [|done|done]. rewrite alone_bind, l_goto_alone.
  destruct (serve_goto env i a1) as [[a2 tg]| |]; cbn [mbind outcome_bind]; [|done|done]. rewrite alone_bind, l_arms_alone.
  destruct (serve_arms env tanh sin cos i a2) as [[[[a3 cmds] jr] jl]| |]; cbn [mbind outcome_bind]; [|done|done].
  rewrite alone_bind, supervise_alone.
  destruct (continuous_gate env i a3) as [a4| |]; cbn [mbind outcome_bind]; [|done|done]. cbv zeta.
  pose proof (send_alone i jr jl a4) as Hs. cbv zeta in Hs. rewrite alone_bind, Hs. clear Hs.
  set (pr := teleop_encode (in_sys_r i) _). set (pl := teleop_encode (in_sys_l i) _). cbn [mbind outcome_bind].
  rewrite alone_bind, publish_alone.
  destruct (serve_telemetry env i pr pl _) as [[a5 tel]| |]; cbn [mbind outcome_bind]; [|done|done].
  rewrite alone_ret. cbn [mbind outcome_bind]. unfold emitted.
  cbn [out_init out_goto out_arms out_pkt_r out_pkt_l out_telemetry]. by rewrite app_nil_r.
Qed.

(** ** Commands *)

Lemma bilateral_text_alone now a :
  alone (bilateral_text_prog env (fun _ => now)) a = j ← bilateral_status_json env now a; Ok (a, [], j).
Proof.
  unfold bilateral_text_prog, bilateral_status_json. lalone. rewrite alone_gate.
  destruct (evaluate_gate env now a) as [g| |]; cbn [mbind outcome_bind]; [|done|done]. fold_bind. lalone. cbn [arm_side].
  destruct (of_option (fsb_snapshot now (ls_buffer (la_right a)))) as [sr| |]; cbn [mbind outcome_bind]; [|done|done].
  fold_bind. lalone. cbn [arm_side].
  by destruct (of_option (fsb_snapshot now (ls_buffer (la_left a)))) as [sl| |].
Qed.

Lemma summary_alone now a :
  alone (summary_prog env (fun _ => now)) a = j ← bilateral_summary_json env now a; Ok (a, [], j).
Proof.
  unfold summary_prog, bilateral_summary_json. rewrite alone_gate.
  destruct (evaluate_gate env now a) as [g| |]; cbn [mbind outcome_bind]; [|done|done]. fold_bind. lalone. cbn [arm_side].
  destruct (of_option (fsb_snapshot now (ls_buffer (la_right a)))) as [sr| |]; cbn [mbind outcome_bind]; [|done|done].
  fold_bind. lalone. cbn [arm_side].
  by destruct (of_option (fsb_snapshot now (ls_buffer (la_left a)))) as [sl| |].
Qed.

Lemma enable_bilateral_alone os now args a :
  alone (enable_bilateral_prog env os (fun _ => now) args) a =
    '(a', r) ← h_bilateral_enable env os now args a; Ok (a', [], r).
Proof.
  unfold enable_bilateral_prog, h_bilateral_enable. rewrite alone_switch. cbn [switch_on].
  destruct (negb (lf_command_enabled (la_flags a))); [done|]. cbv zeta. unfold refresh_prog. rewrite alone_store, alone_gate.
  destruct (evaluate_gate env now (refresh_link env os a)) as [g| |]; cbn [mbind outcome_bind]; [|done|done].
  destruct (negb (gr_ok g)); [done|]. fold_bind. rewrite alone_write_switch. cbn [set_switch].
  rewrite (alone_reads lvisible _ (bilateral_status_json env now _)) by apply bilateral_text_alone.
  by destruct (bilateral_status_json env now _) as [j| |].
Qed.

(** The outcome of a handler of [LeaderApp]. *)
Definition settled (x : outcome LeaderApp * string) : outcome (LeaderApp * list LLabel * string) :=
  a ← x.1; Ok (a, [], x.2).

Lemma lift_settled h args a :
  settled (lift_handler h args (Ok a)) = '(a', r) ← h args a; Ok (a', [], r).
Proof. unfold settled, lift_handler. by destruct (h args a) as [[a' r]| |]. Qed.

Lemma l_handler_alone os now w args a :
  alone (match leader_handler_progs env os (fun _ => now) !! w with
         | Some h => h args
         | None => mret (json_error ("unknown command: " +:+ w))
         end) a =
  settled (match leader_handlers env os now !! w with
           | Some h => h args (Ok a)
           | None => (Ok a, json_error ("unknown command: " +:+ w))
           end).
Proof.
  unfold leader_handler_progs, leader_handlers, register_handler.
  repeat (match goal with |- context [<[?k := _]> _ !! w] =>
            destruct (decide (k = w)) as [<-|]; [rewrite !lookup_insert_eq, lift_settled|rewrite !(lookup_insert_ne _ k w) by done]
          end).
  - done.
  - done.
  - unfold request_goto_prog, h_goto_pose. by destruct (parse_pose16 args) as [[] vals].
  - done.
  - done.
  - done.
  - unfold leader_status_prog, h_status. lalone. cbv zeta.
    rewrite (alone_reads lvisible _ (bilateral_summary_json env now a)) by apply summary_alone.
    by destruct (bilateral_summary_json env now a) as [j| |].
  - unfold bilateral_status_prog, h_bilateral_status.
    rewrite (alone_reads lvisible _ (bilateral_status_json env now a)) by apply bilateral_text_alone.
    by destruct (bilateral_status_json env now a) as [j| |].
  - done.
  - apply enable_bilateral_alone.
  - done.
Qed.

Lemma answer_alone os now line a a' r :
  handle_command (leader_handlers env os now) line (Ok a) = (Ok a', r) ->
  alone (answer_prog env os (fun _ => now) line) a = Ok (a', [GReply r], tt).
Proof.
  unfold answer_prog, handle_command. cbv zeta.
  assert (Hw : forall w args,
    match leader_handlers env os now !! w with
    | Some h => h args (Ok a)
    | None => (Ok a, json_error ("unknown command: " +:+ w))
    end = (Ok a', r) ->
    alone (r ← match leader_handler_progs env os (fun _ => now) !! w with
               | Some h => h args
               | None => mret (json_error ("unknown command: " +:+ w))
               end; output [GReply r]) a = Ok (a', [GReply r], tt)).
  { intros w args H. rewrite alone_bind, l_handler_alone, H. done. }
  destruct (split_first (trim line)) as [w [rest|]]; apply Hw.
Qed.

(** ** Executions of [LeaderApp] are executions of the threads *)

Lemma leader_run_ok st l a' : leader_run env tanh sin cos st l = Ok a' -> exists a, st = Ok a.
Proof.
  revert a'. induction l as [|e l IH] using rev_ind; intros a' H; [by eexists|].
  rewrite leader_run_snoc in H. apply leader_event_ok in H as [b Hb]. by eapply IH.
Qed.

(** The outputs of the iterations of a run. *)
Fixpoint leader_outputs (st : outcome LeaderApp) (l : list LeaderEvent) : list LeaderOutput :=
  match l with
  | [] => []
  | e :: l' =>
      let '(st', o) := leader_event env tanh sin cos e st in
      match o with Some o => [o] | None => [] end ++ leader_outputs st' l'
  end.

Lemma l_event_executes e a a' o ts :
  leader_event env tanh sin cos e (Ok a) = (Ok a', o) -> ready 5 ts ->
  exists cs ls, leader_exec env tanh sin cos cs (mkSys a ts) = Ok (mkSys a' ts, ls) /\
    loop_outputs ls = match o with Some o => emitted o | None => [] end.
Proof.
  intros He Hts.
  assert (Hgive : forall e k p vl, (k < 5)%nat -> leader_begin env tanh sin cos e a ts = give k p a ts ->
    alone p a = Ok (a', vl, tt) ->
    exists cs ls, leader_exec env tanh sin cos cs (mkSys a ts) = Ok (mkSys a' ts, ls) /\ loop_outputs ls = loop_outputs vl).
  { intros e' k p vl Hk Hb Hp. apply (alone_inv lvisible lloop_output) in Hp as (l & Hr & Hl); [|by intros []].
    destruct (exec_give (leader_begin env tanh sin cos) 5 e' k p a a' l ts Hts Hk Hb Hr) as [cs Hcs]. by exists cs, l. }
  destruct e as [os now line|side sys_now now data| |i]; cbn [leader_event] in He.
  - destruct (handle_command _ line (Ok a)) as [st r] eqn:Eh. cbn [fst] in He. injection He as -> <-.
    apply (Hgive (LtCommand os (fun _ => now) line) server_thread (answer_prog env os (fun _ => now) line) [GReply r]);
      [unfold server_thread; lia|done|by apply answer_alone].
  - injection He as <- <-. apply (Hgive (LtFeedback side sys_now now data) (feedback_thread side)
      (receive_prog side sys_now now data) []); [unfold feedback_thread; destruct side; lia|done|done].
  - injection He as <- <-. by apply (Hgive LtSignal signal_thread interrupt_prog []); [unfold signal_thread; lia| |].
  - destruct (lf_keep_running (la_flags a)) eqn:Ek.
    + destruct (leader_cycle env tanh sin cos i a) as [[b x]| |] eqn:Ec; [|done|done]. injection He as -> <-.
      rewrite <- l_emitted_loop_outputs.
      apply (Hgive (LtCycle i (in_gate_now i)) main_thread (loop_prog env tanh sin cos i (in_gate_now i)) (emitted x));
        [unfold main_thread; lia|done|].
      unfold loop_prog. rewrite alone_switch. cbn [switch_on]. rewrite Ek, alone_bind, l_cycle_alone, Ec.
      cbn [mbind outcome_bind]. rewrite alone_ret. cbn [mbind outcome_bind]. by rewrite app_nil_r.
    + injection He as <- <-. by exists [], [].
Qed.
End alone.

(** The step-by-step model of the leader is a special case of its threads. Every
    execution of [LeaderApp], in which an iteration of the main loop, a command, a
    feedback packet and a signal are one step each, is also an execution of the
    program's threads under some schedule: it ends in the same state, and the main
    loop has made the same pose moves and sent the same torques, packets and
    telemetry, in the same order. *)
Lemma leader_run_is_execution (env : LeaderEnv) (tanh sin cos : double -> double) (a a' : LeaderApp)
    (l : list LeaderEvent) :
  leader_run env tanh sin cos (Ok a) l = Ok a' ->
  exists cs ts ls,
    leader_exec env tanh sin cos cs (mkSys a leader_pool) = Ok (mkSys a' ts, ls) /\
    loop_outputs ls = concat (map emitted (leader_outputs env tanh sin cos (Ok a) l)).
Proof.
  intros H. enough (Hall : forall ts, ready 5 ts -> exists cs ls,
    leader_exec env tanh sin cos cs (mkSys a ts) = Ok (mkSys a' ts, ls) /\
    loop_outputs ls = concat (map emitted (leader_outputs env tanh sin cos (Ok a) l))).
  { destruct (Hall leader_pool (ready_replicate 5)) as (cs & ls & Hcs & Hls). by exists cs, leader_pool, ls. }
  revert a H. induction l as [|e l IH]; intros a H ts Hts.
  { injection H as <-. by exists [], []. }
  cbn [leader_outputs]. unfold leader_run in H. cbn [fold_left] in H. fold (leader_run env tanh sin cos) in H.
  destruct (leader_event env tanh sin cos e (Ok a)) as [st o] eqn:Ee. cbn [fst] in H.
  destruct (leader_run_ok env tanh sin cos st l a' H) as [b ->].
  destruct (l_event_executes env tanh sin cos e a b o ts Ee Hts) as (cs1 & ls1 & H1 & E1).
  destruct (IH b H ts Hts) as (cs2 & ls2 & H2 & E2). exists (cs1 ++ cs2), (ls1 ++ ls2). split.
  - unfold leader_exec in *. rewrite sys_exec_app, H1. cbn [mbind outcome_bind]. by rewrite H2.
  - rewrite filter_app, E1, E2, map_app, concat_app. f_equal. destruct o as [o|]; [|done]. cbn. by rewrite app_nil_r.
Qed.

Lemma leader_run_is_execution_witness :
  exists a', leader_run (test_env false) id id id (Ok (test_app (Some test_leader))) test_events = Ok a' /\
    length (leader_outputs (test_env false) id id id (Ok (test_app (Some test_leader))) test_events) = 1%nat /\
    exists cs ts ls, leader_exec (test_env false) id id id cs (mkSys (test_app (Some test_leader)) leader_pool) =
        Ok (mkSys a' ts, ls) /\
      loop_outputs ls = concat (map emitted (leader_outputs (test_env false) id id id
        (Ok (test_app (Some test_leader))) test_events)).
Proof.
  assert (Hb : match leader_run (test_env false) id id id (Ok (test_app (Some test_leader))) test_events with
               | Ok _ => true | _ => false end = true) by (vm_compute; reflexivity).
  destruct (leader_run _ _ _ _ (Ok (test_app (Some test_leader))) test_events) as [a'| |] eqn:H; [|discriminate Hb|discriminate Hb].
  exists a'. split; [reflexivity|]. split; [vm_compute; reflexivity|].
  exact (leader_run_is_execution (test_env false) id id id (test_app (Some test_leader)) a' test_events H).
Defined.
