(* ===== verification/FollowerApp.v ===== *)
(** * FollowerApp: the bimanual follower program

    [src/src/apps/wifi_bimanual_follower.cpp]: shared state, control handlers,
    packet callbacks, the pose moves run by detached threads, and one iteration of
    the main loop. As in [LeaderApp], a loop body, a handler and a callback are one
    step each; a detached move is started by a step and finishes in a later one.
    [FollowerThreads] refines these steps into single accesses. *)

From Stdlib Require Import SpecFloat.
From S2P Require Import Prelude Float64 Crc32 Wire Packets PacketCodec TeleopStateBuffer Safety LinkCheck.
From S2P Require Import RuntimeControl Udp Dynamics RobotState Control NumParse AppCommon.
From stdpp Require Import gmap pretty.

Open Scope Z_scope.

(** ** Settings *)

Record FeedbackSettings := mkFeedbackSettings {
  fs_enabled : bool;
  fs_target_ip : string;
  fs_right_port : Z;
  fs_left_port : Z;
  fs_require_wired : bool;
  fs_allow_loopback : bool;
  fs_min_link_speed_mbps : Z;
  fs_link_recheck_s : double;
}.

(** The member initialisers. *)
Definition feedback_settings_default : FeedbackSettings :=
  mkFeedbackSettings false "127.0.0.1" 50400 50401 true false 100 d1.

Record FollowerEnv := mkFollowerEnv {
  fe_mock : bool;
  fe_rate_hz : double;
  fe_fb : FeedbackSettings;
  fe_publish_telemetry : bool;
  fe_telemetry_rate_hz : double;
  fe_gravity_ff : bool;
  fe_gravity_ff_scale : double;
}.

(** ** State *)

(** One arm. The controller is absent in mock mode. *)
Record FollowerSide := mkFollowerSide {
  fo_buffer : TeleopStateBuffer;
  fo_safety : SafetyManager;
  fo_limiter : RateLimiter;
  fo_control : option Control;
}.

(** A pose move running in its own thread. *)
Inductive Move := MoveRecover | MoveInit | MoveGoto (p : PoseTargets).

Record FollowerApp := mkFollowerApp {
  fa_keep_running : bool;
  fa_init_requested : bool;
  fa_init_in_progress : bool;
  fa_recover_requested : bool;
  fa_recover_in_progress : bool;
  fa_goto_requested : bool;
  fa_goto_in_progress : bool;
  fa_goto_target : list double;
  fa_right : FollowerSide;
  fa_left : FollowerSide;
  fa_moves : list Move;                  (* threads not finished yet *)
  fa_fb_link : LinkInfo;
  fa_fb_link_ok : bool;
  fa_fb_seq : Z;
  fa_next_link_check : Z;
  fa_publisher : TelemetryPublisher;
  fa_next_telemetry : Z;
}.

Definition follower_side (side : ArmSide) (a : FollowerApp) : FollowerSide :=
  match side with RIGHT => fa_right a | LEFT => fa_left a end.

(** *** Updates of single members *)

Definition set_running (b : bool) (a : FollowerApp) : FollowerApp :=
  mkFollowerApp b (fa_init_requested a) (fa_init_in_progress a) (fa_recover_requested a) (fa_recover_in_progress a)
    (fa_goto_requested a) (fa_goto_in_progress a) (fa_goto_target a) (fa_right a) (fa_left a) (fa_moves a)
    (fa_fb_link a) (fa_fb_link_ok a) (fa_fb_seq a) (fa_next_link_check a) (fa_publisher a) (fa_next_telemetry a).

Definition set_finit (requested in_progress : bool) (a : FollowerApp) : FollowerApp :=
  mkFollowerApp (fa_keep_running a) requested in_progress (fa_recover_requested a) (fa_recover_in_progress a)
    (fa_goto_requested a) (fa_goto_in_progress a) (fa_goto_target a) (fa_right a) (fa_left a) (fa_moves a)
    (fa_fb_link a) (fa_fb_link_ok a) (fa_fb_seq a) (fa_next_link_check a) (fa_publisher a) (fa_next_telemetry a).

Definition set_recover (requested in_progress : bool) (a : FollowerApp) : FollowerApp :=
  mkFollowerApp (fa_keep_running a) (fa_init_requested a) (fa_init_in_progress a) requested in_progress
    (fa_goto_requested a) (fa_goto_in_progress a) (fa_goto_target a) (fa_right a) (fa_left a) (fa_moves a)
    (fa_fb_link a) (fa_fb_link_ok a) (fa_fb_seq a) (fa_next_link_check a) (fa_publisher a) (fa_next_telemetry a).

Definition set_fgoto (requested in_progress : bool) (target : list double) (a : FollowerApp) : FollowerApp :=
  mkFollowerApp (fa_keep_running a) (fa_init_requested a) (fa_init_in_progress a) (fa_recover_requested a)
    (fa_recover_in_progress a) requested in_progress target (fa_right a) (fa_left a) (fa_moves a)
    (fa_fb_link a) (fa_fb_link_ok a) (fa_fb_seq a) (fa_next_link_check a) (fa_publisher a) (fa_next_telemetry a).

Definition set_sides (r l : FollowerSide) (a : FollowerApp) : FollowerApp :=
  mkFollowerApp (fa_keep_running a) (fa_init_requested a) (fa_init_in_progress a) (fa_recover_requested a)
    (fa_recover_in_progress a) (fa_goto_requested a) (fa_goto_in_progress a) (fa_goto_target a) r l (fa_moves a)
    (fa_fb_link a) (fa_fb_link_ok a) (fa_fb_seq a) (fa_next_link_check a) (fa_publisher a) (fa_next_telemetry a).

Definition set_moves (l : list Move) (a : FollowerApp) : FollowerApp :=
  mkFollowerApp (fa_keep_running a) (fa_init_requested a) (fa_init_in_progress a) (fa_recover_requested a)
    (fa_recover_in_progress a) (fa_goto_requested a) (fa_goto_in_progress a) (fa_goto_target a)
    (fa_right a) (fa_left a) l (fa_fb_link a) (fa_fb_link_ok a) (fa_fb_seq a) (fa_next_link_check a)
    (fa_publisher a) (fa_next_telemetry a).

Definition set_feedback (link : LinkInfo) (ok : bool) (seq next : Z) (a : FollowerApp) : FollowerApp :=
  mkFollowerApp (fa_keep_running a) (fa_init_requested a) (fa_init_in_progress a) (fa_recover_requested a)
    (fa_recover_in_progress a) (fa_goto_requested a) (fa_goto_in_progress a) (fa_goto_target a)
    (fa_right a) (fa_left a) (fa_moves a) link ok seq next (fa_publisher a) (fa_next_telemetry a).

Definition set_telemetry (p : TelemetryPublisher) (next : Z) (a : FollowerApp) : FollowerApp :=
  mkFollowerApp (fa_keep_running a) (fa_init_requested a) (fa_init_in_progress a) (fa_recover_requested a)
    (fa_recover_in_progress a) (fa_goto_requested a) (fa_goto_in_progress a) (fa_goto_target a)
    (fa_right a) (fa_left a) (fa_moves a) (fa_fb_link a) (fa_fb_link_ok a) (fa_fb_seq a) (fa_next_link_check a)
    p next.

Definition with_safety (f : SafetyManager -> SafetyManager) (s : FollowerSide) : FollowerSide :=
  mkFollowerSide (fo_buffer s) (f (fo_safety s)) (fo_limiter s) (fo_control s).

Definition with_fcontrol (c : option Control) (s : FollowerSide) : FollowerSide :=
  mkFollowerSide (fo_buffer s) (fo_safety s) (fo_limiter s) c.

Definition upd_side (side : ArmSide) (f : FollowerSide -> FollowerSide) (a : FollowerApp) : FollowerApp :=
  match side with
  | RIGHT => set_sides (f (fa_right a)) (fa_left a) a
  | LEFT => set_sides (fa_right a) (f (fa_left a)) a
  end.

Definition both_safety (f : SafetyManager -> SafetyManager) (a : FollowerApp) : FollowerApp :=
  set_sides (with_safety f (fa_right a)) (with_safety f (fa_left a)) a.

(** ** Callbacks and link *)

(** [packet_callback_r], [packet_callback_l]. *)
Definition packet_arrives (side : ArmSide) (now : Z) (p : TeleopPacket) (a : FollowerApp) : FollowerApp :=
  upd_side side
    (fun s => mkFollowerSide (tsb_update now p (fo_buffer s)) (fo_safety s) (fo_limiter s) (fo_control s)) a.

(** [signal_handler]. *)
Definition signal_handler (a : FollowerApp) : FollowerApp :=
  set_running false (both_safety safety_trigger_estop a).

Definition safety_state_to_str (s : SafetyState) : string :=
  match s with
  | DISABLED => "DISABLED" | WAITING_FOR_ENABLE => "WAIT_EN" | READY => "READY" | ACTIVE => "ACTIVE"
  | WARNING_TIMEOUT => "WARN" | HOLD => "HOLD" | ESTOP => "ESTOP" | FAULT => "FAULT"
  end.

(** [follower_link_ok]: the verdict and the link found. *)
Definition follower_link_ok (fs : FeedbackSettings) (os : Os) : bool * LinkInfo :=
  let info := query_link_to os (fs_target_ip fs) in
  (if negb (li_resolved info) then false
   else if li_is_loopback info then fs_allow_loopback fs
   else if negb (fs_require_wired fs) then true
   else negb (li_is_wireless info) && li_has_device info && li_carrier info
        && (fs_min_link_speed_mbps fs <=? li_speed_mbps info), info).

Section follower.
Context (env : FollowerEnv).
#[local] Abbreviation fb := (fe_fb env).

(** ** Control handlers *)

Definition fkey (k : string) : string := quoted k +:+ ":".
Definition fmessage (text : string) : string := json_ok (fkey "message" +:+ quoted text).

(** [feedback_status_json], once the feedback path is set up. *)
Definition feedback_status_json (a : FollowerApp) : string :=
  fkey "feedback" +:+ "{"
  +:+ fkey "enabled" +:+ json_bool (fs_enabled fb) +:+ ","
  +:+ fkey "target_ip" +:+ quoted (json_escape (fs_target_ip fb)) +:+ ","
  +:+ fkey "right_port" +:+ pretty (fs_right_port fb) +:+ ","
  +:+ fkey "left_port" +:+ pretty (fs_left_port fb) +:+ ","
  +:+ fkey "link_ok" +:+ json_bool (fa_fb_link_ok a) +:+ ","
  +:+ fkey "link" +:+ quoted (json_escape (describe (fa_fb_link a))) +:+ ","
  +:+ fkey "sent" +:+ pretty (fa_fb_seq a) +:+ "}".

(** The reply of the status handler, from the values it has read. *)
Definition status_reply (r_state l_state : SafetyState)
    (init_requested init_in_progress goto_in_progress recover_requested recover_in_progress running : bool)
    (feedback : string) : string :=
  json_ok
    (fkey "role" +:+ quoted "follower" +:+ ","
     +:+ fkey "right_state" +:+ quoted (safety_state_to_str r_state) +:+ ","
     +:+ fkey "left_state" +:+ quoted (safety_state_to_str l_state) +:+ ","
     +:+ fkey "init_requested" +:+ json_bool init_requested +:+ ","
     +:+ fkey "init_in_progress" +:+ json_bool init_in_progress +:+ ","
     +:+ fkey "goto_in_progress" +:+ json_bool goto_in_progress +:+ ","
     +:+ fkey "recover_requested" +:+ json_bool recover_requested +:+ ","
     +:+ fkey "recover_in_progress" +:+ json_bool recover_in_progress +:+ ","
     +:+ fkey "running" +:+ json_bool running +:+ ","
     +:+ feedback).

Definition f_status (args : string) (a : FollowerApp) : FollowerApp * string :=
  (a, status_reply (sm_state (fo_safety (fa_right a))) (sm_state (fo_safety (fa_left a)))
        (fa_init_requested a) (fa_init_in_progress a) (fa_goto_in_progress a) (fa_recover_requested a)
        (fa_recover_in_progress a) (fa_keep_running a) (feedback_status_json a)).

Definition f_init_position (args : string) (a : FollowerApp) : FollowerApp * string :=
  (set_finit true (fa_init_in_progress a) a, fmessage "follower init_position requested").

Definition f_goto_pose (args : string) (a : FollowerApp) : FollowerApp * string :=
  let '(ok, vals) := parse_pose16 args in
  if negb ok then (a, json_error "goto_pose expects 16 whitespace-separated values")
  else (set_fgoto true (fa_goto_in_progress a) vals a, fmessage "follower goto_pose requested").

Definition f_reset_safety (args : string) (a : FollowerApp) : FollowerApp * string :=
  (both_safety safety_reset a, fmessage "follower safety reset").

Definition f_estop (args : string) (a : FollowerApp) : FollowerApp * string :=
  (both_safety safety_trigger_estop a, fmessage "follower estop triggered").

Definition f_recover_estop (args : string) (a : FollowerApp) : FollowerApp * string :=
  (set_recover true (fa_recover_in_progress a) a, fmessage "follower estop recovery requested").

Definition f_shutdown (args : string) (a : FollowerApp) : FollowerApp * string :=
  (set_running false a, fmessage "follower shutdown requested").

Definition follower_handlers : gmap string (Handler FollowerApp) :=
  register_handler "shutdown" f_shutdown (register_handler "recover_estop" f_recover_estop
    (register_handler "estop" f_estop (register_handler "reset_safety" f_reset_safety
    (register_handler "goto_pose" f_goto_pose (register_handler "init_position" f_init_position
    (register_handler "status" f_status ∅)))))).

(** ** Feedback packets *)

(** [fill_feedback]; [cmd] is the newest command and its receive time. *)
Definition fill_feedback (side : ArmSide) (mode : Z) (st : SafetyState) (link_ok : bool)
    (cmd : option TeleopPacket) (cmd_recv_time_ns now : Z) (arm hand : list JointState) : FeedbackPacket :=
  let arm_dof := Nat.min (length arm) 8 in
  let hand_dof := Nat.min (length hand) 4 in
  let bits n m f (l : list JointState) := pad m (map (fun j => bits_of_double (f j)) (take n l)) in
  mkFeedbackPacket 0 0 0 0 0
    (arm_side_u8 side) mode (if decide (st = ACTIVE) then 1 else 0) (if decide (st = ESTOP) then 1 else 0)
    (Z.of_nat arm_dof) (Z.of_nat hand_dof) (safety_state_u8 st) (if link_ok then 1 else 0)
    (match cmd with Some c => tp_seq c | None => 0 end)
    (match cmd with Some c => tp_send_time_ns c | None => 0 end)
    (match cmd with Some _ => if cmd_recv_time_ns <=? now then u64 (now - cmd_recv_time_ns) else 0 | None => 0 end)
    (bits arm_dof 8%nat js_position arm) (bits arm_dof 8%nat js_velocity arm) (bits arm_dof 8%nat js_effort arm)
    (bits hand_dof 4%nat js_position hand) (bits hand_dof 4%nat js_velocity hand) (bits hand_dof 4%nat js_effort hand)
    0.

(** Mock mode: the command echoed as a joint state. *)
Definition echo_joints (n limit : nat) (pos vel : list Z) : list JointState :=
  map (fun i => if decide (i < limit)%nat
                then mkJointState (double_of_bits (nth i pos 0)) (double_of_bits (nth i vel 0)) d0
                else joint_zero) (seq 0 n).

Definition echo_command (t : option TeleopPacket) : list JointState * list JointState :=
  match t with
  | Some p => (echo_joints (Z.to_nat (tp_arm_dof p)) 8 (tp_arm_pos p) (tp_arm_vel p),
               echo_joints (Z.to_nat (tp_hand_dof p)) 4 (tp_hand_pos p) (tp_hand_vel p))
  | None => ([], [])
  end.

(** ** One arm of the control loop *)

(** What a cycle sends to one arm. *)
Inductive ArmOutput :=
| ArmCommands (c : Commands)
| ArmDisable
| ArmNothing.

(** The new references: the packet's targets, rate limited against the current
    references; both arms and hands are concatenated for the limiter. *)
Definition limited_targets (rl : RateLimiter) (p : TeleopPacket) (arm_refs hand_refs : list JointState)
    : outcome (list double) :=
  let cur_pos := map js_position arm_refs ++ map js_position hand_refs in
  ta ← for_n (Z.to_nat (tp_arm_dof p)) (fun i => w ← vget (tp_arm_pos p) i; Ok (double_of_bits w));
  th ← for_n (Z.to_nat (tp_hand_dof p)) (fun i => w ← vget (tp_hand_pos p) i; Ok (double_of_bits w));
  Ok (limit rl cur_pos (ta ++ th)).

(** The loops that overwrite position and velocity of the references; [off] is
    [arm_off] for the hands. *)
Definition write_refs (tar : list double) (vel : list Z) (off : nat) (refs : list JointState)
    : outcome (list JointState) :=
  for_n (length refs) (fun i =>
    r ← vget refs i;
    match tar !! (i + off)%nat with
    | Some t => w ← vget vel i; Ok (mkJointState t (double_of_bits w) (js_effort r))
    | None => Ok r
    end).

Definition track_packet (rl : RateLimiter) (p : TeleopPacket) (c : Control) : outcome Control :=
  let arm_refs := rs_reference (arm_state (ct_robot_state c)) in
  let hand_refs := rs_reference (hand_state (ct_robot_state c)) in
  tar ← limited_targets rl p arm_refs hand_refs;
  arm' ← write_refs tar (tp_arm_vel p) 0 arm_refs;
  hand' ← write_refs tar (tp_hand_vel p) (length arm_refs) hand_refs;
  Ok (SetFollowerGravityFeedforward (fe_gravity_ff env && (tp_mode p =? control_mode_u8 BILATERAL))
        (fe_gravity_ff_scale env)
        (with_robot_state
           (mkRobotSystem (set_references arm' (arm_state (ct_robot_state c)))
              (set_references hand' (hand_state (ct_robot_state c)))) c)).

Context (tanh : double -> double).

Definition run_unilateral (m : Motors) (c : Control) : outcome (Control * ArmOutput) :=
  let '(c, r) := unilateral_step tanh m c in
  cmds ← r; Ok (c, ArmCommands cmds).

(** One arm in a safety state [st], with the newest packet if there is one. *)
Definition side_cycle (st : SafetyState) (target : option TeleopPacket) (m : Motors) (rl : RateLimiter) (c : Control)
    : outcome (Control * ArmOutput) :=
  match st with
  | ACTIVE | READY | WARNING_TIMEOUT =>
      c ← match target with Some p => track_packet rl p c | None => Ok c end;
      run_unilateral m c
  | HOLD => run_unilateral m c
  | ESTOP | FAULT | DISABLED => Ok (c, ArmDisable)
  | WAITING_FOR_ENABLE => Ok (c, ArmNothing)
  end.

(** ** The main loop *)

Record FollowerInput := mkFollowerInput {
  fi_now_r : Z; fi_now_l : Z;            (* packet ages *)
  fi_motors_r : Motors; fi_motors_l : Motors;
  fi_now : Z;
  fi_os : Os;
  fi_hold_r : Z; fi_hold_l : Z; fi_sys_r : Z; fi_sys_l : Z;
  fi_telemetry_ns : Z;
}.

Record FollowerOutput := mkFollowerOutput {
  fx_enable_all : bool;                  (* both buses re-enabled *)
  fx_started : list Move;
  fx_right : ArmOutput;
  fx_left : ArmOutput;
  fx_feedback : option (FeedbackPacket * FeedbackPacket);
  fx_telemetry : option (list Z);
}.

Definition has_arms (a : FollowerApp) : bool :=
  negb (fe_mock env) && bool_decide (is_Some (fo_control (fa_right a)))
  && bool_decide (is_Some (fo_control (fa_left a))).

(** The three requests, each taken with [exchange(false)]: real arms start a
    thread, otherwise the request is completed at once. *)
Definition serve_recover (a : FollowerApp) : FollowerApp * list Move :=
  if fa_recover_requested a then
    let a := set_recover false true a in
    if has_arms a then (set_moves (fa_moves a ++ [MoveRecover]) a, [MoveRecover])
    else (set_recover (fa_recover_requested a) false (both_safety safety_reset a), [])
  else (a, []).

Definition serve_finit (a : FollowerApp) : FollowerApp * list Move :=
  if fa_init_requested a then
    let a := set_finit false true a in
    if has_arms a then (set_moves (fa_moves a ++ [MoveInit]) a, [MoveInit])
    else (set_finit (fa_init_requested a) false (both_safety safety_reset a), [])
  else (a, []).

Definition serve_fgoto (a : FollowerApp) : FollowerApp * list Move :=
  if fa_goto_requested a then
    let a := set_fgoto false true (fa_goto_target a) a in
    match (if has_arms a then split_pose (fa_goto_target a) else None) with
    | Some p => (set_moves (fa_moves a ++ [MoveGoto p]) a, [MoveGoto p])
    | None => (set_fgoto (fa_goto_requested a) false (fa_goto_target a) a, [])
    end
  else (a, []).

(** The age of the newest packet, in milliseconds. *)
Definition gap_ms (now last : Z) : double := if last <=? now then ns_diff_ms now last else d0.

Definition packet_gap (now : Z) (b : TeleopStateBuffer) : double := gap_ms now (tsb_last_receive_time_ns b).

(** The safety update, if a packet has arrived. *)
Definition safety_side (now : Z) (s : FollowerSide) : FollowerSide :=
  match tsb_get_latest (fo_buffer s) with
  | Some p => with_safety (safety_update p (packet_gap now (fo_buffer s))) s
  | None => s
  end.

(** The arm's control cycle. *)
Definition control_side (m : Motors) (s : FollowerSide) : outcome (FollowerSide * ArmOutput) :=
  c ← deref (fo_control s);
  '(c, o) ← side_cycle (sm_state (fo_safety s)) (tsb_get_latest (fo_buffer s)) m (fo_limiter s) c;
  Ok (with_fcontrol (Some c) s, o).

(** Both arms; nothing is sent in mock mode or while an initial or recovery move
    is in progress. *)
Definition serve_arms (i : FollowerInput) (a : FollowerApp) : outcome (FollowerApp * ArmOutput * ArmOutput) :=
  let a := set_sides (safety_side (fi_now_r i) (fa_right a)) (safety_side (fi_now_l i) (fa_left a)) a in
  if negb (fe_mock env) && negb (fa_init_in_progress a) && negb (fa_recover_in_progress a) then
    '(r, o_r) ← control_side (fi_motors_r i) (fa_right a);
    '(l, o_l) ← control_side (fi_motors_l i) (fa_left a);
    Ok (set_sides r l a, o_r, o_l)
  else Ok (a, ArmNothing, ArmNothing).

(** The joint states reported for one arm. *)
Definition reported (a : FollowerApp) (s : FollowerSide) : list JointState * list JointState :=
  match (if has_arms a then fo_control s else None) with
  | Some c => (rs_response (arm_state (ct_robot_state c)), rs_response (hand_state (ct_robot_state c)))
  | None => echo_command (tsb_get_latest (fo_buffer s))
  end.

(** One arm's encoded feedback packet, from the command, the safety state and
    the joint states read before. *)
Definition feedback_packet (side : ArmSide) (hold sys seq : Z) (link_ok : bool) (target : option TeleopPacket)
    (st : SafetyState) (last : Z) (joints : list JointState * list JointState) : FeedbackPacket :=
  let '(arm, hand) := joints in
  let p := fill_feedback side (match target with Some t => tp_mode t | None => 0 end) st
             link_ok target last hold arm hand in
  feedback_encode sys
    (mkFeedbackPacket (fp_magic p) (fp_version p) (fp_packet_size p) seq (fp_send_time_ns p) (fp_arm_side p)
       (fp_mode p) (fp_enabled p) (fp_estop p) (fp_arm_dof p) (fp_hand_dof p) (fp_safety_state p) (fp_link_ok p)
       (fp_echo_cmd_seq p) (fp_echo_cmd_send_time_ns p) (fp_cmd_hold_ns p) (fp_arm_pos p) (fp_arm_vel p)
       (fp_arm_tau p) (fp_hand_pos p) (fp_hand_vel p) (fp_hand_tau p) (fp_crc32 p)).

Definition side_feedback (side : ArmSide) (hold sys seq : Z) (link_ok : bool) (a : FollowerApp) (s : FollowerSide)
    : FeedbackPacket :=
  feedback_packet side hold sys seq link_ok (tsb_get_latest (fo_buffer s)) (sm_state (fo_safety s))
    (tsb_last_receive_time_ns (fo_buffer s)) (reported a s).

(** The link check, when it is due. *)
Definition recheck_link (i : FollowerInput) (a : FollowerApp) : outcome FollowerApp :=
  if fa_next_link_check a <=? fi_now i then
    let '(ok, link) := follower_link_ok fb (fi_os i) in
    dt ← ns_of_seconds (fs_link_recheck_s fb);
    Ok (set_feedback link ok (fa_fb_seq a) (fi_now i + dt) a)
  else Ok a.

Definition serve_feedback (i : FollowerInput) (a : FollowerApp)
    : outcome (FollowerApp * option (FeedbackPacket * FeedbackPacket)) :=
  if fs_enabled fb then
    a ← recheck_link i a;
    let p_r := side_feedback RIGHT (fi_hold_r i) (fi_sys_r i) (fa_fb_seq a) (fa_fb_link_ok a) a (fa_right a) in
    let p_l := side_feedback LEFT (fi_hold_l i) (fi_sys_l i) (fa_fb_seq a) (fa_fb_link_ok a) a (fa_left a) in
    Ok (set_feedback (fa_fb_link a) (fa_fb_link_ok a) (u32 (fa_fb_seq a + 1)) (fa_next_link_check a) a,
        Some (p_r, p_l))
  else Ok (a, None).

(** One row of the telemetry arrays: observed position and velocity, reference. *)
Definition telemetry_rows (room : nat) (resp ref : list JointState) : outcome (list (double * double * double)) :=
  for_n (Nat.min (length resp) room) (fun i =>
    s ← vget resp i; r ← vget ref i; Ok (js_position s, js_velocity s, js_position r)).

Definition arm_rows (room : nat) (arm_resp hand_resp arm_ref hand_ref : list JointState)
    : outcome (list (double * double * double)) :=
  a ← telemetry_rows room arm_resp arm_ref;
  h ← telemetry_rows (room - length a) hand_resp hand_ref;
  Ok (a ++ h).

Definition side_rows (room : nat) (c : Control) : outcome (list (double * double * double)) :=
  let s := ct_robot_state c in
  arm_rows room (rs_response (arm_state s)) (rs_response (hand_state s))
    (rs_reference (arm_state s)) (rs_reference (hand_state s)).

(** The packet, from the safety states and the rows of both arms. *)
Definition telemetry_packet (i : FollowerInput) (sr sl : SafetyState) (rows : list (double * double * double))
    : OpenArmTelemetryPacketV1 :=
  let col (f : double * double * double -> double) := pad 16 (map (fun x => float_bits (f x)) rows) in
  mkTelemetryPacket 0 0 0 0 (fi_telemetry_ns i) 1 1
    (if negb (fe_mock env) && (bool_decide (sr = ACTIVE) || bool_decide (sl = ACTIVE)) then 1 else 0)
    (if bool_decide (sr = ESTOP) || bool_decide (sl = ESTOP) then 1 else 0)
    16 16 16 0 (safety_state_u8 sr) (safety_state_u8 sl) 0 0
    (col (fun x => x.1.1)) (col (fun x => x.2)) (col (fun x => x.1.2)) 0.

Definition follower_telemetry (i : FollowerInput) (a : FollowerApp) : outcome OpenArmTelemetryPacketV1 :=
  rows ←
    match fo_control (fa_right a), fo_control (fa_left a) with
    | Some cr, Some cl =>
        r ← side_rows 16 cr;
        l ← side_rows (16 - length r) cl;
        Ok (r ++ l)
    | _, _ => Ok []
    end;
  Ok (telemetry_packet i (sm_state (fo_safety (fa_right a))) (sm_state (fo_safety (fa_left a))) rows).

(** Sending it and setting the next time. *)
Definition publish_telemetry (pkt : OpenArmTelemetryPacketV1) (a : FollowerApp)
    : outcome (FollowerApp * option (list Z)) :=
  let '(d, pub) := publish pkt (fa_publisher a) in
  dt ← ns_of_seconds (d1 / fe_telemetry_rate_hz env)%D;
  Ok (set_telemetry pub (fa_next_telemetry a + dt) a, d).

Definition serve_ftelemetry (i : FollowerInput) (a : FollowerApp) : outcome (FollowerApp * option (list Z)) :=
  if fe_publish_telemetry env && (fa_next_telemetry a <=? fi_now i) then
    pkt ← follower_telemetry i a;
    publish_telemetry pkt a
  else Ok (a, None).

Definition follower_cycle (i : FollowerInput) (a : FollowerApp) : outcome (FollowerApp * FollowerOutput) :=
  let '(a, m1) := serve_recover a in
  let '(a, m2) := serve_finit a in
  let '(a, m3) := serve_fgoto a in
  '(a, o_r, o_l) ← serve_arms i a;
  '(a, fbp) ← serve_feedback i a;
  '(a, tel) ← serve_ftelemetry i a;
  Ok (a, mkFollowerOutput (match m1 with [] => false | _ => true end) (m1 ++ m2 ++ m3) o_r o_l fbp tel).

(** ** The end of a move *)

(** What the thread does until it ends: the pose move of both arms, on the motor
    readings it saw, then the reset of both safety managers. *)
Definition finish_move (mv : Move) (rr rl : nat -> Motors) (a : FollowerApp)
    : outcome (FollowerApp * list (Commands * RobotSystemState) * list (Commands * RobotSystemState)) :=
  cr ← deref (fo_control (fa_right a));
  cl ← deref (fo_control (fa_left a));
  '(sr, cr) ← match mv with MoveGoto p => MoveToPose (tg_r p) (tg_gr p) rr cr | _ => AdjustPosition rr cr end;
  '(sl, cl) ← match mv with MoveGoto p => MoveToPose (tg_l p) (tg_gl p) rl cl | _ => AdjustPosition rl cl end;
  let a := set_sides (with_fcontrol (Some cr) (fa_right a)) (with_fcontrol (Some cl) (fa_left a)) a in
  let a := both_safety safety_reset a in
  let a := match mv with
           | MoveRecover => set_recover (fa_recover_requested a) false a
           | MoveInit => set_finit (fa_init_requested a) false a
           | MoveGoto _ => set_fgoto (fa_goto_requested a) false (fa_goto_target a) a
           end in
  Ok (a, sr, sl).

(** ** Executions *)

Inductive FollowerEvent :=
| FvPacket (side : ArmSide) (now : Z) (p : TeleopPacket)
| FvCommand (line : string)
| FvSignal
| FvMoveDone (k : nat) (rr rl : nat -> Motors)        (* the [k]-th running thread ends *)
| FvCycle (i : FollowerInput).

Definition follower_event (e : FollowerEvent) (a : FollowerApp) : outcome (FollowerApp * option FollowerOutput) :=
  match e with
  | FvPacket side now p => Ok (packet_arrives side now p a, None)
  | FvCommand line => Ok ((handle_command follower_handlers line a).1, None)
  | FvSignal => Ok (signal_handler a, None)
  | FvMoveDone k rr rl =>
      match fa_moves a !! k with
      | Some mv =>
          '(a, _, _) ← finish_move mv rr rl (set_moves (delete k (fa_moves a)) a);
          Ok (a, None)
      | None => Ok (a, None)
      end
  | FvCycle i =>
      if fa_keep_running a then '(a, o) ← follower_cycle i a; Ok (a, Some o) else Ok (a, None)
  end.

(** A run, with the outputs of its cycles. *)
Fixpoint follower_run (a : FollowerApp) (l : list FollowerEvent) : outcome (FollowerApp * list FollowerOutput) :=
  match l with
  | [] => Ok (a, [])
  | e :: l' =>
      '(a, o) ← follower_event e a;
      '(a, os) ← follower_run a l';
      Ok (a, option_list o ++ os)
  end.
End follower.

(** ** Start of the program *)

Definition follower_side_new (c : SafetyConfig) (rate_hz : double) (uninitialised : TeleopPacket) (ctl : option Control)
    : FollowerSide :=
  mkFollowerSide (tsb_new uninitialised) (safety_new c)
    (mkRateLimiter (max_target_delta_rad_per_cycle c) (max_joint_velocity_rad_s c) (d1 / rate_hz)%D) ctl.
