(* ===== verification/FollowerFacts.v ===== *)
(** * Facts about the follower program

    The theorems about [FollowerApp]: what each safety state sends to the motors,
    the software ESTOP through whole executions, rate-limited tracking, the end
    of pose moves, and the feedback packets. *)

From Stdlib Require Import SpecFloat.
From S2P Require Import Prelude Float64 Float64Round Float64Ops Float64Arith Float64Order Float64Facts.
From S2P Require Import Crc32 Wire Packets PacketCodec TeleopStateBuffer Safety LinkCheck RuntimeControl Udp.
From S2P Require Import Dynamics RobotState Control ControlFacts NumParse AppCommon FollowerApp.
From stdpp Require Import gmap.

Open Scope Z_scope.

Section facts.
Context (env : FollowerEnv) (tanh : double -> double).

(** ** What the phases of a cycle leave alone *)

(** The part of the state that decides what is sent to the motors. *)
Definition motion (a : FollowerApp) :=
  (fa_init_in_progress a, fa_recover_in_progress a, (fo_safety (fa_right a), fo_safety (fa_left a)),
   (fo_control (fa_right a), fo_control (fa_left a))).

(** The link check and the telemetry change members of their own only. *)
Lemma recheck_link_inv i a b :
  recheck_link env i a = Ok b ->
  exists link ok next, b = set_feedback link ok (fa_fb_seq a) next a.
Proof.
  unfold recheck_link. destruct (fa_next_link_check a <=? fi_now i).
  - destruct (follower_link_ok _ _) as [ok link]. rewrite bind_ok. intros (dt & _ & [= <-]). by do 3 eexists.
  - intros [= <-]. exists (fa_fb_link a), (fa_fb_link_ok a), (fa_next_link_check a). by destruct a.
Qed.

Lemma serve_ftelemetry_inv i a b d :
  serve_ftelemetry env i a = Ok (b, d) -> exists pub next, b = set_telemetry pub next a.
Proof.
  unfold serve_ftelemetry, publish_telemetry. destruct (_ && _).
  - rewrite bind_ok. intros (pkt & _ & H). destruct (publish _ _) as [d' pub].
    rewrite bind_ok in H. destruct H as (dt & _ & [= <- _]). by do 2 eexists.
  - intros [= <- _]. exists (fa_publisher a), (fa_next_telemetry a). by destruct a.
Qed.

Lemma serve_feedback_motion i a a' o :
  serve_feedback env i a = Ok (a', o) -> motion a' = motion a /\ fa_right a' = fa_right a /\ fa_left a' = fa_left a.
Proof.
  unfold serve_feedback. destruct (fs_enabled _); [|by intros [= <- _]]. intros H.
  rewrite bind_ok in H. destruct H as (b & Eb & [= <- _]).
  by apply recheck_link_inv in Eb as (link & ok & next & ->).
Qed.

Lemma serve_ftelemetry_motion i a a' o :
  serve_ftelemetry env i a = Ok (a', o) -> motion a' = motion a /\ fa_right a' = fa_right a /\ fa_left a' = fa_left a.
Proof. by intros (pub & next & ->)%serve_ftelemetry_inv. Qed.

(** ** What one arm is sent *)

(** States in which the motors are switched off. *)
Definition disabling (s : SafetyState) : bool :=
  match s with ESTOP | FAULT | DISABLED => true | _ => false end.

Definition moves_motors (o : ArmOutput) : bool := match o with ArmCommands _ => true | _ => false end.

Lemma run_unilateral_ok m c c' o :
  run_unilateral tanh m c = Ok (c', o) ->
  exists cmds, o = ArmCommands cmds /\ unilateral_step tanh m c = (c', Ok cmds).
Proof.
  unfold run_unilateral. destruct (unilateral_step tanh m c) as [b r]. intros H.
  rewrite bind_ok in H. destruct H as (cmds & -> & [= <- <-]). by exists cmds.
Qed.

Lemma side_cycle_output st target m rl c c' o :
  side_cycle env tanh st target m rl c = Ok (c', o) ->
  (o = ArmDisable <-> disabling st = true) /\ (o = ArmNothing <-> st = WAITING_FOR_ENABLE) /\
  (st = HOLD -> exists cmds, o = ArmCommands cmds /\ unilateral_step tanh m c = (c', Ok cmds)).
Proof.
  unfold side_cycle. destruct st; intros H.
  all: try (injection H as <- <-; split_and!; done).
  all: try (rewrite bind_ok in H; destruct H as (b & _ & H)).
  all: apply run_unilateral_ok in H as (cmds & -> & H); split_and!; try done.
  intros _. by exists cmds.
Qed.

Lemma control_side_inv m s s' o :
  control_side env tanh m s = Ok (s', o) ->
  exists c c', fo_control s = Some c /\ s' = with_fcontrol (Some c') s /\
    side_cycle env tanh (sm_state (fo_safety s)) (tsb_get_latest (fo_buffer s)) m (fo_limiter s) c = Ok (c', o).
Proof.
  unfold control_side. intros H. rewrite bind_ok in H. destruct H as (c & Hc & H).
  rewrite bind_ok in H. destruct H as ([c' o'] & Hs & [= <- <-]). exists c, c'.
  split_and!; [|done|done]. by destruct (fo_control s); simplify_eq/=.
Qed.

(** The arms' phase: safety updates, then the outputs. *)
Definition paused (a : FollowerApp) : bool :=
  fe_mock env || fa_init_in_progress a || fa_recover_in_progress a.

Lemma serve_arms_inv i a a' o_r o_l :
  serve_arms env tanh i a = Ok (a', o_r, o_l) ->
  let r := safety_side (fi_now_r i) (fa_right a) in
  let l := safety_side (fi_now_l i) (fa_left a) in
  fa_init_in_progress a' = fa_init_in_progress a /\ fa_recover_in_progress a' = fa_recover_in_progress a /\
  fa_init_requested a' = fa_init_requested a /\ fa_recover_requested a' = fa_recover_requested a /\
  fa_keep_running a' = fa_keep_running a /\ fa_moves a' = fa_moves a /\
  fo_safety (fa_right a') = fo_safety r /\ fo_safety (fa_left a') = fo_safety l /\
  (paused a = true -> o_r = ArmNothing /\ o_l = ArmNothing /\ fa_right a' = r /\ fa_left a' = l) /\
  (paused a = false -> control_side env tanh (fi_motors_r i) r = Ok (fa_right a', o_r) /\
                       control_side env tanh (fi_motors_l i) l = Ok (fa_left a', o_l)).
Proof.
  cbv zeta. unfold serve_arms, paused. cbv zeta. intros H.
  cbn [fa_init_in_progress fa_recover_in_progress set_sides fa_right fa_left] in H.
  destruct (fe_mock env), (fa_init_in_progress a) eqn:Ei, (fa_recover_in_progress a) eqn:Er; cbn [negb andb orb] in *;
    try (injection H as <- <- <-; by split_and!).
  rewrite bind_ok in H. destruct H as ([r o1] & Hr & H). rewrite bind_ok in H. destruct H as ([l o2] & Hl & [= <- <- <-]).
  pose proof (control_side_inv _ _ _ _ Hr) as (cr & cr' & _ & Hr' & _).
  pose proof (control_side_inv _ _ _ _ Hl) as (cl & cl' & _ & Hl' & _).
  split_and!; try done; [by rewrite Hr'|by rewrite Hl'].
Qed.

(** The requests served first do not touch the controllers, nor (with real arms)
    the safety managers. *)
Lemma serve_requests_inv a a1 a2 a3 m1 m2 m3 :
  serve_recover env a = (a1, m1) -> serve_finit env a1 = (a2, m2) -> serve_fgoto env a2 = (a3, m3) ->
  fo_control (fa_right a3) = fo_control (fa_right a) /\ fo_control (fa_left a3) = fo_control (fa_left a) /\
  fo_buffer (fa_right a3) = fo_buffer (fa_right a) /\ fo_buffer (fa_left a3) = fo_buffer (fa_left a) /\
  fa_keep_running a3 = fa_keep_running a /\
  fa_init_requested a3 = false /\ fa_recover_requested a3 = false /\
  (has_arms env a = true -> fa_right a3 = fa_right a /\ fa_left a3 = fa_left a /\
     fa_init_in_progress a3 = (fa_init_requested a || fa_init_in_progress a) /\
     fa_recover_in_progress a3 = (fa_recover_requested a || fa_recover_in_progress a)).
Proof.
  intros H1 H2 H3.
  assert (G1 : has_arms env a1 = has_arms env a /\ fa_recover_requested a1 = false /\ fa_keep_running a1 = fa_keep_running a /\
    fa_init_requested a1 = fa_init_requested a /\ fa_init_in_progress a1 = fa_init_in_progress a /\
    fo_control (fa_right a1) = fo_control (fa_right a) /\ fo_control (fa_left a1) = fo_control (fa_left a) /\
    fo_buffer (fa_right a1) = fo_buffer (fa_right a) /\ fo_buffer (fa_left a1) = fo_buffer (fa_left a) /\
    (has_arms env a = true -> fa_right a1 = fa_right a /\ fa_left a1 = fa_left a /\
      fa_recover_in_progress a1 = (fa_recover_requested a || fa_recover_in_progress a))).
  { unfold serve_recover in H1. cbv zeta in H1.
    change (has_arms env (set_recover false true a)) with (has_arms env a) in H1.
    destruct (fa_recover_requested a) eqn:E; [|by injection H1 as <- _].
    destruct (has_arms env a) eqn:Eh; by injection H1 as <- _. }
  assert (G2 : has_arms env a2 = has_arms env a1 /\ fa_init_requested a2 = false /\ fa_keep_running a2 = fa_keep_running a1 /\
    fa_recover_requested a2 = fa_recover_requested a1 /\
    fo_control (fa_right a2) = fo_control (fa_right a1) /\ fo_control (fa_left a2) = fo_control (fa_left a1) /\
    fo_buffer (fa_right a2) = fo_buffer (fa_right a1) /\ fo_buffer (fa_left a2) = fo_buffer (fa_left a1) /\
    fa_recover_in_progress a2 = fa_recover_in_progress a1 /\
    (has_arms env a1 = true -> fa_right a2 = fa_right a1 /\ fa_left a2 = fa_left a1 /\
      fa_init_in_progress a2 = (fa_init_requested a1 || fa_init_in_progress a1))).
  { unfold serve_finit in H2. cbv zeta in H2.
    change (has_arms env (set_finit false true a1)) with (has_arms env a1) in H2.
    destruct (fa_init_requested a1) eqn:E; [|by injection H2 as <- _].
    destruct (has_arms env a1) eqn:Eh; by injection H2 as <- _. }
  assert (G3 : fa_right a3 = fa_right a2 /\ fa_left a3 = fa_left a2 /\ fa_init_requested a3 = fa_init_requested a2 /\
    fa_recover_requested a3 = fa_recover_requested a2 /\ fa_init_in_progress a3 = fa_init_in_progress a2 /\
    fa_recover_in_progress a3 = fa_recover_in_progress a2 /\ fa_keep_running a3 = fa_keep_running a2).
  { unfold serve_fgoto in H3. cbv zeta in H3. destruct (fa_goto_requested a2); [|by injection H3 as <- _].
    destruct (if has_arms env _ then _ else _); by injection H3 as <- _. }
  destruct G1 as (? & ? & ? & ? & ? & ? & ? & ? & ? & G1), G2 as (? & ? & ? & ? & ? & ? & ? & ? & ? & G2), G3 as (? & ? & ? & ? & ? & ? & ?).
  split_and!; try congruence; intros Hh; destruct (G1 Hh) as (? & ? & ?), G2 as (? & ? & ?); try congruence.
  split_and!; congruence.
Qed.

Lemma follower_cycle_inv i a a' o :
  follower_cycle env tanh i a = Ok (a', o) ->
  exists a1 a2 a3 a4 m1 m2 m3,
    serve_recover env a = (a1, m1) /\ serve_finit env a1 = (a2, m2) /\ serve_fgoto env a2 = (a3, m3) /\
    serve_arms env tanh i a3 = Ok (a4, fx_right o, fx_left o) /\
    motion a' = motion a4 /\ fa_right a' = fa_right a4 /\ fa_left a' = fa_left a4 /\
    (fa_keep_running a' = fa_keep_running a4 /\ fa_init_requested a' = fa_init_requested a4 /\
     fa_recover_requested a' = fa_recover_requested a4).
Proof.
  unfold follower_cycle. destruct (serve_recover env a) as [a1 m1] eqn:E1.
  destruct (serve_finit env a1) as [a2 m2] eqn:E2. destruct (serve_fgoto env a2) as [a3 m3] eqn:E3.
  intros H. rewrite bind_ok in H. destruct H as ([[a4 o_r] o_l] & E4 & H).
  rewrite bind_ok in H. destruct H as ([a5 fbp] & E5 & H).
  rewrite bind_ok in H. destruct H as ([a6 tel] & E6 & [= <- <-]).
  assert (Hreq : forall x y, motion x = motion y -> fa_keep_running x = fa_keep_running y /\
    fa_init_requested x = fa_init_requested y /\ fa_recover_requested x = fa_recover_requested y ->
    fa_keep_running x = fa_keep_running y /\ fa_init_requested x = fa_init_requested y /\
    fa_recover_requested x = fa_recover_requested y) by done.
  assert (H5 : fa_keep_running a5 = fa_keep_running a4 /\ fa_init_requested a5 = fa_init_requested a4 /\
               fa_recover_requested a5 = fa_recover_requested a4).
  { revert E5. unfold serve_feedback. destruct (fs_enabled _); [|by intros [= <- _]].
    rewrite bind_ok. intros (b & Eb & [= <- _]). by apply recheck_link_inv in Eb as (link & ok & next & ->). }
  assert (H6 : fa_keep_running a6 = fa_keep_running a5 /\ fa_init_requested a6 = fa_init_requested a5 /\
               fa_recover_requested a6 = fa_recover_requested a5).
  { by apply serve_ftelemetry_inv in E6 as (pub & next & ->). }
  apply serve_feedback_motion in E5 as (M5 & R5 & L5). apply serve_ftelemetry_motion in E6 as (M6 & R6 & L6).
  exists a1, a2, a3, a4, m1, m2, m3. cbn [fx_right fx_left].
  destruct H5 as (? & ? & ?), H6 as (? & ? & ?). split_and!; congruence.
Qed.

(** ** The software ESTOP through executions *)

Definition latched (s : FollowerSide) : Prop :=
  sm_state (fo_safety s) = ESTOP /\ sm_estop_triggered (fo_safety s) = true.

(** An initial or recovery move is requested or in progress. *)
Definition moving (a : FollowerApp) : bool :=
  fa_init_requested a || fa_init_in_progress a || (fa_recover_requested a || fa_recover_in_progress a).

(** Real arms, both safety managers latched in ESTOP, with or without such a move. *)
Definition halted (mv : bool) (a : FollowerApp) : Prop :=
  has_arms env a = true /\ moving a = mv /\ latched (fa_right a) /\ latched (fa_left a).

(** What the loop sends meanwhile. *)
Definition halt_output (mv : bool) (x : FollowerOutput) : Prop :=
  let o := if mv then ArmNothing else ArmDisable in fx_right x = o /\ fx_left x = o.

Definition fcommand_word (line : string) : string := (split_first (trim line)).1.

(** Events that neither reset the safety managers nor lead to a reset. *)
Definition no_reset (e : FollowerEvent) : Prop :=
  match e with
  | FvCommand line =>
      fcommand_word line <> "reset_safety" /\ fcommand_word line <> "recover_estop" /\
      fcommand_word line <> "init_position"
  | FvMoveDone _ _ _ => False
  | _ => True
  end.

Lemma latched_update now s : latched s -> latched (safety_side now s).
Proof.
  intros [H1 H2]. unfold safety_side. destruct (tsb_get_latest _); [|done].
  split; simpl; [by apply safety_update_latched|by rewrite safety_update_estop_flag].
Qed.

Lemma command_halted mv line a :
  halted mv a -> no_reset (FvCommand line) -> halted mv (handle_command (follower_handlers env) line a).1.
Proof.
  intros Ha Hn. unfold handle_command. simpl in Hn. unfold fcommand_word in Hn.
  assert (Hcase : forall w args, w <> "reset_safety" /\ w <> "recover_estop" /\ w <> "init_position" ->
    halted mv (match follower_handlers env !! w with
            | Some h => h args a
            | None => (a, json_error ("unknown command: " +:+ w))
            end).1).
  { intros w args (N1 & N2 & N3). destruct (follower_handlers env !! w) as [h|] eqn:Eh; [|done]. revert Eh.
    unfold follower_handlers, register_handler.
    repeat (rewrite lookup_insert_Some; intros [[<- <-]|[_ H]]; [|revert H]); try done.
    - unfold f_estop. destruct Ha as (? & ? & ? & ?). by split_and!.
    - unfold f_goto_pose. destruct (parse_pose16 args) as [[] vals]; [|done].
      destruct Ha as (? & ? & ? & ?). by split_and!. }
  destruct (split_first (trim line)) as [w [rest|]]; by apply Hcase.
Qed.

Lemma cycle_halted mv i a a' o :
  halted mv a -> follower_cycle env tanh i a = Ok (a', o) -> halted mv a' /\ halt_output mv o.
Proof.
  intros (Hh & Hmv & Lr & Ll) H.
  apply follower_cycle_inv in H as (a1 & a2 & a3 & a4 & m1 & m2 & m3 & E1 & E2 & E3 & E4 & Hm & Hr & Hl & Hk & Hi & Hrec).
  destruct (serve_requests_inv _ _ _ _ _ _ _ E1 E2 E3) as (C1 & C2 & _ & _ & _ & Q1 & Q2 & Hreal).
  destruct (Hreal Hh) as (R3 & L3 & I3 & P3).
  apply serve_arms_inv in E4 as (I4 & P4 & Q4 & Q5 & _ & _ & S4 & S5 & Hpause & Hact).
  assert (Hmock : fe_mock env = false) by (revert Hh; unfold has_arms; by destruct (fe_mock env)).
  assert (Hp : paused a3 = mv) by (unfold paused; by rewrite Hmock, I3, P3, <- Hmv).
  rewrite R3 in S4. rewrite L3 in S5.
  pose proof (latched_update (fi_now_r i) _ Lr) as Lr'. pose proof (latched_update (fi_now_l i) _ Ll) as Ll'.
  injection Hm as M1 M2 M3 M4 M5 M6.
  assert (Hctl : is_Some (fo_control (fa_right a4)) /\ is_Some (fo_control (fa_left a4)) /\ halt_output mv o).
  { assert (Hk' : forall now s, fo_control (safety_side now s) = fo_control s).
    { intros now s. unfold safety_side. by destruct (tsb_get_latest _). }
    assert (Hc : is_Some (fo_control (fa_right a)) /\ is_Some (fo_control (fa_left a))).
    { unfold has_arms in Hh. apply andb_true_iff in Hh as [Hh Hcl]. apply andb_true_iff in Hh as [_ Hcr].
      by split; eapply bool_decide_eq_true_1. }
    destruct mv.
    - destruct (Hpause Hp) as (O1 & O2 & Er & El). rewrite Er, El, !Hk', R3, L3. by destruct Hc.
    - destruct (Hact Hp) as [Hcr Hcl]. rewrite R3 in Hcr. rewrite L3 in Hcl.
      apply control_side_inv in Hcr as (cr & cr' & _ & Er & Or). apply control_side_inv in Hcl as (cl & cl' & _ & El & Ol).
      apply side_cycle_output in Or as (Or & _). apply side_cycle_output in Ol as (Ol & _). rewrite Er, El.
      split_and!; [by eexists|by eexists|]. split; [apply Or; by rewrite (proj1 Lr')|apply Ol; by rewrite (proj1 Ll')]. }
  destruct Hctl as (Cr & Cl & Ho). split; [|done]. unfold halted, latched. rewrite M3, M4, S4, S5. split_and!.
  - unfold has_arms. rewrite Hmock, Hr, Hl. by rewrite !bool_decide_eq_true_2.
  - unfold moving. rewrite Hi, Hrec, Q4, Q5, Q1, Q2, M1, M2, I4, P4, I3, P3. by rewrite <- Hmv.
  - apply Lr'.
  - apply Lr'.
  - apply Ll'.
  - apply Ll'.
Qed.

Lemma event_halted mv e a a' o :
  halted mv a -> no_reset e -> follower_event env tanh e a = Ok (a', o) ->
  halted mv a' /\ (forall x, o = Some x -> halt_output mv x).
Proof.
  intros Ha Hn. destruct e as [side now p|line| |k rr rl|i]; cbn [follower_event].
  - intros [= <- <-]. split; [|done]. destruct Ha as (Hh & ? & ? & ?). by destruct side; split_and!.
  - intros [= <- <-]. split; [|done]. by apply command_halted.
  - intros [= <- <-]. split; [|done]. destruct Ha as (? & ? & ? & ?). by split_and!.
  - done.
  - destruct (fa_keep_running a); [|intros [= <- <-]; by split]. intros H. rewrite bind_ok in H.
    destruct H as ([b x] & Hc & [= <- <-]). apply (cycle_halted _ _ _ _ _ Ha) in Hc as [H1 H2].
    split; [done|]. by intros ? [= <-].
Qed.

Lemma run_halted mv l a a' os :
  halted mv a -> Forall no_reset l -> follower_run env tanh a l = Ok (a', os) ->
  halted mv a' /\ Forall (halt_output mv) os.
Proof.
  intros Ha Hl. revert a a' os Ha. induction Hl as [|e l He Hl IH]; intros a a' os Ha H; simpl in H.
  { injection H as <- <-. by split. }
  rewrite bind_ok in H. destruct H as ([b o] & Eb & H). rewrite bind_ok in H. destruct H as ([b' os'] & Er & [= <- <-]).
  destruct (event_halted _ _ _ _ _ Ha He Eb) as [Hb Ho]. destruct (IH _ _ _ Hb Er) as [Hb' Hos].
  split; [done|]. destruct o as [x|]; simpl; [|done]. constructor; [by apply Ho|done].
Qed.
End facts.

(** ** The end of a move *)

Lemma finish_move_inv mv rr rl a a' sr sl :
  finish_move mv rr rl a = Ok (a', sr, sl) ->
  fo_safety (fa_right a') = safety_reset (fo_safety (fa_right a)) /\
  fo_safety (fa_left a') = safety_reset (fo_safety (fa_left a)) /\
  (mv = MoveInit -> fa_init_in_progress a' = false) /\ (mv = MoveRecover -> fa_recover_in_progress a' = false) /\
  (forall p, mv = MoveGoto p -> fa_goto_in_progress a' = false).
Proof.
  unfold finish_move. intros H. rewrite bind_ok in H. destruct H as (cr & _ & H).
  rewrite bind_ok in H. destruct H as (cl & _ & H). rewrite bind_ok in H. destruct H as ([s1 c1] & _ & H).
  rewrite bind_ok in H. destruct H as ([s2 c2] & _ & [= <- _ _]). by destruct mv.
Qed.

(** The end of any pose move releases an ESTOP. *)
Definition released (s : FollowerSide) : Prop :=
  sm_estop_triggered (fo_safety s) = false /\ sm_state (fo_safety s) = initial_state (sm_config (fo_safety s)) /\
  sm_state (fo_safety s) <> ESTOP.

Lemma move_end_releases env tanh k rr rl a mv a' o :
  fa_moves a !! k = Some mv -> follower_event env tanh (FvMoveDone k rr rl) a = Ok (a', o) ->
  released (fa_right a') /\ released (fa_left a').
Proof.
  intros Hk. cbn [follower_event]. rewrite Hk. intros (((b & s1) & s2) & H & [= <- <-])%bind_ok.
  apply finish_move_inv in H as (Er & El & _).
  assert (Hi : forall x, initial_state x <> ESTOP) by (intros x; unfold initial_state; by destruct (require_enable x)).
  unfold released. rewrite Er, El. split_and!; try done; apply Hi.
Qed.

(** ** Properties *)

(** C5: The operator's ESTOP with real arms. After an [estop] command (however it
    is spaced) both safety managers are in ESTOP, whatever packets arrive and
    whatever other commands are given, until one of [reset_safety],
    [recover_estop] and [init_position] is given or a pose move ends. Meanwhile,
    if no initial or recovery move was requested or in progress, every cycle of
    the loop switches both arms' motors off; if one was, the loop sends nothing
    and leaves the arms to that move, which the ESTOP does not stop. The end of
    any pose move resets both safety managers, so that an ESTOP given during it
    is lost. *)
Theorem follower_estop_disables (env : FollowerEnv) (tanh : double -> double) (a a' : FollowerApp)
    (line : string) (l : list FollowerEvent) (os : list FollowerOutput) :
  has_arms env a = true -> fcommand_word line = "estop" -> Forall no_reset l ->
  follower_run env tanh a (FvCommand line :: l) = Ok (a', os) ->
  sm_state (fo_safety (fa_right a')) = ESTOP /\ sm_state (fo_safety (fa_left a')) = ESTOP /\
  Forall (halt_output (moving a)) os /\
  forall k mv rr rl b o, fa_moves a' !! k = Some mv -> follower_event env tanh (FvMoveDone k rr rl) a' = Ok (b, o) ->
    released (fa_right b) /\ released (fa_left b).
Proof.
  intros Hh Hw Hl H. cbn [follower_run follower_event mbind outcome_bind] in H.
  assert (He : halted env (moving a) (handle_command (follower_handlers env) line a).1).
  { unfold fcommand_word in Hw. unfold handle_command. destruct (split_first (trim line)) as [w [rest|]]; simpl in Hw; subst w;
      unfold follower_handlers, register_handler; rewrite !lookup_insert_ne by done; rewrite lookup_insert_eq; by split_and!. }
  rewrite bind_ok in H. destruct H as ([b os'] & Hr & [= <- <-]).
  destruct (run_halted env tanh _ l _ _ _ He Hl Hr) as [(_ & _ & [Hs _] & [Hs' _]) Hos]. split_and!; [done|done|done|].
  intros k mv rr rl c o. apply move_end_releases.
Qed.

Definition test_fenv : FollowerEnv :=
  mkFollowerEnv false (d_of_Z 500) (mkFeedbackSettings true "10.0.0.1" 50400 50401 true false 100 d1)
    true (d_of_Z 100) true d1.

Definition test_fside : FollowerSide :=
  follower_side_new safety_config_default (d_of_Z 500) teleop_zero (Some test_follower).

Definition test_fapp (init_in_progress : bool) (moves : list Move) : FollowerApp :=
  mkFollowerApp true false init_in_progress false false false false [] test_fside test_fside moves
    link_info_default false 0 0 (mkTelemetryPublisher true 0) 0.

Definition test_fos : Os :=
  mkOs (fun ip => Some 1) (fun _ => "10.0.0.2") None (fun _ => None) (fun _ => inr 2)
    (inr [mkIfAddr "eth0" (Some 2) false]) (fun _ => false) (fun _ => None) (fun _ => false).

Definition test_finput (t : Z) : FollowerInput :=
  mkFollowerInput t t test_motors test_motors t test_fos t t t t t.

(** A command packet for seven joints and a gripper, enabled. *)
Definition test_packet (seq : Z) : TeleopPacket :=
  mkTeleopPacket 0 0 0 seq 0 0 1 1 0 7 1 0 0 (replicate 8 (bits_of_double d1)) (replicate 8 0)
    (replicate 4 0) (replicate 4 0) 0.

Definition test_fevents : list FollowerEvent :=
  [FvPacket RIGHT 1000 (test_packet 1); FvPacket LEFT 1000 (test_packet 1); FvCycle (test_finput 2000);
   FvCommand "goto_pose 1"; FvCycle (test_finput 3000)].

Lemma follower_estop_disables_witness :
  (exists a' os, follower_run test_fenv id (test_fapp false []) (FvCommand " estop" :: test_fevents) = Ok (a', os) /\
    length os = 2%nat /\ Forall (fun x => fx_right x = ArmDisable /\ fx_left x = ArmDisable) os) /\
  (exists a' os, follower_run test_fenv id (test_fapp true [MoveInit]) (FvCommand "estop" :: test_fevents) = Ok (a', os) /\
    length os = 2%nat /\ Forall (fun x => fx_right x = ArmNothing /\ fx_left x = ArmNothing) os).
Proof.
  assert (Hr : Forall no_reset test_fevents) by (repeat constructor; simpl; discriminate).
  assert (H : exists a' os, follower_run test_fenv id (test_fapp false []) (FvCommand " estop" :: test_fevents) = Ok (a', os) /\
    length os = 2%nat).
  { do 2 eexists. split; [vm_compute; reflexivity|reflexivity]. }
  assert (H' : exists a' os, follower_run test_fenv id (test_fapp true [MoveInit]) (FvCommand "estop" :: test_fevents)
    = Ok (a', os) /\ length os = 2%nat).
  { do 2 eexists. split; [vm_compute; reflexivity|reflexivity]. }
  split; [destruct H as (a' & os & H & Hl)|clear H; destruct H' as (a' & os & H & Hl)];
    exists a', os; (split; [exact H|]); (split; [exact Hl|]).
  - exact (proj1 (proj2 (proj2 (follower_estop_disables test_fenv id (test_fapp false []) a' " estop" test_fevents os
      eq_refl eq_refl Hr H)))).
  - exact (proj1 (proj2 (proj2 (follower_estop_disables test_fenv id (test_fapp true [MoveInit]) a' "estop" test_fevents os
      eq_refl eq_refl Hr H)))).
Defined.

(** ** One cycle *)

(** What a cycle sends to each arm. *)
Lemma cycle_outputs (env : FollowerEnv) (tanh : double -> double) (i : FollowerInput)
    (a a' : FollowerApp) (o : FollowerOutput) :
  follower_cycle env tanh i a = Ok (a', o) ->
  (fe_mock env = true \/ fa_init_in_progress a' = true \/ fa_recover_in_progress a' = true ->
   fx_right o = ArmNothing /\ fx_left o = ArmNothing) /\
  (fe_mock env = false -> fa_init_in_progress a' = false -> fa_recover_in_progress a' = false ->
   forall s s' out m,
     (s = fa_right a /\ s' = fa_right a' /\ out = fx_right o /\ m = fi_motors_r i \/
      s = fa_left a /\ s' = fa_left a' /\ out = fx_left o /\ m = fi_motors_l i) ->
     (out = ArmDisable <-> disabling (sm_state (fo_safety s')) = true) /\
     (out = ArmNothing <-> sm_state (fo_safety s') = WAITING_FOR_ENABLE) /\
     (sm_state (fo_safety s') = HOLD -> exists c c' cmds, fo_control s = Some c /\ fo_control s' = Some c' /\
        out = ArmCommands cmds /\ unilateral_step tanh m c = (c', Ok cmds)) /\
     (tracking (sm_state (fo_safety s')) = true -> sm_state (fo_safety s') <> HOLD ->
      forall p, tsb_get_latest (fo_buffer s) = Some p ->
      exists c c' c'' cmds, fo_control s = Some c /\ fo_control s' = Some c'' /\
        track_packet env (fo_limiter s') p c = Ok c' /\ out = ArmCommands cmds /\
        unilateral_step tanh m c' = (c'', Ok cmds))).
Proof.
  intros H.
  apply follower_cycle_inv in H as (a1 & a2 & a3 & a4 & m1 & m2 & m3 & E1 & E2 & E3 & E4 & Hm & Hr & Hl & _).
  destruct (serve_requests_inv _ _ _ _ _ _ _ _ E1 E2 E3) as (C1 & C2 & B1 & B2 & _ & _ & _ & _).
  apply serve_arms_inv in E4 as (I4 & P4 & _ & _ & _ & _ & S4 & S5 & Hpause & Hact).
  injection Hm as M1 M2 M3 M4 M5 M6. rewrite M1, M2, Hr, Hl. split.
  - intros Hp. destruct Hpause as (H1 & H2 & _); [|done]. unfold paused. rewrite <- I4, <- P4.
    destruct Hp as [-> | [-> | ->]]; by rewrite ?orb_true_r.
  - intros H1 H2 H3. destruct Hact as [Hcr Hcl].
    { unfold paused. by rewrite <- I4, <- P4, H1, H2, H3. }
    assert (Hside : forall now s3 s s4 m out,
      control_side env tanh m (safety_side now s3) = Ok (s4, out) ->
      fo_safety s4 = fo_safety (safety_side now s3) -> fo_control s3 = fo_control s -> fo_buffer s3 = fo_buffer s ->
      (out = ArmDisable <-> disabling (sm_state (fo_safety s4)) = true) /\
      (out = ArmNothing <-> sm_state (fo_safety s4) = WAITING_FOR_ENABLE) /\
      (sm_state (fo_safety s4) = HOLD -> exists c c' cmds, fo_control s = Some c /\ fo_control s4 = Some c' /\
        out = ArmCommands cmds /\ unilateral_step tanh m c = (c', Ok cmds)) /\
      (tracking (sm_state (fo_safety s4)) = true -> sm_state (fo_safety s4) <> HOLD ->
       forall p, tsb_get_latest (fo_buffer s) = Some p ->
       exists c c' c'' cmds, fo_control s = Some c /\ fo_control s4 = Some c'' /\
         track_packet env (fo_limiter s4) p c = Ok c' /\ out = ArmCommands cmds /\
         unilateral_step tanh m c' = (c'', Ok cmds))).
    { intros now s3 s s4 m out Hc Hs Hcc Hbb. apply control_side_inv in Hc as (c & c' & Hc & -> & Hcyc).
      cbn [fo_safety with_fcontrol] in *.
      assert (Hkeep : fo_control (safety_side now s3) = fo_control s3 /\ fo_buffer (safety_side now s3) = fo_buffer s3 /\
                      fo_limiter (safety_side now s3) = fo_limiter s3).
      { unfold safety_side. destruct (tsb_get_latest (fo_buffer s3)); by split_and!. }
      destruct Hkeep as (K1 & K2 & K3). rewrite K1, Hcc in Hc. rewrite K2, Hbb, K3 in Hcyc.
      pose proof (side_cycle_output _ _ _ _ _ _ _ _ _ Hcyc) as (O1 & O2 & O3). split_and!; try done.
      - intros Hh. destruct (O3 Hh) as (cmds & -> & Hu). by exists c, c', cmds.
      - intros Ht Hn p Hp. rewrite Hp in Hcyc. unfold side_cycle in Hcyc.
        destruct (sm_state _); try done; rewrite bind_ok in Hcyc; destruct Hcyc as (b & Hb & Hcyc);
          apply run_unilateral_ok in Hcyc as (cmds & -> & Hu); exists c, b, c', cmds;
          cbn [fo_limiter fo_control with_fcontrol]; rewrite ?K3; by split_and!. }
    intros s s' out m [(-> & -> & -> & ->)|(-> & -> & -> & ->)]; by eapply Hside.
Qed.

(** C24: What a cycle sends to each arm. In mock mode and during an initial or
    recovery move it sends nothing. Otherwise, by the safety state after this
    cycle's update: the motors are switched off exactly in ESTOP, FAULT and
    DISABLED, nothing is sent exactly while waiting for the enable flag, in HOLD
    the unchanged references are commanded again, and in the remaining states
    the newest packet is tracked. A pose move started by [goto_pose] does not
    suspend any of this. *)
Theorem follower_cycle_outputs (env : FollowerEnv) (tanh : double -> double) (i : FollowerInput)
    (a a' : FollowerApp) (o : FollowerOutput) :
  follower_cycle env tanh i a = Ok (a', o) ->
  (fe_mock env = true \/ fa_init_in_progress a' = true \/ fa_recover_in_progress a' = true ->
   fx_right o = ArmNothing /\ fx_left o = ArmNothing) /\
  (fe_mock env = false -> fa_init_in_progress a' = false -> fa_recover_in_progress a' = false ->
   forall s s' out m,
     (s = fa_right a /\ s' = fa_right a' /\ out = fx_right o /\ m = fi_motors_r i \/
      s = fa_left a /\ s' = fa_left a' /\ out = fx_left o /\ m = fi_motors_l i) ->
     (out = ArmDisable <-> disabling (sm_state (fo_safety s')) = true) /\
     (out = ArmNothing <-> sm_state (fo_safety s') = WAITING_FOR_ENABLE) /\
     (sm_state (fo_safety s') = HOLD -> exists c c' cmds, fo_control s = Some c /\ fo_control s' = Some c' /\
        out = ArmCommands cmds /\ unilateral_step tanh m c = (c', Ok cmds)) /\
     (tracking (sm_state (fo_safety s')) = true -> sm_state (fo_safety s') <> HOLD ->
      forall p, tsb_get_latest (fo_buffer s) = Some p ->
      exists c c' c'' cmds, fo_control s = Some c /\ fo_control s' = Some c'' /\
        track_packet env (fo_limiter s') p c = Ok c' /\ out = ArmCommands cmds /\
        unilateral_step tanh m c' = (c'', Ok cmds))).
Proof. apply cycle_outputs. Qed.

Lemma follower_cycle_outputs_witness :
  exists a' o, follower_cycle test_fenv id (test_finput 2000) (test_fapp false []) = Ok (a', o) /\
    fx_right o = ArmNothing.
Proof.
  assert (H : exists a' o, follower_cycle test_fenv id (test_finput 2000) (test_fapp false []) = Ok (a', o)).
  { do 2 eexists. vm_compute. reflexivity. }
  destruct H as (a' & o & H). exists a', o. split; [exact H|].
  assert (Hs : sm_state (fo_safety (fa_right a')) = WAITING_FOR_ENABLE /\ fa_init_in_progress a' = false /\
               fa_recover_in_progress a' = false).
  { vm_compute in H. injection H as <- _. repeat split. }
  destruct Hs as (H1 & H2 & H3).
  refine (proj2 (proj1 (proj2 (proj2 (follower_cycle_outputs _ _ _ _ _ _ H) eq_refl H2 H3 _ _ _ _
    (or_introl (conj eq_refl (conj eq_refl (conj eq_refl eq_refl))))))) H1).
Defined.

(** ** The ESTOP during a move *)

(** A cycle that serves no request starts and ends no move. *)
Lemma follower_cycle_moves env tanh i a a' o :
  fa_recover_requested a = false -> fa_init_requested a = false -> fa_goto_requested a = false ->
  follower_cycle env tanh i a = Ok (a', o) -> fa_moves a' = fa_moves a.
Proof.
  intros H1 H2 H3. unfold follower_cycle, serve_recover. rewrite H1. unfold serve_finit. rewrite H2.
  unfold serve_fgoto. rewrite H3. intros H.
  rewrite bind_ok in H. destruct H as ([[a4 o_r] o_l] & E4 & H).
  rewrite bind_ok in H. destruct H as ([a5 fbp] & E5 & H). rewrite bind_ok in H. destruct H as ([a6 tel] & E6 & [= <- _]).
  apply serve_arms_inv in E4 as (_ & _ & _ & _ & _ & M4 & _). rewrite <- M4. transitivity (fa_moves a5).
  - by apply serve_ftelemetry_inv in E6 as (pub & next & ->).
  - unfold serve_feedback in E5. destruct (fs_enabled _); [|by injection E5 as <- _].
    rewrite bind_ok in E5. destruct E5 as (b & Eb & [= <- _]). by apply recheck_link_inv in Eb as (link & ok & next & ->).
Qed.

(** An ESTOP during an initial move is lost. While the move started by
    [init_position] is in progress, an [estop] command neither switches the
    motors off (the next cycle sends nothing) nor survives the move: when the
    move ends, both safety managers are reset, and no software ESTOP is pending
    any more. *)
Lemma estop_during_move_lost (env : FollowerEnv) (tanh : double -> double) (a a' : FollowerApp)
    (i : FollowerInput) (k : nat) (rr rl : nat -> Motors) (os : list FollowerOutput) :
  has_arms env a = true -> fa_keep_running a = true -> fa_init_requested a = false ->
  fa_recover_requested a = false -> fa_init_in_progress a = true -> fa_goto_requested a = false ->
  fa_moves a !! k = Some MoveInit ->
  follower_run env tanh a [FvCommand "estop"; FvCycle i; FvMoveDone k rr rl] = Ok (a', os) ->
  (exists o, os = [o] /\ fx_right o = ArmNothing /\ fx_left o = ArmNothing) /\
  fa_init_in_progress a' = false /\
  forall s, s = fa_right a' \/ s = fa_left a' ->
    sm_estop_triggered (fo_safety s) = false /\ sm_state (fo_safety s) = initial_state (sm_config (fo_safety s)) /\
    sm_state (fo_safety s) <> ESTOP.
Proof.
  intros Hh Hrun Hir Hrr Hip Hgr Hk H. cbn [follower_run follower_event] in H.
  set (b := (handle_command (follower_handlers env) "estop" a).1) in *.
  assert (Hb : b = both_safety safety_trigger_estop a) by done. clearbody b. cbn [mbind outcome_bind] in H.
  replace (fa_keep_running b) with true in H by (by subst b).
  rewrite bind_ok in H. destruct H as ([c os1] & Hc & H).
  rewrite bind_ok in Hc. destruct Hc as ([d o] & Hd & Hc).
  rewrite bind_ok in Hd. destruct Hd as ([d' o'] & Hd & [= <- <-]).
  rewrite bind_ok in Hc. destruct Hc as ([e os2] & He & [= <- <-]). injection H as <- <-.
  rewrite bind_ok in He. destruct He as ([f o2] & Hf & [= <- <-]).
  pose proof Hd as Hcyc. apply follower_cycle_inv in Hd as (a1 & a2 & a3 & a4 & m1 & m2 & m3 & E1 & E2 & E3 & E4 & Hm & _).
  assert (Ht : a3 = b).
  { unfold serve_recover in E1. replace (fa_recover_requested b) with false in E1 by (by subst b). injection E1 as <- _.
    unfold serve_finit in E2. replace (fa_init_requested b) with false in E2 by (by subst b). injection E2 as <- _.
    unfold serve_fgoto in E3. replace (fa_goto_requested b) with false in E3 by (by subst b). by injection E3 as <- _. }
  subst a3. apply serve_arms_inv in E4 as (_ & _ & _ & _ & _ & M4 & _ & _ & Hpause & _).
  assert (Hpaused : paused env b = true) by (subst b; unfold paused; cbn; rewrite Hip; by rewrite orb_true_r).
  destruct (Hpause Hpaused) as (O1 & O2 & _).
  assert (Hmoves : fa_moves d' !! k = Some MoveInit).
  { replace (fa_moves d') with (fa_moves b); [by subst b|]. symmetry. by eapply (follower_cycle_moves env tanh i); [subst b..|exact Hcyc]. }
  rewrite Hmoves in Hf. rewrite bind_ok in Hf. destruct Hf as ([[g s1] s2] & Hg & [= <- <-]).
  apply finish_move_inv in Hg as (G1 & G2 & G3 & _).
  assert (Hi : forall x, initial_state x <> ESTOP) by (intros x; unfold initial_state; by destruct (require_enable x)).
  split; [by exists o'|]. split; [by apply G3|]. intros s [->| ->]; (rewrite G1 || rewrite G2); (split; [done|]); (split; [done|]); apply Hi.
Qed.

Lemma estop_during_move_lost_witness :
  exists a' os,
    follower_run test_fenv id (test_fapp true [MoveInit])
      [FvCommand "estop"; FvCycle (test_finput 5); FvMoveDone 0 (fun _ => test_motors) (fun _ => test_motors)] = Ok (a', os) /\
    fa_init_in_progress a' = false.
Proof.
  assert (H : exists a' os, follower_run test_fenv id (test_fapp true [MoveInit])
    [FvCommand "estop"; FvCycle (test_finput 5); FvMoveDone 0 (fun _ => test_motors) (fun _ => test_motors)] = Ok (a', os)).
  { do 2 eexists. vm_compute. reflexivity. }
  destruct H as (a' & os & H). exists a', os. split; [exact H|].
  refine (proj1 (proj2 (estop_during_move_lost test_fenv id (test_fapp true [MoveInit]) a' (test_finput 5) 0 _ _ os
    _ _ _ _ _ _ _ H))); reflexivity.
Defined.

(** ** Feedback packets *)

(** The feedback phase comes after the arms' phase and sees its states. *)
Lemma follower_cycle_feedback env tanh i a a' o :
  follower_cycle env tanh i a = Ok (a', o) -> fs_enabled (fe_fb env) = true ->
  fa_fb_seq a' = u32 (fa_fb_seq a + 1) /\
  exists b, has_arms env b = has_arms env a' /\ fa_right b = fa_right a' /\ fa_left b = fa_left a' /\
    fx_feedback o =
      Some (side_feedback env RIGHT (fi_hold_r i) (fi_sys_r i) (fa_fb_seq a) (fa_fb_link_ok a') b (fa_right a'),
            side_feedback env LEFT (fi_hold_l i) (fi_sys_l i) (fa_fb_seq a) (fa_fb_link_ok a') b (fa_left a')).
Proof.
  unfold follower_cycle. intros H Hen. destruct (serve_recover env a) as [a1 m1] eqn:E1.
  destruct (serve_finit env a1) as [a2 m2] eqn:E2. destruct (serve_fgoto env a2) as [a3 m3] eqn:E3.
  rewrite bind_ok in H. destruct H as ([[a4 o_r] o_l] & E4 & H).
  rewrite bind_ok in H. destruct H as ([a5 fbp] & E5 & H).
  rewrite bind_ok in H. destruct H as ([a6 tel] & E6 & [= <- <-]).
  assert (S1 : fa_fb_seq a1 = fa_fb_seq a).
  { unfold serve_recover in E1. cbv zeta in E1. destruct (fa_recover_requested a); [|by injection E1 as <- _].
    destruct (has_arms env _); by injection E1 as <- _. }
  assert (S2 : fa_fb_seq a2 = fa_fb_seq a1).
  { unfold serve_finit in E2. cbv zeta in E2. destruct (fa_init_requested a1); [|by injection E2 as <- _].
    destruct (has_arms env _); by injection E2 as <- _. }
  assert (S3 : fa_fb_seq a3 = fa_fb_seq a2).
  { unfold serve_fgoto in E3. cbv zeta in E3. destruct (fa_goto_requested a2); [|by injection E3 as <- _].
    destruct (if has_arms env _ then _ else _); by injection E3 as <- _. }
  assert (S4 : fa_fb_seq a4 = fa_fb_seq a3).
  { unfold serve_arms in E4. cbv zeta in E4. destruct (negb _ && _ && _); [|by injection E4 as <- _ _].
    rewrite bind_ok in E4. destruct E4 as ([r o1] & _ & E4). rewrite bind_ok in E4.
    by destruct E4 as ([l o2] & _ & [= <- _ _]). }
  assert (S6 : fa_fb_seq a6 = fa_fb_seq a5 /\ fa_fb_link_ok a6 = fa_fb_link_ok a5 /\ fa_right a6 = fa_right a5 /\
               fa_left a6 = fa_left a5).
  { by apply serve_ftelemetry_inv in E6 as (pub & next & ->). }
  unfold serve_feedback in E5. rewrite Hen in E5. rewrite bind_ok in E5. destruct E5 as (b & Eb & [= <- <-]).
  assert (Hb : fa_fb_seq b = fa_fb_seq a4).
  { by apply recheck_link_inv in Eb as (link & ok & next & ->). }
  cbn in S6. destruct S6 as (S6 & L6 & R6 & F6).
  split; [cbn; rewrite S6; congruence|]. exists b. cbn [fx_feedback].
  rewrite L6, R6, F6. replace (fa_fb_seq b) with (fa_fb_seq a) by congruence.
  split; [unfold has_arms; by rewrite R6, F6|]. by split_and!.
Qed.

Lemma fill_feedback_shaped side mode st ok cmd t now arm hand :
  shaped (fill_feedback side mode st ok cmd t now arm hand).
Proof. unfold fill_feedback. cbv zeta. split_and!; cbn; apply length_pad. Qed.

(** Members of one arm's packet. *)
Lemma side_feedback_spec env side hold sys seq ok a s :
  let p := side_feedback env side hold sys seq ok a s in
  let st := sm_state (fo_safety s) in
  feedback_decode_and_validate p = (true, p) /\ fp_seq p = seq /\ fp_arm_side p = arm_side_u8 side /\
  (fp_enabled p <> 0 <-> st = ACTIVE) /\ (fp_estop p <> 0 <-> st = ESTOP) /\ fp_safety_state p = safety_state_u8 st /\
  (fp_link_ok p <> 0 <-> ok = true) /\ 0 <= fp_arm_dof p <= 8 /\ 0 <= fp_hand_dof p <= 4 /\
  (forall t, tsb_get_latest (fo_buffer s) = Some t ->
     fp_mode p = tp_mode t /\ fp_echo_cmd_seq p = tp_seq t /\ fp_echo_cmd_send_time_ns p = tp_send_time_ns t) /\
  (forall c, has_arms env a = true -> fo_control s = Some c ->
     let arm := rs_response (arm_state (ct_robot_state c)) in
     (length arm <= 8)%nat ->
     fp_arm_dof p = Z.of_nat (length arm) /\
     fp_arm_pos p = pad 8 (map (fun j => bits_of_double (js_position j)) arm) /\
     fp_arm_vel p = pad 8 (map (fun j => bits_of_double (js_velocity j)) arm) /\
     fp_arm_tau p = pad 8 (map (fun j => bits_of_double (js_effort j)) arm)).
Proof.
  cbv zeta. unfold side_feedback, feedback_packet. destruct (reported env a s) as [arm hand] eqn:Erep.
  set (q := mkFeedbackPacket _ _ _ seq _ _ _ _ _ _ _ _ _ _ _ _ _ _ _ _ _ _ _).
  assert (Sq : shaped q) by exact (fill_feedback_shaped side _ (sm_state (fo_safety s)) ok _ _ hold arm hand).
  pose proof (feedback_encode_accepts sys q Sq) as Hacc.
  assert (Se : shaped (feedback_encode sys q)) by exact Sq.
  destruct (feedback_decode_spec _ Se) as [D2 D1]. apply D1 in Hacc.
  split; [by destruct (feedback_decode_and_validate _); simpl in *; subst|].
  split; [done|]. split; [done|].
  split; [cbn; by case_decide|]. split; [cbn; by case_decide|]. split; [done|].
  split; [cbn; by destruct ok|]. split; [cbn; lia|]. split; [cbn; lia|]. split.
  - intros t Ht. cbn. by rewrite Ht.
  - intros c Ha Hc Hlen. unfold reported in Erep. rewrite Ha, Hc in Erep. injection Erep as <- <-.
    cbn. rewrite Nat.min_l by done. by rewrite !take_ge by done.
Qed.

(** The follower's feedback packets. With feedback enabled, every cycle sends one
    packet per arm, with consecutive numbers; the receiver's validation accepts
    it; its degrees of freedom are within the arrays; its flags tell exactly
    whether the arm is in ACTIVE or ESTOP and whether the link check passed; it
    echoes the newest command's number, mode and time stamp; and with real arms
    it carries the measured joint states. *)
Lemma follower_feedback_packets (env : FollowerEnv) (tanh : double -> double) (i : FollowerInput)
    (a a' : FollowerApp) (o : FollowerOutput) :
  follower_cycle env tanh i a = Ok (a', o) -> fs_enabled (fe_fb env) = true ->
  fa_fb_seq a' = u32 (fa_fb_seq a + 1) /\
  exists pr pl, fx_feedback o = Some (pr, pl) /\
    forall side s p, (side = RIGHT /\ s = fa_right a' /\ p = pr \/ side = LEFT /\ s = fa_left a' /\ p = pl) ->
      let st := sm_state (fo_safety s) in
      feedback_decode_and_validate p = (true, p) /\ fp_seq p = fa_fb_seq a /\ fp_arm_side p = arm_side_u8 side /\
      (fp_enabled p <> 0 <-> st = ACTIVE) /\ (fp_estop p <> 0 <-> st = ESTOP) /\
      fp_safety_state p = safety_state_u8 st /\ (fp_link_ok p <> 0 <-> fa_fb_link_ok a' = true) /\
      0 <= fp_arm_dof p <= 8 /\ 0 <= fp_hand_dof p <= 4 /\
      (forall t, tsb_get_latest (fo_buffer s) = Some t ->
         fp_mode p = tp_mode t /\ fp_echo_cmd_seq p = tp_seq t /\ fp_echo_cmd_send_time_ns p = tp_send_time_ns t) /\
      (forall c, has_arms env a' = true -> fo_control s = Some c ->
         let arm := rs_response (arm_state (ct_robot_state c)) in
         (length arm <= 8)%nat ->
         fp_arm_dof p = Z.of_nat (length arm) /\
         fp_arm_pos p = pad 8 (map (fun j => bits_of_double (js_position j)) arm) /\
         fp_arm_vel p = pad 8 (map (fun j => bits_of_double (js_velocity j)) arm) /\
         fp_arm_tau p = pad 8 (map (fun j => bits_of_double (js_effort j)) arm)).
Proof.
  intros H Hen. destruct (follower_cycle_feedback _ _ _ _ _ _ H Hen) as (Hs & b & Hb & Hr & Hl & Ho).
  split; [done|]. eexists _, _. split; [exact Ho|]. rewrite <- Hb.
  intros side s p [(-> & -> & ->)|(-> & -> & ->)]; apply side_feedback_spec.
Qed.

Lemma follower_feedback_packets_witness :
  exists a' o p, follower_cycle test_fenv id (test_finput 2000) (test_fapp false []) = Ok (a', o) /\
    option_map fst (fx_feedback o) = Some p /\ fp_arm_dof p = 7 /\ fp_enabled p = 0.
Proof.
  assert (H : exists a' o, follower_cycle test_fenv id (test_finput 2000) (test_fapp false []) = Ok (a', o)).
  { do 2 eexists. vm_compute. reflexivity. }
  destruct H as (a' & o & H).
  assert (Hs : exists c, fo_control (fa_right a') = Some c /\ has_arms test_fenv a' = true /\
    length (rs_response (arm_state (ct_robot_state c))) = 7%nat /\ sm_state (fo_safety (fa_right a')) = WAITING_FOR_ENABLE).
  { vm_compute in H. injection H as <- _. eexists. repeat split. }
  destruct Hs as (c & Hc & Ha & Hl & Hst).
  destruct (follower_feedback_packets _ _ _ _ _ _ H eq_refl) as (_ & pr & pl & Ho & Hp).
  exists a', o, pr. split; [exact H|]. split; [by rewrite Ho|].
  destruct (Hp RIGHT (fa_right a') pr (or_introl (conj eq_refl (conj eq_refl eq_refl))))
    as (_ & _ & _ & He & _ & _ & _ & _ & _ & _ & Hd).
  destruct (Hd c Ha Hc) as (Hdof & _); [rewrite Hl; lia|]. split; [by rewrite Hdof, Hl|].
  destruct (decide (fp_enabled pr = 0)) as [E|E]; [exact E|]. apply He in E. by rewrite Hst in E.
Defined.

(** ** Tracking *)

Lemma words_ok n ws l :
  for_n n (fun i => w ← vget ws i; Ok (double_of_bits w)) = Ok l ->
  length l = n /\ forall i t, l !! i = Some t -> exists w, ws !! i = Some w /\ t = double_of_bits w.
Proof.
  intros H. apply for_n_ok in H as [Hl Hf]. split; [done|]. intros i t Ht. specialize (Hf i t Ht).
  rewrite bind_ok in Hf. destruct Hf as (w & Hw & [= <-]). exists w. split; [by apply vget_ok|done].
Qed.

Lemma limited_targets_ok rl p arm hand tar :
  limited_targets rl p arm hand = Ok tar ->
  exists ta th, length ta = Z.to_nat (tp_arm_dof p) /\ length th = Z.to_nat (tp_hand_dof p) /\
    (forall i t, ta !! i = Some t -> exists w, tp_arm_pos p !! i = Some w /\ t = double_of_bits w) /\
    (forall i t, th !! i = Some t -> exists w, tp_hand_pos p !! i = Some w /\ t = double_of_bits w) /\
    tar = limit rl (map js_position arm ++ map js_position hand) (ta ++ th).
Proof.
  unfold limited_targets. cbv zeta. intros H. rewrite bind_ok in H. destruct H as (ta & Ha & H).
  rewrite bind_ok in H. destruct H as (th & Hh & [= <-]).
  apply words_ok in Ha as [La Wa], Hh as [Lh Wh]. by exists ta, th.
Qed.

Lemma write_refs_ok tar vel off refs l :
  write_refs tar vel off refs = Ok l ->
  length l = length refs /\
  forall i r', l !! i = Some r' -> exists r, refs !! i = Some r /\
    match tar !! (i + off)%nat with
    | Some t => exists w, vel !! i = Some w /\ r' = mkJointState t (double_of_bits w) (js_effort r)
    | None => r' = r
    end.
Proof.
  intros H. apply for_n_ok in H as [Hl Hf]. split; [done|]. intros i r' Hr'. specialize (Hf i r' Hr').
  rewrite bind_ok in Hf. destruct Hf as (r & Hr & Hf). apply vget_ok in Hr. exists r. split; [done|].
  destruct (tar !! (i + off)%nat) as [t|]; [|by injection Hf as <-].
  rewrite bind_ok in Hf. destruct Hf as (w & Hw & [= <-]). exists w. split; [by apply vget_ok|done].
Qed.

(** The arm references after tracking a packet. *)
Lemma track_packet_ok env rl p c c' :
  track_packet env rl p c = Ok c' ->
  let refs := rs_reference (arm_state (ct_robot_state c)) in
  let hrefs := rs_reference (hand_state (ct_robot_state c)) in
  exists tar, limited_targets rl p refs hrefs = Ok tar /\
    write_refs tar (tp_arm_vel p) 0 refs = Ok (rs_reference (arm_state (ct_robot_state c'))) /\
    write_refs tar (tp_hand_vel p) (length refs) hrefs = Ok (rs_reference (hand_state (ct_robot_state c'))) /\
    ct_role c' = ct_role c.
Proof.
  unfold track_packet. cbv zeta. intros H. rewrite bind_ok in H. destruct H as (tar & Ht & H).
  rewrite bind_ok in H. destruct H as (a' & Ha & H). rewrite bind_ok in H. destruct H as (h' & Hh & [= <-]).
  exists tar. by split_and!.
Qed.

(** The commands after tracking a packet come from the limited targets. *)
Lemma tracked_commands env tanh p m rl c b c' arm hand :
  ct_role c = ROLE_FOLLOWER -> track_packet env rl p c = Ok b -> unilateral_step tanh m b = (c', Ok (arm, hand)) ->
  let refs := rs_reference (arm_state (ct_robot_state c)) in
  let hrefs := rs_reference (hand_state (ct_robot_state c)) in
  exists ta th, length ta = Z.to_nat (tp_arm_dof p) /\ length th = Z.to_nat (tp_hand_dof p) /\
    (forall i t, ta !! i = Some t -> exists w, tp_arm_pos p !! i = Some w /\ t = double_of_bits w) /\
    length arm = length refs /\
    let tar := limit rl (map js_position refs ++ map js_position hrefs) (ta ++ th) in
    forall i q, arm !! i = Some q -> exists r, refs !! i = Some r /\
      match tar !! i with
      | Some t => q_ref q = t /\ exists w, tp_arm_vel p !! i = Some w /\ dq_ref q = double_of_bits w
      | None => q_ref q = js_position r /\ dq_ref q = js_velocity r
      end.
Proof.
  intros Hrole Hb Hu. cbv zeta. apply track_packet_ok in Hb as (tar & Htar & Ha & _ & Hrb). rewrite Hrole in Hrb.
  apply limited_targets_ok in Htar as (ta & th & La & Lh & Wa & _ & ->). apply write_refs_ok in Ha as [Lra Hra].
  destruct (unilateral_follower tanh m b c' arm hand Hrb Hu) as (_ & _ & _ & L1 & _ & H1 & _).
  exists ta, th. split_and!; try done; [congruence|].
  intros i q Hq. destruct (H1 i q Hq) as (r' & Hr' & _ & _ & Hp & Hv & _).
  destruct (Hra i r' Hr') as (r & Hr & Hm). exists r. split; [done|]. rewrite Nat.add_0_r in Hm.
  destruct (limit _ _ _ !! i) as [t|]; [|subst r'; done].
  destruct Hm as (w & Hw & ->). split; [done|]. by exists w.
Qed.

(** With matching degrees of freedom, every arm joint gets its limited target;
    otherwise the packet's targets get through. *)
Lemma tracked_arm env tanh p m rl c b c' arm hand :
  ct_role c = ROLE_FOLLOWER -> track_packet env rl p c = Ok b -> unilateral_step tanh m b = (c', Ok (arm, hand)) ->
  let refs := rs_reference (arm_state (ct_robot_state c)) in
  let hrefs := rs_reference (hand_state (ct_robot_state c)) in
  length arm = length refs /\
  (Z.to_nat (tp_arm_dof p) = length refs -> Z.to_nat (tp_hand_dof p) = length hrefs ->
   forall i q r w, arm !! i = Some q -> refs !! i = Some r -> tp_arm_pos p !! i = Some w ->
     q_ref q = limit_joint (effective_max_delta rl) (js_position r) (double_of_bits w) /\
     exists v, tp_arm_vel p !! i = Some v /\ dq_ref q = double_of_bits v) /\
  (Z.to_nat (tp_arm_dof p) + Z.to_nat (tp_hand_dof p) <> length refs + length hrefs ->
   forall i q w, (i < Z.to_nat (tp_arm_dof p))%nat -> arm !! i = Some q -> tp_arm_pos p !! i = Some w ->
     q_ref q = double_of_bits w)%nat.
Proof.
  intros Hrole Hb Hu. cbv zeta.
  destruct (tracked_commands _ _ _ _ _ _ _ _ _ _ Hrole Hb Hu) as (ta & th & La & Lh & Wa & L1 & Hc).
  set (refs := rs_reference (arm_state (ct_robot_state c))) in *.
  set (hrefs := rs_reference (hand_state (ct_robot_state c))) in *.
  split; [done|]. split.
  - intros Da Dh i q r w Hq Hr Hw. destruct (Hc i q Hq) as (r2 & Hr2 & Hm). rewrite Hr in Hr2. injection Hr2 as <-.
    unfold limit in Hm. rewrite decide_True in Hm by (rewrite !length_app, !length_map; lia).
    pose proof (lookup_lt_Some _ _ _ Hr) as Hi. destruct (lookup_lt_is_Some_2 ta i) as [t Hti]; [lia|].
    destruct (Wa i t Hti) as (w2 & Hw2 & ->). rewrite Hw in Hw2. injection Hw2 as <-.
    assert (Hcur : (map js_position refs ++ map js_position hrefs) !! i = Some (js_position r)).
    { rewrite lookup_app_l by (rewrite length_map; lia). by rewrite list_lookup_fmap, Hr. }
    rewrite lookup_zip_with, Hcur, lookup_app_l, Hti in Hm by lia. exact Hm.
  - intros Hd i q w Hi Hq Hw. destruct (Hc i q Hq) as (r & Hr & Hm).
    unfold limit in Hm. rewrite decide_False in Hm by (rewrite !length_app, !length_map; lia).
    destruct (lookup_lt_is_Some_2 ta i) as [t Hti]; [lia|]. rewrite lookup_app_l, Hti in Hm by lia.
    destruct (Wa i t Hti) as (w2 & Hw2 & ->). rewrite Hw in Hw2. injection Hw2 as <-. apply Hm.
Qed.

(** The follower's rate limit. While tracking a packet whose degrees of freedom
    match the arm's, with finite targets and references, every arm joint is
    commanded a finite position between its previous reference and the packet's
    target, which is the target itself or one limited step away from the
    reference, with the packet's velocity. If the total of the degrees of freedom
    does not match, the packet's positions are commanded unlimited. *)
Lemma follower_tracks_limited (env : FollowerEnv) (tanh : double -> double) (st : SafetyState) (p : TeleopPacket)
    (m : Motors) (rl : RateLimiter) (c c' : Control) (arm hand : list MITParam) :
  tracking st = true -> st <> HOLD -> ct_role c = ROLE_FOLLOWER ->
  side_cycle env tanh st (Some p) m rl c = Ok (c', ArmCommands (arm, hand)) ->
  let refs := rs_reference (arm_state (ct_robot_state c)) in
  let hrefs := rs_reference (hand_state (ct_robot_state c)) in
  let eff := effective_max_delta rl in
  length arm = length refs /\
  (Z.to_nat (tp_arm_dof p) = length refs -> Z.to_nat (tp_hand_dof p) = length hrefs -> fnn eff ->
   Forall Safety.fin (map js_position refs) -> 
   forall i q r w, arm !! i = Some q -> refs !! i = Some r -> tp_arm_pos p !! i = Some w ->
     let t := double_of_bits w in isfinite t = true ->
     Safety.fin (q_ref q) /\ Safety.between (js_position r) (q_ref q) t /\
     (q_ref q = t \/ q_ref q = (js_position r + eff)%D \/ q_ref q = (js_position r - eff)%D) /\
     exists v, tp_arm_vel p !! i = Some v /\ dq_ref q = double_of_bits v) /\
  (Z.to_nat (tp_arm_dof p) + Z.to_nat (tp_hand_dof p) <> length refs + length hrefs ->
   forall i q w, (i < Z.to_nat (tp_arm_dof p))%nat -> arm !! i = Some q -> tp_arm_pos p !! i = Some w ->
     q_ref q = double_of_bits w)%nat.
Proof.
  intros Ht Hn Hrole H. cbv zeta.
  assert (Hc : exists b, track_packet env rl p c = Ok b /\ unilateral_step tanh m b = (c', Ok (arm, hand))).
  { unfold side_cycle in H. destruct st; try done; rewrite bind_ok in H; destruct H as (b & Hb & H);
      apply run_unilateral_ok in H as (cmds & [= <-] & Hu); by exists b. }
  destruct Hc as (b & Hb & Hu).
  destruct (tracked_arm _ _ _ _ _ _ _ _ _ _ Hrole Hb Hu) as (L1 & Hc & Hmis).
  split; [done|]. split; [|done].
  intros Da Dh He Fr i q r w Hq Hr Hw Ft. destruct (Hc Da Dh i q r w Hq Hr Hw) as [Hqr Hv].
  destruct (limit_joint_spec (effective_max_delta rl) (js_position r) (double_of_bits w)) as (F1 & F2 & F3); [done| | |].
  - rewrite Forall_lookup in Fr. apply (Fr i). rewrite list_lookup_fmap, Hr. done.
  - split; [apply double_of_bits_valid|done].
  - rewrite Hqr. split; [exact F1|]. split; [exact F2|]. split; [|exact Hv].
    destruct F3 as [[-> _]|[[-> _]|[-> _]]]; [by left|by right; left|by right; right].
Qed.

(** The bilateral packet for the arm of [test_follower]: seven joints, one gripper. *)
Lemma follower_tracks_limited_witness :
  exists c' arm hand,
    side_cycle test_fenv id ACTIVE (Some (test_packet 1)) test_motors
      (fo_limiter test_fside) test_follower = Ok (c', ArmCommands (arm, hand)) /\
    length arm = 7%nat /\ exists q, arm !! 0%nat = Some q /\ Safety.between d0 (q_ref q) d1.
Proof.
  assert (H : exists c' arm hand, side_cycle test_fenv id ACTIVE (Some (test_packet 1)) test_motors
      (fo_limiter test_fside) test_follower = Ok (c', ArmCommands (arm, hand))).
  { do 3 eexists. vm_compute. reflexivity. }
  destruct H as (c' & arm & hand & H). exists c', arm, hand. split; [exact H|].
  destruct (follower_tracks_limited test_fenv id ACTIVE (test_packet 1) test_motors (fo_limiter test_fside)
    test_follower c' arm hand eq_refl ltac:(discriminate) eq_refl H) as (Hl & Ht & _).
  assert (Ha : exists q, arm !! 0%nat = Some q).
  { vm_compute in H. injection H as _ <- _. eexists. reflexivity. }
  destruct Ha as [q Hq]. split; [exact Hl|]. exists q. split; [exact Hq|].
  refine (proj1 (proj2 (Ht eq_refl eq_refl _ _ 0%nat q joint_zero (bits_of_double d1) Hq eq_refl eq_refl _))).
  - vm_compute. repeat split.
  - repeat constructor.
  - vm_compute. reflexivity.
Defined.
