(* ===== verification/FollowerThreads.v ===== *)
(** * FollowerThreads: the follower's threads, access by access

    [src/src/apps/wifi_bimanual_follower.cpp] again, at the granularity of its
    shared accesses. [FollowerApp] takes an iteration of the main loop, a handler
    or a pose move as one step; here each of them is a program whose steps are the
    single critical sections and atomic accesses, in the order of the source, so
    that the main loop, the control server, the receivers, the signal handler and
    the detached pose moves can interleave between any two of them. Variables that
    only the main loop writes (the link check, the packet counter, the telemetry
    schedule) are accessed in one step. *)

From S2P Require Import Prelude Float64 Crc32 Wire Packets PacketCodec TeleopStateBuffer Safety LinkCheck.
From S2P Require Import RuntimeControl Udp Dynamics RobotState Control NumParse AppCommon FollowerApp Threads.
From stdpp Require Import gmap.

Open Scope Z_scope.

(** ** Labels *)

Inductive MoveKind := KRecover | KInit | KGoto.

Definition move_kind (mv : Move) : MoveKind :=
  match mv with MoveRecover => KRecover | MoveInit => KInit | MoveGoto _ => KGoto end.

#[export] Instance MoveKind_eq_dec : EqDecision MoveKind.
Proof. solve_decision. Defined.

(** What the threads do to the outside, and the writes to the safety managers
    that do not come from packets. *)
Inductive FLabel :=
| LEnable (side : ArmSide)                       (* enable_all *)
| LServe (k : MoveKind)                          (* a request is taken up *)
| LStart (mv : Move)                             (* the pose move's thread is started *)
| LFinish (k : MoveKind)                         (* the request is complete *)
| LReset (side : ArmSide)
| LTrigger (side : ArmSide)
| LArm (side : ArmSide) (o : ArmOutput)          (* sent by the control loop *)
| LMove (side : ArmSide) (c : Commands)          (* sent by a pose move *)
| LFeedback (r l : FeedbackPacket)
| LTelemetry (d : list Z)
| LReply (s : string).                           (* answer of the control server *)

Abbreviation FProg := (Prog FollowerApp FLabel).
Abbreviation FThread := (Thread FollowerApp FLabel).

(** ** Single accesses *)

Definition safety_state_of (side : ArmSide) : FProg SafetyState :=
  load (fun a => sm_state (fo_safety (follower_side side a))).

Definition reset_side (side : ArmSide) : FProg unit :=
  Act (fun a => Ok (upd_side side (with_safety safety_reset) a, [LReset side], tt)) Done.

Definition trigger_side (side : ArmSide) : FProg unit :=
  Act (fun a => Ok (upd_side side (with_safety safety_trigger_estop) a, [LTrigger side], tt)) Done.

(** A step on an arm's controller, which must be there. *)
Definition on_control {B} (side : ArmSide) (f : Control -> outcome (Control * B)) : FProg B :=
  Act (fun a =>
         c ← deref (fo_control (follower_side side a));
         '(c', b) ← f c;
         Ok (upd_side side (with_fcontrol (Some c')) a, [], b)) Done.

Definition read_control {B} (side : ArmSide) (f : Control -> B) : FProg B :=
  Act (fun a => c ← deref (fo_control (follower_side side a)); Ok (a, [], f c)) Done.

Definition write_control (side : ArmSide) (f : Control -> Control) : FProg unit :=
  on_control side (fun c => Ok (f c, tt)).

(** An application whose controller on one side is [c]. *)
Definition put (side : ArmSide) (c : Control) (a : FollowerApp) : FollowerApp :=
  upd_side side (with_fcontrol (Some c)) a.

Definition arm_of (c : Control) : RobotState := arm_state (ct_robot_state c).
Definition hand_of (c : Control) : RobotState := hand_state (ct_robot_state c).

Definition start_move (mv : Move) : FProg unit :=
  Act (fun a => Ok (set_moves (fa_moves a ++ [mv]) a, [LStart mv], tt)) Done.

(** The flags [..._in_progress]. *)
Definition set_progress (k : MoveKind) (b : bool) (a : FollowerApp) : FollowerApp :=
  match k with
  | KRecover => set_recover (fa_recover_requested a) b a
  | KInit => set_finit (fa_init_requested a) b a
  | KGoto => set_fgoto (fa_goto_requested a) b (fa_goto_target a) a
  end.

Definition begin_request (k : MoveKind) : FProg unit :=
  Act (fun a => Ok (set_progress k true a, [LServe k], tt)) Done.

Definition finish (k : MoveKind) : FProg unit :=
  Act (fun a => Ok (set_progress k false a, [LFinish k], tt)) Done.

Section follower.
Context (env : FollowerEnv) (tanh : double -> double).
#[local] Abbreviation fb := (fe_fb env).

(** ** The main loop *)

(** [recover_estop_requested.exchange(false)] and what follows. *)
Definition recover_prog : FProg (list Move) :=
  b ← Act (fun a => Ok (set_recover false (fa_recover_in_progress a) a, [], fa_recover_requested a)) Done;
  if (b : bool) then
    _ ← begin_request KRecover;
    real ← load (has_arms env);
    if (real : bool) then
      _ ← output [LEnable RIGHT]; _ ← output [LEnable LEFT];
      _ ← start_move MoveRecover; mret [MoveRecover]
    else
      _ ← reset_side RIGHT; _ ← reset_side LEFT; _ ← finish KRecover; mret []
  else mret [].

Definition init_prog : FProg (list Move) :=
  b ← Act (fun a => Ok (set_finit false (fa_init_in_progress a) a, [], fa_init_requested a)) Done;
  if (b : bool) then
    _ ← begin_request KInit;
    real ← load (has_arms env);
    if (real : bool) then _ ← start_move MoveInit; mret [MoveInit]
    else
      _ ← reset_side RIGHT; _ ← reset_side LEFT; _ ← finish KInit; mret []
  else mret [].

(** The target is copied under its mutex. *)
Definition goto_prog : FProg (list Move) :=
  b ← Act (fun a => Ok (set_fgoto false (fa_goto_in_progress a) (fa_goto_target a) a, [], fa_goto_requested a)) Done;
  if (b : bool) then
    _ ← begin_request KGoto;
    t ← load fa_goto_target;
    real ← load (has_arms env);
    match (if real : bool then split_pose t else None) with
    | Some p => _ ← start_move (MoveGoto p); mret [MoveGoto p]
    | None => _ ← finish KGoto; mret []
    end
  else mret [].

(** The clock is read before the receive time. *)
Definition safety_prog (side : ArmSide) (now : Z) (target : option TeleopPacket) : FProg unit :=
  match target with
  | Some p =>
      last ← load (fun a => tsb_last_receive_time_ns (fo_buffer (follower_side side a)));
      store (upd_side side (with_safety (safety_update p (gap_ms now last))))
  | None => mret tt
  end.

(** The references follow the packet; the limiter is not shared. *)
Definition track_prog (side : ArmSide) (p : TeleopPacket) : FProg unit :=
  arm_refs ← read_control side (fun c => rs_reference (arm_of c));
  hand_refs ← read_control side (fun c => rs_reference (hand_of c));
  rl ← load (fun a => fo_limiter (follower_side side a));
  '(arm', hand') ← compute
    (tar ← limited_targets rl p arm_refs hand_refs;
     arm' ← write_refs tar (tp_arm_vel p) 0 arm_refs;
     hand' ← write_refs tar (tp_hand_vel p) (length arm_refs) hand_refs;
     Ok (arm', hand'));
  _ ← write_control side (on_arm (set_references arm'));
  _ ← write_control side (on_hand (set_references hand'));
  write_control side (SetFollowerGravityFeedforward (fe_gravity_ff env && (tp_mode p =? control_mode_u8 BILATERAL))
                        (fe_gravity_ff_scale env)).

(** [unilateral_step]: the responses are stored, the sizes and the references
    read back. The program gives both controllers the follower's role; the other
    role's cycle is one step here. *)
Definition unilateral_prog (side : ArmSide) (m : Motors) : FProg Commands :=
  let joint_arm := arm_motor_to_joint (arm_motors m) in
  let joint_gripper := gripper_motor_to_joint (gripper_motors m) in
  _ ← write_control side (on_arm (set_responses joint_arm));
  _ ← write_control side (on_hand (set_responses joint_gripper));
  arm_dof ← read_control side (fun c => get_size (arm_of c));
  gripper_dof ← read_control side (fun c => get_size (hand_of c));
  pos ← compute (for_n arm_dof (fun i => s ← vget joint_arm i; Ok (js_position s)));
  _ ← compute (for_n gripper_dof (fun i => vget joint_gripper i));
  role ← read_control side ct_role;
  match role with
  | ROLE_LEADER =>
      on_control side (fun c => let '(c', r) := leader_step tanh None m c in cmds ← r; Ok (c', cmds))
  | ROLE_FOLLOWER =>
      arm_ref ← read_control side (fun c => rs_reference (arm_of c));
      hand_ref ← read_control side (fun c => rs_reference (hand_of c));
      on_control side (fun c =>
        let c0 := on_hand (set_references hand_ref) (on_arm (set_references arm_ref) c) in
        ff ← follower_ff c0 pos arm_dof; cmds ← follower_commands c0 arm_dof ff; Ok (c, cmds))
  end.

Definition send_arm (side : ArmSide) (o : ArmOutput) : FProg ArmOutput :=
  _ ← output [LArm side o]; mret o.

(** One arm, in the safety state read before. *)
Definition side_prog (side : ArmSide) (st : SafetyState) (target : option TeleopPacket) (m : Motors) : FProg ArmOutput :=
  _ ← read_control side (fun _ => tt);
  match st with
  | ACTIVE | READY | WARNING_TIMEOUT =>
      _ ← match target with Some p => track_prog side p | None => mret tt end;
      cmds ← unilateral_prog side m; send_arm side (ArmCommands cmds)
  | HOLD => cmds ← unilateral_prog side m; send_arm side (ArmCommands cmds)
  | ESTOP | FAULT | DISABLED => send_arm side ArmDisable
  | WAITING_FOR_ENABLE => mret ArmNothing
  end.

(** [!mock && !init_position_in_progress && !recover_estop_in_progress]. *)
Definition may_move : FProg bool :=
  if fe_mock env then mret false
  else
    i ← load fa_init_in_progress;
    if (i : bool) then mret false
    else r ← load fa_recover_in_progress; mret (negb r).

Definition arms_prog (i : FollowerInput) (tr tl : option TeleopPacket) (sr sl : SafetyState)
    : FProg (ArmOutput * ArmOutput) :=
  b ← may_move;
  if (b : bool) then
    o_r ← side_prog RIGHT sr tr (fi_motors_r i);
    o_l ← side_prog LEFT sl tl (fi_motors_l i);
    mret (o_r, o_l)
  else mret (ArmNothing, ArmNothing).

Definition read_responses (side : ArmSide) : FProg (list JointState * list JointState) :=
  arm ← read_control side (fun c => rs_response (arm_of c));
  hand ← read_control side (fun c => rs_response (hand_of c));
  mret (arm, hand).

Definition read_references (side : ArmSide) : FProg (list JointState * list JointState) :=
  arm ← read_control side (fun c => rs_reference (arm_of c));
  hand ← read_control side (fun c => rs_reference (hand_of c));
  mret (arm, hand).

(** The feedback packets, with the command and the safety states of this
    iteration and the receive times and joint states of now. *)
Definition feedback_prog (i : FollowerInput) (tr tl : option TeleopPacket) (sr sl : SafetyState)
    : FProg (option (FeedbackPacket * FeedbackPacket)) :=
  if fs_enabled fb then
    _ ← Act (fun a => a' ← recheck_link env i a; Ok (a', [], tt)) Done;
    real ← load (has_arms env);
    '(jr, jl) ←
      (if (real : bool) then jr ← read_responses RIGHT; jl ← read_responses LEFT; mret (jr, jl)
       else mret (echo_command tr, echo_command tl));
    last_r ← load (fun a => tsb_last_receive_time_ns (fo_buffer (fa_right a)));
    last_l ← load (fun a => tsb_last_receive_time_ns (fo_buffer (fa_left a)));
    Act (fun a =>
      let p_r := feedback_packet RIGHT (fi_hold_r i) (fi_sys_r i) (fa_fb_seq a) (fa_fb_link_ok a) tr sr last_r jr in
      let p_l := feedback_packet LEFT (fi_hold_l i) (fi_sys_l i) (fa_fb_seq a) (fa_fb_link_ok a) tl sl last_l jl in
      Ok (set_feedback (fa_fb_link a) (fa_fb_link_ok a) (u32 (fa_fb_seq a + 1)) (fa_next_link_check a) a,
          [LFeedback p_r p_l], Some (p_r, p_l))) Done
  else mret None.

Definition telemetry_prog (i : FollowerInput) (sr sl : SafetyState) : FProg (option (list Z)) :=
  due ← load (fun a => fe_publish_telemetry env && (fa_next_telemetry a <=? fi_now i));
  if (due : bool) then
    both ← load (fun a => bool_decide (is_Some (fo_control (fa_right a)) /\ is_Some (fo_control (fa_left a))));
    rows ←
      (if (both : bool) then
         '(ra, rh) ← read_responses RIGHT; '(la, lh) ← read_responses LEFT;
         '(ra', rh') ← read_references RIGHT; '(la', lh') ← read_references LEFT;
         compute (r ← arm_rows 16 ra rh ra' rh'; l ← arm_rows (16 - length r) la lh la' lh'; Ok (r ++ l))
       else mret []);
    Act (fun a =>
      '(a', d) ← publish_telemetry env (telemetry_packet env i sr sl rows) a;
      Ok (a', match d with Some d => [LTelemetry d] | None => [] end, d)) Done
  else mret None.

(** One iteration. *)
Definition follower_prog (i : FollowerInput) : FProg FollowerOutput :=
  m1 ← recover_prog; m2 ← init_prog; m3 ← goto_prog;
  tr ← load (fun a => tsb_get_latest (fo_buffer (fa_right a)));
  tl ← load (fun a => tsb_get_latest (fo_buffer (fa_left a)));
  _ ← safety_prog RIGHT (fi_now_r i) tr; _ ← safety_prog LEFT (fi_now_l i) tl;
  sr ← safety_state_of RIGHT; sl ← safety_state_of LEFT;
  '(o_r, o_l) ← arms_prog i tr tl sr sl;
  fbp ← feedback_prog i tr tl sr sl;
  tel ← telemetry_prog i sr sl;
  mret (mkFollowerOutput (match m1 with [] => false | _ => true end) (m1 ++ m2 ++ m3) o_r o_l fbp tel).

(** ** The other threads *)

(** [packet_callback_r], [packet_callback_l]: one critical section. *)
Definition packet_prog (side : ArmSide) (now : Z) (p : TeleopPacket) : FProg unit :=
  store (packet_arrives side now p).

Definition signal_prog : FProg unit :=
  _ ← trigger_side RIGHT; _ ← trigger_side LEFT; store (set_running false).

(** The handlers of the control server. *)
Definition status_prog (args : string) : FProg string :=
  sr ← safety_state_of RIGHT; sl ← safety_state_of LEFT;
  ir ← load fa_init_requested; ip ← load fa_init_in_progress; gp ← load fa_goto_in_progress;
  rr ← load fa_recover_requested; rp ← load fa_recover_in_progress; run ← load fa_keep_running;
  f ← load (feedback_status_json env);
  mret (status_reply sr sl ir ip gp rr rp run f).

Definition init_position_prog (args : string) : FProg string :=
  _ ← store (fun a => set_finit true (fa_init_in_progress a) a);
  mret (fmessage "follower init_position requested").

Definition goto_pose_prog (args : string) : FProg string :=
  let '(ok, vals) := parse_pose16 args in
  if negb ok then mret (json_error "goto_pose expects 16 whitespace-separated values")
  else
    _ ← store (fun a => set_fgoto (fa_goto_requested a) (fa_goto_in_progress a) vals a);
    _ ← store (fun a => set_fgoto true (fa_goto_in_progress a) (fa_goto_target a) a);
    mret (fmessage "follower goto_pose requested").

Definition reset_safety_prog (args : string) : FProg string :=
  _ ← reset_side RIGHT; _ ← reset_side LEFT; mret (fmessage "follower safety reset").

Definition estop_prog (args : string) : FProg string :=
  _ ← trigger_side RIGHT; _ ← trigger_side LEFT; mret (fmessage "follower estop triggered").

Definition recover_estop_prog (args : string) : FProg string :=
  _ ← store (fun a => set_recover true (fa_recover_in_progress a) a);
  mret (fmessage "follower estop recovery requested").

Definition shutdown_prog (args : string) : FProg string :=
  _ ← store (set_running false); mret (fmessage "follower shutdown requested").

Definition handler_progs : gmap string (string -> FProg string) :=
  <["shutdown" := shutdown_prog]> (<["recover_estop" := recover_estop_prog]> (<["estop" := estop_prog]>
  (<["reset_safety" := reset_safety_prog]> (<["goto_pose" := goto_pose_prog]>
  (<["init_position" := init_position_prog]> (<["status" := status_prog]> ∅)))))).

(** A command line: [handle_command], then the answer. *)
Definition command_prog (line : string) : FProg unit :=
  let '(command, args) :=
    match split_first (trim line) with
    | (w, Some rest) => (w, trim rest)
    | (w, None) => (w, "")
    end in
  r ← match handler_progs !! command with
      | Some h => h args
      | None => mret (json_error ("unknown command: " +:+ command))
      end;
  output [LReply r].

(** ** Pose moves *)

(** [MoveToPose] on one arm; [reading k] is what its motors report before step [k]. *)
Definition pose_prog (side : ArmSide) (target_arm target_gripper : list double) (reading : nat -> Motors) : FProg unit :=
  let arm_at k := arm_motor_to_joint (without_effort (arm_motors (reading k))) in
  let hand_at k := gripper_motor_to_joint (without_effort (gripper_motors (reading k))) in
  let agoal := arm_goal target_arm in
  let hgoal := hand_goal target_gripper (length (hand_at 0%nat)) in
  _ ← for_prog nstep (fun step =>
        cmds ← compute (move_commands agoal hgoal (arm_at 0%nat) (hand_at 0%nat) step);
        _ ← output [LMove side cmds];
        _ ← write_control side (on_arm (set_responses (arm_at (S step))));
        write_control side (on_hand (set_responses (hand_at (S step)))));
  _ ← write_control side (on_arm (set_references (arm_at nstep)));
  _ ← write_control side (on_hand (set_references (hand_at nstep)));
  _ ← write_control side (on_arm (set_responses (arm_at nstep)));
  write_control side (on_hand (set_responses (hand_at nstep))).

Definition move_targets (mv : Move) : PoseTargets :=
  match mv with
  | MoveGoto p => p
  | _ => mkTargets (take (NMOTORS - 1) INITIAL_POSITION) [d0] (take (NMOTORS - 1) INITIAL_POSITION) [d0]
  end.

(** After both arms have arrived. *)
Definition finish_prog (mv : Move) : FProg unit :=
  _ ← reset_side RIGHT; _ ← reset_side LEFT; finish (move_kind mv).

(** The detached thread of a move: a thread per arm, joined, then the end. *)
Definition move_thread (mv : Move) (rr rl : nat -> Motors) : FThread :=
  let t := move_targets mv in
  Fork (pose_prog RIGHT (tg_r t) (tg_gr t) rr) (pose_prog LEFT (tg_l t) (tg_gl t) rl) (finish_prog mv).

(** ** The program's threads *)

(** The pool: the main loop, the control server, the signal handler and the two
    receivers, in this order, and the running moves behind them. *)
Definition receiver_thread (side : ArmSide) : nat := match side with RIGHT => 3%nat | LEFT => 4%nat end.

Definition follower_pool : list FThread := replicate 5 idle.

Inductive FEvent :=
| FtCycle (i : FollowerInput)
| FtCommand (line : string)
| FtSignal
| FtPacket (side : ArmSide) (now : Z) (p : TeleopPacket)
| FtMove (k : nat) (rr rl : nat -> Motors).         (* the [k]-th started move begins *)

Definition follower_begin (e : FEvent) (a : FollowerApp) (ts : list FThread) : option (FollowerApp * list FThread) :=
  match e with
  | FtCycle i => if fa_keep_running a then give main_thread (_ ← follower_prog i; mret tt) a ts else None
  | FtCommand line => give server_thread (command_prog line) a ts
  | FtSignal => give signal_thread signal_prog a ts
  | FtPacket side now p => give (receiver_thread side) (packet_prog side now p) a ts
  | FtMove k rr rl =>
      match fa_moves a !! k with
      | Some mv => Some (set_moves (delete k (fa_moves a)) a, ts ++ [move_thread mv rr rl])
      | None => None
      end
  end.

Definition follower_exec : list (Choice FEvent) -> Sys FollowerApp FLabel -> outcome (Sys FollowerApp FLabel * list FLabel) :=
  sys_exec follower_begin.
End follower.
