(* ===== verification/FollowerInterleavings.v ===== *)
(** * The follower's threads under every schedule

    Safety of [FollowerThreads] for arbitrary interleavings: the software ESTOP
    against the running control loop, the exclusion of the control loop by the
    initial and the recovery move, and the absence of undefined behaviour; and two
    schedules that show what is not guaranteed. *)

From S2P Require Import Prelude Float64 Crc32 Wire Packets PacketCodec TeleopStateBuffer Safety LinkCheck.
From S2P Require Import RuntimeControl Udp Dynamics RobotState Control ControlFacts NumParse AppCommon FollowerApp.
From S2P Require Import FollowerFacts Threads FollowerThreads.
From stdpp Require Import gmap.

Open Scope Z_scope.

Abbreviation FConfig := (Config FollowerApp FLabel).

(** ** Accesses *)

Section accesses.
Context (g : FollowerApp -> FollowerApp -> list FLabel -> Prop).

(** What a class of accesses has to satisfy: reads, and writes to one side's
    controller, without labels. *)
Context (g_read : forall a, g a a []) (g_control : forall side f a, g a (upd_side side (with_fcontrol f) a) []).

Lemma acts_read_control {A} side (f : Control -> A) : acts g (read_control side f).
Proof using g_read. apply acts_one. by intros s s' l a (? & _ & [= <- <- _])%bind_ok. Qed.

Lemma acts_on_control {A} side (f : Control -> outcome (Control * A)) : acts g (on_control side f).
Proof using g_control.
  apply acts_one. by intros s s' l a (? & _ & ([c b] & _ & [= <- <- _])%bind_ok)%bind_ok.
Qed.

Lemma acts_write_control side f : acts g (write_control side f).
Proof using g_control. apply acts_on_control. Qed.

Lemma acts_safety_state side : acts g (safety_state_of side).
Proof using g_read. by apply acts_load. Qed.

Hint Resolve acts_load acts_compute acts_read_control acts_on_control acts_write_control acts_safety_state : acts.

Lemma acts_track env side p : acts g (track_prog env side p).
Proof using g_read g_control. unfold track_prog. acts_split; auto with acts. Qed.

Lemma acts_unilateral tanh side m : acts g (unilateral_prog tanh side m).
Proof using g_read g_control. unfold unilateral_prog. cbv zeta. acts_split; auto with acts. Qed.

Lemma acts_may_move env : acts g (may_move env).
Proof using g_read. unfold may_move. acts_split; auto with acts. Qed.

Lemma acts_read_responses side : acts g (read_responses side).
Proof using g_read. unfold read_responses. acts_split; auto with acts. Qed.

Lemma acts_read_references side : acts g (read_references side).
Proof using g_read. unfold read_references. acts_split; auto with acts. Qed.
End accesses.

#[export] Hint Resolve acts_load acts_compute acts_read_control acts_on_control acts_write_control acts_safety_state
  acts_track acts_unilateral acts_may_move acts_read_responses acts_read_references : acts.

(** ** Readings of a trace *)

(** Commands sent to a side by the control loop since its safety manager was
    triggered; [None] if it was not, or has been reset. *)
Definition since_label (side : ArmSide) (n : option nat) (l : FLabel) : option nat :=
  match l with
  | LTrigger s => if decide (s = side) then match n with None => Some 0%nat | _ => n end else n
  | LReset s => if decide (s = side) then None else n
  | LArm s (ArmCommands _) => if decide (s = side) then option_map S n else n
  | _ => n
  end.

Definition since (side : ArmSide) (tr : list FLabel) : option nat := fold_left (since_label side) tr None.

(** Whether a request of a kind is being served; [None] after two overlapped. *)
Definition busy_label (k : MoveKind) (b : option bool) (l : FLabel) : option bool :=
  match l with
  | LServe j => if decide (j = k) then match b with Some false => Some true | _ => None end else b
  | LFinish j => if decide (j = k) then option_map (fun _ => false) b else b
  | _ => b
  end.

Definition busy (k : MoveKind) (tr : list FLabel) : option bool := fold_left (busy_label k) tr (Some false).

Definition progress (k : MoveKind) (a : FollowerApp) : bool :=
  match k with KRecover => fa_recover_in_progress a | KInit => fa_init_in_progress a | KGoto => fa_goto_in_progress a end.

(** No initial or recovery move is being served. *)
Definition free (tr : list FLabel) : Prop := busy KInit tr <> Some true /\ busy KRecover tr <> Some true.

(** The trace has no command to [side] since its trigger. *)
Definition fresh (side : ArmSide) (tr : list FLabel) : Prop := forall n, since side tr = Some n -> n = 0%nat.

(** The invariant of the shared state and the trace. *)
Record Inv (y : FConfig) : Prop := {
  inv_latched side : is_Some (since side y.2) -> latched (follower_side side y.1);
  inv_once side n : since side y.2 = Some n -> (n <= 1)%nat;
  inv_flag k : busy k y.2 = Some true -> progress k y.1 = true;
  inv_free tr1 side o tr2 : y.2 = tr1 ++ LArm side o :: tr2 -> free tr1;
}.

Lemma since_app side tr l : since side (tr ++ l) = fold_left (since_label side) l (since side tr).
Proof. apply fold_left_app. Qed.

Lemma busy_app k tr l : busy k (tr ++ l) = fold_left (busy_label k) l (busy k tr).
Proof. apply fold_left_app. Qed.

(** ** Steps that keep the invariant *)

(** A step keeps what the state says about the trace. *)
Definition keeps (s s' : FollowerApp) (l : list FLabel) : Prop :=
  (forall side n, (is_Some n -> latched (follower_side side s)) ->
     is_Some (fold_left (since_label side) l n) -> latched (follower_side side s')) /\
  (forall k b, (b = Some true -> progress k s = true) ->
     fold_left (busy_label k) l b = Some true -> progress k s' = true).

Definition not_arm (l : FLabel) : bool := match l with LArm _ _ => false | _ => true end.
Definition passive (l : FLabel) : bool := match l with LArm _ _ | LServe _ => false | _ => true end.

Definition own_step (s s' : FollowerApp) (l : list FLabel) : Prop := keeps s s' l /\ Forall (fun x => not_arm x = true) l.
Definition tame (s s' : FollowerApp) (l : list FLabel) : Prop := keeps s s' l /\ Forall (fun x => passive x = true) l.

(** A trace extended without commands to a side. *)
Lemma since_quiet side l n m :
  Forall (fun x => not_arm x = true) l -> fold_left (since_label side) l n = Some m -> m = 0%nat \/ n = Some m.
Proof.
  intros Hl. revert n. induction Hl as [|x l Hx Hl IH]; intros n; cbn [fold_left]; [by right|].
  intros Hm. destruct (IH _ Hm) as [->|Hn]; [by left|]. destruct x; cbn [since_label] in Hn; try (by right); try done.
  - case_decide; [done|by right].
  - case_decide; [|by right]. destruct n; [by right|left; congruence].
Qed.

Lemma busy_quiet k l b :
  Forall (fun x => passive x = true) l -> b <> Some true -> fold_left (busy_label k) l b <> Some true.
Proof.
  intros Hl. revert b. induction Hl as [|x l Hx Hl IH]; intros b Hb; cbn [fold_left]; [done|]. apply IH.
  destruct x; cbn [busy_label]; try done. case_decide; [by destruct b|done].
Qed.

Lemma passive_not_arm l : Forall (fun x => passive x = true) l -> Forall (fun x => not_arm x = true) l.
Proof. intros Hl. eapply Forall_impl; [exact Hl|]. by intros []. Qed.

Lemma fresh_quiet side tr l : Forall (fun x => not_arm x = true) l -> fresh side tr -> fresh side (tr ++ l).
Proof. intros Hl Hf n. rewrite since_app. intros [->|Hn]%since_quiet; [done|by apply Hf|done]. Qed.

Lemma free_quiet tr l : Forall (fun x => passive x = true) l -> free tr -> free (tr ++ l).
Proof. intros Hl [H1 H2]. split; rewrite busy_app; by apply busy_quiet. Qed.

Lemma app_arm_split tr l tr1 x tr2 :
  Forall (fun x => not_arm x = true) l -> not_arm x = false -> tr ++ l = tr1 ++ x :: tr2 ->
  exists tr2', tr = tr1 ++ x :: tr2'.
Proof.
  intros Hl Hx He. apply app_eq_inv in He as [(k & -> & Hk)|(k & -> & ->)].
  - destruct k as [|z k]; simplify_eq/=; [|by eexists]. inversion Hl; subst. congruence.
  - apply Forall_app in Hl as [_ Hl]. inversion Hl; subst. congruence.
Qed.

Lemma inv_step y s l : Inv y -> own_step y.1 s l -> Inv (extend y s l).
Proof.
  intros [H1 H2 H3 H4] [[K1 K2] Hl]. unfold extend. split; cbn [fst snd].
  - intros side. rewrite since_app. apply K1, H1.
  - intros side n. rewrite since_app. intros [->|Hn]%since_quiet; [lia|by eapply H2|done].
  - intros k. rewrite busy_app. apply K2, H3.
  - intros tr1 side o tr2 (tr2' & Htr)%app_arm_split; [by eapply H4|done|done].
Qed.

(** A step that changes neither the safety managers nor the flags. *)
Definition silent (l : FLabel) : bool :=
  match l with LTrigger _ | LReset _ | LArm _ _ | LServe _ | LFinish _ => false | _ => true end.

Lemma since_silent side l n : Forall (fun x => silent x = true) l -> fold_left (since_label side) l n = n.
Proof. intros Hl. revert n. induction Hl as [|x l Hx Hl IH]; intros n; cbn [fold_left]; [done|]. rewrite IH. by destruct x. Qed.

Lemma busy_silent k l b : Forall (fun x => silent x = true) l -> fold_left (busy_label k) l b = b.
Proof. intros Hl. revert b. induction Hl as [|x l Hx Hl IH]; intros b; cbn [fold_left]; [done|]. rewrite IH. by destruct x. Qed.

Lemma tame_silent s s' l :
  (forall side, latched (follower_side side s) -> latched (follower_side side s')) ->
  (forall k, progress k s = true -> progress k s' = true) ->
  Forall (fun x => silent x = true) l -> tame s s' l.
Proof.
  intros Hs Hp Hl. split; [split|].
  - intros side n Hn. rewrite since_silent by done. auto.
  - intros k b Hb. rewrite busy_silent by done. auto.
  - eapply Forall_impl; [exact Hl|]. by intros [].
Qed.

Lemma tame_read a : tame a a [].
Proof. by apply tame_silent. Qed.

Lemma tame_control side f a : tame a (upd_side side (with_fcontrol f) a) [].
Proof. apply tame_silent; [by destruct side, a; intros []|by destruct side; intros []|done]. Qed.

Lemma tame_own s s' l : tame s s' l -> own_step s s' l.
Proof. intros [H1 H2]. split; [done|by apply passive_not_arm]. Qed.

Lemma tame_reset side a : tame a (upd_side side (with_safety safety_reset) a) [LReset side].
Proof.
  split; [split|by repeat constructor].
  - intros s n Hn. cbn [fold_left since_label]. case_decide as Hd; [by intros []|]. intros H. specialize (Hn H).
    destruct side, s; done.
  - intros k b Hb Hk. specialize (Hb Hk). by destruct side, k.
Qed.

Lemma tame_trigger side a : tame a (upd_side side (with_safety safety_trigger_estop) a) [LTrigger side].
Proof.
  split; [split|by repeat constructor].
  - intros s n Hn H. cbn [fold_left since_label] in H. case_decide as Hd; [subst; by destruct s|]. specialize (Hn H).
    destruct side, s; done.
  - intros k b Hb Hk. specialize (Hb Hk). by destruct side, k.
Qed.

Lemma tame_finish k a : tame a (set_progress k false a) [LFinish k].
Proof.
  split; [split|by repeat constructor].
  - intros s n Hn H. specialize (Hn H). destruct k, s; done.
  - intros j b Hb H. cbn [fold_left busy_label] in H. case_decide as Hd; [by destruct b|]. specialize (Hb H). by destruct k, j.
Qed.

Lemma own_serve k a : own_step a (set_progress k true a) [LServe k].
Proof.
  split; [split|by repeat constructor].
  - intros s n Hn H. specialize (Hn H). destruct k, s; done.
  - intros j b Hb H. cbn [fold_left busy_label] in H. case_decide as Hd; [subst; by destruct j|]. specialize (Hb H). by destruct k, j.
Qed.

Lemma tame_safety side p gap a : tame a (upd_side side (with_safety (safety_update p gap)) a) [].
Proof.
  apply tame_silent; [|by destruct side; intros []|done]. intros s [H1 H2].
  destruct side, s; cbn [upd_side set_sides fa_right fa_left follower_side] in *; try done;
    (split; cbn [with_safety fo_safety]; [by apply safety_update_latched|by rewrite safety_update_estop_flag]).
Qed.

Lemma own_read a : own_step a a [].
Proof. apply tame_own, tame_read. Qed.

Lemma own_control side f a : own_step a (upd_side side (with_fcontrol f) a) [].
Proof. apply tame_own, tame_control. Qed.

#[export] Hint Resolve tame_read tame_control own_read own_control : acts.

Lemma acts_own {A} (p : FProg A) : acts tame p -> acts own_step p.
Proof. apply acts_mono, tame_own. Qed.

Lemma acts_reset side : acts tame (reset_side side).
Proof. apply acts_one. intros s s' l a [= <- <- _]. apply tame_reset. Qed.

Lemma acts_trigger side : acts tame (trigger_side side).
Proof. apply acts_one. intros s s' l a [= <- <- _]. apply tame_trigger. Qed.

Lemma acts_finish k : acts tame (finish k).
Proof. apply acts_one. intros s s' l a [= <- <- _]. apply tame_finish. Qed.

Lemma acts_start mv : acts tame (start_move mv).
Proof. apply acts_one. intros s s' l a [= <- <- _]. apply tame_silent; [done|by intros []|by repeat constructor]. Qed.

(** Stores that touch neither a safety manager nor a flag. *)
Lemma acts_tame_store f :
  (forall a side, latched (follower_side side a) -> latched (follower_side side (f a))) ->
  (forall a k, progress k a = true -> progress k (f a) = true) -> acts tame (store f).
Proof. intros H1 H2. apply acts_store. intros a. apply tame_silent; [apply H1|apply H2|done]. Qed.

Lemma acts_tame_output l : Forall (fun x => silent x = true) l -> acts tame (output l).
Proof. intros Hl. apply acts_output. intros a. by apply tame_silent. Qed.

#[export] Hint Resolve acts_reset acts_trigger acts_finish acts_start : acts.
#[export] Hint Extern 2 (acts tame (store _)) => apply acts_tame_store; [by intros ? []|by intros ? []] : acts.
#[export] Hint Extern 2 (acts tame (output _)) => apply acts_tame_output; by repeat constructor : acts.

Section programs.
Context (env : FollowerEnv) (tanh : double -> double).

Lemma acts_serve k : acts own_step (begin_request k).
Proof. apply acts_one. intros s s' l a [= <- <- _]. apply own_serve. Qed.

(** The exchange of a request flag. *)
Lemma acts_exchange (f : FollowerApp -> FollowerApp) (b : FollowerApp -> bool) :
  acts tame (store f) -> acts tame (Act (fun a => Ok (f a, [], b a)) Done).
Proof. intros [H _]. apply acts_one. intros s s' l x [= <- <- _]. by eapply H. Qed.

Lemma acts_recover : acts own_step (recover_prog env).
Proof.
  unfold recover_prog. acts_split; try apply acts_serve; apply acts_own; auto with acts.
  apply acts_exchange. auto with acts.
Qed.

Lemma acts_init : acts own_step (init_prog env).
Proof.
  unfold init_prog. acts_split; try apply acts_serve; apply acts_own; auto with acts.
  apply acts_exchange. auto with acts.
Qed.

Lemma acts_goto : acts own_step (goto_prog env).
Proof.
  unfold goto_prog. acts_split; try apply acts_serve; apply acts_own; auto with acts.
  apply acts_exchange. auto with acts.
Qed.

Lemma acts_safety side now t : acts tame (safety_prog side now t).
Proof.
  unfold safety_prog. acts_split; auto with acts. apply acts_store. intros. apply tame_safety.
Qed.

Lemma acts_check i : acts tame (Act (fun a => a' ← recheck_link env i a; Ok (a', [], tt)) Done : FProg unit).
Proof.
  apply acts_one. intros s s' l a (b & (link & ok & next & ->)%recheck_link_inv & [= <- <- _])%bind_ok.
  apply tame_silent; [by intros []|by intros []|done].
Qed.

Lemma acts_feedback i tr tl sr sl : acts tame (feedback_prog env i tr tl sr sl).
Proof.
  unfold feedback_prog. acts_split; auto with acts; [apply acts_check|].
  apply acts_one. intros s s' x y [= <- <- _]. apply tame_silent; [by intros []|by intros []|by repeat constructor].
Qed.

Lemma acts_telemetry i sr sl : acts tame (telemetry_prog env i sr sl).
Proof.
  unfold telemetry_prog. acts_split; auto with acts.
  apply acts_one. intros s s' x y ([c d] & Hp & [= <- <- _])%bind_ok.
  assert (Hs : exists pub next, c = set_telemetry pub next s).
  { revert Hp. unfold publish_telemetry. destruct (publish _ _) as [d' pub]. intros (dt & _ & [= <- _])%bind_ok. by do 2 eexists. }
  destruct Hs as (pub & next & ->). apply tame_silent; [by intros []|by intros []|]. destruct d; by repeat constructor.
Qed.

(** The other threads. *)
Lemma acts_packet side now p : acts tame (packet_prog side now p).
Proof. apply acts_tame_store; [by intros a [] []; destruct side|by intros a []; destruct side]. Qed.

Lemma acts_signal : acts tame signal_prog.
Proof. unfold signal_prog. acts_split; auto with acts. Qed.

Lemma acts_handler w h args : handler_progs env !! w = Some h -> acts tame (h args).
Proof.
  unfold handler_progs.
  repeat (rewrite lookup_insert_Some; intros [[<- <-]|[_ H]]; [|revert H]); [..|done].
  - unfold shutdown_prog. acts_split; auto with acts.
  - unfold recover_estop_prog. acts_split; auto with acts.
  - unfold estop_prog. acts_split; auto with acts.
  - unfold reset_safety_prog. acts_split; auto with acts.
  - unfold goto_pose_prog. acts_split; auto with acts.
  - unfold init_position_prog. acts_split; auto with acts.
  - unfold status_prog. acts_split; auto with acts.
Qed.

Lemma acts_command line : acts tame (command_prog env line).
Proof.
  unfold command_prog. destruct (match split_first (trim line) with (w, Some rest) => _ | _ => _ end) as [w args].
  apply acts_bind; [|auto with acts]. destruct (handler_progs env !! w) as [h|] eqn:E; [by eapply acts_handler|exact I].
Qed.

Lemma acts_pose side ta tg rd : acts tame (pose_prog side ta tg rd).
Proof. unfold pose_prog. cbv zeta. acts_split; auto with acts. Qed.

Lemma acts_finish_prog mv : acts tame (finish_prog mv).
Proof. unfold finish_prog. acts_split; auto with acts. Qed.
End programs.

(** ** The main loop *)

(** The main thread changes the state by [own_step]s and by commands that the
    invariant allows; the others are [tame]. *)
Definition main_rely (x y : FConfig) : Prop :=
  exists l, y.2 = x.2 ++ l /\ Forall (fun z => passive z = true) l /\ (Inv x -> Inv y).

Definition loop_rely (x y : FConfig) : Prop := Inv x -> Inv y.

Definition rely (k : nat) : FConfig -> FConfig -> Prop := match k with O => main_rely | _ => loop_rely end.
Definition guarantee (k : nat) : FConfig -> FConfig -> Prop := match k with O => loop_rely | _ => main_rely end.

Lemma main_rely_refl x : main_rely x x.
Proof. exists []. by rewrite app_nil_r. Qed.

Lemma main_rely_trans x y z : main_rely x y -> main_rely y z -> main_rely x z.
Proof.
  intros (l & H1 & H2 & H3) (l' & H1' & H2' & H3'). exists (l ++ l'). split_and!; [by rewrite H1', H1, app_assoc| |auto].
  by apply Forall_app.
Qed.

Lemma tame_main_rely y s l : tame y.1 s l -> main_rely y (extend y s l).
Proof. intros H. exists l. split_and!; [done|apply H|]. intros Hi. apply inv_step; [done|by apply tame_own]. Qed.

Section main.
Context (env : FollowerEnv) (tanh : double -> double).

(** Between the reading of the safety states and the end of an iteration: the
    invariant, and for the sides in [may] no command since their trigger. *)
Definition may_send (may : ArmSide -> bool) (y : FConfig) : Prop :=
  Inv y /\ forall side, may side = true -> fresh side y.2.

Definition sending (may : ArmSide -> bool) (y : FConfig) : Prop := may_send may y /\ free y.2.

Abbreviation mwp := (wp any_failure main_rely loop_rely).

Lemma inv_rely y z : main_rely y z -> Inv y -> Inv z.
Proof. by intros (l & _ & _ & H). Qed.

Lemma may_send_rely may y z : main_rely y z -> may_send may y -> may_send may z.
Proof.
  intros (l & Hz & Hl & Hi) [H1 H2]. split; [by apply Hi|]. intros side Hm. rewrite Hz.
  apply fresh_quiet; [by apply passive_not_arm|by apply H2].
Qed.

Lemma free_rely y z : main_rely y z -> free y.2 -> free z.2.
Proof. intros (l & -> & Hl & _). by apply free_quiet. Qed.

Lemma sending_rely may y z : main_rely y z -> sending may y -> sending may z.
Proof. intros Hr [H1 H2]. split; [by eapply may_send_rely|by eapply free_rely]. Qed.

(** The next part of the loop, when it keeps the assertion. *)
Lemma mwp_acts {A B} (P : FConfig -> Prop) g (p : FProg A) (k : A -> FProg B) Q x :
  (forall y z, main_rely y z -> P y -> P z) ->
  (forall y s l, P y -> g y.1 s l -> loop_rely y (extend y s l) /\ P (extend y s l)) ->
  acts g p -> P x -> (forall a y, P y -> mwp (k a) Q y) -> mwp (p ≫= k) Q x.
Proof.
  intros HP Hg Hp Hx Hk. apply wp_bind; [apply main_rely_refl|].
  eapply (wp_mono _ _ _ p (fun _ => P)); [by apply Hk|]. by eapply wp_acts.
Qed.

Lemma mwp_own {A B} (p : FProg A) (k : A -> FProg B) Q x :
  acts own_step p -> Inv x -> (forall a y, Inv y -> mwp (k a) Q y) -> mwp (p ≫= k) Q x.
Proof.
  apply mwp_acts; [apply inv_rely|]. intros y s l Hy Hs. pose proof (inv_step y s l Hy Hs). split; [by intros _|done].
Qed.

Lemma tame_extend {P : FConfig -> Prop} y s l :
  (forall y z, main_rely y z -> P y -> P z) -> P y -> tame y.1 s l -> loop_rely y (extend y s l) /\ P (extend y s l).
Proof.
  intros HP Hy Hs. pose proof (tame_main_rely y s l Hs) as Hr. split; [|by eapply HP]. destruct Hr as (? & _ & _ & Hi). exact Hi.
Qed.

(** A load; [P'] is what the value says. *)
Lemma mwp_load {A B} (P : FConfig -> Prop) (f : FollowerApp -> A) (k : A -> FProg B) Q x :
  (forall y z, main_rely y z -> P y -> P z) -> P x -> (forall y, P y -> mwp (k (f y.1)) Q y) -> mwp (load f ≫= k) Q x.
Proof.
  intros HP Hx Hk. unfold load, mbind, prog_mbind. cbn [prog_bind wp]. intros y Hy.
  replace (extend y y.1 []) with y by (destruct y; unfold extend; cbn; by rewrite app_nil_r).
  split; [by intros H|]. apply Hk. by eapply HP.
Qed.
(** Commands to one side; afterwards that side may send no more. *)
Definition spend (side : ArmSide) (may : ArmSide -> bool) (s : ArmSide) : bool :=
  if decide (s = side) then false else may s.

Lemma send_sound side may o y :
  may side = true \/ moves_motors o = false -> sending may y ->
  let z := extend y y.1 [LArm side o] in loop_rely y z /\ sending (spend side may) z.
Proof.
  intros Hm [[Hi Hf] Hfree]. cbv zeta. unfold extend.
  assert (Hsince : forall s n, since s (y.2 ++ [LArm side o]) = Some n ->
    (n <= 1)%nat /\ (spend side may s = true -> n = 0%nat)).
  { intros s n. rewrite since_app. cbn [fold_left since_label]. unfold spend.
    assert (Hold : since s y.2 = Some n -> (n <= 1)%nat /\ ((if decide (s = side) then false else may s) = true -> n = 0%nat)).
    { intros Hn. split; [by eapply inv_once|]. case_decide; [done|]. intros Ht. by eapply Hf. }
    destruct o as [c| |]; [|exact Hold..]. destruct (decide (s = side)) as [->|Hd].
    - rewrite decide_True by done. destruct (since side y.2) as [m|] eqn:Em; [|done]. intros [= <-].
      destruct Hm as [Hm|Hm]; [|done]. rewrite (Hf side Hm m Em). split; [lia|done].
    - rewrite decide_False by congruence. exact Hold. }
  assert (Hlive : forall s, is_Some (since s (y.2 ++ [LArm side o])) -> is_Some (since s y.2)).
  { intros s. rewrite since_app. cbn [fold_left since_label]. destruct o as [c| |]; [|done..]. case_decide; [|done].
    by destruct (since s y.2). }
  assert (Hz : Inv (y.1, y.2 ++ [LArm side o])).
  { split; cbn [fst snd].
    - intros s Hs. by apply (inv_latched y Hi), Hlive.
    - intros s n Hn. by apply (Hsince s n).
    - intros k. rewrite busy_app. cbn [fold_left busy_label]. apply (inv_flag y Hi).
    - intros tr1 s o' tr2 He. destruct tr2 as [|z tr2 _] using rev_ind.
      + apply app_inj_tail in He as [<- _]. exact Hfree.
      + rewrite app_comm_cons, app_assoc in He. apply app_inj_tail in He as [He _]. by eapply (inv_free y Hi). }
  split; [by intros _|]. split; [split; [exact Hz|]|].
  - intros s Hs n Hn. by apply (Hsince s n).
  - split; cbn [snd]; rewrite busy_app; apply Hfree.
Qed.

Lemma mwp_send side may o Q x :
  may side = true \/ moves_motors o = false -> sending may x ->
  (forall y, sending (spend side may) y -> Q o y) -> mwp (send_arm side o) Q x.
Proof.
  intros Hm Hx HQ. unfold send_arm, output, mbind, prog_mbind. cbn [prog_bind wp mret prog_ret]. intros y Hy.
  destruct (send_sound side may o y Hm) as [H1 H2]; [by eapply sending_rely|]. split; [exact H1|].
  intros z Hz. apply HQ. by eapply sending_rely.
Qed.

(** Moving commands need a state other than ESTOP. *)
Lemma mwp_side side st target m may Q x :
  (st <> ESTOP -> may side = true) -> sending may x ->
  (forall o y, sending (spend side may) y -> Q o y) -> mwp (side_prog env tanh side st target m) Q x.
Proof.
  intros Hm Hx HQ. pose proof (fun y s l => tame_extend (P := sending may) y s l (sending_rely may)) as He.
  unfold side_prog. eapply (mwp_acts (sending may) tame); [apply sending_rely|exact He|auto with acts|done|].
  intros _ y Hy.
  assert (Hrun : may side = true -> forall y, sending may y ->
    mwp (cmds ← unilateral_prog tanh side m; send_arm side (ArmCommands cmds)) Q y).
  { intros Ht y' Hy'. eapply (mwp_acts (sending may) tame); [apply sending_rely|exact He|auto with acts|done|].
    intros cmds z Hz. apply (mwp_send side may); [by left|done|by apply HQ]. }
  assert (Htrack : may side = true -> mwp (_ ← match target with Some p => track_prog env side p | None => mret tt end;
    cmds ← unilateral_prog tanh side m; send_arm side (ArmCommands cmds)) Q y).
  { intros Ht. eapply (mwp_acts (sending may) tame); [apply sending_rely|exact He| |done|by intros _; apply Hrun].
    acts_split; auto with acts. }
  destruct st; try (apply Htrack; by apply Hm); try (apply Hrun; [by apply Hm|done]).
  all: try (apply (mwp_send side may); [by right|done|by apply HQ]).
  cbn [wp mret prog_ret]. intros z Hz. apply HQ. destruct (sending_rely _ _ _ Hz Hy) as [[H1 H2] H3].
  split; [split; [done|]|done]. intros s. unfold spend. case_decide; [done|apply H2].
Qed.
(** The guard of the arms' phase: when it passes, no move is being served, and
    only this thread can take up another request. *)
Lemma mwp_may_move may x :
  may_send may x -> mwp (may_move env) (fun b y => may_send may y /\ (b = true -> free y.2)) x.
Proof.
  intros Hx. unfold may_move. destruct (fe_mock env).
  { cbn [wp mret prog_ret]. intros y Hy. split; [by eapply may_send_rely|done]. }
  apply (mwp_load (may_send may)); [apply may_send_rely|done|]. intros y Hy.
  destruct (fa_init_in_progress y.1) eqn:Ei.
  { cbn [wp mret prog_ret]. intros z Hz. split; [by eapply may_send_rely|done]. }
  assert (Hb : busy KInit y.2 <> Some true).
  { intros Hk. apply (inv_flag y (proj1 Hy)) in Hk. cbn [progress] in Hk. congruence. }
  apply (mwp_load (fun z => may_send may z /\ busy KInit z.2 <> Some true)); [|done|].
  - intros u v Hv [H1 H2]. split; [by eapply may_send_rely|]. destruct Hv as (l & -> & Hl & _).
    rewrite busy_app. by apply busy_quiet.
  - intros z [Hz Hi]. cbn [wp mret prog_ret]. intros v Hv. split; [by eapply may_send_rely|]. intros Hr.
    eapply free_rely; [exact Hv|]. split; [done|]. intros Hk. apply (inv_flag z (proj1 Hz)) in Hk. cbn [progress] in Hk.
    by rewrite Hk in Hr.
Qed.

Lemma mwp_arms i tr tl sr sl may x :
  (sr <> ESTOP -> may RIGHT = true) -> (sl <> ESTOP -> may LEFT = true) -> may_send may x ->
  mwp (arms_prog env tanh i tr tl sr sl) (fun _ => Inv) x.
Proof.
  intros Hr Hl Hx. unfold arms_prog. apply wp_bind; [apply main_rely_refl|].
  eapply wp_mono; [|by apply mwp_may_move]. intros b y [Hy Hf]. destruct b.
  - apply wp_bind; [apply main_rely_refl|]. apply (mwp_side RIGHT _ _ _ may); [done|by split; [|apply Hf]|].
    intros o_r z Hz. apply wp_bind; [apply main_rely_refl|].
    apply (mwp_side LEFT _ _ _ (spend RIGHT may)); [done|done|]. intros o_l v Hv.
    cbn [wp mret prog_ret]. intros w Hw. eapply inv_rely; [exact Hw|apply Hv].
  - cbn [wp mret prog_ret]. intros z Hz. eapply inv_rely; [exact Hz|apply Hy].
Qed.

(** A safety state other than ESTOP is read only when no trigger is pending. *)
Lemma fresh_state side y : Inv y -> sm_state (fo_safety (follower_side side y.1)) <> ESTOP -> fresh side y.2.
Proof. intros Hy Hs n Hn. destruct (inv_latched y Hy side) as [He _]; [by eexists|done]. Qed.

Lemma main_ok i x : Inv x -> mwp (_ ← follower_prog env tanh i; mret tt) (fun _ _ => True) x.
Proof.
  intros Hx. apply wp_bind; [apply main_rely_refl|].
  apply (wp_mono _ _ _ _ (fun _ _ => True)); [by intros|]. unfold follower_prog.
  apply mwp_own; [apply acts_recover|done|intros m1 x1 H1]. apply mwp_own; [apply acts_init|done|intros m2 x2 H2].
  apply mwp_own; [apply acts_goto|done|intros m3 x3 H3].
  apply (mwp_load Inv); [apply inv_rely|done|intros x4 H4]. apply (mwp_load Inv); [apply inv_rely|done|intros x5 H5].
  apply mwp_own; [apply acts_own, acts_safety|done|intros _ x6 H6].
  apply mwp_own; [apply acts_own, acts_safety|done|intros _ x7 H7].
  apply (mwp_load Inv); [apply inv_rely|done|intros x8 H8].
  set (sr := sm_state (fo_safety (follower_side RIGHT x8.1))).
  set (may_r := fun s => match s with RIGHT => negb (bool_decide (sr = ESTOP)) | LEFT => false end).
  apply (mwp_load (may_send may_r)); [apply may_send_rely| |].
  { split; [done|]. intros [] Hs; [|done]. apply (fresh_state RIGHT x8 H8). apply negb_true_iff, bool_decide_eq_false in Hs. exact Hs. }
  intros x9 H9. set (sl := sm_state (fo_safety (follower_side LEFT x9.1))).
  set (may := fun s => match s with RIGHT => may_r RIGHT | LEFT => negb (bool_decide (sl = ESTOP)) end).
  apply wp_bind; [apply main_rely_refl|]. eapply wp_mono; [|apply (mwp_arms i _ _ sr sl may)].
  - intros [o_r o_l] x10 H10. apply mwp_own; [apply acts_own, acts_feedback|done|intros f x11 H11].
    apply mwp_own; [apply acts_own, acts_telemetry|done|]. by intros d x12 H12.
  - intros Hs. cbn [may may_r]. by rewrite bool_decide_eq_false_2.
  - intros Hs. cbn [may]. by rewrite bool_decide_eq_false_2.
  - split; [apply H9|]. intros [] Hs; [by apply (proj2 H9)|]. apply (fresh_state LEFT x9 (proj1 H9)).
    apply negb_true_iff, bool_decide_eq_false in Hs. exact Hs.
Qed.

(** ** Every schedule *)

Lemma tame_ok (p : FProg unit) x : acts tame p -> wp any_failure loop_rely main_rely p (fun _ _ => True) x.
Proof.
  intros Hp. apply (wp_acts any_failure loop_rely main_rely tame (fun _ => True)); try done.
  intros y s l _ Hs. split; [by apply tame_main_rely|done].
Qed.

Abbreviation ok_pool := (pool_ok 5 any_failure rely guarantee anything).

Lemma begin_ok e s tr ts s' ts' :
  True -> Inv (s, tr) -> ok_pool (s, tr) ts -> follower_begin env tanh e s ts = Some (s', ts') ->
  Inv (s', tr) /\ ok_pool (s', tr) ts'.
Proof.
  intros _ Hi [Hlen Hp] Hb.
  assert (Hgive : forall k p, give k p s ts = Some (s', ts') -> thread_ok any_failure (rely k) (guarantee k) (anything k) (Seq p) (s, tr) ->
    Inv (s', tr) /\ ok_pool (s', tr) ts').
  { intros k p [-> ->]%give_inv Ht. split; [done|]. split; [by rewrite length_insert|]. intros j u Hj.
    apply list_lookup_insert_Some in Hj as [(<- & <- & _)|[_ Hj]]; [done|by apply Hp]. }
  destruct e as [i|line| |side now p|k rr rl]; cbn [follower_begin] in Hb.
  - destruct (fa_keep_running s); [|done]. eapply Hgive; [exact Hb|]. by apply main_ok.
  - eapply Hgive; [exact Hb|]. by apply tame_ok, acts_command.
  - eapply Hgive; [exact Hb|]. by apply tame_ok, acts_signal.
  - eapply Hgive; [exact Hb|]. destruct side; by apply tame_ok, acts_packet.
  - destruct (fa_moves s !! k) as [mv|]; [|done]. injection Hb as <- <-.
    set (s' := set_moves (delete k (fa_moves s)) s).
    assert (Hs : Inv (s', tr)) by (destruct Hi as [H1 H2 H3 H4]; split; cbn [fst snd]; [intros []; apply H1|done|intros []; apply H3|done]).
    assert (Hr : forall j, rely j (s, tr) (s', tr)).
    { intros [|j]; [|by intros _]. exists []. split_and!; [by rewrite app_nil_r|done|by intros _]. }
    split; [done|]. split; [rewrite length_app; lia|]. intros j u Hj. apply lookup_app_Some in Hj as [Hj|[Hge Hj]].
    + eapply thread_ok_rely; [|apply Hr|by apply Hp]. intros x y z; destruct j; [apply main_rely_trans|cbn; unfold loop_rely; auto].
    + apply list_lookup_singleton_Some in Hj as [Hj <-]. destruct j as [|j]; [lia|]. cbn [rely guarantee].
      unfold move_thread. cbv zeta. split; [by intros y z (l & _ & _ & H)|]. exists (fun _ => True), (fun _ => True).
      split_and!; [by apply tame_ok, acts_pose|by apply tame_ok, acts_pose|]. intros y _ _. by apply tame_ok, acts_finish_prog.
Qed.

(** The invariant holds after every schedule from an idle pool, and every thread
    keeps it. *)
Lemma exec_inv cs a x l :
  follower_exec env tanh cs (mkSys a follower_pool) = Ok (x, l) -> Inv (sy_state x, l).
Proof.
  intros H.
  pose proof (sys_exec_ok (follower_begin env tanh) 5 any_failure rely guarantee anything Inv (fun _ => True)) as Hok.
  specialize (Hok ltac:(by intros [] y; [apply main_rely_refl|intros ?])).
  specialize (Hok ltac:(intros [] u v w; [apply main_rely_trans|cbn; unfold loop_rely; auto])).
  assert (HGR : forall j k u v, j <> k -> guarantee j u v -> rely k u v).
  { intros [|j] [|k] u v Hne Hg; try done. by destruct Hg as (l' & _ & _ & Hg). }
  specialize (Hok HGR).
  assert (HGJ : forall k u v, guarantee k u v -> Inv u -> Inv v).
  { intros [|k] u v Hg; [exact Hg|]. by destruct Hg as (l' & _ & _ & Hg). }
  specialize (Hok HGJ begin_ok cs (mkSys a follower_pool) []). unfold follower_exec in H. rewrite H in Hok.
  apply Hok.
  - by apply Forall_true; intros [].
  - split; cbn [fst snd].
    + by intros side [? ?].
    + done.
    + done.
    + intros [] *; done.
  - split; [done|]. intros k t Ht. apply lookup_replicate in Ht as [-> _]. cbn. done.
Qed.
End main.

(** ** Properties *)

(** Commands of the control loop to a side. *)
Definition is_command (side : ArmSide) (l : FLabel) : bool :=
  match l with LArm s (ArmCommands _) => bool_decide (s = side) | _ => false end.

Definition commands_to (side : ArmSide) (l : list FLabel) : nat :=
  length (filter (fun x => is_command side x = true) l).

Lemma since_count side l n :
  Forall (fun x => x <> LReset side) l -> fold_left (since_label side) l (Some n) = Some (n + commands_to side l)%nat.
Proof.
  intros Hl. revert n. induction Hl as [|x l Hx Hl IH]; intros n; cbn [fold_left].
  { f_equal. unfold commands_to. cbn. lia. }
  unfold commands_to in *. rewrite filter_cons.
  destruct x as [s|k|mv|k|s|s|s o|s c|r f|d|r]; cbn [since_label is_command]; try (rewrite decide_False by done; apply IH).
  - rewrite decide_False by congruence. rewrite decide_False by done. apply IH.
  - rewrite (decide_False (P := false = true)) by done. destruct (decide (s = side)); apply IH.
  - destruct o as [c| |]; [|rewrite decide_False by done; apply IH..]. destruct (decide (s = side)) as [->|Hs].
    + cbn [option_map]. rewrite IH, decide_True by by rewrite bool_decide_true. cbn [length]. f_equal. lia.
    + rewrite decide_False by (by rewrite bool_decide_false). apply IH.
Qed.

(** C2: The software ESTOP under every interleaving. Whatever the main loop, the
    control server, the signal handler, the receivers and the pose moves are doing,
    and in whatever order their accesses interleave: once an arm's safety manager
    has been triggered, and until it is reset, the control loop sends at most one
    more command to that arm (the one of an iteration that had read the safety state
    before), and the manager stays in ESTOP. *)
Theorem estop_any_interleaving (env : FollowerEnv) (tanh : double -> double) (cs : list (Choice FEvent))
    (a : FollowerApp) (x : Sys FollowerApp FLabel) (side : ArmSide) (l1 l2 : list FLabel) :
  follower_exec env tanh cs (mkSys a follower_pool) = Ok (x, l1 ++ LTrigger side :: l2) ->
  Forall (fun z => z <> LReset side) l2 ->
  (commands_to side l2 <= 1)%nat /\ sm_state (fo_safety (follower_side side (sy_state x))) = ESTOP.
Proof.
  intros H Hl. apply exec_inv in H.
  assert (Hs : exists n, since side (l1 ++ LTrigger side :: l2) = Some (n + commands_to side l2)%nat).
  { rewrite since_app. cbn [fold_left since_label]. rewrite decide_True by done.
    destruct (since side l1) as [n|]; eexists; by apply since_count. }
  destruct Hs as [n Hs]. pose proof (inv_once _ H side _ Hs). split; [lia|].
  destruct (inv_latched _ H side) as [He _]; [by eexists|exact He].
Qed.

(** *** Schedules *)

(** [n] steps of thread [k]; steps of a thread that has ended change nothing. *)
Definition steps (k n : nat) : list (Choice FEvent) := replicate n (Run k true).

Definition test_reading : nat -> Motors := fun _ => test_motors.

(** A command line, executed at once. *)
Definition now_command (line : string) : list (Choice FEvent) := Event (FtCommand line) :: steps server_thread 10.

(** The first move, in the thread behind the permanent ones: all of it, or all but
    its last three steps. *)
Definition pose_steps : nat := 884.
Definition pose_schedule (k : nat) : list (Choice FEvent) :=
  replicate pose_steps (Run k true) ++ replicate pose_steps (Run k false).
Definition move_schedule (k : nat) : list (Choice FEvent) := pose_schedule k ++ steps k 3.

Definition whole_cycle (t : Z) : list (Choice FEvent) := Event (FtCycle (test_finput t)) :: steps main_thread 200.

(** The control loop has read both safety states when the ESTOP comes. *)
Definition estop_schedule : list (Choice FEvent) :=
  Event (FtPacket RIGHT 1000 (test_packet 1)) :: steps 3 1 ++ Event (FtPacket LEFT 1000 (test_packet 1)) :: steps 4 1
  ++ Event (FtCycle (test_finput 2000)) :: steps main_thread 11
  ++ now_command "estop" ++ steps main_thread 200 ++ whole_cycle 3000.

Lemma estop_any_interleaving_witness :
  exists x l2, follower_exec test_fenv id estop_schedule (mkSys (test_fapp false []) follower_pool) =
      Ok (x, [] ++ LTrigger RIGHT :: l2) /\ commands_to RIGHT l2 = 1%nat /\
    sm_state (fo_safety (follower_side RIGHT (sy_state x))) = ESTOP.
Proof.
  assert (H : exists x l2, follower_exec test_fenv id estop_schedule (mkSys (test_fapp false []) follower_pool) =
      Ok (x, [] ++ LTrigger RIGHT :: l2) /\ commands_to RIGHT l2 = 1%nat /\
    forallb (fun z => match z with LReset _ => false | _ => true end) l2 = true).
  { do 2 eexists. split; [vm_compute; reflexivity|]. split; vm_compute; reflexivity. }
  destruct H as (x & l2 & H & Hc & Hf). exists x, l2. split; [exact H|]. split; [exact Hc|].
  refine (proj2 (estop_any_interleaving test_fenv id estop_schedule (test_fapp false []) x RIGHT [] l2 H _)).
  apply Forall_forall. intros z Hz ->. rewrite forallb_forall in Hf. apply list_elem_of_In in Hz. by specialize (Hf _ Hz).
Defined.

Lemma busy_overlapped k l : fold_left (busy_label k) l None = None.
Proof. induction l as [|x l IH]; cbn [fold_left]; [done|]. destruct x; cbn [busy_label]; try done; by case_decide. Qed.

Lemma busy_finished k l :
  fold_left (busy_label k) l (Some true) <> Some true -> fold_left (busy_label k) l (Some true) <> None -> LFinish k ∈ l.
Proof.
  induction l as [|x l IH]; cbn [fold_left]; [done|]. rewrite elem_of_cons. intros H1 H2.
  destruct x as [s|j|mv|j|s|s|s o|s c|r f|d|r]; cbn [busy_label] in *; try (right; by apply IH).
  - case_decide; [by rewrite busy_overlapped in H2|right; by apply IH].
  - case_decide; [left; by f_equal|right; by apply IH].
Qed.

(** C4: The initial and the recovery move have the motors to themselves. If no
    request of a kind is taken up while an earlier one of that kind is being served,
    then from the moment such a request is taken up until the last step of its move,
    the control loop sends nothing to either arm: neither a command nor a
    switch-off. *)
Theorem moves_exclude_loop (env : FollowerEnv) (tanh : double -> double) (cs : list (Choice FEvent))
    (a : FollowerApp) (x : Sys FollowerApp FLabel) (k : MoveKind) (side : ArmSide) (o : ArmOutput)
    (l1 l2 l3 : list FLabel) :
  follower_exec env tanh cs (mkSys a follower_pool) = Ok (x, l1 ++ LServe k :: l2 ++ LArm side o :: l3) ->
  k <> KGoto -> busy k (l1 ++ LServe k :: l2) <> None -> LFinish k ∈ l2.
Proof.
  intros H Hk Hb. apply exec_inv in H.
  assert (Hf : free (l1 ++ LServe k :: l2)).
  { apply (inv_free _ H _ side o l3). cbn [snd]. by rewrite <- app_assoc. }
  rewrite busy_app in Hb. cbn [fold_left busy_label] in Hb. rewrite decide_True in Hb by done.
  assert (Hs : busy k l1 = Some false).
  { destruct (busy k l1) as [[]|]; [by rewrite busy_overlapped in Hb|done|by rewrite busy_overlapped in Hb]. }
  rewrite Hs in Hb. apply busy_finished; [|done].
  assert (He : busy k (l1 ++ LServe k :: l2) = fold_left (busy_label k) l2 (Some true)).
  { rewrite busy_app. cbn [fold_left busy_label]. by rewrite decide_True, Hs. }
  rewrite <- He. destruct Hf. by destruct k.
Qed.

(** An initial move, then an ESTOP and an iteration. *)
Definition init_schedule : list (Choice FEvent) :=
  now_command "init_position" ++ whole_cycle 2000 ++ Event (FtMove 0 test_reading test_reading) :: move_schedule 5
  ++ now_command "estop" ++ whole_cycle 3000.

(** The labels before and after the first output of the control loop. *)
Fixpoint cut_arm (l : list FLabel) : option (list FLabel * ArmSide * ArmOutput * list FLabel) :=
  match l with
  | [] => None
  | LArm s o :: l' => Some ([], s, o, l')
  | x :: l' => match cut_arm l' with Some (p, s, o, q) => Some (x :: p, s, o, q) | None => None end
  end.

Lemma cut_arm_spec l p s o q : cut_arm l = Some (p, s, o, q) -> l = p ++ LArm s o :: q.
Proof.
  revert p s o q. induction l as [|x l IH]; intros p s o q; [done|]. cbn [cut_arm].
  destruct x; try (destruct (cut_arm l) as [[[[p' s'] o'] q']|]; [|done]; intros [= <- <- <- <-]; cbn [app]; f_equal; by apply IH).
  by intros [= <- <- <- <-].
Qed.

Lemma moves_exclude_loop_witness :
  exists x l1 l2 o l3,
    follower_exec test_fenv id init_schedule (mkSys (test_fapp false []) follower_pool) =
      Ok (x, l1 ++ LServe KInit :: l2 ++ LArm RIGHT o :: l3) /\
    LFinish KInit ∈ l2.
Proof.
  assert (Hb : match follower_exec test_fenv id init_schedule (mkSys (test_fapp false []) follower_pool) with
    | Ok (x, z :: LServe KInit :: l) =>
        match cut_arm l with
        | Some (l2, RIGHT, _, _) => match busy KInit (z :: LServe KInit :: l2) with None => false | _ => true end
        | _ => false
        end
    | _ => false
    end = true) by (vm_compute; reflexivity).
  destruct (follower_exec test_fenv id init_schedule _) as [[x l]| |] eqn:H; [|discriminate Hb|discriminate Hb].
  destruct l as [|z [|[|[]| | | | | | | | |] l]]; try discriminate Hb.
  destruct (cut_arm l) as [[[[l2 []] o] l3]|] eqn:E; [|discriminate Hb|discriminate Hb].
  apply cut_arm_spec in E. subst l. exists x, [z], l2, o, l3. split; [reflexivity|].
  refine (moves_exclude_loop test_fenv id init_schedule (test_fapp false []) x KInit RIGHT o [z] l2 l3 H _ _);
    [discriminate|]. cbn [app]. destruct (busy KInit (z :: LServe KInit :: l2)) as [b|]; [|discriminate Hb].
  intros Hn. discriminate Hn.
Defined.

(** ** What is not guaranteed *)

(** The trace without packets, telemetry and the steps of moves. *)
Definition switching (l : FLabel) : bool :=
  match l with LMove _ _ | LFeedback _ _ | LTelemetry _ | LReply _ => false | _ => true end.

(** A recovery can leave the motors switched off. The control loop reads the
    safety states while they are still ESTOP; the recovery thread then resets the
    managers and clears [recover_estop_in_progress]; the control loop finds no move
    in progress and, with the states it has read, switches off the motors that the
    recovery has just enabled. Nothing enables them again: the recovery is complete
    and the safety managers wait for the enable flag. *)
Definition recovery_schedule : list (Choice FEvent) :=
  now_command "estop" ++ now_command "recover_estop" ++ whole_cycle 2000
  ++ Event (FtMove 0 test_reading test_reading) :: pose_schedule 5
  ++ Event (FtCycle (test_finput 3000)) :: steps main_thread 7 ++ steps 5 3 ++ steps main_thread 200.

Lemma recovery_leaves_motors_off :
  match follower_exec test_fenv id recovery_schedule (mkSys (test_fapp false []) follower_pool) with
  | Ok (x, l) =>
      (filter (fun z => switching z = true) l, sm_state (fo_safety (fa_right (sy_state x))),
       (fa_recover_in_progress (sy_state x), fa_moves (sy_state x)))
  | _ => ([], FAULT, (true, []))
  end =
  ([LTrigger RIGHT; LTrigger LEFT; LServe KRecover; LEnable RIGHT; LEnable LEFT; LStart MoveRecover;
    LReset RIGHT; LReset LEFT; LFinish KRecover; LArm RIGHT ArmDisable; LArm LEFT ArmDisable],
   WAITING_FOR_ENABLE, (false, [])).
Proof. vm_compute. reflexivity. Qed.

(** Two initial moves at once. A second [init_position] during the first move
    starts a second thread on the same motors; the end of the first clears
    [init_position_in_progress] and resets the safety managers, and the control loop
    commands the arms while the second is still moving them. *)
Definition double_init_schedule : list (Choice FEvent) :=
  now_command "init_position" ++ whole_cycle 2000 ++ now_command "init_position" ++ whole_cycle 3000
  ++ Event (FtMove 0 test_reading test_reading) :: Event (FtMove 0 test_reading test_reading) :: move_schedule 5
  ++ Event (FtPacket RIGHT 3500 (test_packet 1)) :: steps 3 1 ++ whole_cycle 4000 ++ steps 6 2.

Definition mover (l : FLabel) : option (bool * ArmSide) :=
  match l with
  | LArm s (ArmCommands _) => Some (true, s)
  | LMove s _ => Some (false, s)
  | _ => None
  end.

Lemma double_init_overlaps :
  match follower_exec test_fenv id double_init_schedule (mkSys (test_fapp false []) follower_pool) with
  | Ok (x, l) => drop 440 (omap mover l)
  | _ => []
  end = [(true, RIGHT); (false, RIGHT)].
Proof. vm_compute. reflexivity. Qed.
