(* ===== verification/FollowerDefined.v ===== *)
(** * No undefined behaviour in the follower's threads

    With arms of seven motors and a gripper, gains for eight motors, and packets
    whose degrees of freedom fit their arrays, every access of every thread of
    [FollowerThreads] is defined, whatever the schedule: no out-of-range read, no
    null pointer, no exception. *)

From S2P Require Import Prelude Float64 Crc32 Wire Packets PacketCodec TeleopStateBuffer Safety LinkCheck.
From S2P Require Import RuntimeControl Udp Dynamics RobotState Control ControlFacts NumParse AppCommon FollowerApp.
From S2P Require Import FollowerFacts Threads FollowerThreads FollowerInterleavings.
From stdpp Require Import gmap.

Open Scope Z_scope.

(** ** What the program relies on *)

(** A controller of a seven-joint arm with one gripper. *)
Record full_control (c : Control) : Prop := {
  fc_role : ct_role c = ROLE_FOLLOWER;
  fc_arm : length (rs_response (arm_of c)) = 7%nat /\ length (rs_reference (arm_of c)) = 7%nat;
  fc_hand : length (rs_response (hand_of c)) = 1%nat /\ length (rs_reference (hand_of c)) = 1%nat;
  fc_gains : (8 <= length (Kp_ c))%nat /\ (8 <= length (Kd_ c))%nat;
  fc_dynamics : forall d, ct_dynamics_f c = Some d -> (njoints d <= 7)%nat;
}.

(** A packet whose degrees of freedom fit its arrays. *)
Definition packet_fits (p : TeleopPacket) : Prop := shaped p /\ tp_arm_dof p <= 8 /\ tp_hand_dof p <= 4.

Section defined.
Context (env : FollowerEnv) (tanh : double -> double).
(** Whether the controllers were created. *)
Context (arms : bool).

Record sound (a : FollowerApp) : Prop := {
  so_arms side : bool_decide (is_Some (fo_control (follower_side side a))) = arms;
  so_control side c : fo_control (follower_side side a) = Some c -> full_control c;
  so_packet side p : tsb_get_latest (fo_buffer (follower_side side a)) = Some p -> packet_fits p;
  so_moves : fa_moves a <> [] -> arms = true;
}.

(** In real mode the program creates the controllers before the loop. *)
Context (real_arms : fe_mock env = false -> arms = true).
Context (recheck : ticks (fs_link_recheck_s (fe_fb env))) (period : ticks (d1 / fe_telemetry_rate_hz env)%D).

Abbreviation def := (defined (L := FLabel) no_failure sound).
Abbreviation any := (fun _ => True).

Create HintDb defined discriminated.

(** ** Single accesses *)

(** States that differ elsewhere. *)
Lemma sound_same a b :
  (forall side, fo_control (follower_side side b) = fo_control (follower_side side a) /\
                fo_buffer (follower_side side b) = fo_buffer (follower_side side a)) ->
  (fa_moves b <> [] -> arms = true) -> sound a -> sound b.
Proof using Type.
  intros Hs Hm [H1 H2 H3 H4]. split; [| | |exact Hm]; intros side; destruct (Hs side) as [E1 E2].
  - by rewrite E1.
  - intros c. rewrite E1. apply H2.
  - intros p. rewrite E2. apply H3.
Qed.

Lemma sound_put side c a :
  sound a -> arms = true -> full_control c -> sound (put side c a).
Proof using Type.
  intros [H1 H2 H3 H4] Ha Hc. split; [| | |done].
  - intros s. specialize (H1 s). destruct side, s; cbn in *; try done; by rewrite Ha.
  - intros s d. specialize (H2 s d). destruct side, s; cbn in *; try done; by intros [= <-].
  - intros s p. specialize (H3 s p). by destruct side, s.
Qed.

Lemma sound_get side a : sound a -> arms = true -> exists c, fo_control (follower_side side a) = Some c /\ full_control c.
Proof using Type.
  intros [H1 H2 _ _] Ha. specialize (H1 side). rewrite Ha in H1. apply bool_decide_eq_true in H1 as [c Hc].
  exists c. split; [done|by eapply H2].
Qed.

Lemma def_read {A} side (f : Control -> A) (Phi : A -> Prop) :
  arms = true -> (forall c, full_control c -> Phi (f c)) -> def Phi (read_control side f).
Proof using Type.
  intros Ha Hf. apply defined_act. intros s Hs. destruct (sound_get side s Hs Ha) as (c & Hc & Hfc). exists s, [], (f c).
  rewrite Hc. split_and!; [done|done|by apply Hf].
Qed.

Lemma def_on {A} side (f : Control -> outcome (Control * A)) (Phi : A -> Prop) :
  arms = true -> (forall c, full_control c -> exists c' b, f c = Ok (c', b) /\ full_control c' /\ Phi b) ->
  def Phi (on_control side f).
Proof using Type.
  intros Ha Hf. apply defined_act. intros s Hs. destruct (sound_get side s Hs Ha) as (c & Hc & Hfc). destruct (Hf c Hfc) as (c' & b & Hb & Hc' & HPhi).
  exists (put side c' s), [], b. rewrite Hc. cbn [deref mbind outcome_bind]. rewrite Hb. split_and!; [done| |done].
  by apply sound_put.
Qed.

Lemma def_write side f :
  arms = true -> (forall c, full_control c -> full_control (f c)) -> def any (write_control side f).
Proof using Type. intros Ha Hf. apply def_on; [done|]. intros c Hc. exists (f c), tt. split_and!; [done|by apply Hf|done]. Qed.

(** Accesses that do not touch controllers, buffers and moves. *)
Lemma def_keep {A} (f : FollowerApp -> FollowerApp) (l : FollowerApp -> list FLabel) (r : FollowerApp -> A) :
  (forall a side, fo_control (follower_side side (f a)) = fo_control (follower_side side a) /\
                  fo_buffer (follower_side side (f a)) = fo_buffer (follower_side side a)) ->
  (forall a, fa_moves (f a) = fa_moves a) ->
  def any (Act (fun a => Ok (f a, l a, r a)) Done).
Proof using Type.
  intros Hs Hm. apply defined_act. intros a Ha. exists (f a), (l a), (r a). split_and!; [done| |done].
  eapply sound_same; [apply Hs|rewrite Hm; by apply (so_moves a)|done].
Qed.

Lemma def_store f :
  (forall a side, fo_control (follower_side side (f a)) = fo_control (follower_side side a) /\
                  fo_buffer (follower_side side (f a)) = fo_buffer (follower_side side a)) ->
  (forall a, fa_moves (f a) = fa_moves a) -> def any (store f).
Proof using Type. apply (def_keep f (fun _ => []) (fun _ => tt)). Qed.

Lemma def_reset side : def any (reset_side side).
Proof using Type. apply (def_keep _ (fun _ => _) (fun _ => _)); destruct side; [intros ? []..|done|done]; done. Qed.
Lemma def_trigger side : def any (trigger_side side).
Proof using Type. apply (def_keep _ (fun _ => _) (fun _ => _)); destruct side; [intros ? []..|done|done]; done. Qed.

Lemma def_serve k : def any (begin_request k).
Proof using Type. apply (def_keep _ (fun _ => _) (fun _ => _)); destruct k; [intros ? []..|done|done|done]; done. Qed.

Lemma def_finish k : def any (finish k).
Proof using Type. apply (def_keep _ (fun _ => _) (fun _ => _)); destruct k; [intros ? []..|done|done|done]; done. Qed.

Lemma def_state side : def any (safety_state_of side).
Proof using Type. by apply defined_load. Qed.

Lemma def_any_load {A} (f : FollowerApp -> A) : def any (load f).
Proof using Type. by apply defined_load. Qed.

Lemma def_output l : def any (output l).
Proof using Type. apply defined_output. Qed.

Hint Resolve def_reset def_trigger def_serve def_finish def_state def_any_load def_output : defined.

Lemma def_start mv : arms = true -> def any (start_move mv).
Proof using Type.
  intros Ha. apply defined_act. intros a Hs. exists (set_moves (fa_moves a ++ [mv]) a), [LStart mv], tt. split_and!; [done| |done].
  apply (sound_same a); [by intros []|by intros _|done].
Qed.

Lemma sound_arms a : sound a -> has_arms env a = true -> arms = true.
Proof using Type.
  intros Hs Hh. unfold has_arms in Hh. apply andb_prop in Hh as [_ Hl]. by rewrite <- (so_arms a Hs LEFT).
Qed.

Lemma def_has_arms : def (fun b => b = true -> arms = true) (load (has_arms env)).
Proof using Type. apply defined_load. intros a Ha. by apply sound_arms. Qed.

(** A program whose result is not used further. *)
Ltac def_split :=
  repeat match goal with
    | |- defined _ _ _ (load (has_arms _) ≫= _) => eapply defined_bind; [apply def_has_arms|intros ? ?]
    | |- defined _ _ _ (_ ≫= _) => eapply (defined_bind _ _ any); [solve [auto with defined]|intros ? _]
    | |- defined _ _ _ (mret _) => exact I
    | |- defined _ _ _ (if ?b then _ else _) => destruct b eqn:?
    end.

Lemma def_exchange (f : FollowerApp -> FollowerApp) (b : FollowerApp -> bool) :
  def any (store f) -> def any (Act (fun a => Ok (f a, [], b a)) Done).
Proof using Type.
  intros Hf a Ha. exact (Hf a Ha).
Qed.

Lemma def_recover : def any (recover_prog env).
Proof using Type.
  unfold recover_prog. eapply (defined_bind _ _ any); [|intros b _].
  { apply (def_exchange (fun a => set_recover false (fa_recover_in_progress a) a)). by apply def_store; [intros ? []|]. }
  def_split. eapply (defined_bind _ _ any); [apply def_start; auto|done].
Qed.

Lemma def_init : def any (init_prog env).
Proof using Type.
  unfold init_prog. eapply (defined_bind _ _ any); [|intros b _].
  { apply (def_exchange (fun a => set_finit false (fa_init_in_progress a) a)). by apply def_store; [intros ? []|]. }
  def_split. eapply (defined_bind _ _ any); [apply def_start; auto|done].
Qed.

Lemma def_goto : def any (goto_prog env).
Proof using Type.
  unfold goto_prog. eapply (defined_bind _ _ any); [|intros b _].
  { apply (def_exchange (fun a => set_fgoto false (fa_goto_in_progress a) (fa_goto_target a) a)).
    by apply def_store; [intros ? []|]. }
  def_split. match goal with |- defined _ _ _ (match ?x with _ => _ end) => destruct x as [p|] eqn:E end; def_split.
  eapply (defined_bind _ _ any); [|done]. apply def_start. cbv beta in *. match goal with H : ?r = true -> _ |- _ => destruct r; [auto|discriminate E] end.
Qed.

Lemma def_safety side now t : def any (safety_prog side now t).
Proof using Type. unfold safety_prog. destruct t; [|done]. def_split. by apply def_store; [intros ? []; destruct side|destruct side]. Qed.
(** ** One arm *)

Lemma full_put_arm f c :
  full_control c -> length (rs_response (f (arm_of c))) = 7%nat -> length (rs_reference (f (arm_of c))) = 7%nat ->
  full_control (on_arm f c).
Proof using Type. intros [H1 H2 H3 H4 H5] Hr Hf. by split. Qed.

Lemma full_put_hand f c :
  full_control c -> length (rs_response (f (hand_of c))) = 1%nat -> length (rs_reference (f (hand_of c))) = 1%nat ->
  full_control (on_hand f c).
Proof using Type. intros [H1 H2 H3 H4 H5] Hr Hf. by split. Qed.

(** The four writes of whole vectors. *)
Lemma def_set_arm_responses side l : arms = true -> length l = 7%nat -> def any (write_control side (on_arm (set_responses l))).
Proof using Type. intros Ha Hl. apply def_write; [done|]. intros c Hc. apply full_put_arm; [done|done|apply (fc_arm c Hc)]. Qed.

Lemma def_set_hand_responses side l : arms = true -> length l = 1%nat -> def any (write_control side (on_hand (set_responses l))).
Proof using Type. intros Ha Hl. apply def_write; [done|]. intros c Hc. apply full_put_hand; [done|done|apply (fc_hand c Hc)]. Qed.

Lemma def_set_arm_references side l : arms = true -> length l = 7%nat -> def any (write_control side (on_arm (set_references l))).
Proof using Type. intros Ha Hl. apply def_write; [done|]. intros c Hc. apply full_put_arm; [done|apply (fc_arm c Hc)|done]. Qed.

Lemma def_set_hand_references side l : arms = true -> length l = 1%nat -> def any (write_control side (on_hand (set_references l))).
Proof using Type. intros Ha Hl. apply def_write; [done|]. intros c Hc. apply full_put_hand; [done|apply (fc_hand c Hc)|done]. Qed.

Lemma targets_defined rl p arm hand : packet_fits p -> exists tar, limited_targets rl p arm hand = Ok tar.
Proof using Type.
  intros ((H1 & _ & H2 & _) & Ha & Hh). unfold limited_targets.
  assert (Hw : forall n (ws : list Z), (n <= length ws)%nat -> exists l, for_n n (fun i => w ← vget ws i; Ok (double_of_bits w)) = Ok l).
  { intros n ws Hn. apply for_n_total. intros i Hi. destruct (vget_lt ws i) as (w & -> & _); [lia|]. by eexists. }
  destruct (Hw (Z.to_nat (tp_arm_dof p)) (tp_arm_pos p)) as [ta ->]; [lia|].
  destruct (Hw (Z.to_nat (tp_hand_dof p)) (tp_hand_pos p)) as [th ->]; [lia|]. by eexists.
Qed.

Lemma write_refs_defined tar vel off refs :
  (length refs <= length vel)%nat -> exists l, write_refs tar vel off refs = Ok l /\ length l = length refs.
Proof using Type.
  intros Hv. unfold write_refs. destruct (for_n_total (length refs) (fun i =>
    r ← vget refs i;
    match tar !! (i + off)%nat with
    | Some t => w ← vget vel i; Ok (mkJointState t (double_of_bits w) (js_effort r))
    | None => Ok r
    end)) as [l Hl].
  - intros i Hi. destruct (vget_lt refs i Hi) as (r & -> & _). destruct (vget_lt vel i) as (w & Ew & _); [lia|].
    cbn [mbind outcome_bind]. destruct (tar !! (i + off)%nat); [rewrite Ew|]; by eexists.
  - exists l. split; [done|]. by apply for_n_ok in Hl as [Hl _].
Qed.

Lemma def_track side p : arms = true -> packet_fits p -> def any (track_prog env side p).
Proof using Type.
  intros Ha Hp. unfold track_prog.
  eapply (defined_bind _ _ (fun l => length l = 7%nat)); [by apply def_read; [|intros c Hc; apply (fc_arm c Hc)]|intros arm_refs La].
  eapply (defined_bind _ _ (fun l => length l = 1%nat)); [by apply def_read; [|intros c Hc; apply (fc_hand c Hc)]|intros hand_refs Lh].
  eapply (defined_bind _ _ any); [auto with defined|intros rl _].
  eapply (defined_bind _ _ (fun x => length x.1 = 7%nat /\ length x.2 = 1%nat)).
  { apply defined_compute. destruct (targets_defined rl p arm_refs hand_refs Hp) as [tar ->]. cbn [mbind outcome_bind].
    destruct Hp as ((_ & V1 & _ & V2) & _).
    destruct (write_refs_defined tar (tp_arm_vel p) 0 arm_refs) as (arm' & -> & L1); [lia|]. cbn [mbind outcome_bind].
    destruct (write_refs_defined tar (tp_hand_vel p) (length arm_refs) hand_refs) as (hand' & -> & L2); [lia|].
    exists (arm', hand'). split; [done|]. cbn. lia. }
  intros [arm' hand'] [L1 L2]. cbn in L1, L2.
  eapply (defined_bind _ _ any); [by apply def_set_arm_references|intros _ _].
  eapply (defined_bind _ _ any); [by apply def_set_hand_references|intros _ _].
  apply def_write; [done|]. by intros c [].
Qed.
Lemma ff_defined c pos : full_control c -> length pos = 7%nat -> exists ff, follower_ff c pos 7 = Ok ff.
Proof using Type.
  intros Hc Hp. unfold follower_ff. destruct (follower_gravity_ff_ c); [|by eexists].
  destruct (ct_dynamics_f c) as [d|] eqn:Ed; [|by eexists]. pose proof (fc_dynamics c Hc d Ed) as Hn.
  destruct (GetGravity_ok d pos (replicate 7 d0)) as (g & -> & Lg & _); [lia|rewrite length_replicate; lia|].
  rewrite length_replicate in Lg. cbn [mbind outcome_bind]. apply for_n_total. intros i Hi.
  destruct (vget_lt g i) as (x & -> & _); [lia|]. by eexists.
Qed.

Lemma commands_defined c ff : full_control c -> exists cmds, follower_commands c 7 ff = Ok cmds.
Proof using Type.
  intros [_ [_ La] [_ Lh] [Gp Gd] _]. unfold follower_commands, arm_of, hand_of in *. cbv zeta.
  match goal with |- context [for_n ?n ?f ≫= _] => destruct (for_n_total n f) as [arm ->] end.
  { intros i Hi. rewrite length_arm_joint_to_motor, La in Hi.
    destruct (vget_lt (Kp_ c) i) as (p & -> & _); [lia|]. destruct (vget_lt (Kd_ c) i) as (d & -> & _); [lia|].
    match goal with |- context [vget ?l i] => destruct (vget_lt l i) as (r & -> & _) end; [|by eexists].
    rewrite length_arm_joint_to_motor. lia. }
  cbn [mbind outcome_bind].
  match goal with |- context [for_n ?n ?f ≫= _] => destruct (for_n_total n f) as [hand ->] end; [|by eexists].
  intros i Hi. rewrite length_gripper_joint_to_motor, Lh in Hi.
  destruct (vget_lt (Kp_ c) (i + 7)) as (p & -> & _); [lia|]. destruct (vget_lt (Kd_ c) (i + 7)) as (d & -> & _); [lia|].
  match goal with |- context [vget ?l i] => destruct (vget_lt l i) as (r & -> & _) end; [|by eexists].
  rewrite length_gripper_joint_to_motor. lia.
Qed.

Lemma reads_defined {A B} (l : list A) (f : A -> B) n :
  n = length l -> exists r, for_n n (fun i => s ← vget l i; Ok (f s)) = Ok r /\ length r = n.
Proof using Type. intros ->. rewrite for_n_map_vget. eexists. split; [done|]. by rewrite length_map. Qed.

Lemma def_unilateral side m : arms = true -> full_motors m -> def any (unilateral_prog tanh side m).
Proof using Type.
  intros Ha [Ma Mh]. unfold unilateral_prog. cbv zeta.
  assert (La : length (arm_motor_to_joint (arm_motors m)) = 7%nat) by by rewrite length_arm_motor_to_joint.
  assert (Lh : length (gripper_motor_to_joint (gripper_motors m)) = 1%nat) by by rewrite length_gripper_motor_to_joint.
  eapply (defined_bind _ _ any); [by apply def_set_arm_responses|intros _ _].
  eapply (defined_bind _ _ any); [by apply def_set_hand_responses|intros _ _].
  eapply (defined_bind _ _ (fun n => n = 7%nat)); [by apply def_read; [|intros c Hc; apply (fc_arm c Hc)]|intros n ->].
  eapply (defined_bind _ _ (fun n => n = 1%nat)); [by apply def_read; [|intros c Hc; apply (fc_hand c Hc)]|intros n ->].
  eapply (defined_bind _ _ (fun l => length l = 7%nat)).
  { apply defined_compute. destruct (reads_defined (arm_motor_to_joint (arm_motors m)) js_position 7) as (r & Hr & Lr); [done|]. by exists r. }
  intros pos Lp. eapply (defined_bind _ _ any).
  { apply defined_compute. rewrite <- Lh, for_n_vget_self. by eexists. }
  intros _ _. eapply (defined_bind _ _ (fun r => r = ROLE_FOLLOWER)); [by apply def_read; [|intros c Hc; apply (fc_role c Hc)]|intros r ->].
  eapply (defined_bind _ _ (fun l => length l = 7%nat)); [by apply def_read; [|intros c Hc; apply (fc_arm c Hc)]|intros arm_ref Lar].
  eapply (defined_bind _ _ (fun l => length l = 1%nat)); [by apply def_read; [|intros c Hc; apply (fc_hand c Hc)]|intros hand_ref Lhr].
  apply def_on; [done|]. intros c Hc. cbv zeta.
  set (c0 := on_hand (set_references hand_ref) (on_arm (set_references arm_ref) c)).
  assert (Hc0 : full_control c0).
  { apply full_put_hand; [apply full_put_arm; [done|apply (fc_arm c Hc)|done]|apply (fc_hand c Hc)|done]. }
  destruct (ff_defined c0 pos Hc0 Lp) as [ff ->]. cbn [mbind outcome_bind].
  destruct (commands_defined c0 ff Hc0) as [cmds ->]. by exists c, cmds.
Qed.

Lemma def_send side o : def any (send_arm side o).
Proof using Type. unfold send_arm. by def_split. Qed.

Lemma def_side side st t m :
  arms = true -> (forall p, t = Some p -> packet_fits p) -> full_motors m -> def any (side_prog env tanh side st t m).
Proof using Type.
  intros Ha Ht Hm. unfold side_prog.
  eapply (defined_bind _ _ any); [by apply def_read|intros _ _].
  assert (Hrun : def any (cmds ← unilateral_prog tanh side m; send_arm side (ArmCommands cmds))).
  { eapply (defined_bind _ _ any); [by apply def_unilateral|intros cmds _]. apply def_send. }
  assert (Htr : def any (match t with Some p => track_prog env side p | None => mret tt end)).
  { destruct t as [p|]; [|done]. apply def_track; auto. }
  destruct st; try apply def_send; try done; eapply (defined_bind _ _ any); try done.
Qed.

Lemma def_arms i tr tl sr sl :
  (forall p, tr = Some p -> packet_fits p) -> (forall p, tl = Some p -> packet_fits p) ->
  full_motors (fi_motors_r i) -> full_motors (fi_motors_l i) -> def any (arms_prog env tanh i tr tl sr sl).
Proof using real_arms.
  intros Hr Hl Mr Ml. unfold arms_prog. eapply (defined_bind _ _ (fun b => b = true -> arms = true)).
  - unfold may_move. destruct (fe_mock env) eqn:Em; [done|]. def_split; try done. intros _. by apply real_arms.
  - intros b Hb. destruct b; [|done]. specialize (Hb eq_refl).
    eapply (defined_bind _ _ any); [by apply def_side|intros o_r _]. eapply (defined_bind _ _ any); [by apply def_side|done].
Qed.

(** ** Feedback and telemetry *)

Definition arm_lengths (x : list JointState * list JointState) : Prop := length x.1 = 7%nat /\ length x.2 = 1%nat.

Lemma def_responses side : arms = true -> def arm_lengths (read_responses side).
Proof using Type.
  intros Ha. unfold read_responses.
  eapply (defined_bind _ _ (fun l => length l = 7%nat)); [by apply def_read; [|intros c Hc; apply (fc_arm c Hc)]|intros arm La].
  eapply (defined_bind _ _ (fun l => length l = 1%nat)); [by apply def_read; [|intros c Hc; apply (fc_hand c Hc)]|intros hand Lh].
  by split.
Qed.

Lemma def_references side : arms = true -> def arm_lengths (read_references side).
Proof using Type.
  intros Ha. unfold read_references.
  eapply (defined_bind _ _ (fun l => length l = 7%nat)); [by apply def_read; [|intros c Hc; apply (fc_arm c Hc)]|intros arm La].
  eapply (defined_bind _ _ (fun l => length l = 1%nat)); [by apply def_read; [|intros c Hc; apply (fc_hand c Hc)]|intros hand Lh].
  by split.
Qed.

Lemma def_feedback i tr tl sr sl : def any (feedback_prog env i tr tl sr sl).
Proof using recheck.
  unfold feedback_prog. destruct (fs_enabled _); [|done].
  eapply (defined_bind _ _ any); [|intros _ _].
  { apply defined_act. intros a Ha. destruct recheck as [dt Hdt]. unfold recheck_link. destruct (fa_next_link_check a <=? fi_now i).
    - destruct (follower_link_ok _ _) as [ok link]. rewrite Hdt. do 3 eexists. split; [reflexivity|]. split; [|done].
      apply (sound_same a); [by intros []|apply (so_moves a Ha)|done].
    - by exists a, [], tt. }
  eapply defined_bind; [apply def_has_arms|intros real Hr].
  eapply (defined_bind _ _ any); [|intros [jr jl] _].
  { destruct real; [|done]. specialize (Hr eq_refl).
    eapply defined_bind; [by apply def_responses|intros jr _]. eapply defined_bind; [by apply def_responses|done]. }
  def_split. apply (def_keep (fun a => _) (fun a => _) (fun a => _)); [by intros ? []|done].
Qed.

Lemma rows_defined room resp ref :
  length ref = length resp -> exists rows, telemetry_rows room resp ref = Ok rows.
Proof using Type.
  intros Hl. apply for_n_total. intros i Hi. destruct (vget_lt resp i) as (s & -> & _); [lia|].
  destruct (vget_lt ref i) as (r & -> & _); [lia|]. by eexists.
Qed.

Lemma arm_rows_defined room r r' : arm_lengths r -> arm_lengths r' -> exists rows, arm_rows room r.1 r.2 r'.1 r'.2 = Ok rows.
Proof using Type.
  intros [L1 L2] [L1' L2']. unfold arm_rows. destruct (rows_defined room r.1 r'.1) as [a ->]; [congruence|].
  cbn [mbind outcome_bind]. destruct (rows_defined (room - length a) r.2 r'.2) as [h ->]; [congruence|]. by eexists.
Qed.

Lemma def_telemetry i sr sl : def any (telemetry_prog env i sr sl).
Proof using period.
  unfold telemetry_prog. eapply (defined_bind _ _ any); [auto with defined|intros due _]. destruct due; [|done].
  eapply (defined_bind _ _ (fun b => b = true -> arms = true)).
  { apply defined_load. intros a Ha [Hb _]%bool_decide_eq_true. rewrite <- (so_arms a Ha RIGHT). by apply bool_decide_eq_true. }
  intros both Hb. eapply (defined_bind _ _ any).
  { destruct both; [|done]. specialize (Hb eq_refl).
    eapply defined_bind; [by apply def_responses|intros [ra rh] H1]. eapply defined_bind; [by apply def_responses|intros [la lh] H2].
    eapply defined_bind; [by apply def_references|intros [ra' rh'] H3]. eapply defined_bind; [by apply def_references|intros [la' lh'] H4].
    apply defined_compute. destruct (arm_rows_defined 16 _ _ H1 H3) as [r Er]. cbn [fst snd] in Er. rewrite Er. cbn [mbind outcome_bind].
    destruct (arm_rows_defined (16 - length r) _ _ H2 H4) as [l El]. cbn [fst snd] in El. rewrite El. by eexists. }
  intros rows _. apply defined_act. intros a Ha. unfold publish_telemetry. destruct (publish _ _) as [d pub]. destruct period as [dt ->].
  do 3 eexists. split; [reflexivity|]. split; [|done]. apply (sound_same a); [by intros []|apply (so_moves a Ha)|done].
Qed.
(** ** The threads *)

Lemma def_target side :
  def (fun t => forall p, t = Some p -> packet_fits p) (load (fun a => tsb_get_latest (fo_buffer (follower_side side a)))).
Proof using Type. apply defined_load. intros a Ha p. by apply (so_packet a Ha). Qed.

Lemma def_follower i :
  full_motors (fi_motors_r i) -> full_motors (fi_motors_l i) -> def any (_ ← follower_prog env tanh i; mret tt).
Proof using real_arms recheck period.
  intros Mr Ml. eapply (defined_bind _ _ any); [|done]. unfold follower_prog.
  eapply (defined_bind _ _ any); [apply def_recover|intros m1 _]. eapply (defined_bind _ _ any); [apply def_init|intros m2 _].
  eapply (defined_bind _ _ any); [apply def_goto|intros m3 _].
  eapply defined_bind; [apply (def_target RIGHT)|intros tr Hr]. eapply defined_bind; [apply (def_target LEFT)|intros tl Hl].
  eapply (defined_bind _ _ any); [apply def_safety|intros _ _]. eapply (defined_bind _ _ any); [apply def_safety|intros _ _].
  eapply (defined_bind _ _ any); [auto with defined|intros sr _]. eapply (defined_bind _ _ any); [auto with defined|intros sl _].
  eapply (defined_bind _ _ any); [by apply def_arms|intros [o_r o_l] _].
  eapply (defined_bind _ _ any); [apply def_feedback|intros fbp _]. by eapply (defined_bind _ _ any); [apply def_telemetry|].
Qed.

Lemma def_packet side now p : packet_fits p -> def any (packet_prog side now p).
Proof using Type.
  intros Hp. apply defined_store. intros a [H1 H2 H3 H4].
  destruct (tsb_update_fields now p (fo_buffer (follower_side side a))) as (E1 & E2 & _).
  split; [intros s; specialize (H1 s); by destruct side, s|intros s; specialize (H2 s); by destruct side, s| |by destruct side].
  intros s q. specialize (H3 s q). unfold tsb_get_latest in *.
  destruct side, s; cbn [packet_arrives upd_side set_sides follower_side fa_right fa_left fo_buffer] in *; try done;
    rewrite E1, E2; by intros [= <-].
Qed.

Lemma def_signal : def any signal_prog.
Proof using Type. unfold signal_prog. def_split. by apply def_store; [intros ? []|]. Qed.

Lemma def_handler w h args : handler_progs env !! w = Some h -> def any (h args).
Proof using Type.
  unfold handler_progs.
  repeat (rewrite lookup_insert_Some; intros [[<- <-]|[_ H]]; [|revert H]); [..|done].
  - eapply (defined_bind _ _ any); [by apply def_store; [intros ? []|]|done].
  - eapply (defined_bind _ _ any); [by apply def_store; [intros ? []|]|done].
  - unfold estop_prog. by def_split.
  - unfold reset_safety_prog. by def_split.
  - unfold goto_pose_prog. destruct (parse_pose16 args) as [[] vals]; [|done]. cbn [negb].
    eapply (defined_bind _ _ any); [by apply def_store; [intros ? []|]|intros _ _].
    eapply (defined_bind _ _ any); [by apply def_store; [intros ? []|]|done].
  - eapply (defined_bind _ _ any); [by apply def_store; [intros ? []|]|done].
  - unfold status_prog. by def_split.
Qed.

Lemma def_command line : def any (command_prog env line).
Proof using Type.
  unfold command_prog. destruct (match split_first (trim line) with (w, Some rest) => _ | _ => _ end) as [w args].
  eapply (defined_bind _ _ any); [|intros r _; auto with defined].
  destruct (handler_progs env !! w) as [h|] eqn:E; [by eapply def_handler|done].
Qed.

Lemma def_pose side ta tg rd : arms = true -> (forall k, full_motors (rd k)) -> def any (pose_prog side ta tg rd).
Proof using Type.
  intros Ha Hrd. unfold pose_prog. cbv zeta.
  assert (La : forall k, length (arm_motor_to_joint (without_effort (arm_motors (rd k)))) = 7%nat).
  { intros k. unfold without_effort. rewrite length_arm_motor_to_joint, length_map. apply (Hrd k). }
  assert (Lh : forall k, length (gripper_motor_to_joint (without_effort (gripper_motors (rd k)))) = 1%nat).
  { intros k. unfold without_effort. rewrite length_gripper_motor_to_joint, length_map. apply (Hrd k). }
  eapply (defined_bind _ _ any); [apply defined_for; intros step _|intros _ _].
  - eapply (defined_bind _ _ any); [apply defined_compute|intros cmds _].
    + destruct (move_commands_ok (arm_goal ta) (hand_goal tg (length (gripper_motor_to_joint (without_effort (gripper_motors (rd 0%nat))))))
        (arm_motor_to_joint (without_effort (arm_motors (rd 0%nat))))
        (gripper_motor_to_joint (without_effort (gripper_motors (rd 0%nat)))) step (length_arm_goal _)) as (a & h & -> & _).
      * rewrite La. lia.
      * rewrite length_hand_goal, Lh. lia.
      * by rewrite length_hand_goal.
      * by eexists.
    + eapply (defined_bind _ _ any); [auto with defined|intros _ _].
      eapply (defined_bind _ _ any); [by apply def_set_arm_responses|intros _ _]. by apply def_set_hand_responses.
  - eapply (defined_bind _ _ any); [by apply def_set_arm_references|intros _ _].
    eapply (defined_bind _ _ any); [by apply def_set_hand_references|intros _ _].
    eapply (defined_bind _ _ any); [by apply def_set_arm_responses|intros _ _]. by apply def_set_hand_responses.
Qed.

Lemma def_finish_prog mv : def any (finish_prog mv).
Proof using Type. unfold finish_prog. def_split. auto with defined. Qed.

(** ** The pool *)

Definition sound_rely (k : nat) (x y : FConfig) : Prop := sound x.1 -> sound y.1.

Definition good_event (e : FEvent) : Prop :=
  match e with
  | FtCycle i => full_motors (fi_motors_r i) /\ full_motors (fi_motors_l i)
  | FtPacket _ _ p => packet_fits p
  | FtMove _ rr rl => forall k, full_motors (rr k) /\ full_motors (rl k)
  | _ => True
  end.

Lemma sound_wp (p : FProg unit) (x : FConfig) k :
  def any p -> sound x.1 -> wp no_failure (sound_rely k) (sound_rely k) p (fun _ y => sound y.1) x.
Proof using Type.
  intros Hp Hx. eapply wp_mono; [|apply (wp_defined no_failure (sound_rely k) (sound_rely k) sound any p x)]; [|auto|by intros y s l _ Hs _|done|done].
  by intros a y [_ Hy].
Qed.

Abbreviation sound_pool := (pool_ok 5 no_failure sound_rely sound_rely anything).

Lemma sound_begin e s tr ts s' ts' :
  good_event e -> sound s -> sound_pool (s, tr) ts -> follower_begin env tanh e s ts = Some (s', ts') ->
  sound s' /\ sound_pool (s', tr) ts'.
Proof using real_arms recheck period.
  intros He Hi [Hlen Hp] Hb.
  assert (Hseq : forall k p, def any p -> thread_ok no_failure (sound_rely k) (sound_rely k) (anything k) (Seq p) (s, tr)).
  { intros k p Hd. eapply wp_mono; [|by apply (sound_wp p (s, tr) k)]. done. }
  assert (Hgive : forall k p, def any p -> give k p s ts = Some (s', ts') -> sound s' /\ sound_pool (s', tr) ts').
  { intros k p Hd [-> ->]%give_inv. split; [done|]. split; [by rewrite length_insert|]. intros j u Hj.
    apply list_lookup_insert_Some in Hj as [(<- & <- & _)|[_ Hj]]; [by apply Hseq|by apply Hp]. }
  destruct e as [i|line| |side now p|k rr rl]; cbn [follower_begin good_event] in *.
  - destruct (fa_keep_running s); [|done]. destruct He. by eapply Hgive; [apply def_follower|].
  - by eapply Hgive; [apply def_command|].
  - by eapply Hgive; [apply def_signal|].
  - by eapply Hgive; [apply def_packet|].
  - destruct (fa_moves s !! k) as [mv|] eqn:Ek; [|done]. injection Hb as <- <-.
    assert (Ha : arms = true) by (apply (so_moves s Hi); by intros E; rewrite E in Ek).
    set (s' := set_moves (delete k (fa_moves s)) s).
    assert (Hs : sound s') by (by apply (sound_same s); [intros []| |]).
    split; [done|]. split; [rewrite length_app; lia|]. intros j u Hj. apply lookup_app_Some in Hj as [Hj|[Hge Hj]].
    + eapply thread_ok_rely; [|intros _; exact Hs|by apply Hp]. intros x y z H1 H2 H3. by apply H2, H1.
    + apply list_lookup_singleton_Some in Hj as [Hj <-]. unfold move_thread. cbv zeta. split; [done|].
      exists (fun y => sound y.1), (fun y => sound y.1). split_and!.
      * by apply sound_wp; [apply def_pose; [|intros n; apply He]|].
      * by apply sound_wp; [apply def_pose; [|intros n; apply He]|].
      * intros y Hy _. eapply wp_mono; [|by apply sound_wp; [apply def_finish_prog|]]. done.
Qed.

Definition good_choices (cs : list (Choice FEvent)) : Prop :=
  Forall (fun c => match c with Run _ _ => True | Event e => good_event e end) cs.

Lemma exec_sound cs a :
  sound a -> good_choices cs -> exists x l, follower_exec env tanh cs (mkSys a follower_pool) = Ok (x, l) /\ sound (sy_state x).
Proof using real_arms recheck period.
  intros Ha Hc.
  pose proof (sys_exec_ok (follower_begin env tanh) 5 no_failure sound_rely sound_rely anything (fun y => sound y.1) good_event) as Hok.
  assert (H1 : forall (k : nat) x, sound_rely k x x) by (intros k x H; exact H).
  assert (H2 : forall (k : nat) x y z, sound_rely k x y -> sound_rely k y z -> sound_rely k x z).
  { intros k x y z Hxy Hyz H. by apply Hyz, Hxy. }
  specialize (Hok H1 H2 (fun _ _ _ _ _ H => H) (fun _ _ _ H => H) sound_begin cs (mkSys a follower_pool) [] Hc Ha).
  assert (Hpool : sound_pool (a, []) follower_pool).
  { split; [done|]. intros k t Ht. by apply lookup_replicate in Ht as [-> _]. }
  specialize (Hok Hpool). unfold follower_exec.
  destruct (sys_exec _ _ _) as [[x l]| |]; [|by destruct Hok as (? & ? & ? & ? & _ & _ & [])..].
  exists x, l. split; [done|]. apply Hok.
Qed.
End defined.

(** ** Packets that do not fit *)

Lemma read_words_undef ws n :
  (length ws < Z.to_nat n)%nat -> for_n (Z.to_nat n) (fun i => w ← vget ws i; Ok (double_of_bits w)) = Undef.
Proof.
  intros Hn. apply (for_n_undef _ _ (length ws)); [done| |].
  - unfold vget. by rewrite lookup_ge_None_2.
  - intros i Hi. destruct (vget_lt ws i Hi) as (w & -> & _). by eexists.
Qed.

Lemma side_cycle_overrun env tanh p st m rl c :
  shaped p -> 8 < tp_arm_dof p \/ 4 < tp_hand_dof p -> st = ACTIVE \/ st = READY \/ st = WARNING_TIMEOUT ->
  side_cycle env tanh st (Some p) m rl c = Undef.
Proof.
  intros (L1 & _ & L2 & _) Hd Hst.
  assert (Ht : forall arm hand, limited_targets rl p arm hand = Undef).
  { intros arm hand. unfold limited_targets. destruct (decide (8 < tp_arm_dof p)) as [Ha|Ha].
    - by rewrite (read_words_undef (tp_arm_pos p)) by lia.
    - destruct (for_n_total (Z.to_nat (tp_arm_dof p)) (fun i => w ← vget (tp_arm_pos p) i; Ok (double_of_bits w))) as [ta ->].
      { intros i Hi. destruct (vget_lt (tp_arm_pos p) i) as (w & -> & _); [lia|]. by eexists. }
      cbn [mbind outcome_bind]. by rewrite (read_words_undef (tp_hand_pos p)) by lia. }
  unfold side_cycle, track_packet. rewrite Ht. by destruct Hst as [-> |[-> | ->]].
Qed.

(** ** Properties *)

(** C8: No undefined behaviour under any interleaving, as long as the packets'
    degrees of freedom fit their arrays. For arms of seven motors and a gripper
    with gains for eight motors, in real or mock mode, with periods that fit a
    clock count: whatever the schedule of the main loop, the control server, the
    signal handler, the receivers and any number of pose moves, no thread reads
    out of range, uses a null pointer or throws, and the state keeps this
    well-formedness. The receiver does not check the degrees of freedom: any
    packet with more than eight arm or four hand joints is accepted from the
    network, and the cycle that tracks it reads past its arrays. *)
Theorem threads_defined (env : FollowerEnv) (tanh : double -> double) :
  (forall (arms : bool) (cs : list (Choice FEvent)) (a : FollowerApp),
    (fe_mock env = false -> arms = true) ->
    ticks (fs_link_recheck_s (fe_fb env)) -> ticks (d1 / fe_telemetry_rate_hz env)%D ->
    sound arms a -> good_choices cs ->
    exists x l, follower_exec env tanh cs (mkSys a follower_pool) = Ok (x, l) /\ sound arms (sy_state x)) /\
  (forall p now st m rl c, well_formed p -> in_width 64 now -> 8 < tp_arm_dof p \/ 4 < tp_hand_dof p ->
    st = ACTIVE \/ st = READY \/ st = WARNING_TIMEOUT ->
    receive_teleop (serialize (teleop_encode now p)) = Some (teleop_encode now p) /\
    side_cycle env tanh st (Some (teleop_encode now p)) m rl c = Undef).
Proof.
  split; [intros arms cs a H1 H2 H3; by apply exec_sound|].
  intros p now st m rl c Hw Hn Hd Hst. split; [by apply receive_teleop_encode|].
  apply side_cycle_overrun; [apply Hw|done|done].
Qed.

Lemma test_follower_full : full_control test_follower.
Proof. split; [done|by split|by split|by split; vm_compute; lia|]. intros d [= <-]. vm_compute. lia. Qed.

Lemma test_fapp_sound : sound true (test_fapp false []).
Proof.
  split; [by intros []| |by intros []|done]. intros [] c [= <-]; apply test_follower_full.
Qed.

(** A packet that claims nine arm joints. *)
Definition greedy_packet : TeleopPacket :=
  mkTeleopPacket 0 0 0 1 0 0 1 1 0 9 1 0 0 (replicate 8 0) (replicate 8 0) (replicate 4 0) (replicate 4 0) 0.

Lemma greedy_wf : well_formed greedy_packet.
Proof. split; [done|]. apply (bool_decide_unpack _). vm_compute. exact I. Defined.

(** Two pose moves at once, packets, commands and iterations. *)
Lemma threads_defined_witness :
  sound true (test_fapp false []) /\
  (exists x l, follower_exec test_fenv id double_init_schedule (mkSys (test_fapp false []) follower_pool) = Ok (x, l) /\
    sound true (sy_state x)) /\
  side_cycle test_fenv id ACTIVE (Some (teleop_encode 0 greedy_packet)) test_motors (fo_limiter test_fside) test_follower
    = Undef.
Proof.
  split; [exact test_fapp_sound|]. split; [|apply (proj2 (threads_defined test_fenv id) greedy_packet 0);
    [exact greedy_wf|split; [lia|reflexivity]|left; reflexivity|left; reflexivity]].
  apply (proj1 (threads_defined test_fenv id) true double_init_schedule (test_fapp false [])).
  - reflexivity.
  - eexists. vm_compute. reflexivity.
  - eexists. vm_compute. reflexivity.
  - exact test_fapp_sound.
  - unfold good_choices, double_init_schedule, now_command, whole_cycle, move_schedule, pose_schedule, steps.
    repeat (first [simple apply Forall_replicate; exact I|simple apply Forall_app_2|simple apply Forall_cons_2|exact I]);
      try exact I; cbn [good_event]; try (split; split; reflexivity); try (intros k; split; split; reflexivity).
    split; [repeat split|split; vm_compute; discriminate].
Defined.
