(* ===== verification/FollowerAlone.v ===== *)
(** * The follower's threads without interruption

    Each program of [FollowerThreads], executed without interruption, does what
    [FollowerApp] takes as one step; so every execution of [FollowerApp] is an
    execution of the threads. *)

From S2P Require Import Prelude Float64 Crc32 Wire Packets PacketCodec TeleopStateBuffer Safety LinkCheck.
From S2P Require Import RuntimeControl Udp Dynamics RobotState Control ControlFacts NumParse AppCommon FollowerApp.
From S2P Require Import FollowerFacts Threads FollowerThreads.
From stdpp Require Import gmap.

Open Scope Z_scope.

(** ** Observing a run *)

(** The outputs. *)
Definition visible (l : FLabel) : bool :=
  match l with
  | LServe _ | LFinish _ | LReset _ | LTrigger _ => false
  | _ => true
  end.

(** Outputs of the main loop. *)
Definition loop_output (l : FLabel) : bool :=
  match l with LEnable _ | LStart _ | LArm _ _ | LFeedback _ _ | LTelemetry _ => true | _ => false end.

Abbreviation loop_outputs := (filter (fun l => loop_output l = true)).

Abbreviation alone := (solo visible).

(** ** The controllers *)

Lemma put_self side c a : fo_control (follower_side side a) = Some c -> put side c a = a.
Proof. destruct a as [? ? ? ? ? ? ? ? [] [] ? ? ? ? ? ? ?], side; simpl; by intros ->. Qed.

Lemma put_put side c d a : put side c (put side d a) = put side c a.
Proof. by destruct side. Qed.

Lemma control_put side c a : fo_control (follower_side side (put side c a)) = Some c.
Proof. by destruct side. Qed.

Lemma alone_on {B D} side c a (f : Control -> outcome (Control * B)) (k : B -> FProg D) :
  alone (on_control side f ≫= k) (put side c a) = '(c', b) ← f c; alone (k b) (put side c' a).
Proof.
  rewrite alone_bind. unfold on_control. rewrite alone_act, control_put. cbn [deref mbind outcome_bind].
  destruct (f c) as [[c' b]| |]; simpl; [|done|done]. change (upd_side side (with_fcontrol (Some c')) (put side c a))
    with (put side c' (put side c a)). rewrite put_put. by destruct (alone (k b) _) as [[[? ?] ?]| |].
Qed.

Lemma alone_on_last {B} side c a (f : Control -> outcome (Control * B)) :
  alone (on_control side f) (put side c a) = '(c', b) ← f c; Ok (put side c' a, [], b).
Proof.
  unfold on_control. rewrite alone_act, control_put. cbn [deref mbind outcome_bind].
  destruct (f c) as [[c' b]| |]; simpl; [|done|done].
  change (upd_side side (with_fcontrol (Some c')) (put side c a)) with (put side c' (put side c a)). by rewrite put_put.
Qed.

Lemma alone_write {D} side c a f (k : unit -> FProg D) :
  alone (write_control side f ≫= k) (put side c a) = alone (k tt) (put side (f c) a).
Proof. unfold write_control. by rewrite alone_on. Qed.

Lemma alone_write_last side c a f : alone (write_control side f) (put side c a) = Ok (put side (f c) a, [], tt).
Proof. unfold write_control. by rewrite alone_on_last. Qed.

Lemma alone_read {B D} side c a (f : Control -> B) (k : B -> FProg D) :
  alone (read_control side f ≫= k) (put side c a) = alone (k (f c)) (put side c a).
Proof.
  rewrite alone_bind. unfold read_control. rewrite alone_act, control_put. simpl.
  by destruct (alone (k (f c)) _) as [[[? ?] ?]| |].
Qed.

Lemma alone_deref {B D} side a (f : Control -> B) (k : B -> FProg D) :
  alone (read_control side f ≫= k) a = c ← deref (fo_control (follower_side side a)); alone (k (f c)) a.
Proof.
  rewrite alone_bind. unfold read_control. rewrite alone_act.
  destruct (fo_control (follower_side side a)) as [c|]; simpl; [|done].
  by destruct (alone (k (f c)) a) as [[[? ?] ?]| |].
Qed.

Create Rewrite HintDb alone.
#[export] Hint Rewrite @alone_load @alone_store @alone_compute @alone_on @alone_write @alone_read @alone_on_last
  alone_write_last : alone.

(** ** One iteration *)

Section alone.
Context (env : FollowerEnv) (tanh : double -> double).

Lemma set_recover_self a : set_recover (fa_recover_requested a) (fa_recover_in_progress a) a = a.
Proof. by destruct a. Qed.

Lemma set_finit_self a : set_finit (fa_init_requested a) (fa_init_in_progress a) a = a.
Proof. by destruct a. Qed.

Lemma set_fgoto_self a : set_fgoto (fa_goto_requested a) (fa_goto_in_progress a) (fa_goto_target a) a = a.
Proof. by destruct a. Qed.

Lemma recover_alone a :
  alone (recover_prog env) a =
    let '(a', m) := serve_recover env a in
    Ok (a', match m with [] => [] | _ => [LEnable RIGHT; LEnable LEFT] end ++ map LStart m, m).
Proof.
  unfold recover_prog, serve_recover. rewrite alone_bind, alone_act. cbn [observed mbind outcome_bind].
  destruct (fa_recover_requested a) eqn:E; [|rewrite <- E, set_recover_self; done].
  rewrite alone_bind. unfold begin_request. rewrite alone_act. cbn [observed mbind outcome_bind].
  rewrite alone_load. cbv zeta. change (has_arms env (set_progress KRecover true _)) with (has_arms env a).
  change (has_arms env (set_recover false true a)) with (has_arms env a). by destruct (has_arms env a).
Qed.

Lemma init_alone a :
  alone (init_prog env) a = let '(a', m) := serve_finit env a in Ok (a', map LStart m, m).
Proof.
  unfold init_prog, serve_finit. rewrite alone_bind, alone_act. cbn [observed mbind outcome_bind].
  destruct (fa_init_requested a) eqn:E; [|rewrite <- E, set_finit_self; done].
  rewrite alone_bind. unfold begin_request. rewrite alone_act. cbn [observed mbind outcome_bind].
  rewrite alone_load. cbv zeta. change (has_arms env (set_progress KInit true _)) with (has_arms env a).
  change (has_arms env (set_finit false true a)) with (has_arms env a). by destruct (has_arms env a).
Qed.

Lemma goto_alone a :
  alone (goto_prog env) a = let '(a', m) := serve_fgoto env a in Ok (a', map LStart m, m).
Proof.
  unfold goto_prog, serve_fgoto. rewrite alone_bind, alone_act. cbn [observed mbind outcome_bind].
  destruct (fa_goto_requested a) eqn:E; [|rewrite <- E, set_fgoto_self; done].
  rewrite alone_bind. unfold begin_request. rewrite alone_act. cbn [observed mbind outcome_bind].
  rewrite !alone_load. cbv zeta. change (has_arms env (set_progress KGoto true _)) with (has_arms env a).
  change (has_arms env (set_fgoto false true (fa_goto_target a) a)) with (has_arms env a).
  change (fa_goto_target (set_progress KGoto true _)) with (fa_goto_target a).
  change (fa_goto_target (set_fgoto false true (fa_goto_target a) a)) with (fa_goto_target a).
  by destruct (if has_arms env a then _ else _).
Qed.

Lemma safety_alone side now a :
  alone (safety_prog side now (tsb_get_latest (fo_buffer (follower_side side a)))) a =
    Ok (upd_side side (safety_side now) a, [], tt).
Proof.
  destruct a as [? ? ? ? ? ? ? ? [b s l c] [b' s' l' c'] ? ? ? ? ? ? ?], side; unfold safety_prog, safety_side; cbn.
  - by destruct (tsb_get_latest b) eqn:E.
  - by destruct (tsb_get_latest b') eqn:E.
Qed.

(** ** One arm *)

Lemma track_alone side p c a :
  alone (track_prog env side p) (put side c a) =
    c' ← track_packet env (fo_limiter (follower_side side a)) p c; Ok (put side c' a, [], tt).
Proof.
  unfold track_prog, track_packet, arm_of, hand_of. autorewrite with alone.
  replace (fo_limiter (follower_side side (put side c a))) with (fo_limiter (follower_side side a)) by by destruct side.
  cbv zeta. destruct (limited_targets _ _ _ _) as [tar| |]; cbn [mbind outcome_bind]; [|done|done].
  destruct (write_refs tar (tp_arm_vel p) _ _) as [arm'| |]; cbn [mbind outcome_bind]; [|done|done].
  destruct (write_refs tar (tp_hand_vel p) _ _) as [hand'| |]; cbn [mbind outcome_bind]; [|done|done].
  autorewrite with alone. done.
Qed.
(** Storing the own references again changes nothing. *)
Lemma reread_references c :
  on_hand (set_references (rs_reference (hand_of c))) (on_arm (set_references (rs_reference (arm_of c))) c) = c.
Proof. by destruct c as [? ? [[] []]]. Qed.

Lemma with_responses_twice m c : with_responses m (with_responses m c) = with_responses m c.
Proof. done. Qed.

Lemma unilateral_alone side m c a :
  alone (unilateral_prog tanh side m) (put side c a) =
    let '(c', r) := unilateral_step tanh m c in cmds ← r; Ok (put side c' a, [], cmds).
Proof.
  unfold unilateral_prog. cbv zeta. autorewrite with alone.
  set (c1 := on_hand _ (on_arm _ c)). assert (E : c1 = with_responses m c) by done.
  change (get_size (arm_of c1)) with (length (arm_motor_to_joint (arm_motors m))).
  change (get_size (hand_of c1)) with (length (gripper_motor_to_joint (gripper_motors m))).
  rewrite for_n_map_vget, for_n_vget_self. cbn [mbind outcome_bind]. unfold unilateral_step. cbv zeta. rewrite <- E.
  autorewrite with alone. destruct (ct_role c1).
  - autorewrite with alone. unfold leader_step. cbv zeta. subst c1. rewrite E, with_responses_twice.
    by destruct (leader_torques _ _ _ _) as [[? ?]| |].
  - autorewrite with alone. rewrite reread_references.
    change (rs_response (arm_state (ct_robot_state c1))) with (arm_motor_to_joint (arm_motors m)).
    destruct (follower_ff _ _ _) as [ff| |]; cbn [mbind outcome_bind]; [|done|done].
    by destruct (follower_commands _ _ _) as [cmds| |].
Qed.

Definition arm_label (side : ArmSide) (o : ArmOutput) : list FLabel :=
  match o with ArmNothing => [] | _ => [LArm side o] end.

Lemma upd_side_put side f s c a :
  follower_side side a = s -> f s = with_fcontrol (Some c) s -> upd_side side f a = put side c a.
Proof. intros <- H. destruct side; simpl in *; unfold put, upd_side; by rewrite H. Qed.

Lemma side_alone side m a :
  let s := follower_side side a in
  alone (side_prog env tanh side (sm_state (fo_safety s)) (tsb_get_latest (fo_buffer s)) m) a =
    '(s', o) ← control_side env tanh m s; Ok (upd_side side (fun _ => s') a, arm_label side o, o).
Proof.
  cbv zeta. unfold side_prog, control_side. rewrite alone_deref.
  destruct (fo_control (follower_side side a)) as [c|] eqn:E; cbn [deref mbind outcome_bind]; [|done].
  assert (Hput : forall c', upd_side side (fun _ => with_fcontrol (Some c') (follower_side side a)) a = put side c' a)
    by (intros c'; by destruct side).
  assert (Hrun : forall c1, alone (cmds ← unilateral_prog tanh side m; send_arm side (ArmCommands cmds)) (put side c1 a) =
    '(c', o) ← run_unilateral tanh m c1; Ok (put side c' a, arm_label side o, o)).
  { intros c1. rewrite alone_bind, unilateral_alone. unfold run_unilateral. destruct (unilateral_step tanh m c1) as [c' r].
    by destruct r as [cmds| |]. }
  set (target := tsb_get_latest _). set (rl := fo_limiter _). unfold side_cycle.
  assert (Htrack : alone (_ ← match target with Some p => track_prog env side p | None => mret tt end;
      cmds ← unilateral_prog tanh side m; send_arm side (ArmCommands cmds)) (put side c a) =
    '(c', o) ← (c ← match target with Some p => track_packet env rl p c | None => Ok c end; run_unilateral tanh m c);
    Ok (put side c' a, arm_label side o, o)).
  { rewrite alone_bind. destruct target as [p|].
    - rewrite track_alone. fold rl. destruct (track_packet env rl p c) as [c1| |]; cbn [mbind outcome_bind]; [|done|done].
      rewrite Hrun. by destruct (run_unilateral tanh m c1) as [[c' o]| |].
    - rewrite alone_ret. cbn [mbind outcome_bind]. rewrite Hrun. by destruct (run_unilateral tanh m c) as [[c' o]| |]. }
  pose proof (Hrun c) as Hhold. pose proof (put_self side c a E) as Hself. rewrite Hself in Htrack, Hhold.
  destruct (sm_state _); rewrite ?Htrack, ?Hhold.
  all: try (destruct (_ ≫= run_unilateral tanh m) as [[c' o]| |]; cbn [mbind outcome_bind]; [by rewrite Hput|done|done]).
  all: try (destruct (run_unilateral _ _ _) as [[c' o]| |]; cbn [mbind outcome_bind]; [by rewrite Hput|done|done]).
  all: cbn [mbind outcome_bind]; rewrite Hput, Hself; done.
Qed.
(** ** The phases of an iteration *)

Lemma may_move_alone a :
  alone (may_move env) a =
    Ok (a, [], negb (fe_mock env) && negb (fa_init_in_progress a) && negb (fa_recover_in_progress a)).
Proof.
  unfold may_move. destruct (fe_mock env); [done|]. rewrite alone_load.
  destruct (fa_init_in_progress a); [done|]. by rewrite alone_load.
Qed.

Lemma arms_alone i a :
  let r := fa_right a in let l := fa_left a in
  alone (arms_prog env tanh i (tsb_get_latest (fo_buffer r)) (tsb_get_latest (fo_buffer l))
           (sm_state (fo_safety r)) (sm_state (fo_safety l))) a =
    if negb (fe_mock env) && negb (fa_init_in_progress a) && negb (fa_recover_in_progress a) then
      '(r, o_r) ← control_side env tanh (fi_motors_r i) r;
      '(l, o_l) ← control_side env tanh (fi_motors_l i) l;
      Ok (set_sides r l a, arm_label RIGHT o_r ++ arm_label LEFT o_l, (o_r, o_l))
    else Ok (a, [], (ArmNothing, ArmNothing)).
Proof.
  cbv zeta. unfold arms_prog. rewrite alone_bind, may_move_alone. cbn [mbind outcome_bind].
  destruct (_ && _); [|done]. rewrite alone_bind.
  pose proof (side_alone RIGHT (fi_motors_r i) a) as Hr. cbv zeta in Hr. cbn [follower_side] in Hr. rewrite Hr.
  destruct (control_side env tanh _ _) as [[r o_r]| |]; cbn [mbind outcome_bind]; [|done|done]. rewrite alone_bind.
  pose proof (side_alone LEFT (fi_motors_l i) (upd_side RIGHT (fun _ => r) a)) as Hl. cbv zeta in Hl.
  cbn [follower_side upd_side set_sides fa_left] in Hl. cbn [upd_side]. rewrite Hl.
  destruct (control_side env tanh (fi_motors_l i) _) as [[l o_l]| |]; cbn [mbind outcome_bind]; [|done|done].
  rewrite alone_ret. cbn [mbind outcome_bind]. by rewrite !app_nil_r.
Qed.

Lemma responses_alone {B} side a c (k : list JointState * list JointState -> FProg B) :
  fo_control (follower_side side a) = Some c ->
  alone (read_responses side ≫= k) a = alone (k (rs_response (arm_of c), rs_response (hand_of c))) a.
Proof.
  intros E. rewrite alone_bind. unfold read_responses. rewrite !alone_deref, E. cbn [deref mbind outcome_bind].
  rewrite alone_deref, E. cbn [deref mbind outcome_bind]. rewrite alone_ret. cbn [mbind outcome_bind].
  by destruct (alone (k _) a) as [[[? ?] ?]| |].
Qed.

Lemma references_alone {B} side a c (k : list JointState * list JointState -> FProg B) :
  fo_control (follower_side side a) = Some c ->
  alone (read_references side ≫= k) a = alone (k (rs_reference (arm_of c), rs_reference (hand_of c))) a.
Proof.
  intros E. rewrite alone_bind. unfold read_references. rewrite !alone_deref, E. cbn [deref mbind outcome_bind].
  rewrite alone_deref, E. cbn [deref mbind outcome_bind]. rewrite alone_ret. cbn [mbind outcome_bind].
  by destruct (alone (k _) a) as [[[? ?] ?]| |].
Qed.

(** The joint states for the feedback packets. *)
Lemma reported_alone {B} a (k : (list JointState * list JointState) * (list JointState * list JointState) -> FProg B) :
  alone ((if has_arms env a then jr ← read_responses RIGHT; jl ← read_responses LEFT; mret (jr, jl)
          else mret (echo_command (tsb_get_latest (fo_buffer (fa_right a))),
                     echo_command (tsb_get_latest (fo_buffer (fa_left a))))) ≫= k) a =
  alone (k (reported env a (fa_right a), reported env a (fa_left a))) a.
Proof.
  unfold reported. destruct (has_arms env a) eqn:Eh.
  - unfold has_arms in Eh. apply andb_prop in Eh as [Eh [cl El]%bool_decide_eq_true].
    apply andb_prop in Eh as [_ [cr Er]%bool_decide_eq_true]. rewrite alone_bind.
    rewrite (responses_alone RIGHT a cr) by done. rewrite (responses_alone LEFT a cl) by done.
    rewrite alone_ret, Er, El. cbn [mbind outcome_bind]. unfold arm_of, hand_of.
    by destruct (alone (k _) a) as [[[? ?] ?]| |].
  - rewrite alone_bind, alone_ret. cbn [mbind outcome_bind]. by destruct (alone (k _) a) as [[[? ?] ?]| |].
Qed.

Definition feedback_label (f : option (FeedbackPacket * FeedbackPacket)) : list FLabel :=
  match f with Some (r, l) => [LFeedback r l] | None => [] end.

Lemma feedback_alone i a :
  let r := fa_right a in let l := fa_left a in
  alone (feedback_prog env i (tsb_get_latest (fo_buffer r)) (tsb_get_latest (fo_buffer l))
           (sm_state (fo_safety r)) (sm_state (fo_safety l))) a =
    '(a', f) ← serve_feedback env i a; Ok (a', feedback_label f, f).
Proof.
  cbv zeta. unfold feedback_prog, serve_feedback. destruct (fs_enabled _); [|done].
  rewrite alone_bind, alone_act. destruct (recheck_link env i a) as [b| |] eqn:E; cbn [observed mbind outcome_bind]; [|done|done].
  apply recheck_link_inv in E as (link & ok & next & ->). rewrite alone_load.
  change (fa_right a) with (fa_right (set_feedback link ok (fa_fb_seq a) next a)).
  change (fa_left a) with (fa_left (set_feedback link ok (fa_fb_seq a) next a)).
  rewrite reported_alone, !alone_load, alone_act. done.
Qed.

Definition telemetry_label (d : option (list Z)) : list FLabel := match d with Some d => [LTelemetry d] | None => [] end.

Lemma telemetry_alone i a :
  alone (telemetry_prog env i (sm_state (fo_safety (fa_right a))) (sm_state (fo_safety (fa_left a)))) a =
    '(a', d) ← serve_ftelemetry env i a; Ok (a', telemetry_label d, d).
Proof.
  unfold telemetry_prog, serve_ftelemetry, follower_telemetry. rewrite alone_load. destruct (_ && _); [|done].
  rewrite alone_load.
  assert (Hpub : forall rows, alone (Act (fun a0 => '(a', d) ← publish_telemetry env (telemetry_packet env i
      (sm_state (fo_safety (fa_right a))) (sm_state (fo_safety (fa_left a))) rows) a0;
      Ok (a', match d with Some d => [LTelemetry d] | None => [] end, d)) Done) a =
    '(a', d) ← publish_telemetry env (telemetry_packet env i
      (sm_state (fo_safety (fa_right a))) (sm_state (fo_safety (fa_left a))) rows) a; Ok (a', telemetry_label d, d)).
  { intros rows. rewrite alone_act. by destruct (publish_telemetry _ _ a) as [[a' [d|]]| |]. }
  destruct (fo_control (fa_right a)) as [cr|] eqn:Er; [destruct (fo_control (fa_left a)) as [cl|] eqn:El|].
  - rewrite bool_decide_true by (split; by eexists). rewrite alone_bind.
    rewrite (responses_alone RIGHT a cr), (responses_alone LEFT a cl), (references_alone RIGHT a cr),
      (references_alone LEFT a cl) by done.
    unfold compute. rewrite alone_act. unfold side_rows, arm_of, hand_of. cbv zeta.
    destruct (arm_rows 16 _ _ _ _) as [rr| |]; cbn [observed mbind outcome_bind]; [|done|done].
    destruct (arm_rows _ _ _ _ _) as [rl| |]; cbn [observed mbind outcome_bind]; [|done|done].
    rewrite Hpub. by destruct (publish_telemetry _ _ a) as [[a' d]| |].
  - rewrite bool_decide_false by (intros [_ [? ?]]; congruence). rewrite alone_bind, alone_ret. cbn [mbind outcome_bind].
    rewrite Hpub. by destruct (publish_telemetry _ _ a) as [[a' d]| |].
  - rewrite bool_decide_false by (intros [[? ?] _]; congruence). rewrite alone_bind, alone_ret. cbn [mbind outcome_bind].
    rewrite Hpub. by destruct (publish_telemetry _ _ a) as [[a' d]| |].
Qed.

(** What a cycle of [FollowerApp] sends, in the order of the source. *)
Definition emitted (o : FollowerOutput) : list FLabel :=
  (if fx_enable_all o then [LEnable RIGHT; LEnable LEFT] else []) ++ map LStart (fx_started o)
  ++ arm_label RIGHT (fx_right o) ++ arm_label LEFT (fx_left o)
  ++ feedback_label (fx_feedback o) ++ telemetry_label (fx_telemetry o).

Lemma safety_side_buffer now s : fo_buffer (safety_side now s) = fo_buffer s.
Proof. unfold safety_side. by destruct (tsb_get_latest _). Qed.

(** The arms' phase leaves what the later phases report. *)
Lemma arms_keep m s s' o :
  control_side env tanh m s = Ok (s', o) -> fo_buffer s' = fo_buffer s /\ fo_safety s' = fo_safety s.
Proof. by intros (c & c' & _ & -> & _)%control_side_inv. Qed.

Lemma serve_arms_alone i a :
  let r := safety_side (fi_now_r i) (fa_right a) in let l := safety_side (fi_now_l i) (fa_left a) in
  alone (arms_prog env tanh i (tsb_get_latest (fo_buffer r)) (tsb_get_latest (fo_buffer l))
           (sm_state (fo_safety r)) (sm_state (fo_safety l))) (set_sides r l a) =
    '(a', o_r, o_l) ← serve_arms env tanh i a; Ok (a', arm_label RIGHT o_r ++ arm_label LEFT o_l, (o_r, o_l)).
Proof.
  cbv zeta. pose proof (arms_alone i (set_sides (safety_side (fi_now_r i) (fa_right a)) (safety_side (fi_now_l i) (fa_left a)) a)) as H.
  cbv zeta in H. cbn [set_sides fa_right fa_left] in H. rewrite H. unfold serve_arms. cbv zeta.
  destruct (_ && _); [|done]. cbn [set_sides fa_right fa_left].
  clear H. destruct (control_side env tanh (fi_motors_r i) _) as [[r o_r]| |]; cbn [mbind outcome_bind]; [|done|done].
  by destruct (control_side env tanh (fi_motors_l i) _) as [[l o_l]| |].
Qed.

Lemma serve_arms_keeps i a a' o_r o_l :
  serve_arms env tanh i a = Ok (a', o_r, o_l) ->
  fo_buffer (fa_right a') = fo_buffer (safety_side (fi_now_r i) (fa_right a)) /\
  fo_buffer (fa_left a') = fo_buffer (safety_side (fi_now_l i) (fa_left a)) /\
  fo_safety (fa_right a') = fo_safety (safety_side (fi_now_r i) (fa_right a)) /\
  fo_safety (fa_left a') = fo_safety (safety_side (fi_now_l i) (fa_left a)).
Proof.
  intros (_ & _ & _ & _ & _ & _ & Hr & Hl & Hp & Ha)%serve_arms_inv. destruct (paused env a).
  - by destruct (Hp eq_refl) as (_ & _ & -> & ->).
  - destruct (Ha eq_refl) as [[Br _]%arms_keep [Bl _]%arms_keep]. by rewrite Br, Bl.
Qed.

Lemma cycle_alone i a :
  alone (follower_prog env tanh i) a = '(a', o) ← follower_cycle env tanh i a; Ok (a', emitted o, o).
Proof.
  unfold follower_prog, follower_cycle. rewrite alone_bind, recover_alone.
  destruct (serve_recover env a) as [a1 m1]. cbn [mbind outcome_bind]. rewrite alone_bind, init_alone.
  destruct (serve_finit env a1) as [a2 m2]. cbn [mbind outcome_bind]. rewrite alone_bind, goto_alone.
  destruct (serve_fgoto env a2) as [a3 m3]. cbn [mbind outcome_bind]. rewrite !alone_load.
  rewrite alone_bind. rewrite (safety_alone RIGHT (fi_now_r i) a3 : alone (safety_prog RIGHT _ (tsb_get_latest (fo_buffer (fa_right a3)))) _ = _).
  cbn [mbind outcome_bind]. rewrite alone_bind.
  rewrite (safety_alone LEFT (fi_now_l i) (upd_side RIGHT (safety_side (fi_now_r i)) a3)
    : alone (safety_prog LEFT _ (tsb_get_latest (fo_buffer (fa_left a3)))) _ = _).
  cbn [mbind outcome_bind]. unfold safety_state_of. rewrite !alone_load.
  set (r := safety_side (fi_now_r i) (fa_right a3)). set (l := safety_side (fi_now_l i) (fa_left a3)).
  change (upd_side LEFT _ (upd_side RIGHT _ a3)) with (set_sides r l a3).
  change (follower_side RIGHT (set_sides r l a3)) with r. change (follower_side LEFT (set_sides r l a3)) with l.
  replace (fo_buffer (fa_right a3)) with (fo_buffer r) by apply safety_side_buffer.
  replace (fo_buffer (fa_left a3)) with (fo_buffer l) by apply safety_side_buffer.
  rewrite alone_bind. pose proof (serve_arms_alone i a3) as Harms. cbv zeta in Harms. fold r l in Harms. rewrite Harms.
  destruct (serve_arms env tanh i a3) as [[[a4 o_r] o_l]| |] eqn:E4; cbn [mbind outcome_bind]; [|done|done].
  subst r l. apply serve_arms_keeps in E4 as (<- & <- & <- & <-). rewrite alone_bind, feedback_alone.
  destruct (serve_feedback env i a4) as [[a5 f]| |] eqn:E5; cbn [mbind outcome_bind]; [|done|done].
  apply serve_feedback_motion in E5 as (_ & <- & <-). rewrite alone_bind, telemetry_alone.
  destruct (serve_ftelemetry env i a5) as [[a6 t]| |]; cbn [mbind outcome_bind]; [|done|done].
  rewrite alone_ret. cbn [mbind outcome_bind]. unfold emitted. cbn [fx_enable_all fx_started fx_right fx_left fx_feedback fx_telemetry].
  rewrite !map_app, <- !app_assoc, !app_nil_r. cbn [app]. by destruct m1.
Qed.
(** ** Commands *)

Lemma handler_alone w args a :
  alone (match handler_progs env !! w with
         | Some h => h args
         | None => mret (json_error ("unknown command: " +:+ w))
         end) a =
    let '(a', r) := match follower_handlers env !! w with
                    | Some h => h args a
                    | None => (a, json_error ("unknown command: " +:+ w))
                    end in
    Ok (a', [], r).
Proof.
  unfold handler_progs, follower_handlers, register_handler.
  repeat (match goal with |- context [<[?k := _]> _ !! w] =>
            destruct (decide (k = w)) as [<-|]; [rewrite !lookup_insert_eq|rewrite !(lookup_insert_ne _ k w) by done]
          end).
  - done.
  - done.
  - done.
  - done.
  - unfold goto_pose_prog, f_goto_pose. by destruct (parse_pose16 args) as [[] vals].
  - done.
  - unfold status_prog, safety_state_of, f_status. by rewrite !alone_load, alone_ret.
  - done.
Qed.

Lemma command_alone line a :
  alone (command_prog env line) a =
    let '(a', r) := handle_command (follower_handlers env) line a in Ok (a', [LReply r], tt).
Proof.
  unfold command_prog, handle_command.
  destruct (split_first (trim line)) as [w [rest|]]; rewrite alone_bind, handler_alone;
    destruct (match follower_handlers env !! w with Some h => _ | None => _ end) as [a' r]; done.
Qed.

(** ** Pose moves *)

Definition move_labels (side : ArmSide) (l : list (Commands * RobotSystemState)) : list FLabel :=
  map (fun x => LMove side x.1) l.

(** The controller after [n] steps. *)
Definition after_steps (reading : nat -> Motors) (n : nat) (c : Control) : Control :=
  match n with
  | O => c
  | S _ => with_responses (mkMotors (without_effort (arm_motors (reading n))) (without_effort (gripper_motors (reading n)))) c
  end.

Lemma steps_alone side cmds reading n c a :
  alone (for_prog n (fun step =>
           x ← compute (cmds step);
           _ ← output [LMove side x];
           _ ← write_control side (on_arm (set_responses (arm_motor_to_joint (without_effort (arm_motors (reading (S step)))))));
           write_control side (on_hand (set_responses (gripper_motor_to_joint (without_effort (gripper_motors (reading (S step)))))))))
    (put side c a) =
  steps ← for_n n (fun step => x ← cmds step; Ok (x, ct_robot_state (after_steps reading (S step) c)));
  Ok (put side (after_steps reading n c) a, move_labels side steps, tt).
Proof.
  induction n as [|n IH]; cbn [for_prog for_n]; [done|]. rewrite alone_bind, IH.
  destruct (for_n n _) as [steps| |]; cbn [mbind outcome_bind]; [|done|done]. rewrite alone_compute.
  destruct (cmds n) as [x| |]; cbn [mbind outcome_bind]; [|done|done]. rewrite alone_output, alone_write, alone_write_last.
  cbn [mbind outcome_bind]. unfold move_labels. rewrite map_app. by destruct n.
Qed.

Lemma pose_alone side target_arm target_gripper reading c a :
  alone (pose_prog side target_arm target_gripper reading) (put side c a) =
    '(steps, c') ← MoveToPose target_arm target_gripper reading c; Ok (put side c' a, move_labels side steps, tt).
Proof.
  unfold pose_prog. cbv zeta. rewrite alone_bind, steps_alone.
  match goal with |- ((for_n nstep ?f ≫= _) ≫= _) = _ =>
    transitivity ('(steps, c') ← (steps ← for_n nstep f;
        Ok (steps, with_robot_state
          (mkRobotSystem
             (mkRobotState (arm_motor_to_joint (without_effort (arm_motors (reading nstep))))
                           (arm_motor_to_joint (without_effort (arm_motors (reading nstep)))))
             (mkRobotState (gripper_motor_to_joint (without_effort (gripper_motors (reading nstep))))
                           (gripper_motor_to_joint (without_effort (gripper_motors (reading nstep)))))) c));
      Ok (put side c' a, move_labels side steps, tt)); [|reflexivity]
  end.
  destruct (for_n nstep _) as [steps| |]; cbn [mbind outcome_bind]; [|done|done].
  rewrite !alone_write, alone_write_last. cbn [mbind outcome_bind]. by rewrite app_nil_r.
Qed.

(** The thread of a move, on an application with both controllers. *)
Lemma move_alone mv rr rl a cr cl :
  fo_control (fa_right a) = Some cr -> fo_control (fa_left a) = Some cl ->
  observed visible (run_thread (move_thread mv rr rl) a) =
    '(a', sr, sl) ← finish_move mv rr rl a; Ok (a', move_labels RIGHT sr ++ move_labels LEFT sl, tt).
Proof.
  intros Er El. unfold move_thread, finish_move. cbv zeta. rewrite Er, El. cbn [deref mbind outcome_bind run_thread].
  set (t := move_targets mv).
  change (observed visible (run_prog ?p a)) with (alone p a).
  change (prog_bind (pose_prog RIGHT ?x ?y ?z) ?k) with (pose_prog RIGHT x y z ≫= k).
  rewrite <- (put_self RIGHT cr a Er) at 1. rewrite alone_bind, pose_alone.
  assert (Hr : match mv with MoveGoto p => MoveToPose (tg_r p) (tg_gr p) rr cr | _ => AdjustPosition rr cr end =
               MoveToPose (tg_r t) (tg_gr t) rr cr) by by destruct mv.
  assert (Hl : match mv with MoveGoto p => MoveToPose (tg_l p) (tg_gl p) rl cl | _ => AdjustPosition rl cl end =
               MoveToPose (tg_l t) (tg_gl t) rl cl) by by destruct mv.
  rewrite Hr, Hl. destruct (MoveToPose (tg_r t) _ _ _) as [[sr cr']| |]; cbn [mbind outcome_bind]; [|done|done].
  change (prog_bind (pose_prog LEFT ?x ?y ?z) ?k) with (pose_prog LEFT x y z ≫= k).
  assert (El' : fo_control (follower_side LEFT (put RIGHT cr' a)) = Some cl) by exact El.
  rewrite <- (put_self LEFT cl _ El') at 1. rewrite alone_bind, pose_alone.
  destruct (MoveToPose (tg_l t) _ _ _) as [[sl cl']| |]; cbn [mbind outcome_bind]; [|done|done].
  destruct mv; unfold solo, observed, finish_prog, finish, reset_side; cbn [run_prog mbind outcome_bind prog_mbind prog_bind
    move_kind app filter list_filter visible]; by rewrite app_nil_r.
Qed.
(** ** Executions of [FollowerApp] are executions of the threads *)

Lemma emitted_loop_outputs o : loop_outputs (emitted o) = emitted o.
Proof.
  unfold emitted. rewrite !filter_app. f_equal; [by destruct (fx_enable_all o)|]. f_equal.
  { induction (fx_started o) as [|m l IH]; [done|]. cbn [map]. rewrite filter_cons_True by done. by rewrite IH. }
  f_equal; [by destruct (fx_right o)|]. f_equal; [by destruct (fx_left o)|].
  f_equal; [by destruct (fx_feedback o) as [[]|]|by destruct (fx_telemetry o)].
Qed.

Lemma moves_not_loop side l : loop_outputs (move_labels side l) = [].
Proof. induction l as [|x l IH]; [done|]. cbn [move_labels map]. by rewrite filter_cons_False by done. Qed.

Lemma event_executes e a a' o ts :
  follower_event env tanh e a = Ok (a', o) -> ready 5 ts ->
  exists cs ts' ls, follower_exec env tanh cs (mkSys a ts) = Ok (mkSys a' ts', ls) /\ ready 5 ts' /\
    loop_outputs ls = concat (map emitted (option_list o)).
Proof.
  intros He Hts.
  assert (Hgive : forall e k p vl, (k < 5)%nat -> follower_begin env tanh e a ts = give k p a ts ->
    alone p a = Ok (a', vl, tt) -> exists cs ts' ls, follower_exec env tanh cs (mkSys a ts) = Ok (mkSys a' ts', ls) /\
      ready 5 ts' /\ loop_outputs ls = loop_outputs vl).
  { intros e' k p vl Hk Hb Hp. apply (alone_inv visible loop_output) in Hp as (l & Hr & Hl); [|by intros []].
    destruct (exec_give (follower_begin env tanh) 5 e' k p a a' l ts Hts Hk Hb Hr) as [cs Hcs]. by exists cs, ts, l. }
  assert (Hnone : exists cs ts' ls, follower_exec env tanh cs (mkSys a ts) = Ok (mkSys a ts', ls) /\ ready 5 ts' /\
    loop_outputs ls = []) by by exists [], ts, [].
  destruct e as [side now p|line| |k rr rl|i]; cbn [follower_event] in He.
  - injection He as <- <-. apply (Hgive (FtPacket side now p) (receiver_thread side) (packet_prog side now p) []);
      [unfold receiver_thread; destruct side; lia|done|done].
  - injection He as <- <-. pose proof (command_alone line a) as Hc.
    destruct (handle_command (follower_handlers env) line a) as [a' r]. cbn [fst] in *.
    by apply (Hgive (FtCommand line) server_thread (command_prog env line) [LReply r]); [unfold server_thread; lia| |].
  - injection He as <- <-. by apply (Hgive FtSignal signal_thread signal_prog []); [unfold signal_thread; lia| |].
  - destruct (fa_moves a !! k) as [mv|] eqn:Ek; [|by injection He as <- <-].
    apply bind_ok in He as ([[b sr] sl] & Hf & [= -> <-]).
    set (a0 := set_moves (delete k (fa_moves a)) a) in *.
    pose proof Hf as Hf'. unfold finish_move in Hf'.
    apply bind_ok in Hf' as (cr & Ecr & (cl & Ecl & _)%bind_ok).
    assert (Hc : fo_control (fa_right a0) = Some cr /\ fo_control (fa_left a0) = Some cl).
    { split; [by destruct (fo_control (fa_right a0)); simplify_eq/=|by destruct (fo_control (fa_left a0)); simplify_eq/=]. }
    pose proof (move_alone mv rr rl a0 cr cl (proj1 Hc) (proj2 Hc)) as Hm. rewrite Hf in Hm. cbn [mbind outcome_bind] in Hm.
    unfold observed in Hm. apply bind_ok in Hm as ([[s1 l1] []] & Hr & [= -> Hl]).
    destruct (exec_fork (follower_begin env tanh) (length ts) _ _ _ a0 a' l1 (ts ++ [move_thread mv rr rl]) Hr) as (cs & t & Hcs).
    { by rewrite lookup_app_r, Nat.sub_diag by lia. }
    exists (Event (FtMove k rr rl) :: cs), (<[length ts := t]> (ts ++ [move_thread mv rr rl])), l1. split; [|split].
    + unfold follower_exec. cbn [sys_exec sys_step sy_state sy_threads follower_begin]. rewrite Ek. cbn [mbind outcome_bind].
      fold a0. by rewrite Hcs.
    + intros j Hj. specialize (Hts j Hj). pose proof (lookup_lt_Some _ _ _ Hts).
      rewrite list_lookup_insert_ne by lia. by rewrite lookup_app_l.
    + cbn [option_list map concat]. rewrite <- (list_filter_filter_l _ (fun x => visible x = true)) by by intros [].
      rewrite Hl, filter_app, !moves_not_loop. done.
  - destruct (fa_keep_running a) eqn:Ek; [|by injection He as <- <-].
    apply bind_ok in He as ([b x] & Hc & [= -> <-]). pose proof (cycle_alone i a) as Ha. rewrite Hc in Ha.
    cbn [mbind outcome_bind] in Ha.
    destruct (Hgive (FtCycle i) main_thread (_ ← follower_prog env tanh i; mret tt) (emitted x)) as (cs & ts' & ls & H1 & H2 & H3).
    + unfold main_thread. lia.
    + cbn [follower_begin]. by rewrite Ek.
    + rewrite alone_bind, Ha. cbn [mbind outcome_bind]. rewrite alone_ret. cbn [mbind outcome_bind]. by rewrite app_nil_r.
    + exists cs, ts', ls. split_and!; [done|done|]. rewrite H3, emitted_loop_outputs. cbn. by rewrite app_nil_r.
Qed.
End alone.

(** The step-by-step model is a special case of the threads. Every execution of
    [FollowerApp], in which an iteration of the main loop, a command, a packet, a
    signal and a whole pose move are one step each, is also an execution of the
    program's threads under some schedule: it ends in the same state, and the main
    loop has sent the same commands, disables, feedback packets and telemetry, in
    the same order. *)
Lemma atomic_run_is_execution (env : FollowerEnv) (tanh : double -> double) (a a' : FollowerApp)
    (l : list FollowerEvent) (os : list FollowerOutput) :
  follower_run env tanh a l = Ok (a', os) ->
  exists cs ts ls,
    follower_exec env tanh cs (mkSys a follower_pool) = Ok (mkSys a' ts, ls) /\
    loop_outputs ls = concat (map emitted os).
Proof.
  intros H. pose proof (ready_replicate 5 : ready 5 follower_pool) as Hr.
  revert H Hr. generalize follower_pool. revert a os.
  induction l as [|e l IH]; intros a os ts; cbn [follower_run].
  - intros [= -> <-] _. by exists [], ts, [].
  - intros ([b o] & He & ([c os'] & Hl & [= -> <-])%bind_ok)%bind_ok Hts.
    destruct (event_executes env tanh e a b o ts He Hts) as (cs1 & ts1 & ls1 & H1 & Hts1 & E1).
    destruct (IH b os' ts1 Hl Hts1) as (cs2 & ts2 & ls2 & H2 & E2).
    exists (cs1 ++ cs2), ts2, (ls1 ++ ls2). split.
    + unfold follower_exec in *. rewrite sys_exec_app, H1. cbn [mbind outcome_bind]. by rewrite H2.
    + by rewrite filter_app, E1, E2, map_app, concat_app.
Qed.

Lemma atomic_run_is_execution_witness :
  exists a' os, follower_run test_fenv id (test_fapp false []) test_fevents = Ok (a', os) /\ length os = 2%nat /\
    exists cs ts ls, follower_exec test_fenv id cs (mkSys (test_fapp false []) follower_pool) = Ok (mkSys a' ts, ls) /\
      loop_outputs ls = concat (map emitted os).
Proof.
  assert (H : exists a' os, follower_run test_fenv id (test_fapp false []) test_fevents = Ok (a', os) /\ length os = 2%nat).
  { do 2 eexists. split; [vm_compute; reflexivity|reflexivity]. }
  destruct H as (a' & os & H & Hl). exists a', os. split; [exact H|]. split; [exact Hl|].
  exact (atomic_run_is_execution test_fenv id (test_fapp false []) a' test_fevents os H).
Defined.
