(* ===== verification/EndToEnd.v ===== *)
(** * EndToEnd: from the leader's motors to the follower's

    The leader's loop, the packet on the wire, the receiver's validation, the
    follower's buffer, safety manager and rate limiter and the command to its
    motors, composed: the packet the leader builds is the one the follower
    tracks, a damaged one is dropped, and the follower's motors are sent a
    position between their previous reference and the leader's measured one. *)

From Stdlib Require Import SpecFloat.
From S2P Require Import Prelude Float64 Float64Facts Crc32 Wire Packets PacketCodec TeleopStateBuffer Safety.
From S2P Require Import RobotState Control ControlFacts AppCommon LeaderApp LeaderFacts FollowerApp FollowerFacts.

Open Scope Z_scope.

(** ** One side of either program *)

Definition leader_motors (side : ArmSide) (i : LeaderInput) : Motors :=
  match side with RIGHT => in_motors_r i | LEFT => in_motors_l i end.

Definition leader_clock (side : ArmSide) (i : LeaderInput) : Z :=
  match side with RIGHT => in_sys_r i | LEFT => in_sys_l i end.

Definition leader_packet (side : ArmSide) (o : LeaderOutput) : TeleopPacket :=
  match side with RIGHT => out_pkt_r o | LEFT => out_pkt_l o end.

Definition follower_output (side : ArmSide) (o : FollowerOutput) : ArmOutput :=
  match side with RIGHT => fx_right o | LEFT => fx_left o end.

(** Motor readings that fit the packet: enough room, and doubles. *)
Definition readings_ok (m : Motors) : Prop :=
  (length (arm_motors m) <= 8)%nat /\ (length (gripper_motors m) <= 4)%nat /\
  Forall (fun s => valid (ms_position s) /\ valid (ms_velocity s)) (arm_motors m ++ gripper_motors m).

(** ** The leader's packet is well formed *)

Lemma joint_words_width (f : JointState -> double) n k l :
  Forall (fun j => valid (f j)) l -> Forall (in_width 64) (pad n (map (fun j => bits_of_double (f j)) (take k l))).
Proof.
  intros Hl. apply pad_width, Forall_map, Forall_take; [done|]. eapply Forall_impl; [exact Hl|].
  intros j Hj. by apply bits_of_double_width.
Qed.

Lemma arm_joints_valid m :
  Forall (fun s => valid (ms_position s) /\ valid (ms_velocity s)) m ->
  Forall (fun j => valid (js_position j)) (arm_motor_to_joint m) /\
  Forall (fun j => valid (js_velocity j)) (arm_motor_to_joint m).
Proof. intros Hm. split; apply Forall_map; (eapply Forall_impl; [exact Hm|]); by intros s []. Qed.

Lemma gripper_joints_valid m :
  Forall (fun s => valid (ms_position s) /\ valid (ms_velocity s)) m ->
  Forall (fun j => valid (js_position j)) (gripper_motor_to_joint m) /\
  Forall (fun j => valid (js_velocity j)) (gripper_motor_to_joint m).
Proof.
  intros Hm. split; apply Forall_map; (eapply Forall_impl; [exact Hm|]); intros s [Hp Hv]; cbn [js_position js_velocity].
  - apply valid_dmul; [apply valid_dlit|]. apply valid_ddiv; [done|]. apply valid_dopp, valid_dlit.
  - done.
Qed.

Lemma small_width w x : 0 <= x < 256 -> 8 <= w -> in_width w x.
Proof.
  intros Hx Hw. split; [lia|]. apply Z.lt_le_trans with (2 ^ 8); [lia|]. by apply Z.pow_le_mono_r.
Qed.

Lemma command_wf side seq mode en m :
  readings_ok m -> in_width 32 seq ->
  well_formed (command_header side seq mode en
    (fill_joints (arm_motor_to_joint (arm_motors m)) (gripper_motor_to_joint (gripper_motors m)))).
Proof.
  intros (_ & _ & Hv) Hs. apply Forall_app in Hv as [Ha Hg].
  apply arm_joints_valid in Ha as [Pa Va]. apply gripper_joints_valid in Hg as [Pg Vg].
  split; [apply command_header_shaped, fill_joints_shaped|].
  set (ja := arm_motor_to_joint (arm_motors m)) in *. set (jg := gripper_motor_to_joint (gripper_motors m)) in *.
  unfold fits, layout, fields. apply Forall2_app; [|constructor; [by const_width|constructor]].
  unfold body_layout, body. cbn [TeleopPacket_wire]. unfold teleop_layout, teleop_body. apply Forall2_app.
  - cbn [command_header fill_joints tp_magic tp_version tp_packet_size tp_seq tp_send_time_ns tp_arm_side tp_mode
      tp_enable tp_estop tp_arm_dof tp_hand_dof tp_reserved0 tp_reserved1].
    repeat constructor; try exact (proj1 Hs); try exact (proj2 Hs); try done; try (by destruct side);
      try (by destruct mode); try (by destruct en); apply Z.mod_pos_bound; lia.
  - change (replicate 24 8%nat) with (replicate 8 8%nat ++ replicate 8 8%nat ++ replicate 4 8%nat ++ replicate 4 8%nat).
    unfold command_header, fill_joints. cbn [tp_arm_pos tp_arm_vel tp_hand_pos tp_hand_vel].
    repeat apply Forall2_app; (apply fits_words; [apply length_pad|by apply joint_words_width]).
Qed.

(** The packet of a side, with real arms. *)
Lemma leader_packet_spec env tanh sin cos i a a' o side :
  leader_cycle env tanh sin cos i a = Ok (a', o) -> le_mock env = false ->
  exists mode en, leader_packet side o = teleop_encode (leader_clock side i)
    (command_header side (la_seq a) mode en
       (fill_joints (arm_motor_to_joint (arm_motors (leader_motors side i)))
          (gripper_motor_to_joint (gripper_motors (leader_motors side i))))).
Proof.
  intros H Hm. apply leader_cycle_inv in H as (a1 & a2 & a3 & jr & jl & H1 & H2 & H3 & _ & _ & _ & _ & Hr & Hl).
  apply core_flags in H1 as (_ & _ & _ & S1 & _).
  pose proof (serve_arms_shared _ _ _ _ _ _ _ _ _ _ H2) as Hsh. apply shared_flags in Hsh as (_ & S2 & _).
  apply continuous_gate_spec in H3 as (_ & _ & S3 & _).
  destruct (serve_arms_joints _ _ _ _ _ _ _ _ _ _ Hm H2) as [-> ->].
  assert (Hs : la_seq a3 = la_seq a) by congruence. rewrite Hs in Hr, Hl.
  exists (cmd_mode a3), (lf_command_enabled (la_flags a3)). destruct side; [exact Hr|exact Hl].
Qed.

(** Words of the encoded packet at a joint. *)
Lemma leader_packet_words side seq mode en now m :
  readings_ok m ->
  let p := teleop_encode now (command_header side seq mode en
             (fill_joints (arm_motor_to_joint (arm_motors m)) (gripper_motor_to_joint (gripper_motors m)))) in
  Z.to_nat (tp_arm_dof p) = length (arm_motors m) /\ Z.to_nat (tp_hand_dof p) = length (gripper_motors m) /\
  forall i s, arm_motors m !! i = Some s ->
    tp_arm_pos p !! i = Some (bits_of_double (ms_position s)) /\
    tp_arm_vel p !! i = Some (bits_of_double (ms_velocity s)).
Proof.
  intros (La & Lg & _). cbv zeta. destruct (fill_joints_words _ _ La Lg) as (D1 & D2 & P & V & _).
  unfold teleop_encode, command_header. cbv zeta.
  cbn [with_crc TeleopPacket_wire teleop_with_crc tp_arm_dof tp_hand_dof tp_arm_pos tp_arm_vel].
  rewrite D1, D2, P, V, !Nat2Z.id. split; [done|]. split; [done|]. intros i s Hs. unfold pad.
  pose proof (lookup_lt_Some _ _ _ Hs) as Hi.
  rewrite !take_ge by (rewrite length_map; lia).
  rewrite !lookup_app_l by (rewrite length_map; lia). by rewrite !list_lookup_fmap, Hs.
Qed.

(** ** The receiver drops damaged packets *)

Lemma receive_teleop_burst pre w w' post :
  Forall is_byte (pre ++ w ++ post) -> Forall is_byte w' -> length w = length w' -> (length w <= 4)%nat -> w <> w' ->
  is_Some (receive_teleop (pre ++ w ++ post)) -> receive_teleop (pre ++ w' ++ post) = None.
Proof.
  intros Hb Hw' Hl H4 Hn [p Hp].
  assert (Hb' : Forall is_byte (pre ++ w' ++ post)) by (rewrite !Forall_app in *; tauto).
  apply eq_None_not_Some. intros [p' Hp'].
  apply receive_teleop_iff in Hp as (Hs & -> & Ha). apply receive_teleop_iff in Hp' as (_ & -> & Ha').
  exact (accepts_burst _ _ _ _ pre w w' post Hb Hb' Hs eq_refl eq_refl Hl H4 Hn Ha Ha').
Qed.

(** Any damage within four bytes of an accepted datagram is noticed. *)
Lemma accepted_burst_dropped p :
  receive_teleop (serialize p) = Some p ->
  forall pre w w' post, serialize p = pre ++ w ++ post -> Forall is_byte w' -> length w = length w' ->
     (length w <= 4)%nat -> w <> w' -> receive_teleop (pre ++ w' ++ post) = None.
Proof.
  intros Hrec pre w w' post E Hw Hl H4 Hn. apply (receive_teleop_burst pre w); try done; rewrite <- E.
  - apply serialize_bytes.
  - by rewrite Hrec.
Qed.

(** ** The follower tracks the packet it just received *)

Lemma packet_then_cycle env tanh a a' side now p i o :
  follower_run env tanh a [FvPacket side now p; FvCycle i] = Ok (a', [o]) ->
  fe_mock env = false -> fa_init_in_progress a' = false -> fa_recover_in_progress a' = false ->
  let s' := follower_side side a' in
  tracking (sm_state (fo_safety s')) = true -> sm_state (fo_safety s') <> HOLD ->
  exists c b c' cmds, fo_control (follower_side side a) = Some c /\
    track_packet env (fo_limiter s') p c = Ok b /\ follower_output side o = ArmCommands cmds /\
    exists m, unilateral_step tanh m b = (c', Ok cmds).
Proof.
  intros H Hm Hi Hr. cbv zeta. intros Ht Hn. cbn [follower_run follower_event mbind outcome_bind] in H.
  set (a1 := packet_arrives side now p a) in *. destruct (fa_keep_running a1); [|done].
  rewrite bind_ok in H. destruct H as ([b os] & H & E). injection E as <- E2.
  rewrite bind_ok in H. destruct H as ([d r] & Hc & E). rewrite bind_ok in Hc.
  destruct Hc as ([d' o'] & Hc & [= <- <-]). injection E as <- <-. cbn in E2. injection E2 as <-.
  destruct (cycle_outputs _ _ _ _ _ _ Hc) as [_ Hs].
  set (m := match side with RIGHT => fi_motors_r i | LEFT => fi_motors_l i end).
  assert (Hq : tsb_get_latest (fo_buffer (follower_side side a1)) = Some p /\
               fo_control (follower_side side a1) = fo_control (follower_side side a)).
  { destruct (tsb_update_fields now p (fo_buffer (follower_side side a))) as (F1 & F2 & _).
    unfold tsb_get_latest. destruct side; cbn [follower_side packet_arrives upd_side set_sides fa_right fa_left a1 fo_buffer fo_control] in *;
      by rewrite F2, F1. }
  destruct Hq as [Hq Hcc].
  destruct (Hs Hm Hi Hr (follower_side side a1) (follower_side side d') (follower_output side o') m) as (_ & _ & _ & Htr).
  { destruct side; [left|right]; by split_and!. }
  destruct (Htr Ht Hn p Hq) as (c & b & c' & cmds & Hc1 & _ & Hb & Ho & Hu).
  exists c, b, c', cmds. rewrite <- Hcc. split_and!; try done. by exists m.
Qed.

(** ** What a packet's target does to a joint *)

(** The command [q] for a joint whose reference was [r], when the packet asks
    for position [x] and velocity [v] and a cycle may move by [eff]. *)
Definition moved_towards (eff r x v : double) (q : MITParam) : Prop :=
  dq_ref q = v /\ Safety.fin (q_ref q) /\ Safety.between r (q_ref q) x /\
  (q_ref q = x \/ q_ref q = (r + eff)%D \/ q_ref q = (r - eff)%D) /\
  (dltb eff (x - r)%D = false -> dltb (x - r)%D (- eff)%D = false -> q_ref q = x).

Lemma packet_moves_arm env tanh a a' side now p i o c :
  follower_run env tanh a [FvPacket side now p; FvCycle i] = Ok (a', [o]) ->
  fe_mock env = false -> fa_init_in_progress a' = false -> fa_recover_in_progress a' = false ->
  let s' := follower_side side a' in
  tracking (sm_state (fo_safety s')) = true -> sm_state (fo_safety s') <> HOLD ->
  fo_control (follower_side side a) = Some c -> ct_role c = ROLE_FOLLOWER ->
  let refs := rs_reference (arm_state (ct_robot_state c)) in
  let eff := effective_max_delta (fo_limiter s') in
  Z.to_nat (tp_arm_dof p) = length refs ->
  Z.to_nat (tp_hand_dof p) = length (rs_reference (hand_state (ct_robot_state c))) ->
  fnn eff -> Forall Safety.fin (map js_position refs) ->
  exists arm hand, follower_output side o = ArmCommands (arm, hand) /\ length arm = length refs /\
    forall k x v r, tp_arm_pos p !! k = Some (bits_of_double x) -> tp_arm_vel p !! k = Some (bits_of_double v) ->
      valid x -> valid v -> isfinite x = true -> refs !! k = Some r ->
      exists q, arm !! k = Some q /\ moved_towards eff (js_position r) x v q.
Proof.
  intros Hf Hmock Hi Hr. cbv zeta. intros Ht Hn Hc Hrole La Lh He Hfin.
  destruct (packet_then_cycle _ _ _ _ _ _ _ _ _ Hf Hmock Hi Hr Ht Hn) as (c0 & b & c' & [arm hand] & Hc0 & Hb & Ho & m' & Hu).
  rewrite Hc in Hc0. injection Hc0 as <-.
  destruct (tracked_arm _ _ _ _ _ _ _ _ _ _ Hrole Hb Hu) as (L1 & Htrack & _).
  exists arm, hand. split; [exact Ho|]. split; [exact L1|]. intros k x v r Wp Wv Vx Vv Fx Hri.
  destruct (lookup_lt_is_Some_2 arm k) as [q Hq]; [rewrite L1; by eapply lookup_lt_Some|].
  destruct (Htrack La Lh k q r _ Hq Hri Wp) as [Eq (w & Hw & Ev)].
  rewrite Wv in Hw. injection Hw as <-. rewrite double_of_bits_of_double in Eq, Ev by done.
  set (eff := effective_max_delta (fo_limiter (follower_side side a'))) in *.
  destruct (limit_joint_spec eff (js_position r) x) as (F1 & F2 & F3); [done| |done|].
  { rewrite Forall_lookup in Hfin. apply (Hfin k). rewrite list_lookup_fmap, Hri. done. }
  exists q. split; [exact Hq|]. unfold moved_towards. rewrite Eq. split_and!; try done.
  - destruct F3 as [[-> _]|[[-> _]|[-> _]]]; [by left|by right; left|by right; right].
  - intros G1 G2. unfold limit_joint. cbv zeta. by rewrite G1, G2.
Qed.

(** ** Property *)

(** C1: Teleoperation, end to end. With real leader arms, a cycle's packet survives the
    wire: the follower's receiver accepts exactly the packet the leader built,
    and drops the datagram if any window of up to four consecutive bytes was
    changed on the way. When the follower has received it, has the same numbers
    of joints and is in a tracking state, its next cycle commands every arm joint
    with the leader's measured velocity and a finite position between the
    joint's previous reference and the leader's measured position, at most one
    limited step away from the former, and equal to the latter if that is within
    one step. *)
Theorem command_reaches_motors (lenv : LeaderEnv) (ltanh sin cos : double -> double) (li : LeaderInput)
    (la la' : LeaderApp) (lo : LeaderOutput) (side : ArmSide) :
  leader_cycle lenv ltanh sin cos li la = Ok (la', lo) -> le_mock lenv = false ->
  let m := leader_motors side li in
  let p := leader_packet side lo in
  readings_ok m -> in_width 32 (la_seq la) -> in_width 64 (leader_clock side li) ->
  receive_teleop (serialize p) = Some p /\
  (forall pre w w' post, serialize p = pre ++ w ++ post -> Forall is_byte w' -> length w = length w' ->
     (length w <= 4)%nat -> w <> w' -> receive_teleop (pre ++ w' ++ post) = None) /\
  forall (fenv : FollowerEnv) (ftanh : double -> double) (now : Z) (fi : FollowerInput) (fa fa' : FollowerApp)
    (fo : FollowerOutput) (c : Control),
  follower_run fenv ftanh fa [FvPacket side now p; FvCycle fi] = Ok (fa', [fo]) ->
  fe_mock fenv = false -> fa_init_in_progress fa' = false -> fa_recover_in_progress fa' = false ->
  let s' := follower_side side fa' in
  tracking (sm_state (fo_safety s')) = true -> sm_state (fo_safety s') <> HOLD ->
  fo_control (follower_side side fa) = Some c -> ct_role c = ROLE_FOLLOWER ->
  let refs := rs_reference (arm_state (ct_robot_state c)) in
  let eff := effective_max_delta (fo_limiter s') in
  length refs = length (arm_motors m) ->
  length (rs_reference (hand_state (ct_robot_state c))) = length (gripper_motors m) ->
  fnn eff -> Forall Safety.fin (map js_position refs) ->
  exists arm hand, follower_output side fo = ArmCommands (arm, hand) /\ length arm = length (arm_motors m) /\
    forall i s r, arm_motors m !! i = Some s -> refs !! i = Some r -> isfinite (ms_position s) = true ->
      exists q, arm !! i = Some q /\ moved_towards eff (js_position r) (ms_position s) (ms_velocity s) q.
Proof.
  intros H Hm. cbv zeta. intros Hread Hseq Hclk.
  destruct (leader_packet_spec _ _ _ _ _ _ _ _ side H Hm) as (mode & en & Hp).
  set (m := leader_motors side li) in *. set (p := leader_packet side lo) in *.
  assert (Hrec : receive_teleop (serialize p) = Some p).
  { rewrite Hp. apply receive_teleop_encode; [by apply command_wf|done]. }
  split; [exact Hrec|]. split; [by apply accepted_burst_dropped|].
  intros fenv ftanh now fi fa fa' fo c Hf Hmock Hi Hr Ht Hn Hc Hrole La Lh He Hfin.
  destruct (leader_packet_words side (la_seq la) mode en (leader_clock side li) m Hread) as (D1 & D2 & Hw).
  rewrite <- Hp in D1, D2, Hw.
  destruct (packet_moves_arm _ _ _ _ _ _ _ _ _ _ Hf Hmock Hi Hr Ht Hn Hc Hrole) as (arm & hand & Ho & L & Hmv);
    [congruence|congruence|done|done|].
  exists arm, hand. split; [exact Ho|]. split; [congruence|]. intros i s r Hs Hri Hfs.
  destruct (Hw i s Hs) as [Wp Wv]. destruct Hread as (_ & _ & Hall). rewrite Forall_app in Hall. destruct Hall as [Hall _].
  rewrite Forall_lookup in Hall. destruct (Hall i s Hs) as [V1 V2].
  exact (Hmv i _ _ r Wp Wv V1 V2 Hfs Hri).
Qed.

Definition test_enabled_leader : LeaderApp := with_flags (set_command_enabled true) (test_app (Some test_leader)).

(** The leader's joints stand at 1 rad, the follower's references at 0. *)
Lemma command_reaches_motors_witness :
  exists la' lo fa' fo arm hand q,
    leader_cycle (test_env false) id id id (test_input 0) test_enabled_leader = Ok (la', lo) /\
    follower_run test_fenv id (test_fapp false []) [FvPacket RIGHT 1000 (out_pkt_r lo); FvCycle (test_finput 2000)]
      = Ok (fa', [fo]) /\
    fx_right fo = ArmCommands (arm, hand) /\ arm !! 6%nat = Some q /\ Safety.between d0 (q_ref q) d1.
Proof.
  assert (H : exists la' lo,
    leader_cycle (test_env false) id id id (test_input 0) test_enabled_leader = Ok (la', lo)).
  { do 2 eexists. vm_compute. reflexivity. }
  destruct H as (la' & lo & H).
  assert (Hf : exists fa' fo, follower_run test_fenv id (test_fapp false [])
      [FvPacket RIGHT 1000 (out_pkt_r lo); FvCycle (test_finput 2000)] = Ok (fa', [fo]) /\
    fa_init_in_progress fa' = false /\ fa_recover_in_progress fa' = false /\
    sm_state (fo_safety (fa_right fa')) = ACTIVE /\
    fo_limiter (fa_right fa') = fo_limiter test_fside).
  { vm_compute in H. injection H as _ <-. do 2 eexists. split; [vm_compute; reflexivity|].
    vm_compute. repeat split. }
  destruct Hf as (fa' & fo & Hf & Hi & Hr & Hst & Hlim).
  destruct (command_reaches_motors _ _ _ _ _ _ _ _ RIGHT H eq_refl) as (_ & _ & Hend).
  - split; [simpl; lia|]. split; [simpl; lia|]. repeat constructor.
  - vm_compute. split; [discriminate|reflexivity].
  - vm_compute. split; [discriminate|reflexivity].
  - destruct (Hend test_fenv id 1000 (test_finput 2000) (test_fapp false []) fa' fo test_follower Hf eq_refl Hi Hr)
      as (arm & hand & Ho & _ & Hq).
    + simpl. rewrite Hst. reflexivity.
    + simpl. rewrite Hst. discriminate.
    + reflexivity.
    + reflexivity.
    + reflexivity.
    + reflexivity.
    + simpl. rewrite Hlim. vm_compute. repeat split.
    + repeat constructor.
    + destruct (Hq 6%nat (mkMotorState d1 d0 d0) joint_zero eq_refl eq_refl eq_refl) as (q & Hl & _ & _ & Hb & _).
      exists la', lo, fa', fo, arm, hand, q. repeat (split; [assumption|]). exact Hb.
Defined.
