(* ===== verification/Swivel.v ===== *)
(** * Swivel: the temporal swivel estimator

    [src/include/openarm_wifi_teleop/control/temporal_swivel_estimator.hpp]: the
    elbow angle that biases the inverse kinematics, a gain-weighted mix of the
    neutral and the previous angle whose change per update is rate limited. *)

From S2P Require Import Prelude Float64 Float64Round Float64Arith Float64Ops Float64Order Float64Facts.

Open Scope Z_scope.

Record SwivelInput := mkSwivelInput {
  sw_shoulder_pos : list double;
  sw_wrist_pos : list double;
  sw_wrist_orientation : list double;
  sw_dt : double;
  sw_right_arm : bool;
}.

Record SwivelConfig := mkSwivelConfig {
  sc_enabled : bool;
  sc_neutral_gain : double;
  sc_continuity_gain : double;
  sc_wrist_orientation_gain : double;
  sc_max_swivel_rate_rad_s : double;
  sc_neutral_swivel_rad : double;
}.

(** The member initialisers. *)
Definition swivel_config_default : SwivelConfig :=
  mkSwivelConfig true (dlit 2 1) (dlit 7 1) (dlit 1 1) d1 d0.

Record TemporalSwivelEstimator := mkSwivel {
  sw_cfg : SwivelConfig;
  current_swivel : double;
}.

Definition swivel_new (c : SwivelConfig) : TemporalSwivelEstimator := mkSwivel c (sc_neutral_swivel_rad c).

Definition swivel_reset (neutral : double) (s : TemporalSwivelEstimator) : TemporalSwivelEstimator :=
  mkSwivel (sw_cfg s) neutral.

(** The change of one update: the distance to the desired angle, clamped. *)
Definition swivel_delta (dt : double) (s : TemporalSwivelEstimator) : double :=
  let c := sw_cfg s in
  let desired := (sc_neutral_gain c * sc_neutral_swivel_rad c + sc_continuity_gain c * current_swivel s)%D in
  let max_delta := (sc_max_swivel_rate_rad_s c * dt)%D in
  dmax (- max_delta)%D (dmin max_delta (desired - current_swivel s)%D).

Definition swivel_update (input : SwivelInput) (s : TemporalSwivelEstimator) : TemporalSwivelEstimator * double :=
  if negb (sc_enabled (sw_cfg s)) then (s, sc_neutral_swivel_rad (sw_cfg s))
  else
    let x := (current_swivel s + swivel_delta (sw_dt input) s)%D in
    (mkSwivel (sw_cfg s) x, x).

(** ** Lemmas *)

(** Clamping into a symmetric range, whatever is clamped (a NaN included). *)
Lemma sym_clamp_bounds lim x :
  fnn lim -> is_nan x = true \/ valid x ->
  dleb (dopp lim) (dmax (- lim)%D (dmin lim x)) = true /\ dleb (dmax (- lim)%D (dmin lim x)) lim = true.
Proof.
  intros [Hn Fl] Hx. pose proof (nonneg_scaled lim Hn) as [_ P]. destruct Hn as (V & N & S).
  destruct (dopp_props lim V) as (Vo & Fo & No & So). rewrite Fl in Fo. rewrite N in No.
  assert (Hll : dleb lim lim = true) by (rewrite dleb_scaled by done; apply Z.leb_refl).
  assert (Hol : dleb (dopp lim) lim = true) by (rewrite dleb_scaled by done; apply Z.leb_le; lia).
  assert (Hoo : dleb (dopp lim) (dopp lim) = true) by (rewrite dleb_scaled by done; apply Z.leb_refl).
  unfold dmin, dmax. destruct (dltb x lim) eqn:E1.
  - assert (Nx : is_nan x = false) by (by destruct x).
    destruct Hx as [Hx|Vx]; [congruence|].
    destruct (dltb (dopp lim) x) eqn:E2; [|done].
    rewrite dltb_scaled in E1, E2 by done. rewrite !dleb_scaled by done.
    rewrite !Z.leb_le. rewrite !Z.ltb_lt in *. lia.
  - destruct (dltb (dopp lim) lim); done.
Qed.

(** ** Property *)

(** The swivel angle never jumps. A disabled estimator reports the neutral angle
    and keeps its state. An enabled one reports its new angle, which differs from
    the previous one by at most rate times cycle time in either direction, for
    any gains and angles (also when the desired angle is not a number). *)
Lemma swivel_rate_limited (s : TemporalSwivelEstimator) (input : SwivelInput) :
  let '(s', x) := swivel_update input s in
  sw_cfg s' = sw_cfg s /\
  (sc_enabled (sw_cfg s) = false -> s' = s /\ x = sc_neutral_swivel_rad (sw_cfg s)) /\
  (sc_enabled (sw_cfg s) = true ->
   let lim := (sc_max_swivel_rate_rad_s (sw_cfg s) * sw_dt input)%D in
   fnn lim -> valid (current_swivel s) -> valid (sc_neutral_gain (sw_cfg s)) ->
   valid (sc_neutral_swivel_rad (sw_cfg s)) -> valid (sc_continuity_gain (sw_cfg s)) ->
   x = current_swivel s' /\
   exists d, x = (current_swivel s + d)%D /\ dleb (dopp lim) d = true /\ dleb d lim = true).
Proof.
  unfold swivel_update. destruct (sc_enabled (sw_cfg s)) eqn:E; cbn [negb]; [|by split].
  split; [done|]. split; [done|]. intros _. cbv zeta. intros Hl V1 V2 V3 V4. split; [done|].
  exists (swivel_delta (sw_dt input) s). split; [done|]. apply sym_clamp_bounds; [done|]. right.
  auto 8 with float.
Qed.

Lemma swivel_rate_limited_witness :
  let s := mkSwivel swivel_config_default (d_of_Z 2) in
  exists d, (swivel_update (mkSwivelInput [] [] [] (dlit 1 2) true) s).2 = (d_of_Z 2 + d)%D /\
    dleb d (d1 * dlit 1 2)%D = true.
Proof.
  pose proof (swivel_rate_limited (mkSwivel swivel_config_default (d_of_Z 2)) (mkSwivelInput [] [] [] (dlit 1 2) true)) as H.
  destruct (proj2 (proj2 H) eq_refl) as (_ & d & H1 & _ & H2).
  - vm_compute. repeat split.
  - vm_compute. reflexivity.
  - vm_compute. reflexivity.
  - vm_compute. reflexivity.
  - vm_compute. reflexivity.
  - exists d. split; [exact H1|exact H2].
Defined.
