(* ===== verification/Ik.v ===== *)
(** * Ik: the inverse-kinematics solver

    [src/src/ik/openarm_pinocchio_ik.cpp]: damped least squares with clamped task
    steps, null-space posture control and joint limits. Pinocchio (the robot
    model and its kinematics) and Eigen (vectors and matrices) are third-party
    code and stay parameters; modelled are the solver's own state, its loop with
    the exits, the order of the operations and the joint bookkeeping. *)

From S2P Require Import Prelude Float64 Dynamics.

Open Scope Z_scope.

(** ** The libraries *)

(** A robot model with the algorithms the solver runs on it. Positions are
    [x, y, z], quaternions [x, y, z, w], task errors three translational and
    three rotational entries. *)
Record Pinocchio := mkPinocchio {
  pin_pose : Type;
  pin_nv : nat;
  pin_neutral : list double;
  pin_lower : list double;                                 (* lowerPositionLimit *)
  pin_upper : list double;
  pin_frame_id : string -> option nat;                     (* existFrame, getFrameId *)
  pin_joint_id : string -> option nat;                     (* existJointName, getJointId *)
  pin_idx_q : nat -> nat;                                  (* joints[id].idx_q() *)
  pin_placement : list double -> nat -> pin_pose;          (* forward kinematics, oMf[id] *)
  pin_translation : pin_pose -> list double;
  pin_quaternion : pin_pose -> list double;
  pin_se3 : list double -> list double -> pin_pose;        (* quaternion, translation *)
  pin_error : pin_pose -> pin_pose -> list double;         (* log6(current.actInv(desired)) *)
  pin_jacobian : list double -> nat -> Matrix;
  pin_difference : list double -> list double -> list double;
  pin_integrate : list double -> list double -> list double;
}.

(** Vectors of the linear-algebra library. *)
Record EigenVec := mkEigenVec {
  v_norm : list double -> double;
  v_normalized : list double -> list double;
  v_scale : list double -> double -> list double;
  v_add : list double -> list double -> list double;
  m_vec : Matrix -> list double -> list double;
  m_add_diagonal : Matrix -> double -> Matrix;
  m_ldlt_solve : Matrix -> list double -> list double;
}.

(** ** State *)

Record IKParams := mkIKParams {
  max_iterations : Z;
  convergence_tol_m : double;
  convergence_tol_rad : double;
  damping : double;
  max_dq_norm : double;
  max_task_step_m : double;
  max_task_step_rad : double;
  nullspace_enabled : bool;
  nullspace_posture_gain : double;
  position_weight : double;
  orientation_weight : double;
}.

(** The member initialisers. *)
Definition ik_params_default : IKParams :=
  mkIKParams 20 (dlit 5 3) (dlit 5 2) (dlit 5 2) (dlit 5 2) (dlit 2 2) (dlit 1 1) true (dlit 5 2) d1 (dlit 1 1).

Record OpenArmPinocchioIK := mkIK {
  ik_params : IKParams;
  ik_ee_id : nat;
  ik_joint_ids : list nat;
}.

Definition set_params (p : IKParams) (k : OpenArmPinocchioIK) : OpenArmPinocchioIK :=
  mkIK p (ik_ee_id k) (ik_joint_ids k).

Definition with_orientation_weight (w : double) (k : OpenArmPinocchioIK) : OpenArmPinocchioIK :=
  let p := ik_params k in
  set_params (mkIKParams (max_iterations p) (convergence_tol_m p) (convergence_tol_rad p) (damping p)
    (max_dq_norm p) (max_task_step_m p) (max_task_step_rad p) (nullspace_enabled p)
    (nullspace_posture_gain p) (position_weight p) w) k.

(** The constructor: names are looked up in the model. *)
Fixpoint ik_joints (pin : Pinocchio) (names : list string) : outcome (list nat) :=
  match names with
  | [] => Ok []
  | n :: names' =>
      match pin_joint_id pin n with
      | Some j => js ← ik_joints pin names'; Ok (j :: js)
      | None => Throw ("Joint not found in model: " +:+ n)
      end
  end.

Definition ik_new (pin : Pinocchio) (ee_link_name : string) (joint_names : list string) : outcome OpenArmPinocchioIK :=
  match pin_frame_id pin ee_link_name with
  | None => Throw ("End-effector frame not found: " +:+ ee_link_name)
  | Some ee => js ← ik_joints pin joint_names; Ok (mkIK ik_params_default ee js)
  end.

Section solver.
Context (pin : Pinocchio) (la : EigenOps) (ve : EigenVec) (pow : double -> double -> double).

(** ** Joint bookkeeping *)

(** [q[i] = x] of a vector. *)
Definition vset (q : list double) (i : nat) (x : double) : outcome (list double) :=
  if decide (i < length q)%nat then Ok (set_nth i x q) else Undef.

(** [q[idx_q(joint i)] = src[i]] for the controlled joints, from joint [i] on. *)
Fixpoint write_config (ids : list nat) (i : nat) (src q : list double) : outcome (list double) :=
  match ids with
  | [] => Ok q
  | jid :: ids' =>
      x ← vget src i;
      q ← vset q (pin_idx_q pin jid) x;
      write_config ids' (S i) src q
  end.

(** [out[i] = q[idx_q(joint i)]]. *)
Fixpoint read_config (ids : list nat) (i : nat) (q out : list double) : outcome (list double) :=
  match ids with
  | [] => Ok out
  | jid :: ids' =>
      x ← vget q (pin_idx_q pin jid);
      out ← vset out i x;
      read_config ids' (S i) q out
  end.

Definition compute_fk_pose (k : OpenArmPinocchioIK) (q_in : list double) : outcome (list double * list double) :=
  q ← write_config (ik_joint_ids k) 0 q_in (pin_neutral pin);
  let oMf := pin_placement pin q (ik_ee_id k) in
  Ok (pin_translation pin oMf, pin_quaternion pin oMf).

Definition compute_fk (k : OpenArmPinocchioIK) (q_in : list double) : outcome (list double) :=
  '(pos, _) ← compute_fk_pose k q_in; Ok pos.

(** ** One iteration *)

(** A part of the task error, shortened to a maximal norm. *)
Definition clamp_norm (lim : double) (e : list double) : list double :=
  if (v_norm ve e >? lim)%D then v_scale ve (v_normalized ve e) lim else e.

(** The weighted task step. *)
Definition task_step (p : IKParams) (err : list double) : list double :=
  v_scale ve (clamp_norm (max_task_step_m p) (take 3 err)) (position_weight p)
  ++ v_scale ve (clamp_norm (max_task_step_rad p) (drop 3 err)) (orientation_weight p).

(** Joint limits: [std::max(lower, std::min(upper, q))]. *)
Definition clamp_config (q : list double) : list double :=
  zip_with (fun lu x => dmax lu.1 (dmin lu.2 x)) (zip (pin_lower pin) (pin_upper pin)) q.

Definition ik_step (k : OpenArmPinocchioIK) (anchor : option (list double)) (q err : list double)
    : outcome (list double) :=
  let p := ik_params k in
  let J := pin_jacobian pin q (ik_ee_id k) in
  let JJT := m_add_diagonal ve (m_mul la J (m_transpose la J)) (pow (damping p) (d_of_Z 2)) in
  let dq := m_vec ve (m_transpose la J) (m_ldlt_solve ve JJT (task_step p err)) in
  dq ←
    match (if nullspace_enabled p then anchor else None) with
    | Some a =>
        q_a ← write_config (ik_joint_ids k) 0 a (pin_neutral pin);
        let post_err := pin_difference pin q q_a in
        let J_pinv := m_mul la (m_transpose la J) (m_inverse la JJT) in
        let N := m_sub la (m_identity la (pin_nv pin)) (m_mul la J_pinv J) in
        Ok (v_add ve dq (m_vec ve N (v_scale ve post_err (nullspace_posture_gain p))))
    | None => Ok dq
    end;
  Ok (clamp_config (pin_integrate pin q (clamp_norm (max_dq_norm p) dq))).

(** ** The solver *)

(** The error norms at a configuration. *)
Definition ik_errors (k : OpenArmPinocchioIK) (des : pin_pose pin) (q : list double) : list double * double * double :=
  let err := pin_error pin (pin_placement pin q (ik_ee_id k)) des in
  (err, v_norm ve (take 3 err), v_norm ve (drop 3 err)).

(** At most [n] iterations: the last configuration, the last position error and
    whether the solver converged. *)
Fixpoint ik_iterate (n : nat) (k : OpenArmPinocchioIK) (des : pin_pose pin) (anchor : option (list double))
    (q : list double) (final_err_pos : double) : outcome (list double * double * bool) :=
  match n with
  | O => Ok (q, final_err_pos, false)
  | S n' =>
      let '(err, ep, eo) := ik_errors k des q in
      if (ep <? convergence_tol_m (ik_params k))%D && (eo <? convergence_tol_rad (ik_params k))%D
      then Ok (q, ep, true)
      else q ← ik_step k anchor q err; ik_iterate n' k des anchor q ep
  end.

(** The result flag and [out_q]. *)
Definition solve_pose (k : OpenArmPinocchioIK) (target_pos target_quat q_seed out_q : list double)
    (anchor : option (list double)) : outcome (bool * list double) :=
  q ← write_config (ik_joint_ids k) 0 q_seed (pin_neutral pin);
  let des := pin_se3 pin target_quat target_pos in
  '(q, ep, success) ← ik_iterate (Z.to_nat (max_iterations (ik_params k))) k des anchor q d0;
  out ← read_config (ik_joint_ids k) 0 q out_q;
  Ok (success || (ep <? convergence_tol_m (ik_params k) * d_of_Z 5)%D, out).

(** Position only: the orientation weight is 0 during the call. *)
Definition solve (k : OpenArmPinocchioIK) (target_pos q_seed out_q : list double) (anchor : option (list double))
    : outcome (OpenArmPinocchioIK * (bool * list double)) :=
  let old_ori_weight := orientation_weight (ik_params k) in
  let k := with_orientation_weight d0 k in
  res ← solve_pose k target_pos [d0; d0; d0; d1] q_seed out_q anchor;
  Ok (with_orientation_weight old_ori_weight k, res).
End solver.
