(* ===== verification/IkFacts.v ===== *)
(** * Facts about the inverse-kinematics solver

    The joint bookkeeping reads and writes the controlled joints only; the solver
    always returns, never leaves the joint limits after a step, whatever the
    kinematics library computes, and reports success only near the target. *)

From S2P Require Import Prelude Float64 Float64Order Float64Facts Dynamics Safety Ik.

Open Scope Z_scope.

Section facts.
Context (pin : Pinocchio) (la : EigenOps) (ve : EigenVec) (pow : double -> double -> double).

(** The model's vectors have one entry per configuration variable, its limits
    are ordered doubles, and integration returns a configuration. *)
Definition model_ok : Prop :=
  length (pin_lower pin) = length (pin_neutral pin) /\ length (pin_upper pin) = length (pin_neutral pin) /\
  (forall i lo up, pin_lower pin !! i = Some lo -> pin_upper pin !! i = Some up -> valid lo /\ valid up /\ dleb lo up = true) /\
  (forall q dq, length (pin_integrate pin q dq) = length (pin_neutral pin)).

(** The controlled joints are different variables of the model. *)
Definition joints_ok (ids : list nat) : Prop :=
  NoDup (map (pin_idx_q pin) ids) /\ Forall (fun j => (pin_idx_q pin j < length (pin_neutral pin))%nat) ids.

Lemma lookup_set_nth_eq {A} i (x : A) l : (i < length l)%nat -> set_nth i x l !! i = Some x.
Proof. revert i. induction l as [|y l IH]; intros [|i] Hi; simpl in *; try lia; [done|]. apply IH. lia. Qed.

Lemma lookup_set_nth_ne {A} i j (x : A) l : i <> j -> set_nth i x l !! j = l !! j.
Proof. revert i j. induction l as [|y l IH]; intros [|i] [|j] Hi; simpl; try done. apply IH. lia. Qed.

Lemma vset_ok q i x : (i < length q)%nat -> vset q i x = Ok (set_nth i x q).
Proof. intros Hi. unfold vset. by rewrite decide_True. Qed.

Lemma write_config_ok ids i src q :
  joints_ok ids -> length q = length (pin_neutral pin) -> (i + length ids <= length src)%nat ->
  exists q', write_config pin ids i src q = Ok q' /\ length q' = length q /\
    (forall k j, ids !! k = Some j -> q' !! pin_idx_q pin j = src !! (i + k)%nat) /\
    (forall n, (forall j, j ∈ ids -> pin_idx_q pin j <> n) -> q' !! n = q !! n).
Proof.
  revert i q. induction ids as [|j ids IH]; intros i q [Hn Hb] Hl Hs; simpl in *.
  { exists q. by split_and!. }
  apply NoDup_cons in Hn as [Hnin Hn]. apply Forall_cons in Hb as [Hj Hb].
  destruct (vget_lt src i) as (x & -> & Hx); [lia|]. simpl. rewrite vset_ok by lia. simpl.
  destruct (IH (S i) (set_nth (pin_idx_q pin j) x q)) as (q' & -> & Hl' & Hw & Hk);
    [done|by rewrite length_set_nth|lia|].
  rewrite length_set_nth in Hl'. exists q'. split_and!; [done|lia| |].
  - intros [|k] j' Hk'; simpl in Hk'.
    + injection Hk' as <-. rewrite Hk.
      * rewrite lookup_set_nth_eq by lia. by rewrite Nat.add_0_r, Hx.
      * intros j' Hj' He. apply Hnin. rewrite <- He. by apply list_elem_of_fmap_2.
    + rewrite <- Nat.add_succ_comm. by apply Hw.
  - intros n Hn'. rewrite Hk.
    + apply lookup_set_nth_ne. apply Hn'. by left.
    + intros j' Hj'. apply Hn'. by right.
Qed.

Lemma read_config_ok ids i q out :
  Forall (fun j => (pin_idx_q pin j < length q)%nat) ids -> (i + length ids <= length out)%nat ->
  exists out', read_config pin ids i q out = Ok out' /\ length out' = length out /\
    (forall k j, ids !! k = Some j -> out' !! (i + k)%nat = q !! pin_idx_q pin j) /\
    (forall n, (n < i)%nat -> out' !! n = out !! n).
Proof.
  revert i out. induction ids as [|j ids IH]; intros i out Hb Hs; simpl in *.
  { exists out. by split_and!. }
  apply Forall_cons in Hb as [Hj Hb]. destruct (vget_lt q _ Hj) as (x & -> & Hx). simpl.
  rewrite vset_ok by lia. simpl.
  destruct (IH (S i) (set_nth i x out)) as (out' & -> & Hl & Hr & Hk); [done|rewrite length_set_nth; lia|].
  rewrite length_set_nth in Hl. exists out'. split_and!; [done|done| |].
  - intros [|k] j' Hk'; simpl in Hk'.
    + injection Hk' as <-. rewrite Nat.add_0_r, Hk by lia. rewrite lookup_set_nth_eq by lia. done.
    + rewrite <- Nat.add_succ_comm. by apply Hr.
  - intros n Hn. rewrite Hk by lia. apply lookup_set_nth_ne. lia.
Qed.

(** ** Joint limits *)

Definition in_limits (q : list double) : Prop :=
  length q = length (pin_neutral pin) /\
  forall i x, q !! i = Some x -> exists lo up, pin_lower pin !! i = Some lo /\ pin_upper pin !! i = Some up /\
    dleb lo x = true /\ dleb x up = true.

Lemma clamp_limits lo up x :
  valid lo -> valid up -> dleb lo up = true ->
  dleb lo (dmax lo (dmin up x)) = true /\ dleb (dmax lo (dmin up x)) up = true.
Proof.
  intros Vl Vu H. destruct (dleb_true_not_nan _ _ H) as [Nl Nu]. unfold dmax, dmin.
  destruct (dltb x up) eqn:E1; destruct (dltb lo _) eqn:E2; auto using dltb_dleb, dleb_refl.
Qed.

Lemma clamp_config_limits q :
  model_ok -> length q = length (pin_neutral pin) -> in_limits (clamp_config pin q).
Proof.
  intros (Ll & Lu & Hlim & _) Hq. unfold clamp_config. split.
  - rewrite length_zip_with, length_zip_with. lia.
  - intros i y Hy. apply lookup_zip_with_Some in Hy as ([lo up] & x & -> & Hlu & Hx).
    apply lookup_zip_with_Some in Hlu as (lo' & up' & [= -> ->] & Hlo & Hup).
    exists lo', up'. destruct (Hlim i lo' up' Hlo Hup) as (Vl & Vu & Hle).
    split_and!; [done|done|by apply clamp_limits..].
Qed.

(** ** The iteration *)

Context (k : OpenArmPinocchioIK).

Lemma ik_step_ok anchor q err :
  model_ok -> joints_ok (ik_joint_ids k) -> (forall a, anchor = Some a -> length (ik_joint_ids k) <= length a)%nat ->
  exists q', ik_step pin la ve pow k anchor q err = Ok q' /\ in_limits q'.
Proof.
  intros Hm Hj Ha. unfold ik_step. cbv zeta.
  assert (Hdq : forall m : outcome (list double), (exists dq, m = Ok dq) ->
    exists q', (dq ← m; Ok (clamp_config pin (pin_integrate pin q (clamp_norm ve (max_dq_norm (ik_params k)) dq)))) = Ok q'
      /\ in_limits q').
  { intros m [dq ->]. simpl. eexists. split; [done|]. apply clamp_config_limits; [done|]. apply Hm. }
  apply Hdq. destruct (nullspace_enabled (ik_params k)); [|by eexists].
  destruct anchor as [a|]; [|by eexists].
  destruct (write_config_ok (ik_joint_ids k) 0 a (pin_neutral pin) Hj eq_refl) as (q_a & -> & _); [by apply Ha|].
  simpl. by eexists.
Qed.

(** What a finished iteration guarantees about the configuration it started from. *)
Lemma ik_iterate_ok n des anchor q ep0 :
  model_ok -> joints_ok (ik_joint_ids k) -> (forall a, anchor = Some a -> length (ik_joint_ids k) <= length a)%nat ->
  exists q' ep ok, ik_iterate pin la ve pow n k des anchor q ep0 = Ok (q', ep, ok) /\
    (q' = q \/ in_limits q') /\
    (ok = true -> exists err eo, ik_errors pin ve k des q' = (err, ep, eo) /\
       dltb ep (convergence_tol_m (ik_params k)) = true /\ dltb eo (convergence_tol_rad (ik_params k)) = true) /\
    (ok = false -> (n = 0%nat /\ q' = q /\ ep = ep0) \/
       exists p err eo, ik_errors pin ve k des p = (err, ep, eo) /\ ik_step pin la ve pow k anchor p err = Ok q').
Proof.
  intros Hm Hj Ha. revert q ep0. induction n as [|n IH]; intros q ep0; cbn [ik_iterate].
  { exists q, ep0, false. split_and!; [done|by left|done|by left]. }
  destruct (ik_errors pin ve k des q) as [[err ep] eo] eqn:Ee.
  destruct (dltb ep _ && dltb eo _) eqn:Ec.
  { apply andb_true_iff in Ec as [E1 E2]. exists q, ep, true. split_and!; [done|by left| |done].
    intros _. by exists err, eo. }
  destruct (ik_step_ok anchor q err Hm Hj Ha) as (q1 & Hq1 & Hlim). rewrite Hq1. simpl.
  destruct (IH q1 ep) as (q' & ep' & ok & -> & Hq' & Hok & Hno). exists q', ep', ok.
  split_and!; [done|right; by destruct Hq' as [->|]|done|].
  intros Hf. right. destruct (Hno Hf) as [(-> & -> & ->)|H]; [by exists q, err, eo|done].
Qed.
End facts.

(** *** Totality of the entry points *)

Section total.
Context (pin : Pinocchio) (la : EigenOps) (ve : EigenVec) (pow : double -> double -> double).

Lemma compute_fk_pose_ok k q :
  joints_ok pin (ik_joint_ids k) -> (length (ik_joint_ids k) <= length q)%nat ->
  exists c, compute_fk_pose pin k q =
    Ok (pin_translation pin (pin_placement pin c (ik_ee_id k)), pin_quaternion pin (pin_placement pin c (ik_ee_id k))).
Proof.
  intros Hj Hq. unfold compute_fk_pose.
  destruct (write_config_ok pin (ik_joint_ids k) 0 q (pin_neutral pin) Hj eq_refl Hq) as (c & -> & _). by exists c.
Qed.

Lemma solve_pose_ok k target_pos target_quat seed out a :
  model_ok pin -> joints_ok pin (ik_joint_ids k) ->
  (length (ik_joint_ids k) <= length seed)%nat -> (length (ik_joint_ids k) <= length out)%nat ->
  (length (ik_joint_ids k) <= length a)%nat ->
  exists ok out', solve_pose pin la ve pow k target_pos target_quat seed out (Some a) = Ok (ok, out') /\
    length out' = length out.
Proof.
  intros Hm Hj Hs Ho Ha. unfold solve_pose.
  destruct (write_config_ok pin (ik_joint_ids k) 0 seed (pin_neutral pin) Hj eq_refl Hs) as (q0 & -> & L0 & _).
  cbn [mbind outcome_bind]. cbv zeta.
  destruct (ik_iterate_ok pin la ve pow k (Z.to_nat (max_iterations (ik_params k)))
              (pin_se3 pin target_quat target_pos) (Some a) q0 d0 Hm Hj) as (q & ep & ok & -> & Hq & _).
  { by intros ? [= <-]. }
  cbn [mbind outcome_bind].
  assert (Lq : length q = length (pin_neutral pin)) by (destruct Hq as [->|[? _]]; congruence).
  destruct (read_config_ok pin (ik_joint_ids k) 0 q out) as (out' & -> & Lo & _); [by rewrite Lq; apply Hj|done|].
  cbn [mbind outcome_bind]. by eexists _, out'.
Qed.

Lemma solve_ok k target_pos seed out a :
  model_ok pin -> joints_ok pin (ik_joint_ids k) ->
  (length (ik_joint_ids k) <= length seed)%nat -> (length (ik_joint_ids k) <= length out)%nat ->
  (length (ik_joint_ids k) <= length a)%nat ->
  exists k' ok out', solve pin la ve pow k target_pos seed out (Some a) = Ok (k', (ok, out')) /\
    ik_joint_ids k' = ik_joint_ids k /\ length out' = length out.
Proof.
  intros Hm Hj Hs Ho Ha. unfold solve. cbv zeta.
  destruct (solve_pose_ok (with_orientation_weight d0 k) target_pos [d0; d0; d0; d1] seed out a)
    as (ok & out' & -> & Hl); [done..|]. cbn [mbind outcome_bind]. by eexists _, ok, out'.
Qed.

Lemma ik_joints_length names ids : ik_joints pin names = Ok ids -> length ids = length names.
Proof.
  revert ids. induction names as [|n names IH]; intros ids; simpl; [by intros [= <-]|].
  destruct (pin_joint_id pin n); [|done]. intros (js & Hjs & [= <-])%bind_ok. simpl. by rewrite (IH js).
Qed.
End total.

(** ** Property *)

(** C34: The inverse kinematics is total and stays within the joint limits. For any
    target, seed and weights, and whatever the kinematics library computes (not
    a number included), the solver returns after at most [max_iterations] steps;
    its result is the seed itself or lies within the joint limits, and no other
    output entry is touched; and it reports success only if the last position
    error it saw was below the tolerance (with the orientation error, and at the
    returned configuration) or below five times the tolerance one step before
    the returned configuration, or if it was allowed no iteration at all. *)
Theorem ik_solution_spec (pin : Pinocchio) (la : EigenOps) (ve : EigenVec) (pow : double -> double -> double)
    (k : OpenArmPinocchioIK) (target_pos target_quat seed out : list double) (anchor : option (list double)) :
  model_ok pin -> joints_ok pin (ik_joint_ids k) ->
  (length (ik_joint_ids k) <= length seed)%nat -> (length (ik_joint_ids k) <= length out)%nat ->
  (forall a, anchor = Some a -> length (ik_joint_ids k) <= length a)%nat ->
  let tol := convergence_tol_m (ik_params k) in
  let des := pin_se3 pin target_quat target_pos in
  exists ok out' q, solve_pose pin la ve pow k target_pos target_quat seed out anchor = Ok (ok, out') /\
    length out' = length out /\ read_config pin (ik_joint_ids k) 0 q out = Ok out' /\
    ((forall i, (i < length (ik_joint_ids k))%nat -> out' !! i = seed !! i) \/
     (forall i j, ik_joint_ids k !! i = Some j -> exists x lo up, out' !! i = Some x /\
        pin_lower pin !! pin_idx_q pin j = Some lo /\ pin_upper pin !! pin_idx_q pin j = Some up /\
        dleb lo x = true /\ dleb x up = true)) /\
    (ok = true -> max_iterations (ik_params k) <= 0 \/
       (exists err ep eo, ik_errors pin ve k des q = (err, ep, eo) /\ dltb ep tol = true /\
          dltb eo (convergence_tol_rad (ik_params k)) = true) \/
       (exists p err ep eo, ik_errors pin ve k des p = (err, ep, eo) /\ dltb ep (tol * d_of_Z 5)%D = true /\
          ik_step pin la ve pow k anchor p err = Ok q)).
Proof.
  intros Hm Hj Hs Ho Ha. cbv zeta. unfold solve_pose. cbv zeta.
  destruct (write_config_ok pin (ik_joint_ids k) 0 seed (pin_neutral pin) Hj eq_refl Hs) as (q0 & -> & L0 & W0 & _).
  cbn [mbind outcome_bind].
  destruct (ik_iterate_ok pin la ve pow k (Z.to_nat (max_iterations (ik_params k)))
              (pin_se3 pin target_quat target_pos) anchor q0 d0 Hm Hj Ha) as (q & ep & ok & -> & Hq & Hok & Hno).
  cbn [mbind outcome_bind].
  assert (Lq : length q = length (pin_neutral pin)) by (destruct Hq as [->|[? _]]; congruence).
  destruct (read_config_ok pin (ik_joint_ids k) 0 q out) as (out' & Hr & Lo & R & _); [by rewrite Lq; apply Hj|done|].
  rewrite Hr. cbn [mbind outcome_bind]. eexists _, out', q. split; [done|]. split; [done|]. split; [done|]. split.
  - destruct Hq as [->|[_ Hlim]]; [left|right].
    + intros i Hi. destruct (lookup_lt_is_Some_2 _ _ Hi) as [j Hji]. pose proof (R i j Hji) as E. simpl in E. by rewrite E, (W0 i j Hji).
    + intros i j Hji. pose proof (R i j Hji) as E. simpl in E.
      destruct (lookup_lt_is_Some_2 q (pin_idx_q pin j)) as [x Hx].
      { rewrite Lq. destruct Hj as [_ Hb]. rewrite Forall_lookup in Hb. by eapply Hb. }
      destruct (Hlim _ _ Hx) as (lo & up & ? & ? & ? & ?). exists x, lo, up. rewrite E. by split_and!.
  - destruct ok; cbn [orb]; intros Hres.
    + right; left. destruct (Hok eq_refl) as (err & eo & ? & ? & ?). by exists err, ep, eo.
    + destruct (Hno eq_refl) as [(Hz & _)|(p & err & eo & He & Hst)]; [left; lia|].
      right; right. by exists p, err, ep, eo.
Qed.

(** A model of seven joints in [-1, 1] whose integration always fails to produce
    numbers, and trivial linear algebra. *)
Definition test_pin : Pinocchio :=
  mkPinocchio (list double) 7 (replicate 7 d0) (replicate 7 (dopp d1)) (replicate 7 d1)
    (fun n => if String.eqb n "hand" then Some 0%nat else None) (fun _ => Some 0%nat) (fun j => j)
    (fun q _ => q) (take 3) (fun _ => [d0; d0; d0; d1]) (fun _ pos => pos) (fun _ _ => replicate 6 d1)
    (fun _ _ => []) (fun q _ => q) (fun _ _ => replicate 7 SpecFloat.S754_nan).

Definition test_la : EigenOps := mkEigen id (fun a _ => a) id (fun _ => []) (fun a _ => a).
Definition test_ve : EigenVec :=
  mkEigenVec (fun _ => d1) id (fun v _ => v) (fun v _ => v) (fun _ v => v) (fun m _ => m) (fun _ v => v).
Definition test_ik : OpenArmPinocchioIK := mkIK ik_params_default 0 (seq 0 7).

Lemma ik_solution_spec_witness :
  exists ok out', solve_pose test_pin test_la test_ve (fun x _ => x) test_ik [d1; d1; d1] [d0; d0; d0; d1]
      (replicate 7 d0) (replicate 7 d0) (Some (replicate 7 d0)) = Ok (ok, out') /\
    length out' = 7%nat.
Proof.
  destruct (ik_solution_spec test_pin test_la test_ve (fun x _ => x) test_ik [d1; d1; d1] [d0; d0; d0; d1]
    (replicate 7 d0) (replicate 7 d0) (Some (replicate 7 d0))) as (ok & out' & q & H & Hl & _).
  - split; [reflexivity|]. split; [reflexivity|]. split; [|reflexivity].
    intros i lo up Hlo Hup. apply lookup_replicate in Hlo as [-> _]. apply lookup_replicate in Hup as [-> _].
    split; [reflexivity|]. split; reflexivity.
  - split.
    + simpl. apply (bool_decide_unpack _). vm_compute. exact I.
    + repeat constructor.
  - simpl. lia.
  - simpl. lia.
  - intros a [= <-]. simpl. lia.
  - exists ok, out'. split; [exact H|exact Hl].
Defined.
