(* ===== verification/Yaml.v ===== *)
(** * Yaml: reading configuration files

    [src/src/yamlloader.hpp] and the settings loaders built on it:
    [load_feedback_settings] of the follower and [load_bilateral_settings] of the
    leader. yaml-cpp is third-party code and stays a parameter. What matters is
    how the loaders treat absent keys and exceptions: an exception leaves the
    settings that were already assigned in place. *)

From S2P Require Import Prelude Float64 Packets FeedbackStateBuffer LinkCheck BilateralGate BilateralEngager.
From S2P Require Import AppCommon LeaderApp FollowerApp.

Open Scope Z_scope.

(** ** The library *)

(** Nodes, [operator[]], [IsDefined] and the [as<T>()] conversions, each of which
    may throw. *)
Record YamlLib := mkYaml {
  ynode : Type;
  LoadFile : string -> outcome ynode;
  y_get : ynode -> string -> outcome ynode;
  y_idx : ynode -> nat -> outcome ynode;
  y_defined : ynode -> bool;
  as_double : ynode -> outcome double;
  as_int : ynode -> outcome Z;
  as_bool : ynode -> outcome bool;
  as_string : ynode -> outcome string;
  as_doubles : ynode -> outcome (list double);
}.

(** ** Assignments under [try] *)

(** A sequence of assignments inside a [try] block: after the first exception
    the remaining variables keep the value they had. *)
Definition Status : Type := outcome unit.

Definition assign {A} (st : Status) (old : A) (m : outcome A) : Status * A :=
  match st, m with
  | Ok _, Ok v => (Ok tt, v)
  | Ok _, Throw e => (Throw e, old)
  | Ok _, Undef => (Undef, old)
  | _, _ => (st, old)
  end.

Section yaml.
Context (Y : YamlLib).
#[local] Abbreviation node := (ynode Y).

(** ** YamlLoader *)

Definition YamlLoader_new (filepath : string) : outcome node :=
  match LoadFile Y filepath with
  | Throw e => Throw ("Failed to load YAML file: " +:+ filepath +:+ ", error: " +:+ e)
  | r => r
  end.

Definition get_node (root : node) (node_name key : string) : outcome node :=
  n ← y_get Y root node_name;
  if negb (y_defined Y n) then Throw ("Node '" +:+ node_name +:+ "' not found.")
  else
    c ← y_get Y n key;
    if negb (y_defined Y c) then Throw ("Key '" +:+ key +:+ "' not found under node '" +:+ node_name +:+ "'.")
    else Ok c.

(** [get_double], [get_vector], ... are [get_with] of the matching conversion. *)
Definition get_with {A} (conv : node -> outcome A) (root : node) (node_name key : string) : outcome A :=
  c ← get_node root node_name key; conv c.

Definition get_double := get_with (as_double Y).
Definition get_vector := get_with (as_doubles Y).
Definition get_string := get_with (as_string Y).
Definition get_bool := get_with (as_bool Y).
Definition get_int := get_with (as_int Y).

Definition has (root : node) (node_name key : string) : outcome bool :=
  n ← y_get Y root node_name;
  if y_defined Y n then c ← y_get Y n key; Ok (y_defined Y c) else Ok false.

Definition has_node (root : node) (node_name : string) : outcome bool :=
  n ← y_get Y root node_name; Ok (y_defined Y n).

(** The getters with a default when the key or node is absent. *)
Definition get_or {A} (conv : node -> outcome A) (root : node) (node_name key : string) (def : A) : outcome A :=
  h ← has root node_name key;
  if h : bool then get_with conv root node_name key else Ok def.

Definition get_double_or := get_or (as_double Y).
Definition get_string_or := get_or (as_string Y).
Definition get_bool_or := get_or (as_bool Y).
Definition get_int_or := get_or (as_int Y).

Definition as_port (m : outcome Z) : outcome Z := z ← m; Ok (u16 z).

(** ** Follower: BilateralFeedback *)

Definition disable_feedback (fs : FeedbackSettings) : FeedbackSettings :=
  mkFeedbackSettings false (fs_target_ip fs) (fs_right_port fs) (fs_left_port fs) (fs_require_wired fs)
    (fs_allow_loopback fs) (fs_min_link_speed_mbps fs) (fs_link_recheck_s fs).

(** The assignments, from the settings with their initialisers. *)
Definition read_feedback_settings (root : node) (fs : FeedbackSettings) : Status * FeedbackSettings :=
  let '(st, enabled) := assign (Ok tt) (fs_enabled fs) (get_bool_or root "BilateralFeedback" "Enabled" false) in
  let '(st, target_ip) := assign st (fs_target_ip fs) (get_string_or root "BilateralFeedback" "TargetIp" (fs_target_ip fs)) in
  let '(st, right_port) := assign st (fs_right_port fs) (as_port (get_int_or root "BilateralFeedback" "RightPort" (fs_right_port fs))) in
  let '(st, left_port) := assign st (fs_left_port fs) (as_port (get_int_or root "BilateralFeedback" "LeftPort" (fs_left_port fs))) in
  let '(st, wired) := assign st (fs_require_wired fs) (get_bool_or root "BilateralLink" "RequireWired" (fs_require_wired fs)) in
  let '(st, loopback) := assign st (fs_allow_loopback fs) (get_bool_or root "BilateralLink" "AllowLoopback" (fs_allow_loopback fs)) in
  let '(st, speed) := assign st (fs_min_link_speed_mbps fs) (get_int_or root "BilateralLink" "MinLinkSpeedMbps" (fs_min_link_speed_mbps fs)) in
  let '(st, recheck) := assign st (fs_link_recheck_s fs) (get_double_or root "BilateralLink" "RecheckIntervalS" (fs_link_recheck_s fs)) in
  (st, mkFeedbackSettings enabled target_ip right_port left_port wired loopback speed recheck).

(** The [try] block and its handler; [Undef] is undefined behaviour of the program. *)
Definition load_feedback_settings (path : string) : outcome FeedbackSettings :=
  let fs := feedback_settings_default in
  match (root ← YamlLoader_new path; h ← has_node root "BilateralFeedback"; Ok (root, h)) with
  | Ok (root, h) =>
      if negb h then Ok fs
      else
        let '(st, fs) := read_feedback_settings root fs in
        match st with Ok _ => Ok fs | Throw _ => Ok (disable_feedback fs) | Undef => Undef end
  | Throw _ => Ok (disable_feedback fs)
  | Undef => Undef
  end.

(** ** Leader: BilateralFeedback, BilateralLink and Bilateral *)

Definition with_feedback_enabled (e : bool) (b : BilateralSettings) : BilateralSettings :=
  mkBilateralSettings e (bi_bind_ip b) (bi_right_port b) (bi_left_port b) (bi_peer_ip b) (bi_eval_window_s b)
    (bi_link_recheck_s b) (bi_gate b) (bi_render_enabled b) (bi_kp b) (bi_kd b) (bi_kf b)
    (bi_engage_max_error_rad b) (bi_engage_max_error_gripper b) (bi_engager b).

Definition read_gate (root : node) (st : Status) (g : BilateralGateConfig) : Status * BilateralGateConfig :=
  let link := "BilateralLink" in
  let '(st, wired) := assign st (g_require_wired g) (get_bool_or root link "RequireWired" (g_require_wired g)) in
  let '(st, loopback) := assign st (g_allow_loopback g) (get_bool_or root link "AllowLoopback" (g_allow_loopback g)) in
  let '(st, speed) := assign st (g_min_link_speed_mbps g) (get_int_or root link "MinLinkSpeedMbps" (g_min_link_speed_mbps g)) in
  let '(st, rate) := assign st (g_min_feedback_rate_hz g) (get_double_or root link "MinFeedbackRateHz" (g_min_feedback_rate_hz g)) in
  let '(st, age) := assign st (g_max_feedback_age_ms g) (get_double_or root link "MaxFeedbackAgeMs" (g_max_feedback_age_ms g)) in
  let '(st, rtt) := assign st (g_max_rtt_p95_ms g) (get_double_or root link "MaxRttP95Ms" (g_max_rtt_p95_ms g)) in
  let '(st, loss) := assign st (g_max_loss_percent g) (get_double_or root link "MaxLossPercent" (g_max_loss_percent g)) in
  let '(st, ok) := assign st (g_require_follower_link_ok g) (get_bool_or root link "RequireFollowerLinkOk" (g_require_follower_link_ok g)) in
  (st, mkGateConfig wired loopback speed rate age rtt loss ok).

(** [if (cfg.has(n, k)) v = cfg.get_vector(n, k)]. *)
Definition vector_if (root : node) (node_name key : string) (old : list double) : outcome (list double) :=
  h ← has root node_name key; if h : bool then get_vector root node_name key else Ok old.

(** The [Bilateral] section: rendering flag, gains, engage tolerances, ramps. *)
Definition read_render (root : node) (st : Status) (b : BilateralSettings) : Status * BilateralSettings :=
  let n := "Bilateral" in
  let '(st, present) := assign st false (has_node root n) in
  if negb present then (st, b)
  else
    let '(st, render) := assign st (bi_render_enabled b) (get_bool_or root n "Enabled" false) in
    let '(st, kp) := assign st (bi_kp b) (vector_if root n "Kp" (bi_kp b)) in
    let '(st, kd) := assign st (bi_kd b) (vector_if root n "Kd" (bi_kd b)) in
    let '(st, kf) := assign st (bi_kf b) (vector_if root n "Kf" (bi_kf b)) in
    let '(st, rad) := assign st (bi_engage_max_error_rad b) (get_double_or root n "EngageMaxErrorRad" (bi_engage_max_error_rad b)) in
    let '(st, grip) := assign st (bi_engage_max_error_gripper b) (get_double_or root n "EngageMaxErrorGripper" (bi_engage_max_error_gripper b)) in
    let '(st, up) := assign st (ramp_up_s (bi_engager b)) (get_double_or root n "RampUpS" (ramp_up_s (bi_engager b))) in
    let '(st, down) := assign st (ramp_down_s (bi_engager b)) (get_double_or root n "RampDownS" (ramp_down_s (bi_engager b))) in
    let '(st, render) :=
      assign st render (Ok (if render && (bool_decide (length kp < 8)%nat || bool_decide (length kd < 8)%nat)
                            then false else render)) in
    (st, mkBilateralSettings (bi_feedback_enabled b) (bi_bind_ip b) (bi_right_port b) (bi_left_port b) (bi_peer_ip b)
           (bi_eval_window_s b) (bi_link_recheck_s b) (bi_gate b) render kp kd kf rad grip (mkEngagerConfig up down)).

Definition read_bilateral_settings (root : node) (b : BilateralSettings) : Status * BilateralSettings :=
  let fbk := "BilateralFeedback" in let link := "BilateralLink" in
  let '(st, enabled) := assign (Ok tt) (bi_feedback_enabled b) (get_bool_or root fbk "Enabled" false) in
  let '(st, bind_ip) := assign st (bi_bind_ip b) (get_string_or root fbk "BindIp" (bi_bind_ip b)) in
  let '(st, right_port) := assign st (bi_right_port b) (as_port (get_int_or root fbk "RightPort" (bi_right_port b))) in
  let '(st, left_port) := assign st (bi_left_port b) (as_port (get_int_or root fbk "LeftPort" (bi_left_port b))) in
  let '(st, window) := assign st (bi_eval_window_s b) (get_double_or root link "EvalWindowS" (bi_eval_window_s b)) in
  let '(st, recheck) := assign st (bi_link_recheck_s b) (get_double_or root link "RecheckIntervalS" (bi_link_recheck_s b)) in
  let '(st, peer) := assign st (bi_peer_ip b) (get_string_or root link "PeerIp" (bi_peer_ip b)) in
  let '(st, gate) := read_gate root st (bi_gate b) in
  read_render root st
    (mkBilateralSettings enabled bind_ip right_port left_port peer window recheck gate (bi_render_enabled b)
       (bi_kp b) (bi_kd b) (bi_kf b) (bi_engage_max_error_rad b) (bi_engage_max_error_gripper b) (bi_engager b)).

Definition load_bilateral_settings (path : string) : outcome BilateralSettings :=
  let b := bilateral_settings_default in
  match (root ← YamlLoader_new path; h ← has_node root "BilateralFeedback"; Ok (root, h)) with
  | Ok (root, h) =>
      if negb h then Ok b
      else
        let '(st, b) := read_bilateral_settings root b in
        match st with Ok _ => Ok b | Throw _ => Ok (with_feedback_enabled false b) | Undef => Undef end
  | Throw _ => Ok (with_feedback_enabled false b)
  | Undef => Undef
  end.
End yaml.
