(* ===== verification/YamlFacts.v ===== *)
(** * YamlFacts: configuration files fail safe

    An unreadable, incomplete or malformed configuration never switches the
    bilateral feedback or its rendering on, and no exception of the YAML library
    leaves the settings loaders. *)

From S2P Require Import Prelude Float64 Packets FeedbackStateBuffer LinkCheck BilateralGate BilateralEngager.
From S2P Require Import AppCommon LeaderApp FollowerApp Yaml.

Open Scope Z_scope.

(** ** The library contract *)

(** Every call of yaml-cpp returns or throws. *)
Record yaml_defined (Y : YamlLib) : Prop := {
  yd_load path : LoadFile Y path <> Undef;
  yd_get n k : y_get Y n k <> Undef;
  yd_idx n i : y_idx Y n i <> Undef;
  yd_double n : as_double Y n <> Undef;
  yd_int n : as_int Y n <> Undef;
  yd_bool n : as_bool Y n <> Undef;
  yd_string n : as_string Y n <> Undef;
  yd_doubles n : as_doubles Y n <> Undef;
}.

Create HintDb yaml discriminated.
#[export] Hint Resolve yd_load yd_get yd_idx yd_double yd_int yd_bool yd_string yd_doubles : yaml.

(** ** Assignment sequences *)

Lemma assign_ok {A} st (old : A) m v : assign st old m = (Ok tt, v) -> st = Ok tt /\ m = Ok v.
Proof. destruct st as [[]| |], m; simpl; intros [=]; by subst. Qed.

Lemma assign_defined {A} st (old : A) m st' v :
  assign st old m = (st', v) -> st <> Undef -> m <> Undef -> st' <> Undef.
Proof. destruct st as [[]| |], m; simpl; intros [= <- <-]; done. Qed.

Lemma assign_throw {A} e (old : A) m : assign (Throw e) old m = (Throw e, old).
Proof. done. Qed.

(** Names the result of every assignment of a sequence, outermost first. *)
Ltac run_assigns :=
  repeat match goal with
    | |- context [assign ?st ?old ?m] =>
        let s := fresh "st" in let v := fresh "v" in let E := fresh "E" in
        destruct (assign st old m) as [s v] eqn:E; cbv beta iota zeta
    end.

(** Every status of a sequence whose expressions are defined is defined. *)
Ltac defined_statuses :=
  repeat match goal with
    | E : assign ?st ?old ?m = (?s, _) |- ?s <> Undef =>
        apply (assign_defined _ _ _ _ _ E); clear E; [|solve [auto with yaml]]
    end; try done.

(** The statuses before a successful end were successes. *)
Ltac successful_assigns :=
  repeat match goal with
    | E : assign ?st ?old ?m = (Ok tt, _) |- _ => apply assign_ok in E as [? E]; subst
    end.

Section getters.
Context (Y : YamlLib).

Lemma get_node_defined root n k : yaml_defined Y -> get_node Y root n k <> Undef.
Proof.
  intros HY. unfold get_node. apply bind_defined; [auto with yaml|]. intros a _.
  destruct (negb _); [done|]. apply bind_defined; [auto with yaml|]. intros c _. by destruct (negb _).
Qed.

Lemma has_defined root n k : yaml_defined Y -> has Y root n k <> Undef.
Proof.
  intros HY. unfold has. apply bind_defined; [auto with yaml|]. intros a _.
  destruct (y_defined Y a); [|done]. apply bind_defined; [auto with yaml|done].
Qed.

Lemma has_node_defined root n : yaml_defined Y -> has_node Y root n <> Undef.
Proof. intros HY. unfold has_node. apply bind_defined; [auto with yaml|done]. Qed.

Lemma get_with_defined {A} (conv : ynode Y -> outcome A) root n k :
  yaml_defined Y -> (forall c, conv c <> Undef) -> get_with Y conv root n k <> Undef.
Proof. intros HY Hc. apply bind_defined; [by apply get_node_defined|auto]. Qed.

Lemma get_or_defined {A} (conv : ynode Y -> outcome A) root n k d :
  yaml_defined Y -> (forall c, conv c <> Undef) -> get_or Y conv root n k d <> Undef.
Proof.
  intros HY Hc. apply bind_defined; [by apply has_defined|]. intros [] _; [|done].
  by apply get_with_defined.
Qed.

Lemma get_double_or_defined root n k d : yaml_defined Y -> get_double_or Y root n k d <> Undef.
Proof. intros HY. apply get_or_defined; [done|auto with yaml]. Qed.

Lemma get_string_or_defined root n k d : yaml_defined Y -> get_string_or Y root n k d <> Undef.
Proof. intros HY. apply get_or_defined; [done|auto with yaml]. Qed.

Lemma get_bool_or_defined root n k d : yaml_defined Y -> get_bool_or Y root n k d <> Undef.
Proof. intros HY. apply get_or_defined; [done|auto with yaml]. Qed.

Lemma get_int_or_defined root n k d : yaml_defined Y -> get_int_or Y root n k d <> Undef.
Proof. intros HY. apply get_or_defined; [done|auto with yaml]. Qed.

Lemma port_defined root n k d : yaml_defined Y -> as_port (get_int_or Y root n k d) <> Undef.
Proof. intros HY. apply bind_defined; [by apply get_int_or_defined|done]. Qed.

Lemma vector_if_defined root n k old : yaml_defined Y -> vector_if Y root n k old <> Undef.
Proof.
  intros HY. apply bind_defined; [by apply has_defined|]. intros [] _; [|done].
  apply get_with_defined; [done|auto with yaml].
Qed.

Lemma loader_defined path n :
  yaml_defined Y ->
  (root ← YamlLoader_new Y path; h ← has_node Y root n; Ok (root, h)) <> Undef.
Proof.
  intros HY. apply bind_defined.
  - unfold YamlLoader_new. pose proof (yd_load _ HY path). by destruct (LoadFile Y path).
  - intros root _. apply bind_defined; [by apply has_node_defined|done].
Qed.

Lemma loader_ok path n root h :
  (root ← YamlLoader_new Y path; h ← has_node Y root n; Ok (root, h)) = Ok (root, h) ->
  LoadFile Y path = Ok root /\ has_node Y root n = Ok h.
Proof.
  intros (r & Hr & (h' & Hh & [= <- <-])%bind_ok)%bind_ok. split; [|done].
  revert Hr. unfold YamlLoader_new. by destruct (LoadFile Y path).
Qed.
End getters.

#[export] Hint Resolve has_defined has_node_defined get_double_or_defined get_string_or_defined get_bool_or_defined
  get_int_or_defined port_defined vector_if_defined : yaml.

(** ** The two loaders *)

Section loaders.
Context (Y : YamlLib).

Lemma read_feedback_defined root fs :
  yaml_defined Y -> (read_feedback_settings Y root fs).1 <> Undef.
Proof. intros HY. unfold read_feedback_settings. run_assigns. cbn [fst]. defined_statuses. Qed.

Lemma read_feedback_enabled root fs fs' :
  read_feedback_settings Y root fs = (Ok tt, fs') ->
  get_bool_or Y root "BilateralFeedback" "Enabled" false = Ok (fs_enabled fs').
Proof.
  unfold read_feedback_settings. run_assigns. intros [= -> <-]. by successful_assigns.
Qed.

Lemma read_gate_status root st g : yaml_defined Y -> st <> Undef -> (read_gate Y root st g).1 <> Undef.
Proof. intros HY Hs. unfold read_gate. run_assigns. cbn [fst]. defined_statuses. Qed.

Lemma read_gate_ok root st g g' : read_gate Y root st g = (Ok tt, g') -> st = Ok tt.
Proof. unfold read_gate. run_assigns. intros [= -> _]. by successful_assigns. Qed.

Lemma read_render_status root st b : yaml_defined Y -> st <> Undef -> (read_render Y root st b).1 <> Undef.
Proof.
  intros HY Hs. unfold read_render.
  destruct (assign st false (has_node Y root "Bilateral")) as [st' p] eqn:Ep.
  assert (st' <> Undef) by (eapply assign_defined; [exact Ep|done|auto with yaml]).
  cbv beta iota zeta. destruct p; cbn [negb fst]; [|done]. run_assigns. cbn [fst]. defined_statuses.
Qed.

(** A successful end, and rendering only with gains for eight joints. *)
Lemma read_render_ok root st b b' :
  read_render Y root st b = (Ok tt, b') -> bi_render_enabled b = false ->
  st = Ok tt /\ bi_feedback_enabled b' = bi_feedback_enabled b /\
  (bi_render_enabled b' = true -> (8 <= length (bi_kp b'))%nat /\ (8 <= length (bi_kd b'))%nat).
Proof.
  intros H Hb. revert H. unfold read_render.
  destruct (assign st false (has_node Y root "Bilateral")) as [st' p] eqn:Ep.
  cbv beta iota zeta. destruct p; cbn [negb].
  - run_assigns. intros [= -> <-]. successful_assigns. split_and!; [done|done|].
    cbn [bi_render_enabled bi_kp bi_kd]. intros ->.
    match goal with H : Ok (if ?c then _ else _) = Ok true |- _ =>
      destruct c eqn:Ec; [discriminate|]; injection H as Hr end.
    subst. cbn [andb] in Ec. bool_prop. rewrite !bool_decide_eq_false in *. lia.
  - intros [= -> <-]. successful_assigns. split_and!; [done|done|]. congruence.
Qed.

Lemma read_bilateral_defined root b :
  yaml_defined Y -> (read_bilateral_settings Y root b).1 <> Undef.
Proof.
  intros HY. unfold read_bilateral_settings. run_assigns.
  match goal with |- context [read_gate Y root ?s ?g] =>
    destruct (read_gate Y root s g) as [sg g'] eqn:Eg; pose proof (read_gate_status root s g HY) as Hg end.
  rewrite Eg in Hg. cbn [fst] in Hg. apply read_render_status; [done|]. apply Hg. defined_statuses.
Qed.

Lemma read_bilateral_ok root b b' :
  read_bilateral_settings Y root b = (Ok tt, b') -> bi_render_enabled b = false ->
  get_bool_or Y root "BilateralFeedback" "Enabled" false = Ok (bi_feedback_enabled b') /\
  (bi_render_enabled b' = true -> (8 <= length (bi_kp b'))%nat /\ (8 <= length (bi_kd b'))%nat).
Proof.
  intros H Hb. revert H. unfold read_bilateral_settings. run_assigns.
  match goal with |- context [read_gate Y root ?s ?g] => destruct (read_gate Y root s g) as [sg g'] eqn:Eg end.
  intros (-> & He & Hr)%read_render_ok; [|done]. apply read_gate_ok in Eg as ->. successful_assigns.
  rewrite He. by split.
Qed.
End loaders.

(** ** A concrete library

    Trees with the conversions of the matching scalar type. *)

Inductive YTree :=
| TNone
| TBool (b : bool)
| TInt (z : Z)
| TNum (x : double)
| TText (t : string)
| TNums (l : list double)
| TSeq (l : list YTree)
| TMap (l : list (string * YTree)).

Fixpoint tree_find (l : list (string * YTree)) (k : string) : YTree :=
  match l with
  | [] => TNone
  | (k', n) :: l' => if String.eqb k' k then n else tree_find l' k
  end.

Definition tree_yaml (file : outcome YTree) : YamlLib :=
  mkYaml YTree (fun _ => file)
    (fun n k => match n with TMap l => Ok (tree_find l k) | TNone => Throw "invalid node" | _ => Throw "bad subscript" end)
    (fun n i => match n with
                | TNums l => Ok (default TNone (TNum <$> l !! i))
                | TSeq l => Ok (default TNone (l !! i))
                | _ => Throw "bad subscript"
                end)
    (fun n => match n with TNone => false | _ => true end)
    (fun n => match n with TNum x => Ok x | TInt z => Ok (d_of_Z z) | _ => Throw "bad conversion" end)
    (fun n => match n with TInt z => Ok z | _ => Throw "bad conversion" end)
    (fun n => match n with TBool b => Ok b | _ => Throw "bad conversion" end)
    (fun n => match n with TText t => Ok t | _ => Throw "bad conversion" end)
    (fun n => match n with TNums l => Ok l | _ => Throw "bad conversion" end).

Lemma tree_yaml_defined file : file <> Undef -> yaml_defined (tree_yaml file).
Proof. intros Hf. constructor; [done|..]; intros []; done. Qed.

(** ** Nodes that show a tree

    What yaml-cpp promises for a node of a file with these contents. *)

Section shows.
Context (Y : YamlLib).

Inductive shows : ynode Y -> YTree -> Prop :=
| shows_none n : y_defined Y n = false -> shows n TNone
| shows_bool n b : y_defined Y n = true -> as_bool Y n = Ok b -> shows n (TBool b)
| shows_int n z : y_defined Y n = true -> as_int Y n = Ok z -> shows n (TInt z)
| shows_num n x : y_defined Y n = true -> as_double Y n = Ok x -> shows n (TNum x)
| shows_text n t : y_defined Y n = true -> as_string Y n = Ok t -> shows n (TText t)
| shows_nums n l e : y_defined Y n = true ->
    (forall i x, l !! i = Some x -> y_idx Y n i = Ok (e i)) ->
    (forall i x, l !! i = Some x -> as_double Y (e i) = Ok x) -> shows n (TNums l)
| shows_seq n l e : y_defined Y n = true ->
    (forall i t, l !! i = Some t -> y_idx Y n i = Ok (e i)) ->
    (forall i t, l !! i = Some t -> shows (e i) t) -> shows n (TSeq l)
| shows_map n l e : y_defined Y n = true ->
    (forall k, y_get Y n k = Ok (e k)) -> (forall k, shows (e k) (tree_find l k)) -> shows n (TMap l).
End shows.

Lemma tree_shows file : forall t, shows (tree_yaml file) t t.
Proof.
  fix IH 1. intros [|b|z|x|t|l|l|l].
  1-5: by constructor.
  - apply (shows_nums (tree_yaml file) _ _ (fun i => default TNone (TNum <$> l !! i))); [done|done|]. by intros i x ->.
  - apply (shows_seq (tree_yaml file) _ _ (fun i => default TNone (l !! i))); [done|done|].
    induction l as [|u l IHl]; intros [|i] t H; try done; simpl in *.
    + injection H as <-. apply IH.
    + by apply IHl.
  - apply (shows_map (tree_yaml file) _ _ (tree_find l)); [done|done|]. intros k.
    induction l as [|[k' u] l IHl]; simpl; [by constructor|]. destruct (String.eqb k' k); [apply IH|apply IHl].
Qed.

(** A leader configuration with rendering, and one with a misspelt boolean. *)
Definition gains : YTree := TNums (replicate 8 d1).

Definition good_config : YTree :=
  TMap [("BilateralFeedback", TMap [("Enabled", TBool true)]);
        ("Bilateral", TMap [("Enabled", TBool true); ("Kp", gains); ("Kd", gains)])].

Definition bad_config : YTree :=
  TMap [("BilateralFeedback", TMap [("Enabled", TBool true)]); ("BilateralLink", TMap [("RequireWired", TText "ja")])].

(** ** Properties *)

(** Loading the follower's feedback settings fails safe. With a YAML library
    whose calls return or throw, loading always returns settings (no exception
    escapes). Feedback is enabled only when the file was loaded, the section is
    present, its Enabled key reads true and every other setting was read without
    an error; otherwise it is disabled. *)
Lemma feedback_settings_fail_safe (Y : YamlLib) (path : string) (HY : yaml_defined Y) :
  exists fs, load_feedback_settings Y path = Ok fs /\
    (fs_enabled fs = true ->
     exists root, LoadFile Y path = Ok root /\
       has_node Y root "BilateralFeedback" = Ok true /\
       get_bool_or Y root "BilateralFeedback" "Enabled" false = Ok true /\
       read_feedback_settings Y root feedback_settings_default = (Ok tt, fs)).
Proof.
  unfold load_feedback_settings.
  pose proof (loader_defined Y path "BilateralFeedback" HY) as Hl.
  destruct (root ← _; _) as [[root h]|e|] eqn:El; [|by eexists|done].
  apply loader_ok in El as [El Eh]. destruct h; cbn [negb]; [|by eexists].
  pose proof (read_feedback_defined Y root feedback_settings_default HY) as Hd.
  destruct (read_feedback_settings Y root feedback_settings_default) as [[[]|e|] fs] eqn:Er; [|by eexists|done].
  exists fs. split; [done|]. intros He. exists root. rewrite (read_feedback_enabled _ _ _ _ Er), He. done.
Qed.

Lemma feedback_settings_fail_safe_witness :
  (exists fs, load_feedback_settings (tree_yaml (Ok good_config)) "f.yaml" = Ok fs /\ fs_enabled fs = true) /\
  (exists fs, load_feedback_settings (tree_yaml (Ok bad_config)) "f.yaml" = Ok fs /\ fs_enabled fs = false).
Proof.
  assert (H : forall t, yaml_defined (tree_yaml (Ok t))) by (intros t; by apply tree_yaml_defined).
  split.
  - destruct (feedback_settings_fail_safe (tree_yaml (Ok good_config)) "f.yaml" (H _)) as (fs & E & _).
    exists fs. split; [exact E|]. vm_compute in E. injection E as <-. reflexivity.
  - destruct (feedback_settings_fail_safe (tree_yaml (Ok bad_config)) "f.yaml" (H _)) as (fs & E & _).
    exists fs. split; [exact E|]. vm_compute in E. injection E as <-. reflexivity.
Defined.

(** Loading the leader's bilateral settings fails safe: loading always returns
    settings; feedback is enabled only when the file, the section, the Enabled
    key and every other setting were read without an error; and when it is
    enabled, rendering forces is enabled only with position and velocity gains
    for all eight joints. *)
Lemma bilateral_settings_fail_safe (Y : YamlLib) (path : string) (HY : yaml_defined Y) :
  exists b, load_bilateral_settings Y path = Ok b /\
    (bi_feedback_enabled b = true ->
     exists root, LoadFile Y path = Ok root /\
       has_node Y root "BilateralFeedback" = Ok true /\
       get_bool_or Y root "BilateralFeedback" "Enabled" false = Ok true /\
       read_bilateral_settings Y root bilateral_settings_default = (Ok tt, b) /\
       (bi_render_enabled b = true -> (8 <= length (bi_kp b))%nat /\ (8 <= length (bi_kd b))%nat)).
Proof.
  unfold load_bilateral_settings.
  pose proof (loader_defined Y path "BilateralFeedback" HY) as Hl.
  destruct (root ← _; _) as [[root h]|e|] eqn:El; [|by eexists|done].
  apply loader_ok in El as [El Eh]. destruct h; cbn [negb]; [|by eexists].
  pose proof (read_bilateral_defined Y root bilateral_settings_default HY) as Hd.
  destruct (read_bilateral_settings Y root bilateral_settings_default) as [[[]|e|] b] eqn:Er; [|by eexists|done].
  exists b. split; [done|]. intros He. exists root.
  destruct (read_bilateral_ok _ _ _ _ Er eq_refl) as [Hg Hr]. rewrite Hg, He. done.
Qed.

Lemma bilateral_settings_fail_safe_witness :
  (exists b, load_bilateral_settings (tree_yaml (Ok good_config)) "l.yaml" = Ok b /\
     bi_feedback_enabled b = true /\ bi_render_enabled b = true /\ (8 <= length (bi_kp b))%nat) /\
  (exists b, load_bilateral_settings (tree_yaml (Throw "no such file")) "l.yaml" = Ok b /\
     bi_feedback_enabled b = false).
Proof.
  split.
  - destruct (bilateral_settings_fail_safe (tree_yaml (Ok good_config)) "l.yaml") as (b & E & H);
      [by apply tree_yaml_defined|].
    exists b. split; [exact E|].
    assert (He : bi_feedback_enabled b = true /\ bi_render_enabled b = true)
      by (vm_compute in E; injection E as <-; split; reflexivity).
    destruct (H (proj1 He)) as (_ & _ & _ & _ & _ & Hr). destruct (Hr (proj2 He)). split_and!; [apply He..|done].
  - destruct (bilateral_settings_fail_safe (tree_yaml (Throw "no such file")) "l.yaml") as (b & E & _);
      [by apply tree_yaml_defined|].
    exists b. split; [exact E|]. vm_compute in E. injection E as <-. reflexivity.
Defined.
