(* ===== verification/VrConfig.v ===== *)
(** * VrConfig: settings of the VR leader

    [VrTeleopConfig], [load_config] and the [--set] overrides of
    [src/src/apps/wifi_vr_bimanual_leader.cpp]. The loader assigns member by
    member inside one [try] block, array entries one by one, so an exception
    leaves everything read before it in place. *)

From Stdlib Require Import Ascii.
From S2P Require Import Prelude Float64 Dynamics Yaml.

Open Scope Z_scope.

(** ** The settings *)

Record VrMapping := mkVrMapping {
  position_scale_xyz : list double;
  max_delta_m : double;
  deadband_m : double;
  max_delta_per_cycle_m : double;
  right_translation_matrix : Matrix;
  left_translation_matrix : Matrix;
  right_rotation_matrix : Matrix;
  left_rotation_matrix : Matrix;
  invert_rotation_delta : bool;
  rotation_compose_order : string;
  gripper_min_limit : double;
  gripper_max_limit : double;
}.

Record VrIKConfig := mkVrIK {
  ik_mode : string;
  ik_max_iterations : Z;
  ik_convergence_tol_m : double;
  ik_convergence_tol_rad : double;
  ik_damping : double;
  ik_max_dq_norm : double;
  ik_max_task_step_m : double;
  ik_max_task_step_rad : double;
  ik_position_weight : double;
  ik_orientation_weight : double;
  ik_nullspace_enabled : bool;
  ik_nullspace_posture_gain : double;
  ik_max_consecutive_failures : Z;
  ik_failure_hold : bool;
}.

Record VrTelemetryConfig := mkVrTelemetry { stale_timeout_ms : Z; anchor_reset_timeout_ms : Z }.

Record VrHumanModel := mkVrHuman {
  hm_enabled : bool;
  shoulder_width_m : double;
  shoulder_down_offset_m : double;
  shoulder_back_offset_m : double;
  upper_arm_length_m : double;
  forearm_length_m : double;
  neutral_swivel_right_rad : double;
  neutral_swivel_left_rad : double;
}.

Record VrSwivelConfig := mkVrSwivel {
  vs_enabled : bool;
  vs_apply_to_ik : bool;
  vs_log_only : bool;
  vs_neutral_gain : double;
  vs_continuity_gain : double;
  vs_wrist_orientation_gain : double;
  vs_max_swivel_rate_rad_s : double;
}.

Record VrRateLimit := mkVrRate { rl_enabled : bool; max_step_rad_r : list double; max_step_rad_l : list double }.

Record VrDebugConfig := mkVrDebug { ik_debug : bool; ik_debug_rate_hz : double; ik_debug_burst_sec : double }.

Record VrTeleopConfig := mkVrConfig {
  vc_mapping : VrMapping;
  vc_ik : VrIKConfig;
  vc_tel : VrTelemetryConfig;
  vc_human : VrHumanModel;
  vc_swivel : VrSwivelConfig;
  vc_rate_limit : VrRateLimit;
  vc_debug : VrDebugConfig;
}.

(** The member initialisers. *)
Definition identity3 : Matrix := [[d1; d0; d0]; [d0; d1; d0]; [d0; d0; d1]].

Definition max_step_default : list double :=
  [dlit 35 3; dlit 35 3; dlit 35 3; dlit 35 3; dlit 35 3; dlit 25 3; dlit 35 3; dlit 2 2].

Definition vr_config_default : VrTeleopConfig :=
  mkVrConfig
    (mkVrMapping [d1; d1; d1] (dlit 3 1) (dlit 2 3) (dlit 1 2) identity3 identity3 identity3 identity3
       false "anchor_then_delta" d0 (dlit 44 3))
    (mkVrIK "pose" 20 (dlit 5 3) (dlit 5 2) (dlit 5 2) (dlit 5 2) (dlit 2 2) (dlit 1 1) d1 (dlit 1 1)
       true (dlit 5 2) 20 true)
    (mkVrTelemetry 100 300)
    (mkVrHuman true (dlit 38 2) (dlit 18 2) (dlit 5 2) (dlit 3 1) (dlit 27 2) d0 d0)
    (mkVrSwivel true true false (dlit 2 1) (dlit 7 1) (dlit 1 1) d1)
    (mkVrRate true max_step_default max_step_default)
    (mkVrDebug false (d_of_Z 5) (d_of_Z 3)).

Section load.
Context (Y : YamlLib).
#[local] Abbreviation node := (ynode Y).

(** ** Reading nodes *)

(** [n[k]] when it is defined. *)
Definition child (n : node) (k : string) : outcome (option node) :=
  c ← y_get Y n k; Ok (if y_defined Y c then Some c else None).

(** [if (n[k]) x = n[k].as<T>();]. *)
Definition opt_key {A} (conv : node -> outcome A) (st : Status) (old : A) (n : node) (k : string) : Status * A :=
  assign st old (c ← child n k; match c with Some c => conv c | None => Ok old end).

Definition opt_double := opt_key (as_double Y).
Definition opt_int := opt_key (as_int Y).
Definition opt_bool := opt_key (as_bool Y).
Definition opt_string := opt_key (as_string Y).

(** [v[i] = m;]: the value first, then the write, which is undefined out of range. *)
Definition assign_at (st : Status) (v : list double) (i : nat) (m : outcome double) : Status * list double :=
  let '(st, x) := assign st d0 m in
  match st with
  | Ok _ => if decide (i < length v)%nat then (st, set_nth i x v) else (Undef, v)
  | _ => (st, v)
  end.

(** [for i: v[i] = get(i);] entry by entry. *)
Definition assign_list (st : Status) (v : list double) (ix : list nat) (get : nat -> outcome double)
    : Status * list double :=
  fold_left (fun '(st, v) i => assign_at st v i (get i)) ix (st, v).

(** [if (n[k]) for i < len: v[i] = n[k][i].as<double>();]. *)
Definition opt_list (len : nat) (st : Status) (v : list double) (n : node) (k : string) : Status * list double :=
  let '(st, c) := assign st None (child n k) in
  match c with
  | Some c => assign_list st v (seq 0 len) (fun i => e ← y_idx Y c i; as_double Y e)
  | None => (st, v)
  end.

(** [load_matrix]; a row the matrix does not have is an empty one, so that a
    write to it is undefined as well. *)
Definition load_matrix (st : Status) (mat : Matrix) (m : node) (k : string) : Status * Matrix :=
  let '(st, c) := assign st None (child m k) in
  match c with
  | Some c =>
      fold_left (fun '(st, mat) i =>
        let '(st, row) := assign_list st (nth i mat []) (seq 0 3)
                            (fun j => r ← y_idx Y c i; e ← y_idx Y r j; as_double Y e) in
        (st, set_nth i row mat)) (seq 0 3) (st, mat)
  | None => (st, mat)
  end.

(** [if (node[k]) { auto m = node[k]; ... }]. *)
Definition subsection {A} (read : Status -> node -> A -> Status * A) (st : Status) (root : node) (k : string) (old : A)
    : Status * A :=
  let '(st, c) := assign st None (child root k) in
  match c with Some m => read st m old | None => (st, old) end.

(** ** The sections *)

Definition read_mapping (st : Status) (m : node) (c : VrMapping) : Status * VrMapping :=
  let '(st, scale) := opt_list 3 st (position_scale_xyz c) m "position_scale_xyz" in
  let '(st, max_delta) := opt_double st (max_delta_m c) m "max_delta_m" in
  let '(st, deadband) := opt_double st (deadband_m c) m "deadband_m" in
  let '(st, per_cycle) := opt_double st (max_delta_per_cycle_m c) m "max_delta_per_cycle_m" in
  let '(st, tr) := load_matrix st (right_translation_matrix c) m "right_translation_matrix" in
  let '(st, tl) := load_matrix st (left_translation_matrix c) m "left_translation_matrix" in
  let '(st, tr) := load_matrix st tr m "right_axis_matrix" in
  let '(st, tl) := load_matrix st tl m "left_axis_matrix" in
  let '(st, rr) := load_matrix st (right_rotation_matrix c) m "right_rotation_matrix" in
  let '(st, rl) := load_matrix st (left_rotation_matrix c) m "left_rotation_matrix" in
  let '(st, invert) := opt_bool st (invert_rotation_delta c) m "invert_rotation_delta" in
  let '(st, order) := opt_string st (rotation_compose_order c) m "rotation_compose_order" in
  let '(st, gmin) := opt_double st (gripper_min_limit c) m "gripper_min_limit" in
  let '(st, gmax) := opt_double st (gripper_max_limit c) m "gripper_max_limit" in
  (st, mkVrMapping scale max_delta deadband per_cycle tr tl rr rl invert order gmin gmax).

Definition read_ik (st : Status) (i : node) (c : VrIKConfig) : Status * VrIKConfig :=
  let '(st, mode) := opt_string st (ik_mode c) i "mode" in
  let '(st, iters) := opt_int st (ik_max_iterations c) i "max_iterations" in
  let '(st, tol_m) := opt_double st (ik_convergence_tol_m c) i "convergence_tol_m" in
  let '(st, tol_m) := opt_double st tol_m i "convergence_tol_pos_m" in
  let '(st, tol_rad) := opt_double st (ik_convergence_tol_rad c) i "convergence_tol_rad" in
  let '(st, tol_rad) := opt_double st tol_rad i "convergence_tol_ori_rad" in
  let '(st, damp) := opt_double st (ik_damping c) i "damping" in
  let '(st, dq) := opt_double st (ik_max_dq_norm c) i "max_dq_norm" in
  let '(st, step_m) := opt_double st (ik_max_task_step_m c) i "max_task_step_m" in
  let '(st, step_rad) := opt_double st (ik_max_task_step_rad c) i "max_task_step_rad" in
  let '(st, pw) := opt_double st (ik_position_weight c) i "position_weight" in
  let '(st, ow) := opt_double st (ik_orientation_weight c) i "orientation_weight" in
  let '(st, ns) := opt_bool st (ik_nullspace_enabled c) i "nullspace_enabled" in
  let '(st, gain) := opt_double st (ik_nullspace_posture_gain c) i "nullspace_posture_gain" in
  let '(st, fails) := opt_int st (ik_max_consecutive_failures c) i "max_consecutive_failures" in
  let '(st, hold) := opt_bool st (ik_failure_hold c) i "failure_hold" in
  (st, mkVrIK mode iters tol_m tol_rad damp dq step_m step_rad pw ow ns gain fails hold).

Definition read_tel (st : Status) (t : node) (c : VrTelemetryConfig) : Status * VrTelemetryConfig :=
  let '(st, stale) := opt_int st (stale_timeout_ms c) t "stale_timeout_ms" in
  let '(st, reset) := opt_int st (anchor_reset_timeout_ms c) t "anchor_reset_timeout_ms" in
  (st, mkVrTelemetry stale reset).

Definition read_human (st : Status) (h : node) (c : VrHumanModel) : Status * VrHumanModel :=
  let '(st, enabled) := opt_bool st (hm_enabled c) h "enabled" in
  let '(st, width) := opt_double st (shoulder_width_m c) h "shoulder_width_m" in
  let '(st, down) := opt_double st (shoulder_down_offset_m c) h "shoulder_down_offset_m" in
  let '(st, back) := opt_double st (shoulder_back_offset_m c) h "shoulder_back_offset_m" in
  let '(st, upper) := opt_double st (upper_arm_length_m c) h "upper_arm_length_m" in
  let '(st, forearm) := opt_double st (forearm_length_m c) h "forearm_length_m" in
  let '(st, nr) := opt_double st (neutral_swivel_right_rad c) h "neutral_swivel_right_rad" in
  let '(st, nl) := opt_double st (neutral_swivel_left_rad c) h "neutral_swivel_left_rad" in
  (st, mkVrHuman enabled width down back upper forearm nr nl).

Definition read_swivel (st : Status) (s : node) (c : VrSwivelConfig) : Status * VrSwivelConfig :=
  let '(st, enabled) := opt_bool st (vs_enabled c) s "enabled" in
  let '(st, apply_to_ik) := opt_bool st (vs_apply_to_ik c) s "apply_to_ik" in
  let '(st, log_only) := opt_bool st (vs_log_only c) s "log_only" in
  let '(st, neutral) := opt_double st (vs_neutral_gain c) s "neutral_gain" in
  let '(st, continuity) := opt_double st (vs_continuity_gain c) s "continuity_gain" in
  let '(st, wrist) := opt_double st (vs_wrist_orientation_gain c) s "wrist_orientation_gain" in
  let '(st, rate) := opt_double st (vs_max_swivel_rate_rad_s c) s "max_swivel_rate_rad_s" in
  (st, mkVrSwivel enabled apply_to_ik log_only neutral continuity wrist rate).

Definition read_max_step (st : Status) (ms : node) (c : VrRateLimit) : Status * VrRateLimit :=
  let '(st, r) := opt_list 8 st (max_step_rad_r c) ms "right_arm" in
  let '(st, l) := opt_list 8 st (max_step_rad_l c) ms "left_arm" in
  (st, mkVrRate (rl_enabled c) r l).

Definition read_rate_limit (st : Status) (r : node) (c : VrRateLimit) : Status * VrRateLimit :=
  let '(st, enabled) := opt_bool st (rl_enabled c) r "enabled" in
  subsection read_max_step st r "max_step_rad" (mkVrRate enabled (max_step_rad_r c) (max_step_rad_l c)).

Definition read_debug (st : Status) (d : node) (c : VrDebugConfig) : Status * VrDebugConfig :=
  let '(st, debug) := opt_bool st (ik_debug c) d "ik_debug" in
  let '(st, rate) := opt_double st (ik_debug_rate_hz c) d "ik_debug_rate_hz" in
  let '(st, burst) := opt_double st (ik_debug_burst_sec c) d "ik_debug_burst_sec" in
  (st, mkVrDebug debug rate burst).

(** The body of the [try] block. *)
Definition read_config (root : node) (c : VrTeleopConfig) : Status * VrTeleopConfig :=
  let '(st, mapping) := subsection read_mapping (Ok tt) root "vr_mapping" (vc_mapping c) in
  let '(st, ik) := subsection read_ik st root "ik" (vc_ik c) in
  let '(st, tel) := subsection read_tel st root "telemetry" (vc_tel c) in
  let '(st, human) := subsection read_human st root "human_model" (vc_human c) in
  let '(st, swivel) := subsection read_swivel st root "swivel_prior" (vc_swivel c) in
  let '(st, rate) := subsection read_rate_limit st root "rate_limit" (vc_rate_limit c) in
  let '(st, debug) := subsection read_debug st root "debug" (vc_debug c) in
  (st, mkVrConfig mapping ik tel human swivel rate debug).

(** The handler only logs. *)
Definition load_config (path : string) : outcome VrTeleopConfig :=
  match LoadFile Y path with
  | Ok root =>
      let '(st, c) := read_config root vr_config_default in
      match st with Undef => Undef | _ => Ok c end
  | Throw _ => Ok vr_config_default
  | Undef => Undef
  end.
End load.

(** ** Overrides from the command line *)

Definition parse_bool (value : string) : bool :=
  String.eqb value "1" || String.eqb value "true" || String.eqb value "TRUE" || String.eqb value "yes"
  || String.eqb value "on".

(** [item.find('=')] with both sides of it. *)
Fixpoint split_eq (item : string) : option (string * string) :=
  match item with
  | EmptyString => None
  | String c rest =>
      if Ascii.eqb c "=" then Some (EmptyString, rest)
      else '(k, v) ← split_eq rest; Some (String c k, v)
  end.

(** *** Updates of single members *)

Definition with_mapping (f : VrMapping -> VrMapping) (c : VrTeleopConfig) : VrTeleopConfig :=
  mkVrConfig (f (vc_mapping c)) (vc_ik c) (vc_tel c) (vc_human c) (vc_swivel c) (vc_rate_limit c) (vc_debug c).
Definition with_ik (f : VrIKConfig -> VrIKConfig) (c : VrTeleopConfig) : VrTeleopConfig :=
  mkVrConfig (vc_mapping c) (f (vc_ik c)) (vc_tel c) (vc_human c) (vc_swivel c) (vc_rate_limit c) (vc_debug c).
Definition with_human_enabled (b : bool) (c : VrTeleopConfig) : VrTeleopConfig :=
  let h := vc_human c in
  mkVrConfig (vc_mapping c) (vc_ik c) (vc_tel c)
    (mkVrHuman b (shoulder_width_m h) (shoulder_down_offset_m h) (shoulder_back_offset_m h) (upper_arm_length_m h)
       (forearm_length_m h) (neutral_swivel_right_rad h) (neutral_swivel_left_rad h))
    (vc_swivel c) (vc_rate_limit c) (vc_debug c).
Definition with_swivel_flags (enabled apply_to_ik log_only : bool) (c : VrTeleopConfig) : VrTeleopConfig :=
  let s := vc_swivel c in
  mkVrConfig (vc_mapping c) (vc_ik c) (vc_tel c) (vc_human c)
    (mkVrSwivel enabled apply_to_ik log_only (vs_neutral_gain s) (vs_continuity_gain s) (vs_wrist_orientation_gain s)
       (vs_max_swivel_rate_rad_s s))
    (vc_rate_limit c) (vc_debug c).
Definition with_debug (d : VrDebugConfig) (c : VrTeleopConfig) : VrTeleopConfig :=
  mkVrConfig (vc_mapping c) (vc_ik c) (vc_tel c) (vc_human c) (vc_swivel c) (vc_rate_limit c) d.

Definition set_ik_mode (s : string) (i : VrIKConfig) : VrIKConfig :=
  mkVrIK s (ik_max_iterations i) (ik_convergence_tol_m i) (ik_convergence_tol_rad i) (ik_damping i) (ik_max_dq_norm i)
    (ik_max_task_step_m i) (ik_max_task_step_rad i) (ik_position_weight i) (ik_orientation_weight i)
    (ik_nullspace_enabled i) (ik_nullspace_posture_gain i) (ik_max_consecutive_failures i) (ik_failure_hold i).
Definition set_ik_numbers (damp dq pw ow : double) (i : VrIKConfig) : VrIKConfig :=
  mkVrIK (ik_mode i) (ik_max_iterations i) (ik_convergence_tol_m i) (ik_convergence_tol_rad i) damp dq
    (ik_max_task_step_m i) (ik_max_task_step_rad i) pw ow
    (ik_nullspace_enabled i) (ik_nullspace_posture_gain i) (ik_max_consecutive_failures i) (ik_failure_hold i).
Definition set_rotation (invert : bool) (order : string) (m : VrMapping) : VrMapping :=
  mkVrMapping (position_scale_xyz m) (max_delta_m m) (deadband_m m) (max_delta_per_cycle_m m)
    (right_translation_matrix m) (left_translation_matrix m) (right_rotation_matrix m) (left_rotation_matrix m)
    invert order (gripper_min_limit m) (gripper_max_limit m).

Section overrides.
(** [std::stod]: the number at the start of the text, or an exception. *)
Context (stod : string -> outcome double).

(** The keys; an exception of [stod] is not caught. *)
Definition set_key (key value : string) (c : VrTeleopConfig) : outcome VrTeleopConfig :=
  let i := vc_ik c in let s := vc_swivel c in let m := vc_mapping c in let d := vc_debug c in
  if String.eqb key "ik.orientation_weight" then
    x ← stod value; Ok (with_ik (set_ik_numbers (ik_damping i) (ik_max_dq_norm i) (ik_position_weight i) x) c)
  else if String.eqb key "ik.position_weight" then
    x ← stod value; Ok (with_ik (set_ik_numbers (ik_damping i) (ik_max_dq_norm i) x (ik_orientation_weight i)) c)
  else if String.eqb key "ik.damping" then
    x ← stod value; Ok (with_ik (set_ik_numbers x (ik_max_dq_norm i) (ik_position_weight i) (ik_orientation_weight i)) c)
  else if String.eqb key "ik.max_dq_norm" then
    x ← stod value; Ok (with_ik (set_ik_numbers (ik_damping i) x (ik_position_weight i) (ik_orientation_weight i)) c)
  else if String.eqb key "ik.mode" then Ok (with_ik (set_ik_mode value) c)
  else if String.eqb key "human_model.enabled" then Ok (with_human_enabled (parse_bool value) c)
  else if String.eqb key "swivel_prior.enabled" then
    Ok (with_swivel_flags (parse_bool value) (vs_apply_to_ik s) (vs_log_only s) c)
  else if String.eqb key "swivel_prior.apply_to_ik" then
    Ok (with_swivel_flags (vs_enabled s) (parse_bool value) (vs_log_only s) c)
  else if String.eqb key "swivel_prior.log_only" then
    Ok (with_swivel_flags (vs_enabled s) (vs_apply_to_ik s) (parse_bool value) c)
  else if String.eqb key "vr_mapping.rotation_compose_order" then
    Ok (with_mapping (set_rotation (invert_rotation_delta m) value) c)
  else if String.eqb key "vr_mapping.invert_rotation_delta" then
    Ok (with_mapping (set_rotation (parse_bool value) (rotation_compose_order m)) c)
  else if String.eqb key "debug.ik_debug_rate_hz" then
    x ← stod value; Ok (with_debug (mkVrDebug (ik_debug d) x (ik_debug_burst_sec d)) c)
  else if String.eqb key "debug.ik_debug_burst_sec" then
    x ← stod value; Ok (with_debug (mkVrDebug (ik_debug d) (ik_debug_rate_hz d) x) c)
  else Ok c.

Definition apply_set (item : string) (c : VrTeleopConfig) : outcome VrTeleopConfig :=
  match split_eq item with
  | None => Ok c
  | Some (key, value) => set_key key value c
  end.

Fixpoint apply_sets (items : list string) (c : VrTeleopConfig) : outcome VrTeleopConfig :=
  match items with
  | [] => Ok c
  | item :: items' => c ← apply_set item c; apply_sets items' c
  end.
End overrides.

(** The last of [--pose-ik] and [--position-ik] wins, over file and overrides. *)
Definition apply_mode_flags (args : list string) (c : VrTeleopConfig) : VrTeleopConfig :=
  fold_left (fun c arg =>
    if String.eqb arg "--pose-ik" then with_ik (set_ik_mode "pose") c
    else if String.eqb arg "--position-ik" then with_ik (set_ik_mode "position") c
    else c) args c.
