(* ===== verification/VrConfigFacts.v ===== *)
(** * VrConfigFacts: the settings of the VR leader

    Every configuration file loads: no write leaves its array, no exception
    escapes, and the arrays and matrices keep the dimensions the loop indexes
    them with. A file that names a setting sets that setting, entry by entry,
    and no other. *)

From S2P Require Import Prelude Float64 Dynamics LeaderApp Yaml YamlFacts VrConfig.

Open Scope Z_scope.

(** ** The invariant *)

Definition matrix3 (m : Matrix) : Prop := length m = 3%nat /\ Forall (fun r => length r = 3%nat) m.

(** The dimensions of the C++ members. *)
Record config_shaped (c : VrTeleopConfig) : Prop := {
  cs_scale : length (position_scale_xyz (vc_mapping c)) = 3%nat;
  cs_right_translation : matrix3 (right_translation_matrix (vc_mapping c));
  cs_left_translation : matrix3 (left_translation_matrix (vc_mapping c));
  cs_right_rotation : matrix3 (right_rotation_matrix (vc_mapping c));
  cs_left_rotation : matrix3 (left_rotation_matrix (vc_mapping c));
  cs_max_step_r : length (max_step_rad_r (vc_rate_limit c)) = 8%nat;
  cs_max_step_l : length (max_step_rad_l (vc_rate_limit c)) = 8%nat;
}.

Lemma default_shaped : config_shaped vr_config_default.
Proof. constructor; try done; split; try done; by repeat constructor. Qed.

(** ** The dimensions, for every file *)

Section reading.
Context (Y : YamlLib).

Lemma assign_at_length st v i m : length (assign_at st v i m).2 = length v.
Proof.
  unfold assign_at. destruct (assign st d0 m) as [[[]| |] x]; simpl; try done.
  destruct (decide _); simpl; [apply length_set_nth|done].
Qed.

Lemma assign_at_defined st v i m : st <> Undef -> m <> Undef -> (i < length v)%nat -> (assign_at st v i m).1 <> Undef.
Proof.
  intros Hs Hm Hi. unfold assign_at. destruct (assign st d0 m) as [s x] eqn:E.
  pose proof (assign_defined _ _ _ _ _ E Hs Hm). destruct s as [[]| |]; try done. by rewrite decide_True.
Qed.

Lemma assign_list_length st v ix get : length (assign_list st v ix get).2 = length v.
Proof.
  unfold assign_list. revert st v. induction ix as [|i ix IH]; intros st v; simpl; [done|].
  pose proof (assign_at_length st v i (get i)). destruct (assign_at st v i (get i)) as [s w].
  cbn [snd] in *. by rewrite IH.
Qed.

Lemma assign_list_defined st v ix get :
  st <> Undef -> (forall i, get i <> Undef) -> Forall (fun i => i < length v)%nat ix ->
  (assign_list st v ix get).1 <> Undef.
Proof.
  intros Hs Hg Hix. revert st v Hs Hix. unfold assign_list.
  induction ix as [|i ix IH]; intros st v Hs Hix; simpl; [done|]. apply Forall_cons in Hix as [Hi Hix].
  pose proof (assign_at_defined st v i (get i) Hs (Hg i) Hi). pose proof (assign_at_length st v i (get i)) as Hl.
  destruct (assign_at st v i (get i)) as [s w]. cbn [snd] in Hl. apply IH; [done|]. by rewrite Hl.
Qed.

Lemma opt_list_length len st v n k : length (opt_list Y len st v n k).2 = length v.
Proof. unfold opt_list. destruct (assign _ _ _) as [st' [c|]]; [apply assign_list_length|done]. Qed.

Lemma Forall_set_nth {A} (P : A -> Prop) i x l : P x -> Forall P l -> Forall P (set_nth i x l).
Proof.
  intros Hx Hl. revert i. induction Hl as [|y l Hy Hl IH]; intros [|i]; simpl; constructor; auto.
Qed.

Lemma load_matrix_shaped st m n k : matrix3 m -> matrix3 (load_matrix Y st m n k).2.
Proof.
  intros Hm. unfold load_matrix. destruct (assign _ _ _) as [st' [c|]]; [|done].
  assert (Hall : Forall (fun i => i < 3)%nat (seq 0 3)) by (repeat constructor; lia).
  revert st' m Hm Hall. generalize (seq 0 3) at 1 3. intros l. induction l as [|i l IH]; intros st' m Hm Hall; simpl; [done|].
  apply Forall_cons in Hall as [Hi Hall].
  destruct (assign_list _ _ _ _) as [s r] eqn:E. apply IH; [|done]. destruct Hm as [Hl Hf]. split; [by rewrite length_set_nth|].
  apply Forall_set_nth; [|done].
  replace r with (s, r).2 by done. rewrite <- E, assign_list_length.
  destruct (lookup_lt_is_Some_2 m i) as [row Hr]; [lia|].
  rewrite (nth_lookup_Some m i [] row Hr). rewrite Forall_lookup in Hf. by eapply Hf.
Qed.

(** Names the results of a section's reads. *)
Ltac run_reads :=
  repeat match goal with
    | |- context [opt_key Y ?conv ?st ?old ?n ?k] =>
        destruct (opt_key Y conv st old n k) as [? ?]; cbv beta iota zeta
    | |- context [opt_list Y ?len ?st ?v ?n ?k] =>
        pose proof (opt_list_length len st v n k);
        destruct (opt_list Y len st v n k) as [? ?]; cbv beta iota zeta
    | |- context [load_matrix Y ?st ?m ?n ?k] =>
        pose proof (load_matrix_shaped st m n k);
        destruct (load_matrix Y st m n k) as [? ?]; cbv beta iota zeta
    end.

Lemma subsection_ind {A} (P : A -> Prop) (read : Status -> ynode Y -> A -> Status * A) st root k old :
  P old -> (forall st m, P (read st m old).2) -> P (subsection Y read st root k old).2.
Proof. intros Ho Hr. unfold subsection. destruct (assign _ _ _) as [st' [m|]]; [apply Hr|done]. Qed.

Definition mapping_shaped (m : VrMapping) : Prop :=
  length (position_scale_xyz m) = 3%nat /\ matrix3 (right_translation_matrix m) /\ matrix3 (left_translation_matrix m) /\
  matrix3 (right_rotation_matrix m) /\ matrix3 (left_rotation_matrix m).

Definition rate_shaped (r : VrRateLimit) : Prop :=
  length (max_step_rad_r r) = 8%nat /\ length (max_step_rad_l r) = 8%nat.

Lemma read_mapping_shaped st n m : mapping_shaped m -> mapping_shaped (read_mapping Y st n m).2.
Proof.
  intros (H1 & H2 & H3 & H4 & H5). unfold read_mapping, opt_double, opt_bool, opt_string. run_reads.
  cbn [snd] in *. split_and!; cbn; auto. congruence.
Qed.

Lemma read_max_step_shaped st n r : rate_shaped r -> rate_shaped (read_max_step Y st n r).2.
Proof.
  intros [H1 H2]. unfold read_max_step. run_reads. cbn [snd] in *. split; cbn; congruence.
Qed.

Lemma read_rate_limit_shaped st n r : rate_shaped r -> rate_shaped (read_rate_limit Y st n r).2.
Proof.
  intros Hr. unfold read_rate_limit, opt_bool. run_reads. apply subsection_ind; [exact Hr|].
  intros st' m. by apply read_max_step_shaped.
Qed.

Lemma read_config_shaped root c : config_shaped c -> config_shaped (read_config Y root c).2.
Proof.
  intros [C1 C2 C3 C4 C5 C6 C7]. unfold read_config.
  pose proof (subsection_ind mapping_shaped (read_mapping Y) (Ok tt) root "vr_mapping" (vc_mapping c)) as Hm.
  destruct (subsection Y (read_mapping Y) _ _ _ _) as [st m]. cbn [snd] in Hm.
  destruct (subsection Y (read_ik Y) _ _ _ _) as [st1 ik]. destruct (subsection Y (read_tel Y) _ _ _ _) as [st2 tel].
  destruct (subsection Y (read_human Y) _ _ _ _) as [st3 hu]. destruct (subsection Y (read_swivel Y) _ _ _ _) as [st4 sw].
  pose proof (subsection_ind rate_shaped (read_rate_limit Y) st4 root "rate_limit" (vc_rate_limit c)) as Hr.
  destruct (subsection Y (read_rate_limit Y) _ _ _ _) as [st5 r]. cbn [snd] in Hr.
  destruct (subsection Y (read_debug Y) _ _ _ _) as [st6 d]. cbn [snd].
  destruct Hm as (? & ? & ? & ? & ?); [by split_and!|intros; apply read_mapping_shaped; by split_and!|].
  destruct Hr as [? ?]; [by split|intros; apply read_rate_limit_shaped; by split|]. by constructor.
Qed.
End reading.

(** ** Defined reads *)

Section defined.
Context (Y : YamlLib) (HY : yaml_defined Y).

Lemma child_defined n k : child Y n k <> Undef.
Proof using HY. apply bind_defined; [auto with yaml|]. intros c _. by destruct (y_defined Y c). Qed.

Lemma opt_key_defined {A} (conv : ynode Y -> outcome A) st old n k :
  (forall c, conv c <> Undef) -> st <> Undef -> (opt_key Y conv st old n k).1 <> Undef.
Proof using HY.
  intros Hc Hs. unfold opt_key. destruct (assign st old _) as [s x] eqn:E.
  apply (assign_defined _ _ _ _ _ E Hs). apply bind_defined; [apply child_defined|]. by intros [c|] _.
Qed.

Lemma entry_defined c i : (e ← y_idx Y c i; as_double Y e) <> Undef.
Proof using HY. apply bind_defined; [auto with yaml|]. intros e _. auto with yaml. Qed.

Lemma opt_list_defined len st v n k : length v = len -> st <> Undef -> (opt_list Y len st v n k).1 <> Undef.
Proof using HY.
  intros <- Hs. unfold opt_list. destruct (assign st None _) as [s c] eqn:E.
  pose proof (assign_defined _ _ _ _ _ E Hs (child_defined n k)) as H. destruct c as [c|]; [|done].
  apply assign_list_defined; [done|intros i; apply entry_defined|]. apply Forall_seq. lia.
Qed.

Lemma load_matrix_defined st m n k : matrix3 m -> st <> Undef -> (load_matrix Y st m n k).1 <> Undef.
Proof using HY.
  intros Hm Hs. unfold load_matrix. destruct (assign st None _) as [s c] eqn:E.
  pose proof (assign_defined _ _ _ _ _ E Hs (child_defined n k)) as H. clear E Hs. destruct c as [c|]; [|done].
  assert (Hall : Forall (fun i => i < 3)%nat (seq 0 3)) by (repeat constructor; lia).
  revert s m Hm H Hall. generalize (seq 0 3) at 1 3. intros l. induction l as [|i l IH]; intros s m Hm H Hall; simpl; [done|].
  apply Forall_cons in Hall as [Hi Hall]. pose proof Hm as [Hl Hf].
  destruct (lookup_lt_is_Some_2 m i) as [row Hr]; [lia|].
  rewrite (nth_lookup_Some m i [] row Hr). rewrite Forall_lookup in Hf. pose proof (Hf i row Hr) as Hrow. simpl in Hrow.
  match goal with |- context [assign_list s row ?ix ?g] =>
    pose proof (assign_list_defined s row ix g) as Hd; pose proof (assign_list_length s row ix g) as Hn;
    destruct (assign_list s row ix g) as [s' r] end.
  cbn [fst snd] in *. apply IH; [|apply Hd|done].
  - split; [by rewrite length_set_nth|]. apply Forall_set_nth; [congruence|]. by rewrite Forall_lookup.
  - done.
  - intros j. apply bind_defined; [auto with yaml|]. intros x _. apply entry_defined.
  - rewrite Hrow. repeat constructor; lia.
Qed.

(** The section [read]s, with the dimensions [P] as their precondition. *)
Definition reads_defined {A} (P : A -> Prop) (read : Status -> ynode Y -> A -> Status * A) : Prop :=
  forall st n c, P c -> st <> Undef -> (read st n c).1 <> Undef.

(** Follows a section read by read. *)
Ltac defined_reads :=
  repeat match goal with
    | Hs : ?st <> Undef |- context [opt_key Y ?conv ?st ?old ?n ?k] =>
        let H := fresh "Hs" in
        assert (H : (opt_key Y conv st old n k).1 <> Undef) by (apply opt_key_defined; [auto with yaml|exact Hs]);
        destruct (opt_key Y conv st old n k) as [? ?]; cbv beta iota zeta; cbn [fst] in H
    | Hs : ?st <> Undef |- context [opt_list Y ?len ?st ?v ?n ?k] =>
        let H := fresh "Hs" in
        assert (H : (opt_list Y len st v n k).1 <> Undef) by (apply opt_list_defined; [done|exact Hs]);
        destruct (opt_list Y len st v n k) as [? ?]; cbv beta iota zeta; cbn [fst] in H
    | Hs : ?st <> Undef |- context [load_matrix Y ?st ?m ?n ?k] =>
        let H := fresh "Hs" in let H' := fresh "Hm" in
        assert (H : (load_matrix Y st m n k).1 <> Undef) by (apply load_matrix_defined; [done|exact Hs]);
        pose proof (load_matrix_shaped Y st m n k ltac:(done)) as H';
        destruct (load_matrix Y st m n k) as [? ?]; cbv beta iota zeta; cbn [fst snd] in H, H'
    end; try done.

Ltac section_defined :=
  intros st n c Hc Hs; unfold read_mapping, read_ik, read_tel, read_human, read_swivel, read_max_step, read_debug;
  unfold opt_double, opt_int, opt_bool, opt_string; defined_reads.

Lemma read_mapping_defined : reads_defined mapping_shaped (read_mapping Y).
Proof using HY. intros st n c (H1 & H2 & H3 & H4 & H5). revert st n c H1 H2 H3 H4 H5. intros st n c ? ? ? ? ? Hs.
  unfold read_mapping, opt_double, opt_bool, opt_string. defined_reads. Qed.
Lemma read_ik_defined : reads_defined (fun _ => True) (read_ik Y).
Proof using HY. section_defined. Qed.
Lemma read_tel_defined : reads_defined (fun _ => True) (read_tel Y).
Proof using HY. section_defined. Qed.
Lemma read_human_defined : reads_defined (fun _ => True) (read_human Y).
Proof using HY. section_defined. Qed.
Lemma read_swivel_defined : reads_defined (fun _ => True) (read_swivel Y).
Proof using HY. section_defined. Qed.
Lemma read_debug_defined : reads_defined (fun _ => True) (read_debug Y).
Proof using HY. section_defined. Qed.
Lemma read_max_step_defined : reads_defined rate_shaped (read_max_step Y).
Proof using HY. intros st n c [H1 H2] Hs. unfold read_max_step. defined_reads. Qed.

Lemma subsection_defined {A} (P : A -> Prop) read st root k (old : A) :
  reads_defined P read -> P old -> st <> Undef -> (subsection Y read st root k old).1 <> Undef.
Proof using HY.
  intros Hr Hp Hs. unfold subsection. destruct (assign st None _) as [s c] eqn:E.
  pose proof (assign_defined _ _ _ _ _ E Hs (child_defined root k)) as H. destruct c as [c|]; [|done]. by apply Hr.
Qed.

Lemma read_rate_limit_defined : reads_defined rate_shaped (read_rate_limit Y).
Proof using HY.
  intros st n c Hc Hs. unfold read_rate_limit, opt_bool. defined_reads.
  apply (subsection_defined rate_shaped); [exact read_max_step_defined|exact Hc|done].
Qed.

(** Goes on to the next section. *)
Ltac next_section H lem P := match goal with |- context [subsection Y ?read ?st ?r ?k ?old] =>
  let H' := fresh "H" in pose proof (subsection_defined P read st r k old lem ltac:(first [exact I|assumption]) H) as H';
  destruct (subsection Y read st r k old) as [? ?]; cbv beta iota zeta; cbn [fst] in H'; clear H; rename H' into H end.

Lemma read_config_defined root c : config_shaped c -> (read_config Y root c).1 <> Undef.
Proof using HY.
  intros [C1 C2 C3 C4 C5 C6 C7]. unfold read_config. assert (H0 : (Ok tt : Status) <> Undef) by done.
  assert (Hm : mapping_shaped (vc_mapping c)) by (by split_and!). assert (Hr : rate_shaped (vc_rate_limit c)) by (by split).
  next_section H0 read_mapping_defined mapping_shaped.
  next_section H0 read_ik_defined (fun _ : VrIKConfig => True).
  next_section H0 read_tel_defined (fun _ : VrTelemetryConfig => True).
  next_section H0 read_human_defined (fun _ : VrHumanModel => True).
  next_section H0 read_swivel_defined (fun _ : VrSwivelConfig => True).
  next_section H0 read_rate_limit_defined rate_shaped.
  next_section H0 read_debug_defined (fun _ : VrDebugConfig => True).
  done.
Qed.

(** Every file loads. *)
Lemma load_config_total path : exists c, load_config Y path = Ok c.
Proof using HY.
  unfold load_config. pose proof (yd_load Y HY path) as Hl. destruct (LoadFile Y path) as [root|e|]; [|eauto|done].
  pose proof (read_config_defined root vr_config_default default_shaped) as H.
  destruct (read_config Y root vr_config_default) as [[u|e|] c]; [eauto|eauto|done].
Qed.
End defined.

(** ** Overrides *)

Lemma set_key_shaped stod k v c c' : set_key stod k v c = Ok c' -> config_shaped c -> config_shaped c'.
Proof.
  intros H Hc. revert H. unfold set_key. cbv zeta.
  repeat (destruct (String.eqb k _);
    [try (intros (? & _ & [= <-])%bind_ok); try (intros [= <-]); by destruct Hc|]).
  by intros [= <-].
Qed.

Lemma apply_sets_shaped stod l c c' : apply_sets stod l c = Ok c' -> config_shaped c -> config_shaped c'.
Proof.
  revert c. induction l as [|item l IH]; intros c; simpl; [by intros [= <-]|].
  intros (c1 & H1 & H)%bind_ok Hc. apply (IH c1 H). revert H1. unfold apply_set.
  destruct (split_eq item) as [[k v]|]; [|by intros [= <-]]. intros H1. by eapply set_key_shaped.
Qed.

Lemma apply_mode_flags_shaped args c : config_shaped c -> config_shaped (apply_mode_flags args c).
Proof.
  revert c. induction args as [|x args IH]; intros c Hc; simpl; [done|]. apply IH.
  destruct (String.eqb x _); [by destruct Hc|]. destruct (String.eqb x _); by destruct Hc.
Qed.

Lemma load_config_shaped (Y : YamlLib) path c : load_config Y path = Ok c -> config_shaped c.
Proof.
  unfold load_config. destruct (LoadFile Y path) as [root|e|]; [|intros [= <-]; exact default_shaped|done].
  pose proof (read_config_shaped Y root vr_config_default default_shaped) as H.
  destruct (read_config Y root vr_config_default) as [[|e|] c0]; by intros [= <-].
Qed.

(** A file with a limit, then a boolean the library rejects, then a timeout: the
    limit stays, the rest keeps its default, although the log says that the
    defaults are used. *)
Definition broken_vr_config : YTree :=
  TMap [("vr_mapping", TMap [("max_delta_m", TNum (d_of_Z 5)); ("invert_rotation_delta", TText "maybe")]);
        ("telemetry", TMap [("stale_timeout_ms", TInt 5000)])].

Lemma broken_file_half_read :
  exists c, load_config (tree_yaml (Ok broken_vr_config)) "vr.yaml" = Ok c /\
    max_delta_m (vc_mapping c) = d_of_Z 5 /\ stale_timeout_ms (vc_tel c) = 100.
Proof. eexists. split; [vm_compute; reflexivity|]. split; vm_compute; reflexivity. Qed.

(** ** Files *)

(** The file of some settings: a map of sections, each a map of keys. Sections
    and keys may be missing; [keep] says which are there ([keep "root"] for the
    sections). The second names of four settings are read after the first. *)

Record Aliases := mkAliases {
  right_axis_matrix : Matrix;
  left_axis_matrix : Matrix;
  convergence_tol_pos_m : double;
  convergence_tol_ori_rad : double;
}.

Definition matrix_tree (m : Matrix) : YTree := TSeq (TNums <$> m).

Definition mapping_keys (a : Aliases) (m : VrMapping) : list (string * YTree) :=
  [("position_scale_xyz", TNums (position_scale_xyz m)); ("max_delta_m", TNum (max_delta_m m));
   ("deadband_m", TNum (deadband_m m)); ("max_delta_per_cycle_m", TNum (max_delta_per_cycle_m m));
   ("right_translation_matrix", matrix_tree (right_translation_matrix m));
   ("left_translation_matrix", matrix_tree (left_translation_matrix m));
   ("right_axis_matrix", matrix_tree (right_axis_matrix a)); ("left_axis_matrix", matrix_tree (left_axis_matrix a));
   ("right_rotation_matrix", matrix_tree (right_rotation_matrix m));
   ("left_rotation_matrix", matrix_tree (left_rotation_matrix m));
   ("invert_rotation_delta", TBool (invert_rotation_delta m)); ("rotation_compose_order", TText (rotation_compose_order m));
   ("gripper_min_limit", TNum (gripper_min_limit m)); ("gripper_max_limit", TNum (gripper_max_limit m))].

Definition ik_keys (a : Aliases) (i : VrIKConfig) : list (string * YTree) :=
  [("mode", TText (ik_mode i)); ("max_iterations", TInt (ik_max_iterations i));
   ("convergence_tol_m", TNum (ik_convergence_tol_m i)); ("convergence_tol_pos_m", TNum (convergence_tol_pos_m a));
   ("convergence_tol_rad", TNum (ik_convergence_tol_rad i)); ("convergence_tol_ori_rad", TNum (convergence_tol_ori_rad a));
   ("damping", TNum (ik_damping i)); ("max_dq_norm", TNum (ik_max_dq_norm i));
   ("max_task_step_m", TNum (ik_max_task_step_m i)); ("max_task_step_rad", TNum (ik_max_task_step_rad i));
   ("position_weight", TNum (ik_position_weight i)); ("orientation_weight", TNum (ik_orientation_weight i));
   ("nullspace_enabled", TBool (ik_nullspace_enabled i)); ("nullspace_posture_gain", TNum (ik_nullspace_posture_gain i));
   ("max_consecutive_failures", TInt (ik_max_consecutive_failures i)); ("failure_hold", TBool (ik_failure_hold i))].

Definition tel_keys (t : VrTelemetryConfig) : list (string * YTree) :=
  [("stale_timeout_ms", TInt (stale_timeout_ms t)); ("anchor_reset_timeout_ms", TInt (anchor_reset_timeout_ms t))].

Definition human_keys (h : VrHumanModel) : list (string * YTree) :=
  [("enabled", TBool (hm_enabled h)); ("shoulder_width_m", TNum (shoulder_width_m h));
   ("shoulder_down_offset_m", TNum (shoulder_down_offset_m h)); ("shoulder_back_offset_m", TNum (shoulder_back_offset_m h));
   ("upper_arm_length_m", TNum (upper_arm_length_m h)); ("forearm_length_m", TNum (forearm_length_m h));
   ("neutral_swivel_right_rad", TNum (neutral_swivel_right_rad h));
   ("neutral_swivel_left_rad", TNum (neutral_swivel_left_rad h))].

Definition swivel_keys (s : VrSwivelConfig) : list (string * YTree) :=
  [("enabled", TBool (vs_enabled s)); ("apply_to_ik", TBool (vs_apply_to_ik s)); ("log_only", TBool (vs_log_only s));
   ("neutral_gain", TNum (vs_neutral_gain s)); ("continuity_gain", TNum (vs_continuity_gain s));
   ("wrist_orientation_gain", TNum (vs_wrist_orientation_gain s)); ("max_swivel_rate_rad_s", TNum (vs_max_swivel_rate_rad_s s))].

Definition max_step_keys (r : VrRateLimit) : list (string * YTree) :=
  [("right_arm", TNums (max_step_rad_r r)); ("left_arm", TNums (max_step_rad_l r))].

Definition debug_keys (d : VrDebugConfig) : list (string * YTree) :=
  [("ik_debug", TBool (ik_debug d)); ("ik_debug_rate_hz", TNum (ik_debug_rate_hz d));
   ("ik_debug_burst_sec", TNum (ik_debug_burst_sec d))].

Definition section_tree (keep : string -> bool) (l : list (string * YTree)) : YTree :=
  TMap (List.filter (fun kv => keep kv.1) l).

Definition config_tree (keep : string -> string -> bool) (a : Aliases) (c : VrTeleopConfig) : YTree :=
  section_tree (keep "root")
    [("vr_mapping", section_tree (keep "vr_mapping") (mapping_keys a (vc_mapping c)));
     ("ik", section_tree (keep "ik") (ik_keys a (vc_ik c)));
     ("telemetry", section_tree (keep "telemetry") (tel_keys (vc_tel c)));
     ("human_model", section_tree (keep "human_model") (human_keys (vc_human c)));
     ("swivel_prior", section_tree (keep "swivel_prior") (swivel_keys (vc_swivel c)));
     ("rate_limit", section_tree (keep "rate_limit")
        [("enabled", TBool (rl_enabled (vc_rate_limit c)));
         ("max_step_rad", section_tree (keep "max_step_rad") (max_step_keys (vc_rate_limit c)))]);
     ("debug", section_tree (keep "debug") (debug_keys (vc_debug c)))].

(** The settings [old] after a file with the settings [new]. *)
Definition merge_mapping (keep : string -> bool) (a : Aliases) (new old : VrMapping) : VrMapping :=
  let pick {A} k (f : VrMapping -> A) := if keep k then f new else f old in
  mkVrMapping (pick "position_scale_xyz" position_scale_xyz) (pick "max_delta_m" max_delta_m)
    (pick "deadband_m" deadband_m) (pick "max_delta_per_cycle_m" max_delta_per_cycle_m)
    (if keep "right_axis_matrix" then right_axis_matrix a else pick "right_translation_matrix" right_translation_matrix)
    (if keep "left_axis_matrix" then left_axis_matrix a else pick "left_translation_matrix" left_translation_matrix)
    (pick "right_rotation_matrix" right_rotation_matrix) (pick "left_rotation_matrix" left_rotation_matrix)
    (pick "invert_rotation_delta" invert_rotation_delta) (pick "rotation_compose_order" rotation_compose_order)
    (pick "gripper_min_limit" gripper_min_limit) (pick "gripper_max_limit" gripper_max_limit).

Definition merge_ik (keep : string -> bool) (a : Aliases) (new old : VrIKConfig) : VrIKConfig :=
  let pick {A} k (f : VrIKConfig -> A) := if keep k then f new else f old in
  mkVrIK (pick "mode" ik_mode) (pick "max_iterations" ik_max_iterations)
    (if keep "convergence_tol_pos_m" then convergence_tol_pos_m a else pick "convergence_tol_m" ik_convergence_tol_m)
    (if keep "convergence_tol_ori_rad" then convergence_tol_ori_rad a
     else pick "convergence_tol_rad" ik_convergence_tol_rad)
    (pick "damping" ik_damping) (pick "max_dq_norm" ik_max_dq_norm) (pick "max_task_step_m" ik_max_task_step_m)
    (pick "max_task_step_rad" ik_max_task_step_rad) (pick "position_weight" ik_position_weight)
    (pick "orientation_weight" ik_orientation_weight) (pick "nullspace_enabled" ik_nullspace_enabled)
    (pick "nullspace_posture_gain" ik_nullspace_posture_gain)
    (pick "max_consecutive_failures" ik_max_consecutive_failures) (pick "failure_hold" ik_failure_hold).

Definition merge_tel (keep : string -> bool) (new old : VrTelemetryConfig) : VrTelemetryConfig :=
  let pick {A} k (f : VrTelemetryConfig -> A) := if keep k then f new else f old in
  mkVrTelemetry (pick "stale_timeout_ms" stale_timeout_ms) (pick "anchor_reset_timeout_ms" anchor_reset_timeout_ms).

Definition merge_human (keep : string -> bool) (new old : VrHumanModel) : VrHumanModel :=
  let pick {A} k (f : VrHumanModel -> A) := if keep k then f new else f old in
  mkVrHuman (pick "enabled" hm_enabled) (pick "shoulder_width_m" shoulder_width_m)
    (pick "shoulder_down_offset_m" shoulder_down_offset_m) (pick "shoulder_back_offset_m" shoulder_back_offset_m)
    (pick "upper_arm_length_m" upper_arm_length_m) (pick "forearm_length_m" forearm_length_m)
    (pick "neutral_swivel_right_rad" neutral_swivel_right_rad) (pick "neutral_swivel_left_rad" neutral_swivel_left_rad).

Definition merge_swivel (keep : string -> bool) (new old : VrSwivelConfig) : VrSwivelConfig :=
  let pick {A} k (f : VrSwivelConfig -> A) := if keep k then f new else f old in
  mkVrSwivel (pick "enabled" vs_enabled) (pick "apply_to_ik" vs_apply_to_ik) (pick "log_only" vs_log_only)
    (pick "neutral_gain" vs_neutral_gain) (pick "continuity_gain" vs_continuity_gain)
    (pick "wrist_orientation_gain" vs_wrist_orientation_gain) (pick "max_swivel_rate_rad_s" vs_max_swivel_rate_rad_s).

Definition merge_rate_limit (keep keep_steps : string -> bool) (new old : VrRateLimit) : VrRateLimit :=
  let pick {A} k (f : VrRateLimit -> A) := if keep "max_step_rad" && keep_steps k then f new else f old in
  mkVrRate (if keep "enabled" then rl_enabled new else rl_enabled old) (pick "right_arm" max_step_rad_r)
    (pick "left_arm" max_step_rad_l).

Definition merge_debug (keep : string -> bool) (new old : VrDebugConfig) : VrDebugConfig :=
  let pick {A} k (f : VrDebugConfig -> A) := if keep k then f new else f old in
  mkVrDebug (pick "ik_debug" ik_debug) (pick "ik_debug_rate_hz" ik_debug_rate_hz)
    (pick "ik_debug_burst_sec" ik_debug_burst_sec).

Definition merge_config (keep : string -> string -> bool) (a : Aliases) (new old : VrTeleopConfig) : VrTeleopConfig :=
  let part {A} s (merge : (string -> bool) -> A -> A -> A) (f : VrTeleopConfig -> A) :=
    if keep "root" s then merge (keep s) (f new) (f old) else f old in
  mkVrConfig (part "vr_mapping" (fun k => merge_mapping k a) vc_mapping) (part "ik" (fun k => merge_ik k a) vc_ik)
    (part "telemetry" merge_tel vc_tel) (part "human_model" merge_human vc_human)
    (part "swivel_prior" merge_swivel vc_swivel)
    (part "rate_limit" (fun k => merge_rate_limit k (keep "max_step_rad")) vc_rate_limit)
    (part "debug" merge_debug vc_debug).

Lemma find_kept keep l k :
  tree_find (List.filter (fun kv => keep kv.1) l) k = if keep k : bool then tree_find l k else TNone.
Proof.
  induction l as [|[k' t] l IH]; simpl; [by destruct (keep k)|].
  destruct (String.eqb_spec k' k) as [->|Hne]; destruct (keep k) eqn:E; simpl.
  - by rewrite String.eqb_refl.
  - by rewrite IH.
  - destruct (keep k'); simpl; [|done]. by rewrite (proj2 (String.eqb_neq k' k) Hne).
  - destruct (keep k'); simpl; [|done]. by rewrite (proj2 (String.eqb_neq k' k) Hne).
Qed.

(** ** Reading them *)

Section reading.
Context (Y : YamlLib).

(** What a node shows is what its conversions return. *)
Definition converts {A} (conv : ynode Y -> outcome A) (t : YTree) (x : A) : Prop :=
  forall c, shows Y c t -> y_defined Y c = true /\ conv c = Ok x.

Lemma converts_bool b : converts (as_bool Y) (TBool b) b.
Proof. intros c H. by inversion H. Qed.
Lemma converts_int z : converts (as_int Y) (TInt z) z.
Proof. intros c H. by inversion H. Qed.
Lemma converts_num x : converts (as_double Y) (TNum x) x.
Proof. intros c H. by inversion H. Qed.
Lemma converts_text t : converts (as_string Y) (TText t) t.
Proof. intros c H. by inversion H. Qed.

Lemma section_child n keep l k :
  shows Y n (section_tree keep l) -> exists c, y_get Y n k = Ok c /\ shows Y c (if keep k then tree_find l k else TNone).
Proof.
  intros H. inversion H as [| | | | | | |? ? e Hd Hg Hs]; subst. exists (e k). split; [done|].
  specialize (Hs k). by rewrite find_kept in Hs.
Qed.

(** A key's child, when the key is in the file. *)
Lemma child_shown n keep l k :
  shows Y n (section_tree keep l) -> (forall c, shows Y c (tree_find l k) -> y_defined Y c = true) ->
  if keep k then exists c, child Y n k = Ok (Some c) /\ shows Y c (tree_find l k) else child Y n k = Ok None.
Proof.
  intros H Hd. apply (section_child _ _ _ k) in H as (c & Hc & H). unfold child. rewrite Hc. cbn.
  destruct (keep k).
  - exists c. by rewrite (Hd c H).
  - inversion H as [? E| | | | | | |]. by rewrite E.
Qed.

Lemma opt_key_shown {A} (conv : ynode Y -> outcome A) n keep l k t (x old : A) :
  shows Y n (section_tree keep l) -> tree_find l k = t -> converts conv t x ->
  opt_key Y conv (Ok tt) old n k = (Ok tt, if keep k then x else old).
Proof.
  intros H <- Hx. pose proof (child_shown _ _ _ k H (fun c Hc => proj1 (Hx c Hc))) as Hc. unfold opt_key.
  destruct (keep k); [|by rewrite Hc]. destruct Hc as (c & -> & Hs%Hx). cbn. by rewrite (proj2 Hs).
Qed.

(** Writing a list entry by entry. *)
Lemma set_nth_middle {A} (a b : list A) x y : set_nth (length a) x (a ++ y :: b) = a ++ x :: b.
Proof. induction a as [|z a IH]; simpl; [done|by rewrite IH]. Qed.

Lemma assign_list_suffix a w v get :
  length w = length v -> (forall j x, v !! j = Some x -> get (length a + j)%nat = Ok x) ->
  assign_list (Ok tt) (a ++ w) (seq (length a) (length v)) get = (Ok tt, a ++ v).
Proof.
  revert a w. induction v as [|x v IH]; intros a [|y w] Hl Hg; try done. injection Hl as Hl.
  assert (Hw : assign_at (Ok tt) (a ++ y :: w) (length a) (get (length a)) = (Ok tt, a ++ x :: w)).
  { specialize (Hg 0%nat x eq_refl). rewrite Nat.add_0_r in Hg. unfold assign_at. rewrite Hg. cbn [assign].
    rewrite decide_True by (rewrite length_app; simpl; lia). by rewrite set_nth_middle. }
  unfold assign_list. simpl. rewrite Hw. specialize (IH (a ++ [x]) w Hl).
  rewrite length_app, Nat.add_1_r, <- !app_assoc in IH. apply IH.
  intros j z Hj. replace (S (length a) + j)%nat with (length a + S j)%nat by lia. by apply Hg.
Qed.

Lemma assign_list_all v w get :
  length w = length v -> (forall j x, v !! j = Some x -> get j = Ok x) ->
  assign_list (Ok tt) w (seq 0 (length v)) get = (Ok tt, v).
Proof. apply (assign_list_suffix []). Qed.

Lemma opt_list_shown n keep l k len v old :
  shows Y n (section_tree keep l) -> tree_find l k = TNums v -> length v = len -> length old = len ->
  opt_list Y len (Ok tt) old n k = (Ok tt, if keep k then v else old).
Proof.
  intros H Hf <- Ho. pose proof (child_shown _ _ _ k H) as Hc. rewrite Hf in Hc. unfold opt_list.
  assert (Hd : forall c, shows Y c (TNums v) -> y_defined Y c = true) by (by inversion 1).
  specialize (Hc Hd). destruct (keep k); [|by rewrite Hc]. destruct Hc as (c & -> & Hs). cbn [assign].
  inversion Hs as [| | | | |? ? e _ Hi Hx| |]; subst. apply assign_list_all; [done|].
  intros j x Hj. rewrite (Hi j x Hj). cbn. by apply Hx.
Qed.

(** Writing a matrix row by row. *)
Lemma load_rows_suffix (get : nat -> nat -> outcome double) a w m :
  length w = length m -> Forall (fun r => length r = 3%nat) m -> Forall (fun r => length r = 3%nat) w ->
  (forall i j r x, m !! i = Some r -> r !! j = Some x -> get (length a + i)%nat j = Ok x) ->
  fold_left (fun '(st, mat) i =>
    let '(st, row) := assign_list st (nth i mat []) (seq 0 3) (get i) in (st, set_nth i row mat))
    (seq (length a) (length m)) ((Ok tt : Status), a ++ w) = (Ok tt, a ++ m).
Proof.
  revert a w. induction m as [|r m IH]; intros a [|q w] Hl Hm Hw Hg; try done. injection Hl as Hl.
  apply Forall_cons in Hm as [Hr Hm], Hw as [Hq Hw]. cbn [length].
  rewrite <- (cons_seq (length m)). cbn [fold_left].
  rewrite app_nth2, Nat.sub_diag by lia. cbn [nth]. rewrite <- Hr at 1. rewrite (assign_list_all r q); [|by rewrite Hq, Hr|].
  - rewrite set_nth_middle. specialize (IH (a ++ [r]) w Hl Hm Hw).
    rewrite length_app, Nat.add_1_r, <- !app_assoc in IH. apply IH.
    intros i j s x Hi. replace (S (length a) + i)%nat with (length a + S i)%nat by lia. by apply Hg.
  - intros j x. rewrite <- (Nat.add_0_r (length a)). by apply (Hg 0%nat j r x).
Qed.

Lemma load_matrix_shown n keep l k m old :
  shows Y n (section_tree keep l) -> tree_find l k = matrix_tree m -> matrix3 m -> matrix3 old ->
  load_matrix Y (Ok tt) old n k = (Ok tt, if keep k then m else old).
Proof.
  intros H Hf [Hl Hm] [Ho Hr]. pose proof (child_shown _ _ _ k H) as Hc. rewrite Hf in Hc. unfold load_matrix.
  assert (Hd : forall c, shows Y c (matrix_tree m) -> y_defined Y c = true) by (by inversion 1).
  specialize (Hc Hd). destruct (keep k); [|by rewrite Hc]. destruct Hc as (c & -> & Hs). cbn [assign].
  inversion Hs as [| | | | | |? ? e _ Hi Hx|]; subst. rewrite <- Hl at 1.
  apply (load_rows_suffix (fun i j => r ← y_idx Y c i; e ← y_idx Y r j; as_double Y e) [] old m); [congruence|done|done|].
  intros i j r x Hri Hrx. cbn [length Nat.add].
  assert (Hrow : (TNums <$> m) !! i = Some (TNums r)) by (by rewrite list_lookup_fmap, Hri).
  rewrite (Hi i _ Hrow). cbn. specialize (Hx i _ Hrow). inversion Hx as [| | | | |? ? e' _ Hi' Hx'| |]; subst.
  rewrite (Hi' j x Hrx). cbn. by apply Hx'.
Qed.

(** A section of the file. *)
Lemma subsection_shown {A} (read : Status -> ynode Y -> A -> Status * A) n keep l k keep' sub (new old : A) :
  shows Y n (section_tree keep l) -> tree_find l k = section_tree keep' sub ->
  (forall c, shows Y c (section_tree keep' sub) -> read (Ok tt) c old = (Ok tt, new)) ->
  subsection Y read (Ok tt) n k old = (Ok tt, if keep k then new else old).
Proof.
  intros H Hf Hr. pose proof (child_shown _ _ _ k H) as Hc. rewrite Hf in Hc. unfold subsection.
  assert (Hd : forall c, shows Y c (section_tree keep' sub) -> y_defined Y c = true) by (by inversion 1).
  specialize (Hc Hd). destruct (keep k); [|by rewrite Hc]. destruct Hc as (c & -> & Hs). cbn [assign]. by apply Hr.
Qed.

(** Follows a section read by read. *)
Ltac shown_reads :=
  repeat match goal with
    | Hn : shows Y ?n _ |- context [opt_key Y (as_double Y) (Ok tt) ?old ?n ?k] =>
        rewrite (opt_key_shown (as_double Y) n _ _ k _ _ old Hn eq_refl (converts_num _)); cbv beta iota zeta
    | Hn : shows Y ?n _ |- context [opt_key Y (as_int Y) (Ok tt) ?old ?n ?k] =>
        rewrite (opt_key_shown (as_int Y) n _ _ k _ _ old Hn eq_refl (converts_int _)); cbv beta iota zeta
    | Hn : shows Y ?n _ |- context [opt_key Y (as_bool Y) (Ok tt) ?old ?n ?k] =>
        rewrite (opt_key_shown (as_bool Y) n _ _ k _ _ old Hn eq_refl (converts_bool _)); cbv beta iota zeta
    | Hn : shows Y ?n _ |- context [opt_key Y (as_string Y) (Ok tt) ?old ?n ?k] =>
        rewrite (opt_key_shown (as_string Y) n _ _ k _ _ old Hn eq_refl (converts_text _)); cbv beta iota zeta
    | Hn : shows Y ?n _ |- context [opt_list Y ?len (Ok tt) ?old ?n ?k] =>
        rewrite (opt_list_shown n _ _ k len _ old Hn eq_refl) by assumption; cbv beta iota zeta
    | Hn : shows Y ?n _ |- context [load_matrix Y (Ok tt) ?old ?n ?k] =>
        rewrite (load_matrix_shown n _ _ k _ old Hn eq_refl)
          by first [assumption|destruct (_ : bool); assumption]; cbv beta iota zeta
    end.

Ltac read_shown :=
  unfold read_mapping, read_ik, read_tel, read_human, read_swivel, read_max_step, read_debug, opt_double, opt_int,
    opt_bool, opt_string; shown_reads; reflexivity.

Lemma read_mapping_shown keep a n new old :
  shows Y n (section_tree keep (mapping_keys a new)) -> matrix3 (right_axis_matrix a) -> matrix3 (left_axis_matrix a) ->
  mapping_shaped new -> mapping_shaped old ->
  read_mapping Y (Ok tt) n old = (Ok tt, merge_mapping keep a new old).
Proof. intros Hn Hr Hl (? & ? & ? & ? & ?) (? & ? & ? & ? & ?). read_shown. Qed.

Lemma read_ik_shown keep a n new old :
  shows Y n (section_tree keep (ik_keys a new)) -> read_ik Y (Ok tt) n old = (Ok tt, merge_ik keep a new old).
Proof. intros Hn. read_shown. Qed.

Lemma read_tel_shown keep n new old :
  shows Y n (section_tree keep (tel_keys new)) -> read_tel Y (Ok tt) n old = (Ok tt, merge_tel keep new old).
Proof. intros Hn. read_shown. Qed.

Lemma read_human_shown keep n new old :
  shows Y n (section_tree keep (human_keys new)) -> read_human Y (Ok tt) n old = (Ok tt, merge_human keep new old).
Proof. intros Hn. read_shown. Qed.

Lemma read_swivel_shown keep n new old :
  shows Y n (section_tree keep (swivel_keys new)) -> read_swivel Y (Ok tt) n old = (Ok tt, merge_swivel keep new old).
Proof. intros Hn. read_shown. Qed.

Lemma read_debug_shown keep n new old :
  shows Y n (section_tree keep (debug_keys new)) -> read_debug Y (Ok tt) n old = (Ok tt, merge_debug keep new old).
Proof. intros Hn. read_shown. Qed.

Lemma read_max_step_shown keep n new old :
  shows Y n (section_tree keep (max_step_keys new)) -> rate_shaped new -> rate_shaped old ->
  read_max_step Y (Ok tt) n old =
    (Ok tt, mkVrRate (rl_enabled old) (if keep "right_arm" then max_step_rad_r new else max_step_rad_r old)
              (if keep "left_arm" then max_step_rad_l new else max_step_rad_l old)).
Proof. intros Hn [? ?] [? ?]. read_shown. Qed.

Lemma read_rate_limit_shown keep steps n new old :
  shows Y n (section_tree keep
    [("enabled", TBool (rl_enabled new)); ("max_step_rad", section_tree steps (max_step_keys new))]) ->
  rate_shaped new -> rate_shaped old ->
  read_rate_limit Y (Ok tt) n old = (Ok tt, merge_rate_limit keep steps new old).
Proof.
  intros Hn Hs Ho. unfold read_rate_limit, opt_bool. shown_reads.
  match goal with |- context [subsection Y _ _ n _ ?mid] => assert (Hm : rate_shaped mid) by exact Ho end.
  rewrite (subsection_shown _ _ _ _ "max_step_rad" _ _ _ _ Hn eq_refl (fun c Hc => read_max_step_shown _ _ _ _ Hc Hs Hm)).
  unfold merge_rate_limit. by destruct (keep "max_step_rad").
Qed.
(** *** The whole file *)

Lemma read_config_shown keep a root new old :
  shows Y root (config_tree keep a new) -> matrix3 (right_axis_matrix a) -> matrix3 (left_axis_matrix a) ->
  config_shaped new -> config_shaped old ->
  read_config Y root old = (Ok tt, merge_config keep a new old).
Proof.
  intros Hn Hr Hl [N1 N2 N3 N4 N5 N6 N7] [O1 O2 O3 O4 O5 O6 O7]. unfold read_config.
  assert (mapping_shaped (vc_mapping new)) by (by split_and!). assert (mapping_shaped (vc_mapping old)) by (by split_and!).
  assert (rate_shaped (vc_rate_limit new)) by (by split). assert (rate_shaped (vc_rate_limit old)) by (by split).
  rewrite (subsection_shown _ _ _ _ "vr_mapping" _ _ _ _ Hn eq_refl
    (fun c Hc => read_mapping_shown _ _ _ _ _ Hc Hr Hl ltac:(done) ltac:(done))).
  rewrite (subsection_shown _ _ _ _ "ik" _ _ _ _ Hn eq_refl (fun c Hc => read_ik_shown _ _ _ _ _ Hc)).
  rewrite (subsection_shown _ _ _ _ "telemetry" _ _ _ _ Hn eq_refl (fun c Hc => read_tel_shown _ _ _ _ Hc)).
  rewrite (subsection_shown _ _ _ _ "human_model" _ _ _ _ Hn eq_refl (fun c Hc => read_human_shown _ _ _ _ Hc)).
  rewrite (subsection_shown _ _ _ _ "swivel_prior" _ _ _ _ Hn eq_refl (fun c Hc => read_swivel_shown _ _ _ _ Hc)).
  rewrite (subsection_shown _ _ _ _ "rate_limit" _ _ _ _ Hn eq_refl
    (fun c Hc => read_rate_limit_shown _ _ _ _ _ Hc ltac:(done) ltac:(done))).
  rewrite (subsection_shown _ _ _ _ "debug" _ _ _ _ Hn eq_refl (fun c Hc => read_debug_shown _ _ _ _ Hc)).
  reflexivity.
Qed.
End reading.

(** ** Properties *)

(** C39: A configuration file of the VR leader sets what it names and nothing
    else. With a YAML library whose calls return or throw, loading returns for
    every file (no write leaves an array, no exception escapes) settings whose
    arrays and matrices have the dimensions the loop uses. A file with any of
    the sections and keys of some settings [c] sets exactly those: every entry
    of every list and matrix at its own place, the right hand's in the right
    hand's member; an alias ([right_axis_matrix], [left_axis_matrix],
    [convergence_tol_pos_m], [convergence_tol_ori_rad]) wins over the name it
    stands for, and a missing key or section leaves the default. *)
Theorem vr_config_file (Y : YamlLib) (path : string) (HY : yaml_defined Y) :
  (exists c, load_config Y path = Ok c /\ config_shaped c) /\
    forall keep a c root,
    config_shaped c -> matrix3 (right_axis_matrix a) -> matrix3 (left_axis_matrix a) ->
    LoadFile Y path = Ok root -> shows Y root (config_tree keep a c) ->
    load_config Y path = Ok (merge_config keep a c vr_config_default).
Proof.
  split.
  - destruct (load_config_total Y HY path) as [c Hc]. exists c. split; [done|]. by eapply load_config_shaped.
  - intros keep a c root Hc Hr Hl Hf Hs. unfold load_config. rewrite Hf.
    by rewrite (read_config_shown Y keep a root c _ Hs Hr Hl Hc default_shaped).
Qed.

(** A file with a right and a left matrix, one of them by its alias, and a step
    limit; everything else stays as it was. *)
Definition swap_xy : Matrix := [[d0; d1; d0]; [d1; d0; d0]; [d0; d0; d1]].
Definition flip_z : Matrix := [[d1; d0; d0]; [d0; d1; d0]; [d0; d0; dlit (-1) 0]].

Definition file_settings : VrTeleopConfig :=
  with_mapping (fun m => mkVrMapping (position_scale_xyz m) (d_of_Z 5) (deadband_m m) (max_delta_per_cycle_m m)
    swap_xy flip_z (right_rotation_matrix m) (left_rotation_matrix m) true "delta_then_anchor" d0 d1) vr_config_default.

Definition file_aliases : Aliases := mkAliases swap_xy flip_z (dlit 1 2) (dlit 1 2).

Definition file_keys (section key : string) : bool :=
  match section with
  | "root" => String.eqb key "vr_mapping"
  | _ => existsb (String.eqb key) ["right_translation_matrix"; "left_axis_matrix"; "rotation_compose_order"]
  end.

Definition file_yaml : YamlLib := tree_yaml (Ok (config_tree file_keys file_aliases file_settings)).

Lemma vr_config_file_witness :
  exists c, load_config file_yaml "vr.yaml" = Ok c /\
    right_translation_matrix (vc_mapping c) = swap_xy /\ left_translation_matrix (vc_mapping c) = flip_z /\
    rotation_compose_order (vc_mapping c) = "delta_then_anchor" /\ invert_rotation_delta (vc_mapping c) = false /\
    vc_ik c = vc_ik vr_config_default.
Proof.
  exists (merge_config file_keys file_aliases file_settings vr_config_default). split.
  - destruct (vr_config_file file_yaml "vr.yaml") as [_ H]; [by apply tree_yaml_defined|].
    apply (H file_keys file_aliases file_settings (config_tree file_keys file_aliases file_settings)).
    + constructor; try done; split; try done; by repeat constructor.
    + split; [done|by repeat constructor].
    + split; [done|by repeat constructor].
    + reflexivity.
    + apply tree_shows.
  - split_and!; reflexivity.
Defined.
