(* ===== verification/VrLeader.v ===== *)
(** * VrLeader: the VR leader program

    [src/src/apps/wifi_vr_bimanual_leader.cpp]: the callbacks of the VR and the
    telemetry socket, one iteration of the control loop and the start-up. A
    callback and the loop body are each one step ([VrThreads] takes them apart into
    their shared accesses). Quaternions are
    [[x; y; z; w]]; the geometry of Eigen is a parameter, like the robot model.
    Not modelled: the console and CSV output, which changes no state the loop
    reads (the shoulder position computed from the headset is never used). *)

From S2P Require Import Prelude Float64 Crc32 Wire Packets PacketCodec Dynamics Swivel Ik VrConfig.

Open Scope Z_scope.

(** ** The library *)

(** What the code uses of Eigen's geometry: coefficient-wise products,
    quaternions from and to rotation matrices, conjugate and product. *)
Record EigenGeometry := mkGeometry {
  v_cwise : list double -> list double -> list double;
  q_to_matrix : list double -> Matrix;
  q_of_matrix : Matrix -> list double;
  q_conjugate : list double -> list double;
  q_mul : list double -> list double -> list double;
}.

(** ** State *)

Record VrArmState := mkVrArmState {
  vs_delta_pos_hmd : list double;
  vs_delta_rot_hmd : list double;
  vs_delta_pos_robot : list double;
  vs_delta_rot_robot : list double;
  vs_grip : double;
  vs_trigger : double;
  vs_buttons : Z;
  vs_thumbstick : list double;
  vs_abs_pos_world : list double;
  vs_abs_rot_world : list double;
}.

Record VrState := mkVrState {
  vs_seq : Z;
  vs_enable : bool;
  vs_estop : bool;
  vs_recenter : bool;
  vs_left : VrArmState;
  vs_right : VrArmState;
  vs_hmd_pos : list double;
  vs_hmd_quat : list double;
  vs_version : Z;
}.

Definition zero3 : list double := [d0; d0; d0].
Definition unit_quat : list double := [d0; d0; d0; d1].

Definition vr_arm_default : VrArmState :=
  mkVrArmState zero3 unit_quat zero3 unit_quat d0 d0 0 [d0; d0] zero3 unit_quat.

Definition vr_state_default : VrState :=
  mkVrState 0 false false false vr_arm_default vr_arm_default zero3 unit_quat 0.

(** The pose at which the operator took hold. *)
Record ArmAnchor := mkAnchor {
  anchor_active : bool;
  robot_ee_pos_anchor : list double;
  robot_ee_quat_anchor : list double;
  robot_q_anchor : list double;
}.

Definition anchor_default : ArmAnchor := mkAnchor false zero3 unit_quat (replicate 7 d0).

(** What the loop keeps per arm: targets, anchor, solver, swivel estimate and
    the burst timer of the debug output. *)
Record VrSide := mkVrSide {
  target_q : list double;
  target_grip : double;
  vr_anchor : ArmAnchor;
  vr_ik : OpenArmPinocchioIK;
  vr_swivel : TemporalSwivelEstimator;
  burst_timer : double;
}.

Record VrApp := mkVrApp {
  va_vr_state : VrState;
  va_vr_connected : bool;
  va_last_vr_time : Z;
  va_fb_r : list double;
  va_fb_l : list double;
  va_last_tel_time : Z;
  va_tel_connected : bool;
  va_right : VrSide;
  va_left : VrSide;
  va_seq : Z;
  va_keep_running : bool;
}.

(** What is fixed once the loop runs. *)
Record VrEnv := mkVrEnv {
  ve_cfg : VrTeleopConfig;
  ve_rate_hz : double;
  ve_dry_run : bool;
  ve_max_test_sec : double;
  ve_start : Z;
  ve_pin_r : Pinocchio;
  ve_pin_l : Pinocchio;
}.

Section vr.
Context (env : VrEnv) (la : EigenOps) (ve : EigenVec) (ge : EigenGeometry) (pow : double -> double -> double).
#[local] Abbreviation cfg := (ve_cfg env).

(** ** The VR socket *)

Definition floats (ws : list Z) : list double := map double_of_float_bits ws.

(** [fill_arm_v2] and the buttons. *)
Definition fill_arm (a : VrArm) (trans_mat rot_mat : Matrix) : VrArmState :=
  let m := vc_mapping cfg in
  let delta_pos := floats (va_delta_pos_hmd a) in
  let delta_rot := floats (va_delta_rot_hmd a) in
  let rot := q_of_matrix ge (m_mul la (m_mul la rot_mat (q_to_matrix ge delta_rot)) (m_transpose la rot_mat)) in
  mkVrArmState delta_pos delta_rot
    (m_vec ve trans_mat (v_cwise ge (position_scale_xyz m) delta_pos))
    (if invert_rotation_delta m then q_conjugate ge rot else rot)
    (double_of_float_bits (va_grip a)) (double_of_float_bits (va_trigger a)) (va_buttons a)
    (floats (va_thumbstick a)) (floats (va_abs_pos_world a)) (floats (va_abs_rot_world a)).

Definition vr_state_of_packet (p : VrRelativeTeleopPacketV2) : VrState :=
  let m := vc_mapping cfg in
  let pressed a := (double_of_float_bits (va_grip a) >? dlit 1 1)%D in
  mkVrState (vr_seq p) (pressed (vr_left p) || pressed (vr_right p)) false false
    (fill_arm (vr_left p) (left_translation_matrix m) (left_rotation_matrix m))
    (fill_arm (vr_right p) (right_translation_matrix m) (right_rotation_matrix m))
    (floats (vr_hmd_abs_pos_world p)) (floats (vr_hmd_abs_quat_world p)) 2.

Definition with_vr_state (s : VrState) (now : Z) (a : VrApp) : VrApp :=
  mkVrApp s true now (va_fb_r a) (va_fb_l a) (va_last_tel_time a) (va_tel_connected a) (va_right a) (va_left a)
    (va_seq a) (va_keep_running a).

(** The callback of [vr_receiver]: the new state and what goes to the viewer. *)
Definition vr_callback (now : Z) (data : list Z) (a : VrApp) : VrApp * option (list Z) :=
  if decide (length data < 8)%nat then (a, None)
  else
    let magic := le_value (take 4 data) in
    ((if (magic =? VR_MAGIC) && bool_decide (length data = wire_size VrRelativeTeleopPacketV2)
      then with_vr_state (vr_state_of_packet (deserialize data)) now a
      else a), Some data).

(** ** The telemetry socket *)

Definition with_feedback (r l : list double) (now : Z) (a : VrApp) : VrApp :=
  mkVrApp (va_vr_state a) (va_vr_connected a) (va_last_vr_time a) r l now true (va_right a) (va_left a)
    (va_seq a) (va_keep_running a).

Definition tel_callback (now : Z) (data : list Z) (a : VrApp) : VrApp :=
  if decide (length data = wire_size OpenArmTelemetryPacketV1) then
    let p : OpenArmTelemetryPacketV1 := deserialize data in
    if tm_magic p =? TELEMETRY_MAGIC
    then with_feedback (floats (take 7 (tm_observation_state p))) (floats (take 7 (drop 8 (tm_observation_state p)))) now a
    else a
  else a.

(** ** One arm *)

Definition deactivate (s : VrSide) : VrSide :=
  let n := vr_anchor s in
  mkVrSide (target_q s) (target_grip s)
    (mkAnchor false (robot_ee_pos_anchor n) (robot_ee_quat_anchor n) (robot_q_anchor n))
    (vr_ik s) (vr_swivel s) (burst_timer s).

(** Commanded gripper position. *)
Definition grip_command (arm : VrArmState) : double :=
  let m := vc_mapping cfg in
  (gripper_min_limit m + vs_trigger arm * (gripper_max_limit m - gripper_min_limit m))%D.

(** Anchor and burst timer when the grip is held. *)
Definition take_anchor (pin : Pinocchio) (recenter : bool) (fb : list double) (s : VrSide)
    : outcome (ArmAnchor * double) :=
  if negb (anchor_active (vr_anchor s)) || recenter then
    '(pos, quat) ← compute_fk_pose pin (vr_ik s) fb;
    Ok (mkAnchor true pos quat fb, ik_debug_burst_sec (vc_debug cfg))
  else Ok (vr_anchor s, burst_timer s).

(** The hand's displacement, at most [max_delta_m] long. *)
Definition clamp_delta (delta : list double) : list double :=
  let n := v_norm ve delta in
  let lim := max_delta_m (vc_mapping cfg) in
  if (n >? lim)%D then v_scale ve delta (lim / n)%D else delta.

(** The target pose. *)
Definition target_pos (anchor : ArmAnchor) (delta : list double) : outcome (list double) :=
  for_n 3 (fun i => a ← vget (robot_ee_pos_anchor anchor) i; d ← vget delta i; Ok (a + d)%D).

Definition target_quat (anchor : ArmAnchor) (rot : list double) : list double :=
  if String.eqb (rotation_compose_order (vc_mapping cfg)) "delta_then_anchor"
  then q_mul ge rot (robot_ee_quat_anchor anchor)
  else q_mul ge (robot_ee_quat_anchor anchor) rot.

Definition estimate_swivel (side : ArmSide) (x_des quat_des : list double) (e : TemporalSwivelEstimator)
    : TemporalSwivelEstimator * double :=
  if hm_enabled (vc_human cfg) && vs_enabled (vc_swivel cfg) then
    let right := match side with RIGHT => true | LEFT => false end in
    swivel_update
      (mkSwivelInput [d0; if right then (- dlit 2 1)%D else dlit 2 1; dlit 5 1] x_des quat_des
         (d1 / ve_rate_hz env)%D right) e
  else (e, d0).

(** The posture anchor, biased at the third joint. *)
Definition swivel_anchor (q : list double) (swivel : double) : outcome (list double) :=
  let s := vc_swivel cfg in
  if hm_enabled (vc_human cfg) && vs_enabled s && vs_apply_to_ik s && negb (vs_log_only s) then
    x ← vget q 2; vset q 2 (x + swivel)%D
  else Ok q.

(** One joint towards the solution, within the step limit. *)
Definition limit_step (enabled : bool) (q_ik q_target max_step : double) : double :=
  let diff := (q_ik - q_target)%D in
  let diff :=
    if enabled && (dabs diff >? max_step)%D
    then ((if (diff >? d0)%D then d1 else (- d1)%D) * max_step)%D else diff in
  (q_target + diff)%D.

Definition max_steps (side : ArmSide) : list double :=
  match side with
  | RIGHT => max_step_rad_r (vc_rate_limit cfg)
  | LEFT => max_step_rad_l (vc_rate_limit cfg)
  end.

Definition limit_joints (side : ArmSide) (q_ik q_target : list double) : outcome (list double) :=
  for_n 7 (fun i =>
    x ← vget q_ik i; t ← vget q_target i; m ← vget (max_steps side) i;
    Ok (limit_step (rl_enabled (vc_rate_limit cfg)) x t m)).

(** The solution for a held grip. *)
Definition solve_arm (pin : Pinocchio) (x_des quat_des fb anchor_q : list double) (ik : OpenArmPinocchioIK)
    : outcome (OpenArmPinocchioIK * (bool * list double)) :=
  if String.eqb (ik_mode (vc_ik cfg)) "pose" then
    res ← solve_pose pin la ve pow ik x_des quat_des fb fb (Some anchor_q);
    Ok (ik, res)
  else solve pin la ve pow ik x_des fb fb (Some anchor_q).

(** Counting down while debugging. *)
Definition tick_burst (b : double) : double :=
  if ik_debug (vc_debug cfg) && (b >? d0)%D then (b - d1 / ve_rate_hz env)%D else b.

Definition vr_pin (side : ArmSide) : Pinocchio := match side with RIGHT => ve_pin_r env | LEFT => ve_pin_l env end.
Definition vr_arm_of (side : ArmSide) (v : VrState) : VrArmState :=
  match side with RIGHT => vs_right v | LEFT => vs_left v end.

Definition held (arm : VrArmState) : bool := (vs_grip arm >? dlit 5 1)%D.

(** The branch of a held grip. *)
Definition track_hand (side : ArmSide) (vr : VrState) (fb : list double) (grip : double) (s : VrSide)
    : outcome (VrSide * bool) :=
  let arm := vr_arm_of side vr in
  let pin := vr_pin side in
  '(anchor, burst) ← take_anchor pin (vs_recenter vr) fb s;
  let delta := clamp_delta (vs_delta_pos_robot arm) in
  x_des ← target_pos anchor delta;
  let quat_des := target_quat anchor (vs_delta_rot_robot arm) in
  let '(swivel, swivel_target) := estimate_swivel side x_des quat_des (vr_swivel s) in
  anchor_q ← swivel_anchor (robot_q_anchor anchor) swivel_target;
  '(ik, (solved, q_ik)) ← solve_arm pin x_des quat_des fb anchor_q (vr_ik s);
  _ ← compute_fk_pose pin ik q_ik;
  q ← (if solved : bool then limit_joints side q_ik (target_q s) else Ok (target_q s));
  Ok (mkVrSide q grip anchor ik swivel (tick_burst burst), solved).

(** A released hand drops its anchor; the targets follow the feedback. *)
Definition release_hand (feedback_available : bool) (fb : list double) (grip : double) (s : VrSide) : VrSide :=
  let s := deactivate s in
  mkVrSide (if feedback_available then fb else target_q s) grip (vr_anchor s) (vr_ik s) (vr_swivel s) (burst_timer s).

(** [process_arm_logic]: the new state of the arm and [ik_success]. *)
Definition process_arm (side : ArmSide) (vr : VrState) (stale tel_connected : bool) (fb : list double) (s : VrSide)
    : outcome (VrSide * bool) :=
  if stale then Ok (s, false)
  else
    let arm := vr_arm_of side vr in
    let grip := grip_command arm in
    let feedback_available := tel_connected || ve_dry_run env in
    if held arm && feedback_available then track_hand side vr fb grip s
    else Ok (release_hand feedback_available fb grip s, false).

(** ** Packets *)

Definition has_nan (q : list double) : bool := existsb is_nan q.

(** [enabled] of [send_pkt], before the check of the joint targets. *)
Definition arm_enable (arm_enabled tel_connected estop stale : bool) : bool :=
  if ve_dry_run env then false else arm_enabled && tel_connected && negb estop && negb stale.

(** The packet [send_pkt] encodes. *)
Definition vr_packet (side : ArmSide) (seq : Z) (q : list double) (grip : double) (enabled : bool)
    : outcome TeleopPacket :=
  js ← for_n 7 (fun i => vget q i);
  Ok (mkTeleopPacket TELEOP_MAGIC TELEOP_VERSION (Z.of_nat (wire_size TeleopPacket)) seq 0 (arm_side_u8 side)
        (control_mode_u8 UNILATERAL) (if has_nan js then 0 else if enabled then 1 else 0) 0 7 1 0 0
        (map bits_of_double js ++ [0]) (replicate 8 0) [bits_of_double grip; 0; 0; 0] (replicate 4 0) 0).

(** ** The loop *)

(** Clock readings of one iteration: telemetry age, packets, end of the test. *)
Record VrInput := mkVrInput { vi_now : Z; vi_sys_r : Z; vi_sys_l : Z; vi_now_end : Z }.

Record VrOutput := mkVrOutput { vo_right : TeleopPacket; vo_left : TeleopPacket; vo_ik_r : bool; vo_ik_l : bool }.

(** [age_ms], truncated to milliseconds. *)
Definition tel_age_ms (now : Z) (a : VrApp) : Z := Z.quot (now - va_last_tel_time a) 1000000.

Definition telemetry_stale (now : Z) (a : VrApp) : bool :=
  va_tel_connected a && (stale_timeout_ms (vc_tel cfg) <? tel_age_ms now a).

Definition anchor_reset (now : Z) (a : VrApp) : bool :=
  va_tel_connected a && (anchor_reset_timeout_ms (vc_tel cfg) <? tel_age_ms now a).

(** [duration<double>(t).count()]. *)
Definition seconds_of_ns (t : Z) : double := (d_of_Z t / d_of_Z 1000000000)%D.

Definition test_over (now : Z) : bool :=
  (ve_max_test_sec env >? d0)%D && (seconds_of_ns (now - ve_start env) >=? ve_max_test_sec env)%D.

(** One iteration. *)
Definition vr_cycle (i : VrInput) (a : VrApp) : outcome (VrApp * VrOutput) :=
  let vr := va_vr_state a in
  let stale := telemetry_stale (vi_now i) a in
  let reset s := if anchor_reset (vi_now i) a then deactivate s else s in
  '(r, ik_r) ← process_arm RIGHT vr stale (va_tel_connected a) (va_fb_r a) (reset (va_right a));
  '(l, ik_l) ← process_arm LEFT vr stale (va_tel_connected a) (va_fb_l a) (reset (va_left a));
  let enable side := arm_enable (held (vr_arm_of side vr)) (va_tel_connected a) (vs_estop vr) stale in
  pr ← vr_packet RIGHT (va_seq a) (target_q r) (target_grip r) (enable RIGHT);
  pl ← vr_packet LEFT (va_seq a) (target_q l) (target_grip l) (enable LEFT);
  Ok (mkVrApp vr (va_vr_connected a) (va_last_vr_time a) (va_fb_r a) (va_fb_l a) (va_last_tel_time a)
        (va_tel_connected a) r l (u32 (va_seq a + 1)) (va_keep_running a && negb (test_over (vi_now_end i))),
      mkVrOutput (teleop_encode (vi_sys_r i) pr) (teleop_encode (vi_sys_l i) pl) ik_r ik_l).

(** ** Executions *)

Inductive VrEvent :=
| EvVr (now : Z) (data : list Z)
| EvTelemetry (now : Z) (data : list Z)
| EvSigint
| EvVrCycle (i : VrInput).

Definition stop_running (a : VrApp) : VrApp :=
  mkVrApp (va_vr_state a) (va_vr_connected a) (va_last_vr_time a) (va_fb_r a) (va_fb_l a) (va_last_tel_time a)
    (va_tel_connected a) (va_right a) (va_left a) (va_seq a) false.

(** A step and the packets it sends; the loop only runs while [keep_running]. *)
Definition vr_event (e : VrEvent) (a : VrApp) : outcome (VrApp * option VrOutput) :=
  match e with
  | EvVr now data => Ok ((vr_callback now data a).1, None)
  | EvTelemetry now data => Ok (tel_callback now data a, None)
  | EvSigint => Ok (stop_running a, None)
  | EvVrCycle i =>
      if va_keep_running a then '(a, o) ← vr_cycle i a; Ok (a, Some o) else Ok (a, None)
  end.

Fixpoint vr_run (l : list VrEvent) (a : VrApp) : outcome (VrApp * list VrOutput) :=
  match l with
  | [] => Ok (a, [])
  | e :: l' =>
      '(a, o) ← vr_event e a;
      '(a, os) ← vr_run l' a;
      Ok (a, option_list o ++ os)
  end.

(** ** Start of the program *)

Definition vr_ik_params : IKParams :=
  let i := vc_ik cfg in
  mkIKParams (ik_max_iterations i) (ik_convergence_tol_m i) (ik_convergence_tol_rad i) (ik_damping i)
    (ik_max_dq_norm i) (ik_max_task_step_m i) (ik_max_task_step_rad i) (ik_nullspace_enabled i)
    (ik_nullspace_posture_gain i) (ik_position_weight i) (ik_orientation_weight i).

Definition vr_swivel_config (neutral : double) : SwivelConfig :=
  let s := vc_swivel cfg in
  mkSwivelConfig (vs_enabled s) (vs_neutral_gain s) (vs_continuity_gain s) (vs_wrist_orientation_gain s)
    (vs_max_swivel_rate_rad_s s) neutral.

Definition joint_names (side : string) : list string :=
  map (fun n => "openarm_" +:+ side +:+ "_joint" +:+ n) ["1"; "2"; "3"; "4"; "5"; "6"; "7"].

Definition right_ee : string := "openarm_right_hand".
Definition left_ee : string := "openarm_left_hand".

Definition vr_side_new (pin : Pinocchio) (ee side : string) (neutral : double) : outcome VrSide :=
  ik ← ik_new pin ee (joint_names side);
  Ok (mkVrSide (replicate 7 d0) d0 anchor_default (set_params vr_ik_params ik) (swivel_new (vr_swivel_config neutral)) d0).

(** The state in which the loop is entered, or the exception of a constructor. *)
Definition vr_new : outcome VrApp :=
  r ← vr_side_new (ve_pin_r env) right_ee "right" (neutral_swivel_right_rad (vc_human cfg));
  l ← vr_side_new (ve_pin_l env) left_ee "left" (neutral_swivel_left_rad (vc_human cfg));
  Ok (mkVrApp vr_state_default false 0 (replicate 7 d0) (replicate 7 d0) 0 false r l 0 true).
End vr.
