(* ===== verification/VrFacts.v ===== *)
(** * VrFacts: facts about the VR leader

    One cycle's effect on an arm in every branch, the packets it sends, what its
    sockets accept, and two properties of whole executions: the joints of an
    enabled packet are one limited step away from the packet before it, and no
    sequence of datagrams and cycles makes the program fail. *)

From Stdlib Require Import SpecFloat.
From S2P Require Import Prelude Float64 Float64Round Float64Arith Float64Ops Float64Order Float64Facts.
From S2P Require Import Crc32 Wire Packets PacketCodec Dynamics Swivel Ik IkFacts VrConfig VrLeader.

Open Scope Z_scope.

(** ** Limited steps *)

Lemma dmul_comm x y : dmul x y = dmul y x.
Proof.
  unfold dmul. destruct x as [sx|sx| |sx mx ex], y as [sy|sy| |sy my ey]; try done;
    try (by destruct sx, sy). simpl. by rewrite xorb_comm, Pos.mul_comm, Z.add_comm.
Qed.

Lemma dmul_opp_l x y : is_nan x = false -> is_nan y = false -> is_nan (dmul x y) = false ->
  dmul (dopp x) y = dopp (dmul x y).
Proof.
  intros Hx Hy. unfold dmul. destruct x as [sx|sx| |sx mx ex], y as [sy|sy| |sy my ey]; try done;
    try (by destruct sx, sy). simpl. intros _. unfold binary_round_aux.
  destruct (shr_fexp 53 1024 _ _ _) as [m e]. destruct (shr_fexp 53 1024 _ e _) as [m' e'].
  destruct (shr_m m'); [by destruct sx, sy| |done]. destruct (e' <=? 1024 - 53); by destruct sx, sy.
Qed.

(** A comparison that fails on the magnitude bounds the number or meets a NaN. *)
Lemma not_above_bounds m d :
  is_nan m = false -> sign m = false -> dltb m (dabs d) = false ->
  is_nan d = true \/ (dleb (dopp m) d = true /\ dleb d m = true).
Proof.
  unfold dltb, dleb, SFltb, SFleb. intros Nm Sm.
  destruct d as [sd|sd| |sd md ed]; [right|right|by left|right];
    (destruct m as [sm|sm| |sm mm em]; try done; simpl in Sm; subst; [by destruct sd..|]); try by destruct sd.
  revert H. simpl. destruct sd; simpl.
  - destruct (em ?= ed) eqn:E1; simpl; [destruct (Pos.compare_cont Eq mm md)|..]; done.
  - rewrite (Z.compare_antisym em ed). destruct (em ?= ed); simpl; try done.
    change (Pos.compare_cont Eq md mm) with (md ?= mm)%positive. rewrite (Pos.compare_antisym mm md).
    change (Pos.compare_cont Eq mm md) with (mm ?= md)%positive. by destruct (mm ?= md)%positive.
Qed.

(** [t'] is [t] plus a step of at most [m], in the program's arithmetic; when the
    step is not a number, neither is the result. *)
Definition step_within (m t t' : double) : Prop :=
  exists d, t' = (t + d)%D /\ (is_nan d = true \/ (dleb (dopp m) d = true /\ dleb d m = true)).

Lemma step_within_number m t t' :
  step_within m t t' -> is_nan t' = false ->
  exists d, t' = (t + d)%D /\ dleb (dopp m) d = true /\ dleb d m = true.
Proof.
  intros (d & -> & [Hn|Hb]) Ht; [|by exists d]. exfalso.
  destruct d; try discriminate Hn. by destruct t.
Qed.

Lemma limit_step_within x t m : fnn m -> step_within m t (limit_step true x t m).
Proof.
  intros [(V & N & S) F]. unfold limit_step. cbv zeta. cbn [andb].
  assert (Hm : forall d, scaled (dabs d) = scaled m -> valid (dabs d) -> is_nan (dabs d) = false ->
    is_nan d = false -> dleb (dopp m) d = true /\ dleb d m = true).
  { intros d Hs Hv Hn Hd. destruct (not_above_bounds m d N S) as [Hx|Hx]; [|congruence|done].
    rewrite dltb_scaled, Hs by done. apply Z.ltb_irrefl. }
  destruct (dltb m (dabs (x - t)%D)) eqn:E.
  - destruct (dltb d0 (x - t)%D).
    + exists m. rewrite (dmul_comm d1 m), dmul_1_r by done. split; [done|]. right.
      apply Hm; try done; by destruct m as [[]|[]| |[] ? ?].
    + exists (dopp m). rewrite dmul_opp_l, (dmul_comm d1 m), dmul_1_r; try done.
      * split; [done|]. right. apply Hm; try done; by destruct m as [[]|[]| |[] ? ?].
      * by rewrite (dmul_comm d1 m), dmul_1_r.
  - exists (x - t)%D. split; [done|]. by apply not_above_bounds.
Qed.

Section arm.
Context (env : VrEnv) (la : EigenOps) (ve : EigenVec) (ge : EigenGeometry) (pow : double -> double -> double).

(** The joints of an arm move by limited steps. *)
Definition steps_within (side : ArmSide) (q q' : list double) : Prop :=
  forall i t t' m, q !! i = Some t -> q' !! i = Some t' -> max_steps env side !! i = Some m -> step_within m t t'.

Lemma limit_joints_ok side x q q' :
  limit_joints env side x q = Ok q' ->
  length q' = 7%nat /\ (7 <= length q)%nat /\ (7 <= length (max_steps env side))%nat /\
  (rl_enabled (vc_rate_limit (ve_cfg env)) = true -> Forall fnn (max_steps env side) -> steps_within side q q').
Proof.
  unfold limit_joints. intros [Hl Hf]%for_n_ok.
  destruct (lookup_lt_is_Some_2 q' 6) as [y Hy]; [lia|].
  pose proof (Hf _ _ Hy) as (? & _ & (? & Ht%vget_ok & (? & Hm%vget_ok & _)%bind_ok)%bind_ok)%bind_ok.
  apply lookup_lt_Some in Ht, Hm. split_and!; [done|lia|lia|]. intros He Hfnn i t t' m Hti Hti' Hmi.
  pose proof (Hf _ _ Hti') as (z & _ & (t0 & Ht0%vget_ok & (m0 & Hm0%vget_ok & [= <-])%bind_ok)%bind_ok)%bind_ok.
  rewrite Hti in Ht0. rewrite Hmi in Hm0. injection Ht0 as <-. injection Hm0 as <-. rewrite He.
  apply limit_step_within. rewrite Forall_lookup in Hfnn. by eapply Hfnn.
Qed.

(** What a held grip does to the targets. *)
Lemma track_hand_inv side vr fb grip s s' ok :
  track_hand env la ve ge pow side vr fb grip s = Ok (s', ok) ->
  target_grip s' = grip /\
  (ok = false /\ target_q s' = target_q s \/
   ok = true /\ exists q_ik, limit_joints env side q_ik (target_q s) = Ok (target_q s')).
Proof.
  unfold track_hand. cbv zeta. intros ([anchor burst] & _ & H)%bind_ok. apply bind_ok in H as (x_des & _ & H).
  destruct (estimate_swivel _ _ _ _ _) as [sw st]. apply bind_ok in H as (aq & _ & H).
  apply bind_ok in H as ([ik [solved q_ik]] & _ & H). apply bind_ok in H as (_ & _ & H).
  apply bind_ok in H as (q & Hq & [= <- <-]). split; [done|]. destruct solved; [right|left].
  - split; [done|]. by exists q_ik.
  - injection Hq as <-. done.
Qed.

Lemma process_arm_inv side vr stale conn fb s s' ok :
  process_arm env la ve ge pow side vr stale conn fb s = Ok (s', ok) ->
  let avail := conn || ve_dry_run env in
  let hold := held (vr_arm_of side vr) in
  (stale = true /\ s' = s /\ ok = false) \/
  (stale = false /\ target_grip s' = grip_command env (vr_arm_of side vr) /\
   (hold && avail = false /\ anchor_active (vr_anchor s') = false /\ ok = false /\
      target_q s' = (if avail then fb else target_q s) \/
    hold && avail = true /\
      (ok = false /\ target_q s' = target_q s \/
       ok = true /\ exists q_ik, limit_joints env side q_ik (target_q s) = Ok (target_q s')))).
Proof.
  unfold process_arm. destruct stale; [intros [= <- <-]; by left|]. cbv zeta. intros H. right. split; [done|].
  destruct (held _ && (conn || ve_dry_run env)) eqn:E.
  - apply track_hand_inv in H as [Hg H]. split; [done|]. by right.
  - injection H as <- <-. split; [done|]. by left.
Qed.

Lemma target_q_deactivate (b : bool) s : target_q (if b then deactivate s else s) = target_q s.
Proof. by destruct b. Qed.

Lemma target_grip_deactivate (b : bool) s : target_grip (if b then deactivate s else s) = target_grip s.
Proof. by destruct b. Qed.

Lemma vr_packet_inv side seq q grip en p :
  vr_packet side seq q grip en = Ok p ->
  (7 <= length q)%nat /\
  p = mkTeleopPacket TELEOP_MAGIC TELEOP_VERSION (Z.of_nat (wire_size TeleopPacket)) seq 0 (arm_side_u8 side)
        (control_mode_u8 UNILATERAL) (if has_nan (take 7 q) then 0 else if en then 1 else 0) 0 7 1 0 0
        (map bits_of_double (take 7 q) ++ [0]) (replicate 8 0) [bits_of_double grip; 0; 0; 0] (replicate 4 0) 0.
Proof.
  unfold vr_packet. intros (js & [Hl Hf]%for_n_ok & [= <-])%bind_ok.
  assert (Hlook : forall i x, js !! i = Some x -> q !! i = Some x).
  { intros i x Hx. apply vget_ok. by apply Hf. }
  assert (Hq : (7 <= length q)%nat).
  { destruct (lookup_lt_is_Some_2 js 6) as [y Hy]; [lia|]. apply Hlook, lookup_lt_Some in Hy. lia. }
  split; [done|]. replace js with (take 7 q); [done|]. apply list_eq_same_length with 7%nat; [done|rewrite length_take; lia|].
  intros i x y Hi Hx Hy. apply Hlook in Hy. rewrite lookup_take_lt in Hx by done. congruence.
Qed.

(** Joints of an arm's packet. *)
Lemma vr_packet_joint side seq q grip en p i t :
  vr_packet side seq q grip en = Ok p -> (i < 7)%nat -> q !! i = Some t ->
  tp_arm_pos p !! i = Some (bits_of_double t) /\ (tp_enable p = 1 -> is_nan t = false).
Proof.
  intros [Hq ->]%vr_packet_inv Hi Ht. cbn [tp_arm_pos tp_enable].
  assert (Hti : take 7 q !! i = Some t) by by rewrite lookup_take_lt.
  split.
  - rewrite lookup_app_l by (rewrite length_map, length_take; lia). by rewrite list_lookup_fmap, Hti.
  - destruct (has_nan (take 7 q)) eqn:E; [done|]. intros _. apply not_true_is_false. intros Hn.
    apply not_true_iff_false in E. apply E. apply existsb_exists. exists t. split; [|done].
    apply list_elem_of_In. by eapply list_elem_of_lookup_2.
Qed.
End arm.

(** *** The two arms of the program *)

Definition vr_side (side : ArmSide) (a : VrApp) : VrSide := match side with RIGHT => va_right a | LEFT => va_left a end.
Definition vr_fb (side : ArmSide) (a : VrApp) : list double := match side with RIGHT => va_fb_r a | LEFT => va_fb_l a end.
Definition vo_packet (side : ArmSide) (o : VrOutput) : TeleopPacket :=
  match side with RIGHT => vo_right o | LEFT => vo_left o end.
Definition vo_ik (side : ArmSide) (o : VrOutput) : bool := match side with RIGHT => vo_ik_r o | LEFT => vo_ik_l o end.

Section cycle.
Context (env : VrEnv) (la : EigenOps) (ve : EigenVec) (ge : EigenGeometry) (pow : double -> double -> double).
#[local] Abbreviation cycle := (vr_cycle env la ve ge pow).

(** Whether the loop commands an arm to follow, before the check for NaN. *)
Definition vr_enable (side : ArmSide) (i : VrInput) (a : VrApp) : bool :=
  arm_enable env (held (vr_arm_of side (va_vr_state a))) (va_tel_connected a) (vs_estop (va_vr_state a))
    (telemetry_stale env (vi_now i) a).

Lemma vr_cycle_inv i a a' o :
  cycle i a = Ok (a', o) ->
  va_seq a' = u32 (va_seq a + 1) /\ va_vr_state a' = va_vr_state a /\
  va_tel_connected a' = va_tel_connected a /\ va_fb_r a' = va_fb_r a /\ va_fb_l a' = va_fb_l a /\
  va_last_tel_time a' = va_last_tel_time a /\
  forall side, exists now p,
    process_arm env la ve ge pow side (va_vr_state a) (telemetry_stale env (vi_now i) a) (va_tel_connected a) (vr_fb side a)
      (if anchor_reset env (vi_now i) a then deactivate (vr_side side a) else vr_side side a)
    = Ok (vr_side side a', vo_ik side o) /\
    vr_packet side (va_seq a) (target_q (vr_side side a')) (target_grip (vr_side side a')) (vr_enable side i a) = Ok p /\
    vo_packet side o = teleop_encode now p.
Proof.
  unfold vr_cycle. cbv zeta. intros ([r ikr] & Hr & H)%bind_ok. apply bind_ok in H as ([l ikl] & Hl & H).
  apply bind_ok in H as (pr & Hpr & H). apply bind_ok in H as (pl & Hpl & [= <- <-]). split_and!; try done.
  intros []; [exists (vi_sys_r i), pr|exists (vi_sys_l i), pl]; by split_and!.
Qed.

Lemma vr_packet_shaped side seq q grip en p : vr_packet side seq q grip en = Ok p -> shaped p.
Proof.
  intros [Hq ->]%vr_packet_inv. split_and!; cbn [tp_arm_pos tp_arm_vel tp_hand_pos tp_hand_vel]; try done.
  rewrite length_app, length_map, length_take, min_l by done. done.
Qed.

Lemma vr_cycle_packet i a a' o side :
  cycle i a = Ok (a', o) ->
  let p := vo_packet side o in
  let q := take 7 (target_q (vr_side side a')) in
  teleop_decode_and_validate p = (true, p) /\ tp_seq p = va_seq a /\ tp_arm_side p = arm_side_u8 side /\
  tp_mode p = control_mode_u8 UNILATERAL /\ tp_estop p = 0 /\ tp_arm_dof p = 7 /\ tp_hand_dof p = 1 /\
  tp_arm_pos p = map bits_of_double q ++ [0] /\ length q = 7%nat /\
  tp_hand_pos p = [bits_of_double (target_grip (vr_side side a')); 0; 0; 0] /\
  tp_enable p = (if has_nan q then 0 else if vr_enable side i a then 1 else 0).
Proof.
  intros (_ & _ & _ & _ & _ & _ & H)%vr_cycle_inv. cbv zeta. destruct (H side) as (now & p & _ & Hp & ->).
  split; [apply teleop_encode_validates; by eapply vr_packet_shaped|].
  apply vr_packet_inv in Hp as [Hq ->]. split_and!; try done. rewrite length_take. lia.
Qed.

Lemma vr_enable_true side i a :
  vr_enable side i a = true ->
  held (vr_arm_of side (va_vr_state a)) = true /\ va_tel_connected a = true /\ telemetry_stale env (vi_now i) a = false.
Proof. unfold vr_enable, arm_enable. intros H. destruct (ve_dry_run env); [done|]. by bool_prop. Qed.

(** Joint targets after a cycle, compared with those before it. *)
Lemma vr_cycle_targets i a a' o side :
  cycle i a = Ok (a', o) ->
  let s := vr_side side a in let s' := vr_side side a' in
  let stale := telemetry_stale env (vi_now i) a in
  let avail := va_tel_connected a || ve_dry_run env in
  let hold := held (vr_arm_of side (va_vr_state a)) in
  (stale = true -> target_q s' = target_q s /\ target_grip s' = target_grip s /\ vo_ik side o = false) /\
  (stale = false -> target_grip s' = grip_command env (vr_arm_of side (va_vr_state a))) /\
  (stale = false -> hold && avail = false ->
     anchor_active (vr_anchor s') = false /\ target_q s' = (if avail then vr_fb side a else target_q s)) /\
  (stale = false -> hold && avail = true ->
     target_q s' = target_q s \/
     length (target_q s') = 7%nat /\
     (rl_enabled (vc_rate_limit (ve_cfg env)) = true -> Forall fnn (max_steps env side) ->
      steps_within env side (target_q s) (target_q s'))).
Proof.
  intros (_ & _ & _ & _ & _ & _ & H)%vr_cycle_inv. cbv zeta. destruct (H side) as (now & p & Hp & _ & _).
  apply process_arm_inv in Hp. rewrite target_q_deactivate in Hp.
  destruct Hp as [(Hst & Hs & Hok)|(Hst & Hg & Hp)]; rewrite Hst.
  - rewrite Hs, target_q_deactivate, target_grip_deactivate. by split_and!.
  - split; [done|]. split; [done|]. destruct Hp as [(E & Ha & _ & Hq)|(E & Hq)]; rewrite E; (split; [done|]); [done|].
    intros _ _. destruct Hq as [[_ Hq]|[_ [x Hq]]]; [by left|right].
    apply limit_joints_ok in Hq as (Hl & _ & _ & Hq). by split.
Qed.

(** A held hand without a solution leaves the targets. *)
Lemma vr_cycle_unsolved i a a' o side :
  cycle i a = Ok (a', o) -> held (vr_arm_of side (va_vr_state a)) = true -> va_tel_connected a = true ->
  vo_ik side o = false -> target_q (vr_side side a') = target_q (vr_side side a).
Proof.
  intros (_ & _ & _ & _ & _ & _ & H)%vr_cycle_inv Hh Hc Hik. destruct (H side) as (now & p & Hp & _ & _).
  apply process_arm_inv in Hp. rewrite target_q_deactivate, Hh, Hc, Hik in Hp. cbn [andb orb] in Hp.
  destruct Hp as [(_ & -> & _)|(_ & _ & [([=] & _)|(_ & [[_ Hq]|([=] & _)])])]; [apply target_q_deactivate|done].
Qed.

(** Taking hold: a held hand without an active anchor anchors at the measured
    joints and their pose. *)
Lemma track_hand_anchor side vr fb grip s s' ok :
  track_hand env la ve ge pow side vr fb grip s = Ok (s', ok) -> anchor_active (vr_anchor s) = false ->
  anchor_active (vr_anchor s') = true /\ robot_q_anchor (vr_anchor s') = fb /\
  compute_fk_pose (vr_pin env side) (vr_ik s) fb = Ok (robot_ee_pos_anchor (vr_anchor s'), robot_ee_quat_anchor (vr_anchor s')).
Proof.
  unfold track_hand, take_anchor. cbv zeta. intros ([anchor burst] & Ha & H)%bind_ok Hn. rewrite Hn in Ha. cbn [negb orb] in Ha.
  apply bind_ok in Ha as ([pos quat] & Hf & [= <- <-]). apply bind_ok in H as (x_des & _ & H).
  destruct (estimate_swivel _ _ _ _ _) as [sw st]. apply bind_ok in H as (aq & _ & H).
  apply bind_ok in H as ([ik [solved q_ik]] & _ & H). apply bind_ok in H as (_ & _ & H).
  by apply bind_ok in H as (q & _ & [= <- <-]).
Qed.

Lemma vr_cycle_takes_hold i a a' o side :
  cycle i a = Ok (a', o) -> held (vr_arm_of side (va_vr_state a)) = true -> va_tel_connected a = true ->
  telemetry_stale env (vi_now i) a = false -> anchor_active (vr_anchor (vr_side side a)) = false ->
  let n := vr_anchor (vr_side side a') in
  anchor_active n = true /\ robot_q_anchor n = vr_fb side a /\
  compute_fk_pose (vr_pin env side) (vr_ik (vr_side side a)) (vr_fb side a) = Ok (robot_ee_pos_anchor n, robot_ee_quat_anchor n).
Proof.
  intros (_ & _ & _ & _ & _ & _ & H)%vr_cycle_inv Hh Hc Hs Hn. cbv zeta. destruct (H side) as (now & p & Hp & _ & _).
  unfold process_arm in Hp. rewrite Hs, Hh, Hc in Hp. cbn [andb orb] in Hp.
  apply track_hand_anchor in Hp; by destruct (anchor_reset env (vi_now i) a).
Qed.

(** Callbacks leave the arms' targets alone. *)
Definition is_vr_cycle (e : VrEvent) : bool := match e with EvVrCycle _ => true | _ => false end.

Lemma vr_event_arms e a a' o :
  is_vr_cycle e = false -> vr_event env la ve ge pow e a = Ok (a', o) ->
  va_right a' = va_right a /\ va_left a' = va_left a /\ va_seq a' = va_seq a.
Proof.
  destruct e; [..|done]; intros _ [= <- <-].
  - unfold vr_callback. case_decide; [done|]. cbn [fst]. by destruct (_ && _).
  - unfold tel_callback. case_decide; [|done]. by destruct (tm_magic _ =? _).
  - done.
Qed.

Lemma vr_run_arms l a a' os :
  Forall (fun e => is_vr_cycle e = false) l -> vr_run env la ve ge pow l a = Ok (a', os) ->
  va_right a' = va_right a /\ va_left a' = va_left a /\ va_seq a' = va_seq a.
Proof.
  intros Hl. revert a a' os. induction Hl as [|e l He Hl IH]; intros a a' os; simpl.
  { by intros [= <- <-]. }
  intros ([b o] & Hb & H)%bind_ok. apply bind_ok in H as ([c os'] & Hc & [= <- <-]).
  apply vr_event_arms in Hb as (B1 & B2 & B3); [|done]. apply IH in Hc as (-> & -> & ->). by rewrite B1, B2, B3.
Qed.

(** Without telemetry the feedback stays. *)
Definition is_telemetry (e : VrEvent) : bool := match e with EvTelemetry _ _ => true | _ => false end.
Definition hand_only (e : VrEvent) : Prop := is_vr_cycle e = false /\ is_telemetry e = false.

Lemma vr_run_feedback l a a' os :
  Forall hand_only l -> vr_run env la ve ge pow l a = Ok (a', os) ->
  va_tel_connected a' = va_tel_connected a /\ forall side, vr_fb side a' = vr_fb side a.
Proof.
  intros Hl. revert a a' os. induction Hl as [|e l [He Ht] Hl IH]; intros a a' os; simpl; [by intros [= <- <-]|].
  intros ([b o] & Hb & H)%bind_ok. apply bind_ok in H as ([c os'] & Hc & [= <- <-]). apply IH in Hc as [-> Hf].
  assert (Hsame : va_tel_connected b = va_tel_connected a /\ forall side, vr_fb side b = vr_fb side a).
  { destruct e; try done; injection Hb as <- _; [|done]. unfold vr_callback. case_decide; [done|]. cbn [fst]. by destruct (_ && _). }
  destruct Hsame as [-> Hs]. split; [done|]. intros side. by rewrite Hf, Hs.
Qed.

(** A hold that begins at the joints [fb]: the anchor, and the targets at most one
    step away. *)
Definition hold_starts (side : ArmSide) (fb : list double) (ik : OpenArmPinocchioIK) (s : VrSide) : Prop :=
  let n := vr_anchor s in
  anchor_active n = true /\ robot_q_anchor n = fb /\
  compute_fk_pose (vr_pin env side) ik fb = Ok (robot_ee_pos_anchor n, robot_ee_quat_anchor n) /\
  (rl_enabled (vc_rate_limit (ve_cfg env)) = true -> Forall fnn (max_steps env side) ->
   target_q s = fb \/ steps_within env side fb (target_q s)).

(** A cycle with a released hand, datagrams of the headset, a cycle with it held. *)
Lemma release_then_hold i1 i2 l a a1 a2 a3 o1 o2 os side :
  cycle i1 a = Ok (a1, o1) -> telemetry_stale env (vi_now i1) a = false -> va_tel_connected a = true ->
  held (vr_arm_of side (va_vr_state a)) = false ->
  Forall hand_only l -> vr_run env la ve ge pow l a1 = Ok (a2, os) ->
  cycle i2 a2 = Ok (a3, o2) -> telemetry_stale env (vi_now i2) a2 = false ->
  held (vr_arm_of side (va_vr_state a2)) = true ->
  hold_starts side (vr_fb side a) (vr_ik (vr_side side a1)) (vr_side side a3).
Proof.
  intros H1 Hs1 Hc Hh1 Hl Hrun H2 Hs2 Hh2.
  pose proof (vr_cycle_targets _ _ _ _ side H1) as (_ & _ & Hrel & _). specialize (Hrel Hs1). rewrite Hh1, Hc in Hrel.
  destruct (Hrel eq_refl) as [Ha Hq]. cbn [orb] in Hq.
  pose proof (vr_cycle_inv _ _ _ _ H1) as (_ & _ & Hc1 & Hfr & Hfl & _ & _).
  assert (Hfb1 : vr_fb side a1 = vr_fb side a) by by destruct side.
  destruct (vr_run_feedback _ _ _ _ Hl Hrun) as [Hc2 Hfb2].
  assert (Hsame : vr_side side a2 = vr_side side a1).
  { apply vr_run_arms in Hrun as (B1 & B2 & _); [by destruct side|]. apply (Forall_impl _ _ _ Hl). by intros e []. }
  rewrite <- Hsame in Ha. assert (Hcon : va_tel_connected a2 = true) by by rewrite Hc2, Hc1.
  destruct (vr_cycle_takes_hold _ _ _ _ side H2 Hh2 Hcon Hs2 Ha) as (N1 & N2 & N3).
  rewrite Hfb2, Hfb1 in N2, N3. rewrite Hsame in N3. split; [done|]. split; [done|]. split; [done|].
  intros Hrl Hf. pose proof (vr_cycle_targets _ _ _ _ side H2) as (_ & _ & _ & Hst). specialize (Hst Hs2).
  rewrite Hh2, Hcon in Hst. rewrite Hsame, Hq in Hst. destruct (Hst eq_refl) as [?|[_ ?]]; [by left|right; by auto].
Qed.
End cycle.

(** ** A concrete program

    Trivial geometry, a robot model whose solver converges at once, both grips
    held, measured joints at 0.5 rad. *)

Definition test_vr_pin (side : string) : Pinocchio :=
  mkPinocchio (list double) 7 (replicate 7 d0) (replicate 7 (dopp d1)) (replicate 7 d1)
    (fun _ => Some 0%nat) (fun n => fst <$> list_find (n =.) (joint_names side)) (fun j => j)
    (fun q _ => q) (fun _ => zero3) (fun _ => unit_quat) (fun _ pos => pos) (fun _ _ => replicate 6 d0)
    (fun _ _ => []) (fun q _ => q) (fun _ _ => replicate 7 d1).

Definition test_vr_ve : EigenVec :=
  mkEigenVec (fun _ => d0) id (fun v _ => v) (fun v _ => v) (fun _ v => v) (fun m _ => m) (fun _ v => v).

Definition test_geometry : EigenGeometry :=
  mkGeometry (zip_with dmul) (fun _ => []) (fun _ => unit_quat) id (fun q _ => q).

Definition test_vr_env : VrEnv :=
  mkVrEnv vr_config_default (d_of_Z 100) false d0 0 (test_vr_pin "right") (test_vr_pin "left").

Definition test_vr_side : VrSide :=
  mkVrSide (replicate 7 d0) d0 anchor_default (mkIK ik_params_default 0 (seq 0 7)) (swivel_new swivel_config_default) d0.

(** Both hands with this grip and trigger. *)
Definition test_vr_app (grip trigger : double) : VrApp :=
  let arm := mkVrArmState zero3 unit_quat zero3 unit_quat grip trigger 0 [d0; d0] zero3 unit_quat in
  mkVrApp (mkVrState 1 true false false arm arm zero3 unit_quat 2) true 0 (replicate 7 (dlit 5 1)) (replicate 7 (dlit 5 1))
    0 true test_vr_side test_vr_side 41 true.

Definition test_vr_input : VrInput := mkVrInput 1000000 5 6 2000000.

(** A headset packet with both grips held, without a valid CRC. *)
Definition test_vr_packet : VrRelativeTeleopPacketV2 :=
  let arm := mkVrArm [0; 0; 0] [0; 0; 0; 0] [0; 0; 0] [0; 0; 0; 0] [0; 0; 0] [0; 0; 0; 0] 0x3F800000 0 [0; 0] 0 in
  mkVrPacket VR_MAGIC 2 256 9 0 [0; 0; 0] [0; 0; 0; 0] arm arm 0 0.

(** ** Properties *)

(** A norm of 1: the solver never comes near its target. *)
Definition failing_vr_ve : EigenVec :=
  mkEigenVec (fun _ => d1) id (fun v _ => v) (fun v _ => v) (fun _ v => v) (fun m _ => m) (fun _ v => v).

(** C13: The packets of a VR cycle, and that they do not wait for the solver. Both
    packets pass validation, carry the same sequence number (the next cycle's is one
    higher, modulo 2^32), the arm's side, UNILATERAL mode, seven joints and one
    gripper, and the targets of the arm; and the arm is enabled exactly when its grip
    is held, telemetry has arrived and is not stale, it is not a dry run, no emergency
    stop came from the headset and no joint target is NaN. [docs/safety.md] also asks
    that the inverse kinematics succeed; the code does not: when the solver fails
    under a held grip, the targets stay those of the packet before, and packets are
    sent enabled in such cycles. *)
Theorem vr_cycle_packets :
  (forall (env : VrEnv) (la : EigenOps) (ve : EigenVec) (ge : EigenGeometry)
     (pow : double -> double -> double) (i : VrInput) (a a' : VrApp) (o : VrOutput),
   vr_cycle env la ve ge pow i a = Ok (a', o) ->
   va_seq a' = u32 (va_seq a + 1) /\
   forall side,
     let p := vo_packet side o in
     let q := take 7 (target_q (vr_side side a')) in
     teleop_decode_and_validate p = (true, p) /\ tp_seq p = va_seq a /\ tp_arm_side p = arm_side_u8 side /\
     tp_mode p = control_mode_u8 UNILATERAL /\ tp_estop p = 0 /\ tp_arm_dof p = 7 /\ tp_hand_dof p = 1 /\
     tp_arm_pos p = map bits_of_double q ++ [0] /\ length q = 7%nat /\
     tp_hand_pos p = [bits_of_double (target_grip (vr_side side a')); 0; 0; 0] /\
     tp_enable p =
       (if held (vr_arm_of side (va_vr_state a)) && va_tel_connected a && negb (telemetry_stale env (vi_now i) a)
           && negb (ve_dry_run env) && negb (vs_estop (va_vr_state a)) && negb (has_nan q) then 1 else 0) /\
     (held (vr_arm_of side (va_vr_state a)) = true -> va_tel_connected a = true -> vo_ik side o = false ->
      target_q (vr_side side a') = target_q (vr_side side a))) /\
  (exists env la ve ge pow i a a' o, vr_cycle env la ve ge pow i a = Ok (a', o) /\
     forall side, vo_ik side o = false /\ tp_enable (vo_packet side o) = 1).
Proof.
  split.
  - intros env la ve ge pow i a a' o H. split; [by apply vr_cycle_inv in H as (-> & _)|]. intros side.
    destruct (vr_cycle_packet _ _ _ _ _ _ _ _ _ side H) as (D & S & A & M & E & N1 & N2 & P & L & G & En). cbv zeta.
    split_and!; try assumption; [|by apply (vr_cycle_unsolved _ _ _ _ _ _ _ _ _ side H)].
    rewrite En. unfold vr_enable, arm_enable.
    destruct (has_nan _), (ve_dry_run env), (held _), (va_tel_connected a), (vs_estop _), (telemetry_stale _ _ _); reflexivity.
  - exists test_vr_env, test_la, failing_vr_ve, test_geometry, (fun x _ => x), test_vr_input, (test_vr_app d1 d0).
    do 2 eexists. split; [vm_compute; reflexivity|]. intros []; split; vm_compute; reflexivity.
Qed.

Lemma vr_cycle_packets_witness :
  exists a' o, vr_cycle test_vr_env test_la test_vr_ve test_geometry (fun x _ => x) test_vr_input (test_vr_app d1 d0)
      = Ok (a', o) /\
    va_seq a' = 42 /\ tp_enable (vo_packet RIGHT o) = 1 /\ tp_arm_side (vo_packet LEFT o) = 1.
Proof.
  assert (H : exists a' o, vr_cycle test_vr_env test_la test_vr_ve test_geometry (fun x _ => x) test_vr_input
    (test_vr_app d1 d0) = Ok (a', o) /\ has_nan (take 7 (target_q (va_right a'))) = false)
    by (do 2 eexists; split; [vm_compute; reflexivity|vm_compute; reflexivity]).
  destruct H as (a' & o & H & Hn). exists a', o. split; [exact H|].
  destruct (proj1 vr_cycle_packets _ _ _ _ _ _ _ _ _ H) as [Hs Hp]. split; [rewrite Hs; reflexivity|].
  destruct (Hp RIGHT) as (_ & _ & _ & _ & _ & _ & _ & _ & _ & _ & -> & _).
  destruct (Hp LEFT) as (_ & _ & -> & _). cbn [vr_side]. rewrite Hn. split; [vm_compute; reflexivity|reflexivity].
Defined.

(** Enabled VR commands never jump. Take any cycle, any datagrams and signals
    after it, and the next cycle. If that one enables an arm, each of its joints
    is a number and is the joint of the previous packet, or that plus a step of
    at most the joint's configured maximum. And if the arm was released in the
    first cycle (with telemetry connected and fresh), the joints of the previous
    packet were the measured ones: taking hold starts from where the robot is. *)
Lemma vr_enabled_steps_bounded (env : VrEnv) (la : EigenOps) (ve : EigenVec) (ge : EigenGeometry)
    (pow : double -> double -> double) (i1 i2 : VrInput) (l : list VrEvent) (a a1 a2 a3 : VrApp)
    (o1 o2 : VrOutput) (os : list VrOutput) (side : ArmSide) :
  rl_enabled (vc_rate_limit (ve_cfg env)) = true -> Forall fnn (max_steps env side) ->
  (7 <= length (max_steps env side))%nat ->
  vr_cycle env la ve ge pow i1 a = Ok (a1, o1) ->
  Forall (fun e => is_vr_cycle e = false) l -> vr_run env la ve ge pow l a1 = Ok (a2, os) ->
  vr_cycle env la ve ge pow i2 a2 = Ok (a3, o2) ->
  tp_enable (vo_packet side o2) = 1 ->
  (forall j, (j < 7)%nat -> exists t t' m,
     tp_arm_pos (vo_packet side o1) !! j = Some (bits_of_double t) /\
     tp_arm_pos (vo_packet side o2) !! j = Some (bits_of_double t') /\
     max_steps env side !! j = Some m /\ is_nan t' = false /\
     (t' = t \/ exists d, t' = (t + d)%D /\ dleb (dopp m) d = true /\ dleb d m = true)) /\
  (telemetry_stale env (vi_now i1) a = false -> va_tel_connected a = true ->
   held (vr_arm_of side (va_vr_state a)) = false ->
   tp_arm_pos (vo_packet side o1) = map bits_of_double (take 7 (vr_fb side a)) ++ [0]).
Proof.
  intros Hrl Hfnn Hms H1 Hl Hrun H2 He.
  pose proof (vr_cycle_targets _ _ _ _ _ _ _ _ _ side H1) as (_ & _ & Hrel & _).
  pose proof (vr_cycle_packet _ _ _ _ _ _ _ _ _ side H1) as (_ & _ & _ & _ & _ & _ & _ & P1 & L1 & _ & _).
  pose proof (vr_cycle_targets _ _ _ _ _ _ _ _ _ side H2) as (_ & _ & _ & Hstep).
  pose proof (vr_cycle_packet _ _ _ _ _ _ _ _ _ side H2) as (_ & _ & _ & _ & _ & _ & _ & P2 & L2 & _ & En).
  assert (Hsame : vr_side side a2 = vr_side side a1).
  { apply vr_run_arms in Hrun as (B1 & B2 & _); [|done]. by destruct side. }
  split.
  - rewrite He in En. destruct (has_nan _) eqn:Hnan; [done|].
    destruct (vr_enable env side i2 a2) eqn:Hen; [|done]. clear En He.
    apply vr_enable_true in Hen as (Hh & Hc & Hs). specialize (Hstep Hs). rewrite Hh, Hc in Hstep.
    specialize (Hstep eq_refl). rewrite Hsame in Hstep. intros j Hj.
    rewrite length_take in L1, L2.
    destruct (lookup_lt_is_Some_2 (target_q (vr_side side a1)) j) as [t Ht]; [lia|].
    destruct (lookup_lt_is_Some_2 (target_q (vr_side side a3)) j) as [t' Ht']; [lia|].
    destruct (lookup_lt_is_Some_2 (max_steps env side) j) as [m Hm]; [lia|].
    assert (Hn : is_nan t' = false).
    { apply not_true_is_false. intros Hn. apply not_true_iff_false in Hnan. apply Hnan. apply existsb_exists.
      exists t'. split; [|done]. apply list_elem_of_In, (list_elem_of_lookup_2 _ j). by rewrite lookup_take_lt. }
    exists t, t', m. rewrite P1, P2, !lookup_app_l by (rewrite length_map, length_take; lia).
    rewrite !list_lookup_fmap, !lookup_take_lt, Ht, Ht' by done. split_and!; try done.
    destruct Hstep as [Hq|[_ Hq]]; [left; congruence|right].
    apply step_within_number; [|done]. by apply (Hq Hrl Hfnn j).
  - intros Hs Hc Hh. specialize (Hrel Hs). rewrite Hh, Hc in Hrel. destruct (Hrel eq_refl) as [_ Hq].
    by rewrite P1, Hq.
Qed.

(** A released cycle, a datagram that takes hold, and the next cycle. *)
Lemma vr_enabled_steps_bounded_witness :
  exists a1 o1 a2 a3 o2,
    vr_cycle test_vr_env test_la test_vr_ve test_geometry (fun x _ => x) test_vr_input (test_vr_app d0 d0) = Ok (a1, o1) /\
    vr_run test_vr_env test_la test_vr_ve test_geometry (fun x _ => x) [EvVr 7 (serialize test_vr_packet)] a1 = Ok (a2, []) /\
    vr_cycle test_vr_env test_la test_vr_ve test_geometry (fun x _ => x) test_vr_input a2 = Ok (a3, o2) /\
    tp_arm_pos (vo_packet RIGHT o1) = replicate 7 (bits_of_double (dlit 5 1)) ++ [0] /\
    (exists t', tp_arm_pos (vo_packet RIGHT o2) !! 0%nat = Some (bits_of_double t') /\ is_nan t' = false).
Proof.
  assert (H : exists a1 o1 a2 a3 o2,
    vr_cycle test_vr_env test_la test_vr_ve test_geometry (fun x _ => x) test_vr_input (test_vr_app d0 d0) = Ok (a1, o1) /\
    vr_run test_vr_env test_la test_vr_ve test_geometry (fun x _ => x) [EvVr 7 (serialize test_vr_packet)] a1 = Ok (a2, []) /\
    vr_cycle test_vr_env test_la test_vr_ve test_geometry (fun x _ => x) test_vr_input a2 = Ok (a3, o2) /\
    tp_enable (vo_packet RIGHT o2) = 1).
  { do 5 eexists. split; [vm_compute; reflexivity|]. split; [vm_compute; reflexivity|].
    split; [vm_compute; reflexivity|vm_compute; reflexivity]. }
  destruct H as (a1 & o1 & a2 & a3 & o2 & H1 & H2 & H3 & H4). exists a1, o1, a2, a3, o2.
  destruct (vr_enabled_steps_bounded test_vr_env test_la test_vr_ve test_geometry (fun x _ => x) test_vr_input test_vr_input
    [EvVr 7 (serialize test_vr_packet)] (test_vr_app d0 d0) a1 a2 a3 o1 o2 [] RIGHT) as [Hj Hr]; try assumption.
  - reflexivity.
  - apply (bool_decide_unpack _). vm_compute. exact I.
  - vm_compute. lia.
  - repeat constructor.
  - split; [exact H1|]. split; [exact H2|]. split; [exact H3|]. split.
    + rewrite Hr; [vm_compute; reflexivity..].
    + destruct (Hj 0%nat) as (t & t' & m & _ & Ht & _ & Hn & _); [lia|]. exists t'. split; [exact Ht|exact Hn].
Defined.

(** What the two sockets of the VR leader accept. A VR datagram of fewer than
    8 bytes is dropped; any other is forwarded to the viewer unchanged, and it
    changes the headset state only when it has the packet's size and magic; then
    the state is the one of the packet it encodes, whatever its version, size
    member and CRC. A telemetry datagram changes the measured joints (joints 1-7
    of both arms) only with its size and magic. Neither touches the targets. *)
Lemma vr_datagrams_spec (env : VrEnv) (la : EigenOps) (ve : EigenVec) (ge : EigenGeometry) (now : Z)
    (data : list Z) (a : VrApp) :
  (let '(a', fwd) := vr_callback env la ve ge now data a in
   fwd = (if decide (length data < 8)%nat then None else Some data) /\
   (length data <> 256%nat \/ le_value (take 4 data) <> VR_MAGIC -> a' = a) /\
   (forall p, well_formed p -> vr_magic p = VR_MAGIC -> data = serialize p ->
      a' = with_vr_state (vr_state_of_packet env la ve ge p) now a) /\
   va_right a' = va_right a /\ va_left a' = va_left a) /\
  (let a' := tel_callback now data a in
   (length data <> 228%nat \/ le_value (take 4 data) <> TELEMETRY_MAGIC -> a' = a) /\
   (forall p, well_formed p -> tm_magic p = TELEMETRY_MAGIC -> data = serialize p ->
      a' = with_feedback (floats (take 7 (tm_observation_state p))) (floats (take 7 (drop 8 (tm_observation_state p)))) now a) /\
   va_right a' = va_right a /\ va_left a' = va_left a).
Proof.
  assert (Hvr : forall bs, vr_magic (deserialize bs) = le_value (take 4 bs)) by done.
  assert (Htm : forall bs, tm_magic (deserialize bs) = le_value (take 4 bs)) by done.
  split.
  - unfold vr_callback. destruct (decide (length data < 8)%nat) as [Hlt|Hge]; cbv beta iota zeta.
    { split_and!; try done. intros p Hp _ ->. rewrite length_serialize in Hlt by apply Hp.
      change (wire_size VrRelativeTeleopPacketV2) with 256%nat in Hlt. lia. }
    split; [done|]. split; [|split].
    + intros [Hl|Hm]; [rewrite (bool_decide_eq_false_2 _ Hl), andb_false_r; done|].
      by apply Z.eqb_neq in Hm as ->.
    + intros p Hp Hm ->. pose proof (Hvr (serialize p)) as Hh. rewrite deserialize_serialize in * by done.
      rewrite <- Hh, Hm, Z.eqb_refl, bool_decide_eq_true_2 by by apply length_serialize, Hp. done.
    + by destruct (_ && _).
  - cbv zeta. unfold tel_callback. cbv zeta. split; [|split].
    + intros [Hl|Hm]; case_decide as Hd; try done. rewrite Htm. by apply Z.eqb_neq in Hm as ->.
    + intros p Hp Hm ->. rewrite decide_True by by apply length_serialize, Hp.
      rewrite deserialize_serialize by done. by rewrite Hm, Z.eqb_refl.
    + case_decide; [|done]. by destruct (_ =? _).
Qed.

Lemma vr_datagrams_spec_witness :
  exists a', (vr_callback test_vr_env test_la test_vr_ve test_geometry 7 (serialize test_vr_packet) (test_vr_app d0 d0)).1
      = a' /\ vs_grip (vs_right (va_vr_state a')) = d1.
Proof.
  pose proof (vr_datagrams_spec test_vr_env test_la test_vr_ve test_geometry 7 (serialize test_vr_packet) (test_vr_app d0 d0))
    as [H _].
  destruct (vr_callback _ _ _ _ _ _ _) as [a' fwd] eqn:E. destruct H as (_ & _ & H & _).
  exists a'. split; [reflexivity|].
  rewrite (H test_vr_packet); [vm_compute; reflexivity| |reflexivity|reflexivity].
  split; [vm_compute; repeat split|]. apply (bool_decide_unpack _). vm_compute. exact I.
Defined.

(** ** The gripper is not checked *)

(** The check for NaN covers the joints: an enabled packet carries whatever the
    trigger of the headset makes of the gripper target. *)
Lemma gripper_not_checked env la ve ge pow i a a' o side :
  vr_cycle env la ve ge pow i a = Ok (a', o) -> vr_enable env side i a = true ->
  has_nan (take 7 (target_q (vr_side side a'))) = false ->
  is_nan (vs_trigger (vr_arm_of side (va_vr_state a))) = true ->
  tp_enable (vo_packet side o) = 1 /\ tp_hand_pos (vo_packet side o) = [bits_of_double SpecFloat.S754_nan; 0; 0; 0].
Proof.
  intros H He Hn Ht. destruct (vr_cycle_packet _ _ _ _ _ _ _ _ _ side H) as (_ & _ & _ & _ & _ & _ & _ & _ & _ & G & E).
  rewrite E, G, He, Hn. split; [done|]. apply vr_enable_true in He as (_ & _ & Hs).
  destruct (vr_cycle_targets _ _ _ _ _ _ _ _ _ side H) as (_ & Hg & _). rewrite (Hg Hs). unfold grip_command. cbv zeta.
  destruct (vs_trigger _); try done. by destruct (gripper_min_limit _).
Qed.
