(* ===== verification/VrTotal.v ===== *)
(** * VrTotal: the VR leader never fails

    A well-formedness invariant of the VR leader's state: established by the
    start-up, preserved by every datagram, whatever its content, by signals and
    by cycles; under it every cycle sends its two packets. *)

From S2P Require Import Prelude Float64 Float64Facts Crc32 Wire Packets PacketCodec Dynamics Swivel Ik IkFacts.
From S2P Require Import VrConfig VrLeader VrFacts.

Open Scope Z_scope.

(** ** The invariant *)

(** What the libraries promise about lengths, and what the configuration holds. *)
Record vr_env_ok (env : VrEnv) (ve : EigenVec) (ge : EigenGeometry) : Prop := {
  eo_model side : model_ok (vr_pin env side);
  eo_translation side p : length (pin_translation (vr_pin env side) p) = 3%nat;
  eo_scale v s : length (v_scale ve v s) = length v;
  eo_mapped m v : m = left_translation_matrix (vc_mapping (ve_cfg env)) \/ m = right_translation_matrix (vc_mapping (ve_cfg env)) ->
    length v = 3%nat -> length (m_vec ve m (v_cwise ge (position_scale_xyz (vc_mapping (ve_cfg env))) v)) = 3%nat;
  eo_steps side : (7 <= length (max_steps env side))%nat;
}.

Record vr_side_ok (pin : Pinocchio) (s : VrSide) : Prop := {
  so_target : length (target_q s) = 7%nat;
  so_anchor : length (robot_ee_pos_anchor (vr_anchor s)) = 3%nat;
  so_posture : length (robot_q_anchor (vr_anchor s)) = 7%nat;
  so_ids : length (ik_joint_ids (vr_ik s)) = 7%nat;
  so_joints : joints_ok pin (ik_joint_ids (vr_ik s));
}.

Record vr_ok (env : VrEnv) (a : VrApp) : Prop := {
  vo_side side : vr_side_ok (vr_pin env side) (vr_side side a);
  vo_fb side : length (vr_fb side a) = 7%nat;
  vo_delta side : length (vs_delta_pos_robot (vr_arm_of side (va_vr_state a))) = 3%nat;
}.

Section total.
Context (env : VrEnv) (la : EigenOps) (ve : EigenVec) (ge : EigenGeometry) (pow : double -> double -> double).

(** ** One arm *)

Lemma deactivate_ok pin s : vr_side_ok pin s -> vr_side_ok pin (deactivate s).
Proof. intros []. by constructor. Qed.

Lemma take_anchor_ok side rc fb s :
  vr_env_ok env ve ge -> vr_side_ok (vr_pin env side) s -> length fb = 7%nat ->
  exists an b, take_anchor env (vr_pin env side) rc fb s = Ok (an, b) /\
    length (robot_ee_pos_anchor an) = 3%nat /\ length (robot_q_anchor an) = 7%nat.
Proof.
  intros He [] Hf. unfold take_anchor. destruct (_ || _); [|by eexists _, _].
  destruct (compute_fk_pose_ok (vr_pin env side) (vr_ik s) fb) as (c & ->); [done|lia|]. simpl.
  eexists _, _. split_and!; [done| |done]. by apply (eo_translation _ _ _ He).
Qed.

Lemma clamp_delta_length v : vr_env_ok env ve ge -> length (clamp_delta env ve v) = length v.
Proof. intros He. unfold clamp_delta. cbv zeta. destruct (_ <? _)%D; [by apply (eo_scale _ _ _ He)|done]. Qed.

Lemma target_pos_ok an v :
  length (robot_ee_pos_anchor an) = 3%nat -> length v = 3%nat -> exists x, target_pos an v = Ok x.
Proof.
  intros Ha Hv. apply for_n_total. intros i Hi.
  destruct (vget_lt (robot_ee_pos_anchor an) i) as (x & -> & _); [lia|].
  destruct (vget_lt v i) as (y & -> & _); [lia|]. by eexists.
Qed.

Lemma swivel_anchor_ok q x : length q = 7%nat -> exists q', swivel_anchor env q x = Ok q' /\ length q' = 7%nat.
Proof.
  intros Hq. unfold swivel_anchor. cbv zeta. destruct (_ && _); [|by eexists].
  destruct (vget_lt q 2) as (y & -> & _); [lia|]. simpl. rewrite vset_ok by lia. eexists. split; [done|].
  by rewrite length_set_nth.
Qed.

Lemma solve_arm_ok side x_des quat_des fb aq k :
  vr_env_ok env ve ge -> joints_ok (vr_pin env side) (ik_joint_ids k) -> length (ik_joint_ids k) = 7%nat ->
  length fb = 7%nat -> length aq = 7%nat ->
  exists k' ok q, solve_arm env la ve pow (vr_pin env side) x_des quat_des fb aq k = Ok (k', (ok, q)) /\
    ik_joint_ids k' = ik_joint_ids k /\ length q = 7%nat.
Proof.
  intros He Hj Hk Hf Ha. pose proof (eo_model _ _ _ He side) as Hm. unfold solve_arm. destruct (String.eqb _ _).
  - destruct (solve_pose_ok (vr_pin env side) la ve pow k x_des quat_des fb fb aq Hm Hj) as (ok & q & -> & Hl); [lia..|].
    simpl. exists k, ok, q. by rewrite Hl.
  - destruct (solve_ok (vr_pin env side) la ve pow k x_des fb fb aq Hm Hj) as (k' & ok & q & -> & Hi & Hl); [lia..|].
    exists k', ok, q. by rewrite Hl.
Qed.

Lemma limit_joints_total side x q :
  vr_env_ok env ve ge -> length x = 7%nat -> length q = 7%nat ->
  exists q', limit_joints env side x q = Ok q' /\ length q' = 7%nat.
Proof.
  intros He Hx Hq. pose proof (eo_steps _ _ _ He side) as Hs.
  destruct (for_n_total 7 (fun i => a ← vget x i; t ← vget q i; m ← vget (max_steps env side) i;
    Ok (limit_step (rl_enabled (vc_rate_limit (ve_cfg env))) a t m))) as [q' Hq'].
  - intros i Hi. destruct (vget_lt x i) as (a & -> & _); [lia|]. destruct (vget_lt q i) as (t & -> & _); [lia|].
    destruct (vget_lt (max_steps env side) i) as (m & -> & _); [lia|]. by eexists.
  - exists q'. split; [done|]. by apply for_n_ok in Hq' as [Hl _].
Qed.

Lemma track_hand_ok side vr fb grip s :
  vr_env_ok env ve ge -> vr_side_ok (vr_pin env side) s -> length fb = 7%nat ->
  length (vs_delta_pos_robot (vr_arm_of side vr)) = 3%nat ->
  exists s' ok, track_hand env la ve ge pow side vr fb grip s = Ok (s', ok) /\ vr_side_ok (vr_pin env side) s'.
Proof.
  intros He Hs Hf Hd. unfold track_hand. cbv zeta.
  destruct (take_anchor_ok side (vs_recenter vr) fb s He Hs Hf) as (an & b & -> & La & Lq). cbn [mbind outcome_bind].
  destruct (target_pos_ok an (clamp_delta env ve (vs_delta_pos_robot (vr_arm_of side vr)))) as (x & ->);
    [done|by rewrite clamp_delta_length|]. cbn [mbind outcome_bind].
  destruct (estimate_swivel _ _ _ _ _) as [sw st].
  destruct (swivel_anchor_ok (robot_q_anchor an) st Lq) as (aq & -> & Laq). cbn [mbind outcome_bind].
  destruct Hs as [Ht _ _ Hi Hj].
  destruct (solve_arm_ok side x (target_quat env ge an (vs_delta_rot_robot (vr_arm_of side vr))) fb aq (vr_ik s))
    as (k & ok & q & -> & Hk & Hq); [done..|]. cbn [mbind outcome_bind].
  destruct (compute_fk_pose_ok (vr_pin env side) k q) as (c & ->); [by rewrite Hk|rewrite Hk; lia|]. cbn [mbind outcome_bind].
  assert (Hlast : exists q', (if ok then limit_joints env side q (target_q s) else Ok (target_q s)) = Ok q' /\ length q' = 7%nat).
  { destruct ok; [by apply limit_joints_total|by eexists]. }
  destruct Hlast as (q' & -> & Hq'). cbn [mbind outcome_bind]. eexists _, ok. split; [done|].
  constructor; cbn [target_q vr_anchor vr_ik]; try done; by rewrite Hk.
Qed.

Lemma process_arm_ok side vr stale conn fb s :
  vr_env_ok env ve ge -> vr_side_ok (vr_pin env side) s -> length fb = 7%nat ->
  length (vs_delta_pos_robot (vr_arm_of side vr)) = 3%nat ->
  exists s' ok, process_arm env la ve ge pow side vr stale conn fb s = Ok (s', ok) /\ vr_side_ok (vr_pin env side) s'.
Proof.
  intros He Hs Hf Hd. unfold process_arm. destruct stale; [by eexists _, _|]. cbv zeta.
  destruct (held _ && _); [by apply track_hand_ok|]. eexists _, _. split; [done|].
  destruct (deactivate_ok _ _ Hs). constructor; cbn [target_q vr_anchor vr_ik]; try done. by destruct (conn || _).
Qed.

Lemma vr_packet_ok side seq q g en : length q = 7%nat -> exists p, vr_packet side seq q g en = Ok p.
Proof.
  intros Hq. unfold vr_packet. destruct (for_n_total 7 (fun i => vget q i)) as [js ->].
  - intros i Hi. destruct (vget_lt q i) as (x & Hx & _); [lia|]. by eexists.
  - by eexists.
Qed.

(** ** Steps *)

Lemma vr_cycle_ok i a :
  vr_env_ok env ve ge -> vr_ok env a -> exists a' o, vr_cycle env la ve ge pow i a = Ok (a', o) /\ vr_ok env a'.
Proof.
  intros He [Hs Hf Hd]. unfold vr_cycle. cbv zeta.
  assert (Hr : forall side, vr_side_ok (vr_pin env side)
    (if anchor_reset env (vi_now i) a then deactivate (vr_side side a) else vr_side side a)).
  { intros side. destruct (anchor_reset _ _ _); [by apply deactivate_ok|done]. }
  pose proof (Hr RIGHT) as Hright. pose proof (Hr LEFT) as Hleft. cbn [vr_side] in Hright, Hleft.
  destruct (process_arm_ok RIGHT (va_vr_state a) (telemetry_stale env (vi_now i) a) (va_tel_connected a) (va_fb_r a)
    _ He Hright (Hf RIGHT) (Hd RIGHT)) as (r & okr & -> & Or).
  destruct (process_arm_ok LEFT (va_vr_state a) (telemetry_stale env (vi_now i) a) (va_tel_connected a) (va_fb_l a)
    _ He Hleft (Hf LEFT) (Hd LEFT)) as (l & okl & -> & Ol).
  cbn [mbind outcome_bind].
  match goal with |- context [vr_packet RIGHT ?s ?q ?g ?e] =>
    destruct (vr_packet_ok RIGHT s q g e (so_target _ _ Or)) as (pr & ->) end. cbn [mbind outcome_bind].
  match goal with |- context [vr_packet LEFT ?s ?q ?g ?e] =>
    destruct (vr_packet_ok LEFT s q g e (so_target _ _ Ol)) as (pl & ->) end. cbn [mbind outcome_bind].
  eexists _, _. split; [done|]. constructor.
  - by intros [].
  - intros []; [exact (Hf RIGHT)|exact (Hf LEFT)].
  - exact Hd.
Qed.

Lemma length_floats n (l : list Z) : length l = n -> length (floats l) = n.
Proof. intros Hl. unfold floats. by rewrite length_map. Qed.

Lemma vr_deserialize_shaped {A} `{Wire A} bs : shaped (deserialize bs).
Proof.
  unfold deserialize. apply fields_of_fields. rewrite length_unpack. unfold layout. rewrite length_app. simpl. lia.
Qed.

(** Every datagram of the right size carries a headset state of the right shape. *)
Lemma vr_state_delta p side :
  vr_env_ok env ve ge -> shaped p -> length (vs_delta_pos_robot (vr_arm_of side (vr_state_of_packet env la ve ge p))) = 3%nat.
Proof.
  intros He (_ & _ & (_ & _ & Hl & _) & (_ & _ & Hr & _)).
  destruct side; unfold vr_arm_of, vr_state_of_packet, fill_arm; cbn [vs_right vs_left vs_delta_pos_robot];
    apply (eo_mapped _ _ _ He); try (by right); try (by left); by apply length_floats.
Qed.

Lemma vr_event_ok e a :
  vr_env_ok env ve ge -> vr_ok env a ->
  exists a' o, vr_event env la ve ge pow e a = Ok (a', o) /\ vr_ok env a' /\
    (is_Some o <-> is_vr_cycle e = true /\ va_keep_running a = true).
Proof.
  intros He Ha. destruct e as [now data|now data| |i]; cbn [vr_event is_vr_cycle].
  - eexists _, None. split; [done|]. split; [|by split; intros [? ?]].
    unfold vr_callback. case_decide; [done|]. cbn [fst]. destruct (_ && _); [|done].
    destruct Ha as [Hs Hf Hd]. constructor; [exact Hs|exact Hf|].
    intros side. apply vr_state_delta; [done|]. apply vr_deserialize_shaped.
  - eexists _, None. split; [done|]. split; [|by split; intros [? ?]].
    unfold tel_callback. case_decide; [|done]. cbv zeta. destruct (tm_magic _ =? _); [|done].
    destruct (vr_deserialize_shaped (A := OpenArmTelemetryPacketV1) data) as (Ho & _).
    destruct Ha as [Hs Hf Hd]. constructor; [exact Hs| |exact Hd].
    intros []; cbn [vr_fb with_feedback va_fb_r va_fb_l]; apply length_floats; rewrite length_take, ?length_drop, Ho; done.
  - eexists _, None. split; [done|]. split; [|by split; intros [? ?]].
    destruct Ha as [Hs Hf Hd]. constructor; [exact Hs|exact Hf|exact Hd].
  - destruct (va_keep_running a).
    + destruct (vr_cycle_ok i a He Ha) as (a' & o & -> & Ha'). simpl. eexists _, _. split; [done|]. by split.
    + eexists _, None. split; [done|]. split; [done|]. by split; intros [? ?].
Qed.

Lemma vr_run_ok l a :
  vr_env_ok env ve ge -> vr_ok env a ->
  exists a' os, vr_run env la ve ge pow l a = Ok (a', os) /\ vr_ok env a'.
Proof.
  intros He. revert a. induction l as [|e l IH]; intros a Ha; simpl; [by eexists _, _|].
  destruct (vr_event_ok e a He Ha) as (a1 & o & -> & Ha1 & _). cbn [mbind outcome_bind].
  destruct (IH a1 Ha1) as (a2 & os & -> & Ha2). cbn [mbind outcome_bind]. by eexists _, _.
Qed.

(** The start-up establishes the invariant. *)
Lemma vr_side_new_ok side ee n x s :
  vr_side_new env (vr_pin env side) ee n x = Ok s -> joints_ok (vr_pin env side) (ik_joint_ids (vr_ik s)) ->
  vr_side_ok (vr_pin env side) s.
Proof.
  unfold vr_side_new. intros (k & Hk & [= <-])%bind_ok Hj. constructor; try done. cbn [vr_ik] in *.
  revert Hk. unfold ik_new. destruct (pin_frame_id _ _); [|done]. intros (js & Hjs & [= <-])%bind_ok.
  by apply ik_joints_length in Hjs.
Qed.

Lemma vr_new_ok a :
  vr_new env = Ok a -> (forall side, joints_ok (vr_pin env side) (ik_joint_ids (vr_ik (vr_side side a)))) -> vr_ok env a.
Proof.
  unfold vr_new. intros (r & Hr & (l & Hl & [= <-])%bind_ok)%bind_ok Hj. constructor; [|by intros []..].
  intros [].
  - eapply (vr_side_new_ok RIGHT); [exact Hr|exact (Hj RIGHT)].
  - eapply (vr_side_new_ok LEFT); [exact Hl|exact (Hj LEFT)].
Qed.
End total.

(** ** Property *)

(** The VR leader never fails once it has started. From the state its
    constructors build, any sequence of VR datagrams, telemetry datagrams (of
    any size and content), signals and cycles runs to the end: no exception, no
    access out of range, and every cycle while the program runs sends its two
    packets; all poses and targets keep their dimensions. *)
Lemma vr_run_total (env : VrEnv) (la : EigenOps) (ve : EigenVec) (ge : EigenGeometry)
    (pow : double -> double -> double) (a : VrApp) (l : list VrEvent) :
  vr_env_ok env ve ge -> vr_new env = Ok a ->
  (forall side, joints_ok (vr_pin env side) (ik_joint_ids (vr_ik (vr_side side a)))) ->
  exists a' os, vr_run env la ve ge pow l a = Ok (a', os) /\ vr_ok env a' /\
    forall i, va_keep_running a' = true -> exists a'' o, vr_event env la ve ge pow (EvVrCycle i) a' = Ok (a'', Some o).
Proof.
  intros He Hn Hj. destruct (vr_run_ok env la ve ge pow l a He (vr_new_ok env a Hn Hj)) as (a' & os & Hr & Ha).
  exists a', os. split; [done|]. split; [done|]. intros i Hk.
  destruct (vr_event_ok env la ve ge pow (EvVrCycle i) a' He Ha) as (a'' & o & Ho & _ & [_ Hs]).
  destruct (Hs (conj eq_refl Hk)) as [o' ->]. by exists a'', o'.
Qed.

Lemma test_vr_env_ok : vr_env_ok test_vr_env test_vr_ve test_geometry.
Proof.
  assert (Hm : forall s, model_ok (test_vr_pin s)).
  { intros s. split; [done|]. split; [done|]. split; [|done]. intros i lo up Hlo Hup.
    apply lookup_replicate in Hlo as [-> _]. apply lookup_replicate in Hup as [-> _]. done. }
  constructor; [intros []; apply Hm|by intros []|done| |by intros []; vm_compute; lia].
  intros m v _ Hv. change (length (zip_with dmul [d1; d1; d1] v) = 3%nat). rewrite length_zip_with, Hv. done.
Qed.

Lemma vr_run_total_witness :
  exists a a' os, vr_new test_vr_env = Ok a /\
    vr_run test_vr_env test_la test_vr_ve test_geometry (fun x _ => x)
      [EvVr 7 (serialize test_vr_packet); EvTelemetry 8 [1; 2; 3]; EvVrCycle test_vr_input; EvSigint] a = Ok (a', os) /\
    vr_ok test_vr_env a'.
Proof.
  assert (H : exists a, vr_new test_vr_env = Ok a /\
    forall side, ik_joint_ids (vr_ik (vr_side side a)) = seq 0 7).
  { eexists. split; [vm_compute; reflexivity|]. intros []; reflexivity. }
  destruct H as (a & Ha & Hids). exists a.
  destruct (vr_run_total test_vr_env test_la test_vr_ve test_geometry (fun x _ => x) a
    [EvVr 7 (serialize test_vr_packet); EvTelemetry 8 [1; 2; 3]; EvVrCycle test_vr_input; EvSigint]
    test_vr_env_ok Ha) as (a' & os & Hr & Hok & _).
  - intros side. rewrite Hids. split; [|destruct side; repeat constructor].
    destruct side; apply (bool_decide_unpack _); vm_compute; exact I.
  - exists a', os. split; [exact Ha|]. split; [exact Hr|exact Hok].
Defined.
