(* ===== verification/VrThreads.v ===== *)
(** * VrThreads: the VR leader's threads, access by access

    [src/src/apps/wifi_vr_bimanual_leader.cpp] again, at the granularity of its shared
    accesses: the loop, the two receivers and the signal handler as programs
    (Threads) whose steps are the critical sections of [vr_mutex] and [tel_mutex], the
    accesses to [keep_running] and the sends. [tel_connected] is written under
    [tel_mutex] but the loop also reads it without; those reads are steps of their own,
    so that a receiver can run between any two of them. Targets, anchors, solvers and
    the packet counter belong to the loop. *)

From S2P Require Import Prelude Float64 Crc32 Wire Packets PacketCodec Dynamics Swivel Ik VrConfig VrLeader VrFacts Threads.

Open Scope Z_scope.

(** What the threads do to the outside, and the writes of [keep_running]. *)
Inductive VLabel :=
| VSend (side : ArmSide) (p : TeleopPacket)
| VForward (data : list Z)                                 (* to the viewer *)
| VStop.

Abbreviation VProg := (Prog VrApp VLabel).
Abbreviation VThread := (Thread VrApp VLabel).

(** ** Single accesses *)

(** The state of an arm, the loop's own. *)
Definition set_side (side : ArmSide) (s : VrSide) (a : VrApp) : VrApp :=
  mkVrApp (va_vr_state a) (va_vr_connected a) (va_last_vr_time a) (va_fb_r a) (va_fb_l a) (va_last_tel_time a)
    (va_tel_connected a)
    (match side with RIGHT => s | LEFT => va_right a end) (match side with RIGHT => va_left a | LEFT => s end)
    (va_seq a) (va_keep_running a).

Definition set_seq (n : Z) (a : VrApp) : VrApp :=
  mkVrApp (va_vr_state a) (va_vr_connected a) (va_last_vr_time a) (va_fb_r a) (va_fb_l a) (va_last_tel_time a)
    (va_tel_connected a) (va_right a) (va_left a) n (va_keep_running a).

Definition stop_prog : VProg unit := Act (fun a => Ok (stop_running a, [VStop], tt)) Done.

Section vr.
Context (env : VrEnv) (la : EigenOps) (ve : EigenVec) (ge : EigenGeometry) (pow : double -> double -> double).

(** The critical section of [tel_mutex]: feedback, staleness, anchors. *)
Definition snapshot_prog (now : Z) : VProg (list double * list double * bool) :=
  Act (fun a =>
    Ok (if anchor_reset env now a
        then set_side LEFT (deactivate (va_left a)) (set_side RIGHT (deactivate (va_right a)) a) else a,
        [], (va_fb_r a, va_fb_l a, telemetry_stale env now a))) Done.

(** [process_arm_logic]: [tel_connected] is read unless the telemetry is stale. *)
Definition hand_prog (side : ArmSide) (vr : VrState) (stale : bool) (fb : list double) : VProg bool :=
  connected ← (if stale then mret false else load va_tel_connected);
  Act (fun a =>
    '(s, ok) ← process_arm env la ve ge pow side vr stale connected fb (vr_side side a);
    Ok (set_side side s a, [], ok)) Done.

(** [send_pkt]: [tel_connected] is read again when the grip is held. *)
Definition arm_packet_prog (side : ArmSide) (vr : VrState) (stale : bool) (sys_now : Z) : VProg TeleopPacket :=
  let arm_enabled := held (vr_arm_of side vr) in
  connected ← (if arm_enabled then load va_tel_connected else mret false);
  Act (fun a =>
    let s := vr_side side a in
    p ← vr_packet side (va_seq a) (target_q s) (target_grip s) (arm_enable env arm_enabled connected (vs_estop vr) stale);
    let p := teleop_encode sys_now p in
    Ok (a, [VSend side p], p)) Done.

(** One iteration. *)
Definition vr_prog (i : VrInput) : VProg VrOutput :=
  vr ← load va_vr_state;
  '(fb_r, fb_l, stale) ← snapshot_prog (vi_now i);
  ok_r ← hand_prog RIGHT vr stale fb_r;
  ok_l ← hand_prog LEFT vr stale fb_l;
  pr ← arm_packet_prog RIGHT vr stale (vi_sys_r i);
  pl ← arm_packet_prog LEFT vr stale (vi_sys_l i);
  _ ← store (fun a => set_seq (u32 (va_seq a + 1)) a);
  _ ← (if test_over env (vi_now_end i) then stop_prog else mret tt);
  mret (mkVrOutput pr pl ok_r ok_l).

(** [while (keep_running)]. *)
Definition vr_loop_prog (i : VrInput) : VProg unit :=
  go ← load va_keep_running;
  if (go : bool) then _ ← vr_prog i; mret tt else mret tt.

(** ** The other threads *)

(** The callback of [vr_receiver]: one critical section of [vr_mutex], the
    forwarding included. *)
Definition vr_receive_prog (now : Z) (data : list Z) : VProg unit :=
  Act (fun a =>
    let '(a', fwd) := vr_callback env la ve ge now data a in
    Ok (a', match fwd with Some d => [VForward d] | None => [] end, tt)) Done.

(** The callback of [tel_receiver]: one critical section of [tel_mutex]. *)
Definition tel_receive_prog (now : Z) (data : list Z) : VProg unit := store (tel_callback now data).

(** ** The program's threads *)

(** The loop, the two receivers, the signal handler. *)
Definition vr_thread : nat := 1.
Definition tel_thread : nat := 2.
Definition sigint_thread : nat := 3.

Definition vr_pool : list VThread := replicate 4 idle.

Definition vr_begin (e : VrEvent) (a : VrApp) (ts : list VThread) : option (VrApp * list VThread) :=
  match e with
  | EvVrCycle i => give main_thread (vr_loop_prog i) a ts
  | EvVr now data => give vr_thread (vr_receive_prog now data) a ts
  | EvTelemetry now data => give tel_thread (tel_receive_prog now data) a ts
  | EvSigint => give sigint_thread stop_prog a ts
  end.

Definition vr_exec : list (Choice VrEvent) -> Sys VrApp VLabel -> outcome (Sys VrApp VLabel * list VLabel) :=
  sys_exec vr_begin.
End vr.
