(* ===== verification/VrInterleavings.v ===== *)
(** * The VR leader's threads under every schedule

    For arbitrary interleavings of [VrThreads]: no access fails; the packets of an arm
    are numbered one after the other, and an enabled one is a limited step away from
    the one before it; and after the program has been told to stop, each arm gets at
    most one more packet. *)

From S2P Require Import Prelude Float64 Float64Facts Crc32 Wire Packets PacketCodec Dynamics Swivel Ik IkFacts.
From S2P Require Import VrConfig VrLeader VrFacts VrTotal Threads VrThreads.

Open Scope Z_scope.

Abbreviation VConfig := (Config VrApp VLabel).

(** ** Traces *)

(** The packets of an arm. *)
Definition sends (side : ArmSide) (tr : list VLabel) : list TeleopPacket :=
  omap (fun l => match l with VSend s p => if decide (s = side) then Some p else None | _ => None end) tr.

Definition not_send (l : VLabel) : bool := match l with VSend _ _ => false | _ => true end.

Abbreviation quiet := (Forall (fun l : VLabel => not_send l = true)).

Lemma sends_app side l l' : sends side (l ++ l') = sends side l ++ sends side l'.
Proof. apply omap_app. Qed.

Lemma sends_quiet side l : quiet l -> sends side l = [].
Proof. induction 1 as [|x l Hx Hl IH]; [done|]. cbn. by destruct x. Qed.

Lemma sends_one side sd p : sends side [VSend sd p] = if decide (sd = side) then [p] else [].
Proof. cbn. by destruct (decide (sd = side)). Qed.

(** No packet since the program was told to stop, and at most one. *)
Definition no_late (side : ArmSide) (tr : list VLabel) : Prop :=
  forall l1 l2, tr = l1 ++ VStop :: l2 -> sends side l2 = [].
Definition one_late (side : ArmSide) (tr : list VLabel) : Prop :=
  forall l1 l2, tr = l1 ++ VStop :: l2 -> (length (sends side l2) <= 1)%nat.

Lemma no_late_one side tr : no_late side tr -> one_late side tr.
Proof. intros H l1 l2 E. rewrite (H l1 l2 E). simpl. lia. Qed.

(** Where a stop in an extended trace is. *)
Lemma stop_split tr l l1 l2 :
  tr ++ l = l1 ++ VStop :: l2 ->
  (exists k, tr = l1 ++ VStop :: k /\ l2 = k ++ l) \/ (exists k, l = k ++ VStop :: l2).
Proof.
  intros E. apply app_eq_inv in E as [(k & -> & Hk)|(k & -> & ->)]; [|right; by exists k].
  destruct k as [|x k]; simplify_eq/=; [|left; by exists k]. right. by exists [].
Qed.

Lemma late_quiet side tr l :
  quiet l -> (no_late side tr -> no_late side (tr ++ l)) /\ (one_late side tr -> one_late side (tr ++ l)).
Proof.
  intros Hl.
  assert (H : forall l1 l2, tr ++ l = l1 ++ VStop :: l2 -> sends side l2 = [] \/ exists k, tr = l1 ++ VStop :: k /\ sends side l2 = sends side k).
  { intros l1 l2 [(k & -> & ->)|(k & ->)]%stop_split.
    - right. exists k. by rewrite sends_app, (sends_quiet side l Hl), app_nil_r.
    - left. apply sends_quiet. by apply Forall_app in Hl as [_ [_ ?]%Forall_cons_1]. }
  split; intros Ht l1 l2 [->|(k & E & ->)]%H; [done|by eapply Ht|simpl; lia|by eapply Ht].
Qed.

Lemma late_send side sd p tr : no_late side tr -> one_late side (tr ++ [VSend sd p]).
Proof.
  intros Ht l1 l2 [(k & E & ->)|(k & E)]%stop_split.
  - rewrite sends_app, (Ht l1 k E), sends_one. by destruct (decide (sd = side)); simpl; lia.
  - destruct k as [|? [|? ?]]; discriminate E.
Qed.

Lemma late_other side sd p tr : sd <> side -> no_late side tr -> no_late side (tr ++ [VSend sd p]).
Proof.
  intros Hs Ht l1 l2 [(k & E & ->)|(k & E)]%stop_split.
  - by rewrite sends_app, (Ht l1 k E), sends_one, decide_False.
  - destruct k as [|? [|? ?]]; discriminate E.
Qed.

(** ** Consecutive packets *)

Section chain.
Context {A : Type} (R : A -> A -> Prop).

(** Neighbours are related. *)
Definition chain (l : list A) : Prop := forall j x y, l !! j = Some x -> l !! S j = Some y -> R x y.

Lemma chain_snoc l y : chain l -> (forall x, last l = Some x -> R x y) -> chain (l ++ [y]).
Proof.
  intros Hl Hy j u v Hu Hv. apply lookup_app_Some in Hv as [Hv|[Hj Hv]].
  - apply (Hl j); [|done]. rewrite lookup_app_l in Hu; [done|]. apply lookup_lt_Some in Hv. lia.
  - apply list_lookup_singleton_Some in Hv as [Hj0 <-]. apply Hy. rewrite lookup_app_l in Hu.
    + rewrite last_lookup. by replace (pred (length l)) with j by lia.
    + apply lookup_lt_Some in Hu. rewrite length_app in Hu. simpl in Hu. lia.
Qed.
End chain.

Section vr.
Context (env : VrEnv) (la : EigenOps) (ve : EigenVec) (ge : EigenGeometry) (pow : double -> double -> double).

(** The joints [q] of an arm in a packet. *)
Definition shows (q : list double) (p : TeleopPacket) : Prop :=
  length q = 7%nat /\ tp_arm_pos p = map bits_of_double q ++ [0].

(** Each joint of [q'] is a number, and the one of [q] or a limited step away. *)
Definition vr_near (side : ArmSide) (q q' : list double) : Prop :=
  forall j t t', q !! j = Some t -> q' !! j = Some t' ->
    is_nan t' = false /\
    (t' = t \/ exists m d, max_steps env side !! j = Some m /\ t' = (t + d)%D /\ dleb (dopp m) d = true /\ dleb d m = true).

(** What a packet [p'] is after [p]. *)
Definition vr_follows (side : ArmSide) (p p' : TeleopPacket) : Prop :=
  tp_seq p' = u32 (tp_seq p + 1) /\
  (tp_enable p' = 1 -> exists q q', shows q p /\ shows q' p' /\ vr_near side q q').

(** ** Where the loop is with an arm *)

(** Between iterations, before the arm's logic, before its packet (with or without
    leave to enable it), after its packet. *)
Inductive Phase := PIdle | PReady | PMoved (leave : bool) | PSent.

(** Targets [q'] that an enabled packet may show after [q]. *)
Definition moved_from (side : ArmSide) (q q' : list double) : Prop :=
  q' = q \/ steps_within env side q q'.

Definition phase_ok (ph : Phase) (side : ArmSide) (y : VConfig) : Prop :=
  let q' := target_q (vr_side side y.1) in
  one_late side y.2 /\
  (match ph with PReady | PMoved _ => no_late side y.2 | _ => True end) /\
  forall p, last (sends side y.2) = Some p ->
    match ph with
    | PIdle | PReady => va_seq y.1 = u32 (tp_seq p + 1) /\ shows q' p
    | PMoved leave => va_seq y.1 = u32 (tp_seq p + 1) /\ exists q, shows q p /\ (leave = true -> moved_from side q q')
    | PSent => va_seq y.1 = tp_seq p /\ shows q' p
    end.

(** ** Interference *)

(** Invariant of the trace. *)
Record VInv (y : VConfig) : Prop := {
  vi_stopped : VStop ∈ y.2 -> va_keep_running y.1 = false;
  vi_late side : one_late side y.2;
  vi_chain side : chain (vr_follows side) (sends side y.2);
}.

(** The loop's assertion: [ph] says where it is. *)
Definition at_ (ph : ArmSide -> Phase) (y : VConfig) : Prop :=
  VInv y /\ vr_ok env y.1 /\ forall side, phase_ok (ph side) side y.

(** What the other threads may do: they send nothing to the robot and leave the
    loop's variables alone. *)
Definition others (y z : VConfig) : Prop :=
  (exists l, z.2 = y.2 ++ l /\ quiet l) /\ va_right z.1 = va_right y.1 /\ va_left z.1 = va_left y.1 /\
  va_seq z.1 = va_seq y.1 /\ (vr_ok env y.1 -> vr_ok env z.1) /\ (VInv y -> VInv z).

Definition vr_rely (k : nat) : VConfig -> VConfig -> Prop :=
  match k with 0%nat => others | _ => fun _ _ => True end.
Definition vr_guarantee (k : nat) : VConfig -> VConfig -> Prop :=
  match k with 0%nat => fun y z => VInv y -> VInv z | _ => others end.

Lemma others_refl y : others y y.
Proof. split; [|done]. exists []. by rewrite app_nil_r. Qed.

Lemma others_trans x y z : others x y -> others y z -> others x z.
Proof.
  intros ((l1 & E1 & Q1) & A1 & B1 & C1 & D1 & I1) ((l2 & E2 & Q2) & A2 & B2 & C2 & D2 & I2).
  split; [exists (l1 ++ l2); by rewrite E2, E1, app_assoc, Forall_app|]. split_and!; [congruence..|auto|auto].
Qed.

Lemma vr_rely_refl k y : vr_rely k y y.
Proof. destruct k; [apply others_refl|done]. Qed.

Lemma vr_rely_trans k x y z : vr_rely k x y -> vr_rely k y z -> vr_rely k x z.
Proof. destruct k; [apply others_trans|done]. Qed.

Lemma vr_guarantee_rely j k y z : j <> k -> vr_guarantee j y z -> vr_rely k y z.
Proof. by destruct j, k. Qed.

Lemma vr_guarantee_inv k y z : vr_guarantee k y z -> VInv y -> VInv z.
Proof. destruct k; [done|]. by intros (_ & _ & _ & _ & _ & H). Qed.

(** ** Phases *)

(** The trace and the variables of the loop decide a phase. *)
Lemma phase_quiet ph side y s l :
  quiet l -> target_q (vr_side side s) = target_q (vr_side side y.1) -> va_seq s = va_seq y.1 ->
  phase_ok ph side y -> phase_ok ph side (extend y s l).
Proof.
  intros Q Es En (H1 & H2 & H3). destruct (late_quiet side y.2 l Q) as [Hn Ho].
  unfold phase_ok, extend. cbn [fst snd]. rewrite Es, En, sends_app, (sends_quiet side l Q), app_nil_r.
  split; [by apply Ho|]. split; [destruct ph; auto|]. exact H3.
Qed.

Lemma at_stable ph y z : others y z -> at_ ph y -> at_ ph z.
Proof.
  intros ((l & E & Q) & A & B & C & D & I) (Hi & Hv & Hp). split_and!; [auto|auto|]. intros side.
  assert (Hz : z = extend y z.1 l) by (destruct z; unfold extend; cbn in *; congruence).
  rewrite Hz. apply phase_quiet; [done| |done|done]. destruct side; cbn [vr_side]; congruence.
Qed.

(** The packet of the other arm. *)
Lemma phase_other ph side sd p y :
  sd <> side -> phase_ok ph side y -> phase_ok ph side (extend y y.1 [VSend sd p]).
Proof.
  intros Hs (H1 & H2 & H3). unfold phase_ok, extend. cbn [fst snd].
  rewrite sends_app, sends_one, decide_False, app_nil_r by done. split_and!; [|destruct ph; auto using late_other|done].
  intros l1 l2 [(k & E & ->)|(k & E)]%stop_split.
  - rewrite sends_app, sends_one, decide_False, app_nil_r by done. by eapply H1.
  - destruct k as [|? [|? ?]]; discriminate E.
Qed.

(** Extending the trace without packets. *)
Lemma at_quiet ph ph' y s l :
  quiet l -> (VStop ∈ y.2 ++ l -> va_keep_running s = false) -> vr_ok env s ->
  (forall side, phase_ok (ph side) side y -> phase_ok (ph' side) side (extend y s l)) ->
  at_ ph y -> at_ ph' (extend y s l).
Proof.
  intros Hl Hs Hv Hp ([H1 H2 H3] & _ & Hy). split; [|auto]. unfold extend. split; cbn [fst snd].
  - exact Hs.
  - intros side. by apply late_quiet.
  - intros side. by rewrite sends_app, (sends_quiet side l Hl), app_nil_r.
Qed.

(** A step without labels that leaves [keep_running] alone. *)
Lemma at_silent ph ph' y s :
  va_keep_running s = va_keep_running y.1 -> vr_ok env s ->
  (forall side, phase_ok (ph side) side y -> phase_ok (ph' side) side (extend y s [])) ->
  at_ ph y -> at_ ph' (extend y s []).
Proof.
  intros Hk Hv Hp Hy. apply (at_quiet ph); [done| |done|done|done]. rewrite app_nil_r, Hk. apply Hy.
Qed.

(** *** Steps of the loop *)

Abbreviation mwp := (wp no_failure (vr_rely 0) (vr_guarantee 0)).
Abbreviation mwp_bind := (wp_bind no_failure (vr_rely 0) (vr_guarantee 0)).

Lemma main_act {A} (f : VrApp -> outcome (VrApp * list VLabel * A)) (Phi : A -> Prop) ph (ph' : A -> ArmSide -> Phase) y :
  (forall z, at_ ph z -> exists s l x, f z.1 = Ok (s, l, x) /\ Phi x /\ at_ (ph' x) (extend z s l)) ->
  at_ ph y -> mwp (Act f Done) (fun x z => Phi x /\ at_ (ph' x) z) y.
Proof.
  intros Hf Hy z Hz. assert (Hm : at_ ph z) by by eapply at_stable.
  destruct (Hf z Hm) as (s & l & x & -> & Hx & Ha). split; [by intros _; apply Ha|].
  intros w Hw. split; [done|]. by eapply at_stable.
Qed.

Lemma main_ret {A} (x : A) (Q : A -> VConfig -> Prop) ph y :
  at_ ph y -> (forall z, at_ ph z -> Q x z) -> mwp (mret x : VProg A) Q y.
Proof. intros Hy HQ z Hz. apply HQ. by eapply at_stable. Qed.

Lemma main_load {A} (f : VrApp -> A) (Phi : A -> Prop) ph y :
  (forall a, vr_ok env a -> Phi (f a)) -> at_ ph y -> mwp (load f) (fun x z => Phi x /\ at_ ph z) y.
Proof.
  intros Hf. apply (main_act _ Phi ph (fun _ => ph)). intros z Hz. do 3 eexists. split; [done|].
  split; [by apply Hf, Hz|]. apply (at_silent ph); [done|by apply Hz| |done]. intros side. by apply phase_quiet.
Qed.

Lemma main_mono {A} (p : VProg A) (Q Q' : A -> VConfig -> Prop) y :
  mwp p Q y -> (forall x z, Q x z -> Q' x z) -> mwp p Q' y.
Proof. intros Hp HQ. by eapply wp_mono. Qed.

(** A load under a condition. *)
Lemma main_load_if {A} (b : bool) (d : A) (f : VrApp -> A) ph y :
  at_ ph y -> mwp (if b then load f else mret d) (fun _ => at_ ph) y.
Proof.
  intros Hy. destruct b.
  - eapply main_mono; [by apply (main_load f (fun _ => True))|]. by intros x z [_ Hz].
  - by eapply main_ret.
Qed.

(** ** The loop *)

Context (He : vr_env_ok env ve ge) (Hrl : rl_enabled (vc_rate_limit (ve_cfg env)) = true).
Context (Hfnn : forall side, Forall fnn (max_steps env side)).

(** A headset state of the right shape. *)
Definition vr_shape (v : VrState) : Prop := forall side, length (vs_delta_pos_robot (vr_arm_of side v)) = 3%nat.

Definition upd (side : ArmSide) (p : Phase) (ph : ArmSide -> Phase) (sd : ArmSide) : Phase :=
  if decide (sd = side) then p else ph sd.

Lemma vr_side_set side sd s a : vr_side sd (set_side side s a) = if decide (sd = side) then s else vr_side sd a.
Proof. by destruct side, sd. Qed.

Lemma set_side_ok side s a : vr_ok env a -> vr_side_ok (vr_pin env side) s -> vr_ok env (set_side side s a).
Proof.
  intros [Hs Hf Hd] H. constructor; [|exact Hf|exact Hd]. intros sd. rewrite vr_side_set.
  by destruct (decide (sd = side)) as [->|].
Qed.

Lemma snapshot_ok now ph y :
  at_ ph y ->
  mwp (snapshot_prog env now)
    (fun x z => (length x.1.1 = 7%nat /\ length x.1.2 = 7%nat) /\ at_ ph z) y.
Proof.
  apply (main_act _ (fun x => length x.1.1 = 7%nat /\ length x.1.2 = 7%nat) ph (fun _ => ph)). intros z Hz.
  do 3 eexists. split; [done|]. pose proof Hz as (_ & Hv & _). split.
  { split; [exact (vo_fb env _ Hv RIGHT)|exact (vo_fb env _ Hv LEFT)]. }
  destruct (anchor_reset env now z.1).
  - apply (at_silent ph); [done| | |done].
    + apply set_side_ok; [apply set_side_ok; [done|]|]; apply deactivate_ok;
        [exact (vo_side env _ Hv RIGHT)|exact (vo_side env _ Hv LEFT)].
    + intros side. apply phase_quiet; [done| |done]. by destruct side.
  - apply (at_silent ph); [done|done| |done]. intros side. by apply phase_quiet.
Qed.

(** Leave to enable the packet of an arm. *)
Definition leave (side : ArmSide) (vr : VrState) (stale : bool) : bool := held (vr_arm_of side vr) && negb stale.

(** The targets after an arm's logic. *)
Lemma process_arm_moved side vr stale conn fb s s' ok :
  process_arm env la ve ge pow side vr stale conn fb s = Ok (s', ok) ->
  leave side vr stale = true -> moved_from side (target_q s) (target_q s').
Proof using Hrl Hfnn.
  intros Hp%process_arm_inv [Hh Hs%negb_true_iff]%andb_prop. unfold moved_from.
  destruct Hp as [(Hst & _)|(_ & _ & [(E & _ & _ & Hq)|(_ & Hq)])]; [congruence| |].
  - rewrite Hh in E. rewrite Hq. cbn [andb] in E. rewrite E. by left.
  - destruct Hq as [[_ Hq]|[_ [x Hq]]]; [by left|right]. apply limit_joints_ok in Hq as (_ & _ & _ & Hq). by apply Hq.
Qed.

Lemma hand_ok side vr stale fb ph y :
  length fb = 7%nat -> vr_shape vr -> ph side = PReady -> at_ ph y ->
  mwp (hand_prog env la ve ge pow side vr stale fb) (fun _ => at_ (upd side (PMoved (leave side vr stale)) ph)) y.
Proof using He Hrl Hfnn.
  intros Hfb Hvr Hph Hy. unfold hand_prog. apply mwp_bind; [apply others_refl|].
  assert (Hl : mwp (if stale then mret false else load va_tel_connected) (fun _ => at_ ph) y).
  { destruct stale; [by eapply main_ret|by apply (main_load_if true false)]. }
  eapply main_mono; [exact Hl|]. intros conn y1 Hy1. set (ph' := upd side _ ph).
  eapply main_mono; [apply (main_act _ (fun _ => True) ph (fun _ => ph') y1); [|done]|by intros x z [_ Hz]].
  intros z Hz. pose proof Hz as (_ & Hv & _).
  destruct (process_arm_ok env la ve ge pow side vr stale conn fb (vr_side side z.1) He (vo_side env _ Hv side) Hfb (Hvr side))
    as (s' & ok & E & Hs'). rewrite E. do 3 eexists. split; [done|]. split; [done|].
  apply (at_silent ph); [done|by apply set_side_ok| |done]. intros sd. unfold ph', upd.
  destruct (decide (sd = side)) as [->|Hne].
  - rewrite Hph. intros (H1 & H2 & H3). unfold phase_ok, extend. cbn [fst snd]. rewrite app_nil_r, vr_side_set, decide_True by done.
    split_and!; [done|done|]. intros p Hp. destruct (H3 p Hp) as [Hseq Hsh]. split; [done|].
    exists (target_q (vr_side side z.1)). split; [done|]. by apply process_arm_moved with (1 := E).
  - apply phase_quiet; [done| |done]. by rewrite vr_side_set, decide_False.
Qed.

(** A packet the arm's logic allows comes after the previous one. *)
Lemma packet_follows side vr stale conn sys_now seq q q' g p p' :
  vr_packet side seq q' g (arm_enable env (held (vr_arm_of side vr)) conn (vs_estop vr) stale) = Ok p' ->
  length q' = 7%nat -> seq = u32 (tp_seq p + 1) -> shows q p ->
  (leave side vr stale = true -> moved_from side q q') ->
  vr_follows side p (teleop_encode sys_now p').
Proof using Hrl Hfnn He.
  intros [_ Hp]%vr_packet_inv Hq' Hseq Hsh Hm. rewrite take_ge in Hp by lia. subst p'. split; [exact Hseq|].
  cbn [teleop_encode tp_enable]. destruct (has_nan q') eqn:Hn; [done|]. intros Hen.
  assert (Hl : leave side vr stale = true).
  { unfold leave. revert Hen. unfold arm_enable. destruct (ve_dry_run env); [done|].
    destruct (held _); [|done]. destruct stale; [by destruct conn, (vs_estop vr)|done]. }
  exists q, q'. split; [done|]. split; [by split|]. intros j t t' Ht Ht'.
  assert (Hnum : is_nan t' = false).
  { apply not_true_iff_false. intros H. apply not_true_iff_false in Hn. apply Hn. apply existsb_exists.
    exists t'. split; [|done]. by apply list_elem_of_In, (list_elem_of_lookup_2 _ j). }
  split; [done|]. destruct (Hm Hl) as [->|Hs]; [left; congruence|right].
  apply lookup_lt_Some in Ht' as Hj. rewrite Hq' in Hj.
  destruct (lookup_lt_is_Some_2 (max_steps env side) j) as [m Hmj]; [pose proof (eo_steps env ve ge He side); lia|].
  destruct (step_within_number m t t' (Hs j t t' m Ht Ht' Hmj) Hnum) as (d & Hd). by exists m, d.
Qed.

Lemma packet_ok side vr stale sys_now ph y :
  ph side = PMoved (leave side vr stale) -> at_ ph y ->
  mwp (arm_packet_prog env side vr stale sys_now) (fun _ => at_ (upd side PSent ph)) y.
Proof using He Hrl Hfnn.
  intros Hph Hy. unfold arm_packet_prog. cbv zeta. apply mwp_bind; [apply others_refl|].
  eapply main_mono; [by apply main_load_if|]. intros conn y1 Hy1. set (ph' := upd side _ ph).
  eapply main_mono; [apply (main_act _ (fun _ => True) ph (fun _ => ph') y1); [|done]|by intros x z [_ Hz]].
  intros z Hz. pose proof Hz as ([I1 I2 I3] & Hv & Hp).
  pose proof (so_target _ _ (vo_side env _ Hv side)) as Hq.
  destruct (vr_packet_ok side (va_seq z.1) (target_q (vr_side side z.1)) (target_grip (vr_side side z.1))
    (arm_enable env (held (vr_arm_of side vr)) conn (vs_estop vr) stale) Hq) as (p & E). rewrite E.
  do 3 eexists. split; [done|]. split; [done|].
  pose proof (Hp side) as Hps. rewrite Hph in Hps. destruct Hps as (L1 & L2 & L3).
  assert (Hsent : forall sd, phase_ok (ph' sd) sd (extend z z.1 [VSend side (teleop_encode sys_now p)])).
  { intros sd. unfold ph', upd. destruct (decide (sd = side)) as [->|Hne]; [|by apply phase_other].
    unfold phase_ok, extend. cbn [fst snd]. rewrite sends_app, sends_one, decide_True, last_snoc by done.
    split; [by apply late_send|]. split; [done|]. intros _ [= <-].
    apply vr_packet_inv in E as [_ ->]. rewrite take_ge by lia. by split. }
  split; [|by split]. unfold extend. split; cbn [fst snd].
  - rewrite elem_of_app, list_elem_of_singleton. intros [H|H]; [by apply I1|discriminate H].
  - intros sd. apply Hsent.
  - intros sd. rewrite sends_app, sends_one. destruct (decide (side = sd)) as [<-|]; [|by rewrite app_nil_r].
    apply chain_snoc; [done|]. intros p0 Hp0. destruct (L3 p0 Hp0) as (Hseq & q & Hsh & Hm).
    by eapply packet_follows.
Qed.

(** One iteration, from the check of [keep_running]. *)
Lemma iteration_ok i y :
  at_ (fun _ => PReady) y -> mwp (vr_prog env la ve ge pow i) (fun _ => at_ (fun _ => PIdle)) y.
Proof using He Hrl Hfnn.
  intros Hy. unfold vr_prog. apply mwp_bind; [apply others_refl|].
  eapply main_mono; [apply (main_load _ vr_shape _ _ (fun a Ha side => vo_delta env a Ha side) Hy)|].
  intros vr y1 [Hvr Hy1]. apply mwp_bind; [apply others_refl|].
  eapply main_mono; [by apply snapshot_ok|]. intros [[fb_r fb_l] stale] y2 [[Hr Hl] Hy2]. cbn [fst snd] in Hr, Hl.
  apply mwp_bind; [apply others_refl|]. eapply main_mono; [by apply hand_ok; [..|exact Hy2]|]. intros ok_r y3 Hy3.
  apply mwp_bind; [apply others_refl|]. eapply main_mono; [by apply hand_ok; [..|exact Hy3]|]. intros ok_l y4 Hy4.
  apply mwp_bind; [apply others_refl|]. eapply main_mono; [by apply packet_ok; [|exact Hy4]|]. intros pr y5 Hy5.
  apply mwp_bind; [apply others_refl|]. eapply main_mono; [by apply packet_ok; [|exact Hy5]|]. intros pl y6 Hy6.
  apply mwp_bind; [apply others_refl|].
  eapply main_mono; [eapply (main_act _ (fun _ => True) _ (fun _ _ => PIdle)); [|exact Hy6]|].
  { intros z Hz. do 3 eexists. split; [done|]. split; [done|]. eapply at_silent; [done|..|exact Hz].
    - destruct Hz as (_ & [Hs Hf Hd] & _). constructor; [exact Hs|exact Hf|exact Hd].
    - intros side (H1 & _ & H3). assert (Hph : phase_ok PSent side z) by by destruct side.
      destruct Hph as (_ & _ & H4). unfold phase_ok, extend. cbn [fst snd]. rewrite app_nil_r.
      split_and!; [done|done|]. intros p Hp. destruct (H4 p Hp) as [<- Hs]. split; [done|]. by destruct side. }
  intros [] y7 [_ Hy7]. apply mwp_bind; [apply others_refl|].
  apply (main_mono _ (fun _ => at_ (fun _ => PIdle))); [|intros [] y8 Hy8; by eapply main_ret].
  destruct (test_over env (vi_now_end i)); [|by eapply main_ret].
  eapply main_mono; [eapply (main_act _ (fun _ => True) _ (fun _ _ => PIdle)); [|exact Hy7]|by intros [] z [_ Hz]].
  intros z Hz. do 3 eexists. split; [done|]. split; [done|]. eapply at_quiet; [by repeat constructor|done|..|exact Hz].
  - destruct Hz as (_ & [Hs Hf Hd] & _). constructor; [exact Hs|exact Hf|exact Hd].
  - intros side. apply phase_quiet; [by repeat constructor| |done]. by destruct side.
Qed.

Lemma vr_loop_ok i y :
  at_ (fun _ => PIdle) y -> mwp (vr_loop_prog env la ve ge pow i) (fun _ => at_ (fun _ => PIdle)) y.
Proof using He Hrl Hfnn.
  intros Hy. unfold vr_loop_prog. apply mwp_bind; [apply others_refl|].
  eapply main_mono;
    [eapply (main_act _ (fun _ => True) _ (fun (go : bool) _ => if go then PReady else PIdle)); [|exact Hy]|].
  { intros z Hz. do 3 eexists. split; [done|]. split; [done|]. eapply at_silent; [done|by apply Hz| |exact Hz].
    intros side Hp. destruct (va_keep_running z.1) eqn:Ek; [|by apply phase_quiet].
    pose proof Hz as ([Hs _ _] & _). destruct Hp as (H1 & _ & H3). unfold phase_ok, extend. cbn [fst snd].
    rewrite app_nil_r. split_and!; [done| |done]. intros l1 l2 E. rewrite Hs in Ek; [discriminate Ek|].
    rewrite E, elem_of_app, elem_of_cons. auto. }
  intros [] y1 [_ Hy1]; [|by eapply main_ret]. apply mwp_bind; [apply others_refl|].
  eapply main_mono; [by apply iteration_ok|]. intros o y2 Hy2. by eapply main_ret; [exact Hy2|].
Qed.

(** ** The other threads *)

(** A step that the others may make. *)
Lemma other_step y s l :
  quiet l -> (va_keep_running y.1 = false -> va_keep_running s = false) -> (VStop ∈ l -> va_keep_running s = false) ->
  va_right s = va_right y.1 -> va_left s = va_left y.1 -> va_seq s = va_seq y.1 -> (vr_ok env y.1 -> vr_ok env s) ->
  others y (extend y s l).
Proof.
  intros Hl Hk Hstop A B C D. split_and!; try done; [by exists l|]. intros [H1 H2 H3]. unfold extend. split; cbn [fst snd].
  - rewrite elem_of_app. intros [H|H]; auto.
  - intros side. by apply late_quiet.
  - intros side. by rewrite sends_app, (sends_quiet side l Hl), app_nil_r.
Qed.

(** The receivers and the signal handler do what [VrLeader] says in one step. *)
Lemma callback_other e y s l :
  is_vr_cycle e = false -> vr_event env la ve ge pow e y.1 = Ok (s, None) -> quiet l ->
  (VStop ∈ l -> e = EvSigint) -> others y (extend y s l).
Proof using He.
  intros Hc Hev Hl Hs. destruct (vr_event_arms env la ve ge pow e y.1 s None Hc Hev) as (A & B & C).
  apply other_step; try done.
  - destruct e; [..|done]; injection Hev as <-; [| |done].
    + unfold vr_callback. case_decide; [done|]. cbn [fst]. by destruct (_ && _).
    + unfold tel_callback. case_decide; [|done]. by destruct (tm_magic _ =? _).
  - intros H. specialize (Hs H). subst e. by injection Hev as <-.
  - intros Hv. destruct (vr_event_ok env la ve ge pow e y.1 He Hv) as (a' & o & E & Hok & _). rewrite Hev in E. by injection E as <- _.
Qed.

Lemma other_thread k e (f : VrApp -> outcome (VrApp * list VLabel * unit)) y :
  is_vr_cycle e = false ->
  (forall a, exists s l, f a = Ok (s, l, tt) /\ vr_event env la ve ge pow e a = Ok (s, None) /\ quiet l /\
     (VStop ∈ l -> e = EvSigint)) ->
  thread_ok no_failure (vr_rely (S k)) (vr_guarantee (S k)) (anything (S k)) (Seq (Act f Done)) y.
Proof using He.
  intros Hc Hf z _. destruct (Hf z.1) as (s & l & -> & Hev & Hl & Hs). split; [by apply (callback_other e)|done].
Qed.

(** ** The pool *)

(** What the loop leaves behind when it has ended. *)
Definition left_by (k : nat) (y : VConfig) : Prop :=
  match k with 0%nat => at_ (fun _ => PIdle) y | _ => True end.

Abbreviation vr_pool_ok := (pool_ok 4 no_failure vr_rely vr_guarantee left_by).

Lemma vr_begin_ok e s tr ts s' ts' :
  True -> VInv (s, tr) -> vr_pool_ok (s, tr) ts -> vr_begin env la ve ge pow e s ts = Some (s', ts') ->
  VInv (s', tr) /\ vr_pool_ok (s', tr) ts'.
Proof using He Hrl Hfnn.
  intros _ HJ [Hlen Hp] Hb.
  assert (Hgive : forall k p, give k p s ts = Some (s', ts') ->
    (forall t, ts !! k = Some t -> is_idle t = true -> thread_ok no_failure (vr_rely k) (vr_guarantee k) (left_by k) (Seq p) (s, tr)) ->
    VInv (s', tr) /\ vr_pool_ok (s', tr) ts').
  { intros k p Hg Ht. destruct (give_idle k p s ts s' ts' Hg) as (t & Hk & Hi). apply give_inv in Hg as [-> ->].
    split; [done|]. split; [by rewrite length_insert|]. intros j u Hu.
    apply list_lookup_insert_Some in Hu as [(<- & <- & _)|[_ Hu]]; [by eapply Ht|by apply Hp]. }
  destruct e as [now data|now data| |i]; cbn [vr_begin] in Hb; apply Hgive in Hb; try done; intros t Hk Hi.
  - apply (other_thread 0 (EvVr now data)); [done|]. intros a. cbn [vr_event].
    destruct (vr_callback env la ve ge now data a) as [a' fwd]. do 2 eexists. split; [done|]. split; [done|].
    destruct fwd; (split; [by repeat constructor|]); [by intros [|[]%elem_of_nil]%elem_of_cons|by intros []%elem_of_nil].
  - apply (other_thread 1 (EvTelemetry now data)); [done|]. intros a. do 2 eexists. split; [done|]. split; [done|].
    split; [done|]. by intros []%elem_of_nil.
  - apply (other_thread 2 EvSigint); [done|]. intros a. do 2 eexists. split; [done|]. split; [done|].
    split; [by repeat constructor|done].
  - specialize (Hp 0%nat t Hk). destruct t as [[[]|]|]; try done. apply vr_loop_ok. apply (Hp _ (others_refl _)).
Qed.
End vr.

(** ** A concrete program *)

(** Telemetry with every joint at 0.5 rad, without a valid CRC. *)
Definition test_telemetry : list Z :=
  serialize (mkTelemetryPacket TELEMETRY_MAGIC 1 228 0 0 0 0 1 0 16 16 16 0 0 0 0 0
    (replicate 16 0x3F000000) (replicate 16 0) (replicate 16 0) 0).

Abbreviation test_exec := (vr_exec test_vr_env test_la test_vr_ve test_geometry (fun x _ => x)).

(** Two iterations; during the first a telemetry packet and a headset packet arrive,
    during the second a signal. *)
Definition vr_schedule : list (Choice VrEvent) :=
  Event (EvVrCycle test_vr_input) :: replicate 4 (Run 0 true)
  ++ [Event (EvTelemetry 5 test_telemetry); Event (EvVr 7 (serialize test_vr_packet)); Run 2 true; Run 1 true]
  ++ replicate 8 (Run 0 true)
  ++ Event (EvVrCycle test_vr_input) :: replicate 3 (Run 0 true) ++ [Event EvSigint; Run 3 true] ++ replicate 9 (Run 0 true).

Lemma test_steps_fnn side : Forall fnn (max_steps test_vr_env side).
Proof. destruct side; apply (bool_decide_unpack _); vm_compute; exact I. Qed.

Lemma test_vr_app_ok grip trigger : vr_ok test_vr_env (test_vr_app grip trigger).
Proof.
  constructor; [|by intros []..]. intros []; (constructor; try done);
    (split; [apply (bool_decide_unpack _); vm_compute; exact I|repeat constructor]).
Qed.

(** ** Property *)

(** C11: The VR leader under every interleaving. Whatever the order in which the loop,
    the two receivers and the signal handler run, down to single critical sections
    and atomic accesses, and whatever the datagrams: no access fails; the packets of
    an arm are numbered one after the other (modulo 2^32); when one of them is
    enabled, each of its joints is a number and is the joint of the packet before, or
    that plus a step of at most the joint's configured maximum; and once the program
    has been told to stop, each arm gets at most one more packet. *)
Theorem vr_any_interleaving (env : VrEnv) (la : EigenOps) (ve : EigenVec) (ge : EigenGeometry)
    (pow : double -> double -> double) (cs : list (Choice VrEvent)) (a : VrApp) :
  vr_env_ok env ve ge -> vr_ok env a ->
  rl_enabled (vc_rate_limit (ve_cfg env)) = true -> (forall side, Forall fnn (max_steps env side)) ->
  exists x tr, vr_exec env la ve ge pow cs (mkSys a vr_pool) = Ok (x, tr) /\
    forall side,
      chain (vr_follows env side) (sends side tr) /\
      (forall l1 l2, tr = l1 ++ VStop :: l2 -> (length (sends side l2) <= 1)%nat).
Proof.
  intros He Ha Hrl Hfnn. assert (Hnil : forall side, one_late side []) by (intros side [|? ?] ?; discriminate).
  assert (Hi : VInv env (a, [])) by (split; [by intros []%elem_of_nil|done|by intros side [|j] p p']).
  pose proof (sys_exec_ok (vr_begin env la ve ge pow) 4 no_failure (vr_rely env) (vr_guarantee env) (left_by env)
    (VInv env) (fun _ => True) (vr_rely_refl env) (vr_rely_trans env) (vr_guarantee_rely env) (vr_guarantee_inv env)) as H.
  specialize (H (vr_begin_ok env la ve ge pow He Hrl Hfnn) cs (mkSys a vr_pool) []).
  cbn [sy_state sy_threads] in H. unfold vr_exec.
  assert (Hp : pool_ok 4 no_failure (vr_rely env) (vr_guarantee env) (left_by env) (a, []) vr_pool).
  { split; [done|]. intros k t Hk. apply lookup_replicate in Hk as [-> Hk]. intros y Hy. destruct k as [|k]; [|done].
    apply (at_stable env _ (a, [])); [done|]. split_and!; [done|done|]. intros side. by split_and!. }
  assert (Hcs : Forall (good_choice (fun _ : VrEvent => True)) cs) by (apply Forall_true; by intros []).
  destruct (sys_exec _ cs _) as [[x tr]| |].
  - exists x, tr. split; [done|]. intros side. destruct H as [[_ H2 H3] _]; [exact Hcs|done|done|].
    split; [apply H3|apply H2].
  - destruct H as (? & ? & ? & ? & _ & _ & []); [exact Hcs|done|done].
  - destruct H as (? & ? & ? & ? & _ & _ & []); [exact Hcs|done|done].
Qed.

Lemma vr_any_interleaving_witness :
  exists x tr, test_exec vr_schedule (mkSys (test_vr_app d1 d0) vr_pool) = Ok (x, tr) /\
    map tp_enable (sends RIGHT tr) = [1; 1] /\ map tp_seq (sends LEFT tr) = [41; 42] /\ VStop ∈ tr /\
    chain (vr_follows test_vr_env RIGHT) (sends RIGHT tr).
Proof.
  destruct (vr_any_interleaving test_vr_env test_la test_vr_ve test_geometry (fun x _ => x) vr_schedule (test_vr_app d1 d0))
    as (x & tr & H & Hs).
  - exact test_vr_env_ok.
  - apply test_vr_app_ok.
  - reflexivity.
  - exact test_steps_fnn.
  - exists x, tr. split; [exact H|]. destruct (Hs RIGHT) as [Hc _].
    assert (Ht : match test_exec vr_schedule (mkSys (test_vr_app d1 d0) vr_pool) with
                 | Ok (_, tr) => bool_decide (map tp_enable (sends RIGHT tr) = [1; 1]) && bool_decide (map tp_seq (sends LEFT tr) = [41; 42])
                     && existsb (fun l => match l with VStop => true | _ => false end) tr
                 | _ => false
                 end = true) by (vm_compute; reflexivity).
    rewrite H in Ht. apply andb_prop in Ht as [[H1 H2]%andb_prop H3].
    apply bool_decide_eq_true in H1, H2. apply existsb_exists in H3 as (l & Hl & Hv). apply list_elem_of_In in Hl.
    destruct l; [discriminate Hv|discriminate Hv|]. split; [exact H1|]. split; [exact H2|]. split; [exact Hl|exact Hc].
Defined.

(** ** Following before the robot's posture is known *)

(** A hand that closes before the first telemetry packet: the targets still are the
    zeros they start with, and follow from there once the program is connected. Here
    the robot is at 0.5 rad; the second iteration sends an enabled packet with its
    joints near zero. *)
Lemma held_before_telemetry :
  match vr_new test_vr_env with
  | Ok a =>
      match vr_run test_vr_env test_la test_vr_ve test_geometry (fun x _ => x)
              [EvVr 7 (serialize test_vr_packet); EvVrCycle test_vr_input; EvTelemetry 8 test_telemetry;
               EvVrCycle test_vr_input] a with
      | Ok (a', [_; o]) =>
          tp_enable (vo_right o) = 1 /\ va_fb_r a' = replicate 7 (dlit 5 1) /\
          forallb (fun q => dabs q <=? dlit 35 3)%D (target_q (va_right a')) = true /\
          tp_arm_pos (vo_right o) = map bits_of_double (target_q (va_right a')) ++ [0]
      | _ => False
      end
  | _ => False
  end.
Proof. vm_compute. repeat constructor. Qed.

(** The first telemetry packet arrives between the snapshot of the feedback and the
    arm's logic: [tel_connected] is read without the lock, so the grip is anchored at
    the zeros the feedback starts with, and the packet is enabled with zeros. *)
Lemma anchored_at_zero :
  match vr_new test_vr_env with
  | Ok a =>
      match test_exec
              (Event (EvVr 7 (serialize test_vr_packet)) :: Run 1 true :: Event (EvVrCycle test_vr_input)
               :: replicate 3 (Run 0 true) ++ [Event (EvTelemetry 8 test_telemetry); Run 2 true] ++ replicate 9 (Run 0 true))
              (mkSys a vr_pool) with
      | Ok (x, tr) =>
          va_fb_r (sy_state x) = replicate 7 (dlit 5 1) /\
          anchor_active (vr_anchor (va_right (sy_state x))) = true /\
          robot_q_anchor (vr_anchor (va_right (sy_state x))) = replicate 7 d0 /\
          map tp_enable (sends RIGHT tr) = [1] /\ map tp_arm_pos (sends RIGHT tr) = [replicate 8 0]
      | _ => False
      end
  | _ => False
  end.
Proof. vm_compute. repeat constructor. Qed.
