(* ===== verification/VrAlone.v ===== *)
(** * The VR leader's threads without interruption

    Each program of [VrThreads], executed without interruption, does what [VrLeader]
    takes as one step; so every execution of [VrLeader] is an execution of the
    threads. *)

From S2P Require Import Prelude Float64 Crc32 Wire Packets PacketCodec Dynamics Swivel Ik VrConfig VrLeader VrFacts.
From S2P Require Import IkFacts VrTotal Threads VrThreads VrInterleavings.

Open Scope Z_scope.

(** The outputs. *)
Definition vvisible (l : VLabel) : bool := match l with VStop => false | _ => true end.
Definition is_send (l : VLabel) : bool := match l with VSend _ _ => true | _ => false end.

Abbreviation packets := (filter (fun l => is_send l = true)).
Abbreviation valone := (solo vvisible).

(** What an iteration sends. *)
Definition vr_emitted (o : VrOutput) : list VLabel := [VSend RIGHT (vo_right o); VSend LEFT (vo_left o)].

Section alone.
Context (env : VrEnv) (la : EigenOps) (ve : EigenVec) (ge : EigenGeometry) (pow : double -> double -> double).

Lemma hand_alone side vr stale fb a :
  valone (hand_prog env la ve ge pow side vr stale fb) a =
  '(s, ok) ← process_arm env la ve ge pow side vr stale (va_tel_connected a) fb (vr_side side a);
  Ok (set_side side s a, [], ok).
Proof.
  unfold hand_prog. destruct stale; [|rewrite alone_load, alone_act].
  - rewrite alone_bind, alone_ret. cbn [mbind outcome_bind]. by rewrite alone_act.
  - by destruct (process_arm _ _ _ _ _ _ _ _ _ _ _) as [[s ok]| |].
Qed.

Lemma packet_alone side vr stale sys_now a :
  valone (arm_packet_prog env side vr stale sys_now) a =
  p ← vr_packet side (va_seq a) (target_q (vr_side side a)) (target_grip (vr_side side a))
        (arm_enable env (held (vr_arm_of side vr)) (va_tel_connected a) (vs_estop vr) stale);
  Ok (a, [VSend side (teleop_encode sys_now p)], teleop_encode sys_now p).
Proof.
  unfold arm_packet_prog. cbv zeta. destruct (held (vr_arm_of side vr)); [rewrite alone_load, alone_act|].
  - by destruct (vr_packet _ _ _ _ _) as [p| |].
  - rewrite alone_bind, alone_ret. cbn [mbind outcome_bind]. rewrite alone_act.
    assert (Hd : forall c, arm_enable env false c (vs_estop vr) stale = false) by (intros c; unfold arm_enable; by destruct (ve_dry_run env)).
    rewrite !Hd. by destruct (vr_packet _ _ _ _ _) as [p| |].
Qed.

Lemma vr_cycle_alone i a :
  valone (vr_prog env la ve ge pow i) a =
  '(a', o) ← vr_cycle env la ve ge pow i a; Ok (a', vr_emitted o, o).
Proof.
  unfold vr_prog, vr_cycle. cbv zeta. rewrite alone_load. unfold snapshot_prog.
  rewrite alone_bind, alone_act. cbn [observed mbind outcome_bind].
  set (b := if anchor_reset env (vi_now i) a then _ else a).
  assert (Hside : forall side, vr_side side b = if anchor_reset env (vi_now i) a then deactivate (vr_side side a) else vr_side side a)
    by (intros []; unfold b; by destruct (anchor_reset env (vi_now i) a)).
  pose proof (Hside RIGHT) as Hr. pose proof (Hside LEFT) as Hl. cbn [vr_side] in Hr, Hl. rewrite <- Hr, <- Hl.
  assert (Hb : forall r l, set_side LEFT l (set_side RIGHT r b) = set_side LEFT l (set_side RIGHT r a))
    by (intros r l; unfold b; by destruct (anchor_reset env (vi_now i) a)).
  assert (Hc : va_tel_connected b = va_tel_connected a) by (unfold b; by destruct (anchor_reset env (vi_now i) a)).
  clearbody b. fold_bind. rewrite alone_bind, hand_alone. cbn [vr_side]. rewrite Hc.
  destruct (process_arm _ _ _ _ _ RIGHT _ _ _ _ _) as [[r okr]| |]; cbn [mbind outcome_bind]; [|done|done].
  fold_bind. rewrite alone_bind, hand_alone. cbn [vr_side]. change (va_tel_connected (set_side RIGHT r b)) with (va_tel_connected b).
  change (va_left (set_side RIGHT r b)) with (va_left b). rewrite Hc.
  destruct (process_arm _ _ _ _ _ LEFT _ _ _ _ _) as [[l okl]| |]; cbn [mbind outcome_bind]; [|done|done].
  rewrite Hb. set (c := set_side LEFT l _). fold_bind.
  rewrite alone_bind, packet_alone.
  change (target_q (vr_side RIGHT c)) with (target_q r). change (target_grip (vr_side RIGHT c)) with (target_grip r).
  change (va_seq c) with (va_seq a). change (va_tel_connected c) with (va_tel_connected a).
  destruct (vr_packet RIGHT _ _ _ _) as [pr| |]; cbn [mbind outcome_bind]; [|done|done]. fold_bind.
  rewrite alone_bind, packet_alone.
  change (target_q (vr_side LEFT c)) with (target_q l). change (target_grip (vr_side LEFT c)) with (target_grip l).
  change (va_seq c) with (va_seq a). change (va_tel_connected c) with (va_tel_connected a).
  destruct (vr_packet LEFT _ _ _ _) as [pl| |]; cbn [mbind outcome_bind]; [|done|done]. fold_bind.
  rewrite alone_store. change (va_seq c) with (va_seq a). rewrite alone_bind. unfold c.
  destruct (test_over env (vi_now_end i)).
  - unfold stop_prog. rewrite alone_act. cbn [observed mbind outcome_bind]. rewrite alone_ret.
    cbn [mbind outcome_bind negb]. by rewrite andb_false_r.
  - rewrite alone_ret. cbn [mbind outcome_bind]. rewrite alone_ret. cbn [mbind outcome_bind negb]. by rewrite andb_true_r.
Qed.

(** ** Executions of [VrLeader] are executions of the threads *)

Lemma vr_event_executes e a a' o ts :
  vr_event env la ve ge pow e a = Ok (a', o) -> ready 4 ts ->
  exists cs ls, vr_exec env la ve ge pow cs (mkSys a ts) = Ok (mkSys a' ts, ls) /\
    packets ls = match o with Some o => vr_emitted o | None => [] end.
Proof.
  intros He Hts.
  assert (Hgive : forall e k p vl, (k < 4)%nat -> vr_begin env la ve ge pow e a ts = give k p a ts ->
    valone p a = Ok (a', vl, tt) ->
    exists cs ls, vr_exec env la ve ge pow cs (mkSys a ts) = Ok (mkSys a' ts, ls) /\ packets ls = packets vl).
  { intros e' k p vl Hk Hb Hp. apply (alone_inv vvisible is_send) in Hp as (l & Hr & Hl); [|by intros []].
    destruct (exec_give (vr_begin env la ve ge pow) 4 e' k p a a' l ts Hts Hk Hb Hr) as [cs Hcs]. by exists cs, l. }
  destruct e as [now data|now data| |i]; cbn [vr_event] in He.
  - injection He as <- <-.
    destruct (Hgive (EvVr now data) vr_thread (vr_receive_prog env la ve ge now data)
      (match (vr_callback env la ve ge now data a).2 with Some d => [VForward d] | None => [] end)) as (cs & ls & H & E);
      [unfold vr_thread; lia|done| |].
    + unfold vr_receive_prog. rewrite alone_act. destruct (vr_callback _ _ _ _ _ _ _) as [b [d|]]; done.
    + exists cs, ls. split; [done|]. rewrite E. by destruct (vr_callback _ _ _ _ _ _ _) as [b [d|]].
  - injection He as <- <-. by apply (Hgive (EvTelemetry now data) tel_thread (tel_receive_prog now data) []);
      [unfold tel_thread; lia| |].
  - injection He as <- <-. by apply (Hgive EvSigint sigint_thread stop_prog []); [unfold sigint_thread; lia| |].
  - destruct (va_keep_running a) eqn:Ek.
    + apply bind_ok in He as ([b x] & Ec & [= <- <-]).
      apply (Hgive (EvVrCycle i) main_thread (vr_loop_prog env la ve ge pow i) (vr_emitted x)); [unfold main_thread; lia|done|].
      unfold vr_loop_prog. rewrite alone_load, Ek, alone_bind, vr_cycle_alone, Ec. done.
    + injection He as <- <-. by exists [], [].
Qed.
End alone.

(** The step-by-step model of the VR leader is a special case of its threads.
    Every execution of [VrLeader], in which an iteration of the loop, a datagram and a
    signal are one step each, is also an execution of the program's threads under some
    schedule: it ends in the same state and has sent the same packets to the robot, in
    the same order. *)
Lemma vr_run_is_execution (env : VrEnv) (la : EigenOps) (ve : EigenVec) (ge : EigenGeometry)
    (pow : double -> double -> double) (l : list VrEvent) (a a' : VrApp) (os : list VrOutput) :
  vr_run env la ve ge pow l a = Ok (a', os) ->
  exists cs ts ls,
    vr_exec env la ve ge pow cs (mkSys a vr_pool) = Ok (mkSys a' ts, ls) /\
    packets ls = concat (map vr_emitted os).
Proof.
  intros H. enough (Hall : forall ts, ready 4 ts -> exists cs ls,
    vr_exec env la ve ge pow cs (mkSys a ts) = Ok (mkSys a' ts, ls) /\ packets ls = concat (map vr_emitted os)).
  { destruct (Hall vr_pool (ready_replicate 4)) as (cs & ls & Hcs & Hls). by exists cs, vr_pool, ls. }
  revert a os H. induction l as [|e l IH]; intros a os H ts Hts; cbn [vr_run] in H.
  { injection H as <- <-. by exists [], []. }
  apply bind_ok in H as ([b o] & He & H). apply bind_ok in H as ([c os'] & Hr & [= <- <-]).
  destruct (vr_event_executes env la ve ge pow e a b o ts He Hts) as (cs1 & ls1 & H1 & E1).
  destruct (IH b os' Hr ts Hts) as (cs2 & ls2 & H2 & E2). exists (cs1 ++ cs2), (ls1 ++ ls2). split.
  - unfold vr_exec in *. rewrite sys_exec_app, H1. cbn [mbind outcome_bind]. by rewrite H2.
  - rewrite filter_app, E1, E2, map_app, concat_app. f_equal. by destruct o.
Qed.

Lemma vr_run_is_execution_witness :
  exists a' os, vr_run test_vr_env test_la test_vr_ve test_geometry (fun x _ => x)
      [EvVrCycle test_vr_input; EvTelemetry 8 test_telemetry; EvVrCycle test_vr_input; EvSigint] (test_vr_app d1 d0) =
      Ok (a', os) /\
    length os = 2%nat /\
    exists cs ts ls, test_exec cs (mkSys (test_vr_app d1 d0) vr_pool) = Ok (mkSys a' ts, ls) /\
      packets ls = concat (map vr_emitted os).
Proof.
  assert (Hb : match vr_run test_vr_env test_la test_vr_ve test_geometry (fun x _ => x)
      [EvVrCycle test_vr_input; EvTelemetry 8 test_telemetry; EvVrCycle test_vr_input; EvSigint] (test_vr_app d1 d0) with
    | Ok (_, os) => bool_decide (length os = 2%nat) | _ => false end = true) by (vm_compute; reflexivity).
  destruct (vr_run _ _ _ _ _ _ _) as [[a' os]| |] eqn:H; [|discriminate Hb|discriminate Hb].
  exists a', os. split; [reflexivity|]. split; [by apply bool_decide_eq_true in Hb|].
  exact (vr_run_is_execution test_vr_env test_la test_vr_ve test_geometry (fun x _ => x) _ _ a' os H).
Defined.
