(* ===== verification/EndToEndVr.v ===== *)
(** * EndToEndVr: the VR leader and the follower

    The loop the two programs close: the follower's telemetry reaches the VR
    leader, which starts from the measured joints; the VR leader's packets reach
    the follower's motors as the packets of the bimanual leader do. *)

From Stdlib Require Import SpecFloat.
From S2P Require Import Prelude Float64 Float64Ops Float64Arith Float64Facts Crc32 Wire Packets PacketCodec.
From S2P Require Import TeleopStateBuffer Safety RobotState Control ControlFacts Udp.
From S2P Require Import Dynamics Ik IkFacts AppCommon Float32 LeaderFacts FollowerApp FollowerFacts EndToEnd VrConfig VrLeader VrFacts.

Open Scope Z_scope.

(** ** The follower's telemetry *)

Definition joints_valid (l : list JointState) : Prop :=
  Forall (fun j => valid (js_position j) /\ valid (js_velocity j)) l.

(** The controller of an arm with seven joints and a gripper, all doubles. *)
Definition full_arm (c : Control) : Prop :=
  let s := ct_robot_state c in
  length (rs_response (arm_state s)) = 7%nat /\ length (rs_response (hand_state s)) = 1%nat /\
  joints_valid (rs_response (arm_state s)) /\ joints_valid (rs_response (hand_state s)) /\
  joints_valid (rs_reference (arm_state s)) /\ joints_valid (rs_reference (hand_state s)).

Definition responses (c : Control) : list JointState :=
  rs_response (arm_state (ct_robot_state c)) ++ rs_response (hand_state (ct_robot_state c)).

(** The same, decided. *)
Definition joints_validb (l : list JointState) : bool := forallb (fun j => valid_binary 53 1024 (js_position j) && valid_binary 53 1024 (js_velocity j)) l.

Definition full_armb (c : Control) : bool :=
  let s := ct_robot_state c in
  (length (rs_response (arm_state s)) =? 7)%nat && (length (rs_response (hand_state s)) =? 1)%nat &&
  (joints_validb (rs_response (arm_state s)) && joints_validb (rs_response (hand_state s)) &&
   joints_validb (rs_reference (arm_state s)) && joints_validb (rs_reference (hand_state s))).

Definition row_valid (x : double * double * double) : Prop := valid x.1.1 /\ valid x.1.2 /\ valid x.2.

Lemma joints_validb_ok l : joints_validb l = true -> joints_valid l.
Proof.
  unfold joints_validb. rewrite forallb_forall. intros H. apply Forall_forall. intros j Hj%list_elem_of_In.
  by apply H, andb_true_iff in Hj.
Qed.

Lemma full_armb_ok c : full_armb c = true -> full_arm c.
Proof.
  unfold full_armb, full_arm. cbv zeta. rewrite !andb_true_iff, !Nat.eqb_eq. intros [[? ?] [[[? ?] ?] ?]].
  split_and!; try assumption; by apply joints_validb_ok.
Qed.

Lemma telemetry_rows_ok room resp ref rows :
  telemetry_rows room resp ref = Ok rows -> (length resp <= room)%nat -> joints_valid resp -> joints_valid ref ->
  map (fun x => x.1.1) rows = map js_position resp /\ Forall row_valid rows.
Proof.
  unfold telemetry_rows. intros [Hl Hf]%for_n_ok Hr Vs Vr. rewrite Nat.min_l in Hl by done.
  assert (Hrow : forall i x, rows !! i = Some x -> exists s r, resp !! i = Some s /\ ref !! i = Some r /\
    x = (js_position s, js_velocity s, js_position r)).
  { intros i x Hx. apply Hf in Hx. apply bind_ok in Hx as (s & Hs%vget_ok & Hx).
    apply bind_ok in Hx as (r & Hr'%vget_ok & [= <-]). by exists s, r. }
  split.
  - apply list_eq_same_length with (length rows); [by rewrite length_map|by rewrite length_map|].
    intros i x y _ Hx Hy. rewrite list_lookup_fmap in Hx. rewrite list_lookup_fmap in Hy.
    destruct (rows !! i) as [z|] eqn:Ez; [|done]. injection Hx as <-.
    destruct (Hrow i z Ez) as (s & r & Hs & _ & ->). rewrite Hs in Hy. by injection Hy as <-.
  - apply Forall_lookup. intros i x Hx. destruct (Hrow i x Hx) as (s & r & Hs & Hr' & ->).
    unfold joints_valid in Vs, Vr. rewrite Forall_lookup in Vs, Vr.
    destruct (Vs i s Hs), (Vr i r Hr'). by split_and!.
Qed.

Lemma side_rows_ok room c rows :
  side_rows room c = Ok rows -> full_arm c -> (8 <= room)%nat ->
  map (fun x => x.1.1) rows = map js_position (responses c) /\ Forall row_valid rows /\ length rows = 8%nat.
Proof.
  intros H (La & Lh & Va & Vh & Ra & Rh) Hroom. unfold side_rows, arm_rows in H. cbv zeta in H.
  apply bind_ok in H as (ra & Ha & H). apply bind_ok in H as (rh & Hh & [= <-]).
  apply telemetry_rows_ok in Ha as [Ma Fa]; [|lia|done|done].
  assert (Lra : length ra = 7%nat) by (rewrite <- La, <- (length_map js_position), <- Ma; by rewrite length_map).
  apply telemetry_rows_ok in Hh as [Mh Fh]; [|lia|done|done].
  assert (Lrh : length rh = 1%nat) by (rewrite <- Lh, <- (length_map js_position), <- Mh; by rewrite length_map).
  unfold responses. rewrite !map_app, Ma, Mh, length_app, Lra, Lrh. split_and!; [done|by apply Forall_app|done].
Qed.

Lemma column_wf (f : double * double * double -> double) rows :
  (forall x, row_valid x -> valid (f x)) -> Forall row_valid rows ->
  fits (replicate 16 4%nat) (pad 16 (map (fun x => float_bits (f x)) rows)).
Proof.
  intros Hf Hr. apply fits_words; [apply length_pad|]. apply pad_width; [done|].
  apply Forall_map. eapply Forall_impl; [exact Hr|]. intros x Hx. apply float_bits_width. by apply Hf.
Qed.

Section telemetry.
Context (env : FollowerEnv) (tanh : double -> double).

(** The packet of a follower with two full arms. *)
Lemma follower_telemetry_ok i a pkt cr cl :
  follower_telemetry env i a = Ok pkt -> in_width 64 (fi_telemetry_ns i) ->
  fo_control (fa_right a) = Some cr -> fo_control (fa_left a) = Some cl -> full_arm cr -> full_arm cl ->
  well_formed pkt /\
  tm_observation_state pkt = map (fun j => float_bits (js_position j)) (responses cr ++ responses cl).
Proof.
  intros H Hns Hr Hl Fr Fl. unfold follower_telemetry in H. cbv zeta in H. rewrite Hr, Hl in H.
  apply bind_ok in H as (rows & Hrows & [= <-]).
  apply bind_ok in Hrows as (rr & Hrr & Hrows). apply bind_ok in Hrows as (rl & Hrl & [= <-]).
  apply side_rows_ok in Hrr as (Mr & Vr & Lr); [|done|lia]. rewrite Lr in Hrl.
  apply side_rows_ok in Hrl as (Ml & Vl & Ll); [|done|lia].
  set (rows := rr ++ rl).
  assert (Vrows : Forall row_valid rows) by by apply Forall_app.
  assert (Hlen : length rows = 16%nat) by (unfold rows; rewrite length_app; lia).
  unfold telemetry_packet. cbv zeta. split.
  - split; [by split_and!; cbn [tm_observation_state tm_action tm_observation_velocity]; rewrite length_pad|].
    unfold fits, layout, fields. apply Forall2_app; [|constructor; [by const_width|constructor]].
    unfold body_layout, body. cbn [TelemetryPacket_wire]. unfold telemetry_layout, telemetry_body. apply Forall2_app.
    + cbn [tm_magic tm_version tm_packet_size tm_seq tm_monotonic_time_ns tm_robot_type tm_control_mode tm_enabled tm_estop
        tm_state_dim tm_action_dim tm_velocity_dim tm_reserved0 tm_watchdog_state tm_safety_state tm_reserved1 tm_reserved2].
      repeat constructor; try exact (proj1 Hns); try exact (proj2 Hns); try done;
        repeat (match goal with |- context [if ?b then _ else _] => destruct b end); try done;
        try (by destruct (sm_state (fo_safety (fa_right a)))); try (by destruct (sm_state (fo_safety (fa_left a)))).
    + change (replicate 48 4%nat) with (replicate 16 4%nat ++ replicate 16 4%nat ++ replicate 16 4%nat).
      cbn [tm_observation_state tm_action tm_observation_velocity].
      repeat apply Forall2_app; apply column_wf; try done; by intros x (? & ? & ?).
  - cbn [tm_observation_state]. unfold pad. rewrite length_map, Hlen, Nat.sub_diag, app_nil_r.
    rewrite take_ge by (rewrite length_map; lia).
    rewrite <- (map_map (fun x : double * double * double => x.1.1) float_bits).
    unfold rows. rewrite map_app, Mr, Ml, <- map_app. by rewrite map_map.
Qed.

(** The telemetry a cycle sends is built from the state it leaves. *)
Lemma follower_cycle_telemetry i a a' o d :
  follower_cycle env tanh i a = Ok (a', o) -> fx_telemetry o = Some d ->
  exists b pkt, follower_telemetry env i b = Ok pkt /\ fa_right b = fa_right a' /\ fa_left b = fa_left a' /\
    fa_publisher b = fa_publisher a /\ (publish pkt (fa_publisher b)).1 = Some d.
Proof.
  unfold follower_cycle. destruct (serve_recover env a) as [a1 m1] eqn:E1.
  destruct (serve_finit env a1) as [a2 m2] eqn:E2. destruct (serve_fgoto env a2) as [a3 m3] eqn:E3.
  intros H Hd. apply bind_ok in H as ([[a4 o_r] o_l] & E4 & H).
  apply bind_ok in H as ([a5 fbp] & E5 & H). apply bind_ok in H as ([a6 tel] & E6 & [= <- <-]). cbn [fx_telemetry] in Hd.
  assert (P1 : fa_publisher a1 = fa_publisher a).
  { unfold serve_recover in E1. destruct (fa_recover_requested a); [|by injection E1 as <- _].
    cbv zeta in E1. by destruct (has_arms _ _); injection E1 as <- _. }
  assert (P2 : fa_publisher a2 = fa_publisher a1).
  { unfold serve_finit in E2. destruct (fa_init_requested a1); [|by injection E2 as <- _].
    cbv zeta in E2. by destruct (has_arms _ _); injection E2 as <- _. }
  assert (P3 : fa_publisher a3 = fa_publisher a2).
  { unfold serve_fgoto in E3. destruct (fa_goto_requested a2); [|by injection E3 as <- _].
    cbv zeta in E3. by destruct (if has_arms _ _ then _ else _); injection E3 as <- _. }
  assert (P4 : fa_publisher a4 = fa_publisher a3).
  { revert E4. unfold serve_arms. cbv zeta. destruct (_ && _); [|by intros [= <- _ _]].
    intros ([r o1] & _ & H)%bind_ok. by apply bind_ok in H as ([l o2] & _ & [= <- _ _]). }
  assert (P5 : fa_publisher a5 = fa_publisher a4).
  { revert E5. unfold serve_feedback. destruct (fs_enabled _); [|by intros [= <- _]].
    intros (b & Eb & [= <- _])%bind_ok. by apply recheck_link_inv in Eb as (link & ok & next & ->). }
  revert E6. unfold serve_ftelemetry, publish_telemetry. destruct (_ && _); [|by intros [= _ <-]].
  intros (pkt & Hp & H)%bind_ok. destruct (publish pkt (fa_publisher a5)) as [dd pub] eqn:Ep.
  apply bind_ok in H as (dt & _ & [= <- <-]). exists a5, pkt. rewrite Ep. cbn [fst]. split_and!; try done. congruence.
Qed.
End telemetry.

(** ** What the VR leader makes of it *)

(** The telemetry's columns for an arm. *)
Definition side_control (side : ArmSide) (a : FollowerApp) : option Control := fo_control (follower_side side a).

Lemma tel_callback_publish pkt pub d now a r l :
  well_formed pkt -> in_width 32 (pub_seq pub) -> (publish pkt pub).1 = Some d ->
  tm_observation_state pkt = map (fun j => float_bits (js_position j)) (r ++ l) -> length r = 8%nat -> length l = 8%nat ->
  tel_callback now d a =
    with_feedback (map (fun j => as_float (js_position j)) (take 7 r)) (map (fun j => as_float (js_position j)) (take 7 l)) now a.
Proof.
  intros Hw Hq Hp Hobs Lr Ll. destruct (publish_spec pkt pub Hw Hq) as [Hcl Hop].
  destruct (pub_socket_open pub); [|by rewrite Hcl in Hp].
  destruct (Hop eq_refl) as (bytes & Hb & Hlen & Hm & _ & _ & _ & _ & Ho & _). rewrite Hb in Hp. injection Hp as <-.
  unfold tel_callback. rewrite decide_True by exact Hlen. cbv zeta. rewrite Hm, Z.eqb_refl, Ho, Hobs. unfold floats.
  rewrite map_app, take_app_le, drop_app_ge by (rewrite length_map; lia).
  rewrite length_map, Lr, Nat.sub_diag, drop_0. by rewrite !firstn_map, !map_map.
Qed.

(** A quarter of the loop: the joints the follower reports are the feedback of
    the VR leader, as [float]s. *)
Lemma telemetry_arrives fenv ftanh fi fa fa' fo d now a cr cl :
  follower_cycle fenv ftanh fi fa = Ok (fa', fo) -> fx_telemetry fo = Some d ->
  side_control RIGHT fa' = Some cr -> side_control LEFT fa' = Some cl -> full_arm cr -> full_arm cl ->
  in_width 64 (fi_telemetry_ns fi) -> in_width 32 (pub_seq (fa_publisher fa)) ->
  let pos c := map (fun j => as_float (js_position j)) (rs_response (arm_state (ct_robot_state c))) in
  tel_callback now d a = with_feedback (pos cr) (pos cl) now a.
Proof.
  intros H Hd Hr Hl Fr Fl Hns Hq. cbv zeta.
  destruct (follower_cycle_telemetry _ _ _ _ _ _ _ H Hd) as (b & pkt & Hp & Br & Bl & Bp & Hpub).
  unfold side_control, follower_side in Hr, Hl. rewrite <- Br in Hr. rewrite <- Bl in Hl.
  destruct (follower_telemetry_ok _ _ _ _ _ _ Hp Hns Hr Hl Fr Fl) as [Hw Hobs].
  destruct Fr as (R1 & R2 & _), Fl as (L1 & L2 & _).
  rewrite (tel_callback_publish pkt (fa_publisher b) d now a (responses cr) (responses cl)); try done.
  - unfold responses. by rewrite !take_app_le, !take_ge by lia.
  - by rewrite Bp.
  - unfold responses. rewrite length_app. lia.
  - unfold responses. rewrite length_app. lia.
Qed.

(** ** The packets on the wire *)

Lemma vr_packet_wf side seq q grip en p :
  vr_packet side seq q grip en = Ok p -> in_width 32 seq -> Forall valid q -> valid grip -> well_formed p.
Proof.
  intros Hp Hs Hq Hg. split; [by eapply vr_packet_shaped|]. apply vr_packet_inv in Hp as [Hlen ->].
  assert (W : fits (replicate 8 8%nat) (map bits_of_double (take 7 q) ++ [0])).
  { apply fits_words; [rewrite length_app, length_map, length_take, min_l by done; done|].
    apply Forall_app. split; [|by repeat constructor]. apply Forall_map, Forall_take. eapply Forall_impl; [exact Hq|].
    intros x Hx. by apply bits_of_double_width. }
  assert (G : fits (replicate 4 8%nat) [bits_of_double grip; 0; 0; 0]).
  { apply fits_words; [done|]. constructor; [by apply bits_of_double_width|by repeat constructor]. }
  unfold fits, layout, fields. apply Forall2_app; [|constructor; [by const_width|constructor]].
  unfold body_layout, body. cbn [TeleopPacket_wire]. unfold teleop_layout, teleop_body. apply Forall2_app.
  - cbn [tp_magic tp_version tp_packet_size tp_seq tp_send_time_ns tp_arm_side tp_mode tp_enable tp_estop tp_arm_dof
      tp_hand_dof tp_reserved0 tp_reserved1].
    repeat constructor; try exact (proj1 Hs); try exact (proj2 Hs); try done; try (by destruct side);
      destruct (has_nan (take 7 q)), en; done.
  - change (replicate 24 8%nat) with (replicate 8 8%nat ++ replicate 8 8%nat ++ replicate 4 8%nat ++ replicate 4 8%nat).
    cbn [tp_arm_pos tp_arm_vel tp_hand_pos tp_hand_vel]. repeat apply Forall2_app; [exact W| |exact G|];
      (apply fits_words; [done|by apply Forall_replicate]).
Qed.

(** The targets of an arm are doubles. *)
Definition targets_valid (s : VrSide) : Prop := Forall valid (target_q s) /\ valid (target_grip s).

Definition vr_clock (side : ArmSide) (i : VrInput) : Z := match side with RIGHT => vi_sys_r i | LEFT => vi_sys_l i end.

Lemma vr_packet_received env la ve ge pow i a a' o side :
  vr_cycle env la ve ge pow i a = Ok (a', o) -> in_width 32 (va_seq a) -> in_width 64 (vr_clock side i) ->
  targets_valid (vr_side side a') ->
  receive_teleop (serialize (vo_packet side o)) = Some (vo_packet side o).
Proof.
  unfold vr_cycle. cbv zeta. intros H Hs Hc [Hq Hg]. apply bind_ok in H as ([r ikr] & _ & H).
  apply bind_ok in H as ([l ikl] & _ & H). apply bind_ok in H as (pr & Hpr & H). apply bind_ok in H as (pl & Hpl & [= <- <-]).
  destruct side; cbn [vo_packet vo_right vo_left vr_side va_right va_left vr_clock] in *;
    (apply receive_teleop_encode; [by eapply vr_packet_wf|done]).
Qed.

(** ** Properties *)

(** C3: The VR leader's commands, end to end. A cycle's packet is accepted by the
    follower's receiver exactly as it was built, and a datagram damaged within
    any four consecutive bytes is dropped. When a follower with a seven-joint
    arm and a gripper has received it and is in a tracking state, its next cycle
    sends each arm joint velocity 0 and a finite position between the joint's
    previous reference and the VR leader's target, at most one limited step away
    from the former, and equal to the target if that is within one step. *)
Theorem vr_command_reaches_motors (env : VrEnv) (la : EigenOps) (ve : EigenVec) (ge : EigenGeometry)
    (pow : double -> double -> double) (i : VrInput) (a a' : VrApp) (o : VrOutput) (side : ArmSide) :
  vr_cycle env la ve ge pow i a = Ok (a', o) -> in_width 32 (va_seq a) -> in_width 64 (vr_clock side i) ->
  targets_valid (vr_side side a') ->
  let p := vo_packet side o in
  receive_teleop (serialize p) = Some p /\
  (forall pre w w' post, serialize p = pre ++ w ++ post -> Forall is_byte w' -> length w = length w' ->
     (length w <= 4)%nat -> w <> w' -> receive_teleop (pre ++ w' ++ post) = None) /\
  forall (fenv : FollowerEnv) (ftanh : double -> double) (now : Z) (fi : FollowerInput) (fa fa' : FollowerApp)
    (fo : FollowerOutput) (c : Control),
  follower_run fenv ftanh fa [FvPacket side now p; FvCycle fi] = Ok (fa', [fo]) ->
  fe_mock fenv = false -> fa_init_in_progress fa' = false -> fa_recover_in_progress fa' = false ->
  let s' := follower_side side fa' in
  tracking (sm_state (fo_safety s')) = true -> sm_state (fo_safety s') <> HOLD ->
  fo_control (follower_side side fa) = Some c -> ct_role c = ROLE_FOLLOWER ->
  let refs := rs_reference (arm_state (ct_robot_state c)) in
  let eff := effective_max_delta (fo_limiter s') in
  length refs = 7%nat -> length (rs_reference (hand_state (ct_robot_state c))) = 1%nat ->
  fnn eff -> Forall Safety.fin (map js_position refs) ->
  exists arm hand, follower_output side fo = ArmCommands (arm, hand) /\ length arm = 7%nat /\
    forall k r t, refs !! k = Some r -> target_q (vr_side side a') !! k = Some t -> isfinite t = true ->
      exists q, arm !! k = Some q /\ moved_towards eff (js_position r) t d0 q.
Proof.
  intros H Hs Hc Hv. cbv zeta. pose proof (vr_packet_received _ _ _ _ _ _ _ _ _ side H Hs Hc Hv) as Hrec.
  destruct (vr_cycle_packet _ _ _ _ _ _ _ _ _ side H) as (_ & _ & _ & _ & _ & Da & Dh & Hpos & Hlen & _).
  assert (Hvel : tp_arm_vel (vo_packet side o) = replicate 8 0).
  { apply vr_cycle_inv in H as (_ & _ & _ & _ & _ & _ & H). destruct (H side) as (n & p & _ & Hp & ->).
    by apply vr_packet_inv in Hp as [_ ->]. }
  split; [exact Hrec|]. split; [by apply accepted_burst_dropped|].
  intros fenv ftanh now fi fa fa' fo c Hf Hmock Hi Hr Ht Hn Hcc Hrole Lr Lh He Hfin.
  destruct (packet_moves_arm _ _ _ _ _ _ _ _ _ _ Hf Hmock Hi Hr Ht Hn Hcc Hrole) as (arm & hand & Ho & L & Hmv);
    [by rewrite Da, Lr|by rewrite Dh, Lh|done|done|].
  exists arm, hand. split; [exact Ho|]. split; [congruence|]. intros k r t Hk Htk Ft.
  pose proof (lookup_lt_Some _ _ _ Hk) as Hk7. rewrite Lr in Hk7.
  apply (Hmv k t d0 r); try done.
  - rewrite Hpos, lookup_app_l by (rewrite length_map; lia). by rewrite list_lookup_fmap, lookup_take_lt, Htk.
  - rewrite Hvel. apply lookup_replicate_2. lia.
  - destruct Hv as [Hq _]. rewrite Forall_lookup in Hq. by apply (Hq k).
Qed.

Definition test_vr_cycle (a : VrApp) : outcome (VrApp * VrOutput) :=
  vr_cycle test_vr_env test_la test_vr_ve test_geometry (fun x _ => x) test_vr_input a.

(** Both grips held; the follower's references stand at 0. *)
Lemma vr_command_reaches_motors_witness :
  exists a' o fa' fo arm hand q t,
    test_vr_cycle (test_vr_app d1 d0) = Ok (a', o) /\
    follower_run test_fenv id (test_fapp false []) [FvPacket RIGHT 1000 (vo_right o); FvCycle (test_finput 2000)]
      = Ok (fa', [fo]) /\
    fx_right fo = ArmCommands (arm, hand) /\ arm !! 6%nat = Some q /\ target_q (va_right a') !! 6%nat = Some t /\
    Safety.between d0 (q_ref q) t.
Proof.
  assert (H : exists a' o fa' fo t,
    (test_vr_cycle (test_vr_app d1 d0) = Ok (a', o) /\
     follower_run test_fenv id (test_fapp false []) [FvPacket RIGHT 1000 (vo_right o); FvCycle (test_finput 2000)]
       = Ok (fa', [fo])) /\
    (target_q (va_right a') !! 6%nat = Some t /\ isfinite t = true) /\
    forallb (valid_binary 53 1024) (target_grip (va_right a') :: target_q (va_right a')) = true /\
    fa_init_in_progress fa' = false /\ fa_recover_in_progress fa' = false /\
    sm_state (fo_safety (fa_right fa')) = ACTIVE /\ fo_limiter (fa_right fa') = fo_limiter test_fside).
  { do 5 eexists. split; [split; [vm_compute; reflexivity|vm_compute; reflexivity]|]. vm_compute. repeat split. }
  destruct H as (a' & o & fa' & fo & t & [H Hf] & [Ht Ft] & Hv & Hi & Hr & Hst & Hlim).
  assert (Hvalid : targets_valid (va_right a')).
  { cbn [forallb] in Hv. apply andb_true_iff in Hv as [Hg Hq]. split; [|exact Hg].
    rewrite forallb_forall in Hq. apply Forall_forall. intros x Hx%list_elem_of_In. by apply Hq. }
  destruct (vr_command_reaches_motors _ _ _ _ _ _ _ _ _ RIGHT H) as (_ & _ & Hend);
    [vm_compute; split; [discriminate|reflexivity]|vm_compute; split; [discriminate|reflexivity]|exact Hvalid|].
  destruct (Hend test_fenv id 1000 (test_finput 2000) (test_fapp false []) fa' fo test_follower Hf eq_refl Hi Hr)
    as (arm & hand & Ho & _ & Hq).
  - simpl. rewrite Hst. reflexivity.
  - simpl. rewrite Hst. discriminate.
  - reflexivity.
  - reflexivity.
  - reflexivity.
  - reflexivity.
  - simpl. rewrite Hlim. vm_compute. repeat split.
  - repeat constructor.
  - destruct (Hq 6%nat joint_zero t eq_refl Ht Ft) as (q & Hl & _ & _ & Hb & _).
    exists a', o, fa', fo, arm, hand, q, t. repeat (split; [assumption|]). exact Hb.
Defined.

(** C15: Taking hold starts from where the robot is. Let the follower publish its
    telemetry and the VR leader receive it. The leader's feedback is the
    follower's reported joint positions, arm by arm, each carried as a [float]:
    for a finite position below 2^127, a finite number of the same sign at most
    2^-24 of it away. While that telemetry is fresh and a hand is not held, the
    leader's packet repeats those positions and does not enable the arm. When the
    headset then reports the hand as held (and no other telemetry has come), the
    first cycle of the hold anchors at those positions: its anchor holds them and the
    pose the robot model gives for them, and the joints of its packet are those
    positions or one step of at most the configured maximum away (with the rate limit
    on). *)
Theorem telemetry_reaches_vr (fenv : FollowerEnv) (ftanh : double -> double) (fi : FollowerInput) (fa fa' : FollowerApp)
    (fo : FollowerOutput) (d : list Z) (cr cl : Control)
    (env : VrEnv) (la : EigenOps) (ve : EigenVec) (ge : EigenGeometry) (pow : double -> double -> double)
    (now : Z) (i : VrInput) (a a' : VrApp) (o : VrOutput) (side : ArmSide) :
  follower_cycle fenv ftanh fi fa = Ok (fa', fo) -> fx_telemetry fo = Some d ->
  side_control RIGHT fa' = Some cr -> side_control LEFT fa' = Some cl -> full_arm cr -> full_arm cl ->
  in_width 64 (fi_telemetry_ns fi) -> in_width 32 (pub_seq (fa_publisher fa)) ->
  let a1 := tel_callback now d a in
  let arm := rs_response (arm_state (ct_robot_state (match side with RIGHT => cr | LEFT => cl end))) in
  va_tel_connected a1 = true /\ va_last_tel_time a1 = now /\
  vr_fb side a1 = map (fun j => as_float (js_position j)) arm /\
  (forall j, j ∈ arm -> isfinite (js_position j) = true -> mag (js_position j) < 2 ^ 1201 ->
     let x := as_float (js_position j) in
     isfinite x = true /\ sign x = sign (js_position j) /\ near24 (mag (js_position j)) (mag x)) /\
  (vr_cycle env la ve ge pow i a1 = Ok (a', o) -> Z.quot (vi_now i - now) 1000000 <= stale_timeout_ms (vc_tel (ve_cfg env)) ->
   held (vr_arm_of side (va_vr_state a)) = false ->
   tp_arm_pos (vo_packet side o) = map (fun j => bits_of_double (as_float (js_position j))) arm ++ [0] /\
   tp_enable (vo_packet side o) = 0 /\
   forall l a2 os i2 a3 o2, Forall hand_only l -> vr_run env la ve ge pow l a' = Ok (a2, os) ->
     vr_cycle env la ve ge pow i2 a2 = Ok (a3, o2) -> telemetry_stale env (vi_now i2) a2 = false ->
     held (vr_arm_of side (va_vr_state a2)) = true ->
     hold_starts env side (map (fun j => as_float (js_position j)) arm) (vr_ik (vr_side side a')) (vr_side side a3) /\
     tp_arm_pos (vo_packet side o2) = map bits_of_double (take 7 (target_q (vr_side side a3))) ++ [0]).
Proof.
  intros H Hd Hr Hl Fr Fl Hns Hq. cbv zeta.
  pose proof (telemetry_arrives _ _ _ _ _ _ _ now a _ _ H Hd Hr Hl Fr Fl Hns Hq) as ->.
  set (c := match side with RIGHT => cr | LEFT => cl end). assert (Fc : full_arm c) by by destruct side.
  set (arm := rs_response (arm_state (ct_robot_state c))). destruct Fc as (L & _ & V & _).
  set (a1 := with_feedback _ _ now a).
  assert (Hfb : vr_fb side a1 = map (fun j => as_float (js_position j)) arm) by by destruct side.
  split_and!; [done|done|exact Hfb| |].
  - intros j Hj Ff Hm. unfold joints_valid in V. rewrite Forall_forall in V. destruct (V j Hj) as [Vj _].
    destruct (as_float_near _ Vj Ff Hm) as (_ & ? & ? & ?). by split_and!.
  - intros Hc Hage Hh.
    assert (Hs : telemetry_stale env (vi_now i) a1 = false).
    { unfold telemetry_stale, tel_age_ms. apply andb_false_intro2, Z.ltb_ge. exact Hage. }
    pose proof (vr_cycle_targets _ _ _ _ _ _ _ _ _ side Hc) as (_ & _ & Hrel & _).
    pose proof (vr_cycle_packet _ _ _ _ _ _ _ _ _ side Hc) as (_ & _ & _ & _ & _ & _ & _ & P & _ & _ & En).
    specialize (Hrel Hs). change (va_vr_state a1) with (va_vr_state a) in Hrel. rewrite Hh in Hrel.
    destruct (Hrel eq_refl) as [_ Ht]. change (va_tel_connected a1) with true in Ht. cbn [orb] in Ht. rewrite Ht, Hfb in P, En.
    rewrite P, take_ge, map_map by (rewrite length_map; unfold arm; lia). split; [done|]. split.
    + rewrite En. unfold vr_enable. change (va_vr_state a1) with (va_vr_state a). rewrite Hh.
      unfold arm_enable. cbn [andb]. by destruct (has_nan _), (ve_dry_run env).
    + intros l a2 os i2 a3 o2 Hhl Hrun Hc2 Hs2 Hh2. rewrite <- Hfb.
      split; [by eapply (release_then_hold _ _ _ _ _ i i2 l a1 a')|].
      by apply (vr_cycle_packet _ _ _ _ _ _ _ _ _ side) in Hc2 as (_ & _ & _ & _ & _ & _ & _ & -> & _).
Qed.

(** The follower's right joints measure 1 rad; the VR hand is released, and then held. *)
Lemma telemetry_reaches_vr_witness :
  exists fa' fo d a' o a2 a3 o2,
    follower_cycle test_fenv id (test_finput 2000) (packet_arrives RIGHT 1000 (test_packet 1) (test_fapp false [])) = Ok (fa', fo) /\
    fx_telemetry fo = Some d /\
    test_vr_cycle (tel_callback 7 d (test_vr_app d0 d0)) = Ok (a', o) /\
    vr_fb RIGHT (tel_callback 7 d (test_vr_app d0 d0)) = replicate 7 d1 /\
    tp_arm_pos (vo_packet RIGHT o) = replicate 7 (bits_of_double d1) ++ [0] /\ tp_enable (vo_packet RIGHT o) = 0 /\
    vr_run test_vr_env test_la test_vr_ve test_geometry (fun x _ => x) [EvVr 8 (serialize test_vr_packet)] a' = Ok (a2, []) /\
    test_vr_cycle a2 = Ok (a3, o2) /\ anchor_active (vr_anchor (va_right a3)) = true /\
    robot_q_anchor (vr_anchor (va_right a3)) = replicate 7 d1.
Proof.
  assert (H : exists fa' fo d cr cl a' o,
    (follower_cycle test_fenv id (test_finput 2000) (packet_arrives RIGHT 1000 (test_packet 1) (test_fapp false [])) = Ok (fa', fo) /\
     fx_telemetry fo = Some d) /\
    (side_control RIGHT fa' = Some cr /\ side_control LEFT fa' = Some cl) /\
    test_vr_cycle (tel_callback 7 d (test_vr_app d0 d0)) = Ok (a', o) /\
    rs_response (arm_state (ct_robot_state cr)) = replicate 7 (mkJointState d1 d0 d0) /\
    (full_armb cr = true /\ full_armb cl = true) /\
    exists a2 a3 o2,
      vr_run test_vr_env test_la test_vr_ve test_geometry (fun x _ => x) [EvVr 8 (serialize test_vr_packet)] a' = Ok (a2, []) /\
      test_vr_cycle a2 = Ok (a3, o2) /\ telemetry_stale test_vr_env (vi_now test_vr_input) a2 = false /\
      held (vr_arm_of RIGHT (va_vr_state a2)) = true).
  { do 7 eexists. split; [split; [vm_compute; reflexivity|vm_compute; reflexivity]|].
    split; [split; [vm_compute; reflexivity|vm_compute; reflexivity]|]. split; [vm_compute; reflexivity|].
    split; [vm_compute; repeat split|]. split; [vm_compute; repeat split|].
    do 3 eexists. split; [vm_compute; reflexivity|]. split; [vm_compute; reflexivity|]. vm_compute. repeat split. }
  destruct H as (fa' & fo & d & cr & cl & a' & o & [H Hd] & [Hr Hl] & Hc & R1 & [Fr Fl] & Hlater).
  apply full_armb_ok in Fr, Fl.
  destruct (telemetry_reaches_vr test_fenv id (test_finput 2000)
    (packet_arrives RIGHT 1000 (test_packet 1) (test_fapp false [])) fa' fo d cr cl
    test_vr_env test_la test_vr_ve test_geometry (fun x _ => x) 7 test_vr_input (test_vr_app d0 d0) a' o RIGHT H Hd Hr Hl Fr Fl)
    as (_ & _ & Hfb & _ & Hp).
  - vm_compute. split; [discriminate|reflexivity].
  - vm_compute. split; [discriminate|reflexivity].
  - cbn [side_control] in Hfb, Hp. rewrite R1 in Hfb, Hp.
    destruct (Hp Hc ltac:(vm_compute; discriminate) ltac:(reflexivity)) as (P & E & Hhold).
    destruct Hlater as (a2 & a3 & o2 & Hrun & Hc2 & Hs2 & Hh2).
    destruct (Hhold [EvVr 8 (serialize test_vr_packet)] a2 [] test_vr_input a3 o2
      ltac:(repeat constructor) Hrun Hc2 Hs2 Hh2) as [(N1 & N2 & _) _].
    exists fa', fo, d, a', o, a2, a3, o2. split; [exact H|]. split; [exact Hd|]. split; [exact Hc|].
    split; [rewrite Hfb; vm_compute; reflexivity|]. split; [rewrite P; vm_compute; reflexivity|]. split; [exact E|].
    split; [exact Hrun|]. split; [exact Hc2|]. split; [exact N1|]. cbn [vr_side] in N2. rewrite N2. vm_compute. reflexivity.
Defined.
