(* ===== verification/PeriodicTimer.v ===== *)
(** * PeriodicTimer: the periodic timer thread

    [src/src/periodic_timer_thread.hpp]: a thread that calls [on_timer] at fixed
    points of the monotonic clock. What [on_timer] does is a parameter: it
    changes a state and may throw, which the loop catches. *)

From Equations Require Import Equations.
From Stdlib Require Import SpecFloat.
From S2P Require Import Prelude Float64.

Open Scope Z_scope.

(** ** Conversions *)

Definition in_int (z : Z) : bool := (- 2 ^ 31 <=? z) && (z <? 2 ^ 31).

(** [static_cast<int>] of a [double]: truncation, undefined out of range. *)
Definition int_of_double (x : double) : outcome Z :=
  match x with
  | S754_zero _ => Ok 0
  | S754_finite neg m e =>
      let t := if neg then - trunc_Z m e else trunc_Z m e in
      if in_int t then Ok t else Undef
  | _ => Undef
  end.

Definition period_of_hz (hz : double) : outcome Z := int_of_double (d_of_Z 1000000 / hz)%D.

(** ** The object *)

Record PeriodicTimerThread := mkTimer {
  tt_thread : bool;            (* [thread_] is set *)
  is_running_ : bool;
  period_us_ : Z;
  last_elapsed_us_ : Z;
}.

Definition PeriodicTimerThread_new (hz : double) : outcome PeriodicTimerThread :=
  if (hz <=? d0)%D then Throw "Hz must be positive"
  else p ← period_of_hz hz; Ok (mkTimer false false p 0).

Definition set_period (hz : double) (t : PeriodicTimerThread) : outcome PeriodicTimerThread :=
  if (hz >? d0)%D
  then p ← period_of_hz hz; Ok (mkTimer (tt_thread t) (is_running_ t) p (last_elapsed_us_ t))
  else Ok t.

Definition start_thread (t : PeriodicTimerThread) : PeriodicTimerThread :=
  mkTimer true true (period_us_ t) (last_elapsed_us_ t).

(** The thread is joined: it has left its loop. *)
Definition stop_thread (t : PeriodicTimerThread) : PeriodicTimerThread :=
  mkTimer false false (period_us_ t) (last_elapsed_us_ t).

(** ** The schedule *)

Record Timespec := mkTimespec { tv_sec : Z; tv_nsec : Z }.

(** [while (tv_nsec >= 1000000000) { tv_nsec -= 1000000000; tv_sec += 1; }]. *)
Equations? carry_nsec (sec nsec : Z) : Timespec by wf (Z.to_nat nsec) lt :=
  carry_nsec sec nsec with Z_lt_ge_dec nsec 1000000000 => {
    | left _ := mkTimespec sec nsec;
    | right _ := carry_nsec (sec + 1) (nsec - 1000000000) }.
Proof. lia. Qed.

(** [next_time.tv_nsec += period_us * 1000]: the product is an [int]. *)
Definition next_time (period_us : Z) (t : Timespec) : outcome Timespec :=
  if in_int (period_us * 1000) then Ok (carry_nsec (tv_sec t) (tv_nsec t + period_us * 1000)) else Undef.

(** ** The loop *)

Section loop.
Context {St : Type} (on_timer : St -> St * outcome unit).

(** One iteration, from the clock readings around [on_timer]: the new state, and
    the time the thread sleeps to. *)
Definition timer_iteration (start_ns end_ns : Z) (s : St) (next : Timespec) (t : PeriodicTimerThread)
    : outcome (St * Timespec * PeriodicTimerThread) :=
  let '(s, r) := on_timer s in
  _ ← match r with Undef => Undef | _ => Ok tt end;
  let t := mkTimer (tt_thread t) (is_running_ t) (period_us_ t) (Z.quot (end_ns - start_ns) 1000) in
  next ← next_time (period_us_ t) next;
  Ok (s, next, t).

(** As many iterations as there are clock readings, while [is_running_]. *)
Fixpoint timer_thread (clock : list (Z * Z)) (s : St) (next : Timespec) (t : PeriodicTimerThread)
    : outcome (St * Timespec * PeriodicTimerThread) :=
  match clock with
  | [] => Ok (s, next, t)
  | (start_ns, end_ns) :: clock =>
      if is_running_ t then
        '(s, next, t) ← timer_iteration start_ns end_ns s next t;
        timer_thread clock s next t
      else Ok (s, next, t)
  end.
End loop.

(** ** Lemmas *)

(** The instant of a [timespec], and the form the clock functions ask for. *)
Definition instant (t : Timespec) : Z := tv_sec t * 1000000000 + tv_nsec t.
Definition normalised (t : Timespec) : Prop := 0 <= tv_nsec t < 1000000000.

(** Periods whose product with 1000 fits an [int]. *)
Definition period_ok (p : Z) : Prop := 0 <= p <= 2147483.

Lemma carry_nsec_spec sec nsec :
  0 <= nsec -> normalised (carry_nsec sec nsec) /\ instant (carry_nsec sec nsec) = sec * 1000000000 + nsec.
Proof.
  funelim (carry_nsec sec nsec); intros Hn.
  - unfold normalised, instant. simpl. lia.
  - destruct H as [H1 H2]; [lia|]. split; [done|]. rewrite H2. lia.
Qed.

Lemma next_time_spec p t :
  period_ok p -> normalised t ->
  exists t', next_time p t = Ok t' /\ normalised t' /\ instant t' = instant t + p * 1000.
Proof.
  intros Hp Ht. unfold next_time, period_ok, normalised in *.
  assert (Hi : in_int (p * 1000) = true) by (apply andb_true_iff; lia). rewrite Hi.
  destruct (carry_nsec_spec (tv_sec t) (tv_nsec t + p * 1000)) as [H1 H2]; [lia|].
  eexists. split; [done|]. split; [done|]. rewrite H2. unfold instant. lia.
Qed.

(** Longer periods overflow the product. *)
Lemma long_period_undefined p t : 2147483 < p -> next_time p t = Undef.
Proof.
  intros Hp. unfold next_time. replace (in_int (p * 1000)) with false; [done|].
  symmetry. apply andb_false_iff. right. apply Z.ltb_ge. lia.
Qed.

(** 0.4 Hz is a valid frequency of the constructor whose first iteration is
    undefined behaviour. *)
Lemma slow_timer_undefined :
  exists t, PeriodicTimerThread_new (dlit 4 1) = Ok t /\ forall next, next_time (period_us_ t) next = Undef.
Proof. eexists. split; [vm_compute; reflexivity|]. intros next. by apply long_period_undefined. Qed.

(** ** Property *)

(** The timer does not drift and survives exceptions. With a period of at
    most 2147483 microseconds, [n] iterations of a running thread, whatever time
    [on_timer] takes and however often it throws, call it [n] times, in order,
    each on the state the previous one left, and the time slept to is exactly
    [n] periods after the start, as a normalised [timespec]. *)
Lemma timer_no_drift {St : Type} (on_timer : St -> St * outcome unit) (clock : list (Z * Z)) (s : St) (next : Timespec)
    (t : PeriodicTimerThread) :
  (forall s, (on_timer s).2 <> Undef) -> is_running_ t = true -> period_ok (period_us_ t) -> normalised next ->
  exists next' t', timer_thread on_timer clock s next t = Ok (Nat.iter (length clock) (fun s => (on_timer s).1) s, next', t') /\
    normalised next' /\ instant next' = instant next + Z.of_nat (length clock) * (period_us_ t * 1000) /\
    is_running_ t' = true /\ period_us_ t' = period_us_ t.
Proof.
  intros Hu. revert s next t. induction clock as [|[b e] clock IH]; intros s next t Hr Hp Hn.
  - exists next, t. split; [done|]. split; [done|]. split; [simpl; lia|]. done.
  - cbn [timer_thread length]. rewrite Hr. unfold timer_iteration.
    pose proof (Hu s) as Hs. destruct (on_timer s) as [s1 r] eqn:E. cbn [snd] in Hs.
    assert (Hc : match r with Undef => Undef | _ => Ok tt end = Ok tt) by by destruct r. rewrite Hc. cbn [mbind outcome_bind].
    destruct (next_time_spec (period_us_ t) next Hp Hn) as (n1 & E1 & N1 & I1). cbn [period_us_]. rewrite E1. cbn [mbind outcome_bind].
    destruct (IH s1 n1 (mkTimer (tt_thread t) (is_running_ t) (period_us_ t) (Z.quot (e - b) 1000)) Hr Hp N1)
      as (n2 & t2 & E2 & N2 & I2 & R2 & P2).
    set (f := fun s => (on_timer s).1) in *.
    assert (Hit : Nat.iter (length clock) f s1 = f (Nat.iter (length clock) f s)).
    { rewrite <- Nat.iter_swap. unfold f at 3. by rewrite E. }
    exists n2, t2. rewrite E2, Hit.
    split; [done|]. split; [done|]. split; [cbn [period_us_] in I2; lia|]. done.
Qed.

(** Three iterations at 1 kHz from 999.5 ms, the second of which throws. *)
Lemma timer_no_drift_witness :
  exists t next t',
    PeriodicTimerThread_new (d_of_Z 1000) = Ok t /\
    timer_thread (fun n : Z => (n + 1, if n =? 1 then Throw "late" else Ok tt)) [(0, 5000); (1, 2); (3, 4)] 0
      (mkTimespec 7 999500000) (start_thread t) = Ok (3, next, t') /\
    instant next = 8002500000.
Proof.
  assert (H : exists t, PeriodicTimerThread_new (d_of_Z 1000) = Ok t /\ period_us_ t = 1000).
  { eexists. split; [vm_compute; reflexivity|reflexivity]. }
  destruct H as (t & H & Hp).
  destruct (timer_no_drift (fun n : Z => (n + 1, if n =? 1 then Throw "late" else Ok tt)) [(0, 5000); (1, 2); (3, 4)] 0
    (mkTimespec 7 999500000) (start_thread t)) as (next & t' & Hr & _ & Hi & _).
  - intros n. simpl. destruct (n =? 1); discriminate.
  - reflexivity.
  - simpl. rewrite Hp. split; discriminate.
  - split; [discriminate|reflexivity].
  - exists t, next, t'. split; [exact H|]. split; [exact Hr|]. rewrite Hi. simpl. rewrite Hp. reflexivity.
Defined.
