(* ===== verification/SinglePc.v ===== *)
(** * SinglePc: bilateral and unilateral control on one computer

    [src/control/openarm_bilateral_control.cpp] and
    [openarm_unilateral_control.cpp]: three timer threads share the robot states
    of a leader and a follower arm. Each arm's thread runs its control cycle; the
    admin thread copies each arm's responses into the other's references. Every
    access to a joint vector holds that vector's mutex and is one atomic step
    here; the threads interleave freely between these steps. *)

From S2P Require Import Prelude Float64 Dynamics RobotState Control ControlFacts.

Open Scope Z_scope.

(** ** Threads *)

#[export] Instance role_eq_dec : EqDecision Role.
Proof. solve_decision. Defined.

(** [on_timer] of [LeaderArmThread] and [FollowerArmThread]: the control cycle
    stores the arm's responses, then the gripper's, reads the arm's references,
    then the gripper's, and sends its commands. *)
Inductive ArmThread :=
| ArmWaiting
| ArmStored (m : Motors)
| HandStored (m : Motors)
| ArmRefsRead (m : Motors) (arm_ref : list JointState).

(** [AdminThread::on_timer]: four reads into local variables, four writes. *)
Inductive AdminThread :=
| AdminWaiting
| AdminRead1 (leader_arm : list JointState)
| AdminRead2 (leader_arm follower_arm : list JointState)
| AdminRead3 (leader_arm follower_arm leader_hand : list JointState)
| AdminRead4 (leader_arm follower_arm leader_hand follower_hand : list JointState)
| AdminSet1 (leader_arm leader_hand follower_hand : list JointState)
| AdminSet2 (leader_arm leader_hand : list JointState)
| AdminSet3 (leader_hand : list JointState).

(** The controllers own the shared robot states. *)
Record PcState := mkPcState {
  pc_leader : Control; pc_follower : Control;
  pc_lthread : ArmThread; pc_fthread : ArmThread;
  pc_admin : AdminThread;
}.

Definition pc_control (r : Role) (s : PcState) : Control :=
  match r with ROLE_LEADER => pc_leader s | ROLE_FOLLOWER => pc_follower s end.

Definition pc_thread (r : Role) (s : PcState) : ArmThread :=
  match r with ROLE_LEADER => pc_lthread s | ROLE_FOLLOWER => pc_fthread s end.

Definition set_control (r : Role) (c : Control) (s : PcState) : PcState :=
  match r with
  | ROLE_LEADER => mkPcState c (pc_follower s) (pc_lthread s) (pc_fthread s) (pc_admin s)
  | ROLE_FOLLOWER => mkPcState (pc_leader s) c (pc_lthread s) (pc_fthread s) (pc_admin s)
  end.

Definition set_thread (r : Role) (t : ArmThread) (s : PcState) : PcState :=
  match r with
  | ROLE_LEADER => mkPcState (pc_leader s) (pc_follower s) t (pc_fthread s) (pc_admin s)
  | ROLE_FOLLOWER => mkPcState (pc_leader s) (pc_follower s) (pc_lthread s) t (pc_admin s)
  end.

Definition set_admin (d : AdminThread) (s : PcState) : PcState :=
  mkPcState (pc_leader s) (pc_follower s) (pc_lthread s) (pc_fthread s) d.

(** *** Access to the shared vectors *)

Definition arm_response (r : Role) (s : PcState) := rs_response (arm_state (ct_robot_state (pc_control r s))).
Definition hand_response (r : Role) (s : PcState) := rs_response (hand_state (ct_robot_state (pc_control r s))).
Definition arm_reference (r : Role) (s : PcState) := rs_reference (arm_state (ct_robot_state (pc_control r s))).
Definition hand_reference (r : Role) (s : PcState) := rs_reference (hand_state (ct_robot_state (pc_control r s))).

(** ** Steps *)

Inductive Label :=
| Reads (r : Role) (m : Motors)
| Sends (r : Role) (cmds : outcome Commands)
| Silent.

Section pc.
(** The control cycle the program runs: [bilateral_step] or [unilateral_step]. *)
Context (cycle : Motors -> Control -> Control * outcome Commands).

(** The next step of an arm's thread; [m] is what its motors report if the step
    starts a cycle. *)
Definition arm_action (r : Role) (m : Motors) (s : PcState) : PcState * Label :=
  let c := pc_control r s in
  match pc_thread r s with
  | ArmWaiting =>
      (set_thread r (ArmStored m) (set_control r (on_arm (set_responses (arm_motor_to_joint (arm_motors m))) c) s), Reads r m)
  | ArmStored m =>
      (set_thread r (HandStored m) (set_control r (on_hand (set_responses (gripper_motor_to_joint (gripper_motors m))) c) s), Silent)
  | HandStored m => (set_thread r (ArmRefsRead m (arm_reference r s)) s, Silent)
  | ArmRefsRead m arm_ref =>
      (set_thread r ArmWaiting s, Sends r (cycle m (on_arm (set_references arm_ref) c)).2)
  end.

Definition admin_action (s : PcState) : PcState :=
  match pc_admin s with
  | AdminWaiting => set_admin (AdminRead1 (arm_response ROLE_LEADER s)) s
  | AdminRead1 la => set_admin (AdminRead2 la (arm_response ROLE_FOLLOWER s)) s
  | AdminRead2 la fa => set_admin (AdminRead3 la fa (hand_response ROLE_LEADER s)) s
  | AdminRead3 la fa lh => set_admin (AdminRead4 la fa lh (hand_response ROLE_FOLLOWER s)) s
  | AdminRead4 la fa lh fh =>
      set_admin (AdminSet1 la lh fh) (set_control ROLE_LEADER (on_arm (set_references fa) (pc_leader s)) s)
  | AdminSet1 la lh fh =>
      set_admin (AdminSet2 la lh) (set_control ROLE_LEADER (on_hand (set_references fh) (pc_leader s)) s)
  | AdminSet2 la lh =>
      set_admin (AdminSet3 lh) (set_control ROLE_FOLLOWER (on_arm (set_references la) (pc_follower s)) s)
  | AdminSet3 lh =>
      set_admin AdminWaiting (set_control ROLE_FOLLOWER (on_hand (set_references lh) (pc_follower s)) s)
  end.

(** Any thread may take its next step at any time. *)
Inductive pc_step : PcState -> Label -> PcState -> Prop :=
| step_arm r m s : pc_step s (arm_action r m s).2 (arm_action r m s).1
| step_admin s : pc_step s Silent (admin_action s).

Inductive pc_run (s : PcState) : list Label -> PcState -> Prop :=
| run_start : pc_run s [] s
| run_step tr s1 l s2 : pc_run s tr s1 -> pc_step s1 l s2 -> pc_run s (tr ++ [l]) s2.

(** An execution under a given schedule: which thread steps next. *)
Definition pc_next (choice : option (Role * Motors)) (s : PcState) : PcState * Label :=
  match choice with
  | Some (r, m) => arm_action r m s
  | None => (admin_action s, Silent)
  end.

Fixpoint pc_exec (schedule : list (option (Role * Motors))) (s : PcState) (tr : list Label) : PcState * list Label :=
  match schedule with
  | [] => (s, tr)
  | x :: l => let '(s, lab) := pc_next x s in pc_exec l s (tr ++ [lab])
  end.
End pc.

(** The threads of the two programs, which differ in the cycle of their arms. *)
Definition bilateral_next (tanh : double -> double) := pc_next (bilateral_step tanh).
Definition unilateral_next (tanh : double -> double) := pc_next (unilateral_step tanh).

(** ** What the threads can have seen *)

Definition other (r : Role) : Role := match r with ROLE_LEADER => ROLE_FOLLOWER | ROLE_FOLLOWER => ROLE_LEADER end.

Definition reading (r : Role) (l : Label) : option Motors :=
  match l with Reads r' m => if decide (r = r') then Some m else None | _ => None end.

Definition readings (r : Role) (tr : list Label) : list Motors := omap (reading r) tr.

(** The joint vectors an arm (a gripper) has reported. *)
Definition arm_postures (s : PcState) (r : Role) (tr : list Label) : list (list JointState) :=
  arm_response r s :: map (fun m => arm_motor_to_joint (arm_motors m)) (readings r tr).

Definition hand_postures (s : PcState) (r : Role) (tr : list Label) : list (list JointState) :=
  hand_response r s :: map (fun m => gripper_motor_to_joint (gripper_motors m)) (readings r tr).

(** The references an arm can have. *)
Definition arm_targets (s : PcState) (r : Role) (tr : list Label) : list (list JointState) :=
  arm_reference r s :: arm_postures s (other r) tr.

Definition hand_targets (s : PcState) (r : Role) (tr : list Label) : list (list JointState) :=
  hand_reference r s :: hand_postures s (other r) tr.

(** Nothing of a controller changes but its robot state. *)
Definition same_setup (c0 c : Control) : Prop := c = with_robot_state (ct_robot_state c) c0.

Definition thread_inv (s0 : PcState) (tr : list Label) (r : Role) (t : ArmThread) : Prop :=
  match t with
  | ArmWaiting => True
  | ArmStored m | HandStored m => m ∈ readings r tr
  | ArmRefsRead m ra => m ∈ readings r tr /\ ra ∈ arm_targets s0 r tr
  end.

Definition admin_inv (s0 : PcState) (tr : list Label) (d : AdminThread) : Prop :=
  let LA := arm_postures s0 ROLE_LEADER tr in let FA := arm_postures s0 ROLE_FOLLOWER tr in
  let LH := hand_postures s0 ROLE_LEADER tr in let FH := hand_postures s0 ROLE_FOLLOWER tr in
  match d with
  | AdminWaiting => True
  | AdminRead1 la => la ∈ LA
  | AdminRead2 la fa => la ∈ LA /\ fa ∈ FA
  | AdminRead3 la fa lh => la ∈ LA /\ fa ∈ FA /\ lh ∈ LH
  | AdminRead4 la fa lh fh => la ∈ LA /\ fa ∈ FA /\ lh ∈ LH /\ fh ∈ FH
  | AdminSet1 la lh fh => la ∈ LA /\ lh ∈ LH /\ fh ∈ FH
  | AdminSet2 la lh => la ∈ LA /\ lh ∈ LH
  | AdminSet3 lh => lh ∈ LH
  end.

Record pc_inv (s0 : PcState) (tr : list Label) (s : PcState) : Prop := {
  pi_setup r : same_setup (pc_control r s0) (pc_control r s);
  pi_arm_resp r : arm_response r s ∈ arm_postures s0 r tr;
  pi_hand_resp r : hand_response r s ∈ hand_postures s0 r tr;
  pi_arm_ref r : arm_reference r s ∈ arm_targets s0 r tr;
  pi_hand_ref r : hand_reference r s ∈ hand_targets s0 r tr;
  pi_thread r : thread_inv s0 tr r (pc_thread r s);
  pi_admin : admin_inv s0 tr (pc_admin s);
}.

(** ** The invariant *)

Lemma readings_snoc r tr l :
  readings r (tr ++ [l]) = readings r tr ++ match reading r l with Some m => [m] | None => [] end.
Proof. unfold readings. rewrite omap_app. simpl. by destruct (reading r l). Qed.

Lemma readings_mono r tr l m : m ∈ readings r tr -> m ∈ readings r (tr ++ [l]).
Proof. rewrite readings_snoc, elem_of_app. by left. Qed.

Lemma arm_postures_mono s r tr l v : v ∈ arm_postures s r tr -> v ∈ arm_postures s r (tr ++ [l]).
Proof.
  unfold arm_postures. rewrite readings_snoc, map_app, !elem_of_cons, elem_of_app. tauto.
Qed.

Lemma hand_postures_mono s r tr l v : v ∈ hand_postures s r tr -> v ∈ hand_postures s r (tr ++ [l]).
Proof.
  unfold hand_postures. rewrite readings_snoc, map_app, !elem_of_cons, elem_of_app. tauto.
Qed.

Lemma arm_targets_mono s r tr l v : v ∈ arm_targets s r tr -> v ∈ arm_targets s r (tr ++ [l]).
Proof. unfold arm_targets. rewrite !elem_of_cons. intros [?|?]; [by left|right]. by apply arm_postures_mono. Qed.

Lemma hand_targets_mono s r tr l v : v ∈ hand_targets s r tr -> v ∈ hand_targets s r (tr ++ [l]).
Proof. unfold hand_targets. rewrite !elem_of_cons. intros [?|?]; [by left|right]. by apply hand_postures_mono. Qed.

Create HintDb traces discriminated.
#[export] Hint Resolve readings_mono arm_postures_mono hand_postures_mono arm_targets_mono hand_targets_mono : traces.

Lemma reading_arm s r tr m : m ∈ readings r tr -> arm_motor_to_joint (arm_motors m) ∈ arm_postures s r tr.
Proof.
  intros Hm. unfold arm_postures. rewrite elem_of_cons. right.
  apply list_elem_of_In, (in_map (fun m => arm_motor_to_joint (arm_motors m))). by apply list_elem_of_In.
Qed.

Lemma reading_hand s r tr m : m ∈ readings r tr -> gripper_motor_to_joint (gripper_motors m) ∈ hand_postures s r tr.
Proof.
  intros Hm. unfold hand_postures. rewrite elem_of_cons. right.
  apply list_elem_of_In, (in_map (fun m => gripper_motor_to_joint (gripper_motors m))). by apply list_elem_of_In.
Qed.

Lemma posture_arm_target s r tr v : v ∈ arm_postures s (other r) tr -> v ∈ arm_targets s r tr.
Proof. unfold arm_targets. rewrite elem_of_cons. by right. Qed.

Lemma posture_hand_target s r tr v : v ∈ hand_postures s (other r) tr -> v ∈ hand_targets s r tr.
Proof. unfold hand_targets. rewrite elem_of_cons. by right. Qed.

#[export] Hint Resolve reading_arm reading_hand posture_arm_target posture_hand_target : traces.

Lemma thread_inv_mono s0 tr l r t : thread_inv s0 tr r t -> thread_inv s0 (tr ++ [l]) r t.
Proof. destruct t; simpl; intuition auto with traces. Qed.

Lemma admin_inv_mono s0 tr l d : admin_inv s0 tr d -> admin_inv s0 (tr ++ [l]) d.
Proof. destruct d; simpl; intuition auto with traces. Qed.

Lemma same_setup_robot c0 c s : same_setup c0 c -> same_setup c0 (with_robot_state s c).
Proof. unfold same_setup. by intros ->. Qed.

Lemma pc_inv_start s :
  pc_lthread s = ArmWaiting -> pc_fthread s = ArmWaiting -> pc_admin s = AdminWaiting -> pc_inv s [] s.
Proof.
  intros Hl Hf Hd. split; [intros []; by destruct s as [[] []]| | | | | |by rewrite Hd];
    intros r; try (apply elem_of_cons; by left). by destruct r; cbn [pc_thread]; rewrite ?Hl, ?Hf.
Qed.

(** The parts of the state an update leaves alone, and the one it changes. *)
Lemma pc_control_set r r' c s : pc_control r' (set_control r c s) = if decide (r' = r) then c else pc_control r' s.
Proof. by destruct r, r'. Qed.

Lemma pc_thread_set r r' t s : pc_thread r' (set_thread r t s) = if decide (r' = r) then t else pc_thread r' s.
Proof. by destruct r, r'. Qed.

Lemma pc_control_set_thread r r' t s : pc_control r' (set_thread r t s) = pc_control r' s.
Proof. by destruct r, r'. Qed.

Lemma pc_thread_set_control r r' c s : pc_thread r' (set_control r c s) = pc_thread r' s.
Proof. by destruct r, r'. Qed.

Lemma pc_admin_set_thread r t s : pc_admin (set_thread r t s) = pc_admin s.
Proof. by destruct r. Qed.

Lemma pc_admin_set_control r c s : pc_admin (set_control r c s) = pc_admin s.
Proof. by destruct r. Qed.

(** One more label changes nothing that held. *)
Lemma pc_inv_mono s0 tr l s : pc_inv s0 tr s -> pc_inv s0 (tr ++ [l]) s.
Proof.
  intros [H1 H2 H3 H4 H5 H6 H7]. split; intros; auto with traces; [by apply thread_inv_mono|by apply admin_inv_mono].
Qed.

Lemma pc_inv_thread s0 tr s r t : pc_inv s0 tr s -> thread_inv s0 tr r t -> pc_inv s0 tr (set_thread r t s).
Proof.
  intros [H1 H2 H3 H4 H5 H6 H7] Ht. split; intros; unfold arm_response, hand_response, arm_reference, hand_reference in *;
    rewrite ?pc_control_set_thread, ?pc_admin_set_thread; auto.
  rewrite pc_thread_set. case_decide; subst; auto.
Qed.

Lemma pc_inv_admin s0 tr s d : pc_inv s0 tr s -> admin_inv s0 tr d -> pc_inv s0 tr (set_admin d s).
Proof. intros [H1 H2 H3 H4 H5 H6 H7] Hd. by split. Qed.

(** A new robot state of an arm: each of its vectors has to be a known one. *)
Lemma pc_inv_robot s0 tr s r a h :
  pc_inv s0 tr s -> rs_response a ∈ arm_postures s0 r tr -> rs_reference a ∈ arm_targets s0 r tr ->
  rs_response h ∈ hand_postures s0 r tr -> rs_reference h ∈ hand_targets s0 r tr ->
  pc_inv s0 tr (set_control r (with_robot_state (mkRobotSystem a h) (pc_control r s)) s).
Proof.
  intros [H1 H2 H3 H4 H5 H6 H7] A1 A2 A3 A4.
  split; intros; unfold arm_response, hand_response, arm_reference, hand_reference in *;
    rewrite ?pc_control_set, ?pc_thread_set_control, ?pc_admin_set_control; try case_decide; subst; auto.
  by apply same_setup_robot.
Qed.

(** What the invariant [H] says of a vector. *)
Ltac known H :=
  cbn [admin_inv]; cbv zeta;
  lazymatch goal with
  | |- _ ∈ arm_postures _ ?r _ => exact (pi_arm_resp _ _ _ H r)
  | |- _ ∈ hand_postures _ ?r _ => exact (pi_hand_resp _ _ _ H r)
  | |- _ ∈ arm_targets _ ?r _ => exact (pi_arm_ref _ _ _ H r)
  | |- _ ∈ hand_targets _ ?r _ => exact (pi_hand_ref _ _ _ H r)
  end.

Lemma pc_step_inv cycle s0 tr s l s' : pc_inv s0 tr s -> pc_step cycle s l s' -> pc_inv s0 (tr ++ [l]) s'.
Proof.
  intros H Hs. destruct Hs as [r m s|s].
  - pose proof (pi_thread _ _ _ H r) as Ht. unfold arm_action. destruct (pc_thread r s) as [|m'|m'|m' ra]; cbn [fst snd].
    + assert (Hm : m ∈ readings r (tr ++ [Reads r m])).
      { rewrite readings_snoc. cbn [reading]. rewrite decide_True by done. apply elem_of_app. right. by apply elem_of_cons; left. }
      apply (pc_inv_mono _ _ (Reads r m)) in H. apply pc_inv_thread; [|exact Hm].
      apply pc_inv_robot; [done|by apply reading_arm|known H..].
    + apply pc_inv_mono. apply pc_inv_thread; [|exact Ht].
      apply pc_inv_robot; [done|known H|known H|by apply reading_hand|known H].
    + apply pc_inv_mono. apply pc_inv_thread; [done|]. split; [exact Ht|known H].
    + apply pc_inv_mono. by apply pc_inv_thread.
  - apply pc_inv_mono. pose proof (pi_admin _ _ _ H) as Hd. unfold admin_action.
    destruct (pc_admin s); cbn [admin_inv] in Hd; cbv zeta in Hd.
    + apply pc_inv_admin; [done|known H].
    + apply pc_inv_admin; [done|]. split; [done|known H].
    + apply pc_inv_admin; [done|]. destruct Hd. split_and!; [done..|known H].
    + apply pc_inv_admin; [done|]. destruct Hd as (? & ? & ?). split_and!; [done..|known H].
    + apply pc_inv_admin; [|cbn [admin_inv]; cbv zeta; tauto]. apply (pc_inv_robot _ _ _ ROLE_LEADER); [done|known H| |known H..].
      apply posture_arm_target, Hd.
    + apply pc_inv_admin; [|cbn [admin_inv]; cbv zeta; tauto]. apply (pc_inv_robot _ _ _ ROLE_LEADER); [done|known H..|].
      apply posture_hand_target, Hd.
    + apply pc_inv_admin; [|cbn [admin_inv]; cbv zeta; tauto]. apply (pc_inv_robot _ _ _ ROLE_FOLLOWER); [done|known H| |known H..].
      apply posture_arm_target, Hd.
    + apply pc_inv_admin; [|done]. apply (pc_inv_robot _ _ _ ROLE_FOLLOWER); [done|known H..|].
      apply posture_hand_target, Hd.
Qed.

Lemma pc_run_inv cycle s tr s' :
  pc_lthread s = ArmWaiting -> pc_fthread s = ArmWaiting -> pc_admin s = AdminWaiting ->
  pc_run cycle s tr s' -> pc_inv s tr s'.
Proof.
  intros Hl Hf Hd Hr. induction Hr as [|tr s1 l s2 _ IH Hs]; [by apply pc_inv_start|by eapply pc_step_inv].
Qed.

(** ** Cycles that track their references *)

(** What is sent to an arm whose references are [ra] and [rh]: the positions and
    velocities they name. *)
Definition follows (ra rh : list JointState) (arm hand : list MITParam) : Prop :=
  (forall i p, arm !! i = Some p -> exists j, ra !! i = Some j /\ q_ref p = js_position j /\ dq_ref p = js_velocity j) /\
  (forall i p, hand !! i = Some p -> exists j, rh !! i = Some j /\
     q_ref p = hand_to_motor (js_position j) /\ dq_ref p = js_velocity j).

(** A control cycle that does so for the arm in role [r]. *)
Class TrackingCycle (cycle : Motors -> Control -> Control * outcome Commands) (r : Role) : Prop :=
  tracks m c arm hand : ct_role c = r -> (cycle m c).2 = Ok (arm, hand) ->
    follows (rs_reference (arm_state (ct_robot_state c))) (rs_reference (hand_state (ct_robot_state c))) arm hand.

#[export] Instance unilateral_tracks tanh : TrackingCycle (unilateral_step tanh) ROLE_FOLLOWER.
Proof.
  intros m c arm hand Hr H. destruct (unilateral_step tanh m c) as [c' o] eqn:E. cbn [snd] in H. subst o.
  destruct (unilateral_follower tanh m c c' arm hand Hr E) as (_ & _ & _ & _ & _ & Ha & Hh). split; intros i p Hp.
  - destruct (Ha i p Hp) as (j & Hj & _ & _ & Hq & Hd & _). by exists j.
  - destruct (Hh i p Hp) as (j & Hj & _ & _ & Hq & Hd & _). by exists j.
Qed.

(** References with other efforts. *)
Definition same_pose (l l' : list JointState) : Prop :=
  forall i j', l' !! i = Some j' -> exists j, l !! i = Some j /\ js_position j' = js_position j /\ js_velocity j' = js_velocity j.

Lemma built_same_pose (l l' : list JointState) n (body : nat -> outcome JointState) :
  for_n n body = Ok l' ->
  (forall i j', body i = Ok j' -> exists j, l !! i = Some j /\ js_position j' = js_position j /\ js_velocity j' = js_velocity j) ->
  same_pose l l'.
Proof. intros [_ Hf]%for_n_ok Hb i j' Hj. by apply Hb, Hf. Qed.

Lemma sent_pose (l l' : list JointState) (conv : list JointState -> list MotorState) (f : double -> double)
    (n : nat) (gain gain' : nat -> outcome double) (cmds : list MITParam) :
  same_pose l l' ->
  (forall l i x, conv l !! i = Some x -> exists j, l !! i = Some j /\ ms_position x = f (js_position j) /\ ms_velocity x = js_velocity j) ->
  for_n n (fun i => p ← gain i; d ← gain' i; r ← vget (conv l') i;
    Ok (mkMIT p d (ms_position r) (ms_velocity r) (ms_effort r))) = Ok cmds ->
  forall i p, cmds !! i = Some p -> exists j, l !! i = Some j /\ q_ref p = f (js_position j) /\ dq_ref p = js_velocity j.
Proof.
  intros Hs Hc [_ Hf]%for_n_ok i p Hp. apply Hf in Hp. apply bind_ok in Hp as (a & _ & Hp). apply bind_ok in Hp as (b & _ & Hp).
  apply bind_ok in Hp as (x & Hx%vget_ok & [= <-]). destruct (Hc l' i x Hx) as (j' & Hj' & P & V).
  destruct (Hs i j' Hj') as (j & Hj & Pj & Vj). exists j. cbn [q_ref dq_ref]. rewrite P, V, Pj, Vj. by split_and!.
Qed.

Lemma arm_conv_lookup (l : list JointState) i x :
  arm_joint_to_motor l !! i = Some x -> exists j, l !! i = Some j /\ ms_position x = js_position j /\ ms_velocity x = js_velocity j.
Proof. unfold arm_joint_to_motor. rewrite list_lookup_fmap. intros (j & Hj & ->)%fmap_Some. by exists j. Qed.

Lemma hand_conv_lookup (l : list JointState) i x :
  gripper_joint_to_motor l !! i = Some x ->
  exists j, l !! i = Some j /\ ms_position x = hand_to_motor (js_position j) /\ ms_velocity x = js_velocity j.
Proof. unfold gripper_joint_to_motor. rewrite list_lookup_fmap. intros (j & Hj & ->)%fmap_Some. by exists j. Qed.

#[export] Instance bilateral_tracks tanh r : TrackingCycle (bilateral_step tanh) r.
Proof.
  intros m c arm hand _ H. unfold bilateral_step in H. cbv zeta in H. cbn [snd] in H.
  apply bind_ok in H as (l1 & _ & H). apply bind_ok in H as (d & _ & H). apply bind_ok in H as (g & _ & H).
  apply bind_ok in H as (co & _ & H). apply bind_ok in H as (fr & _ & H). apply bind_ok in H as (ra & Hra & H).
  apply bind_ok in H as (l2 & _ & H). apply bind_ok in H as (rh & Hrh & H).
  apply bind_ok in H as (ac & Hac & H). apply bind_ok in H as (hc & Hhc & [= <- <-]). split.
  - eapply (sent_pose _ ra _ (fun x => x)); [|apply arm_conv_lookup|exact Hac].
    apply (built_same_pose _ _ _ _ Hra). intros i j' H. apply bind_ok in H as (j & Hj%vget_ok & H). exists j.
    case_decide; [|by injection H as <-]. apply bind_ok in H as (x & _ & H). by apply bind_ok in H as (y & _ & [= <-]).
  - eapply (sent_pose _ rh _ hand_to_motor); [|apply hand_conv_lookup|exact Hhc].
    apply (built_same_pose _ _ _ _ Hrh). intros i j' H. apply bind_ok in H as (j & Hj%vget_ok & H). exists j.
    case_decide; [|by injection H as <-]. by apply bind_ok in H as (x & _ & [= <-]).
Qed.

(** ** Executions *)

Lemma pc_next_step cycle x s : pc_step cycle s (pc_next cycle x s).2 (pc_next cycle x s).1.
Proof. destruct x as [[r m]|]; [apply step_arm|apply step_admin]. Qed.

Lemma pc_exec_run cycle schedule s tr s1 :
  pc_run cycle s tr s1 -> pc_run cycle s (pc_exec cycle schedule s1 tr).2 (pc_exec cycle schedule s1 tr).1.
Proof.
  revert s1 tr. induction schedule as [|x l IH]; intros s1 tr Hr; [done|]. cbn [pc_exec].
  pose proof (pc_next_step cycle x s1) as Hs. destruct (pc_next cycle x s1) as [s2 lab]. apply IH. by eapply run_step.
Qed.

Lemma keeps_own_references c : on_arm (set_references (rs_reference (arm_state (ct_robot_state c)))) c = c.
Proof. by destruct c, ct_robot_state as [[] []]. Qed.

Lemma stores_responses m c :
  on_hand (set_responses (gripper_motor_to_joint (gripper_motors m)))
    (on_arm (set_responses (arm_motor_to_joint (arm_motors m))) c) = with_responses m c.
Proof. by destruct c, ct_robot_state as [[] []]. Qed.

(** A cycle that is not interrupted is the controller's. *)
Lemma cycle_uninterrupted cycle r m s :
  (forall c, cycle m (with_responses m c) = cycle m c) -> pc_thread r s = ArmWaiting ->
  let '(s', tr) := pc_exec cycle (replicate 4 (Some (r, m))) s [] in
  pc_control r s' = with_responses m (pc_control r s) /\ pc_thread r s' = ArmWaiting /\
  tr = [Reads r m; Silent; Silent; Sends r (cycle m (pc_control r s)).2].
Proof.
  intros Hc Ht. destruct s as [cl cf tl tf ad].
  destruct r; cbn [pc_thread pc_lthread pc_fthread] in Ht; subst; rewrite <- (Hc (pc_control _ _)), <- stores_responses;
    cbn -[on_hand on_arm]; unfold arm_reference; cbn -[on_hand on_arm]; by rewrite keeps_own_references.
Qed.

(** An uninterrupted round of the admin thread exchanges the postures. *)
Lemma admin_uninterrupted cycle r s :
  pc_admin s = AdminWaiting ->
  let s' := (pc_exec cycle (replicate 8 None) s []).1 in
  arm_reference r s' = arm_response (other r) s /\ hand_reference r s' = hand_response (other r) s /\
  arm_response r s' = arm_response r s /\ hand_response r s' = hand_response r s /\ pc_admin s' = AdminWaiting.
Proof. intros Ha. destruct s as [cl cf tl tf ad]. cbn in Ha. subst. by destruct r. Qed.

(** ** Every command is sent *)

(** What the parameters of a controller have to offer for [n] arm and [k] gripper
    joints. *)
Definition fits_arm (r : Role) (n k : nat) (c : Control) : Prop :=
  (exists d, match r with ROLE_LEADER => ct_dynamics_l c | ROLE_FOLLOWER => ct_dynamics_f c end = Some d /\ (njoints d <= n)%nat) /\
  friction_params c (n + k) /\ (n + k <= length (Kp_ c))%nat /\ (n + k <= length (Kd_ c))%nat.

Lemma for_n_vget {A} (l : list A) n : (n <= length l)%nat -> exists l', for_n n (fun i => vget l i) = Ok l'.
Proof. intros Hn. apply for_n_total. intros i Hi. destruct (vget_lt l i) as (x & Hx & _); [lia|]. by exists x. Qed.

(** The commands of the arm and of the gripper, whose gains are those of joint [ix i]. *)
Lemma commands_total (Kp Kd : list double) (l : list MotorState) (n : nat) (ix : nat -> nat) :
  (forall i, (i < n)%nat -> (ix i < length Kp)%nat /\ (ix i < length Kd)%nat) -> length l = n ->
  exists cmds, for_n n (fun i => p ← vget Kp (ix i); d ← vget Kd (ix i); r ← vget l i;
    Ok (mkMIT p d (ms_position r) (ms_velocity r) (ms_effort r))) = Ok cmds.
Proof.
  intros Hix Hl. apply for_n_total. intros i Hi. destruct (Hix i Hi) as [Hp Hd].
  destruct (vget_lt Kp (ix i)) as (? & -> & _); [lia|]. destruct (vget_lt Kd (ix i)) as (? & -> & _); [lia|].
  destruct (vget_lt l i) as (? & -> & _); [lia|]. by eexists.
Qed.

Lemma bilateral_step_sends tanh m c :
  let n := length (arm_motors m) in let k := length (gripper_motors m) in
  fits_arm (ct_role c) n k c ->
  length (rs_reference (arm_state (ct_robot_state c))) = n -> length (rs_reference (hand_state (ct_robot_state c))) = k ->
  exists cmds, (bilateral_step tanh m c).2 = Ok cmds.
Proof.
  cbv zeta. intros ((d & Hd & Hn) & Hf & Hp & Hk) La Lh. unfold bilateral_step. cbv zeta. cbn [snd].
  cbn [ct_role ct_dynamics_l ct_dynamics_f Kp_ Kd_ with_responses with_robot_state ct_robot_state arm_state hand_state
    set_responses rs_response rs_reference] in *.
  rewrite !length_arm_motor_to_joint, !length_gripper_motor_to_joint, Hd.
  set (ra := rs_reference (arm_state (ct_robot_state c))) in *. set (rh := rs_reference (hand_state (ct_robot_state c))) in *.
  set (n := length (arm_motors m)) in *. set (k := length (gripper_motors m)) in *.
  set (pos := map js_position _). set (vel := map js_velocity (arm_motor_to_joint _)). set (gvel := map js_velocity _).
  assert (Lp : length pos = n) by (unfold pos; by rewrite length_map, length_arm_motor_to_joint).
  assert (Lv : length vel = n) by (unfold vel; by rewrite length_map, length_arm_motor_to_joint).
  assert (Lg : length gvel = k) by (unfold gvel; by rewrite length_map, length_gripper_motor_to_joint).
  destruct (for_n_vget ra n) as [l1 ->]; [lia|]. cbn [mbind outcome_bind deref].
  destruct (GetGravity_ok d pos (replicate n d0)) as (g & -> & Lgr & _); [lia|rewrite length_replicate; lia|].
  cbn [mbind outcome_bind].
  destruct (GetCoriolis_ok d pos vel (replicate n d0)) as (co & -> & _); [lia|lia|rewrite length_replicate; lia|].
  cbn [mbind outcome_bind]. rewrite length_replicate in Lgr.
  match goal with |- context [ComputeAllFriction tanh ?c' vel gvel] => destruct (friction_total tanh c' vel gvel) as [f Hfr] end.
  { by rewrite Lv, Lg. }
  rewrite Hfr. apply friction_length in Hfr. rewrite Lv, Lg in Hfr. cbn [mbind outcome_bind].
  rewrite La, Lh.
  destruct (for_n_total n (fun i => r ← vget ra i; if decide (i < n)%nat then
      x ← vget g i; y ← vget f i; Ok (mkJointState (js_position r) (js_velocity r) (x + y)%D) else Ok r)) as [ra' Hra].
  { intros i Hi. destruct (vget_lt ra i) as (? & -> & _); [lia|]. cbn [mbind outcome_bind]. case_decide; [|by eexists].
    destruct (vget_lt g i) as (? & -> & _); [lia|]. destruct (vget_lt f i) as (? & -> & _); [lia|]. by eexists. }
  rewrite Hra. apply for_n_ok in Hra as [Lra _]. cbn [mbind outcome_bind].
  destruct (for_n_vget rh k) as [l2 ->]; [lia|]. cbn [mbind outcome_bind].
  destruct (for_n_total k (fun i => r ← vget rh i; if decide (i < k)%nat then
      y ← vget f (i + n); Ok (mkJointState (js_position r) (js_velocity r) y) else Ok r)) as [rh' Hrh].
  { intros i Hi. destruct (vget_lt rh i) as (? & -> & _); [lia|]. cbn [mbind outcome_bind]. case_decide; [|by eexists].
    destruct (vget_lt f (i + n)) as (? & -> & _); [lia|]. by eexists. }
  rewrite Hrh. apply for_n_ok in Hrh as [Lrh _]. cbn [mbind outcome_bind].
  destruct (commands_total (Kp_ c) (Kd_ c) (arm_joint_to_motor ra') n (fun i => i)) as [ac Hac];
    [lia|unfold arm_joint_to_motor; by rewrite length_map|].
  destruct (commands_total (Kp_ c) (Kd_ c) (gripper_joint_to_motor rh') k (fun i => i + n)%nat) as [hc Hhc];
    [lia|unfold gripper_joint_to_motor; by rewrite length_map|].
  rewrite Hac. cbn [mbind outcome_bind]. rewrite Hhc. by eexists.
Qed.

(** Both arms have [n] joints and their grippers [k]: the shared states and every
    reading. *)
Definition motors_shaped (n k : nat) (l : Label) : Prop :=
  match l with Reads _ m => length (arm_motors m) = n /\ length (gripper_motors m) = k | _ => True end.

Definition state_shaped (n k : nat) (s : PcState) : Prop :=
  forall r, length (arm_response r s) = n /\ length (arm_reference r s) = n /\
            length (hand_response r s) = k /\ length (hand_reference r s) = k.

Lemma readings_shaped n k r tr m : Forall (motors_shaped n k) tr -> m ∈ readings r tr ->
  length (arm_motors m) = n /\ length (gripper_motors m) = k.
Proof.
  intros Hf (l & Hl & Hr)%list_elem_of_omap. rewrite Forall_forall in Hf. apply Hf in Hl.
  destruct l as [r' m'| |]; cbn [reading] in Hr; try discriminate. case_decide; [|discriminate]. by injection Hr as ->.
Qed.

Lemma arm_targets_shaped n k s r tr v :
  state_shaped n k s -> Forall (motors_shaped n k) tr -> v ∈ arm_targets s r tr -> length v = n.
Proof.
  intros Hs Hf. unfold arm_targets, arm_postures. rewrite !elem_of_cons. intros [->|[->|Hv]]; [apply Hs..|].
  apply list_elem_of_In, in_map_iff in Hv as (m & <- & Hm%list_elem_of_In).
  rewrite length_arm_motor_to_joint. by eapply readings_shaped.
Qed.

Lemma hand_targets_shaped n k s r tr v :
  state_shaped n k s -> Forall (motors_shaped n k) tr -> v ∈ hand_targets s r tr -> length v = k.
Proof.
  intros Hs Hf. unfold hand_targets, hand_postures. rewrite !elem_of_cons. intros [->|[->|Hv]]; [apply Hs..|].
  apply list_elem_of_In, in_map_iff in Hv as (m & <- & Hm%list_elem_of_In).
  rewrite length_gripper_motor_to_joint. by eapply readings_shaped.
Qed.

(** What a thread that sends was doing. *)
Lemma sends_step cycle r o s1 s2 : pc_step cycle s1 (Sends r o) s2 ->
  exists m ra, pc_thread r s1 = ArmRefsRead m ra /\ o = (cycle m (on_arm (set_references ra) (pc_control r s1))).2.
Proof.
  intros Hs. inversion Hs as [r' m s' E1 E2 E3|]; subst. unfold arm_action in E2.
  destruct (pc_thread r' s1) as [|m'|m'|m' ra] eqn:Ht; try discriminate E2.
  cbn [snd] in E2. injection E2 as -> <-. by exists m', ra.
Qed.

(** What is sent follows known vectors. *)
Lemma sends_follow cycle r s s1 s2 tr arm hand :
  TrackingCycle cycle r -> ct_role (pc_control r s) = r ->
  pc_inv s tr s1 -> pc_step cycle s1 (Sends r (Ok (arm, hand))) s2 ->
  exists ra rh, ra ∈ arm_targets s r tr /\ rh ∈ hand_targets s r tr /\ follows ra rh arm hand.
Proof.
  intros Ht Hrole H Hs. destruct (sends_step _ _ _ _ _ Hs) as (m' & ra & Ht' & E2).
  pose proof (pi_thread _ _ _ H r) as Hth. rewrite Ht' in Hth. destruct Hth as [_ Hra].
  exists ra, (hand_reference r s1). split; [exact Hra|]. split; [known H|]. refine (Ht _ _ _ _ _ (eq_sym E2)).
  pose proof (pi_setup _ _ _ H r) as Hc. unfold same_setup in Hc. rewrite Hc. exact Hrole.
Qed.

(** ** Properties *)

(** C32: The arms mirror whole postures, in every interleaving. Whenever an arm's
    thread sends commands, the positions and velocities commanded to its arm
    joints are those of one vector: its references at the start, or a posture the
    other arm reported earlier (never a mixture of two moments); the same holds
    of its gripper. Nothing else in the controllers has changed. It holds of both
    arms of the bilateral program and of the follower of the unilateral one. *)
Theorem pc_mirrors_postures (cycle : Motors -> Control -> Control * outcome Commands) (r : Role)
    (s s1 s2 : PcState) (tr : list Label) (arm hand : list MITParam) :
  TrackingCycle cycle r -> ct_role (pc_control r s) = r ->
  pc_lthread s = ArmWaiting -> pc_fthread s = ArmWaiting -> pc_admin s = AdminWaiting ->
  pc_run cycle s tr s1 -> pc_step cycle s1 (Sends r (Ok (arm, hand))) s2 ->
  same_setup (pc_control r s) (pc_control r s2) /\
  exists ra rh, ra ∈ arm_targets s r tr /\ rh ∈ hand_targets s r tr /\ follows ra rh arm hand.
Proof.
  intros Ht Hrole Hl Hf Hd Hrun Hs. pose proof (pc_run_inv _ _ _ _ Hl Hf Hd Hrun) as H.
  split; [by apply (pc_step_inv _ _ _ _ _ _ H) in Hs as [Hc _ _ _ _ _ _]|].
  by apply (sends_follow cycle r s s1 s2).
Qed.

(** The bilateral program never reads outside a vector and never stops
    sending, in every interleaving. If both arms report the joints their
    parameters and references are for, every cycle of either arm ends by sending
    commands: the exchange of references never leaves one whose length does not
    match. *)
Lemma pc_always_sends (tanh : double -> double) (n k : nat) (r : Role) (s s1 s2 : PcState)
    (tr : list Label) (o : outcome Commands) :
  ct_role (pc_control r s) = r -> fits_arm r n k (pc_control r s) -> state_shaped n k s ->
  pc_lthread s = ArmWaiting -> pc_fthread s = ArmWaiting -> pc_admin s = AdminWaiting ->
  pc_run (bilateral_step tanh) s tr s1 -> Forall (motors_shaped n k) tr ->
  pc_step (bilateral_step tanh) s1 (Sends r o) s2 ->
  exists cmds, o = Ok cmds.
Proof.
  intros Hrole Hfit Hsh Hl Hf Hd Hrun Htr Hs. pose proof (pc_run_inv _ _ _ _ Hl Hf Hd Hrun) as H.
  destruct (sends_step _ _ _ _ _ Hs) as (m' & ra & Ht' & ->).
  pose proof (pi_thread _ _ _ H r) as Hth. rewrite Ht' in Hth. destruct Hth as [Hm Hra].
  destruct (readings_shaped _ _ _ _ _ Htr Hm) as [En Ek].
  pose proof (pi_setup _ _ _ H r) as Hc. unfold same_setup in Hc. rewrite Hc.
  apply bilateral_step_sends; rewrite En || rewrite Ek; [rewrite Ek; change (fits_arm (ct_role (pc_control r s)) n k (pc_control r s)); by rewrite Hrole| |].
  - exact (arm_targets_shaped _ _ _ _ _ _ Hsh Htr Hra).
  - exact (hand_targets_shaped _ _ _ _ _ _ Hsh Htr (pi_hand_ref _ _ _ H r)).
Qed.

(** A leader's unilateral cycle depends on nothing but the parameters of its
    controller and what its own motors report. *)
Lemma unilateral_leader_local (tanh : double -> double) (m : Motors) (c0 c : Control) :
  ct_role c0 = ROLE_LEADER -> same_setup c0 c -> (unilateral_step tanh m c).2 = (unilateral_step tanh m c0).2.
Proof.
  intros Hr ->. unfold unilateral_step. cbn [ct_role with_responses with_robot_state]. rewrite Hr. reflexivity.
Qed.

(** In the unilateral program the operator's arm is not touched by the other one:
    whatever the interleaving, everything its thread sends is its own cycle, with the
    controller the program started with, on a posture that its own motors reported. *)
Lemma unilateral_leader_independent (tanh : double -> double) (s s1 : PcState) (tr : list Label)
    (choice : option (Role * Motors)) (o : outcome Commands) :
  ct_role (pc_leader s) = ROLE_LEADER ->
  pc_lthread s = ArmWaiting -> pc_fthread s = ArmWaiting -> pc_admin s = AdminWaiting ->
  pc_run (unilateral_step tanh) s tr s1 -> (unilateral_next tanh choice s1).2 = Sends ROLE_LEADER o ->
  exists m, m ∈ readings ROLE_LEADER tr /\ o = (unilateral_step tanh m (pc_leader s)).2.
Proof.
  intros Hrole Hl Hf Hd Hrun Hn. pose proof (pc_run_inv _ _ _ _ Hl Hf Hd Hrun) as H.
  pose proof (pc_next_step (unilateral_step tanh) choice s1) as Hs. unfold unilateral_next in Hn. rewrite Hn in Hs.
  destruct (sends_step _ _ _ _ _ Hs) as (m & ra & Ht & ->).
  pose proof (pi_thread _ _ _ H ROLE_LEADER) as Hth. rewrite Ht in Hth. destruct Hth as [Hm _].
  exists m. split; [done|]. apply unilateral_leader_local; [done|].
  pose proof (pi_setup _ _ _ H ROLE_LEADER) as Hc. unfold on_arm. by apply same_setup_robot.
Qed.

(** ** Witnesses *)

Definition pc_params (r : Role) : Control :=
  SetParameter (replicate 8 d1) (replicate 8 d1) (replicate 8 d1) (replicate 8 d1) (replicate 8 d1) (replicate 8 d1)
    (control_new (Some unit_dynamics) (Some unit_dynamics) (robot_system_new 7 1) d1 r).

Definition pc_start : PcState :=
  mkPcState (pc_params ROLE_LEADER) (pc_params ROLE_FOLLOWER) ArmWaiting ArmWaiting AdminWaiting.

(** The leader reports its posture, the admin thread copies it, the follower's
    cycle comes to its last step. *)
Definition pc_schedule : list (option (Role * Motors)) :=
  replicate 2 (Some (ROLE_LEADER, test_motors)) ++ replicate 8 None ++ replicate 3 (Some (ROLE_FOLLOWER, test_motors)).

Definition pc_before := pc_exec (bilateral_step id) pc_schedule pc_start [].

Lemma pc_mirrors_postures_witness :
  exists s2 arm hand ra rh, pc_step (bilateral_step id) pc_before.1 (Sends ROLE_FOLLOWER (Ok (arm, hand))) s2 /\
    length arm = 7%nat /\
    ra ∈ arm_targets pc_start ROLE_FOLLOWER pc_before.2 /\ rh ∈ hand_targets pc_start ROLE_FOLLOWER pc_before.2 /\
    follows ra rh arm hand.
Proof.
  assert (H : exists arm hand, (pc_next (bilateral_step id) (Some (ROLE_FOLLOWER, test_motors)) pc_before.1).2 =
    Sends ROLE_FOLLOWER (Ok (arm, hand)) /\ length arm = 7%nat) by (do 2 eexists; split; vm_compute; reflexivity).
  destruct H as (arm & hand & Hl & Hn).
  pose proof (pc_next_step (bilateral_step id) (Some (ROLE_FOLLOWER, test_motors)) pc_before.1) as Hs. rewrite Hl in Hs.
  destruct (pc_mirrors_postures (bilateral_step id) ROLE_FOLLOWER pc_start pc_before.1 _ pc_before.2 arm hand
    (bilateral_tracks id ROLE_FOLLOWER) eq_refl eq_refl eq_refl eq_refl
    (pc_exec_run _ _ _ _ _ (run_start _ _)) Hs) as [_ (ra & rh & Ha & Hh & Hf)].
  eexists _, arm, hand, ra, rh. split_and!; [exact Hs|exact Hn|exact Ha|exact Hh|exact Hf].
Defined.

Lemma pc_always_sends_witness :
  exists o s2, pc_step (bilateral_step id) pc_before.1 (Sends ROLE_FOLLOWER o) s2 /\ exists cmds, o = Ok cmds.
Proof.
  assert (H : exists o, (pc_next (bilateral_step id) (Some (ROLE_FOLLOWER, test_motors)) pc_before.1).2 =
    Sends ROLE_FOLLOWER o) by (eexists; vm_compute; reflexivity).
  destruct H as (o & Hl).
  pose proof (pc_next_step (bilateral_step id) (Some (ROLE_FOLLOWER, test_motors)) pc_before.1) as Hs. rewrite Hl in Hs.
  exists o. eexists. split; [exact Hs|].
  refine (pc_always_sends id 7 1 ROLE_FOLLOWER pc_start pc_before.1 _ pc_before.2 o eq_refl _ _ eq_refl eq_refl eq_refl _ _ Hs).
  - split; [exists unit_dynamics; split; [reflexivity|vm_compute; lia]|]. split; [unfold friction_params; simpl; lia|simpl; lia].
  - by intros [].
  - exact (pc_exec_run _ _ _ _ _ (run_start _ _)).
  - repeat first [apply Forall_nil_2|apply Forall_cons_2; [first [exact I|split; reflexivity]|]].
Defined.
