(* ===== verification/Startup.v ===== *)
(** * Startup: bringing the arms up

    [src/src/openarm_port/openarm_init.cpp] and the start-up in real mode of the
    bimanual leader and follower ([src/src/apps/]): configuration, dynamics,
    motors, hardware check and controllers, in the order of the code, with what
    every early return leaves enabled. A small writer monad records the calls on
    the CAN library, which stays a parameter. *)

From S2P Require Import Prelude Float64 Packets Dynamics RobotState Control AppCommon LeaderApp FollowerApp Yaml.

Open Scope Z_scope.

(** ** Motors *)

(** The motor types of the CAN library that the programs name. *)
Inductive MotorType := DM8009 | DM4340 | DM4310.

Record MotorConfig := mkMotorConfig {
  arm_motor_types : list MotorType;
  arm_send_can_ids : list Z; arm_recv_can_ids : list Z;
  gripper_motor_type : MotorType;
  gripper_send_can_id : Z; gripper_recv_can_id : Z;
}.

Definition DEFAULT_MOTOR_CONFIG : MotorConfig :=
  mkMotorConfig [DM8009; DM8009; DM4340; DM4340; DM4310; DM4310; DM4310]
    [0x01; 0x02; 0x03; 0x04; 0x05; 0x06; 0x07] [0x11; 0x12; 0x13; 0x14; 0x15; 0x16; 0x17]
    DM4310 0x08 0x18.

(** ** Calls on the arms *)

(** What the programs make the arm library do, in order. [K] names the arms a
    program has: its sides, or leader and follower. *)
Inductive ArmAction (K : Type) :=
| InitArmMotors (arm : K) (types : list MotorType) (send_ids recv_ids : list Z)
| InitGripperMotor (arm : K) (type : MotorType) (send_id recv_id : Z)
| SetCallbackModeState (arm : K)
| EnableAll (arm : K)
| RecvAll (arm : K)
| DisableAll (arm : K).
Arguments InitArmMotors {K} arm types send_ids recv_ids.
Arguments InitGripperMotor {K} arm type send_id recv_id.
Arguments SetCallbackModeState {K} arm.
Arguments EnableAll {K} arm.
Arguments RecvAll {K} arm.
Arguments DisableAll {K} arm.

(** How the start-up ends: the loop is entered, [main] returns, an exception
    leaves [main], undefined behaviour, or [main] waits for ever for a thread that
    it joins. *)
Inductive StartResult (A : Type) :=
| Running (a : A)
| ExitCode (n : Z)
| Uncaught (what : string)
| Undefined
| Blocked.
Arguments Running {A} a.
Arguments ExitCode {A} n.
Arguments Uncaught {A} what.
Arguments Undefined {A}.
Arguments Blocked {A}.

Definition StartOf (K A : Type) : Type := list (ArmAction K) * StartResult A.

#[export] Instance start_ret {K} : MRet (StartOf K) := fun A a => ([], Running a).
#[export] Instance start_bind {K} : MBind (StartOf K) := fun A B f m =>
  let '(t, r) := m in
  match r with
  | Running a => let '(t', r') := f a in (t ++ t', r')
  | ExitCode n => (t, ExitCode n)
  | Uncaught e => (t, Uncaught e)
  | Undefined => (t, Undefined)
  | Blocked => (t, Blocked)
  end.

Section actions.
Context {K : Type}.

Definition act (l : list (ArmAction K)) : StartOf K unit := (l, Running tt).
Definition exit_with {A} (n : Z) : StartOf K A := ([], ExitCode n).
Definition run {A} (m : outcome A) : StartOf K A :=
  ([], match m with Ok a => Running a | Throw e => Uncaught e | Undef => Undefined end).
Definition require {A} (m : option A) : StartOf K A :=
  match m with Some a => mret (M := StartOf K) a | None => exit_with 1 end.

(** ** OpenArmInitializer *)

(** [initialize_]. *)
Definition initialize_with (config : MotorConfig) (arm : K) : list (ArmAction K) :=
  [InitArmMotors arm (arm_motor_types config) (arm_send_can_ids config) (arm_recv_can_ids config);
   InitGripperMotor arm (gripper_motor_type config) (gripper_send_can_id config) (gripper_recv_can_id config);
   SetCallbackModeState arm; EnableAll arm; RecvAll arm].

(** The overload without a configuration. *)
Definition initialize_motors : K -> list (ArmAction K) := initialize_with DEFAULT_MOTOR_CONFIG.

(** [initialize_openarm]: [hw] opens the CAN device, which may throw, and gives
    what the motors report once they are enabled; the pointer is never null. *)
Definition initialize_openarm (hw : string -> outcome Motors) (arm : K) (can_device : string) : StartOf K Motors :=
  m ← run (hw can_device); _ ← act (initialize_motors arm); mret (M := StartOf K) m.

(** *** What is left enabled *)

(** Whether the motors of an arm are enabled after a sequence of calls. *)
Definition enabled_step `{EqDecision K} (arm : K) (b : bool) (a : ArmAction K) : bool :=
  match a with
  | EnableAll s => if decide (s = arm) then true else b
  | DisableAll s => if decide (s = arm) then false else b
  | _ => b
  end.

Definition enabled_after `{EqDecision K} (arm : K) (t : list (ArmAction K)) : bool := fold_left (enabled_step arm) t false.
End actions.

(** The programs with a right and a left arm. *)
Abbreviation SideAction := (ArmAction ArmSide).
Abbreviation Start := (StartOf ArmSide).

(** ** The programs *)

(** The world a program starts in. *)
Record StartEnv := mkStartEnv {
  st_yaml : YamlLib;
  st_dynamics : InitEnv;
  st_hw : string -> outcome Motors;
}.

Record StartArgs := mkStartArgs {
  sa_right_can : string; sa_left_can : string;
  sa_right_urdf : string; sa_left_urdf : string;
  sa_rate_hz : double;
}.

Section start.
Context (w : StartEnv).
#[local] Abbreviation Y := (st_yaml w).

(** The friction and gain vectors of an arm's section. *)
Record ArmParams := mkArmParams {
  pa_kp : list double; pa_kd : list double; pa_fc : list double; pa_k : list double;
  pa_fv : list double; pa_fo : list double;
}.

Definition read_arm_params (root : ynode Y) (section : string) : outcome ArmParams :=
  kp ← get_vector Y root section "Kp";
  kd ← get_vector Y root section "Kd";
  fc ← get_vector Y root section "Fc";
  k ← get_vector Y root section "k";
  fv ← get_vector Y root section "Fv";
  fo ← get_vector Y root section "Fo";
  Ok (mkArmParams kp kd fc k fv fo).

Definition set_arm_params (p : ArmParams) : Control -> Control :=
  SetParameter (pa_kp p) (pa_kd p) (pa_fc p) (pa_k p) (pa_fv p) (pa_fo p).

Definition arm_dynamics (urdf end_link : string) : option Dynamics :=
  Dynamics_Init (st_dynamics w) urdf "openarm_body_link0" end_link.

(** The robot state has one entry per motor the library found. *)
Definition system_for (m : Motors) : RobotSystemState :=
  robot_system_new (length (arm_motors m)) (length (gripper_motors m)).

(** *** The leader *)

(** Optional settings of [LeaderArmParam], with their defaults. *)
Record LeaderExtras := mkLeaderExtras { ex_gscale : list double; ex_goffset : list double; ex_effort : list double }.

Definition read_leader_extras (root : ynode Y) (n : nat) : outcome LeaderExtras :=
  gs ← vector_if Y root "LeaderArmParam" "GravityScale" (replicate n d1);
  go ← vector_if Y root "LeaderArmParam" "GravityOffset" (replicate n d0);
  ef ← vector_if Y root "LeaderArmParam" "EffortLimit" [];
  Ok (mkLeaderExtras gs go ef).

Definition leader_control (bi : BilateralSettings) (rate_hz : double) (p : ArmParams) (x : LeaderExtras)
    (d : Dynamics) (m : Motors) : Control :=
  let c := control_new (Some d) None (system_for m) (d1 / rate_hz)%D ROLE_LEADER in
  let c := SetEffortLimits (ex_effort x) (SetGravityTrim (ex_gscale x) (ex_goffset x) (set_arm_params p c)) in
  if bi_render_enabled bi then SetBilateralGains (bi_kp bi) (bi_kd bi) (bi_kf bi) c else c.

(** [if (!mock) { ... }] up to the first move: the controllers of both arms. *)
Definition leader_start (bi : BilateralSettings) (a : StartArgs) : Start (Control * Control) :=
  if String.eqb (sa_right_urdf a) "" || String.eqb (sa_left_urdf a) "" then exit_with 1
  else
    root ← run (YamlLoader_new Y "config/leader.yaml");
    p ← run (read_arm_params root "LeaderArmParam");
    x ← run (read_leader_extras root (length (pa_kp p)));
    dr ← require (arm_dynamics (sa_right_urdf a) "openarm_right_hand");
    mr ← initialize_openarm (st_hw w) RIGHT (sa_right_can a);
    _ ← (if verify_arm_hardware mr then act [] else _ ← act [DisableAll RIGHT]; exit_with 1);
    let cr := leader_control bi (sa_rate_hz a) p x dr mr in
    dl ← require (arm_dynamics (sa_left_urdf a) "openarm_left_hand");
    ml ← initialize_openarm (st_hw w) LEFT (sa_left_can a);
    _ ← (if verify_arm_hardware ml then act [] else _ ← act [DisableAll LEFT; DisableAll RIGHT]; exit_with 1);
    let cl := leader_control bi (sa_rate_hz a) p x dl ml in
    mret (M := Start) (cr, cl).

(** *** The follower *)

Definition follower_control (rate_hz : double) (p : ArmParams) (d : Dynamics) (m : Motors) : Control :=
  set_arm_params p (control_new None (Some d) (system_for m) (d1 / rate_hz)%D ROLE_FOLLOWER).

(** The controllers, and the gravity feed-forward with its scale. *)
Definition follower_start (a : StartArgs) : Start (Control * Control * (bool * double)) :=
  if String.eqb (sa_right_urdf a) "" || String.eqb (sa_left_urdf a) "" then exit_with 1
  else
    root ← run (YamlLoader_new Y "config/follower.yaml");
    p ← run (read_arm_params root "FollowerArmParam");
    ff ← run (get_bool_or Y root "FollowerArmParam" "GravityFeedforward" false);
    scale ← run (get_double_or Y root "FollowerArmParam" "GravityFeedforwardScale" d1);
    dr ← require (arm_dynamics (sa_right_urdf a) "openarm_right_hand");
    mr ← initialize_openarm (st_hw w) RIGHT (sa_right_can a);
    _ ← (if verify_arm_hardware mr then act [] else _ ← act [DisableAll RIGHT]; exit_with 1);
    let cr := follower_control (sa_rate_hz a) p dr mr in
    dl ← require (arm_dynamics (sa_left_urdf a) "openarm_left_hand");
    ml ← initialize_openarm (st_hw w) LEFT (sa_left_can a);
    _ ← (if verify_arm_hardware ml then act [] else _ ← act [DisableAll LEFT; DisableAll RIGHT]; exit_with 1);
    let cl := follower_control (sa_rate_hz a) p dl ml in
    mret (M := Start) (cr, cl, (ff, scale)).

(** *** The first move *)

(** Both arms adjust their position in two threads that are joined. *)
Definition adjust_both (rr rl : nat -> Motors) (cr cl : Control) : outcome (Control * Control) :=
  '(_, cr) ← AdjustPosition rr cr;
  '(_, cl) ← AdjustPosition rl cl;
  Ok (cr, cl).

(** *** The single-arm programs *)

(** Their start checks neither the dynamics nor the hardware: a solver that
    failed to initialise is there, but calling it is undefined. *)
Definition single_leader_start (urdf can : string) (rate_hz : double) : Start Control :=
  if String.eqb urdf "" then exit_with 1
  else
    root ← run (YamlLoader_new Y "config/leader.yaml");
    p ← run (read_arm_params root "LeaderArmParam");
    let d := arm_dynamics urdf "openarm_right_hand" in
    m ← initialize_openarm (st_hw w) RIGHT can;
    mret (M := Start) (set_arm_params p (control_new d None (system_for m) (d1 / rate_hz)%D ROLE_LEADER)).

Definition single_follower_start (urdf can : string) (rate_hz : double) : Start Control :=
  if String.eqb urdf "" then exit_with 1
  else
    root ← run (YamlLoader_new Y "config/follower.yaml");
    p ← run (read_arm_params root "FollowerArmParam");
    let d := arm_dynamics urdf "openarm_right_hand" in
    m ← initialize_openarm (st_hw w) RIGHT can;
    mret (M := Start) (set_arm_params p (control_new None d (system_for m) (d1 / rate_hz)%D ROLE_FOLLOWER)).
End start.

(** ** JointMapper *)

(** The three copies of [joint_mapper.cpp]: eight entries, from one C array to
    another. *)
Definition copy_joints (src dst : list double) : outcome (list double) :=
  if decide (8 <= length src)%nat then write_joints (take 8 src) dst else Undef.

Definition motor_to_joint_position := copy_joints.
Definition motor_to_joint_velocity := copy_joints.
Definition joint_to_motor_torque := copy_joints.
