(* ===== verification/StartupFacts.v ===== *)
(** * StartupFacts: what the start-up leaves behind

    Every way the start-up of the bimanual programs can end, with the arms it
    leaves enabled, and the controllers it hands to the control loops. *)

From S2P Require Import Prelude Float64 Packets Dynamics RobotState Control AppCommon LeaderApp FollowerApp.
From S2P Require Import Yaml YamlFacts Startup.

Open Scope Z_scope.

(** ** Sequencing *)

Section sequencing.
Context {K : Type}.

Lemma start_bind_exit {A B} (m : StartOf K A) (f : A -> StartOf K B) t n :
  (m ≫= f) = (t, ExitCode n) ->
  m = (t, ExitCode n) \/ exists t1 t2 a, m = (t1, Running a) /\ f a = (t2, ExitCode n) /\ t = t1 ++ t2.
Proof.
  destruct m as [t1 [a|k|e| |]]; cbn; [|intros [= <- <-]; by left|done..].
  destruct (f a) as [t2 r] eqn:E. intros [= <- ->]. right. by exists t1, t2, a.
Qed.

Lemma start_bind_running {A B} (m : StartOf K A) (f : A -> StartOf K B) t b :
  (m ≫= f) = (t, Running b) -> exists t1 t2 a, m = (t1, Running a) /\ f a = (t2, Running b) /\ t = t1 ++ t2.
Proof.
  destruct m as [t1 [a|k|e| |]]; cbn; [|done..]. destruct (f a) as [t2 r] eqn:E. intros [= <- ->]. by exists t1, t2, a.
Qed.

Lemma start_bind_uncaught {A B} (m : StartOf K A) (f : A -> StartOf K B) t e :
  (m ≫= f) = (t, Uncaught e) ->
  m = (t, Uncaught e) \/ exists t1 t2 a, m = (t1, Running a) /\ f a = (t2, Uncaught e) /\ t = t1 ++ t2.
Proof.
  destruct m as [t1 [a|k|e'| |]]; cbn; [|done|intros [= <- <-]; by left|done..].
  destruct (f a) as [t2 r] eqn:E. intros [= <- ->]. right. by exists t1, t2, a.
Qed.

(** Computations that never wait for ever. *)
Definition unblocked {A} (m : StartOf K A) : Prop := m.2 <> Blocked.

Lemma unblocked_bind {A B} (m : StartOf K A) (f : A -> StartOf K B) :
  unblocked m -> (forall a, unblocked (f a)) -> unblocked (m ≫= f).
Proof.
  unfold unblocked. destruct m as [t1 [a|k|e| |]]; cbn; try done. intros _ H. specialize (H a). by destruct (f a).
Qed.

Lemma unblocked_run {A} (m : outcome A) : unblocked (run m).
Proof. by destruct m. Qed.

Lemma unblocked_require {A} (m : option A) : unblocked (require m).
Proof. by destruct m. Qed.

Lemma unblocked_initialize hw (arm : K) can : unblocked (initialize_openarm hw arm can).
Proof. apply unblocked_bind; [apply unblocked_run|done]. Qed.

Lemma bind_from {A B} (m : StartOf K A) (f : A -> StartOf K B) t a :
  m = (t, Running a) -> (m ≫= f) = (t ++ (f a).1, (f a).2).
Proof. intros ->. cbn. by destruct (f a). Qed.

Lemma run_exit {A} (m : outcome A) (t : list (ArmAction K)) n : run m <> (t, ExitCode n).
Proof. by destruct m. Qed.

Lemma run_running {A} (m : outcome A) (t : list (ArmAction K)) a : run m = (t, Running a) -> m = Ok a /\ t = [].
Proof. destruct m; cbn; by intros [= <- <-]. Qed.

Lemma require_exit {A} (m : option A) (t : list (ArmAction K)) n : require m = (t, ExitCode n) -> m = None /\ t = [] /\ n = 1.
Proof. destruct m; [done|]. by intros [= <- <-]. Qed.

Lemma require_running {A} (m : option A) (t : list (ArmAction K)) a : require m = (t, Running a) -> m = Some a /\ t = [].
Proof. destruct m; [|done]. by intros [= <- <-]. Qed.

Lemma enabled_after_app `{EqDecision K} (arm : K) t t' :
  enabled_after arm (t ++ t') = fold_left (enabled_step arm) t' (enabled_after arm t).
Proof. unfold enabled_after. apply fold_left_app. Qed.

(** All arms off. *)
Definition all_off `{EqDecision K} (t : list (ArmAction K)) : Prop := forall arm, enabled_after arm t = false.
End sequencing.

(** Descends into a computation. *)
Ltac never_blocks :=
  repeat (first [apply unblocked_run | apply unblocked_require | apply unblocked_initialize | done
                |apply unblocked_bind; [|intros]
                |match goal with |- unblocked (match ?x with _ => _ end) => destruct x end]).

(** Takes a start-up that ended with a code apart, step by step. *)
Ltac exits H t1 a E :=
  let t2 := fresh "t" in apply start_bind_exit in H as [H|(t1 & t2 & a & E & H & ->)].

(** ** The bus *)

(** The default configuration gives the seven arm motors and the gripper motor
    of a bus sixteen different CAN identifiers, a motor answering on its own
    plus 16, and fits the controller's eight motors. *)
Lemma default_motors_distinct :
  let c := DEFAULT_MOTOR_CONFIG in
  let send := arm_send_can_ids c ++ [gripper_send_can_id c] in
  let recv := arm_recv_can_ids c ++ [gripper_recv_can_id c] in
  NoDup (send ++ recv) /\ recv = map (fun id => id + 0x10) send /\
  length (arm_motor_types c) = length (arm_send_can_ids c) /\ length send = NMOTORS.
Proof. split_and!; [|reflexivity..]. apply (bool_decide_unpack _). vm_compute. exact I. Qed.

(** ** Case analysis *)

(** One destruct per step of a start-up, each failure ending its branch. *)
Ltac start_cases :=
  unfold initialize_openarm, act, require, exit_with, run;
  repeat (cbn [mbind mret start_bind start_ret app];
          match goal with
          | |- context [match ?x with Ok _ => _ | Throw _ => _ | Undef => _ end] => destruct x eqn:?
          | |- context [match ?x with Some _ => _ | None => _ end] => destruct x eqn:?
          | |- context [if verify_arm_hardware ?m then _ else _] => destruct (verify_arm_hardware m) eqn:?
          end);
  cbn [mbind mret start_bind start_ret app].

Section facts.
Context (w : StartEnv).

(** A controller ready for its loop: dynamics loaded, motors verified, one state
    entry per motor. *)
Definition arm_ready (role : Role) (urdf end_link can : string) (rate_hz : double) (c : Control) : Prop :=
  exists d m, arm_dynamics w urdf end_link = Some d /\ st_hw w can = Ok m /\ verify_arm_hardware m = true /\
    ct_role c = role /\ ct_Ts c = (d1 / rate_hz)%D /\
    (match role with ROLE_LEADER => ct_dynamics_l c | ROLE_FOLLOWER => ct_dynamics_f c end) = Some d /\
    length (rs_response (arm_state (ct_robot_state c))) = length (arm_motors m) /\
    length (rs_response (hand_state (ct_robot_state c))) = length (gripper_motors m).

(** What is on when the start-up of a two-armed program ends. *)
Definition start_ok (role : Role) (a : StartArgs) (t : list SideAction) (r : StartResult (Control * Control)) : Prop :=
  match r with
  | Running (cr, cl) =>
      enabled_after RIGHT t = true /\ enabled_after LEFT t = true /\
      arm_ready role (sa_right_urdf a) "openarm_right_hand" (sa_right_can a) (sa_rate_hz a) cr /\
      arm_ready role (sa_left_urdf a) "openarm_left_hand" (sa_left_can a) (sa_rate_hz a) cl
  | ExitCode n =>
      n = 1 /\ enabled_after LEFT t = false /\
      (enabled_after RIGHT t = true <->
       EnableAll RIGHT ∈ t /\ arm_dynamics w (sa_left_urdf a) "openarm_left_hand" = None /\
       exists m, st_hw w (sa_right_can a) = Ok m /\ verify_arm_hardware m = true)
  | Uncaught e =>
      enabled_after LEFT t = false /\ (enabled_after RIGHT t = true -> st_hw w (sa_left_can a) = Throw e)
  | Undefined => True
  | Blocked => False
  end.

Lemma not_in_nil (P Q : Prop) : P -> (false = true <-> EnableAll RIGHT ∈ [] /\ Q).
Proof. intros _. split; [done|]. intros [H%elem_of_nil _]. done. Qed.

(** Closes the branches: the right arm is on exactly in the described case. *)
Ltac right_arm :=
  split;
  [intros H; first [discriminate H | split_and!; [apply list_elem_of_In; simpl; tauto|done|by eexists]]
  |intros (Hin & Hl & m & Hm & Hv); first [reflexivity | by apply elem_of_nil in Hin | congruence]].

Ltac ready := eexists _, _; split_and!; try done; cbn; by rewrite ?length_replicate.

Lemma leader_start_ok bi a t r : leader_start w bi a = (t, r) -> start_ok ROLE_LEADER a t r.
Proof.
  unfold leader_start. destruct (_ || _); [intros [= <- <-]|start_cases; intros [= <- <-]];
    unfold start_ok; split_and?; try done; try right_arm; unfold leader_control;
    destruct (bi_render_enabled bi); ready.
Qed.

(** The controllers without the feed-forward settings. *)
Definition controls {B} (r : StartResult (Control * Control * B)) : StartResult (Control * Control) :=
  match r with
  | Running (c, _) => Running c
  | ExitCode n => ExitCode n
  | Uncaught e => Uncaught e
  | Undefined => Undefined
  | Blocked => Blocked
  end.

Lemma follower_start_ok a t r : follower_start w a = (t, r) -> start_ok ROLE_FOLLOWER a t (controls r).
Proof.
  unfold follower_start. destruct (_ || _); [intros [= <- <-]|start_cases; intros [= <- <-]];
    unfold start_ok, controls; split_and?; try done; try right_arm; ready.
Qed.
End facts.

(** ** Property *)

(** C19: The start-up of the bimanual leader and follower. When the control loop is
    entered, both arms are enabled and each controller has its role, the cycle
    time, loaded dynamics, motors that passed the hardware check and one state
    entry per motor. When [main] returns early it returns 1, the left arm is
    off, and the right arm is off, except in one case: when the right arm came up
    and the left dynamics cannot be loaded, the right arm stays enabled. When an
    exception ends the program, the left arm is off, and the right one is on only
    if opening the left CAN device threw. *)
Theorem startup_outcomes (w : StartEnv) (bi : BilateralSettings) (a : StartArgs) :
  (let '(t, r) := leader_start w bi a in start_ok w ROLE_LEADER a t r) /\
  (let '(t, r) := follower_start w a in start_ok w ROLE_FOLLOWER a t (controls r)).
Proof.
  split.
  - destruct (leader_start w bi a) as [t r] eqn:E. by eapply leader_start_ok.
  - destruct (follower_start w a) as [t r] eqn:E. by eapply follower_start_ok.
Qed.

(** *** A start-up whose left model is missing *)

Definition test_dynamics : Dynamics.
Proof.
  refine (mkDynamics 7 (fun _ => replicate 7 d0) (fun _ _ => replicate 7 d0) (fun _ _ _ => d0) (fun _ _ _ => d0) 8
    (fun _ _ => None) _ _); intros; apply length_replicate.
Defined.

Definition test_start (left_found : bool) : StartEnv :=
  mkStartEnv
    (tree_yaml (Ok (TMap [("LeaderArmParam", TMap [("Kp", gains); ("Kd", gains); ("Fc", gains); ("k", gains);
                                                     ("Fv", gains); ("Fo", gains)])])))
    (mkInitEnv (fun p => Some p) (fun _ => true) (fun _ => true)
       (fun _ _ e => if String.eqb e "openarm_left_hand" && negb left_found then None else Some test_dynamics))
    (fun _ => Ok (mkMotors (replicate 7 (mkMotorState d1 d0 d0)) [mkMotorState d1 d0 d0])).

Definition test_start_args : StartArgs := mkStartArgs "can0" "can1" "right.urdf" "left.urdf" (d_of_Z 500).

Lemma right_arm_left_enabled :
  exists t, leader_start (test_start false) bilateral_settings_default test_start_args = (t, ExitCode 1) /\
    enabled_after RIGHT t = true.
Proof. eexists. split; [vm_compute; reflexivity|reflexivity]. Qed.

Lemma both_arms_start :
  exists t cr cl, leader_start (test_start true) bilateral_settings_default test_start_args = (t, Running (cr, cl)) /\
    enabled_after RIGHT t = true /\ enabled_after LEFT t = true.
Proof. do 3 eexists. split; [vm_compute; reflexivity|split; reflexivity]. Qed.
