(* ===== verification/CommTest.v ===== *)
(** * CommTest: the CAN communication test

    [src/control/openarm_communication_test.cpp]: one arm is brought up, its motors
    are enabled and queried, its joints are read for a second, and the motors are
    disabled. The program is the sequence of its calls on the CAN library, any of
    which may throw; what it prints is left out. *)

From S2P Require Import Prelude Float64 Control Startup.

Open Scope Z_scope.

(** ** Calls *)

Inductive CallbackMode := CB_IGNORE | CB_PARAM | CB_STATE.

(** The calls the other programs make, too, and those of this one. *)
Inductive CanCall :=
| Open (can_interface : string) (enable_fd : bool)
| OnArm (a : ArmAction unit)
| SetCallbackModeAll (m : CallbackMode)
| RefreshAll
| QueryParamAll (rid : Z)
| MitControlArm (cmds : list MITParam)
| MitControlGripper (cmds : list MITParam)
| Sleep (ms : Z).

Section test.
(** [RID::MST_ID] of the library. *)
Context (MST_ID : Z).

Definition zero_cmd : MITParam := mkMIT d0 d0 d0 d0 d0.

(** Lines 48 to 57. *)
Definition comm_setup : list CanCall :=
  [OnArm (InitArmMotors tt [DM8009; DM8009; DM4340; DM4340; DM4310; DM4310; DM4310]
      [0x01; 0x02; 0x03; 0x04; 0x05; 0x06; 0x07] [0x11; 0x12; 0x13; 0x14; 0x15; 0x16; 0x17]);
   OnArm (InitGripperMotor tt DM4310 0x08 0x18);
   SetCallbackModeAll CB_IGNORE; RefreshAll; OnArm (RecvAll tt)].

Definition comm_enable : list CanCall := [OnArm (EnableAll tt); Sleep 100; OnArm (RecvAll tt); Sleep 100].

Definition comm_query : list CanCall :=
  [SetCallbackModeAll CB_PARAM; QueryParamAll MST_ID; Sleep 100; OnArm (RecvAll tt); Sleep 100].

(** The commands hold nothing: gains and torque are zero. *)
Definition comm_control : list CanCall :=
  [SetCallbackModeAll CB_STATE; MitControlArm (replicate 7 zero_cmd); MitControlGripper [zero_cmd];
   OnArm (RecvAll tt); Sleep 100].

Definition comm_poll : list CanCall := concat (replicate 100 [RefreshAll; OnArm (RecvAll tt); Sleep 10]).

Definition comm_calls (can_interface : string) : list CanCall :=
  Open can_interface true :: comm_setup ++ comm_enable ++ comm_query ++ comm_control ++ comm_poll
  ++ [Sleep 500; OnArm (DisableAll tt); OnArm (RecvAll tt)].

(** ** The program *)

Context (fails : list CanCall -> CanCall -> bool).

(** The calls in order until one throws ([fails], given the calls before it): those
    that returned, and whether all did. *)
Fixpoint attempt (made l : list CanCall) : list CanCall * bool :=
  match l with
  | [] => (made, true)
  | c :: l' => if fails made c then (made, false) else attempt (made ++ [c]) l'
  end.

(** [argv[1]], when it is given, names the interface. *)
Definition comm_main (args : list string) : list CanCall * Z :=
  let can_interface := match args with i :: _ => i | [] => "can0" end in
  let '(made, ok) := attempt [] (comm_calls can_interface) in
  (made, if ok then 0 else -1).

(** Whether the motors are enabled after these calls. *)
Definition comm_enabled (made : list CanCall) : bool :=
  enabled_after tt (omap (fun c => match c with OnArm a => Some a | _ => None end) made).

(** ** How it ends *)

Lemma attempt_inv made l :
  (attempt made l).1 = made ++ l /\ (attempt made l).2 = true \/
  exists k c rest, l = k ++ c :: rest /\ (attempt made l).1 = made ++ k /\ (attempt made l).2 = false /\ fails (made ++ k) c = true.
Proof.
  revert made. induction l as [|c l IH]; intros made; cbn [attempt]; [left; by rewrite app_nil_r|].
  destruct (fails made c) eqn:E; [right; exists [], c, l; by rewrite app_nil_r|].
  destruct (IH (made ++ [c])) as [[H1 H2]|(k & d & rest & -> & H1 & H2 & H3)].
  - left. by rewrite H1, <- app_assoc.
  - right. exists (c :: k), d, rest. rewrite H1. rewrite <- app_assoc in *. by split_and!.
Qed.
End test.

Definition is_enable (c : CanCall) : bool := match c with OnArm (EnableAll _) => true | _ => false end.
Definition is_disable (c : CanCall) : bool := match c with OnArm (DisableAll _) => true | _ => false end.

(** After a part of the calls the motors are enabled when they have been and were not
    disabled since. *)
Lemma enabled_prefix rid can k rest :
  comm_calls rid can = k ++ rest -> comm_enabled k = existsb is_enable k && negb (existsb is_disable k).
Proof.
  intros E. assert (Hk : k = take (length k) (comm_calls rid can)) by by rewrite E, take_app_length.
  assert (Hn : (length k <= 323)%nat).
  { apply (f_equal length) in E. rewrite length_app in E. change (length (comm_calls rid can)) with 323%nat in E. lia. }
  assert (Hall : forallb (fun n => eqb (comm_enabled (take n (comm_calls rid can)))
    (existsb is_enable (take n (comm_calls rid can)) && negb (existsb is_disable (take n (comm_calls rid can))))) (seq 0 324) = true)
    by (vm_compute; reflexivity).
  rewrite forallb_forall in Hall. rewrite Hk. apply eqb_prop, Hall, in_seq. lia.
Qed.

(** How the communication test ends, for every failure of the library: with 0 when
    every call returned, and then the motors are off; with -1 at the first call that
    throws, after exactly the calls before it. Nothing disables the motors then: they
    stay enabled if the exception came after they were and before the end. *)
Lemma comm_test_outcomes (rid : Z) (fails : list CanCall -> CanCall -> bool) (args : list string) :
  let can := match args with i :: _ => i | [] => "can0" end in
  let '(made, code) := comm_main rid fails args in
  code = 0 /\ made = comm_calls rid can /\ comm_enabled made = false \/
  code = -1 /\ (exists c rest, comm_calls rid can = made ++ c :: rest /\ fails made c = true) /\
    comm_enabled made = existsb is_enable made && negb (existsb is_disable made).
Proof.
  cbv zeta. unfold comm_main. set (can := match args with [] => _ | _ => _ end).
  pose proof (attempt_inv fails [] (comm_calls rid can)) as H. destruct (attempt fails [] _) as [made ok]. cbn [fst snd app] in H.
  destruct H as [[-> ->]|(k & c & rest & E & -> & -> & Hf)]; [left|right].
  - split_and!; [done|done|]. vm_compute. reflexivity.
  - split; [done|]. split; [by exists c, rest|]. by eapply enabled_prefix.
Qed.

(** An exception while the joints are read: the program ends with the motors on. *)
Lemma comm_test_leaves_enabled :
  let '(made, code) := comm_main 7 (fun made _ => bool_decide (length made = 30%nat)) [] in
  code = -1 /\ comm_enabled made = true.
Proof. vm_compute. split; reflexivity. Qed.
