(* ===== verification/DemoPrograms.v ===== *)
(** * DemoPrograms: the programs of [src/control/]

    [openarm_bilateral_control.cpp], [openarm_unilateral_control.cpp] and
    [gravity_compasation.cpp] from the command line to the exit code. The first
    two differ in the control cycle only: they bring up a leader and a follower,
    move both home and run the three threads of SinglePc. The third holds one arm
    against gravity in a loop of its own. Each [main] is one [try] block. *)

From S2P Require Import Prelude Float64 Dynamics RobotState Control ControlFacts SinglePc.
From S2P Require Import Yaml Startup StartupFacts.

Open Scope Z_scope.

(** ** What the programs run in *)

Record DemoWorld := mkDemoWorld {
  dw_start : StartEnv;
  dw_exists : string -> outcome bool;      (* std::filesystem::exists *)
}.

(** [catch (const std::exception &e)] around [main]'s body: it prints, and [main]
    returns [code]. *)
Definition catch_all {K A} (code : Z) (m : StartOf K A) : StartOf K A :=
  match m with (t, Uncaught _) => (t, ExitCode code) | _ => m end.

Definition FREQUENCY : double := d_of_Z 1000.

Definition known_side (arm_side : string) : bool :=
  String.eqb arm_side "left_arm" || String.eqb arm_side "right_arm".

Definition leaf_link (arm_side : string) : string :=
  if String.eqb arm_side "left_arm" then "openarm_left_hand" else "openarm_right_hand".

Section demo.
Context (w : DemoWorld).
#[local] Abbreviation E := (dw_start w).
#[local] Abbreviation Y := (st_yaml E).

(** The URDF file has to exist; looking may throw. *)
Definition urdf_found {K} (path : string) : StartOf K unit :=
  b ← run (dw_exists w path); if b : bool then mret (M := StartOf K) tt else exit_with 1.

(** ** Bilateral and unilateral control *)

(** [argv] without the program's name; both interfaces or none. *)
Record DemoArgs := mkDemoArgs {
  dm_leader_urdf : string; dm_follower_urdf : string; dm_arm_side : string;
  dm_leader_can : string; dm_follower_can : string;
}.

Definition demo_args (args : list string) : option DemoArgs :=
  match args with
  | leader_urdf :: follower_urdf :: rest =>
      let arm_side := match rest with s :: _ => s | [] => "right_arm" end in
      let '(leader_can, follower_can) := match rest with _ :: l :: f :: _ => (l, f) | _ => ("can0", "can2") end in
      if known_side arm_side then Some (mkDemoArgs leader_urdf follower_urdf arm_side leader_can follower_can) else None
  | _ => None
  end.

(** A controller: both solvers, whether [Init] succeeded or not. *)
Definition demo_control (dl df : option Dynamics) (m : Motors) (role : Role) (p : ArmParams) : Control :=
  set_arm_params p (control_new dl df (system_for m) (d1 / FREQUENCY)%D role).

(** [main] up to the first move. *)
Definition demo_start (args : list string) : StartOf Role (Control * Control) :=
  a ← require (demo_args args);
  _ ← urdf_found (dm_leader_urdf a);
  _ ← urdf_found (dm_follower_urdf a);
  leader_loader ← run (YamlLoader_new Y "config/leader.yaml");
  follower_loader ← run (YamlLoader_new Y "config/follower.yaml");
  pl ← run (read_arm_params E leader_loader "LeaderArmParam");
  pf ← run (read_arm_params E follower_loader "FollowerArmParam");
  let dl := arm_dynamics E (dm_leader_urdf a) (leaf_link (dm_arm_side a)) in
  let df := arm_dynamics E (dm_follower_urdf a) (leaf_link (dm_arm_side a)) in
  ml ← initialize_openarm (st_hw E) ROLE_LEADER (dm_leader_can a);
  mf ← initialize_openarm (st_hw E) ROLE_FOLLOWER (dm_follower_can a);
  mret (M := StartOf Role) (demo_control dl df ml ROLE_LEADER pl, demo_control dl df mf ROLE_FOLLOWER pf).

(** The three threads under a schedule. An exception of a control cycle is caught
    by its timer thread, which goes on; undefined behaviour ends everything. *)
Fixpoint demo_loop (cycle : Motors -> Control -> Control * outcome Commands) (schedule : list (option (Role * Motors)))
    (s : PcState) (tr : list Label) : StartOf Role (PcState * list Label) :=
  match schedule with
  | [] => mret (M := StartOf Role) (s, tr)
  | x :: l =>
      let '(s, lab) := pc_next cycle x s in
      match lab with
      | Sends _ Undef => ([], Undefined)
      | _ => demo_loop cycle l s (tr ++ [lab])
      end
  end.

(** No thread is inside [on_timer]. *)
Definition all_waiting (s : PcState) : bool :=
  match pc_lthread s, pc_fthread s, pc_admin s with ArmWaiting, ArmWaiting, AdminWaiting => true | _, _, _ => false end.

Definition demo_off : list (ArmAction Role) := [DisableAll ROLE_LEADER; DisableAll ROLE_FOLLOWER].

(** [main]. The moves run in two threads of their own, where nothing catches an
    exception. [stopped]: SIGINT came, so the threads are joined after the
    schedule; each join waits for the thread's cycle to end. *)
Definition demo_main (cycle : Motors -> Control -> Control * outcome Commands) (first_l first_f : nat -> Motors)
    (args : list string) (schedule : list (option (Role * Motors))) (stopped : bool)
    : StartOf Role (PcState * list Label) :=
  '(cl, cf) ← catch_all 0 (demo_start args);
  '(cl, cf) ← run (adjust_both first_l first_f cl cf);
  '(s, tr) ← demo_loop cycle schedule (mkPcState cl cf ArmWaiting ArmWaiting AdminWaiting) [];
  if stopped && all_waiting s then _ ← act demo_off; exit_with 0
  else mret (M := StartOf Role) (s, tr).

(** The two programs: the same [main], with the cycle their arm threads call. *)
Definition bilateral_main (tanh : double -> double) := demo_main (bilateral_step tanh).
Definition unilateral_main (tanh : double -> double) := demo_main (unilateral_step tanh).

(** ** Gravity compensation *)

(** The buffers of [main], one entry per arm motor found at the start. *)
Record GravityState := mkGravityState {
  gv_positions : list double; gv_velocities : list double; gv_torques : list double;
}.

Definition gravity_state_new (n : nat) : GravityState :=
  mkGravityState (replicate n d0) (replicate n d0) (replicate n d0).

(** An iteration of the loop: the arm's commands. The gripper gets none. *)
Definition gravity_cycle (d : option Dynamics) (m : Motors) (s : GravityState)
    : outcome (GravityState * list MITParam) :=
  positions ← write_joints (map ms_position (arm_motors m)) (gv_positions s);
  velocities ← write_joints (map ms_velocity (arm_motors m)) (gv_velocities s);
  dyn ← deref d;
  torques ← GetGravity dyn positions (gv_torques s);
  Ok (mkGravityState positions velocities torques, map torque_cmd torques).

Fixpoint gravity_loop (d : option Dynamics) (readings : list Motors) (s : GravityState)
    : outcome (GravityState * list (list MITParam)) :=
  match readings with
  | [] => Ok (s, [])
  | m :: l => '(s, cmds) ← gravity_cycle d m s; '(s, sent) ← gravity_loop d l s; Ok (s, cmds :: sent)
  end.

(** [main] up to its loop: at least three arguments, the arm's side first. *)
Definition gravity_start (args : list string) : StartOf unit (option Dynamics * Motors) :=
  match args with
  | arm_side :: can_interface :: urdf_path :: _ =>
      if known_side arm_side then
        _ ← urdf_found urdf_path;
        let d := arm_dynamics E urdf_path (leaf_link arm_side) in
        m ← initialize_openarm (st_hw E) tt can_interface;
        mret (M := StartOf unit) (d, m)
      else exit_with 1
  | _ => exit_with 1
  end.

(** [main]; [stopped]: SIGINT came after these iterations. *)
Definition gravity_main (args : list string) (readings : list Motors) (stopped : bool)
    : StartOf unit (list (list MITParam)) :=
  catch_all (-1)
    ('(d, m) ← gravity_start args;
     '(s, sent) ← run (gravity_loop d readings (gravity_state_new (length (arm_motors m))));
     if stopped then _ ← act [DisableAll tt; RecvAll tt]; exit_with 0
     else mret (M := StartOf unit) sent).
End demo.
