(* ===== verification/DemoFacts.v ===== *)
(** * DemoFacts: how the programs of [src/control/] run and end

    What an exit code says about the motors, that the bilateral program keeps
    controlling both arms from the command line on, and what gravity compensation
    sends. *)

From S2P Require Import Prelude Float64 Dynamics RobotState Control ControlFacts SinglePc.
From S2P Require Import Yaml YamlFacts Startup StartupFacts DemoPrograms.

Open Scope Z_scope.

(** ** Computations that do not throw *)

Definition quiet {A} (m : outcome A) : Prop := forall e, m <> Throw e.

Lemma quiet_ok {A} (a : A) : quiet (Ok a).
Proof. done. Qed.

Lemma quiet_bind {A B} (m : outcome A) (f : A -> outcome B) : quiet m -> (forall a, quiet (f a)) -> quiet (m ≫= f).
Proof. intros Hm Hf e. destruct m as [a|e'|]; cbn; [apply Hf|intros [= ->]; by apply (Hm e)|done]. Qed.

Lemma quiet_vget {A} (v : list A) i : quiet (vget v i).
Proof. intros e. unfold vget. by destruct (v !! i). Qed.

Lemma quiet_for_n {A} n (f : nat -> outcome A) : (forall i, quiet (f i)) -> quiet (for_n n f).
Proof.
  intros Hf. induction n as [|n IH]; [done|]. cbn [for_n].
  apply quiet_bind; [done|]. intros l. by apply quiet_bind.
Qed.

Create HintDb quiet discriminated.
#[export] Hint Resolve quiet_ok quiet_bind quiet_vget quiet_for_n : quiet.

(** ** Moves *)

Lemma move_quiet ta tg reading c : quiet (MoveToPose ta tg reading c).
Proof.
  unfold MoveToPose. cbv zeta. apply quiet_bind; [|auto with quiet]. apply quiet_for_n. intros k.
  apply quiet_bind; [|auto with quiet]. unfold move_commands. cbv zeta. auto 12 with quiet.
Qed.

(** The joints of a reading, as a move leaves them in the robot state. *)
Definition posture_of (m : Motors) : RobotSystemState :=
  let a := arm_motor_to_joint (without_effort (arm_motors m)) in
  let h := gripper_motor_to_joint (without_effort (gripper_motors m)) in
  mkRobotSystem (mkRobotState a a) (mkRobotState h h).

(** A move ends with new responses and references only: the last reading. *)
Lemma move_result ta tg reading c steps c' :
  MoveToPose ta tg reading c = Ok (steps, c') -> c' = with_robot_state (posture_of (reading nstep)) c.
Proof. unfold MoveToPose. cbv zeta. by intros (st & _ & [= _ <-])%bind_ok. Qed.

Lemma adjust_total reading c :
  length (arm_motors (reading 0%nat)) = 7%nat -> (length (gripper_motors (reading 0%nat)) <= 1)%nat ->
  exists steps c', AdjustPosition reading c = Ok (steps, c').
Proof.
  intros Ha Hh. unfold AdjustPosition, MoveToPose. cbv zeta. cbn [arm_motors gripper_motors].
  match goal with |- context [for_n nstep ?f] => destruct (for_n_total nstep f) as [steps ->] end; [|by eexists _, _].
  intros step _. edestruct (move_commands_ok) as (a & h & E & _); [..|rewrite E; by eexists].
  - apply length_arm_goal.
  - rewrite length_arm_motor_to_joint. unfold without_effort. rewrite length_map, Ha. done.
  - rewrite length_hand_goal, length_gripper_motor_to_joint. unfold without_effort. by rewrite length_map.
  - by rewrite length_hand_goal.
Qed.

(** ** Exceptions and codes *)

Lemma catch_exit {K A} code (m : StartOf K A) t n :
  catch_all code m = (t, ExitCode n) -> m = (t, ExitCode n) \/ (n = code /\ exists e, m = (t, Uncaught e)).
Proof. destruct m as [t' [a|k|e| |]]; cbn; intros [=]; subst; eauto. Qed.

Lemma catch_running {K A} code (m : StartOf K A) t a : catch_all code m = (t, Running a) -> m = (t, Running a).
Proof. destruct m as [t' [a'|k|e| |]]; by cbn. Qed.

Lemma catch_uncaught {K A} code (m : StartOf K A) t e : catch_all code m <> (t, Uncaught e).
Proof. by destruct m as [t' [a|k|e'| |]]. Qed.

Lemma unblocked_catch {K A} code (m : StartOf K A) : unblocked m -> unblocked (catch_all code m).
Proof. unfold unblocked. by destruct m as [t' [a|k|e| |]]. Qed.

Lemma run_uncaught {K A} (m : outcome A) (t : list (ArmAction K)) e : run m = (t, Uncaught e) -> m = Throw e /\ t = [].
Proof. destruct m; cbn; by intros [= <- <-]. Qed.

Lemma require_uncaught {K A} (m : option A) (t : list (ArmAction K)) e : require m <> (t, Uncaught e).
Proof. by destruct m. Qed.

Lemma initialize_exit {K} hw (arm : K) can t n : initialize_openarm hw arm can <> (t, ExitCode n).
Proof. unfold initialize_openarm. by destruct (hw can). Qed.

Lemma initialize_running {K} hw (arm : K) can t m :
  initialize_openarm hw arm can = (t, Running m) -> hw can = Ok m /\ t = initialize_motors arm.
Proof. unfold initialize_openarm. destruct (hw can); [|done..]. by intros [= <- <-]. Qed.

Lemma initialize_uncaught {K} hw (arm : K) can t e :
  initialize_openarm hw arm can = (t, Uncaught e) -> hw can = Throw e /\ t = [].
Proof. unfold initialize_openarm. destruct (hw can); [done| |done]. by intros [= <- <-]. Qed.

(** One step of a start-up that ended with a code, an exception or a result; a
    step that succeeded leaves what it did. *)
Ltac step_exit H :=
  let t := fresh "t" in let a := fresh "a" in let R := fresh "R" in exits H t a R.
Ltac step_raise H :=
  let t1 := fresh "t" in let t2 := fresh "t" in let a := fresh "a" in let R := fresh "R" in
  apply start_bind_uncaught in H as [H|(t1 & t2 & a & R & H & ->)].
Ltac step_run H :=
  let t1 := fresh "t" in let t2 := fresh "t" in let a := fresh "a" in let R := fresh "R" in
  apply start_bind_running in H as (t1 & t2 & a & R & H & ->).

Section demo.
Context (w : DemoWorld).
#[local] Abbreviation E := (dw_start w).

Lemma found_exit {K} path (t : list (ArmAction K)) n :
  urdf_found w path = (t, ExitCode n) -> n = 1 /\ t = [] /\ dw_exists w path = Ok false.
Proof. unfold urdf_found. destruct (dw_exists w path) as [[]|e|]; [done| |done..]. by intros [= <- <-]. Qed.

Lemma found_running {K} path (t : list (ArmAction K)) u :
  urdf_found w path = (t, Running u) -> t = [] /\ dw_exists w path = Ok true.
Proof. unfold urdf_found. destruct (dw_exists w path) as [[]|e|]; [|done..]. by intros [= <- <-]. Qed.

Lemma found_uncaught {K} path (t : list (ArmAction K)) e :
  urdf_found w path = (t, Uncaught e) -> t = [].
Proof. unfold urdf_found. destruct (dw_exists w path) as [[]|e'|]; [done..| |done]. by intros [= <- <-]. Qed.

(** *** The start-up *)

(** Why the program refuses to start. *)
Definition demo_refused (args : list string) : Prop :=
  demo_args args = None \/ exists a, demo_args args = Some a /\
    (dw_exists w (dm_leader_urdf a) = Ok false \/
     dw_exists w (dm_leader_urdf a) = Ok true /\ dw_exists w (dm_follower_urdf a) = Ok false).

Lemma demo_start_exit args t n : demo_start w args = (t, ExitCode n) -> n = 1 /\ t = [] /\ demo_refused args.
Proof.
  intros H. unfold demo_start in H.
  step_exit H; [apply require_exit in H as (? & -> & ->); split_and!; [done..|by left]|].
  apply require_running in R as [Ea ->]. cbn [app].
  step_exit H; [apply found_exit in H as (-> & -> & ?); split_and!; [done..|right; eauto]|].
  apply found_running in R as [-> ?]. cbn [app].
  step_exit H; [apply found_exit in H as (-> & -> & ?); split_and!; [done..|right; eauto 6]|].
  apply found_running in R as [-> _]. cbn [app].
  do 4 (step_exit H; [by apply run_exit in H|]).
  cbv zeta in H. do 2 (step_exit H; [by apply initialize_exit in H|]). done.
Qed.

Lemma demo_start_refused args : demo_refused args -> demo_start w args = ([], ExitCode 1).
Proof.
  unfold demo_start, urdf_found. intros [->|(a & -> & [E1|[E1 E2]])]; [done| |]; cbn; rewrite E1; [done|].
  cbn. by rewrite E2.
Qed.

(** An exception leaves the follower off, and the leader on only if opening the
    follower's CAN device threw. *)
Lemma demo_start_raises args t e :
  demo_start w args = (t, Uncaught e) ->
  t = [] \/ (t = initialize_motors ROLE_LEADER /\ exists a, demo_args args = Some a /\ st_hw E (dm_follower_can a) = Throw e).
Proof.
  intros H. unfold demo_start in H.
  step_raise H; [by apply require_uncaught in H|]. apply require_running in R as [Ea ->]. cbn [app].
  step_raise H; [left; by apply found_uncaught in H|]. apply found_running in R as [-> _]. cbn [app].
  step_raise H; [left; by apply found_uncaught in H|]. apply found_running in R as [-> _]. cbn [app].
  do 4 (step_raise H; [left; by apply run_uncaught in H as [_ ->]|]; apply run_running in R as [_ ->]; cbn [app]).
  cbv zeta in H. step_raise H; [left; by apply initialize_uncaught in H as [_ ->]|].
  apply initialize_running in R as [_ ->].
  step_raise H; [|done]. apply initialize_uncaught in H as [Hf ->]. right. rewrite app_nil_r. split; [done|]. by eexists.
Qed.

(** What a successful start-up went through. *)
Lemma demo_start_running args t cl cf :
  demo_start w args = (t, Running (cl, cf)) ->
  t = initialize_motors ROLE_LEADER ++ initialize_motors ROLE_FOLLOWER /\
  exists a rl rf pl pf ml mf, demo_args args = Some a /\
    dw_exists w (dm_leader_urdf a) = Ok true /\ dw_exists w (dm_follower_urdf a) = Ok true /\
    YamlLoader_new (st_yaml E) "config/leader.yaml" = Ok rl /\ read_arm_params E rl "LeaderArmParam" = Ok pl /\
    YamlLoader_new (st_yaml E) "config/follower.yaml" = Ok rf /\ read_arm_params E rf "FollowerArmParam" = Ok pf /\
    st_hw E (dm_leader_can a) = Ok ml /\ st_hw E (dm_follower_can a) = Ok mf /\
    let dl := arm_dynamics E (dm_leader_urdf a) (leaf_link (dm_arm_side a)) in
    let df := arm_dynamics E (dm_follower_urdf a) (leaf_link (dm_arm_side a)) in
    cl = demo_control dl df ml ROLE_LEADER pl /\ cf = demo_control dl df mf ROLE_FOLLOWER pf.
Proof.
  intros H. unfold demo_start in H.
  step_run H. apply require_running in R as [Ea ->]. step_run H. apply found_running in R as [-> E1].
  step_run H. apply found_running in R as [-> E2]. step_run H. apply run_running in R as [E3 ->].
  step_run H. apply run_running in R as [E4 ->]. step_run H. apply run_running in R as [E5 ->].
  step_run H. apply run_running in R as [E6 ->]. cbv zeta in H.
  step_run H. apply initialize_running in R as [E7 ->]. step_run H. apply initialize_running in R as [E8 ->].
  injection H as <- <- <-. cbn [app]. split; [by rewrite app_nil_r|]. do 7 eexists. by split_and!.
Qed.

(** *** The loop *)

Lemma exec_prefix cycle l s tr : exists tr', (pc_exec cycle l s tr).2 = tr ++ tr'.
Proof.
  revert s tr. induction l as [|x l IH]; intros s tr; cbn [pc_exec]; [exists []; by rewrite app_nil_r|].
  destruct (pc_next cycle x s) as [s1 lab]. destruct (IH s1 (tr ++ [lab])) as [tr' ->]. exists (lab :: tr').
  by rewrite <- app_assoc.
Qed.

(** The loop is the execution of the schedule, unless a cycle in it is undefined. *)
Lemma demo_loop_exec cycle l s tr :
  demo_loop cycle l s tr = ([], Running (pc_exec cycle l s tr)) \/
  (demo_loop cycle l s tr = ([], Undefined) /\ exists r, Sends r Undef ∈ (pc_exec cycle l s tr).2).
Proof.
  revert s tr. induction l as [|x l IH]; intros s tr; cbn [demo_loop pc_exec]; [by left|].
  destruct (pc_next cycle x s) as [s1 lab].
  destruct lab as [r m|r [c|e|]|]; try apply IH. right. split; [done|]. exists r.
  destruct (exec_prefix cycle l s1 (tr ++ [Sends r Undef])) as [tr' ->].
  rewrite !elem_of_app, elem_of_cons. auto.
Qed.

Lemma demo_loop_running cycle l s tr t x :
  demo_loop cycle l s tr = (t, Running x) -> t = [] /\ x = pc_exec cycle l s tr.
Proof. destruct (demo_loop_exec cycle l s tr) as [->|[-> _]]; [|done]. by intros [= <- <-]. Qed.

Lemma demo_loop_no_exit cycle l s tr t n : demo_loop cycle l s tr <> (t, ExitCode n).
Proof. by destruct (demo_loop_exec cycle l s tr) as [->|[-> _]]. Qed.

Lemma demo_loop_no_raise cycle l s tr t e : demo_loop cycle l s tr <> (t, Uncaught e).
Proof. by destruct (demo_loop_exec cycle l s tr) as [->|[-> _]]. Qed.

Lemma adjust_both_quiet rr rl cr cl : quiet (adjust_both rr rl cr cl).
Proof.
  apply quiet_bind; [apply move_quiet|]. intros [? c1]. apply quiet_bind; [apply move_quiet|]. by intros [? c2].
Qed.
End demo.

Lemma demo_unblocked w cycle first_l first_f args schedule stopped t :
  demo_main w cycle first_l first_f args schedule stopped <> (t, Blocked).
Proof.
  intros H. assert (Hu : unblocked (demo_main w cycle first_l first_f args schedule stopped)); [|unfold unblocked in Hu; by rewrite H in Hu].
  apply unblocked_bind; [apply unblocked_catch; unfold demo_start, urdf_found; never_blocks|]. intros [cl cf].
  apply unblocked_bind; [apply unblocked_run|]. intros [cl' cf'].
  apply unblocked_bind; [|intros [s tr]; never_blocks].
  unfold unblocked. by destruct (demo_loop_exec cycle schedule (mkPcState cl' cf' ArmWaiting ArmWaiting AdminWaiting) []) as [->|[-> _]].
Qed.

Lemma gravity_unblocked w args readings stopped t : gravity_main w args readings stopped <> (t, Blocked).
Proof.
  intros H. assert (Hu : unblocked (gravity_main w args readings stopped)); [|unfold unblocked in Hu; by rewrite H in Hu].
  apply unblocked_catch. unfold gravity_start, urdf_found. never_blocks.
Qed.

(** Both arms on. *)
Definition demo_on (t : list (ArmAction Role)) : Prop :=
  enabled_after ROLE_LEADER t = true /\ enabled_after ROLE_FOLLOWER t = true.

(** What the end of a program says about its motors. *)
Definition demo_end_ok (w : DemoWorld) (args : list string) (stopped : bool)
    (t : list (ArmAction Role)) (r : StartResult (PcState * list Label)) : Prop :=
  match r with
  | Running _ => demo_on t
  | ExitCode n =>
      (n = 1 /\ t = [] /\ demo_refused w args) \/
      (n = 0 /\ stopped = true /\ all_off t /\ EnableAll ROLE_LEADER ∈ t) \/
      (n = 0 /\ exists e, demo_start w args = (t, Uncaught e) /\ enabled_after ROLE_FOLLOWER t = false /\
        (enabled_after ROLE_LEADER t = true <->
         t <> [] /\ exists a, demo_args args = Some a /\ st_hw (dw_start w) (dm_follower_can a) = Throw e))
  | Uncaught _ => False
  | Undefined => True
  | Blocked => False
  end.

(** How the bilateral and unilateral programs end, for every control cycle and
    interleaving. While they run both arms are enabled. They return 1 exactly when
    the arguments or the URDF files are refused, before any motor is touched. They
    return 0 in two cases: after a signal, when all motors have been disabled, and
    after an exception of the start-up, which the code does not tell apart: then
    the leader arm is left enabled if it was the follower's CAN device that could
    not be opened. No exception leaves [main]. *)
Lemma demo_exit_codes (w : DemoWorld) (cycle : Motors -> Control -> Control * outcome Commands)
    (first_l first_f : nat -> Motors) (args : list string) (schedule : list (option (Role * Motors))) (stopped : bool) :
  (let '(t, r) := demo_main w cycle first_l first_f args schedule stopped in demo_end_ok w args stopped t r) /\
  (demo_refused w args -> demo_main w cycle first_l first_f args schedule stopped = ([], ExitCode 1)).
Proof.
  split; [|intros H; unfold demo_main; by rewrite demo_start_refused].
  destruct (demo_main w cycle first_l first_f args schedule stopped) as [t [x|n|e| |]] eqn:H; cbn [demo_end_ok]; [| | |done|by apply demo_unblocked in H];
    unfold demo_main in H.
  - step_run H. destruct a as [cl cf]. apply catch_running, demo_start_running in R as [-> _].
    step_run H. destruct a as [cl' cf']. apply run_running in R as [_ ->].
    step_run H. destruct a as [s tr]. apply demo_loop_running in R as [-> _].
    destruct (stopped && all_waiting s); [done|]. by injection H as <- _.
  - step_exit H.
    { apply catch_exit in H as [H|(-> & e & H)]; [left; by apply demo_start_exit in H|right; right].
      split; [done|]. exists e. split; [done|]. apply demo_start_raises in H as [->|(-> & Ha)].
      - split; [done|]. split; [done|]. by intros [[] _].
      - split; [done|]. by split. }
    destruct a as [cl cf]. apply catch_running, demo_start_running in R as [-> _].
    step_exit H; [by apply run_exit in H|]. destruct a as [cl' cf']. apply run_running in R as [_ ->].
    step_exit H; [by apply demo_loop_no_exit in H|]. destruct a as [s tr]. apply demo_loop_running in R as [-> _].
    destruct stopped; [|done]. destruct (all_waiting s); [|done]. cbn [andb] in H. injection H as <- <-. right. left.
    split; [done|]. split; [done|]. split; [by intros []|]. apply list_elem_of_In. simpl. tauto.
  - step_raise H; [by apply catch_uncaught in H|]. destruct a as [cl cf].
    step_raise H; [apply run_uncaught in H as [H _]; by apply adjust_both_quiet in H|]. destruct a as [cl' cf'].
    step_raise H; [by apply demo_loop_no_raise in H|]. destruct a as [s tr]. by destruct (stopped && all_waiting s).
Qed.

(** ** The whole run *)

(** Seven arm motors and one gripper. *)
Definition full_arm (m : Motors) : Prop := length (arm_motors m) = 7%nat /\ length (gripper_motors m) = 1%nat.

(** Gains and friction parameters for eight joints. *)
Definition params_fit (p : ArmParams) : Prop :=
  (8 <= length (pa_kp p))%nat /\ (8 <= length (pa_kd p))%nat /\ (8 <= length (pa_fc p))%nat /\
  (8 <= length (pa_k p))%nat /\ (8 <= length (pa_fv p))%nat /\ (8 <= length (pa_fo p))%nat.

(** The program starts, with what its cycles need. *)
Definition demo_ready (w : DemoWorld) (args : list string) : Prop :=
  exists t dl df ml mf pl pf,
    demo_start w args = (t, Running (demo_control (Some dl) (Some df) ml ROLE_LEADER pl,
                                     demo_control (Some dl) (Some df) mf ROLE_FOLLOWER pf)) /\
    (njoints dl <= 7)%nat /\ (njoints df <= 7)%nat /\ full_arm ml /\ full_arm mf /\ params_fit pl /\ params_fit pf.

(** What the motors report to a schedule. *)
Definition full_choice (x : option (Role * Motors)) : Prop := match x with Some (_, m) => full_arm m | None => True end.

(** The readings an arm's commands can come from: its own one when the first move
    ended, and those of the other arm from then on. *)
Definition sources (first : Role -> nat -> Motors) (r : Role) (tr : list Label) : list Motors :=
  first r nstep :: first (other r) nstep :: readings (other r) tr.

Lemma full_label cycle x s : full_choice x -> motors_shaped 7 1 (pc_next cycle x s).2.
Proof.
  destruct x as [[r m]|]; [|done]. intros Hx. cbn [pc_next]. unfold arm_action.
  destruct (pc_thread r s); cbn [snd motors_shaped]; done.
Qed.

Lemma exec_shaped cycle l s tr :
  Forall full_choice l -> Forall (motors_shaped 7 1) tr -> Forall (motors_shaped 7 1) (pc_exec cycle l s tr).2.
Proof.
  intros Hl. revert s tr. induction Hl as [|x l Hx _ IH]; intros s tr Htr; [done|]. cbn [pc_exec].
  pose proof (full_label cycle x s Hx) as Hlab. destruct (pc_next cycle x s) as [s1 lab]. apply IH.
  apply Forall_app. auto.
Qed.

(** A label of a run is the label of a step after a shorter one. *)
Lemma run_label cycle s tr s' l :
  pc_run cycle s tr s' -> l ∈ tr -> exists tr1 tr2 s1 s2, tr = tr1 ++ l :: tr2 /\ pc_run cycle s tr1 s1 /\ pc_step cycle s1 l s2.
Proof.
  induction 1 as [|tr s1 l' s2 Hr IH Hs]; [by intros ?%elem_of_nil|]. rewrite elem_of_app, list_elem_of_singleton.
  intros [Hin| ->].
  - destruct (IH Hin) as (tr1 & tr2 & sa & sb & -> & ? & ?). exists tr1, (tr2 ++ [l']), sa, sb. by rewrite <- app_assoc.
  - by exists tr, [], s1, s2.
Qed.

Lemma readings_app r tr1 tr2 : readings r (tr1 ++ tr2) = readings r tr1 ++ readings r tr2.
Proof. apply omap_app. Qed.

(** The efforts of references do not matter. *)
Lemma follows_pose ra rh ra' rh' arm hand :
  same_pose ra ra' -> same_pose rh rh' -> follows ra' rh' arm hand -> follows ra rh arm hand.
Proof.
  intros Ha Hh [Fa Fh]. split; intros i p Hp.
  - destruct (Fa i p Hp) as (j' & Hj & -> & ->). destruct (Ha i j' Hj) as (j & ? & -> & ->). by exists j.
  - destruct (Fh i p Hp) as (j' & Hj & -> & ->). destruct (Hh i j' Hj) as (j & ? & -> & ->). by exists j.
Qed.

Lemma same_pose_refl l : same_pose l l.
Proof. intros i j Hj. by exists j. Qed.

Lemma without_effort_arm l : same_pose (arm_motor_to_joint l) (arm_motor_to_joint (without_effort l)).
Proof.
  intros i j'. unfold arm_motor_to_joint, without_effort. rewrite map_map, !list_lookup_fmap.
  intros (m & Hm & ->)%fmap_Some. rewrite Hm. by eexists.
Qed.

Lemma without_effort_hand l : same_pose (gripper_motor_to_joint l) (gripper_motor_to_joint (without_effort l)).
Proof.
  intros i j'. unfold gripper_motor_to_joint, without_effort. rewrite map_map, !list_lookup_fmap.
  intros (m & Hm & ->)%fmap_Some. rewrite Hm. by eexists.
Qed.

Section run.
Context (tanh : double -> double) (first : Role -> nat -> Motors) (cl cf : Control).

(** The state the threads start in. *)
Definition demo_state : PcState :=
  mkPcState (with_robot_state (posture_of (first ROLE_LEADER nstep)) cl)
            (with_robot_state (posture_of (first ROLE_FOLLOWER nstep)) cf) ArmWaiting ArmWaiting AdminWaiting.

Hypothesis Hfull : forall r k, full_arm (first r k).

Lemma demo_moves : adjust_both (first ROLE_LEADER) (first ROLE_FOLLOWER) cl cf = Ok (pc_leader demo_state, pc_follower demo_state).
Proof using Hfull.
  assert (Ht : forall r c, exists steps, AdjustPosition (first r) c = Ok (steps, with_robot_state (posture_of (first r nstep)) c)).
  { intros r c. destruct (Hfull r 0%nat) as [Ha Hh].
    destruct (adjust_total (first r) c Ha) as (steps & c' & E); [by rewrite Hh|]. exists steps. rewrite E.
    apply move_result in E. by subst. }
  unfold adjust_both. destruct (Ht ROLE_LEADER cl) as [? ->]. cbn [mbind outcome_bind].
  by destruct (Ht ROLE_FOLLOWER cf) as [? ->].
Qed.

Lemma demo_state_shaped : state_shaped 7 1 demo_state.
Proof using Hfull.
  intros r. destruct (Hfull r nstep) as [Ha Hh].
  destruct r; cbn; rewrite length_arm_motor_to_joint, length_gripper_motor_to_joint; unfold without_effort;
    by rewrite !length_map.
Qed.

(** The vectors an arm can follow are those of its sources. *)
Lemma arm_target_source r tr v : v ∈ arm_targets demo_state r tr ->
  exists m, m ∈ sources first r tr /\ same_pose (arm_motor_to_joint (arm_motors m)) v.
Proof.
  unfold arm_targets, arm_postures, sources. rewrite !elem_of_cons. intros [->|[->|Hv]].
  - exists (first r nstep). split; [rewrite !elem_of_cons; tauto|]. destruct r; apply without_effort_arm.
  - exists (first (other r) nstep). split; [rewrite !elem_of_cons; tauto|]. destruct r; apply without_effort_arm.
  - apply list_elem_of_In, in_map_iff in Hv as (m & <- & Hm%list_elem_of_In). exists m. split; [rewrite !elem_of_cons; tauto|].
    apply same_pose_refl.
Qed.

Lemma hand_target_source r tr v : v ∈ hand_targets demo_state r tr ->
  exists m, m ∈ sources first r tr /\ same_pose (gripper_motor_to_joint (gripper_motors m)) v.
Proof.
  unfold hand_targets, hand_postures, sources. rewrite !elem_of_cons. intros [->|[->|Hv]].
  - exists (first r nstep). split; [rewrite !elem_of_cons; tauto|]. destruct r; apply without_effort_hand.
  - exists (first (other r) nstep). split; [rewrite !elem_of_cons; tauto|]. destruct r; apply without_effort_hand.
  - apply list_elem_of_In, in_map_iff in Hv as (m & <- & Hm%list_elem_of_In). exists m. split; [rewrite !elem_of_cons; tauto|].
    apply same_pose_refl.
Qed.
End run.

(** What the cycles need is in the controllers. *)
Lemma demo_fits w args r :
  demo_ready w args -> exists t cl cf, demo_start w args = (t, Running (cl, cf)) /\
    forall first, ct_role (pc_control r (demo_state first cl cf)) = r /\ fits_arm r 7 1 (pc_control r (demo_state first cl cf)).
Proof.
  intros (t & dl & df & ml & mf & pl & pf & Hs & Hl & Hf & _ & _ & Pl & Pf). eexists _, _, _. split; [exact Hs|].
  intros first. unfold params_fit in *.
  destruct r; (split; [done|]); (split; [by eexists|]); (split; [unfold friction_params; cbn; lia|cbn; lia]).
Qed.

(** Every label of the run: commands are defined and follow a source. *)
Lemma demo_sends tanh first cl cf r schedule o :
  (forall r k, full_arm (first r k)) -> Forall full_choice schedule ->
  ct_role (pc_control r (demo_state first cl cf)) = r -> fits_arm r 7 1 (pc_control r (demo_state first cl cf)) ->
  let tr := (pc_exec (bilateral_step tanh) schedule (demo_state first cl cf) []).2 in
  Sends r o ∈ tr -> exists arm hand ma mh, o = Ok (arm, hand) /\ ma ∈ sources first r tr /\ mh ∈ sources first r tr /\
    follows (arm_motor_to_joint (arm_motors ma)) (gripper_motor_to_joint (gripper_motors mh)) arm hand.
Proof.
  intros Hfull Hsch Hrole Hfit tr Hin. set (s0 := demo_state first cl cf) in *.
  pose proof (pc_exec_run (bilateral_step tanh) schedule s0 [] s0 (run_start _ _)) as Hrun. fold tr in Hrun.
  pose proof (exec_shaped (bilateral_step tanh) schedule s0 [] Hsch (Forall_nil_2 _)) as Hshape. fold tr in Hshape.
  destruct (run_label _ _ _ _ _ Hrun Hin) as (tr1 & tr2 & s1 & s2 & Etr & Hr1 & Hstep).
  rewrite Etr in Hshape. apply Forall_app in Hshape as [Hsh1 _].
  destruct (pc_always_sends tanh 7 1 r s0 s1 s2 tr1 o Hrole Hfit (demo_state_shaped first cl cf Hfull) eq_refl eq_refl eq_refl
    Hr1 Hsh1 Hstep) as [[arm hand] ->].
  destruct (sends_follow (bilateral_step tanh) r s0 s1 s2 tr1 arm hand (bilateral_tracks tanh r) Hrole
    (pc_run_inv (bilateral_step tanh) s0 tr1 s1 eq_refl eq_refl eq_refl Hr1) Hstep) as (ra & rh & Ha & Hh & Hfol).
  destruct (arm_target_source _ _ _ _ _ _ Ha) as (ma & Hma & Pa). destruct (hand_target_source _ _ _ _ _ _ Hh) as (mh & Hmh & Ph).
  assert (Hsub : forall m, m ∈ sources first r tr1 -> m ∈ sources first r tr).
  { intros m. unfold sources. rewrite Etr, readings_app, !elem_of_cons, elem_of_app. tauto. }
  exists arm, hand, ma, mh. split_and!; auto. by eapply follows_pose.
Qed.

(** C31: The bilateral program controls both arms for as long as it runs, in every
    interleaving of its threads. If the start-up finds gains for eight joints,
    solvers for at most seven and arms of seven motors and a gripper, then the
    moves and every cycle of either arm are defined, every cycle sends commands,
    and their positions and velocities are those of one reading for the arm and
    one for the gripper: the arm's own at the end of the first move, or one of
    the other arm. Stopped between cycles, the program returns 0 with all motors
    disabled. *)
Theorem demo_keeps_control (tanh : double -> double) (w : DemoWorld) (first : Role -> nat -> Motors)
    (args : list string) (schedule : list (option (Role * Motors))) :
  demo_ready w args -> (forall r k, full_arm (first r k)) -> Forall full_choice schedule ->
  let run := demo_main w (bilateral_step tanh) (first ROLE_LEADER) (first ROLE_FOLLOWER) args schedule in
  exists t s tr, run false = (t, Running (s, tr)) /\
    (forall r o, Sends r o ∈ tr -> exists arm hand ma mh, o = Ok (arm, hand) /\
       ma ∈ sources first r tr /\ mh ∈ sources first r tr /\
       follows (arm_motor_to_joint (arm_motors ma)) (gripper_motor_to_joint (gripper_motors mh)) arm hand) /\
    (all_waiting s = true -> exists t', run true = (t', ExitCode 0) /\ all_off t').
Proof.
  intros Hready Hfull Hsch run. destruct (demo_fits w args ROLE_LEADER Hready) as (t & cl & cf & Hs & HL).
  destruct (demo_fits w args ROLE_FOLLOWER Hready) as (t' & cl' & cf' & Hs' & HF). rewrite Hs in Hs'. injection Hs' as <- <- <-.
  assert (Hsend := fun r => demo_sends tanh first cl cf r schedule).
  destruct (demo_loop_exec (bilateral_step tanh) schedule (demo_state first cl cf) []) as [El|[_ [r Hu]]].
  2:{ assert (Hd : exists arm hand : list MITParam, (Undef : outcome Commands) = Ok (arm, hand)); [|by destruct Hd as (? & ? & ?)].
      destruct r; [destruct (HL first) as [H1 H2]|destruct (HF first) as [H1 H2]];
        destruct (Hsend _ _ Hfull Hsch H1 H2 Hu) as (arm & hand & _ & _ & E & _); by exists arm, hand. }
  destruct (pc_exec (bilateral_step tanh) schedule (demo_state first cl cf) []) as [s tr] eqn:Ex.
  assert (Hrun : forall b, run b = (t ++ (if b && all_waiting s then demo_off else []),
                                    if b && all_waiting s then ExitCode 0 else Running (s, tr))).
  { intros b. unfold run, demo_main. rewrite Hs. cbn [catch_all].
    rewrite (bind_from _ _ _ _ eq_refl). rewrite (demo_moves first cl cf Hfull). fold (demo_state first cl cf).
    cbn [mbind start_bind Startup.run app fst snd]. 
    change (mkPcState (pc_leader (demo_state first cl cf)) (pc_follower (demo_state first cl cf)) ArmWaiting ArmWaiting AdminWaiting)
      with (demo_state first cl cf).
    rewrite El. cbn. by destruct (b && all_waiting s). }
  exists (t ++ []), s, tr. split; [apply Hrun|]. split.
  - intros r o Hin. specialize (Hsend r o Hfull Hsch).
    destruct r; [destruct (HL first) as [H1 H2]|destruct (HF first) as [H1 H2]]; by apply Hsend.
  - intros Hw. eexists. rewrite Hrun, Hw. split; [done|]. intros []; by rewrite enabled_after_app.
Qed.

(** ** Gravity compensation *)

(** The commands for a posture: the model's gravity, and no torque on motors the
    model does not have. *)
Definition gravity_commands (d : Dynamics) (n : nat) (m : Motors) : list MITParam :=
  map torque_cmd (JntToGravity d (take (njoints d) (map ms_position (arm_motors m))) ++ replicate (n - njoints d) d0).

(** The buffers keep their size, and the torques beyond the model stay zero. *)
Definition gravity_inv (n : nat) (d : Dynamics) (s : GravityState) : Prop :=
  length (gv_positions s) = n /\ length (gv_velocities s) = n /\ length (gv_torques s) = n /\
  drop (njoints d) (gv_torques s) = replicate (n - njoints d) d0.

Lemma gravity_inv_new n d : gravity_inv n d (gravity_state_new n).
Proof. unfold gravity_inv. cbn. by rewrite !length_replicate, drop_replicate. Qed.

Lemma write_all v a : length v = length a -> write_joints v a = Ok v.
Proof.
  intros H. unfold write_joints. rewrite decide_True by lia. by rewrite drop_ge, app_nil_r by lia.
Qed.

Lemma gravity_cycle_spec n d m s :
  (njoints d <= n)%nat -> length (arm_motors m) = n -> gravity_inv n d s ->
  exists s', gravity_cycle (Some d) m s = Ok (s', gravity_commands d n m) /\ gravity_inv n d s'.
Proof.
  intros Hd Hm (Hp & Hv & Ht & Hz). unfold gravity_cycle.
  rewrite write_all by (rewrite length_map; congruence). cbn [mbind outcome_bind].
  rewrite write_all by (rewrite length_map; congruence). cbn [mbind outcome_bind deref].
  destruct (GetGravity_ok d (map ms_position (arm_motors m)) (gv_torques s)) as (g & -> & Hg & Eg);
    [by rewrite length_map, Hm|by rewrite Ht|]. cbn [mbind outcome_bind].
  unfold gravity_commands. rewrite Hz in Eg. rewrite <- Eg. eexists. split; [reflexivity|].
  split; cbn [gv_positions gv_velocities gv_torques]; [by rewrite length_map|]. split; [by rewrite length_map|].
  split; [by rewrite Hg|]. rewrite Eg. rewrite drop_app_length'; [done|]. by rewrite JntToGravity_length.
Qed.

Lemma gravity_loop_spec n d l s :
  (njoints d <= n)%nat -> Forall (fun m => length (arm_motors m) = n) l -> gravity_inv n d s ->
  exists s', gravity_loop (Some d) l s = Ok (s', map (gravity_commands d n) l).
Proof.
  intros Hd Hl. revert s. induction Hl as [|m l Hm _ IH]; intros s Hs; [by exists s|]. cbn [gravity_loop].
  destruct (gravity_cycle_spec n d m s Hd Hm Hs) as (s1 & -> & Hs1). cbn [mbind outcome_bind].
  destruct (IH s1 Hs1) as (s2 & ->). by exists s2.
Qed.

Lemma quiet_read n a : quiet (read_joints n a).
Proof. unfold read_joints. by case_decide. Qed.

Lemma quiet_write v a : quiet (write_joints v a).
Proof. unfold write_joints. by case_decide. Qed.

Lemma quiet_deref {A} (p : option A) : quiet (deref p).
Proof. by destruct p. Qed.

#[export] Hint Resolve quiet_read quiet_write quiet_deref : quiet.

Lemma gravity_loop_quiet d l s : quiet (gravity_loop d l s).
Proof.
  revert s. induction l as [|m l IH]; intros s; [done|]. cbn [gravity_loop]. apply quiet_bind.
  - unfold gravity_cycle, GetGravity. auto 12 with quiet.
  - intros [s1 cmds]. apply quiet_bind; [apply IH|]. by intros [].
Qed.

Definition gravity_refused (w : DemoWorld) (args : list string) : Prop :=
  match args with
  | arm_side :: _ :: urdf_path :: _ => known_side arm_side = false \/ dw_exists w urdf_path = Ok false
  | _ => True
  end.

Lemma gravity_start_exit w args t n : gravity_start w args = (t, ExitCode n) -> n = 1 /\ t = [] /\ gravity_refused w args.
Proof.
  unfold gravity_start, gravity_refused. destruct args as [|side [|can [|urdf rest]]]; try (by intros [= <- <-]).
  destruct (known_side side); [|intros [= <- <-]; by split_and!; auto]. intros H.
  step_exit H; [apply found_exit in H as (-> & -> & ?); by split_and!; auto|].
  apply found_running in R as [-> _]. cbv zeta in H. step_exit H; [by apply initialize_exit in H|]. done.
Qed.

Lemma gravity_start_raises w args t e : gravity_start w args = (t, Uncaught e) -> t = [].
Proof.
  unfold gravity_start. destruct args as [|side [|can [|urdf rest]]]; try done.
  destruct (known_side side); [|done]. intros H.
  step_raise H; [by apply found_uncaught in H|]. apply found_running in R as [-> _]. cbv zeta in H.
  step_raise H; [by apply initialize_uncaught in H as [_ ->]|]. done.
Qed.

Lemma gravity_start_running w args t x : gravity_start w args = (t, Running x) -> t = initialize_motors tt.
Proof.
  unfold gravity_start. destruct args as [|side [|can [|urdf rest]]]; try done.
  destruct (known_side side); [|done]. intros H. step_run H. apply found_running in R as [-> _]. cbv zeta in H.
  step_run H. apply initialize_running in R as [_ ->]. injection H as <- <-. done.
Qed.

(** Gravity compensation. [main] returns 1 for refused arguments and -1 after
    an exception, in both cases without having enabled the motors, and 0 after a
    signal with the motors off; while it runs they are on. With a solver for at
    most as many joints as there are motors, every iteration sends each motor
    exactly the model's gravity torque at the posture just measured, neither
    limited nor checked, with zero gains. *)
Lemma gravity_program (w : DemoWorld) (args : list string) (readings : list Motors) (stopped : bool) :
  (let '(t, r) := gravity_main w args readings stopped in
   match r with
   | Running _ => enabled_after tt t = true
   | ExitCode n =>
       (n = 1 /\ t = [] /\ gravity_refused w args) \/ (n = -1 /\ t = []) \/
       (n = 0 /\ stopped = true /\ EnableAll tt ∈ t /\ enabled_after tt t = false)
   | Uncaught _ => False
   | Undefined => True
   | Blocked => False
   end) /\
  (forall t d m, gravity_start w args = (t, Running (Some d, m)) -> (njoints d <= length (arm_motors m))%nat ->
     Forall (fun m' => length (arm_motors m') = length (arm_motors m)) readings ->
     gravity_main w args readings stopped =
       (t ++ (if stopped then [DisableAll tt; RecvAll tt] else []),
        if stopped then ExitCode 0 else Running (map (gravity_commands d (length (arm_motors m))) readings))).
Proof.
  split.
  - destruct (gravity_main w args readings stopped) as [t [x|n|e| |]] eqn:H; [| | |done|by apply gravity_unblocked in H]; unfold gravity_main in H.
    + apply catch_running in H. step_run H. destruct a as [d m]. apply gravity_start_running in R as ->.
      step_run H. destruct a as [s sent]. apply run_running in R as [_ ->].
      destruct stopped; [done|]. by injection H as <- _.
    + apply catch_exit in H as [H|(-> & e & H)].
      * step_exit H; [left; by apply gravity_start_exit in H|]. destruct a as [d m]. apply gravity_start_running in R as ->.
        step_exit H; [by apply run_exit in H|]. destruct a as [s sent]. apply run_running in R as [_ ->].
        destruct stopped; [|done]. injection H as <- <-. right. right. split; [done|]. split; [done|].
        split; [|done]. apply list_elem_of_In. simpl. tauto.
      * right. left. split; [done|]. step_raise H; [by apply gravity_start_raises in H|]. destruct a as [d m].
        step_raise H; [apply run_uncaught in H as [H _]; by apply gravity_loop_quiet in H|]. by destruct a, stopped.
    + by apply catch_uncaught in H.
  - intros t d m Hs Hd Hl. unfold gravity_main. rewrite Hs, (bind_from _ _ _ _ eq_refl).
    destruct (gravity_loop_spec _ _ readings _ Hd Hl (gravity_inv_new _ d)) as [s ->]. by destruct stopped.
Qed.

(** ** Witnesses *)

(** Both files and URDFs are there; the follower's device may be missing. *)
Definition demo_world (follower_opens : bool) : DemoWorld :=
  let section := TMap [("Kp", gains); ("Kd", gains); ("Fc", gains); ("k", gains); ("Fv", gains); ("Fo", gains)] in
  mkDemoWorld
    (mkStartEnv (tree_yaml (Ok (TMap [("LeaderArmParam", section); ("FollowerArmParam", section)])))
       (mkInitEnv (fun p => Some p) (fun _ => true) (fun _ => true) (fun _ _ _ => Some test_dynamics))
       (fun can => if String.eqb can "can2" && negb follower_opens then Throw "no device" else Ok test_motors))
    (fun _ => Ok true).

(** A cycle of the leader, a round of the admin thread, a cycle of the follower. *)
Definition demo_schedule : list (option (Role * Motors)) :=
  replicate 4 (Some (ROLE_LEADER, test_motors)) ++ replicate 8 None ++ replicate 4 (Some (ROLE_FOLLOWER, test_motors)).

Definition is_sends (l : Label) : bool := match l with Sends _ (Ok _) => true | _ => false end.

Lemma demo_exit_codes_witness :
  demo_main (demo_world true) (bilateral_step id) (fun _ => test_motors) (fun _ => test_motors) ["leader.urdf"] [] false
    = ([], ExitCode 1) /\
  exists t, demo_main (demo_world false) (bilateral_step id) (fun _ => test_motors) (fun _ => test_motors)
      ["leader.urdf"; "follower.urdf"] [] false = (t, ExitCode 0) /\
    exists e, demo_start (demo_world false) ["leader.urdf"; "follower.urdf"] = (t, Uncaught e) /\
      enabled_after ROLE_LEADER t = true.
Proof.
  split; [apply (demo_exit_codes (demo_world true)); by left|].
  destruct (demo_exit_codes (demo_world false) (bilateral_step id) (fun _ => test_motors) (fun _ => test_motors)
    ["leader.urdf"; "follower.urdf"] [] false) as [H _].
  assert (E : demo_main (demo_world false) (bilateral_step id) (fun _ => test_motors) (fun _ => test_motors)
    ["leader.urdf"; "follower.urdf"] [] false = (initialize_motors ROLE_LEADER, ExitCode 0)) by (vm_compute; reflexivity).
  rewrite E in H. exists (initialize_motors ROLE_LEADER). split; [exact E|].
  destruct H as [(H & _)|[(_ & H & _)|(_ & e & Hs & _)]]; [discriminate H|discriminate H|].
  exists e. split; [exact Hs|reflexivity].
Defined.

Lemma demo_keeps_control_witness :
  exists t s tr t', demo_main (demo_world true) (bilateral_step id) (fun _ => test_motors) (fun _ => test_motors)
      ["leader.urdf"; "follower.urdf"] demo_schedule false = (t, Running (s, tr)) /\
    existsb is_sends tr = true /\
    demo_main (demo_world true) (bilateral_step id) (fun _ => test_motors) (fun _ => test_motors)
      ["leader.urdf"; "follower.urdf"] demo_schedule true = (t', ExitCode 0) /\ all_off t'.
Proof.
  assert (C : match demo_main (demo_world true) (bilateral_step id) (fun _ => test_motors) (fun _ => test_motors)
      ["leader.urdf"; "follower.urdf"] demo_schedule false with
    | (_, Running (s, tr)) => all_waiting s && existsb is_sends tr | _ => false end = true) by (vm_compute; reflexivity).
  destruct (demo_keeps_control id (demo_world true) (fun _ _ => test_motors) ["leader.urdf"; "follower.urdf"] demo_schedule)
    as (t & s & tr & E & _ & Hstop).
  - set (p := mkArmParams (replicate 8 d1) (replicate 8 d1) (replicate 8 d1) (replicate 8 d1) (replicate 8 d1) (replicate 8 d1)).
    exists (initialize_motors ROLE_LEADER ++ initialize_motors ROLE_FOLLOWER), test_dynamics, test_dynamics, test_motors, test_motors, p, p.
    split; [vm_compute; reflexivity|]. unfold params_fit, full_arm, p. cbn. split_and!; lia.
  - intros _ _. split; reflexivity.
  - apply Forall_app. split; [|apply Forall_app; split]; apply Forall_replicate; [split; reflexivity|exact I|split; reflexivity].
  - rewrite E in C. apply andb_true_iff in C as [Cw Cs]. destruct (Hstop Cw) as (t' & E' & Hoff).
    exists t, s, tr, t'. split; [exact E|]. split; [exact Cs|]. split; [exact E'|exact Hoff].
Defined.

(** Three readings of an arm, and a device that is not there. *)
Lemma gravity_program_witness :
  gravity_main (demo_world true) ["right_arm"; "can0"; "arm.urdf"] (replicate 3 test_motors) false =
    (initialize_motors tt ++ [], Running (map (gravity_commands test_dynamics 7) (replicate 3 test_motors))).
Proof.
  destruct (gravity_program (demo_world true) ["right_arm"; "can0"; "arm.urdf"] (replicate 3 test_motors) false) as [_ H].
  apply (H (initialize_motors tt) test_dynamics test_motors); [vm_compute; reflexivity|cbn; lia|].
  apply Forall_replicate. reflexivity.
Defined.
