(* ===== verification/Args.v ===== *)
(** * Args: command lines of the programs

    The argument loops of the five programs in [src/src/apps/]. The local
    variables of [main] are a map from names to typed values; an option is the
    variable it sets and the conversion of its value. [std::stoi] is modelled
    ([stol] with the range of [int]) and its conversion to a [uint16_t] port
    wraps; [std::stod] is a parameter. *)

From S2P Require Import Prelude Float64 LinkCheck Safety VrConfig.
From stdpp Require Import gmap.

Open Scope Z_scope.

(** ** Variables *)

Inductive Value :=
| VText (s : string)
| VPort (p : Z)
| VNum (x : double)
| VFlag (b : bool)
| VTexts (l : list string).

Abbreviation Vars := (gmap string Value).

(** What an option does to its variable. *)
Inductive Opt :=
| OptText (var : string)
| OptPort (var : string)
| OptNum (var : string)
| OptPush (var prefix : string)
| OptFlag (var : string).

Definition takes_value (o : Opt) : bool := match o with OptFlag _ => false | _ => true end.

(** [std::stoi]. *)
Definition stoi (s : string) : outcome Z :=
  match stol s with
  | Some v => if (- 2 ^ 31 <=? v) && (v <? 2 ^ 31) then Ok v else Throw "stoi"
  | None => Throw "stoi"
  end.

Section args.
Context (stod : string -> outcome double).

(** The assignment of one option. *)
Definition set_option (o : Opt) (value : string) (vars : Vars) : outcome Vars :=
  match o with
  | OptText v => Ok (<[v := VText value]> vars)
  | OptPort v => n ← stoi value; Ok (<[v := VPort (u16 n)]> vars)
  | OptNum v => x ← stod value; Ok (<[v := VNum x]> vars)
  | OptPush v pre =>
      Ok (<[v := VTexts (match vars !! v with Some (VTexts l) => l | _ => [] end ++ [pre +:+ value])]> vars)
  | OptFlag v => Ok (<[v := VFlag true]> vars)
  end.

Fixpoint find_option (opts : list (string * Opt)) (arg : string) : option Opt :=
  match opts with
  | [] => None
  | (n, o) :: opts' => if String.eqb arg n then Some o else find_option opts' arg
  end.

(** The loop over [argv]: unknown arguments, and an option whose value is
    missing at the end, are skipped. *)
Fixpoint parse_args (opts : list (string * Opt)) (args : list string) (vars : Vars) : outcome Vars :=
  match args with
  | [] => Ok vars
  | arg :: rest =>
      match find_option opts arg with
      | Some o =>
          if takes_value o then
            match rest with
            | value :: rest' => vars ← set_option o value vars; parse_args opts rest' vars
            | [] => Ok vars
            end
          else vars ← set_option o "" vars; parse_args opts rest vars
      | None => parse_args opts rest vars
      end
  end.
End args.

(** ** The programs *)

Record Program := mkProgram { pr_options : list (string * Opt); pr_defaults : Vars }.

Definition bimanual_leader : Program := mkProgram
  [("--follower-ip", OptText "follower_ip"); ("--right-can", OptText "right_can"); ("--left-can", OptText "left_can");
   ("--right-port", OptPort "right_port"); ("--left-port", OptPort "left_port"); ("--rate-hz", OptNum "rate_hz");
   ("--right-urdf", OptText "right_urdf"); ("--left-urdf", OptText "left_urdf"); ("--bind-ip", OptText "bind_ip");
   ("--interface", OptText "interface_name"); ("--local-port-r", OptPort "local_port_r");
   ("--local-port-l", OptPort "local_port_l"); ("--enable", OptFlag "initial_enable"); ("--mock", OptFlag "mock");
   ("--publish-telemetry", OptFlag "publish_telemetry"); ("--telemetry-ip", OptText "telemetry_ip");
   ("--telemetry-port", OptPort "telemetry_port"); ("--telemetry-rate-hz", OptNum "telemetry_rate_hz");
   ("--control-bind-ip", OptText "control_bind_ip"); ("--control-port", OptPort "control_port")]
  (list_to_map
    [("follower_ip", VText "172.30.21.146"); ("right_can", VText "can0"); ("left_can", VText "can1");
     ("right_port", VPort 50000); ("left_port", VPort 50001); ("rate_hz", VNum (d_of_Z 500));
     ("initial_enable", VFlag false); ("mock", VFlag false); ("bind_ip", VText "0.0.0.0"); ("interface_name", VText "");
     ("local_port_r", VPort 0); ("local_port_l", VPort 0); ("right_urdf", VText "urdf/openarm_right.urdf");
     ("left_urdf", VText "urdf/openarm_left.urdf"); ("publish_telemetry", VFlag false); ("telemetry_ip", VText "127.0.0.1");
     ("telemetry_port", VPort 51000); ("telemetry_rate_hz", VNum (d_of_Z 100)); ("control_bind_ip", VText "0.0.0.0");
     ("control_port", VPort 0)]).

Definition bimanual_follower : Program := mkProgram
  [("--right-can", OptText "right_can"); ("--left-can", OptText "left_can"); ("--right-port", OptPort "right_port");
   ("--left-port", OptPort "left_port"); ("--control-rate-hz", OptNum "rate_hz"); ("--right-urdf", OptText "right_urdf");
   ("--left-urdf", OptText "left_urdf"); ("--bind-ip", OptText "bind_ip"); ("--interface", OptText "interface_name");
   ("--watchdog-hold-ms", OptNum "watchdog_hold_ms"); ("--watchdog-disable-ms", OptNum "watchdog_disable_ms");
   ("--publish-telemetry", OptFlag "publish_telemetry"); ("--telemetry-ip", OptText "telemetry_ip");
   ("--telemetry-port", OptPort "telemetry_port"); ("--telemetry-rate-hz", OptNum "telemetry_rate_hz");
   ("--telemetry-log-stats", OptFlag "telemetry_log_stats"); ("--control-bind-ip", OptText "control_bind_ip");
   ("--control-port", OptPort "control_port"); ("--mock", OptFlag "mock")]
  (list_to_map
    [("right_can", VText "can2"); ("left_can", VText "can3"); ("right_port", VPort 50000); ("left_port", VPort 50001);
     ("rate_hz", VNum (d_of_Z 500)); ("mock", VFlag false); ("bind_ip", VText "0.0.0.0"); ("interface_name", VText "");
     ("right_urdf", VText "urdf/openarm_right.urdf"); ("left_urdf", VText "urdf/openarm_left.urdf");
     ("publish_telemetry", VFlag false); ("telemetry_ip", VText "127.0.0.1"); ("telemetry_port", VPort 51000);
     ("telemetry_rate_hz", VNum (d_of_Z 100)); ("telemetry_log_stats", VFlag false);
     ("control_bind_ip", VText "0.0.0.0"); ("control_port", VPort 0);
     ("watchdog_hold_ms", VNum (watchdog_hold_ms safety_config_default));
     ("watchdog_disable_ms", VNum (watchdog_disable_ms safety_config_default))]).

Definition vr_leader : Program := mkProgram
  [("--follower-ip", OptText "follower_ip"); ("--vr-port", OptPort "vr_port"); ("--telemetry-port", OptPort "telemetry_port");
   ("--rate-hz", OptNum "rate_hz"); ("--right-urdf", OptText "right_urdf"); ("--left-urdf", OptText "left_urdf");
   ("--config", OptText "config_path"); ("--ik-debug", OptFlag "ik_debug");
   ("--ik-debug-rate-hz", OptPush "set_overrides" "debug.ik_debug_rate_hz=");
   ("--ik-debug-burst-sec", OptPush "set_overrides" "debug.ik_debug_burst_sec=");
   ("--log-csv", OptText "log_csv_path"); ("--max-test-sec", OptNum "max_test_sec"); ("--dry-run", OptFlag "dry_run");
   ("--vr-mapping-test", OptFlag "mapping_test"); ("--set", OptPush "set_overrides" "")]
  (list_to_map
    [("follower_ip", VText "127.0.0.1"); ("right_port", VPort 50000); ("left_port", VPort 50001); ("vr_port", VPort 54002);
     ("telemetry_port", VPort 51000); ("viz_port", VPort 54001); ("rate_hz", VNum (d_of_Z 100));
     ("right_urdf", VText "urdf/openarm_right.urdf"); ("left_urdf", VText "urdf/openarm_left.urdf");
     ("right_ee", VText "openarm_right_hand"); ("left_ee", VText "openarm_left_hand");
     ("config_path", VText "config/vr_teleop_config.yaml"); ("ik_debug", VFlag false); ("dry_run", VFlag false);
     ("mapping_test", VFlag false); ("max_test_sec", VNum d0); ("log_csv_path", VText ""); ("set_overrides", VTexts [])]).

Definition single_leader : Program := mkProgram
  [("--follower-ip", OptText "follower_ip"); ("--can", OptText "can_interface"); ("--port", OptPort "port");
   ("--rate-hz", OptNum "rate_hz"); ("--urdf", OptText "leader_urdf"); ("--enable", OptFlag "enable");
   ("--mock", OptFlag "mock")]
  (list_to_map
    [("follower_ip", VText "127.0.0.1"); ("can_interface", VText "can0"); ("port", VPort 50000);
     ("rate_hz", VNum (d_of_Z 500)); ("enable", VFlag false); ("mock", VFlag false); ("leader_urdf", VText "")]).

Definition single_follower : Program := mkProgram
  [("--can", OptText "can_interface"); ("--port", OptPort "port"); ("--control-rate-hz", OptNum "rate_hz");
   ("--urdf", OptText "follower_urdf"); ("--watchdog-hold-ms", OptNum "watchdog_hold_ms");
   ("--watchdog-disable-ms", OptNum "watchdog_disable_ms"); ("--mock", OptFlag "mock")]
  (list_to_map
    [("can_interface", VText "can2"); ("port", VPort 50000); ("rate_hz", VNum (d_of_Z 500)); ("mock", VFlag false);
     ("follower_urdf", VText ""); ("watchdog_hold_ms", VNum (watchdog_hold_ms safety_config_default));
     ("watchdog_disable_ms", VNum (watchdog_disable_ms safety_config_default))]).

(** ** Using the variables *)

Definition text (vars : Vars) (k : string) : string := match vars !! k with Some (VText s) => s | _ => "" end.
Definition port (vars : Vars) (k : string) : Z := match vars !! k with Some (VPort p) => p | _ => 0 end.
Definition num (vars : Vars) (k : string) : double := match vars !! k with Some (VNum x) => x | _ => d0 end.
Definition flag (vars : Vars) (k : string) : bool := match vars !! k with Some (VFlag b) => b | _ => false end.

(** The follower programs' safety configuration: the defaults but for the two
    watchdog limits. *)
Definition args_safety_config (vars : Vars) : SafetyConfig :=
  let d := safety_config_default in
  mkSafetyConfig (require_enable d) (watchdog_warning_ms d) (num vars "watchdog_hold_ms") (num vars "watchdog_disable_ms")
    (initial_pose_max_error_rad d) (max_target_delta_rad_per_cycle d) (max_joint_velocity_rad_s d)
    (reject_out_of_order_packets d).

(** ** Typing *)

(** The type of a variable, and the range of its values. *)
Definition value_ok (v v' : Value) : Prop :=
  match v, v' with
  | VText _, VText _ | VNum _, VNum _ | VFlag _, VFlag _ | VTexts _, VTexts _ => True
  | VPort _, VPort p => in_width 16 p
  | _, _ => False
  end.

(** Every option names a variable of its type. *)
Definition opt_typed (vars : Vars) (o : Opt) : Prop :=
  match o with
  | OptText v => exists s, vars !! v = Some (VText s)
  | OptPort v => exists p, vars !! v = Some (VPort p)
  | OptNum v => exists x, vars !! v = Some (VNum x)
  | OptPush v _ => exists l, vars !! v = Some (VTexts l)
  | OptFlag v => exists b, vars !! v = Some (VFlag b)
  end.

(** The variables [vars] have the types of [ref], and 16-bit ports. *)
Definition vars_typed (ref vars : Vars) : Prop :=
  forall k, match ref !! k, vars !! k with
            | Some v, Some v' => value_ok v v'
            | None, None => True
            | _, _ => False
            end.

(** Both parts of a table, decided. *)
Definition opt_typedb (vars : Vars) (o : Opt) : bool :=
  match o with
  | OptText v => match vars !! v with Some (VText _) => true | _ => false end
  | OptPort v => match vars !! v with Some (VPort _) => true | _ => false end
  | OptNum v => match vars !! v with Some (VNum _) => true | _ => false end
  | OptPush v _ => match vars !! v with Some (VTexts _) => true | _ => false end
  | OptFlag v => match vars !! v with Some (VFlag _) => true | _ => false end
  end.

Definition ports_ok (l : list (string * Value)) : bool :=
  forallb (fun '(_, v) => match v with VPort p => (0 <=? p) && (p <? 65536) | _ => true end) l.

(** The five programs, and a command line to try. *)
Definition programs : list Program := [bimanual_leader; bimanual_follower; vr_leader; single_leader; single_follower].

Definition test_args : list string := ["--port"; "65537"; "--unknown"; "--enable"; "--can"].

Definition test_parse : outcome Vars :=
  parse_args (fun _ => Throw "stod") (pr_options single_leader) test_args (pr_defaults single_leader).

(** ** Lemmas *)

Lemma vars_typed_insert ref vars k v v' :
  ref !! k = Some v -> value_ok v v' -> vars_typed ref vars -> vars_typed ref (<[k := v']> vars).
Proof.
  intros Hk Hv Ht k'. destruct (decide (k = k')) as [<-|Hn].
  - by rewrite lookup_insert_eq, Hk.
  - rewrite lookup_insert_ne by done. apply Ht.
Qed.

Lemma set_option_typed stod ref o x vars vars' :
  opt_typed ref o -> vars_typed ref vars -> set_option stod o x vars = Ok vars' -> vars_typed ref vars'.
Proof.
  intros Ho Ht. destruct o as [v|v|v|v pre|v]; simpl in *; destruct Ho as [y Hy].
  - intros [= <-]. by eapply vars_typed_insert.
  - intros (n & _ & [= <-])%bind_ok. eapply vars_typed_insert; [done| |done]. apply wrap_range. lia.
  - intros (n & _ & [= <-])%bind_ok. by eapply vars_typed_insert.
  - intros [= <-]. by eapply vars_typed_insert.
  - intros [= <-]. by eapply vars_typed_insert.
Qed.

Lemma find_option_typed ref opts arg o :
  Forall (fun no : string * Opt => opt_typed ref no.2) opts -> find_option opts arg = Some o -> opt_typed ref o.
Proof.
  induction 1 as [|[n o'] opts Ho _ IH]; simpl; [done|]. destruct (String.eqb arg n); [|done]. by intros [= <-].
Qed.

Lemma parse_args_typed stod ref opts args vars vars' :
  Forall (fun no : string * Opt => opt_typed ref no.2) opts -> vars_typed ref vars ->
  parse_args stod opts args vars = Ok vars' -> vars_typed ref vars'.
Proof.
  intros Ho. remember (length args) as n eqn:Hn. assert (Hle : (length args <= n)%nat) by lia. clear Hn.
  revert args Hle vars. induction n as [|n IH]; intros [|arg rest] Hle vars Ht; simpl in *; try lia; try by intros [= <-].
  destruct (find_option opts arg) as [o|] eqn:Ef; [|apply IH; [lia|done]].
  pose proof (find_option_typed _ _ _ _ Ho Ef) as Hot. destruct (takes_value o).
  - destruct rest as [|x rest]; [by intros [= <-]|]. intros (vars1 & H1 & H)%bind_ok.
    apply (IH rest) in H; [done|simpl in Hle; lia|]. by eapply set_option_typed.
  - intros (vars1 & H1 & H)%bind_ok. apply (IH rest) in H; [done|lia|]. by eapply set_option_typed.
Qed.

Lemma opt_typedb_ok vars o : opt_typedb vars o = true -> opt_typed vars o.
Proof. destruct o; simpl; destruct (vars !! _) as [[]|] eqn:E; try done; intros _; by eexists. Qed.

Lemma options_typed vars opts :
  forallb (fun no : string * Opt => opt_typedb vars no.2) opts = true -> Forall (fun no : string * Opt => opt_typed vars no.2) opts.
Proof.
  intros H. apply Forall_forall. intros [n o] Hin. rewrite forallb_forall in H.
  apply opt_typedb_ok. apply (H (n, o)). by apply list_elem_of_In.
Qed.

Lemma defaults_typed (vars : Vars) : ports_ok (map_to_list vars) = true -> vars_typed vars vars.
Proof.
  intros H k. destruct (vars !! k) as [v|] eqn:E; [|done]. destruct v as [| p | | |]; try done. simpl.
  unfold ports_ok in H. rewrite forallb_forall in H. specialize (H (k, VPort p)). simpl in H.
  assert (Hin : In (k, VPort p) (map_to_list vars)) by by apply list_elem_of_In, elem_of_map_to_list.
  specialize (H Hin). unfold in_width. bool_prop. change (2 ^ 16) with 65536. lia.
Qed.

(** ** Property *)

(** Command lines cannot break a program's variables. For each of the five
    programs and any argument list, if parsing does not end with an exception of
    a number conversion, every variable of [main] still has its type, no
    variable is missing or new, and every port is a 16-bit number. *)
Lemma args_well_typed (stod : string -> outcome double) (p : Program) (args : list string) (vars : Vars) :
  p ∈ programs -> parse_args stod (pr_options p) args (pr_defaults p) = Ok vars -> vars_typed (pr_defaults p) vars.
Proof.
  intros Hp. assert (Hc : Forall (fun p => forallb (fun no : string * Opt => opt_typedb (pr_defaults p) no.2) (pr_options p) = true /\
    ports_ok (map_to_list (pr_defaults p)) = true) programs) by (repeat constructor).
  rewrite Forall_forall in Hc. destruct (Hc p Hp) as [H1 H2].
  apply parse_args_typed; [by apply options_typed|by apply defaults_typed].
Qed.

Lemma args_well_typed_witness :
  exists vars, test_parse = Ok vars /\
    (port vars "port" =? 1) && flag vars "enable" && String.eqb (text vars "can_interface") "can0" = true /\
    vars_typed (pr_defaults single_leader) vars.
Proof.
  assert (H : match test_parse with
              | Ok vars => (port vars "port" =? 1) && flag vars "enable" && String.eqb (text vars "can_interface") "can0"
              | _ => false
              end = true) by (vm_compute; reflexivity).
  destruct test_parse as [vars| |] eqn:E; [|discriminate H|discriminate H].
  exists vars. split; [reflexivity|]. split; [exact H|].
  apply (args_well_typed (fun _ => Throw "stod") single_leader test_args); [|exact E].
  apply list_elem_of_In. right. right. right. left. reflexivity.
Defined.
