(* ===== verification/Fanout.v ===== *)
(** * Fanout: the two datagram relays

    [src/tools/udp_fanout.cpp] and [telemetry_fanout.cpp]: the same program with
    different defaults. It receives datagrams on one port and sends each of them
    to a list of targets. Messages on the terminal are not modelled. *)

From Stdlib Require Import Ascii.
From S2P Require Import Prelude Wire Packets PacketCodec LinkCheck NumParse Args Udp.

Open Scope Z_scope.

(** ** Addresses *)

(** [std::string::rfind] of a character. *)
Fixpoint rfind (c : Ascii.ascii) (s : string) : option nat :=
  match s with
  | EmptyString => None
  | String c' s' =>
      match rfind c s' with
      | Some n => Some (S n)
      | None => if Ascii.eqb c' c then Some 0%nat else None
      end
  end.

(** [std::string::substr] from a position to the end. *)
Definition substr_from (n : nat) (s : string) : string := String.substring n (String.length s - n) s.

Definition parse_endpoint (text : string) : option (string * Z) :=
  match rfind ":"%char text with
  | None => None
  | Some colon =>
      if (colon =? 0)%nat || (String.length text <=? colon + 1)%nat then None
      else
        match stoi (substr_from (colon + 1) text) with
        | Ok parsed_port =>
            if (parsed_port <=? 0) || (65535 <? parsed_port) then None
            else Some (String.substring 0 colon text, u16 parsed_port)
        | _ => None
        end
  end.

(** [sockaddr_in]: the address as [inet_pton] gives it, the port as its two bytes
    in network order. *)
Record SockAddr := mkSockAddr { sin_addr : Z; sin_port : list Z }.

Definition htons (port : Z) : list Z := [Z.land (Z.shiftr port 8) 255; Z.land port 255].

Definition make_addr (os : SocketOs) (ip : string) (port : Z) : option SockAddr :=
  match sk_inet_pton os ip with
  | Some a => Some (mkSockAddr a (htons port))
  | None => None
  end.

(** ** Command line *)

Record FanoutConfig := mkFanoutConfig {
  fan_bind_ip : string;
  fan_listen_port : Z;
  fan_targets : list SockAddr;
  fan_labels : list string;
}.

Definition udp_fanout_defaults : FanoutConfig := mkFanoutConfig "0.0.0.0" 54002 [] [].
Definition telemetry_fanout_defaults : FanoutConfig := mkFanoutConfig "127.0.0.1" 51001 [] [].

(** [main] returns a code, or goes on with an [A]. *)
Abbreviation Main A := (outcome (Z + A)).

Section fanout.
Context (os : SocketOs).

(** An option with its value; [None] when [arg] takes none. *)
Definition fanout_option (arg value : string) (c : FanoutConfig) : option (Main FanoutConfig) :=
  if String.eqb arg "--bind-ip" then
    Some (Ok (inr (mkFanoutConfig value (fan_listen_port c) (fan_targets c) (fan_labels c))))
  else if String.eqb arg "--listen-port" || String.eqb arg "--port" then
    Some (parsed_port ← stoi value;
          if (parsed_port <=? 0) || (65535 <? parsed_port) then Ok (inl 1)
          else Ok (inr (mkFanoutConfig (fan_bind_ip c) (u16 parsed_port) (fan_targets c) (fan_labels c))))
  else if String.eqb arg "--target" then
    Some (match parse_endpoint value with
          | None => Ok (inl 1)
          | Some (ip, port) =>
              match make_addr os ip port with
              | None => Ok (inl 1)
              | Some addr =>
                  Ok (inr (mkFanoutConfig (fan_bind_ip c) (fan_listen_port c) (fan_targets c ++ [addr])
                             (fan_labels c ++ [value])))
              end
          end)
  else None.

(** An argument that takes no value ends the program. *)
Definition fanout_flag (arg : string) : Z := if String.eqb arg "--help" || String.eqb arg "-h" then 0 else 1.

Fixpoint fanout_args (args : list string) (c : FanoutConfig) : Main FanoutConfig :=
  match args with
  | [] => Ok (inr c)
  | arg :: [] => Ok (inl (fanout_flag arg))
  | arg :: value :: rest =>
      match fanout_option arg value c with
      | Some r => r ← r; match r with inl code => Ok (inl code) | inr c => fanout_args rest c end
      | None => Ok (inl (fanout_flag arg))
      end
  end.

(** ** Socket *)

(** Whether the socket comes up bound: a code to return otherwise. *)
Definition fanout_open (c : FanoutConfig) : Z + SockAddr :=
  if negb (sk_socket os) then inl 1
  else
    match sk_inet_pton os (fan_bind_ip c) with
    | None => inl 1
    | Some a => if sk_bind os a (fan_listen_port c) then inr (mkSockAddr a (htons (fan_listen_port c))) else inl 1
    end.

(** ** The loop *)

(** What [recv] returns. *)
Inductive FanoutRecv :=
| FanDatagram (bytes : list Z)
| FanInterrupted
| FanError.

Definition fanout_buffer : nat := 4096.

Record FanoutState := mkFanoutState {
  keep_running : bool;
  fan_packets : Z;
  fan_sent : list (SockAddr * list Z);       (* what was handed to sendto *)
}.

(** One round of the loop, with what [recv] returns and whether a signal arrived
    before that; the flag says whether [break] was taken. *)
Definition fanout_step (targets : list SockAddr) (signal : bool) (r : FanoutRecv) (s : FanoutState) : FanoutState * bool :=
  let running := keep_running s && negb signal in
  match r with
  | FanInterrupted => (mkFanoutState running (fan_packets s) (fan_sent s), false)
  | FanError => (mkFanoutState running (fan_packets s) (fan_sent s), true)
  | FanDatagram bytes =>
      let data := take fanout_buffer bytes in
      (mkFanoutState running (wrap 64 (fan_packets s + 1)) (fan_sent s ++ map (fun t => (t, data)) targets), false)
  end.

(** The rounds of an execution; the program waits in [recv] when they are used
    up. The flag says whether it has left the loop. *)
Fixpoint fanout_loop (targets : list SockAddr) (rounds : list (bool * FanoutRecv)) (s : FanoutState) : FanoutState * bool :=
  if negb (keep_running s) then (s, true)
  else
    match rounds with
    | [] => (s, false)
    | (signal, r) :: rounds =>
        let '(s, stop) := fanout_step targets signal r s in
        if stop : bool then (s, true) else fanout_loop targets rounds s
    end.

Definition fanout_start : FanoutState := mkFanoutState true 0 [].

(** [main]: the exit code ([None] while it waits for a datagram), and what it has
    sent. *)
Definition fanout_main (defaults : FanoutConfig) (args : list string) (rounds : list (bool * FanoutRecv))
    : outcome (option Z * list (SockAddr * list Z)) :=
  r ← fanout_args args defaults;
  match r with
  | inl code => Ok (Some code, [])
  | inr c =>
      if decide (fan_targets c = []) then Ok (Some 1, [])
      else
        match fanout_open c with
        | inl code => Ok (Some code, [])
        | inr _ =>
            let '(s, ended) := fanout_loop (fan_targets c) rounds fanout_start in
            Ok (if ended : bool then Some 0 else None, fan_sent s)
        end
  end.
End fanout.

Definition udp_fanout (os : SocketOs) := fanout_main os udp_fanout_defaults.
Definition telemetry_fanout (os : SocketOs) := fanout_main os telemetry_fanout_defaults.

(** ** Reading addresses *)

Lemma rfind_app c ip s : rfind c s = None -> rfind c (ip +:+ String c s) = Some (String.length ip).
Proof.
  intros Hs. induction ip as [|c' ip IH].
  - change ("" +:+ ?x) with x. simpl. by rewrite Hs, Ascii.eqb_refl.
  - change (String c' ip +:+ ?x) with (String c' (ip +:+ x)). simpl. by rewrite IH.
Qed.

Lemma digit_not_colon d : is_digit d -> Ascii.eqb (digit_char d) ":" = false.
Proof. intros [H0 H1]. assert (d = 0 \/ d = 1 \/ d = 2 \/ d = 3 \/ d = 4 \/ d = 5 \/ d = 6 \/ d = 7 \/ d = 8 \/ d = 9) as Hd by lia. by repeat destruct Hd as [->|Hd]; [..|subst]. Qed.

Lemma rfind_digits l : Forall is_digit l -> rfind ":" (digits_text l) = None.
Proof. induction 1 as [|d l Hd _ IH]; [done|]. simpl. by rewrite IH, digit_not_colon. Qed.

Lemma substring_all s : String.substring 0 (String.length s) s = s.
Proof. induction s as [|c s IH]; simpl; [done|]. by rewrite IH. Qed.

Lemma substring_prefix a b : String.substring 0 (String.length a) (a +:+ b) = a.
Proof.
  induction a as [|c a IH]; [by destruct b|]. change (String c a +:+ b) with (String c (a +:+ b)). simpl. by rewrite IH.
Qed.

Lemma substr_from_app a b : substr_from (String.length a) (a +:+ b) = b.
Proof.
  unfold substr_from. induction a as [|c a IH].
  - change ("" +:+ b) with b. rewrite Nat.sub_0_r. apply substring_all.
  - change (String c a +:+ b) with (String c (a +:+ b)). exact IH.
Qed.

Lemma text_length_app a b : String.length (a +:+ b) = (String.length a + String.length b)%nat.
Proof. induction a as [|c a IH]; [done|]. change (String c a +:+ b) with (String c (a +:+ b)). simpl. by rewrite IH. Qed.

Lemma digits_text_read (l : list Z) acc seen :
  Forall is_digit l -> digits acc seen (digits_text l) = if seen || negb (bool_decide (l = [])) then Some (digits_value acc l) else None.
Proof.
  intros Hl. revert acc seen. induction Hl as [|d l Hd _ IH]; intros acc seen; [by destruct seen|].
  simpl. rewrite digit_char_value by done. rewrite IH. simpl. by rewrite orb_true_r.
Qed.

Lemma stoi_digits (l : list Z) : l <> [] -> Forall is_digit l -> digits_value 0 l < 2 ^ 31 -> stoi (digits_text l) = Ok (digits_value 0 l).
Proof.
  intros Hn Hl Hv. pose proof (digits_value_nonneg 0 l (Z.le_refl 0) Hl) as H0.
  pose proof (scan_sign_text false l "" Hn Hl) as Hs. change ((if false then "-" else "") +:+ ?x) with x in Hs.
  rewrite text_app_nil in Hs. unfold stoi, stol. unfold scan_sign in Hs. rewrite Hs, digits_text_read by done.
  rewrite bool_decide_eq_false_2 by done. change (false || negb false) with true. cbv iota.
  rewrite (proj2 (Z.leb_le _ _)), (proj2 (Z.ltb_lt _ _)) by lia. cbn [andb].
  by rewrite (proj2 (Z.leb_le _ _)), (proj2 (Z.ltb_lt _ _)) by lia.
Qed.

Lemma digits_text_length l : String.length (digits_text l) = length l.
Proof. induction l as [|d l IH]; simpl; [done|]. by rewrite IH. Qed.

(** Endpoints are read as they are printed: an address text, which may itself
    hold colons, and a port in decimal digits. Ports outside 1 to 65535 and empty
    addresses are refused. *)
Lemma parse_endpoint_reads (ip : string) (l : list Z) :
  l <> [] -> Forall is_digit l -> digits_value 0 l < 2 ^ 31 ->
  parse_endpoint (ip +:+ String ":" (digits_text l)) =
    if negb (String.eqb ip "") && (1 <=? digits_value 0 l) && (digits_value 0 l <=? 65535)
    then Some (ip, digits_value 0 l) else None.
Proof.
  intros Hn Hl Hv. unfold parse_endpoint. rewrite rfind_app by by apply rfind_digits.
  replace (String.length ip =? 0)%nat with (String.eqb ip "") by by destruct ip.
  destruct (String.eqb ip ""); [done|]. cbn [negb andb orb].
  rewrite text_length_app. cbn [String.length]. rewrite digits_text_length.
  assert (length l <> 0%nat) by by destruct l.
  rewrite (proj2 (Nat.leb_gt _ _)) by lia.
  replace (ip +:+ String ":" (digits_text l)) with ((ip +:+ ":") +:+ digits_text l) by by rewrite text_app_assoc.
  replace (String.length ip + 1)%nat with (String.length (ip +:+ ":")) by by rewrite text_length_app.
  rewrite substr_from_app, stoi_digits by done. rewrite text_app_assoc, substring_prefix.
  destruct (Z.leb_spec (digits_value 0 l) 0); [by rewrite (proj2 (Z.leb_gt 1 _)) by lia|].
  rewrite (proj2 (Z.leb_le 1 _)) by lia. cbn [orb andb].
  destruct (Z.ltb_spec 65535 (digits_value 0 l)); [by rewrite (proj2 (Z.leb_gt _ _)) by lia|].
  rewrite (proj2 (Z.leb_le _ _)) by lia. do 2 f_equal. unfold wrap. apply Z.mod_small. change (2 ^ 16) with 65536. lia.
Qed.

(** ** The relay *)

#[export] Instance sock_addr_eq_dec : EqDecision SockAddr.
Proof. solve_decision. Defined.

(** Rounds without a signal or a failing [recv]. *)
Definition quiet (rounds : list (bool * FanoutRecv)) : Prop := Forall (fun x => x.1 = false /\ x.2 <> FanError) rounds.

(** What [recv] stored in the buffer. *)
Definition stored (r : FanoutRecv) : option (list Z) :=
  match r with FanDatagram d => Some (take fanout_buffer d) | _ => None end.

Definition relayed (rounds : list (bool * FanoutRecv)) : list (list Z) := omap (fun x => stored x.2) rounds.

(** What was sent to one address. *)
Definition sent_to (t : SockAddr) (out : list (SockAddr * list Z)) : list (list Z) :=
  omap (fun x => if decide (x.1 = t) then Some x.2 else None) out.

Definition to_all (targets : list SockAddr) (data : list (list Z)) : list (SockAddr * list Z) :=
  concat (map (fun d => map (fun t => (t, d)) targets) data).

Definition relay_result (r : FanoutState * bool) : option Z * list (SockAddr * list Z) :=
  (if r.2 then Some 0 else None, fan_sent r.1).

Lemma relay_quiet ts l l2 n out :
  quiet l -> exists n', fanout_loop ts (l ++ l2) (mkFanoutState true n out) =
    fanout_loop ts l2 (mkFanoutState true n' (out ++ to_all ts (relayed l))).
Proof.
  intros Hl. revert n out. induction Hl as [|[sig r] l [Hs Hr] _ IH]; intros n out.
  - exists n. by rewrite app_nil_r.
  - cbn [fst snd] in Hs, Hr. subst sig. cbn [app fanout_loop keep_running negb]. unfold relayed. cbn [omap list_omap].
    destruct r as [d| |]; [|cbn [fanout_step stored]; by apply IH|done].
    cbn [fanout_step stored fst snd keep_running negb andb fan_packets fan_sent]. destruct (IH (wrap 64 (n + 1)) (out ++ map (fun t => (t, take fanout_buffer d)) ts)) as [n' ->].
    exists n'. unfold to_all. cbn [map concat]. by rewrite <- app_assoc.
Qed.

(** A signal or an error ends the loop after that round. *)
Lemma relay_ends ts sig r l2 n out :
  sig = true \/ r = FanError ->
  relay_result (fanout_loop ts ((sig, r) :: l2) (mkFanoutState true n out)) =
    (Some 0, out ++ to_all ts (relayed [(sig, r)])).
Proof.
  intros H. unfold to_all, relayed. cbn [omap list_omap snd].
  destruct r as [d| |], sig; try (by destruct H); cbn; rewrite ?app_nil_r; by destruct l2 as [|[? ?] ?].
Qed.

Lemma sent_to_app t a b : sent_to t (a ++ b) = sent_to t a ++ sent_to t b.
Proof. apply omap_app. Qed.

Lemma sent_to_targets t ts d :
  (t ∉ ts -> sent_to t (map (fun t => (t, d)) ts) = []) /\
  (NoDup ts -> t ∈ ts -> sent_to t (map (fun t => (t, d)) ts) = [d]).
Proof.
  induction ts as [|t' ts [IH1 IH2]]; [by split; [|intros _ H%elem_of_nil]|].
  unfold sent_to in *. cbn [map omap list_omap fst snd]. split.
  - intros [H1 H2]%not_elem_of_cons. rewrite decide_False by done. by apply IH1.
  - intros [H1 H2]%NoDup_cons [->|H]%elem_of_cons.
    + rewrite decide_True by done. by rewrite IH1.
    + rewrite decide_False by (intros ->; done). by apply IH2.
Qed.

Lemma sent_to_all t ts data :
  (t ∉ ts -> sent_to t (to_all ts data) = []) /\
  (NoDup ts -> t ∈ ts -> sent_to t (to_all ts data) = data).
Proof.
  unfold to_all. split; induction data as [|d data IH]; intros; try done; cbn [map concat]; rewrite sent_to_app, IH by done.
  - by rewrite (proj1 (sent_to_targets t ts d)).
  - by rewrite (proj2 (sent_to_targets t ts d)).
Qed.

Lemma fanout_main_started os defaults args c a rounds :
  fanout_args os args defaults = Ok (inr c) -> fan_targets c <> [] -> fanout_open os c = inr a ->
  fanout_main os defaults args rounds = Ok (relay_result (fanout_loop (fan_targets c) rounds fanout_start)).
Proof.
  intros Ha Ht Ho. unfold fanout_main, relay_result. rewrite Ha. cbn [mbind outcome_bind].
  rewrite decide_False by done. rewrite Ho. by destruct (fanout_loop _ _ _) as [s []].
Qed.

(** Command packets, as they come off the wire. *)
Definition command_rounds (l : list (Z * TeleopPacket)) : list (bool * FanoutRecv) :=
  map (fun '(now, p) => (false, FanDatagram (serialize (teleop_encode now p)))) l.

Definition sendable (x : Z * TeleopPacket) : Prop := well_formed x.2 /\ in_width 64 x.1.

Lemma commands_relayed l :
  Forall sendable l ->
  quiet (command_rounds l) /\ relayed (command_rounds l) = map (fun '(now, p) => serialize (teleop_encode now p)) l /\
  omap receive_teleop (relayed (command_rounds l)) = map (fun '(now, p) => teleop_encode now p) l.
Proof.
  induction 1 as [|[now p] l [Hw Hn] _ (IH1 & IH2 & IH3)]; [by split_and!; [constructor|..]|]. cbn [fst snd] in Hw, Hn.
  assert (Ht : take fanout_buffer (serialize (teleop_encode now p)) = serialize (teleop_encode now p)).
  { apply take_ge. rewrite length_serialize by apply (teleop_encode_wf now p Hw Hn). vm_compute. lia. }
  unfold relayed, command_rounds in *. cbn [map omap list_omap snd stored]. rewrite Ht. split_and!.
  - by constructor.
  - by rewrite IH2.
  - cbn [omap list_omap]. rewrite receive_teleop_encode by done. by rewrite IH3.
Qed.

(** ** Command lines *)

(** A configuration the programs can run with: every target is the address of an
    endpoint of the command line. *)
Definition target_ok (os : SocketOs) (t : SockAddr) (label : string) : Prop :=
  exists ip port, parse_endpoint label = Some (ip, port) /\ 1 <= port <= 65535 /\ make_addr os ip port = Some t.

Definition config_ok (os : SocketOs) (c : FanoutConfig) : Prop :=
  1 <= fan_listen_port c <= 65535 /\ Forall2 (target_ok os) (fan_targets c) (fan_labels c).

Definition args_result_ok (os : SocketOs) (r : Main FanoutConfig) : Prop :=
  match r with
  | Ok (inl code) => code = 0 \/ code = 1
  | Ok (inr c) => config_ok os c
  | Throw e => e = "stoi"
  | Undef => False
  end.

Lemma port_in_range p : (p <=? 0) || (65535 <? p) = false -> 1 <= p <= 65535 /\ u16 p = p.
Proof. intros H. bool_prop. split; [lia|]. apply Z.mod_small. change (2 ^ 16) with 65536. lia. Qed.

Lemma parse_endpoint_range text ip port : parse_endpoint text = Some (ip, port) -> 1 <= port <= 65535.
Proof.
  unfold parse_endpoint. destruct (rfind _ _) as [n|]; [|done]. destruct (_ || _); [done|].
  destruct (stoi _) as [p| |]; try done. destruct ((p <=? 0) || _) eqn:E; [done|].
  apply port_in_range in E as [Hp ->]. by intros [= _ <-].
Qed.

Lemma stoi_throws s : match stoi s with Ok _ => True | Throw e => e = "stoi" | Undef => False end.
Proof. unfold stoi. destruct (stol s); [|done]. by destruct (_ && _). Qed.

Lemma flag_code arg : fanout_flag arg = 0 \/ fanout_flag arg = 1.
Proof. unfold fanout_flag. destruct (_ || _); [by left|by right]. Qed.

Lemma option_result_ok os arg value c r :
  config_ok os c -> fanout_option os arg value c = Some r -> args_result_ok os r.
Proof.
  intros [Hp Ht]. unfold fanout_option. destruct (String.eqb arg "--bind-ip"); [intros [= <-]; by split|].
  destruct (_ || _).
  - intros [= <-]. pose proof (stoi_throws value) as Hv. destruct (stoi value) as [p| |]; cbn [mbind outcome_bind]; [|done..].
    destruct ((p <=? 0) || _) eqn:E; [by right|]. apply port_in_range in E as [E ->]. by split.
  - destruct (String.eqb arg "--target"); [|done]. intros [= <-].
    destruct (parse_endpoint value) as [[ip port]|] eqn:Ep; [|by right].
    destruct (make_addr os ip port) as [a|] eqn:Ea; [|by right]. split; [done|].
    apply Forall2_app; [done|]. constructor; [|constructor]. exists ip, port.
    split; [done|]. split; [by eapply parse_endpoint_range|done].
Qed.

(** Whatever the arguments are: the program runs with such a configuration, or
    [main] returns 0 or 1, or the conversion of the listening port throws. *)
Lemma fanout_args_ok os args c : config_ok os c -> args_result_ok os (fanout_args os args c).
Proof.
  remember (length args) as n eqn:Hn. assert (Hle : (length args <= n)%nat) by lia. clear Hn.
  revert args Hle c. induction n as [|n IH]; intros [|arg [|value rest]] Hle c Hc; cbn [fanout_args length] in *;
    try lia; try exact Hc; try apply flag_code.
  destruct (fanout_option os arg value c) as [r|] eqn:E; [|apply flag_code].
  apply option_result_ok in E; [|done]. destruct r as [[code|c']| |]; cbn [mbind outcome_bind]; [done| |done..].
  apply IH; [lia|done].
Qed.

(** ** Property *)

(** The relays are transparent. Once started, and while no signal comes and
    [recv] does not fail, a relay sends to each of its targets exactly the
    datagrams it received, in order and cut to its 4096-byte buffer, and nothing
    to anyone else. After the first signal or failure it sends at most the
    datagram of that round and returns 0, whatever would still arrive. Command
    packets therefore reach a receiver behind the relay as they were encoded. *)
Lemma relay_transparent (os : SocketOs) (defaults c : FanoutConfig) (args : list string) (a : SockAddr)
    (l : list (bool * FanoutRecv)) :
  fanout_args os args defaults = Ok (inr c) -> fan_targets c <> [] -> fanout_open os c = inr a -> quiet l ->
  exists out, fanout_main os defaults args l = Ok (None, out) /\
    (forall t, t ∉ fan_targets c -> sent_to t out = []) /\
    (forall t, NoDup (fan_targets c) -> t ∈ fan_targets c ->
       sent_to t out = relayed l /\
       forall ps, l = command_rounds ps -> Forall sendable ps ->
         omap receive_teleop (sent_to t out) = map (fun '(now, p) => teleop_encode now p) ps) /\
    forall signal r l2, signal = true \/ r = FanError ->
      fanout_main os defaults args (l ++ (signal, r) :: l2) = Ok (Some 0, out ++ to_all (fan_targets c) (relayed [(signal, r)])).
Proof.
  intros Ha Ht Ho Hl. pose proof (fun x => fanout_main_started os defaults args c a x Ha Ht Ho) as Hm.
  exists (to_all (fan_targets c) (relayed l)). split; [|split; [|split]].
  - rewrite Hm. unfold fanout_start. destruct (relay_quiet (fan_targets c) l [] 0 [] Hl) as [n' E].
    rewrite app_nil_r in E. by rewrite E.
  - intros t. apply sent_to_all.
  - intros t Hd Hin. pose proof (proj2 (sent_to_all t (fan_targets c) (relayed l)) Hd Hin) as Hs. split; [exact Hs|].
    intros ps -> Hps. rewrite Hs. apply commands_relayed, Hps.
  - intros signal r l2 Hr. rewrite Hm. unfold fanout_start.
    destruct (relay_quiet (fan_targets c) l ((signal, r) :: l2) 0 [] Hl) as [n' ->]. by rewrite relay_ends.
Qed.

(** *** A relay with two targets *)

Definition test_os : SocketOs :=
  mkSocketOs true (fun ip => if String.eqb ip "127.0.0.1" then Some 2130706433 else if String.eqb ip "0.0.0.0" then Some 0 else None)
    (fun _ _ => true).

Definition test_fanout_args : list string := ["--port"; "54102"; "--target"; "127.0.0.1:54012"; "--target"; "127.0.0.1:54022"].

Lemma relay_transparent_witness :
  exists out, udp_fanout test_os test_fanout_args (command_rounds [(1234567, teleop_zero)]) = Ok (None, out) /\
    length out = 2%nat /\
    omap receive_teleop (sent_to (mkSockAddr 2130706433 (htons 54022)) out) = [teleop_encode 1234567 teleop_zero].
Proof.
  assert (H : exists c a, fanout_args test_os test_fanout_args udp_fanout_defaults = Ok (inr c) /\ fan_targets c <> [] /\
    fanout_open test_os c = inr a /\ bool_decide (NoDup (fan_targets c)) = true /\
    bool_decide (mkSockAddr 2130706433 (htons 54022) ∈ fan_targets c) = true).
  { do 2 eexists. split; [vm_compute; reflexivity|]. split; [discriminate|]. split; [reflexivity|]. split; reflexivity. }
  destruct H as (c & a & Ha & Ht & Ho & Hd & Hin). apply bool_decide_eq_true in Hd, Hin.
  assert (Hs : Forall sendable [(1234567, teleop_zero)]).
  { constructor; [split; [exact teleop_zero_wf|const_width]|constructor]. }
  destruct (relay_transparent test_os udp_fanout_defaults c test_fanout_args a (command_rounds [(1234567, teleop_zero)])
    Ha Ht Ho (proj1 (commands_relayed _ Hs))) as (out & Hm & _ & Hall & _).
  exists out. split; [exact Hm|]. destruct (Hall _ Hd Hin) as [_ Hp]. split; [|exact (Hp _ eq_refl Hs)].
  vm_compute in Hm. injection Hm as <-. reflexivity.
Defined.
