(* ===== verification/TelemetryTools.v ===== *)
(** * TelemetryTools: the mock publisher and the receiver sample

    [src/tools/telemetry_mock_publisher.cpp], which publishes made-up telemetry,
    and [telemetry_receiver_sample.cpp], which prints what it receives. [sin] and
    [cos] are parameters, clock readings inputs; the mock's waiting is not
    modelled. *)

From S2P Require Import Prelude Float64 Float64Facts Wire Packets AppCommon Float32 Udp Args.
From stdpp Require Import gmap.

Open Scope Z_scope.

(** ** Command lines *)

Definition mock_publisher : Program := mkProgram
  [("--telemetry-ip", OptText "ip"); ("--telemetry-port", OptPort "port"); ("--rate-hz", OptNum "rate_hz")]
  (list_to_map [("ip", VText "127.0.0.1"); ("port", VPort 51000); ("rate_hz", VNum (d_of_Z 100))]).

Definition receiver_sample : Program := mkProgram
  [("--bind-ip", OptText "bind_ip"); ("--port", OptPort "port")]
  (list_to_map [("bind_ip", VText "0.0.0.0"); ("port", VPort 51000)]).

(** ** The mock publisher *)

Section mock.
Context (sin cos : double -> double).

(** [t + i * 0.1]. *)
Definition mock_phase (t : double) (i : nat) : double := (t + d_of_Z (Z.of_nat i) * dlit 1 1)%D.

Definition mock_words (f : nat -> double) : list Z := map (fun i => float_bits (f i)) (seq 0 16).

Definition mock_packet (now_ns : Z) (t : double) : OpenArmTelemetryPacketV1 :=
  mkTelemetryPacket 0 0 0 0 now_ns 1 1 1 0 16 16 16 0 3 3 0 0
    (mock_words (fun i => sin (mock_phase t i)))
    (mock_words (fun i => sin (mock_phase t i + dlit 5 2)%D))
    (mock_words (fun i => cos (mock_phase t i))) 0.

(** One round of the loop: the datagram, and the next [t] and publisher. *)
Definition mock_cycle (rate_hz : double) (now_ns : Z) (s : double * TelemetryPublisher)
    : option (list Z) * (double * TelemetryPublisher) :=
  let '(t, pub) := s in
  let '(d, pub) := publish (mock_packet now_ns t) pub in
  (d, ((t + d1 / rate_hz)%D, pub)).

(** The rounds of an execution, from the clock readings. *)
Fixpoint mock_run (rate_hz : double) (clock : list Z) (s : double * TelemetryPublisher) : list (list Z) :=
  match clock with
  | [] => []
  | now :: clock =>
      let '(d, s) := mock_cycle rate_hz now s in
      match d with Some d => d :: mock_run rate_hz clock s | None => mock_run rate_hz clock s end
  end.
End mock.

(** [main]: a code if the socket cannot be made, the datagrams otherwise. *)
Definition mock_main (sin cos : double -> double) (stod : string -> outcome double) (socket_ok : bool)
    (args : list string) (clock : list Z) : outcome (Z + list (list Z)) :=
  vars ← parse_args stod (pr_options mock_publisher) args (pr_defaults mock_publisher);
  let '(ok, pub) := publisher_start socket_ok publisher_new in
  Ok (if ok : bool then inr (mock_run sin cos (num vars "rate_hz") clock (d0, pub)) else inl 1).

(** ** The receiver sample *)

(** What it prints for a datagram. *)
Inductive SampleLine :=
| ReceivedPacket (seq state_dim pos : Z)
| InvalidMagic.

(** [recv] into the packet cuts longer datagrams to its size; the CRC is not
    looked at. *)
Definition sample_receive (bytes : list Z) : option SampleLine :=
  let data := take (wire_size OpenArmTelemetryPacketV1) bytes in
  if decide (length data = wire_size OpenArmTelemetryPacketV1) then
    let p : OpenArmTelemetryPacketV1 := deserialize data in
    Some (if tm_magic p =? TELEMETRY_MAGIC
          then ReceivedPacket (tm_seq p) (tm_state_dim p) (nth 0 (tm_observation_state p) 0)
          else InvalidMagic)
  else None.

(** [main]: a code if the socket does not come up, else the lines for the
    datagrams that arrive. *)
Definition sample_main (os : SocketOs) (stod : string -> outcome double) (args : list string) (datagrams : list (list Z))
    : outcome (Z + list SampleLine) :=
  vars ← parse_args stod (pr_options receiver_sample) args (pr_defaults receiver_sample);
  Ok (if negb (sk_socket os) then inl 1
      else
        match sk_inet_pton os (text vars "bind_ip") with
        | None => inl 1
        | Some a =>
            if sk_bind os a (port vars "port") then inr (omap sample_receive datagrams) else inl 1
        end).

(** ** Lemmas *)

Section facts.
Context (sin cos : double -> double).
Context (Hsin : forall x, valid x -> valid (sin x)) (Hcos : forall x, valid x -> valid (cos x)).

Lemma mock_phase_valid t i : valid t -> valid (mock_phase t i).
Proof. intros Ht. unfold mock_phase. auto with float. Qed.

Lemma mock_words_fit f : (forall i, valid (f i)) -> fits (replicate 16 4%nat) (mock_words f).
Proof.
  intros Hf. apply fits_words; [done|]. apply Forall_map, Forall_forall. intros i _. apply float_bits_width, Hf.
Qed.

Lemma mock_packet_wf now t : in_width 64 now -> valid t -> well_formed (mock_packet sin cos now t).
Proof using Hcos Hsin.
  intros Hn Ht. split; [done|]. unfold layout, fields. apply Forall2_app; [|constructor; [by const_width|constructor]].
  unfold body_layout, body. cbn [TelemetryPacket_wire]. unfold telemetry_layout, telemetry_body. apply Forall2_app.
  - repeat (constructor; [first [exact Hn|const_width]|]). constructor.
  - change (replicate 48 4%nat) with (replicate 16 4%nat ++ replicate 16 4%nat ++ replicate 16 4%nat).
    repeat apply Forall2_app; apply mock_words_fit; intros i; auto using mock_phase_valid with float.
Qed.

(** The line the sample prints for the [k]-th datagram after [t] and [n]. *)
Definition mock_line (t : double) (n : Z) : SampleLine :=
  ReceivedPacket n 16 (float_bits (sin (mock_phase t 0))).

Fixpoint mock_lines (rate_hz : double) (count : nat) (t : double) (n : Z) : list SampleLine :=
  match count with
  | O => []
  | S count => mock_line t n :: mock_lines rate_hz count (t + d1 / rate_hz)%D (u32 (n + 1))
  end.

(** The sample shows every datagram of the mock: consecutive numbers, 16 joints
    and the first joint position as a [float]. *)
Lemma mock_shown rate_hz clock t pub :
  valid rate_hz -> valid t -> Forall (in_width 64) clock -> pub_socket_open pub = true -> in_width 32 (pub_seq pub) ->
  omap sample_receive (mock_run sin cos rate_hz clock (t, pub)) = mock_lines rate_hz (length clock) t (pub_seq pub).
Proof using Hcos Hsin.
  intros Hr Ht Hc. revert t pub Ht. induction Hc as [|now clock Hn _ IH]; intros t pub Ht Ho Hq; [done|].
  destruct (publish_spec (mock_packet sin cos now t) pub (mock_packet_wf _ _ Hn Ht) Hq) as [_ Hp].
  destruct (Hp Ho) as (bytes & Hb & Hl & Hm & _ & _ & Hs & _ & Hobs & _ & _ & _ & Hd).
  cbn [mock_run mock_cycle]. rewrite Hb. cbn [omap list_omap length mock_lines].
  assert (Hline : sample_receive bytes = Some (mock_line t (pub_seq pub))).
  { unfold sample_receive. change (wire_size OpenArmTelemetryPacketV1) with 228%nat. rewrite take_ge by lia.
    rewrite decide_True by done. cbv zeta. by rewrite Hm, Hs, Hd, Hobs. }
  rewrite Hline. f_equal. apply (IH (t + d1 / rate_hz)%D (mkTelemetryPublisher true (u32 (pub_seq pub + 1)))).
  - apply valid_dadd; [done|]. by apply valid_ddiv.
  - done.
  - apply wrap_range. lia.
Qed.
End facts.

(** Longer datagrams are cut and accepted: the sample cannot tell them from a
    packet. *)
Lemma sample_accepts_longer bytes extra :
  length bytes = wire_size OpenArmTelemetryPacketV1 -> sample_receive (bytes ++ extra) = sample_receive bytes.
Proof. intros Hl. unfold sample_receive. rewrite take_app_le by lia. by rewrite !take_ge by lia. Qed.
