(* ===== verification/SingleApp.v ===== *)
(** * SingleApp: the single-arm programs

    [src/src/apps/wifi_single_leader.cpp] and [wifi_single_follower.cpp]: the
    bodies of both loops, the packet callback and the signal handlers. They are
    older versions of the bimanual programs for the right arm: no runtime
    control, no force feedback. The follower reads the clock and the buffer's
    receive time separately, so packets that arrive in between are an input of
    its cycle; [SingleThreads] shows that this covers every interleaving. *)

From S2P Require Import Prelude Float64 Wire Packets PacketCodec TeleopStateBuffer Safety Dynamics RobotState Control.
From S2P Require Import AppCommon LeaderApp FollowerApp.

Open Scope Z_scope.

(** ** The leader *)

Record SingleLeaderEnv := mkSingleLeaderEnv { sl_mock : bool; sl_enable : bool }.

Record SingleLeader := mkSingleLeader {
  sl_control : option Control;
  sl_seq : Z;
  sl_keep_running : bool;
}.

Section leader.
Context (env : SingleLeaderEnv) (tanh sin cos : double -> double).

(** The joint part in mock mode. *)
Definition single_mock (sys_now : Z) : TeleopPacket :=
  let t := (d_of_Z sys_now / d_of_Z 1000000000)%D in
  let at_ i := (t * d_of_Z 2 + d_of_Z (Z.of_nat i))%D in
  mkTeleopPacket 0 0 0 0 0 0 0 0 0 7 1 0 0
    (pad 8 (map (fun i => bits_of_double (sin (at_ i))) (seq 0 7)))
    (pad 8 (map (fun i => bits_of_double (cos (at_ i) * d_of_Z 2)%D) (seq 0 7)))
    (pad 4 [bits_of_double (dlit 5 1 * (d1 + sin t))%D]) (replicate 4 0) 0.

(** One iteration: the packet sent and, with a real arm, the commands. *)
Definition single_leader_cycle (sys_mock sys_now : Z) (m : Motors) (a : SingleLeader)
    : outcome (SingleLeader * (TeleopPacket * option Commands)) :=
  '(ctl, joints, cmds) ←
    (if sl_mock env then Ok (sl_control a, single_mock sys_mock, None)
     else
       c ← deref (sl_control a);
       let '(c, r) := unilateral_step tanh m c in
       cmds ← r;
       let s := ct_robot_state c in
       Ok (Some c, fill_joints (rs_response (arm_state s)) (rs_response (hand_state s)), Some cmds));
  let p := command_header RIGHT (sl_seq a) UNILATERAL (sl_enable env) joints in
  Ok (mkSingleLeader ctl (u32 (sl_seq a + 1)) (sl_keep_running a), (teleop_encode sys_now p, cmds)).

(** [signal_handler]. *)
Definition single_leader_signal (a : SingleLeader) : SingleLeader := mkSingleLeader (sl_control a) (sl_seq a) false.
End leader.

(** ** The follower *)

Record SingleFollower := mkSingleFollower {
  sf_buffer : TeleopStateBuffer;
  sf_safety : SafetyManager;
  sf_limiter : RateLimiter;
  sf_control : option Control;
  sf_keep_running : bool;
}.

Definition single_follower_new (c : SafetyConfig) (rate_hz : double) (uninitialised : TeleopPacket) (ctl : option Control)
    : SingleFollower :=
  mkSingleFollower (tsb_new uninitialised) (safety_new c)
    (mkRateLimiter (max_target_delta_rad_per_cycle c) (max_joint_velocity_rad_s c) (d1 / rate_hz)%D) ctl true.

(** [packet_callback]. *)
Definition single_packet (now : Z) (p : TeleopPacket) (a : SingleFollower) : SingleFollower :=
  mkSingleFollower (tsb_update now p (sf_buffer a)) (sf_safety a) (sf_limiter a) (sf_control a) (sf_keep_running a).

(** [signal_handler]. *)
Definition single_follower_signal (a : SingleFollower) : SingleFollower :=
  mkSingleFollower (sf_buffer a) (safety_trigger_estop (sf_safety a)) (sf_limiter a) (sf_control a) false.

Section follower.
Context (mock : bool) (tanh : double -> double).

(** The references follow the packet, rate limited. *)
Definition single_track (rl : RateLimiter) (p : TeleopPacket) (c : Control) : outcome Control :=
  let arm_refs := rs_reference (arm_state (ct_robot_state c)) in
  let hand_refs := rs_reference (hand_state (ct_robot_state c)) in
  tar ← limited_targets rl p arm_refs hand_refs;
  arm' ← write_refs tar (tp_arm_vel p) 0 arm_refs;
  hand' ← write_refs tar (tp_hand_vel p) (length arm_refs) hand_refs;
  Ok (with_robot_state
        (mkRobotSystem (set_references arm' (arm_state (ct_robot_state c)))
           (set_references hand' (hand_state (ct_robot_state c)))) c).

(** What a cycle does to the arm in a safety state. *)
Definition single_arm_cycle (st : SafetyState) (target : option TeleopPacket) (m : Motors) (rl : RateLimiter) (c : Control)
    : outcome (Control * ArmOutput) :=
  match st with
  | ACTIVE | READY | WARNING_TIMEOUT =>
      c ← match target with Some p => single_track rl p c | None => Ok c end;
      run_unilateral tanh m c
  | HOLD => run_unilateral tanh m c
  | ESTOP | FAULT | DISABLED => Ok (c, ArmDisable)
  | WAITING_FOR_ENABLE => Ok (c, ArmNothing)
  end.

(** One iteration at clock reading [now]; [late] are packets stored after the
    clock was read and before the receive time is. *)
Definition single_follower_cycle (now : Z) (late : list (Z * TeleopPacket)) (m : Motors) (a : SingleFollower)
    : outcome (SingleFollower * ArmOutput) :=
  let target := tsb_get_latest (sf_buffer a) in
  let buffer := tsb_run (sf_buffer a) late in
  let safety :=
    match target with
    | Some p => safety_update p (ns_diff_ms now (tsb_last_receive_time_ns buffer)) (sf_safety a)
    | None => sf_safety a
    end in
  '(ctl, out) ←
    (if mock then Ok (sf_control a, ArmNothing)
     else
       c ← deref (sf_control a);
       '(c, o) ← single_arm_cycle (sm_state safety) target m (sf_limiter a) c;
       Ok (Some c, o));
  Ok (mkSingleFollower buffer safety (sf_limiter a) ctl (sf_keep_running a), out).

(** Leaving the loop switches the motors off. *)
Definition single_exit (a : SingleFollower) : ArmOutput :=
  if negb mock && bool_decide (is_Some (sf_control a)) then ArmDisable else ArmNothing.
End follower.
