(* ===== verification/SingleFacts.v ===== *)
(** * SingleFacts: the single-arm programs against the bimanual ones

    A cycle of the single follower is a cycle of the bimanual follower's right
    arm, except that it lacks the guard on the packet age: a packet stored
    between two clock readings faults the robot. *)

From Stdlib Require Import SpecFloat.
From S2P Require Import Prelude Float64 Float64Round Float64Arith Float64Ops Float64Order Float64Facts.
From S2P Require Import Wire Packets PacketCodec TeleopStateBuffer Safety Dynamics RobotState Control ControlFacts.
From S2P Require Import AppCommon LeaderApp LeaderFacts FollowerApp FollowerFacts SingleApp.

Open Scope Z_scope.

(** ** The follower *)

(** The arm of the bimanual follower with the same state. *)
Definition side_of (a : SingleFollower) : FollowerSide :=
  mkFollowerSide (sf_buffer a) (sf_safety a) (sf_limiter a) (sf_control a).

Lemma track_single env rl p c :
  fe_gravity_ff env = false -> follower_gravity_ff_ c = false -> follower_gravity_ff_scale_ c = fe_gravity_ff_scale env ->
  track_packet env rl p c = single_track rl p c.
Proof.
  intros He Hf Hs. unfold track_packet, single_track. rewrite He. cbn [andb].
  destruct (limited_targets _ _ _ _); simpl; try done. destruct (write_refs _ _ 0 _); simpl; try done.
  destruct (write_refs _ _ _ _); simpl; try done. f_equal. unfold SetFollowerGravityFeedforward. cbn.
  rewrite <- Hs. unfold with_robot_state. by rewrite Hf.
Qed.

Lemma side_single env tanh st t m rl c :
  fe_gravity_ff env = false -> follower_gravity_ff_ c = false -> follower_gravity_ff_scale_ c = fe_gravity_ff_scale env ->
  side_cycle env tanh st t m rl c = single_arm_cycle tanh st t m rl c.
Proof.
  intros He Hf Hs. unfold side_cycle, single_arm_cycle. destruct st, t; try done; by rewrite track_single.
Qed.

(** ** Late packets *)


(** The age computed when the packet is newer than the clock reading. *)
Definition wrapped_gap : double := (d_of_Z (2 ^ 63) / d_of_Z 1000000)%D.

Lemma late_gap now last d :
  0 < last - now <= 2 ^ 63 -> valid d -> dleb d wrapped_gap = true -> dleb d (ns_diff_ms now last) = true.
Proof.
  intros Hl Vd Hd. pose proof (ns_diff_ms_fnn now last) as [(V & N & _) _].
  assert (Hw : valid wrapped_gap /\ is_nan wrapped_gap = false) by (split; vm_compute; reflexivity).
  destruct (dleb_true_not_nan _ _ Hd) as [Nd _].
  rewrite dleb_scaled in Hd by (tauto || done). rewrite dleb_scaled by done. rewrite Z.leb_le in *.
  etrans; [exact Hd|]. unfold ns_diff_ms, wrapped_gap.
  set (z := u64 (now - last)). assert (Hz : 2 ^ 63 <= z < 2 ^ 64).
  { unfold z, wrap. replace (now - last) with (2 ^ 64 - (last - now) + (-1) * 2 ^ 64) by ring.
    rewrite Z.mod_add by done. rewrite Z.mod_small by (change (2 ^ 64) with (2 * 2 ^ 63) in *; lia).
    change (2 ^ 64) with (2 * 2 ^ 63). lia. }
  clearbody z. destruct (d_of_Z_fnn z) as [[(V1 & N1 & S1) F1] _]; [lia|].
  destruct (d_of_Z_fnn (2 ^ 63)) as [[(V2 & N2 & S2) F2] _]; [done|].
  refine (ddiv_mono _ _ _ V2 V1 _ F2 F1 _ _ _ S2 S1); [vm_compute; reflexivity..|].
  split; [apply (d_of_Z_nonneg (2 ^ 63)); lia|apply d_of_Z_mono; lia].
Qed.

(** A late packet faults a running robot. *)
Lemma safety_update_late p now last m :
  sm_estop_triggered m = false -> tp_estop p <> 1 -> tp_enable p = 1 -> sm_state m <> DISABLED ->
  valid (watchdog_disable_ms (sm_config m)) -> dleb (watchdog_disable_ms (sm_config m)) wrapped_gap = true ->
  0 < last - now <= 2 ^ 63 ->
  sm_state (safety_update p (ns_diff_ms now last) m) = FAULT.
Proof.
  intros He Hp Hen Hst Vd Hd Hl. unfold safety_update. rewrite He, Hen.
  rewrite (proj2 (Z.eqb_neq _ _) Hp). cbn [orb]. rewrite bool_decide_eq_false_2 by done.
  rewrite andb_false_r. cbv zeta. unfold watchdog_check. cbn [disable_ms].
  by rewrite (late_gap _ _ _ Hl Vd Hd).
Qed.

(** *** The same arm *)

Lemma single_cycle_is_side (env : FollowerEnv) (tanh : double -> double) (now : Z) (m : Motors) (a : SingleFollower) :
  fe_gravity_ff env = false ->
  (forall c, sf_control a = Some c ->
     follower_gravity_ff_ c = false /\ follower_gravity_ff_scale_ c = fe_gravity_ff_scale env) ->
  tsb_last_receive_time_ns (sf_buffer a) <= now ->
  control_side env tanh m (safety_side now (side_of a)) =
    ('(a', o) ← single_follower_cycle false tanh now [] m a; Ok (side_of a', o)).
Proof.
  intros He Hc Hn. unfold control_side, single_follower_cycle, safety_side, packet_gap, gap_ms.
  cbn [side_of fo_buffer tsb_run fold_left]. apply Z.leb_le in Hn. rewrite Hn.
  destruct (tsb_get_latest (sf_buffer a)) as [p|] eqn:Et;
    cbn [with_safety fo_control fo_safety fo_buffer fo_limiter side_of]; rewrite Et;
    (destruct (sf_control a) as [c|] eqn:Ec; [|done]); cbn [deref mbind outcome_bind];
    destruct (Hc c eq_refl); rewrite side_single by done;
    (destruct (single_arm_cycle _ _ _ _ _ _) as [[c' o]|e|]; [|done|done]); done.
Qed.

(** The single follower lacks the bimanual follower's guard on the packet age.
    If a packet is stored after the loop read the clock, its receive time is
    later than that reading, the unsigned difference wraps to an age of
    at least 2^63 ns, and a robot that was following enabled packets is switched
    off in FAULT (from which only an operator gets it back); the bimanual
    program takes the same packet to be 0 ms old. *)
Lemma single_late_packet_faults (tanh : double -> double) (now last : Z) (p q : TeleopPacket) (m : Motors)
    (a a' : SingleFollower) (o : ArmOutput) :
  tsb_get_latest (sf_buffer a) = Some p -> tp_enable p = 1 -> tp_estop p <> 1 ->
  tracking (sm_state (sf_safety a)) = true -> sm_estop_triggered (sf_safety a) = false ->
  valid (watchdog_disable_ms (sm_config (sf_safety a))) ->
  dleb (watchdog_disable_ms (sm_config (sf_safety a))) wrapped_gap = true ->
  now < last <= now + 2 ^ 63 ->
  single_follower_cycle false tanh now [(last, q)] m a = Ok (a', o) ->
  sm_state (sf_safety a') = FAULT /\ o = ArmDisable /\ packet_gap now (sf_buffer a') = d0.
Proof.
  intros Ht He Hs Htr Hf Vd Hd Hl H. unfold single_follower_cycle in H. rewrite Ht in H.
  destruct (tsb_update_fields last q (sf_buffer a)) as (_ & _ & Hrx & _).
  cbn [tsb_run fold_left] in H. rewrite Hrx in H.
  assert (HF : sm_state (safety_update p (ns_diff_ms now last) (sf_safety a)) = FAULT).
  { apply safety_update_late; try done; [|lia]. by destruct (sm_state (sf_safety a)). }
  apply bind_ok in H as ([ctl out] & Hc & [= <- <-]). cbn [sf_safety]. split; [exact HF|].
  apply bind_ok in Hc as (c & _ & Hc). apply bind_ok in Hc as ([c' o'] & Hc & [= _ <-]).
  rewrite HF in Hc. injection Hc as _ <-. split; [done|]. unfold packet_gap, gap_ms.
  cbn [sf_buffer tsb_run fold_left]. rewrite Hrx. rewrite (proj2 (Z.leb_gt _ _)) by lia. done.
Qed.

(** Packet [q] arrives between the two clock readings of a cycle that follows [p]. *)
Record late_packet (now last : Z) (p q : TeleopPacket) (a : SingleFollower) : Prop := {
  lp_latest : tsb_get_latest (sf_buffer a) = Some p;
  lp_enabled : Forall (fun r => tp_enable r = 1 /\ tp_estop r <> 1) [p; q];
  lp_tracking : tracking (sm_state (sf_safety a)) = true;
  lp_no_estop : sm_estop_triggered (sf_safety a) = false;
  lp_limits : Forall (fun x => (d0 >=? x)%D = false)
                [watchdog_warning_ms (sm_config (sf_safety a)); watchdog_hold_ms (sm_config (sf_safety a));
                 watchdog_disable_ms (sm_config (sf_safety a))];
  lp_valid : valid (watchdog_disable_ms (sm_config (sf_safety a)));
  lp_far : dleb (watchdog_disable_ms (sm_config (sf_safety a))) wrapped_gap = true;
  lp_late : now < last <= now + 2 ^ 63;
}.

(** The bimanual follower keeps following. *)
Lemma bimanual_takes_late now last p q a :
  late_packet now last p q a -> sm_state (fo_safety (safety_side now (side_of (single_packet last q a)))) = ACTIVE.
Proof.
  intros [_ Hen Htr He Hl _ _ Hn]. apply Forall_cons in Hen as [_ [[Hen Hs] _]%Forall_cons].
  apply Forall_cons in Hl as [Hw [Hh [Hd _]%Forall_cons]%Forall_cons].
  destruct (tsb_update_fields last q (sf_buffer a)) as (Hq & Hd' & Hrx & _).
  unfold safety_side, single_packet, tsb_get_latest, packet_gap, gap_ms. cbn [side_of fo_buffer sf_buffer].
  rewrite Hd', Hrx, Hq, (proj2 (Z.leb_gt _ _)) by lia. cbn [with_safety fo_safety side_of].
  unfold safety_update. cbn [sf_safety]. rewrite He, Hen. cbn [orb]. rewrite (proj2 (Z.eqb_neq _ _) Hs).
  unfold watchdog_check. cbn [disable_ms hold_ms warning_ms]. rewrite Hd, Hh, Hw.
  destruct (sm_state (sf_safety a)); try done; simpl; by rewrite ?andb_false_r.
Qed.

(** ** Properties *)

(** C38: The single follower is one arm of the bimanual follower, except for
    packets that arrive while a cycle starts. Without gravity feed-forward, when
    the newest packet is not newer than the clock reading and none arrives before
    the receive time is read, a cycle of the single follower (safety update,
    rate-limited tracking, commands or switching off) is exactly the safety and
    control step of the bimanual follower's arm on the same state, errors
    included. An enabled packet that arrives between the two readings shows the
    difference: the single program's unsigned age wraps, so that a robot that was
    following is switched off in FAULT, from which only an operator gets it
    back, while the bimanual program takes that packet to be 0 ms old and stays
    ACTIVE. *)
Theorem single_follower_refines (tanh : double -> double) (now : Z) (m : Motors) (a : SingleFollower) :
  (forall env, fe_gravity_ff env = false ->
   (forall c, sf_control a = Some c ->
      follower_gravity_ff_ c = false /\ follower_gravity_ff_scale_ c = fe_gravity_ff_scale env) ->
   tsb_last_receive_time_ns (sf_buffer a) <= now ->
   control_side env tanh m (safety_side now (side_of a)) =
     ('(a', o) ← single_follower_cycle false tanh now [] m a; Ok (side_of a', o))) /\
  (forall last p q a' o, late_packet now last p q a ->
   single_follower_cycle false tanh now [(last, q)] m a = Ok (a', o) ->
   sm_state (sf_safety a') = FAULT /\ o = ArmDisable /\
   sm_state (fo_safety (safety_side now (side_of (single_packet last q a)))) = ACTIVE).
Proof.
  split; [intros env; apply single_cycle_is_side|]. intros last p q a' o Hl H.
  pose proof (bimanual_takes_late _ _ _ _ _ Hl) as HA. destruct Hl as [Ht [[Hen Hs] _]%Forall_cons Htr He _ Vd Hd Hn].
  destruct (single_late_packet_faults tanh now last p q m a a' o Ht Hen Hs Htr He Vd Hd Hn H) as (H1 & H2 & _). done.
Qed.

Definition test_single : SingleFollower :=
  single_packet 1000 (test_packet 1)
    (single_follower_new safety_config_default (d_of_Z 500) teleop_zero
       (Some (SetFollowerGravityFeedforward false d1 test_follower))).

Definition test_single_env : FollowerEnv :=
  mkFollowerEnv false (d_of_Z 500) feedback_settings_default false (d_of_Z 100) false d1.

Definition test_active : SingleFollower :=
  mkSingleFollower (sf_buffer test_single) (with_state ACTIVE (sf_safety test_single)) (sf_limiter test_single)
    (sf_control test_single) true.

Lemma single_follower_refines_witness :
  (exists a' o, single_follower_cycle false id 2000 [] test_motors test_single = Ok (a', o) /\
    control_side test_single_env id test_motors (safety_side 2000 (side_of test_single)) = Ok (side_of a', o) /\
    sm_state (sf_safety a') = ACTIVE) /\
  (exists a' o, single_follower_cycle false id 2000 [(2001, test_packet 2)] test_motors test_active = Ok (a', o) /\
    sm_state (sf_safety a') = FAULT).
Proof.
  assert (H : exists a' o, single_follower_cycle false id 2000 [] test_motors test_single = Ok (a', o) /\
    sm_state (sf_safety a') = ACTIVE).
  { do 2 eexists. split; [vm_compute; reflexivity|reflexivity]. }
  assert (H' : exists a' o, single_follower_cycle false id 2000 [(2001, test_packet 2)] test_motors test_active = Ok (a', o)).
  { do 2 eexists. vm_compute. reflexivity. }
  split.
  - destruct H as (a' & o & H & Hs). exists a', o. split; [exact H|]. split; [|exact Hs].
    destruct (single_follower_refines id 2000 test_motors test_single) as [Heq _].
    rewrite (Heq test_single_env); [by rewrite H|reflexivity| |].
    + intros c [= <-]. split; reflexivity.
    + vm_compute. discriminate.
  - destruct H' as (a' & o & H'). exists a', o. split; [exact H'|].
    destruct (single_follower_refines id 2000 test_motors test_active) as [_ Hlate].
    apply (Hlate 2001 (test_packet 1) (test_packet 2) a' o); [|exact H'].
    constructor; [reflexivity|repeat constructor; discriminate|reflexivity|reflexivity|repeat constructor|..];
      [vm_compute; reflexivity..|lia].
Defined.

(** The packets of the single leader. Every cycle sends one packet that passes
    validation, numbered (modulo 2^32), for the right arm, UNILATERAL, without
    ESTOP, enabled exactly when the program was started with it; with a real arm
    it holds the joint positions and velocities measured in this cycle. *)
Lemma single_leader_packets (env : SingleLeaderEnv) (tanh sin cos : double -> double) (sys_mock sys_now : Z) (m : Motors)
    (a a' : SingleLeader) (p : TeleopPacket) (cmds : option Commands) :
  single_leader_cycle env tanh sin cos sys_mock sys_now m a = Ok (a', (p, cmds)) ->
  teleop_decode_and_validate p = (true, p) /\ tp_seq p = sl_seq a /\ sl_seq a' = u32 (sl_seq a + 1) /\
  tp_arm_side p = arm_side_u8 RIGHT /\ tp_mode p = control_mode_u8 UNILATERAL /\ tp_estop p = 0 /\
  tp_enable p = (if sl_enable env then 1 else 0) /\
  (sl_mock env = false -> (length (arm_motors m) <= 8)%nat -> (length (gripper_motors m) <= 4)%nat ->
   tp_arm_dof p = Z.of_nat (length (arm_motors m)) /\ tp_hand_dof p = Z.of_nat (length (gripper_motors m)) /\
   tp_arm_pos p = pad 8 (map (fun s => bits_of_double (ms_position s)) (arm_motors m)) /\
   tp_arm_vel p = pad 8 (map (fun s => bits_of_double (ms_velocity s)) (arm_motors m))).
Proof.
  unfold single_leader_cycle. intros ([[ctl j] cs] & Hj & [= <- <- <-])%bind_ok.
  assert (Hs : shaped j /\ (sl_mock env = false ->
    j = fill_joints (arm_motor_to_joint (arm_motors m)) (gripper_motor_to_joint (gripper_motors m)))).
  { destruct (sl_mock env); [injection Hj as _ <- _; by repeat split|].
    apply bind_ok in Hj as (c & _ & Hj). destruct (unilateral_step tanh m c) as [c1 r] eqn:Eu.
    apply bind_ok in Hj as (x & _ & [= _ <- _]). split; [apply fill_joints_shaped|]. intros _.
    unfold unilateral_step, leader_step in Eu. by destruct (ct_role _); injection Eu as <- _. }
  destruct Hs as [Hs Hfill]. set (q := command_header _ _ _ _ _).
  assert (Sq : shaped q) by by apply command_header_shaped.
  split; [by apply teleop_encode_validates|]. split_and!; try done.
  intros Hm Lm Lg. specialize (Hfill Hm). subst j.
  destruct (fill_joints_words (arm_motors m) (gripper_motors m) Lm Lg) as (W1 & W2 & W3 & W4 & _). by split_and!.
Qed.

Lemma single_leader_packets_witness :
  exists a' p cmds, single_leader_cycle (mkSingleLeaderEnv false true) id id id 0 5 test_motors
      (mkSingleLeader (Some test_leader) 7 true) = Ok (a', (p, cmds)) /\ tp_seq p = 7 /\ tp_enable p = 1.
Proof.
  assert (H : exists a' p cmds, single_leader_cycle (mkSingleLeaderEnv false true) id id id 0 5 test_motors
      (mkSingleLeader (Some test_leader) 7 true) = Ok (a', (p, cmds))).
  { do 3 eexists. vm_compute. reflexivity. }
  destruct H as (a' & p & cmds & H). exists a', p, cmds. split; [exact H|].
  destruct (single_leader_packets _ _ _ _ _ _ _ _ _ _ _ H) as (_ & Hs & _ & _ & _ & _ & He & _).
  split; [exact Hs|exact He].
Defined.
