(* ===== verification/SingleThreads.v ===== *)
(** * SingleThreads: the single follower's threads, and why its steps are atomic

    [src/src/apps/wifi_single_follower.cpp] at the granularity of its shared accesses:
    the calls of the loop on the packet buffer and on the safety manager, each of which
    takes that object's mutex, interleave with the receiver and with the two calls of
    the signal handler. Every such execution is an execution of the cycles of
    [SingleApp], one after the other: the packets that arrive between the loop's two
    readings of the buffer are the [late] packets of its cycle, and everything else can
    be moved before or after it. *)

From S2P Require Import Prelude Float64 Wire Packets PacketCodec TeleopStateBuffer Safety Dynamics RobotState Control ControlFacts.
From S2P Require Import AppCommon FollowerApp FollowerFacts SingleApp SingleFacts Threads.
From stdpp Require Import relations.

Open Scope Z_scope.

(** ** Accesses *)

Definition sf_set_safety (m : SafetyManager) (a : SingleFollower) : SingleFollower :=
  mkSingleFollower (sf_buffer a) m (sf_limiter a) (sf_control a) (sf_keep_running a).

Definition sf_set_control (c : option Control) (a : SingleFollower) : SingleFollower :=
  mkSingleFollower (sf_buffer a) (sf_safety a) (sf_limiter a) c (sf_keep_running a).

(** The two statements of [signal_handler]. *)
Definition sf_estop (a : SingleFollower) : SingleFollower := sf_set_safety (safety_trigger_estop (sf_safety a)) a.

Definition sf_stop (a : SingleFollower) : SingleFollower :=
  mkSingleFollower (sf_buffer a) (sf_safety a) (sf_limiter a) (sf_control a) false.

(** What a cycle does to the arm, and the steps of the other threads. *)
Inductive SfLabel := LArm (o : ArmOutput) | LPacket (now : Z) (p : TeleopPacket) | LEstop | LStop.

Abbreviation SfProg := (Prog SingleFollower SfLabel).
Abbreviation SfThread := (Thread SingleFollower SfLabel).

Definition labelled (f : SingleFollower -> SingleFollower) (l : SfLabel) : SfProg unit :=
  Act (fun a => Ok (f a, [l], tt)) Done.

Section programs.
Context (mock : bool) (tanh : double -> double).

(** The arm's part of an iteration, in the safety state [st]. The controller and its
    robot state are the loop's own. *)
Definition sf_arm_step (st : SafetyState) (target : option TeleopPacket) (m : Motors) (a : SingleFollower)
    : outcome (SingleFollower * list SfLabel * unit) :=
  '(ctl, out) ←
    (if mock then Ok (sf_control a, ArmNothing)
     else
       c ← deref (sf_control a);
       '(c, o) ← single_arm_cycle tanh st target m (sf_limiter a) c;
       Ok (Some c, o));
  Ok (sf_set_control ctl a, [LArm out], tt).

(** The safety manager hears of a packet; [now] is the clock, read before the time of
    its arrival. *)
Definition sf_supervise (now : Z) (target : option TeleopPacket) : SfProg unit :=
  match target with
  | Some p =>
      last_rx ← load (fun a => tsb_last_receive_time_ns (sf_buffer a));
      store (fun a => sf_set_safety (safety_update p (ns_diff_ms now last_rx) (sf_safety a)) a)
  | None => mret tt
  end.

(** One iteration. *)
Definition sf_prog (now : Z) (m : Motors) : SfProg unit :=
  target ← load (fun a => tsb_get_latest (sf_buffer a));
  _ ← sf_supervise now target;
  st ← load (fun a => sm_state (sf_safety a));
  Act (sf_arm_step st target m) Done.

Definition sf_loop_prog (now : Z) (m : Motors) : SfProg unit :=
  go ← load sf_keep_running;
  if (go : bool) then sf_prog now m else mret tt.

Definition sf_receive_prog (now : Z) (p : TeleopPacket) : SfProg unit := labelled (single_packet now p) (LPacket now p).

Definition sf_signal_prog : SfProg unit := _ ← labelled sf_estop LEstop; labelled sf_stop LStop.

(** ** The threads *)

Definition sf_receiver : nat := 1.
Definition sf_handler : nat := 2.

Definition sf_pool : list SfThread := replicate 3 idle.

Inductive SfEvent :=
| StPacket (now : Z) (p : TeleopPacket)
| StSignal
| StLoop (now : Z) (m : Motors).

Definition sf_begin (e : SfEvent) (a : SingleFollower) (ts : list SfThread) : option (SingleFollower * list SfThread) :=
  match e with
  | StLoop now m => give main_thread (sf_loop_prog now m) a ts
  | StPacket now p => give sf_receiver (sf_receive_prog now p) a ts
  | StSignal => give sf_handler sf_signal_prog a ts
  end.

Definition sf_exec
    : list (Choice SfEvent) -> Sys SingleFollower SfLabel -> outcome (Sys SingleFollower SfLabel * list SfLabel) :=
  sys_exec sf_begin.

(** ** The cycles one after the other *)

Inductive SfStep :=
| SfStore (now : Z) (p : TeleopPacket)
| SfEstop
| SfStop
| SfIterate (now : Z) (late : list (Z * TeleopPacket)) (m : Motors).

(** A step and what it does to the arm; an iteration needs [keep_running]. *)
Definition sf_step (e : SfStep) (a : SingleFollower) : outcome (SingleFollower * list ArmOutput) :=
  match e with
  | SfStore now p => Ok (single_packet now p a, [])
  | SfEstop => Ok (sf_estop a, [])
  | SfStop => Ok (sf_stop a, [])
  | SfIterate now late m =>
      if sf_keep_running a then '(a, o) ← single_follower_cycle mock tanh now late m a; Ok (a, [o]) else Ok (a, [])
  end.

Fixpoint sf_run (es : list SfStep) (a : SingleFollower) : outcome (SingleFollower * list ArmOutput) :=
  match es with
  | [] => Ok (a, [])
  | e :: es' => '(a, o) ← sf_step e a; '(a, os) ← sf_run es' a; Ok (a, o ++ os)
  end.

Lemma sf_run_app es es' a :
  sf_run (es ++ es') a = '(a, os) ← sf_run es a; '(a, os') ← sf_run es' a; Ok (a, os ++ os').
Proof.
  revert a. induction es as [|e es IH]; intros a; cbn [sf_run app].
  - cbn [mbind outcome_bind]. by destruct (sf_run es' a) as [[? ?]| |].
  - destruct (sf_step e a) as [[a1 o1]| |]; cbn [mbind outcome_bind]; [|done|done]. rewrite IH.
    destruct (sf_run es a1) as [[a2 o2]| |]; cbn [mbind outcome_bind]; [|done|done].
    destruct (sf_run es' a2) as [[a3 o3]| |]; cbn [mbind outcome_bind]; [|done|done]. by rewrite app_assoc.
Qed.

(** *** What the steps are made of *)

Definition sf_packets (es : list SfStep) : list (Z * TeleopPacket) :=
  flat_map (fun e => match e with SfStore now p => [(now, p)] | SfIterate _ late _ => late | _ => [] end) es.
Definition sf_estops (es : list SfStep) : list unit := flat_map (fun e => match e with SfEstop => [tt] | _ => [] end) es.
Definition sf_stops (es : list SfStep) : list unit := flat_map (fun e => match e with SfStop => [tt] | _ => [] end) es.

(** ... and a trace. *)
Definition tr_arm (tr : list SfLabel) : list ArmOutput := flat_map (fun l => match l with LArm o => [o] | _ => [] end) tr.
Definition tr_packets (tr : list SfLabel) : list (Z * TeleopPacket) :=
  flat_map (fun l => match l with LPacket now p => [(now, p)] | _ => [] end) tr.
Definition tr_estops (tr : list SfLabel) : list unit := flat_map (fun l => match l with LEstop => [tt] | _ => [] end) tr.
Definition tr_stops (tr : list SfLabel) : list unit := flat_map (fun l => match l with LStop => [tt] | _ => [] end) tr.

(** An emergency stop may come before a safety update as well as after it. *)
Lemma estop_update p gap m : safety_trigger_estop (safety_update p gap m) = safety_update p gap (safety_trigger_estop m).
Proof.
  unfold safety_trigger_estop at 1. unfold safety_update at 2. cbn [sm_estop_triggered orb safety_trigger_estop].
  f_equal. unfold safety_update. cbv zeta. repeat case_match; done.
Qed.

(** ** Linearisation *)

Abbreviation SConfig := (Config SingleFollower SfLabel).

Section linear.
Context (a0 : SingleFollower).

(** Cycles one after the other lead to [b], with these effects on the arm, packets,
    emergency stops and stops. *)
Definition linear (b : SingleFollower) (arm : list ArmOutput) (pks : list (Z * TeleopPacket)) (est sto : list unit) : Prop :=
  exists es, sf_run es a0 = Ok (b, arm) /\ sf_packets es = pks /\ sf_estops es = est /\ sf_stops es = sto.

Lemma linear_start : linear a0 [] [] [] [].
Proof. by exists []. Qed.

Lemma linear_step e b arm pks est sto b' o :
  linear b arm pks est sto -> sf_step e b = Ok (b', o) ->
  linear b' (arm ++ o) (pks ++ sf_packets [e]) (est ++ sf_estops [e]) (sto ++ sf_stops [e]).
Proof.
  intros (es & H & <- & <- & <-) He. exists (es ++ [e]). rewrite sf_run_app, H. cbn [mbind outcome_bind sf_run]. rewrite He.
  cbn [mbind outcome_bind]. rewrite app_nil_r. unfold sf_packets, sf_estops, sf_stops. by rewrite !flat_map_app.
Qed.

Lemma linear_packets l b arm pks est sto :
  linear b arm pks est sto ->
  linear (mkSingleFollower (tsb_run (sf_buffer b) l) (sf_safety b) (sf_limiter b) (sf_control b) (sf_keep_running b))
    arm (pks ++ l) est sto.
Proof.
  revert b pks. induction l as [|[now p] l IH]; intros b pks H; [rewrite app_nil_r; by destruct b|].
  pose proof (linear_step (SfStore now p) b arm pks est sto _ _ H eq_refl) as H1. cbn in H1. rewrite !app_nil_r in H1.
  apply IH in H1. by rewrite <- app_assoc in H1.
Qed.

Lemma linear_stops (f : SingleFollower -> SingleFollower) e n b arm pks est sto :
  (forall a, sf_step e a = Ok (f a, [])) -> sf_packets [e] = [] -> (forall a, f (f a) = f a) ->
  linear b arm pks est sto ->
  linear (if n is [] then b else f b) arm pks (est ++ flat_map (fun _ : unit => sf_estops [e]) n)
    (sto ++ flat_map (fun _ : unit => sf_stops [e]) n).
Proof.
  intros He Hp Hf H. induction n as [|u n IH] using rev_ind; [cbn; by rewrite !app_nil_r|].
  pose proof (linear_step e _ _ _ _ _ _ _ IH (He _)) as H1. rewrite Hp, !app_nil_r, <- !app_assoc in H1.
  rewrite !flat_map_app. cbn [flat_map]. rewrite !app_nil_r.
  assert (E : (if n ++ [u] is [] then b else f b) = f (if n is [] then b else f b)) by (destruct n; cbn; by rewrite ?Hf).
  by rewrite E.
Qed.

(** *** The loop between two of its accesses *)

(** After the check of [keep_running], after each of its reads, and after the safety
    update. *)
Inductive Point :=
| AtGo
| AtTarget (target : option TeleopPacket)
| AtReceived (p : TeleopPacket) (last_rx : Z)
| AtUpdated (target : option TeleopPacket)
| AtState (target : option TeleopPacket) (st : SafetyState).

(** The safety manager after the cycle's update. *)
Definition cycle_safety (now : Z) (late : list (Z * TeleopPacket)) (b : SingleFollower) : SafetyManager :=
  match tsb_get_latest (sf_buffer b) with
  | Some p => safety_update p (ns_diff_ms now (tsb_last_receive_time_ns (tsb_run (sf_buffer b) late))) (sf_safety b)
  | None => sf_safety b
  end.

(** What the loop knows about the state [b] in which its cycle starts, the packets
    that arrive before ([late]) and after ([post]) its second reading of the buffer,
    and the emergency stops after its reading of the safety state. *)
Definition point_ok (now : Z) (pt : Point) (b : SingleFollower) (late post : list (Z * TeleopPacket)) (est : list unit)
    (m : SafetyManager) : Prop :=
  match pt with
  | AtGo => late = [] /\ post = [] /\ est = [] /\ m = sf_safety b
  | AtTarget t => post = [] /\ est = [] /\ m = sf_safety b /\ t = tsb_get_latest (sf_buffer b)
  | AtReceived p last_rx =>
      est = [] /\ m = sf_safety b /\ tsb_get_latest (sf_buffer b) = Some p /\
      last_rx = tsb_last_receive_time_ns (tsb_run (sf_buffer b) late)
  | AtUpdated t => est = [] /\ m = cycle_safety now late b /\ t = tsb_get_latest (sf_buffer b)
  | AtState t st =>
      m = (if est is [] then cycle_safety now late b else safety_trigger_estop (cycle_safety now late b)) /\
      t = tsb_get_latest (sf_buffer b) /\ st = sm_state (cycle_safety now late b)
  end.

(** The state [y] of the loop at a point, seen from [b]. *)
Record seen (now : Z) (pt : Point) (y : SConfig) (b : SingleFollower) (pks : list (Z * TeleopPacket)) (ne ns : list unit)
    (late post : list (Z * TeleopPacket)) (est sto : list unit) : Prop := {
  se_linear : linear b (tr_arm y.2) pks ne ns;
  se_packets : tr_packets y.2 = pks ++ late ++ post;
  se_estops : tr_estops y.2 = ne ++ est;
  se_stops : tr_stops y.2 = ns ++ sto;
  se_running : sf_keep_running b = true;
  se_keep : sf_keep_running y.1 = (if sto is [] then true else false);
  se_limiter : sf_limiter y.1 = sf_limiter b;
  se_control : sf_control y.1 = sf_control b;
  se_buffer : sf_buffer y.1 = tsb_run (tsb_run (sf_buffer b) late) post;
  se_point : point_ok now pt b late post est (sf_safety y.1);
}.

Definition at_point (now : Z) (pt : Point) (y : SConfig) : Prop :=
  exists b pks ne ns late post est sto, seen now pt y b pks ne ns late post est sto.

(** Between iterations. *)
Definition between (y : SConfig) : Prop := linear y.1 (tr_arm y.2) (tr_packets y.2) (tr_estops y.2) (tr_stops y.2).

(** *** The other threads *)

Inductive sf_env : SConfig -> SConfig -> Prop :=
| env_packet y now p : sf_env y (extend y (single_packet now p y.1) [LPacket now p])
| env_estop y : sf_env y (extend y (sf_estop y.1) [LEstop])
| env_stop y : sf_env y (extend y (sf_stop y.1) [LStop]).

Ltac traces := unfold extend, tr_arm, tr_packets, tr_estops, tr_stops in *; cbn [fst snd] in *;
  rewrite ?flat_map_app in *; cbn [flat_map app] in *; rewrite ?app_nil_r in *.

Lemma between_env y z : sf_env y z -> between y -> between z.
Proof.
  unfold between. intros [u now p|u|u]; traces; intros H.
  - by pose proof (linear_step (SfStore now p) _ _ _ _ _ _ _ H eq_refl) as H1; cbn in H1; rewrite !app_nil_r in H1.
  - by pose proof (linear_step SfEstop _ _ _ _ _ _ _ H eq_refl) as H1; cbn in H1; rewrite !app_nil_r in H1.
  - by pose proof (linear_step SfStop _ _ _ _ _ _ _ H eq_refl) as H1; cbn in H1; rewrite !app_nil_r in H1.
Qed.

Lemma cycle_safety_estop now late b : cycle_safety now late (sf_estop b) = safety_trigger_estop (cycle_safety now late b).
Proof. unfold cycle_safety. cbn. destruct (tsb_get_latest (sf_buffer b)); [by rewrite estop_update|done]. Qed.

(** A packet comes before the cycle, is one of its late ones, or comes after it. *)
Lemma seen_packet now pt y b pks ne ns late post est sto t p :
  seen now pt y b pks ne ns late post est sto -> at_point now pt (extend y (single_packet t p y.1) [LPacket t p]).
Proof.
  intros [L P E S R K Li C B Pt].
  assert (Hpost : (match pt with AtGo | AtTarget _ => False | _ => True end) -> at_point now pt (extend y (single_packet t p y.1) [LPacket t p])).
  { intros Hpt. exists b, pks, ne, ns, late, (post ++ [(t, p)]), est, sto. constructor; traces; try done.
    - by rewrite P, <- !app_assoc.
    - cbn. by rewrite B, tsb_run_snoc.
    - by destruct pt. }
  destruct pt as [|tg|q rx|tg|tg st]; [| |by apply Hpost..].
  - destruct Pt as (-> & -> & -> & Hm). pose proof (linear_step (SfStore t p) _ _ _ _ _ _ _ L eq_refl) as H1.
    cbn in H1. rewrite !app_nil_r in H1. exists (single_packet t p b), (pks ++ [(t, p)]), ne, ns, [], [], [], sto.
    constructor; traces; try done; [by rewrite P|]. cbn in *. by rewrite B.
  - destruct Pt as (-> & -> & Hm & Ht). exists b, pks, ne, ns, (late ++ [(t, p)]), [], [], sto. constructor; traces; try done.
    + by rewrite P, <- app_assoc.
    + cbn in *. by rewrite B, tsb_run_snoc.
Qed.

(** An emergency stop comes before the cycle, until the cycle has read the safety
    state. *)
Lemma seen_estop now pt y b pks ne ns late post est sto :
  seen now pt y b pks ne ns late post est sto -> at_point now pt (extend y (sf_estop y.1) [LEstop]).
Proof.
  intros [L P E S R K Li C B Pt].
  assert (Hbefore : (match pt with AtState _ _ => False | _ => True end) -> at_point now pt (extend y (sf_estop y.1) [LEstop])).
  { intros Hpt. pose proof (linear_step SfEstop _ _ _ _ _ _ _ L eq_refl) as H1. cbn in H1. rewrite !app_nil_r in H1.
    assert (Hest : est = []) by (destruct pt; naive_solver). subst est.
    exists (sf_estop b), pks, (ne ++ [tt]), ns, late, post, [], sto. constructor; traces; try done; [by rewrite E|].
    change (sf_safety (sf_estop y.1)) with (safety_trigger_estop (sf_safety y.1)).
    destruct pt as [|tg|q rx|tg|tg st]; cbn [point_ok] in *; [| | | |done].
    - destruct Pt as (? & ? & _ & ->). done.
    - destruct Pt as (? & _ & -> & ?). done.
    - destruct Pt as (_ & -> & ? & ?). done.
    - destruct Pt as (_ & -> & ?). split_and!; [done| |done]. by rewrite cycle_safety_estop. }
  destruct pt as [|tg|q rx|tg|tg st]; [by apply Hbefore..|].
  exists b, pks, ne, ns, late, post, (est ++ [tt]), sto. constructor; traces; try done; [by rewrite E, <- app_assoc|].
  destruct Pt as (Hm & Ht & Hs). split_and!; [|done|done]. cbn. rewrite Hm. by destruct est.
Qed.

(** Nothing the cycle does after its check depends on [keep_running]. *)
Lemma seen_stop now pt y b pks ne ns late post est sto :
  seen now pt y b pks ne ns late post est sto -> at_point now pt (extend y (sf_stop y.1) [LStop]).
Proof.
  intros [L P E S R K Li C B Pt]. exists b, pks, ne, ns, late, post, est, (sto ++ [tt]).
  constructor; traces; try done; [by rewrite S, <- app_assoc|by destruct sto].
Qed.

Lemma at_point_env now pt y z : sf_env y z -> at_point now pt y -> at_point now pt z.
Proof.
  intros [u t p|u|u] (b & pks & ne & ns & late & post & est & sto & H);
    [by eapply seen_packet|by eapply seen_estop|by eapply seen_stop].
Qed.

Lemma at_point_stable now pt y z : rtc sf_env y z -> at_point now pt y -> at_point now pt z.
Proof. induction 1 as [|? ? ? H _ IH]; [done|]. intros Hy. by eapply IH, at_point_env. Qed.

Lemma between_stable y z : rtc sf_env y z -> between y -> between z.
Proof. induction 1 as [|? ? ? H _ IH]; [done|]. intros Hy. by eapply IH, between_env. Qed.

(** *** The end of an iteration *)

(** The iteration, then the packets, emergency stops and stops that came during it. *)
Lemma seen_end now t st y b pks ne ns late post est sto s l m :
  seen now (AtState t st) y b pks ne ns late post est sto ->
  sf_arm_step st t m y.1 = Ok (s, l, tt) -> between (extend y s l).
Proof.
  intros [L P E S R K Li C B (Hm & -> & ->)] Hs. unfold sf_arm_step in Hs. rewrite Li, C in Hs.
  apply bind_ok in Hs as ([ctl out] & Hc & [= <- <-]).
  set (b1 := mkSingleFollower (tsb_run (sf_buffer b) late) (cycle_safety now late b) (sf_limiter b) ctl (sf_keep_running b)).
  assert (Hi : sf_step (SfIterate now late m) b = Ok (b1, [out])).
  { cbn [sf_step]. rewrite R. unfold single_follower_cycle. cbv zeta. fold (cycle_safety now late b). by rewrite Hc. }
  pose proof (linear_step _ _ _ _ _ _ _ _ L Hi) as H1. cbn [sf_packets sf_estops sf_stops flat_map] in H1.
  rewrite !app_nil_r in H1. apply (linear_packets post) in H1.
  apply (linear_stops sf_estop SfEstop est) in H1; [|done..]. apply (linear_stops sf_stop SfStop sto) in H1; [|done..].
  unfold between. traces. rewrite P, E, S.
  assert (Hu : forall n : list unit, flat_map (fun _ => [tt]) n = n) by (intros n; induction n as [|[] n IH]; cbn; congruence).
  assert (Hn : forall n : list unit, flat_map (fun _ => [] : list unit) n = []) by (intros n; induction n; done).
  cbn [sf_estops sf_stops flat_map app] in H1. rewrite !Hu, !Hn, !app_nil_r, <- !app_assoc in H1.
  match type of H1 with linear ?x _ _ _ _ => assert (Ex : x = sf_set_control ctl y.1) end; [|by rewrite Ex in H1].
  destruct y as [[bu sa li co ke] tr]. cbn in *. subst. unfold sf_estop, sf_stop, sf_set_safety, sf_set_control. cbn.
  by destruct est, sto; cbn; rewrite ?R.
Qed.

(** ** The threads *)

Definition sf_rely (k : nat) : SConfig -> SConfig -> Prop :=
  match k with 0%nat => rtc sf_env | _ => fun _ _ => True end.
Definition sf_guarantee (k : nat) : SConfig -> SConfig -> Prop :=
  match k with 0%nat => fun _ _ => True | _ => rtc sf_env end.

Lemma sf_rely_refl k y : sf_rely k y y.
Proof. by destruct k. Qed.

Lemma sf_rely_trans k x y z : sf_rely k x y -> sf_rely k y z -> sf_rely k x z.
Proof. destruct k; [by intros; etrans|done]. Qed.

Lemma sf_guarantee_rely j k y z : j <> k -> sf_guarantee j y z -> sf_rely k y z.
Proof. by destruct j, k. Qed.

Abbreviation mwp := (wp any_failure (sf_rely 0) (sf_guarantee 0)).
Abbreviation mwp_bind := (wp_bind any_failure (sf_rely 0) (sf_guarantee 0)).

(** A read that brings the loop to a further point. *)
Lemma loop_load {A} now pt (f : SingleFollower -> A) (pt' : A -> Point) y :
  (forall z, at_point now pt z -> at_point now (pt' (f z.1)) (extend z z.1 [])) ->
  at_point now pt y -> mwp (load f) (fun x => at_point now (pt' x)) y.
Proof.
  intros Hf Hy z Hz. split; [done|]. intros w Hw. eapply at_point_stable; [exact Hw|].
  apply Hf. by eapply at_point_stable.
Qed.

Lemma supervise_ok now t y :
  at_point now (AtTarget t) y -> mwp (sf_supervise now t) (fun _ => at_point now (AtUpdated t)) y.
Proof.
  intros Hy. destruct t as [p|]; cbn [sf_supervise].
  - apply mwp_bind; [apply sf_rely_refl|].
    eapply wp_mono; [|apply (loop_load now (AtTarget (Some p)) _ (AtReceived p)); [|exact Hy]].
    + intros rx z Hz w Hw. split; [done|]. intros v Hv. eapply at_point_stable; [exact Hv|].
      destruct (at_point_stable _ _ _ _ Hw Hz) as (b & pks & ne & ns & late & post & est & sto & [L P E S R K Li C B Pt]).
      destruct Pt as (-> & Hm & Ht & ->). exists b, pks, ne, ns, late, post, [], sto. constructor; traces; try done.
      cbn. unfold cycle_safety. by rewrite Hm, Ht.
    + intros z (b & pks & ne & ns & late & post & est & sto & [L P E S R K Li C B Pt]).
      destruct Pt as (-> & -> & Hm & Ht). exists b, pks, ne, ns, late, [], [], sto. constructor; traces; try done.
      cbn in *. by rewrite B.
  - intros z Hz. destruct (at_point_stable _ _ _ _ Hz Hy) as (b & pks & ne & ns & late & post & est & sto & [L P E S R K Li C B Pt]).
    destruct Pt as (-> & -> & Hm & Ht). exists b, pks, ne, ns, late, [], [], sto. constructor; try done.
    split_and!; [done| |done]. unfold cycle_safety. by rewrite <- Ht.
Qed.

Lemma sf_loop_ok now m y : between y -> mwp (sf_loop_prog now m) (fun _ => between) y.
Proof.
  intros Hy. unfold sf_loop_prog. apply mwp_bind; [apply sf_rely_refl|]. intros z Hz. split; [done|]. intros w Hw.
  assert (Hb : between z) by by eapply between_stable.
  destruct (sf_keep_running z.1) eqn:Ek.
  2: { intros v Hv. eapply between_stable; [exact Hv|]. eapply between_stable; [exact Hw|]. unfold between. by traces. }
  assert (H0 : at_point now AtGo (extend z z.1 [])).
  { exists z.1, (tr_packets z.2), (tr_estops z.2), (tr_stops z.2), [], [], [], []. constructor; traces; done. }
  apply (at_point_stable _ _ _ _ Hw) in H0. unfold sf_prog.
  apply mwp_bind; [apply sf_rely_refl|]. eapply wp_mono; [|apply (loop_load now AtGo _ AtTarget); [|exact H0]].
  2: { intros v (b & pks & ne & ns & late & post & est & sto & [L P E S R K Li C B Pt]). destruct Pt as (-> & -> & -> & Hm).
       exists b, pks, ne, ns, [], [], [], sto. constructor; traces; try done. cbn in *. by rewrite B. }
  intros t y1 Hy1. apply mwp_bind; [apply sf_rely_refl|]. eapply wp_mono; [|by apply supervise_ok].
  intros [] y2 Hy2. apply mwp_bind; [apply sf_rely_refl|].
  eapply wp_mono; [|apply (loop_load now (AtUpdated t) _ (AtState t)); [|exact Hy2]].
  2: { intros v (b & pks & ne & ns & late & post & est & sto & [L P E S R K Li C B Pt]). destruct Pt as (-> & Hm & Ht).
       exists b, pks, ne, ns, late, post, [], sto. constructor; traces; try done. cbn. by rewrite Hm. }
  intros st y3 Hy3 v Hv. destruct (sf_arm_step st t m v.1) as [[[s l] []]| |] eqn:Es; [|done|done].
  split; [done|]. intros u Hu. eapply between_stable; [exact Hu|].
  destruct (at_point_stable _ _ _ _ Hv Hy3) as (b & pks & ne & ns & late & post & est & sto & H). by eapply seen_end.
Qed.

(** The receiver and the handler. *)
Lemma labelled_ok k f l y (Q : unit -> SConfig -> Prop) :
  (forall z, sf_env z (extend z (f z.1) [l])) -> (forall z, Q tt z) ->
  wp any_failure (sf_rely (S k)) (sf_guarantee (S k)) (labelled f l) Q y.
Proof. intros Hf HQ z _. split; [by apply rtc_once|]. intros w _. apply HQ. Qed.

(** What the loop leaves behind. *)
Definition sf_left (k : nat) (y : SConfig) : Prop := match k with 0%nat => between y | _ => True end.

Abbreviation sf_pool_ok := (pool_ok 3 any_failure sf_rely sf_guarantee sf_left).

Lemma sf_begin_ok e s tr ts s' ts' :
  True -> True -> sf_pool_ok (s, tr) ts -> sf_begin e s ts = Some (s', ts') -> True /\ sf_pool_ok (s', tr) ts'.
Proof.
  intros _ _ [Hlen Hp] Hb. split; [done|].
  assert (Hgive : forall k p, give k p s ts = Some (s', ts') ->
    (forall t, ts !! k = Some t -> is_idle t = true ->
       thread_ok any_failure (sf_rely k) (sf_guarantee k) (sf_left k) (Seq p) (s, tr)) -> sf_pool_ok (s', tr) ts').
  { intros k p Hg Ht. destruct (give_idle k p s ts s' ts' Hg) as (t & Hk & Hi). apply give_inv in Hg as [-> ->].
    split; [by rewrite length_insert|]. intros j u Hu.
    apply list_lookup_insert_Some in Hu as [(<- & <- & _)|[_ Hu]]; [by eapply Ht|by apply Hp]. }
  destruct e as [now p| |now m]; cbn [sf_begin] in Hb; apply Hgive in Hb; try done; intros t Hk Hi; cbn [thread_ok].
  - apply (labelled_ok 0); [intros z; by constructor|done].
  - apply wp_bind; [done|]. apply (labelled_ok 1); [intros z; by constructor|]. intros z.
    apply (labelled_ok 1); [intros w; by constructor|done].
  - specialize (Hp 0%nat t Hk). destruct t as [[[]|]|]; try done. apply sf_loop_ok. by apply Hp.
Qed.
End linear.
End programs.

(** ** Property *)

(** C25: The single follower's cycles are atomic. Take any execution of its loop, its
    receiver and its signal handler, interleaved at every access to the packet buffer,
    the safety manager and [keep_running], that ends between two iterations. There is
    an execution in which whole cycles of [SingleApp], packets, emergency stops and
    stops follow one after the other, that ends in the same state: with the same
    effects on the arm in the same order, of the same packets in the same order, some
    of them arriving late during a cycle, and with as many emergency stops and stops. *)
Theorem single_cycles_linearise (mock : bool) (tanh : double -> double) (cs : list (Choice SfEvent))
    (a : SingleFollower) (x : Sys SingleFollower SfLabel) (tr : list SfLabel) (t : Thread SingleFollower SfLabel) :
  sf_exec mock tanh cs (mkSys a sf_pool) = Ok (x, tr) ->
  sy_threads x !! main_thread = Some t -> is_idle t = true ->
  exists es, sf_run mock tanh es a = Ok (sy_state x, tr_arm tr) /\
    sf_packets es = tr_packets tr /\ sf_estops es = tr_estops tr /\ sf_stops es = tr_stops tr.
Proof.
  intros H Ht Hi.
  pose proof (sys_exec_ok (sf_begin mock tanh) 3 any_failure sf_rely sf_guarantee (sf_left mock tanh a) (fun _ => True)
    (fun _ => True) sf_rely_refl sf_rely_trans sf_guarantee_rely (fun _ _ _ _ _ => I) (sf_begin_ok mock tanh a)
    cs (mkSys a sf_pool) []) as Hok.
  unfold sf_exec in H. rewrite H in Hok. destruct Hok as [_ [_ Hp]].
  - apply Forall_true. by intros [].
  - done.
  - split; [done|]. intros k u Hk. apply lookup_replicate in Hk as [-> _]. intros y Hy. destruct k; [|done].
    eapply between_stable; [exact Hy|]. apply linear_start.
  - specialize (Hp main_thread t Ht). destruct t as [[[]|]|]; try done.
    exact (Hp (sy_state x, tr) (rtc_refl _ _)).
Qed.

(** An iteration; a packet arrives between its readings of the buffer, and a signal
    after it has read the safety state. *)
Definition sf_schedule : list (Choice SfEvent) :=
  Event (StLoop 3000 test_motors) :: replicate 2 (Run 0 true)
  ++ [Event (StPacket 2001 (test_packet 2)); Run 1 true] ++ replicate 3 (Run 0 true)
  ++ [Event StSignal; Run 2 true; Run 2 true; Run 0 true].

Lemma single_cycles_linearise_witness :
  exists x tr es, sf_exec false id sf_schedule (mkSys test_active sf_pool) = Ok (x, tr) /\
    sf_run false id es test_active = Ok (sy_state x, tr_arm tr) /\
    length (tr_arm tr) = 1%nat /\ sf_packets es = [(2001, test_packet 2)] /\ sf_estops es = [tt] /\
    sm_state (sf_safety (sy_state x)) = ESTOP.
Proof.
  assert (Hb : match sf_exec false id sf_schedule (mkSys test_active sf_pool) with
               | Ok (x, tr) => match sy_threads x !! main_thread with Some t => is_idle t | None => false end
                   && bool_decide (length (tr_arm tr) = 1%nat) && bool_decide (length (tr_estops tr) = 1%nat)
                   && bool_decide (sm_state (sf_safety (sy_state x)) = ESTOP)
               | _ => false
               end = true) by (vm_compute; reflexivity).
  assert (Hp : match sf_exec false id sf_schedule (mkSys test_active sf_pool) with
               | Ok (x, tr) => tr_packets tr | _ => [] end = [(2001, test_packet 2)]) by (vm_compute; reflexivity).
  destruct (sf_exec false id sf_schedule (mkSys test_active sf_pool)) as [[x tr]| |] eqn:H; [|discriminate Hb|discriminate Hb].
  apply andb_prop in Hb as [Hb Hs]. apply andb_prop in Hb as [Hb He]. apply andb_prop in Hb as [Ht Hl].
  destruct (sy_threads x !! main_thread) as [t|] eqn:Et; [|discriminate Ht].
  destruct (single_cycles_linearise false id sf_schedule test_active x tr t H Et Ht) as (es & Hr & H1 & H2 & H3).
  exists x, tr, es. split; [reflexivity|]. split; [exact Hr|]. split; [by apply bool_decide_eq_true in Hl|].
  split; [by rewrite H1|]. split; [|by apply bool_decide_eq_true in Hs].
  apply bool_decide_eq_true in He. rewrite H2. destruct (tr_estops tr) as [|[] [|? ?]]; [discriminate He|reflexivity|discriminate He].
Defined.
