(* ===== verification/Programs.v ===== *)
(** * Programs: the [main] functions

    The five programs of [src/src/apps/] from the command line to the exit code:
    arguments, settings, sockets, start-up of the arms, the loop with everything
    the other threads do meanwhile, and the shutdown. The parts are those of the
    other files; this one puts them in the order of the code. *)

From S2P Require Import Prelude Float64 Packets LinkCheck BilateralEngager FeedbackStateBuffer TeleopStateBuffer Safety.
From S2P Require Import RuntimeControl Udp Dynamics RobotState Control AppCommon LeaderApp FollowerApp Yaml.
From S2P Require Import Ik VrConfig VrLeader Startup Args SingleApp.
From stdpp Require Import gmap.

Open Scope Z_scope.

(** ** What a program runs in *)

Record World := mkWorld {
  wd_start : StartEnv;
  wd_stod : string -> outcome double;
  wd_os : Os;                                (* network interfaces, at the start *)
  wd_receiver : ArmSide -> SocketOs;
  wd_server : ServerOs;
  wd_server_joins : bool;                    (* the server's thread ends once it is stopped: no client keeps it in [recv] *)
  wd_telemetry_socket : bool;
  wd_clock : Z;                              (* steady clock before the loop *)
  wd_uninitialised : TeleopPacket;
  wd_pinocchio : string -> outcome Pinocchio;                 (* buildModel *)
  wd_csv_opens : string -> bool;
  wd_first_r : nat -> Motors; wd_first_l : nat -> Motors;     (* readings of the first move *)
}.

Section programs.
Context (w : World).
#[local] Abbreviation Y := (st_yaml (wd_start w)).

(** [--interface] replaces [--bind-ip]; a name without address ends the program. *)
Definition bind_ip_of (vars : Vars) : option string :=
  if String.eqb (text vars "interface_name") "" then Some (text vars "bind_ip")
  else
    let ip := get_interface_ip (wd_os w) (text vars "interface_name") in
    if String.eqb ip "" then None else Some ip.

(** The runtime control server, if a port was given. *)
Definition control_server (vars : Vars) : Start unit :=
  if 0 <? port vars "control_port" then
    if (server_start (wd_server w) (text vars "control_bind_ip") server_new).1 then mret (M := Start) tt else exit_with 1
  else mret (M := Start) tt.

(** [main] returns: the destructor of the command server joins its thread, if it
    has one. *)
Definition server_destructor {A} (vars : Vars) (m : Start A) : Start A :=
  let '(t, r) := m in
  (t, match r with
      | ExitCode n => if (0 <? port vars "control_port") && negb (wd_server_joins w) then Blocked else ExitCode n
      | _ => r
      end).

Definition receiver_up (side : ArmSide) (bind_ip : string) (p : Z) : bool :=
  (receiver_start (receiver_new (wd_receiver w side) bind_ip p)).1.

(** Both receivers; a failure ends the program. *)
Definition receivers (bind_ip : string) (right_port left_port : Z) : Start unit :=
  if receiver_up RIGHT bind_ip right_port && receiver_up LEFT bind_ip left_port then mret (M := Start) tt else exit_with 1.

Definition telemetry_publisher (vars : Vars) : Start TelemetryPublisher :=
  if flag vars "publish_telemetry" then
    let '(ok, pub) := publisher_start (wd_telemetry_socket w) publisher_new in
    if ok : bool then mret (M := Start) pub else exit_with 1
  else mret (M := Start) publisher_new.

Definition start_args (vars : Vars) : StartArgs :=
  mkStartArgs (text vars "right_can") (text vars "left_can") (text vars "right_urdf") (text vars "left_urdf")
    (num vars "rate_hz").

(** The first move of both arms. *)
Definition first_move (cr cl : Control) : Start (Control * Control) :=
  run (adjust_both (wd_first_r w) (wd_first_l w) cr cl).

(** ** The loop *)

Section loop.
Context {S E O : Type} (step : E -> S -> outcome (S * option O)) (actions : O -> list SideAction) (period : double).

(** The steps of all threads in turn. After an iteration [main] waits for the
    next multiple of the period, whose conversion may be undefined. *)
Fixpoint main_loop (l : list E) (s : S) : Start S :=
  match l with
  | [] => mret (M := Start) s
  | e :: l =>
      '(s, o) ← run (step e s);
      _ ← act (match o with Some o => actions o | None => [] end);
      _ ← run (match o with Some _ => ns_of_seconds period | None => Ok 0 end);
      main_loop l s
  end.
End loop.

(** [disable_all] of both arms. *)
Definition both_off : list SideAction := [DisableAll RIGHT; DisableAll LEFT].

(** *** The bimanual follower *)

Definition follower_env (vars : Vars) (fs : FeedbackSettings) (ff : bool * double) : FollowerEnv :=
  mkFollowerEnv (flag vars "mock") (num vars "rate_hz") fs (flag vars "publish_telemetry") (num vars "telemetry_rate_hz")
    ff.1 ff.2.

(** What a cycle does to the arms' power. *)
Definition side_actions (side : ArmSide) (o : ArmOutput) : list SideAction :=
  match o with ArmDisable => [DisableAll side] | _ => [] end.

Definition follower_actions (o : FollowerOutput) : list SideAction :=
  (if fx_enable_all o then [EnableAll RIGHT; EnableAll LEFT] else []) ++
  side_actions RIGHT (fx_right o) ++ side_actions LEFT (fx_left o).

(** The arms in real mode: controllers after the first move, feed-forward
    settings. *)
Definition follower_arms (vars : Vars) : Start (option Control * option Control * (bool * double)) :=
  if flag vars "mock" then mret (M := Start) (None, None, (false, d1))
  else
    '(cr, cl, ff) ← follower_start (wd_start w) (start_args vars);
    '(cr, cl) ← first_move cr cl;
    mret (M := Start) (Some cr, Some cl, ff).

Definition follower_new (vars : Vars) (fs : FeedbackSettings) (pub : TelemetryPublisher) (cr cl : option Control)
    : FollowerApp :=
  let side := follower_side_new (args_safety_config vars) (num vars "rate_hz") (wd_uninitialised w) in
  let '(ok, link) := if fs_enabled fs then follower_link_ok fs (wd_os w) else (false, link_info_default) in
  mkFollowerApp true false false false false false false [] (side cr) (side cl) [] link ok 0 (wd_clock w) pub (wd_clock w).

(** [main] up to its loop. *)
Definition follower_init (args : list string) : Start (Vars * FollowerEnv * FollowerApp) :=
  vars ← run (parse_args (wd_stod w) (pr_options bimanual_follower) args (pr_defaults bimanual_follower));
  bind_ip ← require (bind_ip_of vars);
  _ ← control_server vars;
  server_destructor vars (
    _ ← receivers bind_ip (port vars "right_port") (port vars "left_port");
    pub ← telemetry_publisher vars;
    fs ← run (load_feedback_settings Y "config/follower.yaml");
    '(cr, cl, ff) ← follower_arms vars;
    mret (M := Start) (vars, follower_env vars fs ff, follower_new vars fs pub cr cl)).

(** The end of [main], once [keep_running] is false: the receivers are stopped, the
    arms switched off, the controllers deleted, and the command server is
    destroyed. Moves run in detached threads that use the controllers. *)
Definition follower_end (vars : Vars) (a : FollowerApp) : Start FollowerApp :=
  if fa_keep_running a then mret (M := Start) a
  else
    _ ← act (if flag vars "mock" then [] else both_off);
    match fa_moves a with [] => server_destructor vars (exit_with 0) | _ => ([], Undefined) end.

(** [main]: still in the loop when the events are used up, or at its end. *)
Definition follower_main (tanh : double -> double) (args : list string) (events : list FollowerEvent) : Start FollowerApp :=
  '(vars, env, a) ← follower_init args;
  a ← main_loop (follower_event env tanh) follower_actions (d1 / num vars "rate_hz")%D events a;
  follower_end vars a.

(** *** The bimanual leader *)

Definition leader_env (vars : Vars) (bi : BilateralSettings) : LeaderEnv :=
  mkLeaderEnv (flag vars "mock") (num vars "rate_hz") bi (text vars "follower_ip") (port vars "right_port")
    (port vars "left_port") (flag vars "publish_telemetry") (num vars "telemetry_rate_hz").

Definition leader_arms (vars : Vars) (bi : BilateralSettings) : Start (option Control * option Control) :=
  if flag vars "mock" then mret (M := Start) (None, None)
  else
    '(cr, cl) ← leader_start (wd_start w) bi (start_args vars);
    '(cr, cl) ← first_move cr cl;
    mret (M := Start) (Some cr, Some cl).

Definition feedback_receivers (bi : BilateralSettings) : Start unit :=
  if bi_feedback_enabled bi then receivers (bi_bind_ip bi) (bi_right_port bi) (bi_left_port bi)
  else mret (M := Start) tt.

Definition leader_step_event (env : LeaderEnv) (tanh sin cos : double -> double) (e : LeaderEvent) (a : LeaderApp)
    : outcome (LeaderApp * option LeaderOutput) :=
  let '(st, o) := leader_event env tanh sin cos e (Ok a) in
  a ← st; Ok (a, o).

Definition leader_init (args : list string) : Start (Vars * LeaderEnv * LeaderApp) :=
  vars ← run (parse_args (wd_stod w) (pr_options bimanual_leader) args (pr_defaults bimanual_leader));
  bind_ip ← require (bind_ip_of vars);
  bi ← run (load_bilateral_settings Y "config/leader.yaml");
  '(cr, cl) ← leader_arms vars bi;
  pub ← telemetry_publisher vars;
  a ← run (leader_new (leader_env vars bi) (flag vars "initial_enable") (wd_os w) (wd_clock w) pub cr cl);
  _ ← feedback_receivers bi;
  _ ← control_server vars;
  mret (M := Start) (vars, leader_env vars bi, a).

Definition leader_end (vars : Vars) (a : LeaderApp) : Start LeaderApp :=
  if lf_keep_running (la_flags a) then mret (M := Start) a
  else
    _ ← act (if flag vars "mock" then [] else both_off);
    server_destructor vars (exit_with 0).

Definition leader_main (tanh sin cos : double -> double) (args : list string) (events : list LeaderEvent)
    : Start LeaderApp :=
  '(vars, env, a) ← leader_init args;
  a ← main_loop (leader_step_event env tanh sin cos) (fun _ => []) (d1 / num vars "rate_hz")%D events a;
  leader_end vars a.

(** *** The single-arm programs *)

Inductive SingleLeaderEvent :=
| SlSignal
| SlCycle (sys_mock sys_now : Z) (m : Motors).

Definition single_leader_event (env : SingleLeaderEnv) (tanh sin cos : double -> double) (e : SingleLeaderEvent)
    (a : SingleLeader) : outcome (SingleLeader * option (TeleopPacket * option Commands)) :=
  match e with
  | SlSignal => Ok (single_leader_signal a, None)
  | SlCycle sys_mock sys_now m =>
      if sl_keep_running a then
        '(a, o) ← single_leader_cycle env tanh sin cos sys_mock sys_now m a; Ok (a, Some o)
      else Ok (a, None)
  end.

Definition adjust_single (c : Control) : Start Control :=
  '(_, c) ← run (AdjustPosition (wd_first_r w) c); mret (M := Start) c.

Definition single_leader_main (tanh sin cos : double -> double) (args : list string) (events : list SingleLeaderEvent)
    : Start SingleLeader :=
  vars ← run (parse_args (wd_stod w) (pr_options single_leader) args (pr_defaults single_leader));
  c ← (if flag vars "mock" then mret (M := Start) None
       else
         c ← single_leader_start (wd_start w) (text vars "leader_urdf") (text vars "can_interface") (num vars "rate_hz");
         c ← adjust_single c;
         mret (M := Start) (Some c));
  let env := mkSingleLeaderEnv (flag vars "mock") (flag vars "enable") in
  a ← main_loop (single_leader_event env tanh sin cos) (fun _ => []) (d1 / num vars "rate_hz")%D events
        (mkSingleLeader c 0 true);
  if sl_keep_running a then mret (M := Start) a
  else
    _ ← act (if flag vars "mock" then [] else [DisableAll RIGHT]);
    exit_with 0.

Inductive SingleFollowerEvent :=
| SfPacket (now : Z) (p : TeleopPacket)
| SfSignal
| SfCycle (now : Z) (late : list (Z * TeleopPacket)) (m : Motors).

Definition single_follower_event (mock : bool) (tanh : double -> double) (e : SingleFollowerEvent) (a : SingleFollower)
    : outcome (SingleFollower * option ArmOutput) :=
  match e with
  | SfPacket now p => Ok (single_packet now p a, None)
  | SfSignal => Ok (single_follower_signal a, None)
  | SfCycle now late m =>
      if sf_keep_running a then '(a, o) ← single_follower_cycle mock tanh now late m a; Ok (a, Some o) else Ok (a, None)
  end.

Definition single_follower_main (tanh : double -> double) (args : list string) (events : list SingleFollowerEvent)
    : Start SingleFollower :=
  vars ← run (parse_args (wd_stod w) (pr_options single_follower) args (pr_defaults single_follower));
  _ ← (if receiver_up RIGHT "0.0.0.0" (port vars "port") then mret (M := Start) tt else exit_with 1);
  c ← (if flag vars "mock" then mret (M := Start) None
       else
         c ← single_follower_start (wd_start w) (text vars "follower_urdf") (text vars "can_interface") (num vars "rate_hz");
         c ← adjust_single c;
         mret (M := Start) (Some c));
  a ← main_loop (single_follower_event (flag vars "mock") tanh) (side_actions RIGHT) (d1 / num vars "rate_hz")%D events
        (single_follower_new (args_safety_config vars) (num vars "rate_hz") (wd_uninitialised w) c);
  if sf_keep_running a then mret (M := Start) a
  else
    _ ← act (side_actions RIGHT (single_exit (flag vars "mock") a));
    exit_with 0.

(** *** The VR leader *)

(** [--ik-debug] and [--log-csv] switch the debug output on, then come the
    overrides and the mode flags. *)
Definition vr_config_of (vars : Vars) (args : list string) : outcome VrTeleopConfig :=
  cfg ← load_config Y (text vars "config_path");
  let d := vc_debug cfg in
  let debug := ik_debug d || flag vars "ik_debug" || negb (String.eqb (text vars "log_csv_path") "") in
  let cfg := with_debug (mkVrDebug debug (ik_debug_rate_hz d) (ik_debug_burst_sec d)) cfg in
  cfg ← apply_sets (wd_stod w) (match vars !! "set_overrides" with Some (VTexts l) => l | _ => [] end) cfg;
  Ok (apply_mode_flags args cfg).

(** Results of [start_raw] are not looked at: without its sockets the program
    runs and receives nothing. *)
Definition vr_init (args : list string) : Start (Vars * VrEnv * VrApp) :=
  vars ← run (parse_args (wd_stod w) (pr_options vr_leader) args (pr_defaults vr_leader));
  cfg ← run (vr_config_of vars args);
  _ ← (if negb (String.eqb (text vars "log_csv_path") "") && negb (wd_csv_opens w (text vars "log_csv_path"))
       then exit_with 1 else mret (M := Start) tt);
  pin_r ← run (wd_pinocchio w (text vars "right_urdf"));
  _ ← run (ik_new pin_r right_ee (joint_names "right"));
  pin_l ← run (wd_pinocchio w (text vars "left_urdf"));
  let env := mkVrEnv cfg (num vars "rate_hz") (flag vars "dry_run") (num vars "max_test_sec") (wd_clock w) pin_r pin_l in
  a ← run (vr_new env);
  mret (M := Start) (vars, env, a).

Definition vr_main (la : EigenOps) (ve : EigenVec) (ge : EigenGeometry) (pow : double -> double -> double)
    (args : list string) (events : list VrEvent) : Start VrApp :=
  '(vars, env, a) ← vr_init args;
  a ← main_loop (vr_event env la ve ge pow) (fun _ => []) (d1 / num vars "rate_hz")%D events a;
  if va_keep_running a then mret (M := Start) a else exit_with 0.
End programs.
