(* ===== verification/ProgramFacts.v ===== *)
(** * ProgramFacts: how the programs end

    What every exit code of the [main] functions says about the motors, that a
    signal ends the bimanual programs with the motors off, and that the VR leader
    cannot fail once its loop is entered. *)

From S2P Require Import Prelude Float64 Packets LinkCheck BilateralEngager FeedbackStateBuffer TeleopStateBuffer Safety.
From S2P Require Import RuntimeControl Udp Dynamics RobotState Control AppCommon LeaderApp FollowerApp Yaml.
From S2P Require Import PacketCodec ControlFacts YamlFacts Ik IkFacts VrConfig VrConfigFacts VrLeader VrFacts VrTotal Startup StartupFacts Args SingleApp Programs.
From stdpp Require Import gmap.

Open Scope Z_scope.

Lemma all_off_both t : all_off (t ++ both_off).
Proof. intros side. rewrite enabled_after_app. by destruct side. Qed.

Lemma act_bind {A} (l : list SideAction) (f : unit -> Start A) : (act l ≫= f) = (l ++ (f tt).1, (f tt).2).
Proof. by apply bind_from. Qed.

(** ** The loop *)

Section loop.
Context {S E O : Type} (step : E -> S -> outcome (S * option O)) (actions : O -> list SideAction) (period : double).

Lemma main_loop_no_exit l s t n : main_loop step actions period l s <> (t, ExitCode n).
Proof.
  revert s t. induction l as [|e l IH]; intros s t; cbn [main_loop]; [done|]. intros H.
  apply start_bind_exit in H as [H|(t1 & t2 & [s' o] & H1 & H & ->)]; [by apply run_exit in H|].
  apply start_bind_exit in H as [H|(t3 & t4 & [] & _ & H & ->)]; [done|].
  apply start_bind_exit in H as [H|(t5 & t6 & z & _ & H & ->)]; [by apply run_exit in H|]. by apply IH in H.
Qed.

(** What holds of every step's result holds at the end. *)
Lemma main_loop_inv (P : S -> Prop) (Q : list SideAction -> Prop) l s t s' :
  (forall e s s' o, P s -> step e s = Ok (s', o) -> P s' /\ Q (match o with Some o => actions o | None => [] end)) ->
  Q [] -> (forall t1 t2, Q t1 -> Q t2 -> Q (t1 ++ t2)) ->
  P s -> main_loop step actions period l s = (t, Running s') -> P s' /\ Q t.
Proof.
  intros Hstep Hnil Happ. revert s t. induction l as [|e l IH]; intros s t Hs; cbn [main_loop].
  { intros [= <- <-]. by split. }
  intros H. apply start_bind_running in H as (t1 & t2 & [s1 o] & [H1 ->]%run_running & H & ->).
  apply start_bind_running in H as (t3 & t4 & [] & H3 & H & ->). injection H3 as <-.
  apply start_bind_running in H as (t5 & t6 & z & [_ ->]%run_running & H & ->).
  destruct (Hstep _ _ _ _ Hs H1) as [Hs1 Ho]. destruct (IH _ _ Hs1 H) as [Hs' Ht]. split; [done|]. cbn [app]. by apply Happ.
Qed.

(** A total step makes a total loop. *)
Lemma main_loop_total (P : S -> Prop) l s dt :
  (forall e s, P s -> exists s' o, step e s = Ok (s', o) /\ P s') -> ns_of_seconds period = Ok dt -> P s ->
  exists t s', main_loop step actions period l s = (t, Running s') /\ P s'.
Proof.
  intros Hstep Hp. revert s. induction l as [|e l IH]; intros s Hs; [by exists [], s|]. cbn [main_loop].
  destruct (Hstep e s Hs) as (s1 & o & -> & Hs1). destruct (IH s1 Hs1) as (t & s' & Hl & Hs').
  destruct o as [o|]; cbn; rewrite ?Hp; cbn; rewrite Hl; by eexists _, _.
Qed.

Lemma main_loop_app l1 l2 s t s1 :
  main_loop step actions period l1 s = (t, Running s1) ->
  main_loop step actions period (l1 ++ l2) s =
    (t ++ (main_loop step actions period l2 s1).1, (main_loop step actions period l2 s1).2).
Proof.
  revert s t. induction l1 as [|e l1 IH]; intros s t; cbn [main_loop app].
  { intros [= <- <-]. by destruct (main_loop _ _ _ l2 s). }
  intros H. apply start_bind_running in H as (t1 & t2 & [s2 o] & [H1 ->]%run_running & H & ->).
  apply start_bind_running in H as (t3 & t4 & [] & H3 & H & ->). injection H3 as <-.
  apply start_bind_running in H as (t5 & t6 & z & [H5 ->]%run_running & H & ->).
  rewrite H1. cbn [run mbind start_bind act app]. rewrite H5. cbn [run mbind start_bind act app]. rewrite (IH _ _ H). cbn.
  by rewrite app_assoc.
Qed.
End loop.

(** The loops of [main] are the executions of the other files: what is proved of
    [follower_run], [leader_run] and [vr_run] holds of them. *)
Lemma follower_loop_run env tanh actions period l a t a' :
  main_loop (follower_event env tanh) actions period l a = (t, Running a') -> exists os, follower_run env tanh a l = Ok (a', os).
Proof.
  revert a t. induction l as [|e l IH]; intros a t; [intros [= <- <-]; by exists []|]. intros H.
  apply start_bind_running in H as (t1 & t2 & [s2 o] & [H1 ->]%run_running & H & ->).
  apply start_bind_running in H as (t3 & t4 & [] & _ & H & ->). apply start_bind_running in H as (t5 & t6 & z & _ & H & ->).
  destruct (IH _ _ H) as [os Ho]. cbn [follower_run]. rewrite H1. cbn [mbind outcome_bind]. rewrite Ho. by eexists.
Qed.

Lemma vr_loop_run env la ve ge pow actions period l a t a' :
  main_loop (vr_event env la ve ge pow) actions period l a = (t, Running a') -> exists os, vr_run env la ve ge pow l a = Ok (a', os).
Proof.
  revert a t. induction l as [|e l IH]; intros a t; [intros [= <- <-]; by exists []|]. intros H.
  apply start_bind_running in H as (t1 & t2 & [s2 o] & [H1 ->]%run_running & H & ->).
  apply start_bind_running in H as (t3 & t4 & [] & _ & H & ->). apply start_bind_running in H as (t5 & t6 & z & _ & H & ->).
  destruct (IH _ _ H) as [os Ho]. cbn [vr_run]. rewrite H1. cbn [mbind outcome_bind]. rewrite Ho. by eexists.
Qed.

Lemma leader_loop_run env tanh sin cos actions period l a t a' :
  main_loop (leader_step_event env tanh sin cos) actions period l a = (t, Running a') ->
  leader_run env tanh sin cos (Ok a) l = Ok a'.
Proof.
  revert a t. induction l as [|e l IH]; intros a t; [by intros [= <- <-]|]. intros H.
  apply start_bind_running in H as (t1 & t2 & [s2 o] & [H1 ->]%run_running & H & ->).
  apply start_bind_running in H as (t3 & t4 & [] & _ & H & ->). apply start_bind_running in H as (t5 & t6 & z & _ & H & ->).
  apply IH in H. unfold leader_step_event in H1. cbn [leader_run fold_left].
  destruct (leader_event env tanh sin cos e (Ok a)) as [st o'] eqn:E. apply bind_ok in H1 as (a1 & -> & [= <- <-]). exact H.
Qed.

(** ** The parts of [main] *)

Section exits.
Context (w : World).

(** A service that does not come up ends the program with 1. *)
Definition server_fails (vars : Vars) : Prop :=
  0 < port vars "control_port" /\ (server_start (wd_server w) (text vars "control_bind_ip") server_new).1 = false.

Definition telemetry_fails (vars : Vars) : Prop := flag vars "publish_telemetry" = true /\ wd_telemetry_socket w = false.

Definition receivers_fail (bind_ip : string) (right_port left_port : Z) : Prop :=
  receiver_up w RIGHT bind_ip right_port && receiver_up w LEFT bind_ip left_port = false.

Lemma control_server_result vars t r :
  control_server w vars = (t, r) -> t = [] /\ ((r = Running tt /\ ~ server_fails vars) \/ (r = ExitCode 1 /\ server_fails vars)).
Proof.
  unfold control_server, server_fails. destruct (Z.ltb_spec 0 (port vars "control_port")).
  - destruct (server_start _ _ _).1; intros [= <- <-]; (split; [done|]); [left|right]; split; try done. by intros [].
  - intros [= <- <-]. split; [done|]. left. split; [done|]. lia.
Qed.

(** The destructor of the command server does not return. *)
Definition server_hangs (vars : Vars) : bool := (0 <? port vars "control_port") && negb (wd_server_joins w).

Lemma server_destructor_exit {A} vars (m : Start A) t n : server_destructor w vars m = (t, ExitCode n) -> m = (t, ExitCode n).
Proof. unfold server_destructor. destruct m as [t' [a|k|e| |]]; try done. by destruct (_ && _). Qed.

Lemma server_destructor_running {A} vars (m : Start A) t a : server_destructor w vars m = (t, Running a) -> m = (t, Running a).
Proof. unfold server_destructor. destruct m as [t' [b|k|e| |]]; try done. by destruct (_ && _). Qed.

Lemma server_destructor_return {A} vars n :
  server_destructor w vars (exit_with n : Start A) = ([], if server_hangs vars then Blocked else ExitCode n).
Proof. unfold server_destructor, server_hangs. cbn. by destruct (_ && _). Qed.

Lemma telemetry_result vars t r :
  telemetry_publisher w vars = (t, r) ->
  t = [] /\ (((exists p, r = Running p) /\ ~ telemetry_fails vars) \/ (r = ExitCode 1 /\ telemetry_fails vars)).
Proof.
  unfold telemetry_publisher, telemetry_fails, publisher_start. destruct (flag vars "publish_telemetry").
  - destruct (wd_telemetry_socket w); intros [= <- <-]; (split; [done|]); [left|by right]. split; [by eexists|by intros []].
  - intros [= <- <-]. split; [done|]. left. split; [by eexists|by intros []].
Qed.

Lemma receivers_result ip pr pl t r :
  receivers w ip pr pl = (t, r) ->
  t = [] /\ ((r = Running tt /\ ~ receivers_fail ip pr pl) \/ (r = ExitCode 1 /\ receivers_fail ip pr pl)).
Proof.
  unfold receivers, receivers_fail. destruct (_ && _); intros [= <- <-]; (split; [done|]); [left|by right]. by split.
Qed.

Lemma first_move_exit cr cl t n : first_move w cr cl <> (t, ExitCode n).
Proof. apply run_exit. Qed.

(** The start-up of the arms: it exits as [leader_start] and [follower_start] do,
    and comes to its end with both arms on. *)
Definition exited (role : Role) (vars : Vars) (t : list SideAction) (n : Z) : Prop :=
  flag vars "mock" = false /\ start_ok (wd_start w) role (start_args vars) t (ExitCode n).

Definition arms_on (vars : Vars) (t : list SideAction) : Prop :=
  if flag vars "mock" then t = [] else forall side, enabled_after side t = true.

Lemma follower_arms_result vars t r :
  follower_arms w vars = (t, r) ->
  match r with Running _ => arms_on vars t | ExitCode n => exited ROLE_FOLLOWER vars t n | _ => True end.
Proof.
  unfold follower_arms, arms_on, exited. destruct (flag vars "mock"); [by intros [= <- <-]|]. intros H. destruct r as [x|n|e| |]; try done.
  - apply start_bind_running in H as (t1 & t2 & [[cr cl] ff] & H1 & H & ->).
    apply start_bind_running in H as (t3 & t4 & [cr' cl'] & [_ ->]%run_running & H & ->). injection H as <- _.
    apply follower_start_ok in H1 as (Hr & Hl & _). rewrite app_nil_r. by intros [].
  - split; [done|]. apply start_bind_exit in H as [H|(t1 & t2 & [[cr cl] ff] & _ & H & ->)].
    + by apply follower_start_ok in H.
    + apply start_bind_exit in H as [H|(t3 & t4 & [cr' cl'] & _ & H & ->)]; [by apply first_move_exit in H|discriminate H].
Qed.

Lemma leader_arms_result vars bi t r :
  leader_arms w vars bi = (t, r) ->
  match r with Running _ => arms_on vars t | ExitCode n => exited ROLE_LEADER vars t n | _ => True end.
Proof.
  unfold leader_arms, arms_on, exited. destruct (flag vars "mock"); [by intros [= <- <-]|]. intros H. destruct r as [x|n|e| |]; try done.
  - apply start_bind_running in H as (t1 & t2 & [cr cl] & H1 & H & ->).
    apply start_bind_running in H as (t3 & t4 & [cr' cl'] & [_ ->]%run_running & H & ->). injection H as <- _.
    apply leader_start_ok in H1 as (Hr & Hl & _). rewrite app_nil_r. by intros [].
  - split; [done|]. apply start_bind_exit in H as [H|(t1 & t2 & [cr cl] & _ & H & ->)].
    + by apply leader_start_ok in H.
    + apply start_bind_exit in H as [H|(t3 & t4 & [cr' cl'] & _ & H & ->)]; [by apply first_move_exit in H|discriminate H].
Qed.

(** In mock mode no cycle touches an arm. *)
Lemma mock_cycle_actions env tanh e a a' o :
  fe_mock env = true -> follower_event env tanh e a = Ok (a', Some o) -> follower_actions o = [].
Proof.
  intros Hm. destruct e as [side now p|line| |k rr rl|i]; cbn [follower_event]; try done.
  { destruct (fa_moves a !! k); [|done]. by intros ([[? ?] ?] & _ & [=])%bind_ok. }
  destruct (fa_keep_running a); [|done]. intros ([a1 o1] & H & [= <- <-])%bind_ok. revert H.
  unfold follower_cycle, serve_recover, has_arms. rewrite Hm. cbn [negb andb].
  destruct (fa_recover_requested a); cbn [fst snd];
    (destruct (serve_finit _ _) as [a2 m2]; destruct (serve_fgoto _ _) as [a3 m3]; unfold serve_arms; rewrite Hm; cbn [negb andb];
     intros ([[a4 f] g] & [= <- <- <-] & H)%bind_ok; apply bind_ok in H as ([a5 d] & _ & H);
     apply bind_ok in H as ([a6 tel] & _ & [= <- <-]); done).
Qed.

Lemma mock_loop_actions env tanh period l a t a' :
  fe_mock env = true -> main_loop (follower_event env tanh) follower_actions period l a = (t, Running a') -> t = [].
Proof.
  intros Hm H. apply (main_loop_inv _ _ _ (fun _ => True) (fun t => t = [])) in H; [by apply H|..]; try done.
  - intros e s s' [o|] _ He; (split; [done|]); [by eapply mock_cycle_actions|done].
  - by intros t1 t2 -> ->.
Qed.

Lemma no_actions {S E O} (step : E -> S -> outcome (S * option O)) period l s t s' :
  main_loop step (fun _ => []) period l s = (t, Running s') -> t = [].
Proof.
  intros H. apply (main_loop_inv _ _ _ (fun _ => True) (fun t => t = [])) in H; [by apply H|..]; try done.
  - by intros e s1 s2 [o|].
  - by intros t1 t2 -> ->.
Qed.

(** ** Exit codes *)

(** [main] of the follower returns 0 with the motors off, or 1 before it touched
    them or as [follower_start] ended. *)
Definition follower_exit (args : list string) (t : list SideAction) (n : Z) : Prop :=
  (n = 0 /\ all_off t) \/
  (n = 1 /\ (t = [] \/ exists vars,
     parse_args (wd_stod w) (pr_options bimanual_follower) args (pr_defaults bimanual_follower) = Ok vars /\
     exited ROLE_FOLLOWER vars t 1)).

(** The leader also checks its services after the arms came up: if one fails, it
    returns 1 and leaves both arms on. *)
Definition leader_service_fails (vars : Vars) (bi : BilateralSettings) : Prop :=
  telemetry_fails vars \/ (bi_feedback_enabled bi = true /\ receivers_fail (bi_bind_ip bi) (bi_right_port bi) (bi_left_port bi)) \/
  server_fails vars.

Definition leader_exit (args : list string) (t : list SideAction) (n : Z) : Prop :=
  (n = 0 /\ all_off t) \/
  (n = 1 /\ (t = [] \/ exists vars,
     parse_args (wd_stod w) (pr_options bimanual_leader) args (pr_defaults bimanual_leader) = Ok vars /\
     (exited ROLE_LEADER vars t 1 \/
      exists bi, load_bilateral_settings (st_yaml (wd_start w)) "config/leader.yaml" = Ok bi /\
        arms_on vars t /\ leader_service_fails vars bi))).

(** The code a failing service returns. *)
Lemma service_exit (P : Prop) (t : list SideAction) n (r : StartResult unit) :
  t = [] /\ ((r = Running tt /\ ~ P) \/ (r = ExitCode 1 /\ P)) -> r = ExitCode n -> t = [] /\ n = 1 /\ P.
Proof. intros [-> [[-> _]|[-> HP]]] H; [done|]. injection H as <-. done. Qed.

Lemma telemetry_exit vars t n : telemetry_publisher w vars = (t, ExitCode n) -> t = [] /\ n = 1 /\ telemetry_fails vars.
Proof. intros [-> [[[? H] _]|[H HP]]]%telemetry_result; [done|]. injection H as ->. done. Qed.

(** What is known when the follower's loop is entered. *)
Lemma follower_init_result args t r :
  follower_init w args = (t, r) ->
  match r with
  | Running (vars, env, a) =>
      arms_on vars t /\ fe_mock env = flag vars "mock" /\ fa_moves a = [] /\
      parse_args (wd_stod w) (pr_options bimanual_follower) args (pr_defaults bimanual_follower) = Ok vars
  | ExitCode n => follower_exit args t n
  | _ => True
  end.
Proof.
  intros H. destruct r as [[[vars env] a]|n|e| |]; try done.
  - apply start_bind_running in H as (t1 & ? & v & [Hv ->]%run_running & H & ->).
    apply start_bind_running in H as (t2 & ? & ip & [_ ->]%require_running & H & ->).
    apply start_bind_running in H as (t3 & ? & u & [-> _]%control_server_result & H & ->).
    apply server_destructor_running in H.
    apply start_bind_running in H as (t4 & ? & u2 & [-> _]%receivers_result & H & ->).
    apply start_bind_running in H as (t5 & ? & pub & [-> _]%telemetry_result & H & ->).
    apply start_bind_running in H as (t6 & ? & fs & [_ ->]%run_running & H & ->).
    apply start_bind_running in H as (t7 & ? & [[cr cl] ff] & Ha%follower_arms_result & H & ->).
    injection H as <- <- <- <-. cbn [app]. rewrite app_nil_r. split_and!; [done|done| |done].
    unfold follower_new. by destruct (if fs_enabled fs then _ else _).
  - assert (Hnil : follower_exit args [] 1) by (right; split; [done|by left]).
    exits H t_v vars E; [by apply run_exit in H|]. apply run_running in E as [Hv ->].
    exits H t_ip ip E; [by apply require_exit in H as (_ & -> & ->)|]. apply require_running in E as [_ ->].
    exits H t_u u E; [apply control_server_result in H; by apply (service_exit _ _ n) in H as (-> & -> & _)|].
    apply control_server_result in E as [-> _]. apply server_destructor_exit in H.
    exits H t_u2 u2 E; [apply receivers_result in H; by apply (service_exit _ _ n) in H as (-> & -> & _)|].
    apply receivers_result in E as [-> _].
    exits H t_p pub E; [by apply telemetry_exit in H as (-> & -> & _)|]. apply telemetry_result in E as [-> _].
    exits H t_fs fs E; [by apply run_exit in H|]. apply run_running in E as [_ ->].
    exits H t_a arms Ea; [|by destruct arms as [[? ?] ?]].
    apply follower_arms_result in H. pose proof (proj2 H) as (Hn & _). subst n. right. split; [done|]. right. by exists vars.
Qed.

(** The last thing [main] does to the arms. *)
Lemma follower_turns_off tanh vars env period t1 l a0 t2 a :
  arms_on vars t1 -> fe_mock env = flag vars "mock" ->
  main_loop (follower_event env tanh) follower_actions period l a0 = (t2, Running a) ->
  all_off (t1 ++ t2 ++ (if flag vars "mock" then [] else both_off)).
Proof.
  intros Ea Hm El. unfold arms_on in Ea. destruct (flag vars "mock").
  - subst t1. apply mock_loop_actions in El as ->; [|exact Hm]. by intros [].
  - rewrite app_assoc. apply all_off_both.
Qed.

Lemma leader_turns_off vars t : arms_on vars t -> all_off (t ++ (if flag vars "mock" then [] else both_off)).
Proof. unfold arms_on. destruct (flag vars "mock"); [by intros -> []|]. intros _. apply all_off_both. Qed.

Lemma follower_main_exit tanh args events t n :
  follower_main w tanh args events = (t, ExitCode n) -> follower_exit args t n.
Proof.
  intros H. exits H t_i i Ei; [by apply follower_init_result in H|]. destruct i as [[vars env] a0].
  apply follower_init_result in Ei as (Ea & Hm & _ & _). exits H t_l a El; [by apply main_loop_no_exit in H|].
  unfold follower_end in H. destruct (fa_keep_running a); [discriminate H|].
  exits H t_u u E; [discriminate H|]. left. destruct (fa_moves a); [|discriminate H].
  apply server_destructor_exit in H. injection H as <- <-. split; [done|]. injection E as <-.
  rewrite app_nil_r. by eapply follower_turns_off.
Qed.

Lemma feedback_receivers_result bi t r :
  feedback_receivers w bi = (t, r) ->
  t = [] /\ (r = Running tt \/
    (r = ExitCode 1 /\ bi_feedback_enabled bi = true /\ receivers_fail (bi_bind_ip bi) (bi_right_port bi) (bi_left_port bi))).
Proof.
  unfold feedback_receivers. destruct (bi_feedback_enabled bi); [|by intros [= <- <-]; split; [|left]].
  intros [-> [[-> _]|[-> H]]]%receivers_result; (split; [done|]); [by left|by right].
Qed.

Lemma leader_init_result args t r :
  leader_init w args = (t, r) ->
  match r with
  | Running (vars, env, a) =>
      arms_on vars t /\ parse_args (wd_stod w) (pr_options bimanual_leader) args (pr_defaults bimanual_leader) = Ok vars
  | ExitCode n => leader_exit args t n
  | _ => True
  end.
Proof.
  intros H. destruct r as [[[vars env] a]|n|e| |]; try done.
  - apply start_bind_running in H as (t1 & ? & v & [Hv ->]%run_running & H & ->).
    apply start_bind_running in H as (t2 & ? & ip & [_ ->]%require_running & H & ->).
    apply start_bind_running in H as (t3 & ? & bi & [_ ->]%run_running & H & ->).
    apply start_bind_running in H as (t4 & ? & [cr cl] & Ha%leader_arms_result & H & ->).
    apply start_bind_running in H as (t5 & ? & pub & [-> _]%telemetry_result & H & ->).
    apply start_bind_running in H as (t6 & ? & a1 & [_ ->]%run_running & H & ->).
    apply start_bind_running in H as (t7 & ? & u & [-> _]%feedback_receivers_result & H & ->).
    apply start_bind_running in H as (t8 & ? & u2 & [-> _]%control_server_result & H & ->).
    injection H as <- <- <- <-. cbn [app]. by rewrite app_nil_r.
  - assert (Hnil : leader_exit args [] 1) by (right; split; [done|by left]).
    exits H t_v vars E; [by apply run_exit in H|]. apply run_running in E as [Hv ->].
    exits H t_ip ip E; [by apply require_exit in H as (_ & -> & ->)|]. apply require_running in E as [_ ->].
    exits H t_b bi E; [by apply run_exit in H|]. apply run_running in E as [Hbi ->].
    exits H t_arms arms Ea.
    { apply leader_arms_result in H. pose proof (proj2 H) as (Hn & _). subst n. right. split; [done|]. right.
      exists vars. split; [done|by left]. }
    destruct arms as [cr cl]. apply leader_arms_result in Ea.
    assert (Hlate : leader_service_fails vars bi -> leader_exit args t_arms 1).
    { intros Hs. right. split; [done|]. right. exists vars. split; [done|]. right. by exists bi. }
    cbn [app]. exits H t_pub pub E; [apply telemetry_exit in H as (-> & -> & Hs); rewrite app_nil_r; apply Hlate; by left|].
    apply telemetry_result in E as [-> _]. exits H t_a a E; [by apply run_exit in H|]. apply run_running in E as [_ ->].
    exits H t_fb u E.
    { apply feedback_receivers_result in H as [-> [[=]|([= ->] & Hs)]]. cbn [app]. rewrite app_nil_r. apply Hlate. right. by left. }
    apply feedback_receivers_result in E as [-> _]. exits H t_srv u2 E; [|discriminate H].
    apply control_server_result in H. apply (service_exit _ _ n) in H as (-> & -> & Hs); [|done]. cbn [app]. rewrite app_nil_r.
    apply Hlate. right. by right.
Qed.

Lemma leader_main_exit tanh sin cos args events t n :
  leader_main w tanh sin cos args events = (t, ExitCode n) -> leader_exit args t n.
Proof.
  intros H. exits H t_i i Ei; [by apply leader_init_result in H|]. destruct i as [[vars env] a0].
  apply leader_init_result in Ei as [Ei _]. exits H t_l a El; [by apply main_loop_no_exit in H|]. apply no_actions in El as ->.
  unfold leader_end in H. destruct (lf_keep_running (la_flags a)); [discriminate H|]. exits H t_u u E; [discriminate H|].
  apply server_destructor_exit in H. injection H as <- <-. injection E as <-. left. split; [done|]. cbn [app]. rewrite app_nil_r.
  by apply leader_turns_off.
Qed.

(** The single-arm programs: right arm only. *)
Lemma single_leader_start_exit urdf can hz t n : single_leader_start (wd_start w) urdf can hz = (t, ExitCode n) -> t = [] /\ n = 1.
Proof.
  unfold single_leader_start. destruct (String.eqb urdf ""); [by intros [= <- <-]|]. intros H.
  exits H t_r root E; [by apply run_exit in H|]. exits H t_p p E'; [by apply run_exit in H|].
  exits H t_m m Em; [|discriminate H]. exits H t_h hw Eh; [by apply run_exit in H|]. exits H t_a u Ea; discriminate H.
Qed.

Lemma single_follower_start_exit urdf can hz t n :
  single_follower_start (wd_start w) urdf can hz = (t, ExitCode n) -> t = [] /\ n = 1.
Proof.
  unfold single_follower_start. destruct (String.eqb urdf ""); [by intros [= <- <-]|]. intros H.
  exits H t_r root E; [by apply run_exit in H|]. exits H t_p p E'; [by apply run_exit in H|].
  exits H t_m m Em; [|discriminate H]. exits H t_h hw Eh; [by apply run_exit in H|]. exits H t_a u Ea; discriminate H.
Qed.

(** The right arm off, or nothing done. *)
Definition single_exit_ok (t : list SideAction) (n : Z) : Prop := (n = 0 /\ enabled_after RIGHT t = false) \/ (n = 1 /\ t = []).

Lemma right_off t : enabled_after RIGHT (t ++ [DisableAll RIGHT]) = false.
Proof. by rewrite enabled_after_app. Qed.

Lemma adjust_single_exit c t n : adjust_single w c <> (t, ExitCode n).
Proof. unfold adjust_single. intros H. exits H t_a mv E; [by apply run_exit in H|]. by destruct mv. Qed.

Lemma single_leader_main_exit tanh sin cos args events t n :
  single_leader_main w tanh sin cos args events = (t, ExitCode n) -> single_exit_ok t n.
Proof.
  intros H. exits H t_v vars E; [by apply run_exit in H|]. apply run_running in E as [_ ->].
  exits H t_c c Ec.
  { destruct (flag vars "mock"); [discriminate H|]. right.
    exits H t_s c Es; [by apply single_leader_start_exit in H as [-> ->]|].
    exits H t_a c' Ea; [by apply adjust_single_exit in H|discriminate H]. }
  cbv zeta in H. exits H t_l a El; [by apply main_loop_no_exit in H|]. apply no_actions in El as ->.
  destruct (sl_keep_running a); [discriminate H|]. exits H t_u u E; [discriminate H|].
  injection H as <- <-. injection E as <-. left. split; [done|]. cbn [app]. rewrite app_nil_r.
  destruct (flag vars "mock"); [by injection Ec as <- <-|apply right_off].
Qed.

Lemma single_follower_event_ok mock tanh e a a' o :
  (mock = false -> is_Some (sf_control a)) -> single_follower_event mock tanh e a = Ok (a', o) ->
  (mock = false -> is_Some (sf_control a')) /\
  (mock = true -> match o with Some o => side_actions RIGHT o | None => [] end = []).
Proof.
  intros Ha. destruct e as [now p| |now late m]; cbn [single_follower_event]; [by intros [= <- <-]..|].
  destruct (sf_keep_running a); [|by intros [= <- <-]]. intros ([a1 o1] & H & [= <- <-])%bind_ok. revert H.
  unfold single_follower_cycle. destruct mock.
  - by intros [= <- <-].
  - intros ([ctl out] & H & [= <- <-])%bind_ok. apply bind_ok in H as (c & _ & H). apply bind_ok in H as ([c' o'] & _ & [= <- <-]).
    by split.
Qed.

Lemma single_follower_main_exit tanh args events t n :
  single_follower_main w tanh args events = (t, ExitCode n) -> single_exit_ok t n.
Proof.
  intros H. exits H t_v vars E; [by apply run_exit in H|]. apply run_running in E as [_ ->].
  exits H t_r u E.
  { destruct (receiver_up w RIGHT "0.0.0.0" (port vars "port")); [discriminate H|]. injection H as <- <-. by right. }
  assert (t_r = []) as -> by (destruct (receiver_up w RIGHT "0.0.0.0" (port vars "port")); [by injection E as <-|discriminate E]).
  exits H t_c c Ec.
  { destruct (flag vars "mock"); [discriminate H|]. right.
    exits H t_s c Es; [by apply single_follower_start_exit in H as [-> ->]|].
    exits H t_a c' Ea; [by apply adjust_single_exit in H|discriminate H]. }
  exits H t_l a El; [by apply main_loop_no_exit in H|]. destruct (sf_keep_running a) eqn:Hk; [discriminate H|].
  exits H t_u u' E'; [discriminate H|]. injection H as <- <-. injection E' as <-. left. split; [done|]. cbn [app]. rewrite app_nil_r.
  apply (main_loop_inv _ _ _ (fun a => flag vars "mock" = false -> is_Some (sf_control a)) (fun t => flag vars "mock" = true -> t = []))
    in El as [Hc Ht].
  - unfold single_exit. destruct (flag vars "mock"); cbn [negb andb].
    + rewrite (Ht eq_refl). injection Ec as <- _. done.
    + rewrite bool_decide_eq_true_2 by by apply Hc. rewrite app_assoc. apply right_off.
  - intros e s s' o Hs He. by eapply single_follower_event_ok.
  - done.
  - intros l1 l2 H1 H2 Hm. by rewrite H1, H2.
  - intros Hm. rewrite Hm in Ec. cbn [sf_control single_follower_new].
    apply start_bind_running in Ec as (? & ? & c1 & _ & Ec & _). apply start_bind_running in Ec as (? & ? & c2 & _ & Ec & _).
    injection Ec as _ <-. by eexists.
Qed.
(** ** Shutting down *)

(** A last step without output, in a loop that is still running. *)
Lemma main_loop_snoc {S E O} (step : E -> S -> outcome (S * option O)) actions period l e s t s1 s2 :
  main_loop step actions period l s = (t, Running s1) -> step e s1 = Ok (s2, None) ->
  main_loop step actions period (l ++ [e]) s = (t, Running s2).
Proof.
  intros H He. rewrite (main_loop_app _ _ _ _ _ _ _ _ H). cbn [main_loop]. rewrite He. cbn. by rewrite app_nil_r.
Qed.

Lemma follower_shutdown_command env a : (handle_command (follower_handlers env) "shutdown" a).1 = set_running false a.
Proof. reflexivity. Qed.

(** How [main] goes on after its loop. *)
Definition return_of (vars : Vars) {A} : StartResult A := if server_hangs vars then Blocked else ExitCode 0.

Lemma follower_main_shutdown tanh args events e t a :
  follower_main w tanh args events = (t, Running a) -> e = FvSignal \/ e = FvCommand "shutdown" ->
  exists vars t', parse_args (wd_stod w) (pr_options bimanual_follower) args (pr_defaults bimanual_follower) = Ok vars /\
    follower_main w tanh args (events ++ [e]) = (t', match fa_moves a with [] => return_of vars | _ => Undefined end) /\ all_off t'.
Proof.
  intros H He. apply start_bind_running in H as (t1 & t2 & [[vars env] a0] & Hi & H & ->).
  apply start_bind_running in H as (t3 & t4 & a1 & Hl & H & ->). unfold follower_end in H.
  destruct (fa_keep_running a1);
    [|apply start_bind_running in H as (? & ? & u & _ & H & _); destruct (fa_moves a1); [by apply server_destructor_running in H|done]].
  injection H as <- <-. unfold follower_main. rewrite (bind_from _ _ _ _ Hi). exists vars.
  assert (Hs : exists a2, follower_event env tanh e a1 = Ok (a2, None) /\ fa_keep_running a2 = false /\ fa_moves a2 = fa_moves a1).
  { destruct He as [->| ->]; cbn [follower_event]; eexists; (split; [done|]); [done|]. by rewrite follower_shutdown_command. }
  destruct Hs as (a2 & Hs & Hk & Hm2). pose proof (main_loop_snoc _ follower_actions (d1 / num vars "rate_hz")%D _ _ _ _ _ _ Hl Hs) as Hl2.
  rewrite (bind_from _ _ _ _ Hl2). apply follower_init_result in Hi as (Ha & Hm & _ & Hv).
  unfold follower_end. rewrite Hk, Hm2. eexists. split; [exact Hv|]. split.
  - cbn [fst snd]. rewrite act_bind, server_destructor_return. cbn [fst snd]. f_equal. by destruct (fa_moves a1).
  - assert (Hno : forall m : Start FollowerApp, m.1 = [] -> all_off (t1 ++ t3 ++ (if flag vars "mock" then [] else both_off) ++ m.1)).
    { intros m ->. rewrite app_nil_r. by eapply follower_turns_off. }
    apply Hno. by destruct (fa_moves a1).
Qed.
Lemma leader_shutdown_command env os now line a :
  line = "shutdown" \/ line = "estop" ->
  exists a', (handle_command (leader_handlers env os now) line (Ok a)).1 = Ok a' /\ lf_keep_running (la_flags a') = false.
Proof. intros [->| ->]; eexists; split; reflexivity. Qed.

Lemma leader_main_shutdown tanh sin cos args events e t a :
  leader_main w tanh sin cos args events = (t, Running a) ->
  e = EvSignal \/ (exists os now line, e = EvCommand os now line /\ (line = "shutdown" \/ line = "estop")) ->
  exists vars t', parse_args (wd_stod w) (pr_options bimanual_leader) args (pr_defaults bimanual_leader) = Ok vars /\
    leader_main w tanh sin cos args (events ++ [e]) = (t', return_of vars) /\ all_off t'.
Proof.
  intros H He. apply start_bind_running in H as (t1 & t2 & [[vars env] a0] & Hi & H & ->).
  apply start_bind_running in H as (t3 & t4 & a1 & Hl & H & ->). unfold leader_end in H.
  destruct (lf_keep_running (la_flags a1));
    [|apply start_bind_running in H as (? & ? & u & _ & H & _); by apply server_destructor_running in H].
  injection H as <- <-. unfold leader_main. rewrite (bind_from _ _ _ _ Hi). exists vars.
  assert (Hs : exists a2, leader_step_event env tanh sin cos e a1 = Ok (a2, None) /\ lf_keep_running (la_flags a2) = false).
  { unfold leader_step_event. destruct He as [->|(os & now & line & -> & Hline)]; cbn [leader_event].
    - by eexists.
    - destruct (leader_shutdown_command env os now line a1 Hline) as (a2 & -> & Hk). by exists a2. }
  destruct Hs as (a2 & Hs & Hk). rewrite (bind_from _ _ _ _ (main_loop_snoc _ _ _ _ _ _ _ _ _ Hl Hs)).
  pose proof (no_actions _ _ _ _ _ _ Hl) as ->. apply leader_init_result in Hi as [Ha Hv].
  unfold leader_end. rewrite Hk. eexists. split; [exact Hv|]. split.
  - cbn [fst snd]. by rewrite act_bind, server_destructor_return.
  - cbn [fst snd app]. rewrite ?app_nil_r. by apply leader_turns_off.
Qed.

(** ** The VR leader *)

(** What the VR leader relies on in Pinocchio and Eigen. *)
Record libraries_ok (ve : EigenVec) (ge : EigenGeometry) : Prop := {
  lo_model path pin : wd_pinocchio w path = Ok pin -> model_ok pin;
  lo_translation path pin p : wd_pinocchio w path = Ok pin -> length (pin_translation pin p) = 3%nat;
  lo_joints path pin names ids : wd_pinocchio w path = Ok pin -> NoDup names -> ik_joints pin names = Ok ids -> joints_ok pin ids;
  lo_scale v s : length (v_scale ve v s) = length v;
  lo_mapped m s v : matrix3 m -> length s = 3%nat -> length v = 3%nat -> length (m_vec ve m (v_cwise ge s v)) = 3%nat;
}.

Lemma vr_config_of_shaped vars args c : vr_config_of w vars args = Ok c -> config_shaped c.
Proof.
  unfold vr_config_of. intros (c0 & Hl & H)%bind_ok. cbv zeta in H. apply bind_ok in H as (c1 & Hs & [= <-]).
  apply apply_mode_flags_shaped. apply (apply_sets_shaped _ _ _ _ Hs). apply load_config_shaped in Hl. by destruct Hl.
Qed.

Lemma vr_side_joints env pin ee n x s :
  (forall ids, ik_joints pin (joint_names n) = Ok ids -> joints_ok pin ids) ->
  vr_side_new env pin ee n x = Ok s -> joints_ok pin (ik_joint_ids (vr_ik s)).
Proof.
  intros Hj. unfold vr_side_new, ik_new. destruct (pin_frame_id _ _); [|done].
  intros (k & (js & Hjs & [= <-])%bind_ok & [= <-])%bind_ok. by eapply Hj.
Qed.

Lemma vr_init_ok ve ge args t vars env a :
  libraries_ok ve ge -> vr_init w args = (t, Running (vars, env, a)) -> t = [] /\ vr_env_ok env ve ge /\ vr_ok env a.
Proof.
  intros Hlib H.
  apply start_bind_running in H as (t1 & ? & v & [_ ->]%run_running & H & ->).
  apply start_bind_running in H as (t2 & ? & cfg & [Hcfg%vr_config_of_shaped ->]%run_running & H & ->).
  apply start_bind_running in H as (t3 & ? & u & Hu & H & ->).
  assert (t3 = []) as -> by (by destruct (negb _ && negb _); injection Hu).
  apply start_bind_running in H as (t4 & ? & pr & [Hpr ->]%run_running & H & ->).
  apply start_bind_running in H as (t5 & ? & k & [_ ->]%run_running & H & ->).
  apply start_bind_running in H as (t6 & ? & pl & [Hpl ->]%run_running & H & ->). cbv zeta in H.
  apply start_bind_running in H as (t7 & ? & a1 & [Ha ->]%run_running & H & ->). injection H as <- <- <- <-.
  split; [done|]. set (env := mkVrEnv _ _ _ _ _ _ _) in *.
  assert (He : vr_env_ok env ve ge).
  { destruct Hlib as [L1 L2 L3 L4 L5], Hcfg as [C1 C2 C3 C4 C5 C6 C7]. constructor.
    - intros []; [exact (L1 _ _ Hpr)|exact (L1 _ _ Hpl)].
    - intros [] p; [exact (L2 _ _ p Hpr)|exact (L2 _ _ p Hpl)].
    - exact L4.
    - intros m v0 [->| ->] Hv; by apply L5.
    - intros []; cbn [max_steps ve_cfg env]; unfold max_steps; lia. }
  split; [done|]. apply vr_new_ok; [done|]. unfold vr_new in Ha.
  apply bind_ok in Ha as (r & Hr & Ha). apply bind_ok in Ha as (l & Hl & [= <-]).
  assert (Hd : forall side, side = "right" \/ side = "left" -> NoDup (joint_names side)).
  { intros side [->| ->]; apply (bool_decide_unpack _); vm_compute; exact I. }
  intros []; [eapply vr_side_joints; [|exact Hr]|eapply vr_side_joints; [|exact Hl]]; intros ids.
  - apply (lo_joints _ _ Hlib _ _ _ _ Hpr), Hd. by left.
  - apply (lo_joints _ _ Hlib _ _ _ _ Hpl), Hd. by right.
Qed.

Lemma vr_init_running args t vars env a : vr_init w args = (t, Running (vars, env, a)) -> va_keep_running a = true.
Proof.
  intros H.
  apply start_bind_running in H as (? & ? & v & _ & H & _). apply start_bind_running in H as (? & ? & cfg & _ & H & _).
  apply start_bind_running in H as (? & ? & u & _ & H & _). apply start_bind_running in H as (? & ? & pr & _ & H & _).
  apply start_bind_running in H as (? & ? & k & _ & H & _). apply start_bind_running in H as (? & ? & pl & _ & H & _).
  cbv zeta in H. apply start_bind_running in H as (? & ? & a1 & [Ha _]%run_running & H & _). injection H as _ _ <- <-.
  unfold vr_new in Ha. apply bind_ok in Ha as (r & _ & Ha). by apply bind_ok in Ha as (l & _ & [= <-]).
Qed.

(** A period that cannot be converted ends the first cycle. *)
Lemma vr_loop_undefined env la ve ge pow period before i after a :
  (forall e s, vr_ok env s -> exists s' o, vr_event env la ve ge pow e s = Ok (s', o) /\ vr_ok env s') ->
  ns_of_seconds period = Undef -> Forall (fun e => is_vr_cycle e = false /\ e <> EvSigint) before ->
  vr_ok env a -> va_keep_running a = true ->
  main_loop (vr_event env la ve ge pow) (fun _ => []) period (before ++ EvVrCycle i :: after) a = ([], Undefined).
Proof.
  intros Htotal Hp Hb. revert a. induction Hb as [|e l [He Hs] _ IH]; intros a Ha Hk; cbn [app main_loop].
  - destruct (Htotal (EvVrCycle i) a Ha) as (a' & o & Hc & _). rewrite Hc. cbn [vr_event] in Hc. rewrite Hk in Hc.
    apply bind_ok in Hc as ([a1 o1] & _ & [= <- <-]). cbn. by rewrite Hp.
  - destruct (Htotal e a Ha) as (a' & o & Hc & Ha'). rewrite Hc.
    assert (Hka : o = None /\ va_keep_running a' = va_keep_running a).
    { destruct e; try done; injection Hc as <- <-; (split; [done|]).
      - unfold vr_callback. case_decide; [done|]. cbn [fst]. by destruct (_ && _).
      - unfold tel_callback. case_decide; [|done]. by destruct (tm_magic _ =? _). }
    destruct Hka as [-> Hka]. cbn. rewrite IH by (done || congruence). done.
Qed.
End exits.

(** ** Properties *)

(** C12: What the exit codes say about the motors. When [main] of a bimanual program
    returns 0, both arms are off; when one of a single-arm program does, its arm
    is. The follower returns 1 either before it touched an arm or because the
    start-up of the arms failed ([startup_outcomes] says what that leaves on).
    The leader also returns 1 when its telemetry socket, its feedback receivers or
    its control server do not come up; it tries these after the arms, and returns
    with both arms enabled. *)
Theorem exit_codes (w : World) (tanh sin cos : double -> double) (args : list string) (t : list SideAction) (n : Z) :
  (forall events, follower_main w tanh args events = (t, ExitCode n) -> follower_exit w args t n) /\
  (forall events, leader_main w tanh sin cos args events = (t, ExitCode n) -> leader_exit w args t n) /\
  (forall events, single_leader_main w tanh sin cos args events = (t, ExitCode n) -> single_exit_ok t n) /\
  (forall events, single_follower_main w tanh args events = (t, ExitCode n) -> single_exit_ok t n).
Proof.
  split_and!; intros events.
  - apply follower_main_exit.
  - apply leader_main_exit.
  - apply single_leader_main_exit.
  - apply single_follower_main_exit.
Qed.

(** C14: How the bimanual programs stop. Wherever the follower is in its loop, SIGINT
    (handled between two steps of the threads; inside a message or a safety update it
    deadlocks, [deadlock_needs_signal]) or the command [shutdown] ends the loop, and
    [main] switches the motors off. What then happens: if a pose move is still running
    in its detached thread, [main] deletes the controllers it uses, which is
    undefined; otherwise [main] returns 0, except when the program has a command server
    whose thread is not released by [stop] (a client that sends nothing holds it,
    [server_stops]): then [main] waits in the server's destructor for ever. The same
    holds of the leader on SIGINT, [shutdown] and [estop]; it has no detached moves. *)
Theorem shutdown_stops (w : World) (tanh sin cos : double -> double) (args : list string) (t : list SideAction) :
  (forall events e a, follower_main w tanh args events = (t, Running a) ->
     e = FvSignal \/ e = FvCommand "shutdown" ->
     exists vars t', parse_args (wd_stod w) (pr_options bimanual_follower) args (pr_defaults bimanual_follower) = Ok vars /\
       follower_main w tanh args (events ++ [e]) =
         (t', match fa_moves a with
              | [] => if (0 <? port vars "control_port") && negb (wd_server_joins w) then Blocked else ExitCode 0
              | _ => Undefined
              end) /\
       all_off t') /\
  (forall events e a, leader_main w tanh sin cos args events = (t, Running a) ->
     e = EvSignal \/ (exists os now line, e = EvCommand os now line /\ (line = "shutdown" \/ line = "estop")) ->
     exists vars t', parse_args (wd_stod w) (pr_options bimanual_leader) args (pr_defaults bimanual_leader) = Ok vars /\
       leader_main w tanh sin cos args (events ++ [e]) =
         (t', if (0 <? port vars "control_port") && negb (wd_server_joins w) then Blocked else ExitCode 0) /\
       all_off t').
Proof.
  split; intros events e a H He.
  - exact (follower_main_shutdown _ _ _ _ _ _ _ H He).
  - exact (leader_main_shutdown _ _ _ _ _ _ _ _ _ H He).
Qed.

(** C36: When the VR leader can fail once its loop is entered: only through a loop
    period that is no clock duration. For every command line, configuration file and
    pair of robot models with which [main] reaches the loop: if the nanoseconds of
    the period [1 / rate_hz] fit 64 bits, every sequence of VR datagrams, telemetry
    datagrams (of any size and content), signals and cycles runs to its end: no
    exception, no access out of range, all poses and targets keep their dimensions,
    and [main] returns 0 as soon as the program has stopped running. If they do not
    ([--rate-hz 0]), the conversion at the end of the first cycle is undefined,
    whatever came before that cycle and would come after it. *)
Theorem vr_program_total (w : World) (la : EigenOps) (ve : EigenVec) (ge : EigenGeometry)
    (pow : double -> double -> double) (args : list string)
    (t : list SideAction) (vars : Vars) (env : VrEnv) (a0 : VrApp) :
  libraries_ok w ve ge -> vr_init w args = (t, Running (vars, env, a0)) ->
  match ns_of_seconds (d1 / num vars "rate_hz")%D with
  | Ok _ =>
      forall events, exists a, vr_ok env a /\
        vr_main w la ve ge pow args events = ([], if va_keep_running a then Running a else ExitCode 0)
  | _ =>
      forall before i after, Forall (fun e => is_vr_cycle e = false /\ e <> EvSigint) before ->
        vr_main w la ve ge pow args (before ++ EvVrCycle i :: after) = ([], Undefined)
  end.
Proof.
  intros Hlib Hi. destruct (vr_init_ok _ _ _ _ _ _ _ _ Hlib Hi) as (-> & He & Ha).
  assert (Htotal : forall e s, vr_ok env s -> exists s' o, vr_event env la ve ge pow e s = Ok (s', o) /\ vr_ok env s').
  { intros e s Hs. destruct (vr_event_ok env la ve ge pow e s He Hs) as (s' & o & H & Hs' & _). by exists s', o. }
  destruct (ns_of_seconds _) as [dt|what|] eqn:Hdt.
  - intros events.
    destruct (main_loop_total (vr_event env la ve ge pow) (fun _ => []) (d1 / num vars "rate_hz")%D (vr_ok env) events a0 dt)
      as (t & a & Hl & Hok); [done..|].
    pose proof (no_actions _ _ _ _ _ _ Hl) as ->. exists a. split; [done|].
    unfold vr_main. rewrite (bind_from _ _ _ _ Hi), (bind_from _ _ _ _ Hl). by destruct (va_keep_running a).
  - exfalso. unfold ns_of_seconds in Hdt. by repeat case_match.
  - intros before i after Hb. unfold vr_main. rewrite (bind_from _ _ _ _ Hi).
    assert (Hk : va_keep_running a0 = true) by by eapply vr_init_running.
    by rewrite (vr_loop_undefined _ _ _ _ _ _ _ _ _ _ Htotal Hdt Hb Ha Hk).
Qed.

(** *** A world to run in *)

Definition world_with (server_joins telemetry_ok : bool) : World :=
  mkWorld (test_start true) (fun _ => Throw "stod") (mkOs (fun _ => None) (fun _ => "") None (fun _ => None) (fun _ => inl "")
    (inl "") (fun _ => false) (fun _ => None) (fun _ => false))
    (fun _ => socket_os_ok) (mkServerOs true (fun _ => true) true true) server_joins telemetry_ok 0 teleop_zero
    (fun path => Ok (test_vr_pin (if String.eqb path "urdf/openarm_right.urdf" then "right" else "left"))) (fun _ => true)
    (fun _ => test_motors) (fun _ => test_motors).

Definition test_world : bool -> World := world_with true.

(** The telemetry socket of the leader fails: both arms stay on. *)
Lemma exit_codes_witness :
  exists t, leader_main (test_world false) id id id ["--publish-telemetry"] [] = (t, ExitCode 1) /\
    (forall side, enabled_after side t = true) /\
    leader_exit (test_world false) ["--publish-telemetry"] t 1.
Proof.
  assert (H : exists t, leader_main (test_world false) id id id ["--publish-telemetry"] [] = (t, ExitCode 1) /\
    enabled_after RIGHT t && enabled_after LEFT t = true) by (eexists; split; vm_compute; reflexivity).
  destruct H as (t & Ht & He). exists t. apply andb_true_iff in He as [Hr Hl].
  split; [exact Ht|]. split; [intros []; [exact Hr|exact Hl]|].
  exact (proj1 (proj2 (exit_codes (test_world false) id id id ["--publish-telemetry"] t 1)) [] Ht).
Defined.

(** A client that sends nothing keeps the follower from returning after an estop and
    SIGINT; the motors are off. *)
Lemma shutdown_stops_witness :
  exists t t', follower_main (world_with false true) id ["--mock"; "--control-port"; "7000"] [FvCommand "estop"] = (t, t'.2) /\
    follower_main (world_with false true) id ["--mock"; "--control-port"; "7000"] [FvCommand "estop"; FvSignal] = (t'.1, Blocked) /\
    all_off t'.1.
Proof.
  set (args := ["--mock"; "--control-port"; "7000"]).
  assert (H : exists t a, follower_main (world_with false true) id args [FvCommand "estop"] = (t, Running a) /\ fa_moves a = [] /\
    (0 <? port match parse_args (wd_stod (world_with false true)) (pr_options bimanual_follower) args (pr_defaults bimanual_follower)
               with Ok vars => vars | _ => ∅ end "control_port") = true).
  { do 2 eexists. split; [vm_compute; reflexivity|]. split; vm_compute; reflexivity. }
  destruct H as (t & a & Ht & Hm & Hp).
  destruct (proj1 (shutdown_stops (world_with false true) id id id args t) [FvCommand "estop"] FvSignal a Ht (or_introl eq_refl))
    as (vars & t' & Hv & Hr & Ho).
  rewrite Hv in Hp. cbv iota in Hp. rewrite Hm, Hp in Hr. exists t, (t', Running a). split; [exact Ht|]. split; [exact Hr|exact Ho].
Defined.

(** *** The test libraries keep what is asked of them *)

Lemma test_joints side names ids :
  NoDup names -> ik_joints (test_vr_pin side) names = Ok ids -> joints_ok (test_vr_pin side) ids.
Proof.
  intros Hn Hi.
  assert (H : Forall2 (fun n id => exists x, list_find (n =.) (joint_names side) = Some (id, x)) names ids).
  { revert ids Hi. clear Hn. induction names as [|n names IH]; intros ids; cbn [ik_joints]; [by intros [= <-]; constructor|].
    cbn [pin_joint_id test_vr_pin]. destruct (list_find (n =.) (joint_names side)) as [[id x]|] eqn:E; [|done].
    change (fst <$> Some (id, x)) with (Some id). cbv iota. intros (js & Hjs & [= <-])%bind_ok.
    constructor; [by exists x|by apply IH]. }
  clear Hi. split.
  - cbn [pin_idx_q test_vr_pin]. rewrite map_id. revert Hn. induction H as [|n id names ids (x & Hx) H IH]; [constructor|].
    intros [Hn1 Hn2]%NoDup_cons. apply NoDup_cons. split; [|by apply IH]. intros Hin. apply Hn1.
    apply list_elem_of_lookup in Hin as [i Hin]. destruct (Forall2_lookup_r _ _ _ _ _ H Hin) as (n' & Hn' & x' & Hx').
    apply list_find_Some in Hx as (Hx & -> & _). apply list_find_Some in Hx' as (Hx' & -> & _).
    rewrite Hx in Hx'. injection Hx' as ->. by eapply list_elem_of_lookup_2.
  - apply Forall_forall. intros id Hin. apply list_elem_of_lookup in Hin as [i Hin].
    destruct (Forall2_lookup_r _ _ _ _ _ H Hin) as (n' & _ & x' & Hx').
    apply list_find_Some in Hx' as (Hx' & _ & _). apply lookup_lt_Some in Hx'. exact Hx'.
Qed.

Lemma test_libraries_ok : libraries_ok (test_world true) test_vr_ve test_geometry.
Proof.
  assert (Hp : forall path pin, wd_pinocchio (test_world true) path = Ok pin -> exists side, pin = test_vr_pin side).
  { intros path pin [= <-]. by eexists. }
  constructor.
  - intros path pin (side & ->)%Hp. split; [done|]. split; [done|]. split; [|done]. intros i lo up Hlo Hup.
    apply lookup_replicate in Hlo as [-> _]. apply lookup_replicate in Hup as [-> _]. done.
  - by intros path pin p (side & ->)%Hp.
  - intros path pin names ids (side & ->)%Hp. apply test_joints.
  - done.
  - intros m s v _ Hs Hv. change (length (zip_with dmul s v) = 3%nat). rewrite length_zip_with, Hs, Hv. done.
Qed.

Lemma vr_program_total_witness :
  exists env a, vr_ok env a /\
    vr_main (test_world true) test_la test_vr_ve test_geometry (fun x _ => x) []
      [EvTelemetry 8 [1; 2; 3]; EvVrCycle test_vr_input; EvSigint] =
      ([], if va_keep_running a then Running a else ExitCode 0).
Proof.
  assert (H : match vr_init (test_world true) [] with
              | ([], Running (vars, env, a0)) => match ns_of_seconds (d1 / num vars "rate_hz")%D with Ok _ => true | _ => false end
              | _ => false
              end = true) by (vm_compute; reflexivity).
  destruct (vr_init (test_world true) []) as [[|] [[[vars env] a0]| | | |]] eqn:Hi; try discriminate H.
  pose proof (vr_program_total (test_world true) test_la test_vr_ve test_geometry (fun x _ => x) []
    [] vars env a0 test_libraries_ok Hi) as Ht.
  destruct (ns_of_seconds (d1 / num vars "rate_hz")%D) as [dt| |]; try discriminate H. exists env.
  exact (Ht [EvTelemetry 8 [1; 2; 3]; EvVrCycle test_vr_input; EvSigint]).
Defined.
