(* ===== verification/Workers.v ===== *)
(** * Workers: threads that run until a flag is lowered

    The receivers, the command server and the periodic timers are objects that own
    one thread: [start] raises a flag and creates it, the thread looks at the flag
    once per round, and [stop] lowers the flag and joins. A [Worker] is such an
    object, its thread split where it calls the operating system or a callback;
    [exec] interleaves the thread, the owner's calls and everything else. The laws
    [WorkerLaws] are what the loop has to provide; [stop_is_quiet] and
    [stop_comes_back] are what the owner gets. *)

From S2P Require Import Prelude.

#[local] Open Scope nat_scope.

(** ** Objects with a thread *)

Record Worker := mkWorker {
  w_pc : Type;                 (* where the thread is *)
  w_shared : Type;             (* the object and what its callbacks use *)
  w_event : Type;              (* what a call of the thread reports *)
  w_outside : Type;            (* what others do to the shared state *)
  w_config : Type;             (* what the calls of [start] report *)
  w_out : Type;                (* what the thread does that others notice *)
  entry : w_pc;
  ended : w_pc -> bool;
  work : w_event -> w_pc -> w_shared -> option (w_pc * w_shared * list w_out);  (* [None]: it waits, or has ended *)
  outside : w_outside -> w_shared -> w_shared;
  running : w_shared -> bool;
  launch : w_config -> w_shared -> bool * w_shared;
  stop_needed : w_shared -> bool;
  halts : list (w_shared -> w_shared);   (* what [stop] does before it joins, in order *)
  joined : w_shared -> w_shared;         (* and after *)
}.

Section machine.
Context (W : Worker).

(** Where the owner is: outside its calls, without or with a thread, before the
    [k]-th action of [stop], or in the join. *)
Inductive Owner := Idle | Running | Halting (k : nat) | Joining.

Record WState := mkWState {
  ws_shared : w_shared W;
  ws_thread : option (w_pc W);
  ws_owner : Owner;
}.

Inductive Choice :=
| Start (c : w_config W)
| Stop
| Own                          (* the owner goes on in [stop] *)
| Work (e : w_event W)
| Outside (v : w_outside W).

Inductive Label := Started | Lowered | Stopped | Out (o : w_out W).

Definition start_call (c : w_config W) (x : WState) : WState * list Label :=
  match ws_owner x with
  | Idle =>
      let '(ok, s) := launch W c (ws_shared x) in
      if ok then (mkWState s (Some (entry W)) Running, [Started]) else (mkWState s None Idle, [])
  | _ => (x, [])
  end.

Definition stop_call (x : WState) : WState * list Label :=
  match ws_owner x with
  | Idle | Running =>
      if stop_needed W (ws_shared x) then (mkWState (ws_shared x) (ws_thread x) (Halting 0), []) else (x, [])
  | _ => (x, [])
  end.

Definition has_ended (t : option (w_pc W)) : bool :=
  match t with Some pc => ended W pc | None => true end.

Definition own_step (x : WState) : WState * list Label :=
  match ws_owner x with
  | Halting k =>
      match halts W !! k with
      | Some f => (mkWState (f (ws_shared x)) (ws_thread x) (Halting (S k)), if (k =? 0)%nat then [Lowered] else [])
      | None => (mkWState (ws_shared x) (ws_thread x) Joining, [])
      end
  | Joining =>
      if has_ended (ws_thread x) then (mkWState (joined W (ws_shared x)) None Idle, [Stopped]) else (x, [])
  | _ => (x, [])
  end.

Definition work_step (e : w_event W) (x : WState) : WState * list Label :=
  match ws_thread x with
  | Some pc =>
      match work W e pc (ws_shared x) with
      | Some (pc, s, o) => (mkWState s (Some pc) (ws_owner x), Out <$> o)
      | None => (x, [])
      end
  | None => (x, [])
  end.

(** A choice that is not possible changes nothing. *)
Definition step (c : Choice) (x : WState) : WState * list Label :=
  match c with
  | Start c => start_call c x
  | Stop => stop_call x
  | Own => own_step x
  | Work e => work_step e x
  | Outside v => (mkWState (outside W v (ws_shared x)) (ws_thread x) (ws_owner x), [])
  end.

Fixpoint exec (cs : list Choice) (x : WState) : WState * list Label :=
  match cs with
  | [] => (x, [])
  | c :: cs => let '(x, l) := step c x in let '(x, l') := exec cs x in (x, l ++ l')
  end.

(** The thread is at a call that does not come back in this state. *)
Definition stalled (e : w_event W) (x : WState) : bool :=
  match ws_thread x with
  | Some pc =>
      negb (ended W pc) && match work W e pc (ws_shared x) with None => true | Some _ => false end
  | None => false
  end.

(** Some turn of the thread is lost in a call that does not come back. *)
Fixpoint stalls (cs : list Choice) (x : WState) : bool :=
  match cs with
  | [] => false
  | c :: cs =>
      match c with Work e => stalled e x | _ => false end || stalls cs (step c x).1
  end.

Lemma exec_app cs cs' x :
  exec (cs ++ cs') x = let '(y, l) := exec cs x in let '(z, l') := exec cs' y in (z, l ++ l').
Proof.
  revert x. induction cs as [|c cs IH]; intros x; cbn [app exec]; [by destruct (exec cs' x)|].
  destruct (step c x) as [x1 l1]. rewrite IH. destruct (exec cs x1) as [x2 l2].
  destruct (exec cs' x2) as [x3 l3]. by rewrite app_assoc.
Qed.

Lemma exec_app_fst cs cs' x : (exec (cs ++ cs') x).1 = (exec cs' (exec cs x).1).1.
Proof. rewrite exec_app. destruct (exec cs x) as [y l]. cbn [fst]. by destruct (exec cs' y). Qed.

Lemma exec_app_snd cs cs' x : (exec (cs ++ cs') x).2 = (exec cs x).2 ++ (exec cs' (exec cs x).1).2.
Proof. rewrite exec_app. destruct (exec cs x) as [y l]. cbn [fst]. by destruct (exec cs' y). Qed.

Lemma stalls_app cs cs' x : stalls (cs ++ cs') x = stalls cs x || stalls cs' (exec cs x).1.
Proof.
  revert x. induction cs as [|c cs IH]; intros x; cbn [app stalls exec]; [done|].
  rewrite IH. destruct (step c x) as [x1 l1]. cbn [fst]. destruct (exec cs x1). by rewrite orb_assoc.
Qed.

(** ** What the owner relies on *)

(** What may be noticed of the thread: nothing, anything, or [n] more outputs. *)
Inductive Mode := Silent | Free | Left (n : nat).

(** A trace in which the thread does nothing without being started, and at most
    [burst] outputs after its flag has been lowered. *)
Fixpoint quiet (burst : nat) (m : Mode) (l : list Label) : bool :=
  match l with
  | [] => true
  | Started :: l => quiet burst Free l
  | Stopped :: l => quiet burst Silent l
  | Lowered :: l => quiet burst (match m with Silent => Silent | _ => Left burst end) l
  | Out _ :: l =>
      match m with
      | Silent | Left O => false
      | Free => quiet burst Free l
      | Left (S n) => quiet burst (Left n) l
      end
  end.

(** What the loop of the thread provides: it never raises or lowers its flag, and
    when the flag is down, each step brings it closer to its end. *)
Class WorkerLaws := mkLaws {
  ahead : w_pc W -> nat;         (* steps to the end, when the flag is down *)
  pending : w_pc W -> nat;       (* outputs among them *)
  lag : nat;
  burst : nat;
  ahead_lag pc : ahead pc <= lag;
  pending_burst pc : pending pc <= burst;
  work_running e pc s pc' s' o : work W e pc s = Some (pc', s', o) -> running W s' = running W s;
  work_ahead e pc s pc' s' o :
    running W s = false -> work W e pc s = Some (pc', s', o) ->
    ahead pc' < ahead pc /\ length o + pending pc' <= pending pc;
  ahead_ended pc : ahead pc = 0 <-> ended W pc = true;
  outside_running v s : running W (outside W v s) = running W s;
  launch_running c s ok s' : running W s = false -> launch W c s = (ok, s') -> running W s' = ok;
  halts_lower k f s : halts W !! k = Some f -> k = 0 \/ running W s = false -> running W (f s) = false;
  halts_some : 0 < length (halts W);
  joined_running s : running W (joined W s) = running W s;
}.
End machine.

Arguments Start {W} c.
Arguments Stop {W}.
Arguments Own {W}.
Arguments Work {W} e.
Arguments Outside {W} v.
Arguments Started {W}.
Arguments Lowered {W}.
Arguments Stopped {W}.
Arguments Out {W} o.
Arguments mkWState {W} _ _ _.
Arguments ws_shared {W} _.
Arguments ws_thread {W} _.
Arguments ws_owner {W} _.
Arguments exec {W} cs x.
Arguments stalls {W} cs x.
Arguments stalled {W} e x.
Arguments step {W} c x.
Arguments quiet {W} burst m l.
Arguments ahead {W _} _.
Arguments pending {W _} _.
Arguments lag W {_}.
Arguments burst W {_}.
Arguments ahead_lag {W _} pc.
Arguments pending_burst {W _} pc.
Arguments work_running {W _ e pc s pc' s' o} _.
Arguments work_ahead {W _ e pc s pc' s' o} _ _.
Arguments ahead_ended {W _} pc.
Arguments outside_running {W _} v s.
Arguments launch_running {W _ c s ok s'} _ _.
Arguments halts_lower {W _ k f s} _ _.
Arguments halts_some {W _}.
Arguments joined_running {W _} s.

(** ** The guarantees *)

Section guarantees.
Context {W : Worker} {HW : WorkerLaws W}.
#[local] Set Default Proof Using "W HW".
Implicit Types (c : Choice W) (x y : WState W) (cs : list (Choice W)).

(** The flag is raised exactly while the owner has a thread that it has not begun
    to stop. *)
Definition consistent x : Prop :=
  match ws_owner x with
  | Idle => ws_thread x = None /\ running W (ws_shared x) = false
  | Running => running W (ws_shared x) = true /\ ws_thread x <> None
  | Halting 0 => ws_thread x = None -> running W (ws_shared x) = false
  | Halting (S _) | Joining => running W (ws_shared x) = false
  end.

Definition mode x : Mode :=
  match ws_thread x with
  | None => Silent
  | Some pc => match ws_owner x with Running | Halting 0 => Free | _ => Left (pending pc) end
  end.

(** [m] allows at least what [m'] allows. *)
Definition allows (m m' : Mode) : Prop :=
  match m', m with
  | Silent, _ | _, Free => True
  | Left n, Left k => n <= k
  | _, _ => False
  end.

Lemma quiet_allows m m' l : allows m m' -> quiet (W:=W) (burst W) m' l = true -> quiet (burst W) m l = true.
Proof.
  revert m m'. induction l as [|[| | |o] l IH]; intros m m' Hm Hq; cbn [quiet] in *; try done.
  - eapply IH; [|exact Hq]. destruct m, m'; simpl in *; try done; lia.
  - destruct m' as [| |[|n']], m as [| |[|n]]; simpl in *; try done; try lia; try (eapply IH; [|exact Hq]; simpl; lia || done).
Qed.

Lemma quiet_outs n (o : list (w_out W)) l :
  quiet (burst W) (Left n) l = true -> quiet (burst W) (Left (length o + n)) ((Out <$> o) ++ l) = true.
Proof. induction o; simpl; auto. Qed.

Lemma quiet_outs_free (o : list (w_out W)) l :
  quiet (burst W) Free l = true -> quiet (burst W) Free ((Out <$> o) ++ l) = true.
Proof. induction o; simpl; auto. Qed.

(** One step keeps the object consistent, and what may follow its result quietly
    may follow the step. *)
Definition step_quiet x (r : WState W * list (Label W)) : Prop :=
  consistent r.1 /\ forall l, quiet (burst W) (mode r.1) l = true -> quiet (burst W) (mode x) (r.2 ++ l) = true.

Lemma start_quiet (c : w_config W) x : consistent x -> step_quiet x (start_call W c x).
Proof.
  destruct x as [s t []]; unfold start_call, step_quiet; cbn [ws_owner]; intros Hx; [|by split..].
  destruct Hx as [Ht Hs]; cbn [ws_thread ws_shared] in *. subst t.
  destruct (launch W c s) as [[] s'] eqn:E; apply (launch_running Hs) in E; by split.
Qed.

Lemma stop_quiet x : consistent x -> step_quiet x (stop_call W x).
Proof.
  destruct x as [s t w]; unfold stop_call, step_quiet; cbn [ws_owner ws_shared ws_thread]; intros Hx.
  destruct w.
  - destruct (stop_needed W s); [|by split].
    destruct Hx as [Ht Hs]; cbn [ws_thread ws_shared] in *. subst t.
    split; [intros _; exact Hs|done].
  - destruct (stop_needed W s); [|by split].
    split; [|done]. intros Ht. by destruct Hx as [_ []].
  - by split.
  - by split.
Qed.

Lemma own_quiet x : consistent x -> step_quiet x (own_step W x).
Proof.
  destruct x as [s t w]; unfold own_step, step_quiet; cbn [ws_owner ws_shared ws_thread]; intros Hx.
  destruct w as [| |k|]; [by split..| |].
  - destruct (halts W !! k) as [f|] eqn:Ek.
    + assert (Hf : running W (f s) = false).
      { eapply halts_lower; [exact Ek|]. destruct k; [by left|by right]. }
      split; [exact Hf|]. intros l. unfold mode; cbn [fst snd ws_thread ws_owner].
      destruct k as [|k]; destruct t as [pc|]; cbn [Nat.eqb app quiet]; intros Hl; try done.
      eapply quiet_allows; [|exact Hl]. apply pending_burst.
    + destruct k as [|k]; [|by split].
      exfalso. pose proof halts_some. destruct (halts W); simpl in *; [lia|done].
  - destruct (has_ended W t); [|by split]. split; [|done]. split; [done|]. cbn [fst ws_shared]. by rewrite joined_running.
Qed.

Lemma work_quiet e x : consistent x -> step_quiet x (work_step W e x).
Proof.
  destruct x as [s t w]; unfold work_step, step_quiet; cbn [ws_owner ws_shared ws_thread]; intros Hx.
  destruct t as [pc|]; [|by split]. destruct (work W e pc s) as [[[pc' s'] o]|] eqn:E; [|by split].
  pose proof (work_running E) as Hr. split.
  - destruct w as [| |[]|]; cbn in *; rewrite ?Hr; try done; destruct Hx; done.
  - intros l. unfold mode; cbn [fst snd ws_thread ws_owner]. destruct w as [| |[]|]; intros Hl.
    + by destruct Hx.
    + by apply quiet_outs_free.
    + by apply quiet_outs_free.
    + destruct (work_ahead Hx E) as [_ Hp]. eapply quiet_allows; [|apply quiet_outs, Hl]. exact Hp.
    + destruct (work_ahead Hx E) as [_ Hp]. eapply quiet_allows; [|apply quiet_outs, Hl]. exact Hp.
Qed.

Lemma step_is_quiet c x : consistent x -> step_quiet x (step c x).
Proof.
  destruct c as [c| | |e|v]; cbn [step].
  - apply start_quiet.
  - apply stop_quiet.
  - apply own_quiet.
  - apply work_quiet.
  - intros Hx. split; [|done]. destruct x as [s t [| |[]|]]; cbn in *; by rewrite outside_running.
Qed.

(** Under every schedule. *)
Lemma exec_quiet cs x : consistent x -> step_quiet x (exec cs x).
Proof.
  revert x. induction cs as [|c cs IH]; intros x Hx; cbn [exec]; [by split|].
  destruct (step_is_quiet c x Hx) as [H1 H2]. destruct (step c x) as [y l].
  destruct (IH y H1) as [H3 H4]. destruct (exec cs y) as [z l']. cbn [fst snd] in *.
  split; [exact H3|]. intros k Hk. cbn [fst snd] in *. rewrite <- app_assoc. auto.
Qed.

Lemma stop_is_quiet cs x : consistent x -> quiet (burst W) (mode x) (exec cs x).2 = true.
Proof. intros Hx. destruct (exec_quiet cs x Hx) as [_ H]. specialize (H []). rewrite app_nil_r in H. by apply H. Qed.

(** ** The join comes back *)

Definition is_own (c : Choice W) : bool := match c with Own => true | _ => false end.
Definition is_work (c : Choice W) : bool := match c with Work _ => true | _ => false end.
Definition is_start (c : Choice W) : bool := match c with Start _ => true | _ => false end.

Definition count (p : Choice W -> bool) cs : nat := length (filter (fun c => p c = true) cs).

(** [stop] has returned. *)
Definition stopped (l : list (Label W)) : Prop := Stopped ∈ l.

(** The owner is in [stop] and the flag is down. *)
Definition halting x : Prop :=
  match ws_owner x with Halting (S _) | Joining => True | _ => False end.

(** The part of [stop] before the join: a turn of the owner is one action, and
    nobody else moves it. *)
Lemma halt_progress k x c :
  ws_owner x = Halting k -> ws_owner (step c x).1 = if is_own c then (if decide (k < length (halts W)) then Halting (S k) else Joining) else Halting k.
Proof.
  destruct x as [s t w]; cbn [ws_owner]; intros ->. destruct c as [c| | |e|v]; cbn [step is_own]; try done.
  - unfold own_step; cbn [ws_owner]. destruct (halts W !! k) eqn:E.
    + apply lookup_lt_Some in E. by destruct (decide (k < length (halts W))).
    + apply lookup_ge_None in E. destruct (decide (k < length (halts W))); [lia|done].
  - unfold work_step; cbn [ws_thread ws_shared ws_owner]. destruct t as [pc|]; [|done].
    by destruct (work W e pc s) as [[[]]|].
Qed.

Lemma count_cons p c cs : count p (c :: cs) = (if p c then 1 else 0) + count p cs.
Proof. unfold count. rewrite filter_cons. by destruct (p c). Qed.

Lemma exec_cons c cs x :
  exec (c :: cs) x = ((exec cs (step c x).1).1, (step c x).2 ++ (exec cs (step c x).1).2).
Proof. cbn [exec]. destruct (step c x) as [y k]. cbn [fst snd]. by destruct (exec cs y). Qed.

(** Enough turns of the owner, and it has been in the join. *)
Lemma halt_reaches_join cs k x :
  ws_owner x = Halting k -> length (halts W) - k < count is_own cs ->
  exists cs1 cs2, cs = cs1 ++ cs2 /\ ws_owner (exec cs1 x).1 = Joining.
Proof.
  revert k x. induction cs as [|c cs IH]; intros k x Hk Hc; [unfold count in Hc; simpl in Hc; lia|].
  rewrite count_cons in *. pose proof (halt_progress k x c Hk) as Hs.
  destruct (is_own c); [destruct (decide (k < length (halts W)))|].
  - destruct (IH (S k) (step c x).1) as (cs1 & cs2 & -> & H1); [done|lia|].
    exists (c :: cs1), cs2. split; [done|]. by rewrite exec_cons.
  - exists [c], cs. split; [done|]. by rewrite exec_cons.
  - destruct (IH k (step c x).1) as (cs1 & cs2 & -> & H1); [done|lia|].
    exists (c :: cs1), cs2. split; [done|]. by rewrite exec_cons.
Qed.

(** Steps the thread still needs. *)
Definition left_over x : nat := match ws_thread x with Some pc => ahead pc | None => 0 end.

Lemma left_over_lag x : left_over x <= lag W.
Proof. unfold left_over. destruct (ws_thread x); [apply ahead_lag|lia]. Qed.

(** Nobody but the end of the thread takes the owner out of the join. *)
Lemma join_step c x :
  ws_owner x = Joining -> ws_owner (step c x).1 = Joining \/ stopped (step c x).2.
Proof.
  destruct x as [s t w]; cbn [ws_owner]; intros ->. destruct c as [c| | |e|v]; cbn [step]; try by left.
  - unfold own_step; cbn [ws_owner ws_thread]. destruct (has_ended W t); [right; apply list_elem_of_here|by left].
  - unfold work_step; cbn [ws_thread ws_shared ws_owner]. left. destruct t as [pc|]; [|done].
    by destruct (work W e pc s) as [[[]]|].
Qed.

(** In the join, a turn of the thread is progress unless it stalls. *)
Lemma join_progress c x :
  consistent x -> ws_owner x = Joining -> stalls [c] x = false -> ws_owner (step c x).1 = Joining ->
  left_over (step c x).1 <= left_over x - (if is_work c then 1 else 0).
Proof.
  destruct x as [s t w]; cbn [ws_owner]; intros Hx -> Hs. cbn [stalls] in Hs. rewrite orb_false_r in Hs.
  destruct c as [c| | |e|v]; cbn [step is_work]; intros Ho.
  - unfold start_call; cbn [ws_owner fst]. lia.
  - unfold stop_call; cbn [ws_owner fst]. lia.
  - unfold own_step in *; cbn [ws_owner ws_thread] in *. destruct (has_ended W t); [done|cbn [fst]; lia].
  - unfold work_step, stalled in *; cbn [ws_thread ws_shared ws_owner] in *.
    destruct t as [pc|]; [|cbn; lia].
    destruct (work W e pc s) as [[[pc' s'] o]|] eqn:E; cbn [fst]; unfold left_over; cbn [ws_thread].
    + destruct (work_ahead Hx E) as [Ha _]. lia.
    + destruct (ended W pc) eqn:Ee; [|done]. apply ahead_ended in Ee. lia.
  - cbn [fst]. unfold left_over; cbn [ws_thread]. lia.
Qed.

(** The owner stays in the join until [stop] returns. *)
Lemma join_stays cs x :
  consistent x -> ws_owner x = Joining -> stopped (exec cs x).2 \/ ws_owner (exec cs x).1 = Joining.
Proof.
  revert x. induction cs as [|c cs IH]; intros x Hx Ho; [by right|].
  rewrite exec_cons. cbn [fst snd]. unfold stopped in *. rewrite elem_of_app.
  destruct (join_step c x Ho) as [Ho'|Hr]; [|by left; left].
  destruct (IH (step c x).1) as [H|H]; [by apply step_is_quiet|done|by left; right|by right].
Qed.

Lemma stopped_app cs cs' x : stopped (exec cs x).2 -> stopped (exec (cs ++ cs') x).2.
Proof. unfold stopped. rewrite exec_app_snd, elem_of_app. by left. Qed.

(** After the turns of the owner up to the join, it is there or [stop] has returned. *)
Lemma join_or_stopped cs1 cs2 x :
  consistent x -> ws_owner x = Halting 0 -> length (halts W) < count is_own cs1 ->
  stopped (exec (cs1 ++ cs2) x).2 \/ ws_owner (exec (cs1 ++ cs2) x).1 = Joining.
Proof.
  intros Hx Ho H1. destruct (halt_reaches_join cs1 0 x Ho) as (cs & cs' & -> & Hj); [lia|].
  destruct (exec_quiet cs x Hx) as [Hc _]. rewrite <- app_assoc, exec_app_fst. unfold stopped.
  rewrite exec_app_snd, elem_of_app. destruct (join_stays (cs' ++ cs2) _ Hc Hj) as [Hr|Hj']; [left; by right|by right].
Qed.

(** In the join, enough turns of the thread that do not stall: [stop] has
    returned, or the thread has ended. *)
Lemma join_waits cs x :
  consistent x -> ws_owner x = Joining -> stalls cs x = false ->
  stopped (exec cs x).2 \/
  (ws_owner (exec cs x).1 = Joining /\ left_over (exec cs x).1 <= left_over x - count is_work cs).
Proof.
  revert x. induction cs as [|c cs IH]; intros x Hx Ho Hs; [right; split; [done|cbn; lia]|].
  cbn [stalls] in Hs. apply orb_false_iff in Hs as [H1 H2]. rewrite exec_cons, count_cons. cbn [fst snd].
  unfold stopped in *. rewrite elem_of_app.
  destruct (join_step c x Ho) as [Ho'|Hr]; [|by left; left].
  pose proof (join_progress c x Hx Ho) as Hl. cbn [stalls] in Hl. rewrite H1 in Hl. specialize (Hl eq_refl Ho').
  destruct (IH (step c x).1) as [H|[H3 H4]]; [by apply step_is_quiet|done|done|by left; right|].
  right. split; [done|lia].
Qed.

(** [stop] returns, under every schedule in which the owner gets its turns up to
    the join, and then the thread, as long as no turn of the thread is lost in a call
    that does not come back. *)
Lemma stop_comes_back cs1 cs2 x :
  consistent x -> ws_owner x = Halting 0 ->
  length (halts W) < count is_own cs1 -> lag W <= count is_work cs2 ->
  stalls cs2 (exec cs1 x).1 = false ->
  stopped (exec (cs1 ++ cs2 ++ [Own]) x).2.
Proof.
  intros Hx Ho H1 H2 Hs. rewrite app_assoc. destruct (exec_quiet cs1 x Hx) as [Hc _].
  destruct (join_or_stopped cs1 [] x Hx Ho H1) as [Hr|Hj]; rewrite app_nil_r in *; [by do 2 apply stopped_app|].
  destruct (join_waits cs2 _ Hc Hj Hs) as [Hr|[Ho' Hl]].
  { apply stopped_app. unfold stopped in *. rewrite exec_app_snd, elem_of_app. by right. }
  pose proof (left_over_lag (exec cs1 x).1) as Hlag. unfold stopped.
  rewrite exec_app_snd, exec_app_fst, elem_of_app. right.
  set (u := (exec cs2 _).1) in *. assert (H0 : left_over u = 0) by lia.
  assert (He : has_ended W (ws_thread u) = true).
  { unfold left_over in H0. destruct (ws_thread u) as [pc|]; [|done]. by apply ahead_ended. }
  cbn [exec step]. unfold own_step. rewrite Ho', He. apply list_elem_of_here.
Qed.

Lemma stalls_prefix cs x :
  stalls cs x = true -> exists cs1 e cs2, cs = cs1 ++ Work e :: cs2 /\ stalled e (exec cs1 x).1 = true.
Proof.
  revert x. induction cs as [|c cs IH]; intros x; cbn [stalls]; [done|]. intros [H|H]%orb_true_iff.
  - destruct c as [| | |e|]; try done. by exists [], e, cs.
  - destruct (IH _ H) as (cs1 & e & cs2 & -> & He). exists (c :: cs1), e, cs2. split; [done|]. by rewrite exec_cons.
Qed.

Lemma exec_invariant (J : WState W -> Prop) cs x :
  (forall c y, J y -> J (step c y).1) -> J x -> J (exec cs x).1.
Proof. intros Hs. revert x. induction cs as [|c cs IH]; intros x Hx; [done|]. rewrite exec_cons. by apply IH, Hs. Qed.

(** An invariant under which no turn is lost. *)
Lemma never_stalls (J : WState W -> Prop) cs x :
  (forall c y, J y -> J (step c y).1) -> (forall e y, J y -> stalled e y = false) -> J x -> stalls cs x = false.
Proof.
  intros Hstep Hok. revert x. induction cs as [|c cs IH]; intros x Hx; cbn [stalls]; [done|].
  rewrite (IH (step c x).1), orb_false_r by auto. destruct c; auto.
Qed.
End guarantees.
