(* ===== verification/WorkerThreads.v ===== *)
(** * WorkerThreads: the receiver and the periodic timer as workers

    [src/src/net/udp_receiver.cpp] and [src/src/periodic_timer_thread.hpp] as
    instances of [Worker]: their loops, split at the flag, the system calls and the
    callback, and their [start] and [stop]. *)

From S2P Require Import Prelude Float64 Crc32 Wire Packets PacketCodec Udp PeriodicTimer Workers.

Open Scope Z_scope.

(** ** UdpReceiver *)

Section receiver.
Context {St : Type}.
Context (callback : option (Z -> TeleopPacket -> St -> St)).
Context (raw_callback : option (Z -> list Z -> St -> St)).

(** The receive thread: at the loop condition, in [poll], in [recvfrom], with a
    datagram in the buffer, after the loop. *)
Inductive ReceivePc := RCheck | RPoll | RRecv | RCall (buffer : list Z) | REnd.

(** A call of the callback. *)
Inductive Delivery := RawDelivery (buffer : list Z) | PacketDelivery (packet : TeleopPacket).

(** What is done with a datagram: the counters, the callback. *)
Definition deliver (now : Z) (buffer : list Z) (r : UdpReceiver) (st : St) : UdpReceiver * St * list Delivery :=
  match raw_callback with
  | Some cb => (r, cb now buffer st, [RawDelivery buffer])
  | None =>
      match callback with
      | Some cb =>
          if decide (length buffer = wire_size TeleopPacket) then
            let '(ok, packet) := teleop_decode_and_validate (deserialize buffer) in
            if ok then (r, cb now packet st, [PacketDelivery packet]) else (count_invalid r, st, [])
          else (count_invalid r, st, [])
      | None => (r, st, [])
      end
  end.

(** A step of [receive_loop]. [poll] waits 10 ms at most and the socket does not
    block, so each call reports something. *)
Definition receive_work (e : Z * RecvEvent) (pc : ReceivePc) (s : UdpReceiver * St)
    : option (ReceivePc * (UdpReceiver * St) * list Delivery) :=
  let '(r, st) := s in
  let '(now, ev) := e in
  match pc with
  | RCheck => Some (if ur_running r then RPoll else REnd, s, [])
  | RPoll => Some (match ev with PollTimeout | PollError => RCheck | _ => RRecv end, s, [])
  | RRecv =>
      match ev with
      | Datagram bytes =>
          let buffer := take buffer_size bytes in
          if decide (length buffer = 0%nat) then Some (RCheck, s, [])
          else Some (RCall buffer, (count_received r, st), [])
      | _ => Some (RCheck, s, [])
      end
  | RCall buffer => let '(r, st, o) := deliver now buffer r st in Some (RCheck, (r, st), o)
  | REnd => None
  end.

Definition lower_receiver (r : UdpReceiver) : UdpReceiver :=
  mkUdpReceiver (ur_socket_open r) false (ur_received_count r) (ur_invalid_count r).

Definition receiver_worker : Worker := {|
  w_pc := ReceivePc;
  w_shared := UdpReceiver * St;
  w_event := Z * RecvEvent;
  w_outside := St -> St;
  w_config := unit;
  w_out := Delivery;
  entry := RCheck;
  ended := fun pc => match pc with REnd => true | _ => false end;
  work := receive_work;
  outside := fun f '(r, st) => (r, f st);
  running := fun s => ur_running s.1;
  launch := fun _ '(r, st) => let '(ok, r) := receiver_start r in (ok, (r, st));
  stop_needed := fun s => ur_running s.1;
  halts := [fun '(r, st) => (lower_receiver r, st)];
  joined := fun s => s;
|}.

Definition receive_ahead (pc : ReceivePc) : nat :=
  match pc with REnd => 0 | RCheck => 1 | RCall _ => 2 | RRecv => 3 | RPoll => 4 end.

Definition receive_pending (pc : ReceivePc) : nat :=
  match pc with REnd | RCheck => 0 | _ => 1 end.

Lemma deliver_running now buffer r st :
  ur_running (deliver now buffer r st).1.1 = ur_running r /\ (length (deliver now buffer r st).2 <= 1)%nat.
Proof.
  unfold deliver. destruct raw_callback; [simpl; auto|]. destruct callback; [|simpl; auto].
  destruct (decide _); [|simpl; auto]. destruct (teleop_decode_and_validate _) as [[] ?]; simpl; auto.
Qed.

#[export] Instance receiver_laws : WorkerLaws receiver_worker.
Proof.
  refine (mkLaws receiver_worker receive_ahead receive_pending 4 1 _ _ _ _ _ _ _ _ _ _); cbn.
  - intros []; simpl; lia.
  - intros []; simpl; lia.
  - intros [now ev] pc [r st] pc' [r' st'] o H. destruct pc; cbn in H; try by inversion H; subst.
    + destruct ev; try by inversion H. destruct (decide _); by inversion H.
    + destruct (deliver_running now buffer r st) as [Hr _]. destruct (deliver now buffer r st) as [[r1 st1] o1].
      by inversion H; subst.
  - intros [now ev] pc [r st] pc' [r' st'] o Hr H. destruct pc; cbn in H, Hr.
    + rewrite Hr in H. inversion H; subst. simpl. lia.
    + destruct ev; inversion H; subst; simpl; lia.
    + destruct ev; try (inversion H; subst; simpl; lia). destruct (decide _); inversion H; subst; simpl; lia.
    + destruct (deliver_running now buffer r st) as [_ Hl]. destruct (deliver now buffer r st) as [[r1 st1] o1].
      inversion H; subst. simpl in *. lia.
    + done.
  - intros []; simpl; split; done || lia.
  - by intros f [r st].
  - intros _ [r st] ok s' Hr. unfold receiver_start. destruct r as [op ru ? ?]; cbn in *. subst ru.
    destruct op; cbn; by intros [= <- <-].
  - intros [|k] f [r st]; [|done]. by intros [= <-].
  - lia.
  - done.
Defined.
End receiver.

(** No call of the receive thread blocks. *)
Lemma receive_never_stalls {St : Type} cb raw e (x : WState (@receiver_worker St cb raw)) : stalled e x = false.
Proof.
  unfold stalled. destruct x as [[r st] [pc|] w]; [|done]. cbn. destruct e as [now ev]. destruct pc; cbn; try done.
  - destruct ev; try done. by destruct (decide _).
  - by destruct (deliver cb raw now buffer r st) as [[? ?] ?].
Qed.

Lemma receive_step_deliver {St : Type} cb raw now bytes r (st : St) :
  ur_running r = true ->
  receive_step cb raw now (Datagram bytes) (r, st) =
    if decide (length (take buffer_size bytes) = 0%nat) then (r, st)
    else (deliver cb raw now (take buffer_size bytes) (count_received r) st).1.
Proof.
  intros Hr. unfold receive_step, deliver. rewrite Hr. cbn [negb]. cbv zeta.
  destruct (decide _); [done|]. destruct raw; [done|]. destruct cb; [|done]. destruct (decide _); [|done].
  by destruct (teleop_decode_and_validate _) as [[] ?].
Qed.

(** The rounds of the loop are the steps of [Udp.receive_step]. *)
Lemma receive_round_is_step {St : Type} cb raw (now : Z) (ev : RecvEvent) r (st : St) w :
  ur_running r = true ->
  exists n, (exec (replicate n (Work (W:=receiver_worker cb raw) (now, ev)))
    (mkWState (W:=receiver_worker cb raw) (r, st) (Some RCheck) w)).1 =
    mkWState (W:=receiver_worker cb raw) (receive_step cb raw now ev (r, st)) (Some RCheck) w.
Proof.
  intros Hr.
  assert (Hc : ur_running (count_received r) = true) by exact Hr.
  destruct ev as [| | |bytes].
  - exists 2%nat. cbn. by rewrite Hr.
  - exists 2%nat. cbn. by rewrite Hr.
  - exists 3%nat. cbn. by rewrite Hr.
  - rewrite receive_step_deliver by done. set (b := take buffer_size bytes).
    destruct (decide (length b = 0%nat)) as [He|He].
    + exists 3%nat. cbn -[decide take buffer_size]. rewrite Hr. cbn -[decide take buffer_size]. fold b.
      by rewrite decide_True.
    + exists 4%nat. cbn -[decide take buffer_size deliver]. rewrite Hr.
      cbn -[decide take buffer_size deliver]. fold b. rewrite decide_False by done. cbn -[decide take buffer_size deliver].
      by destruct (deliver cb raw now b (count_received r) st) as [[? ?] ?].
Qed.

(** The execution model of [Udp.receive_run] is one of the schedules. *)
Lemma receive_run_is_execution {St : Type} cb raw (l : list (Z * RecvEvent)) r (st : St) w :
  ur_running r = true ->
  exists cs, (exec cs (mkWState (W:=receiver_worker cb raw) (r, st) (Some RCheck) w)).1 =
    mkWState (W:=receiver_worker cb raw) (receive_run cb raw (r, st) l) (Some RCheck) w.
Proof.
  revert r st. induction l as [|[now ev] l IH]; intros r st Hr; [by exists []|].
  destruct (receive_round_is_step cb raw now ev r st w Hr) as [n Hn].
  change (receive_run cb raw (r, st) ((now, ev) :: l)) with (receive_run cb raw (receive_step cb raw now ev (r, st)) l).
  assert (Hr' : ur_running (receive_step cb raw now ev (r, st)).1 = true).
  { unfold receive_step. rewrite Hr. cbn [negb]. destruct ev; try done. cbv zeta.
    destruct (decide _); [done|]. destruct raw; [done|]. destruct cb; [|done]. destruct (decide _); [|done].
    by destruct (teleop_decode_and_validate _) as [[] ?]. }
  destruct (receive_step cb raw now ev (r, st)) as [r' st']. cbn [fst] in Hr'.
  destruct (IH r' st' Hr') as [cs Hcs]. exists (replicate n (Work (W:=receiver_worker cb raw) (now, ev)) ++ cs). by rewrite exec_app_fst, Hn.
Qed.

(** ** PeriodicTimerThread *)

Section timer.
Context {St : Type} (on_timer : St -> St * outcome unit).

(** The timer thread: before its first clock reading, at the loop condition, in
    [on_timer], asleep, after the loop; or after undefined behaviour. *)
Inductive TimerPc := TBegin | TCheck (next : Timespec) | TCall (next : Timespec) | TSleep (next : Timespec) | TEnd | TUndef.

(** The clock readings: the first one, and those around [on_timer]. *)
Record TimerEvent := mkTimerEvent { te_begin : Timespec; te_start_ns : Z; te_end_ns : Z }.

Definition timer_work (e : TimerEvent) (pc : TimerPc) (s : PeriodicTimerThread * St)
    : option (TimerPc * (PeriodicTimerThread * St) * list unit) :=
  let '(t, st) := s in
  match pc with
  | TBegin => Some (TCheck (te_begin e), s, [])
  | TCheck next => Some (if is_running_ t then TCall next else TEnd, s, [])
  | TCall next =>
      match timer_iteration on_timer (te_start_ns e) (te_end_ns e) st next t with
      | Ok (st, next, t) => Some (TSleep next, (t, st), [tt])
      | _ => Some (TUndef, s, [])
      end
  | TSleep next => Some (TCheck next, s, [])
  | TEnd | TUndef => None
  end.

(** An output is a call of [on_timer]. *)
Definition timer_worker : Worker := {|
  w_pc := TimerPc;
  w_shared := PeriodicTimerThread * St;
  w_event := TimerEvent;
  w_outside := St -> St;
  w_config := unit;
  w_out := unit;
  entry := TBegin;
  ended := fun pc => match pc with TEnd => true | _ => false end;
  work := timer_work;
  outside := fun f '(t, st) => (t, f st);
  running := fun s => is_running_ s.1;
  launch := fun _ '(t, st) => (true, (start_thread t, st));
  stop_needed := fun _ => true;
  halts := [fun '(t, st) => (mkTimer (tt_thread t) false (period_us_ t) (last_elapsed_us_ t), st)];
  joined := fun '(t, st) => (mkTimer false (is_running_ t) (period_us_ t) (last_elapsed_us_ t), st);
|}.

Definition timer_ahead (pc : TimerPc) : nat :=
  match pc with TEnd => 0 | TUndef | TCheck _ => 1 | TBegin | TSleep _ => 2 | TCall _ => 3 end.

Definition timer_pending (pc : TimerPc) : nat := match pc with TCall _ => 1 | _ => 0 end.

Lemma iteration_running b e st next t st' next' t' :
  timer_iteration on_timer b e st next t = Ok (st', next', t') ->
  is_running_ t' = is_running_ t /\ period_us_ t' = period_us_ t.
Proof.
  unfold timer_iteration. destruct (on_timer st) as [st1 r].
  intros (u & _ & (n & _ & [= <- <- <-])%bind_ok)%bind_ok. done.
Qed.

#[export] Instance timer_laws : WorkerLaws timer_worker.
Proof.
  refine (mkLaws timer_worker timer_ahead timer_pending 3 1 _ _ _ _ _ _ _ _ _ _); cbn.
  - intros []; simpl; lia.
  - intros []; simpl; lia.
  - intros e pc [t st] pc' [t' st'] o H. destruct pc; cbn in H; try by inversion H; subst.
    destruct (timer_iteration _ _ _ _ _ _) as [[[st1 n1] t1]| |] eqn:E; inversion H; subst; [|done|done].
    by apply iteration_running in E as [? _].
  - intros e pc [t st] pc' [t' st'] o Hr H. destruct pc; cbn in H, Hr; try (inversion H; subst; simpl; lia).
    + rewrite Hr in H. inversion H; subst; simpl; lia.
    + destruct (timer_iteration _ _ _ _ _ _) as [[[st1 n1] t1]| |]; inversion H; subst; simpl; lia.
  - intros []; simpl; split; done || lia.
  - by intros f [t st].
  - intros _ [t st] ok s' Hr [= <- <-]. done.
  - intros [|k] f [t st]; [|done]. by intros [= <-].
  - lia.
  - by intros [t st].
Defined.

(** A period that fits keeps the thread clear of the overflow, so that no turn is
    lost. *)
Definition timer_sound (x : WState timer_worker) : Prop :=
  period_ok (period_us_ (ws_shared x).1) /\ ws_thread x <> Some TUndef.

Context (no_undefined : forall st, (on_timer st).2 <> Undef).

Lemma iteration_defined b e st next t :
  period_ok (period_us_ t) -> exists r, timer_iteration on_timer b e st next t = Ok r.
Proof using no_undefined.
  intros Hp. unfold timer_iteration. pose proof (no_undefined st) as Hu. destruct (on_timer st) as [st1 r]. cbn [snd] in Hu.
  assert (Hc : match r with Undef => Undef | _ => Ok tt end = Ok tt) by by destruct r. rewrite Hc.
  cbn [mbind outcome_bind period_us_]. unfold next_time.
  assert (Hi : in_int (period_us_ t * 1000) = true) by (unfold period_ok in Hp; apply andb_true_iff; lia).
  rewrite Hi. by eexists.
Qed.

Lemma timer_sound_step c x : timer_sound x -> timer_sound (step c x).1.
Proof using no_undefined.
  destruct x as [[t st] th w]. intros [Hp Ht]. unfold timer_sound in *. cbn [ws_shared ws_thread fst] in *.
  destruct c as [c| | |e|f]; cbn [step].
  - unfold start_call; cbn. by destruct w.
  - unfold stop_call; cbn. by destruct w.
  - unfold own_step; cbn. destruct w as [| |[|k]|]; try done. by destruct (has_ended _ th).
  - unfold work_step; cbn. destruct th as [pc|]; [|done]. destruct pc as [|n|n|n| |]; cbn; try done.
    + by destruct (is_running_ t).
    + destruct (iteration_defined (te_start_ns e) (te_end_ns e) st n t Hp) as [[[st1 n1] t1] E]. rewrite E. cbn.
      apply iteration_running in E as [_ ->]. done.
  - done.
Qed.

Lemma timer_sound_ready e x : timer_sound x -> stalled e x = false.
Proof using no_undefined.
  destruct x as [[t st] [pc|] w]; [|done]. intros [Hp Ht]. cbn [ws_shared ws_thread fst] in *.
  unfold stalled; cbn. destruct pc as [|n|n|n| |]; try done. cbn.
  by destruct (iteration_defined (te_start_ns e) (te_end_ns e) st n t Hp) as [[[st1 n1] t1] ->].
Qed.
End timer.

(** ** Properties *)

(** C27: A stopped receiver is silent, and it can always be stopped. Whatever the
    schedule of a receiver's thread, of the calls of its owner and of the rest of the
    program, and whatever [poll] and [recvfrom] report: the callback runs only
    between a [start] and the return of the next [stop], and at most once after
    [stop] has lowered the flag; and once [stop] has been called, two turns of the owner
    and four of the thread, with anything in between, let it return. *)
Theorem receiver_stops {St : Type} cb raw (r : UdpReceiver) (st : St) (cs : list (Choice (receiver_worker cb raw))) :
  ur_running r = false ->
  let x := exec cs (mkWState (W:=receiver_worker cb raw) (r, st) None Idle) in
  quiet 1 Silent x.2 = true /\
  (ws_owner x.1 = Halting 0 ->
   forall cs1 cs2, (1 < count is_own cs1)%nat -> (4 <= count is_work cs2)%nat ->
   stopped (exec (cs1 ++ cs2 ++ [Own]) x.1).2).
Proof.
  intros Hr x. set (x0 := mkWState (W:=receiver_worker cb raw) (r, st) None Idle).
  assert (H0 : consistent x0) by (split; [done|exact Hr]).
  destruct (exec_quiet cs x0 H0) as [Hc _]. split; [exact (stop_is_quiet cs x0 H0)|].
  intros Ho cs1 cs2 H1 H2. eapply stop_comes_back; [exact Hc|exact Ho|exact H1|exact H2|].
  apply (never_stalls (fun _ => True)); [done|intros; apply receive_never_stalls|done].
Qed.

Definition record_seq (_ : Z) (p : TeleopPacket) (st : list Z) : list Z := tp_seq p :: st.

(** A datagram arrives, and [stop] is called while the callback has not run yet. *)
Definition receiver_schedule : list (Choice (receiver_worker (Some record_seq) None)) :=
  [Start (W:=receiver_worker (Some record_seq) None) tt] ++
  replicate 3 (Work (W:=receiver_worker (Some record_seq) None) (7, Datagram sample_datagram)) ++ [Stop].

Lemma receiver_stops_witness :
  let x := exec receiver_schedule (mkWState (W:=receiver_worker (Some record_seq) None) (receiver_new socket_os_ok "0.0.0.0" 50000, []) None Idle) in
  ws_owner x.1 = Halting 0 /\
  stopped (exec (replicate 2 Own ++ replicate 4 (Work (W:=receiver_worker (Some record_seq) None) (8, PollTimeout)) ++ [Own]) x.1).2.
Proof.
  intros x. assert (Ho : ws_owner x.1 = Halting 0) by (vm_compute; reflexivity).
  split; [exact Ho|].
  apply (receiver_stops (Some record_seq) None (receiver_new socket_os_ok "0.0.0.0" 50000) [] receiver_schedule eq_refl);
    [exact Ho| |]; vm_compute; lia.
Defined.

(** A stopped timer is silent, and it can always be stopped: [on_timer] is called
    only between [start_thread] and the return of [stop_thread], at most once after
    the flag has been lowered, and two turns of the owner and three of the thread let
    [stop_thread] return, whatever the clock readings and however often [on_timer]
    throws. *)
Lemma timer_stops {St : Type} (on_timer : St -> St * outcome unit) (t : PeriodicTimerThread) (st : St)
    (cs : list (Choice (timer_worker on_timer))) :
  (forall st, (on_timer st).2 <> Undef) -> is_running_ t = false -> period_ok (period_us_ t) ->
  let x := exec cs (mkWState (W:=timer_worker on_timer) (t, st) None Idle) in
  quiet 1 Silent x.2 = true /\
  (ws_owner x.1 = Halting 0 ->
   forall cs1 cs2, (1 < count is_own cs1)%nat -> (3 <= count is_work cs2)%nat ->
   stopped (exec (cs1 ++ cs2 ++ [Own]) x.1).2).
Proof.
  intros Hu Hr Hp x. set (x0 := mkWState (W:=timer_worker on_timer) (t, st) None Idle).
  assert (H0 : consistent x0) by (split; [done|exact Hr]).
  assert (Hs0 : timer_sound on_timer x0) by (split; [exact Hp|done]).
  destruct (exec_quiet cs x0 H0) as [Hc _]. split; [exact (stop_is_quiet cs x0 H0)|].
  intros Ho cs1 cs2 H1 H2. eapply stop_comes_back; [exact Hc|exact Ho|exact H1|exact H2|].
  apply (never_stalls (timer_sound on_timer)); [by intros; apply timer_sound_step|by intros; apply timer_sound_ready|].
  do 2 (apply exec_invariant; [by intros; apply timer_sound_step|]). exact Hs0.
Qed.
