(* ===== verification/ControlServer.v ===== *)
(** * ControlServer: the accept loop of the command server

    [RuntimeControlServer::run], [start] and [stop] of
    [src/src/control/runtime_control_server.cpp] as a [Worker]: the loop split at the
    flag, the descriptor, [accept], [recv], the handler and the reply, with the
    connections of any number of clients. What the socket calls report is decided
    by the state of the connections and by the events of the schedule: as on Linux,
    [accept] fails on a closed descriptor, and [shutdown] (not [close]) ends an
    [accept] that waits. A descriptor that has been closed is not opened again while
    [stop] runs, and a reply fits the send buffer. *)

From S2P Require Import Prelude RuntimeControl Workers.
From stdpp Require Import gmap.
From Stdlib Require Import Ascii.

Open Scope Z_scope.

Section server.
Context {St : Type} (handlers : gmap string (Handler St)) (bind_ip : string).
(** How many connections wait to be accepted after [listen(server_fd_, 8)]. *)
Context (room : nat).

(** ** The server and its connections *)

(** A connection: what has arrived and has not been read, and whether the client has
    closed its side. *)
Record Conn := mkConn { cn_data : list ascii; cn_closed : bool }.

Record Server := mkSrv {
  srv_object : ServerState;       (* [server_fd_], [running_], [thread_] *)
  srv_open : bool;                (* the listening socket exists *)
  srv_listening : bool;           (* and has not been shut down *)
  srv_queue : list nat;           (* connections to be accepted *)
  srv_conns : gmap nat Conn;
  srv_app : St;
}.

Definition set_object (f : ServerState -> ServerState) (s : Server) : Server :=
  mkSrv (f (srv_object s)) (srv_open s) (srv_listening s) (srv_queue s) (srv_conns s) (srv_app s).

Definition set_conns (f : gmap nat Conn -> gmap nat Conn) (s : Server) : Server :=
  mkSrv (srv_object s) (srv_open s) (srv_listening s) (srv_queue s) (f (srv_conns s)) (srv_app s).

Definition set_app (st : St) (s : Server) : Server :=
  mkSrv (srv_object s) (srv_open s) (srv_listening s) (srv_queue s) (srv_conns s) st.

(** ** The thread *)

(** At the loop condition, at the read of [server_fd_], at the call of [accept] with
    it, waiting in [accept], in [recv], with the result of [recv], with the response,
    after the loop. *)
Inductive ServerPc :=
| SCheck
| SLoad
| SAccept (fd : bool)
| SWait
| SRecv (client : nat)
| SHandle (client : nat) (received : option (list ascii))
| SSend (client : nat) (response : string)
| SEnd.

(** A call fails, or does what it can; [recv] returns [n + 1] bytes at most. *)
Inductive ServerEvent := Fails | Proceeds (n : nat).

Inductive ServerOut :=
| Handled (client : nat) (received : option (list ascii))
| Replied (client : nat) (response : string).

Definition accepting (s : Server) : bool := srv_open s && srv_listening s.

Definition run_work (e : ServerEvent) (pc : ServerPc) (s : Server) : option (ServerPc * Server * list ServerOut) :=
  match pc with
  | SCheck => Some (if sv_running (srv_object s) then SLoad else SEnd, s, [])
  | SLoad => Some (SAccept (sv_fd (srv_object s)), s, [])
  | SAccept fd =>
      Some (if fd && srv_open s then SWait else SCheck, s, [])
  | SWait =>
      if srv_listening s then
        match e, srv_queue s with
        | Fails, _ => Some (SCheck, s, [])
        | Proceeds _, c :: q =>
            Some (SRecv c, mkSrv (srv_object s) (srv_open s) (srv_listening s) q (srv_conns s) (srv_app s), [])
        | Proceeds _, [] => None
        end
      else Some (SCheck, s, [])
  | SRecv c =>
      match e, srv_conns s !! c with
      | Fails, _ | _, None => Some (SHandle c None, s, [])
      | Proceeds n, Some (mkConn [] closed) => if closed then Some (SHandle c (Some []), s, []) else None
      | Proceeds n, Some (mkConn data closed) =>
          let k := Nat.min (S n) 1023 in
          Some (SHandle c (Some (take k data)), set_conns (insert c (mkConn (drop k data) closed)) s, [])
      end
  | SHandle c received =>
      let '(st, response) := serve handlers received (srv_app s) in
      Some (SSend c response, set_app st s, [Handled c received])
  | SSend c response => Some (SCheck, set_conns (delete c) s, [Replied c response])
  | SEnd => None
  end.

(** ** The clients and the rest of the program *)

Inductive ServerOutside :=
| Connect (client : nat)
| Arrive (client : nat) (bytes : list ascii)
| Close (client : nat)
| App (f : St -> St).

Definition outside_step (v : ServerOutside) (s : Server) : Server :=
  match v with
  | Connect c =>
      if accepting s && bool_decide (length (srv_queue s) < room)%nat && bool_decide (srv_conns s !! c = None) then
        mkSrv (srv_object s) (srv_open s) (srv_listening s) (srv_queue s ++ [c])
          (<[c := mkConn [] false]> (srv_conns s)) (srv_app s)
      else s
  | Arrive c bytes =>
      set_conns (alter (fun cn => if cn_closed cn then cn else mkConn (cn_data cn ++ bytes) false) c) s
  | Close c => set_conns (alter (fun cn => mkConn (cn_data cn) true) c) s
  | App f => set_app (f (srv_app s)) s
  end.

(** ** The owner *)

(** [start]: a socket that listens, with nobody waiting, or none. *)
Definition run_launch (os : ServerOs) (s : Server) : bool * Server :=
  if sv_running (srv_object s) then (true, s)
  else
    let '(ok, o) := server_start os bind_ip (srv_object s) in
    (ok, mkSrv o ok ok [] (srv_conns s) (srv_app s)).

Definition lower_running (s : Server) : Server :=
  set_object (fun o => mkServer (sv_fd o) false (sv_thread o)) s.

Definition if_open (f : Server -> Server) (s : Server) : Server := if sv_fd (srv_object s) then f s else s.

Definition shutdown_fd (s : Server) : Server :=
  mkSrv (srv_object s) (srv_open s) false (srv_queue s) (srv_conns s) (srv_app s).

Definition close_fd (s : Server) : Server :=
  mkSrv (srv_object s) false (srv_listening s) [] (srv_conns s) (srv_app s).

Definition forget_fd (s : Server) : Server :=
  set_object (fun o => mkServer false (sv_running o) (sv_thread o)) s.

Definition server_worker : Worker := {|
  w_pc := ServerPc;
  w_shared := Server;
  w_event := ServerEvent;
  w_outside := ServerOutside;
  w_config := ServerOs;
  w_out := ServerOut;
  entry := SCheck;
  ended := fun pc => match pc with SEnd => true | _ => false end;
  work := run_work;
  outside := outside_step;
  running := fun s => sv_running (srv_object s);
  launch := run_launch;
  stop_needed := fun s => negb (negb (sv_running (srv_object s)) && negb (sv_fd (srv_object s)));
  halts := [lower_running; if_open shutdown_fd; if_open close_fd; if_open forget_fd];
  joined := set_object (fun o => mkServer (sv_fd o) (sv_running o) false);
|}.

Definition server_ahead (pc : ServerPc) : nat :=
  match pc with SEnd => 0 | SCheck => 1 | SSend _ _ => 2 | SHandle _ _ => 3 | SRecv _ => 4 | SWait => 5 | SAccept _ => 6 | SLoad => 7 end.

Definition server_pending (pc : ServerPc) : nat :=
  match pc with SEnd | SCheck => 0 | SSend _ _ => 1 | _ => 2 end.

Lemma run_work_object e pc s pc' s' o :
  run_work e pc s = Some (pc', s', o) -> srv_object s' = srv_object s /\ srv_open s' = srv_open s /\ srv_listening s' = srv_listening s.
Proof.
  destruct pc as [| |fd| |c|c rc|c r|]; cbn [run_work]; intros H; try by inversion H; subst.
  - destruct (srv_listening s) eqn:El; [|by inversion H; subst]. destruct e; [by inversion H; subst|].
    destruct (srv_queue s); by inversion H.
  - destruct e as [|n]; [by inversion H|]. destruct (srv_conns s !! c) as [[[|d ds] cl]|]; [|by inversion H..].
    destruct cl; by inversion H.
  - destruct (serve handlers rc (srv_app s)). by inversion H.
Qed.

Lemma run_work_ahead e pc s pc' s' o :
  sv_running (srv_object s) = false -> run_work e pc s = Some (pc', s', o) ->
  (server_ahead pc' < server_ahead pc /\ length o + server_pending pc' <= server_pending pc)%nat.
Proof.
  intros Hr. destruct pc as [| |fd| |c|c rc|c r|]; cbn [run_work]; intros H; try (inversion H; subst; simpl; lia).
  - rewrite Hr in H. inversion H; subst; simpl; lia.
  - destruct (fd && srv_open s); inversion H; subst; simpl; lia.
  - destruct (srv_listening s); [|inversion H; subst; simpl; lia]. destruct e; [inversion H; subst; simpl; lia|].
    destruct (srv_queue s); inversion H; subst; simpl; lia.
  - destruct e as [|n]; [inversion H; subst; simpl; lia|].
    destruct (srv_conns s !! c) as [[[|d ds] cl]|]; [|inversion H; subst; simpl; lia..].
    destruct cl; inversion H; subst; simpl; lia.
  - destruct (serve handlers rc (srv_app s)). inversion H; subst; simpl; lia.
Qed.

Lemma outside_object v s : srv_object (outside_step v s) = srv_object s.
Proof. destruct v; simpl; try done. by destruct (_ && _). Qed.

#[export] Instance server_laws : WorkerLaws server_worker.
Proof.
  refine (mkLaws server_worker server_ahead server_pending 7 2 _ _ _ _ _ _ _ _ _ _); cbn.
  - intros []; simpl; lia.
  - intros []; simpl; lia.
  - intros e pc s pc' s' o H. by destruct (run_work_object _ _ _ _ _ _ H) as [-> _].
  - apply run_work_ahead.
  - intros []; simpl; split; done || lia.
  - intros v s. by rewrite outside_object.
  - intros os [[fd ru th] op li q cs st] ok s' Hr. cbn in Hr. subst ru. unfold run_launch, server_start; cbn.
    destruct os as [[] vip [] []]; cbn; try destruct (vip bind_ip); cbn; by intros [= <- <-].
  - intros k f s Hk Hr. destruct k as [|[|[|[|k]]]]; cbn in Hk; [by simplify_eq|..|done]; injection Hk as <-;
      destruct Hr as [|Hr]; try done; unfold if_open; by destruct (sv_fd (srv_object s)).
  - lia.
  - done.
Defined.

(** The actions of [stop] together are [RuntimeControl.server_stop]. *)
Lemma halts_are_stop s :
  sv_running (srv_object s) = true \/ sv_fd (srv_object s) = true ->
  srv_object (joined server_worker (fold_left (fun s f => f s) (halts server_worker) s)) = server_stop (srv_object s).
Proof.
  intros H. destruct s as [[fd ru th] op li q cs st]. cbn in *. unfold server_stop, if_open; cbn.
  destruct fd; cbn; [by destruct ru|]. destruct H as [->|]; done.
Qed.

(** ** Shutting the socket down *)

Abbreviation SState := (WState server_worker).

(** The descriptor is set while the socket listens, until [stop] has shut it down. *)
Definition fd_sound (x : SState) : Prop :=
  (sv_fd (srv_object (ws_shared x)) = false -> srv_listening (ws_shared x) = false) /\
  match ws_owner x with
  | Idle | Halting (S (S _)) | Joining => srv_listening (ws_shared x) = false
  | _ => True
  end.

Lemma outside_listening v s : srv_listening (outside_step v s) = srv_listening s.
Proof. destruct v; simpl; try done. by destruct (_ && _). Qed.

Lemma fd_sound_step c x : fd_sound x -> fd_sound (step c x).1.
Proof.
  destruct x as [s t w]. intros [Hf Ho]. unfold fd_sound in *. cbn [ws_shared ws_owner] in *.
  destruct c as [os| | |e|v]; cbn [step].
  - unfold start_call; cbn [ws_owner ws_shared]. destruct w; try done.
    change (launch server_worker os s) with (run_launch os s). unfold run_launch.
    destruct (sv_running (srv_object s)) eqn:E; [done|]. unfold server_start. rewrite E.
    destruct (so_socket os), (so_valid_ip os bind_ip), (so_bind os), (so_listen os); done.
  - unfold stop_call; cbn [ws_owner ws_shared]. destruct w; try done; by destruct (stop_needed server_worker s).
  - unfold own_step; cbn [ws_owner ws_shared ws_thread]. destruct w as [| |k|]; [done..| |].
    + destruct s as [[fd ru th] op li q cs st]. cbn in Hf, Ho.
      destruct k as [|[|[|[|k]]]]; cbn; unfold if_open; cbn; try (split; done);
        destruct fd; cbn; rewrite ?andb_false_r; split; auto.
    + by destruct (has_ended server_worker t).
  - unfold work_step; cbn [ws_thread ws_shared ws_owner]. destruct t as [pc|]; [|done].
    change (work server_worker e pc s) with (run_work e pc s).
    destruct (run_work e pc s) as [[[pc' s'] o]|] eqn:E; [|done].
    destruct (run_work_object _ _ _ _ _ _ E) as (H1 & _ & H3). cbn. by rewrite H1, H3.
  - change (outside server_worker v s) with (outside_step v s). cbn. by rewrite outside_object, outside_listening.
Qed.

(** The client the thread waits for. *)
Definition silent_client (x : SState) : option nat :=
  match ws_thread x with
  | Some (SRecv c) => match srv_conns (ws_shared x) !! c with Some (mkConn [] false) => Some c | _ => None end
  | _ => None
  end.

(** Once the socket is shut down, nothing else can hold the thread up. *)
Lemma stalled_is_silent e (x : SState) :
  srv_listening (ws_shared x) = false -> stalled e x = true -> silent_client x <> None.
Proof.
  destruct x as [s [pc|] w]; [|done]. unfold stalled, silent_client; cbn. intros Ha.
  destruct pc as [| |fd| |c|c rc|c r|]; cbn; try done.
  - by rewrite Ha.
  - destruct e as [|n]; [done|]. by destruct (srv_conns s !! c) as [[[|d ds] []]|].
  - by destruct (serve handlers rc (srv_app s)).
Qed.

(** ** A silent client *)

(** The client neither sends nor closes, and [recv] does not fail. *)
Definition stays_silent (c : nat) (ch : Choice server_worker) : bool :=
  match ch with
  | Work Fails => false
  | Outside (Arrive d _) | Outside (Close d) => negb (bool_decide (d = c))
  | _ => true
  end.

Definition held (c : nat) (x : SState) : Prop :=
  ws_thread x = Some (SRecv c) /\ srv_conns (ws_shared x) !! c = Some (mkConn [] false) /\ ws_owner x <> Idle.

Lemma silent_held c x : consistent x -> silent_client x = Some c -> held c x.
Proof.
  unfold silent_client, held. destruct x as [s t w]; cbn. intros Hx.
  destruct t as [pc|]; [|done]. destruct pc as [| |fd| |d|d rc|d r|]; try done.
  destruct (srv_conns s !! d) as [[[|? ?] []]|] eqn:E; try done. intros [= ->]. split; [done|]. split; [done|].
  intros ->. by destruct Hx.
Qed.

Lemma held_step c ch x :
  held c x -> stays_silent c ch = true -> held c (step ch x).1 /\ forall l, l ∈ (step ch x).2 -> l = Lowered.
Proof.
  destruct x as [s t w]. intros (Ht & Hc & Ho). unfold held. cbn [ws_thread ws_shared ws_owner] in *. subst t.
  destruct ch as [os| | |e|v]; cbn [step]; intros Hs.
  - unfold start_call; cbn [ws_owner]. destruct w; (split; [done|set_solver]).
  - unfold stop_call; cbn [ws_owner ws_shared ws_thread].
    destruct w; try (split; [done|set_solver]). destruct (stop_needed server_worker s); (split; [done|set_solver]).
  - unfold own_step; cbn [ws_owner ws_shared ws_thread]. destruct w as [| |k|]; try (split; [done|set_solver]).
    destruct k as [|[|[|[|k]]]]; cbn; unfold if_open; try destruct (sv_fd _); (split; [done|]); intros l; set_solver.
  - unfold work_step; cbn [ws_thread ws_shared ws_owner]. destruct e as [|n]; [done|]. cbn. rewrite Hc. split; [done|set_solver].
  - change (outside server_worker v s) with (outside_step v s). split; [|set_solver]. cbn. split; [done|]. split; [|done].
    destruct v as [d|d bytes|d|f]; cbn in *.
    + destruct (accepting s && _ && bool_decide (srv_conns s !! d = None)) eqn:E; [|done]. cbn.
      rewrite lookup_insert_ne; [done|]. intros ->. rewrite (bool_decide_eq_false_2 (srv_conns s !! c = None)), andb_false_r in E; [done|]. by rewrite Hc.
    + rewrite lookup_alter_ne; [done|]. intros ->. by rewrite bool_decide_eq_true_2 in Hs.
    + rewrite lookup_alter_ne; [done|]. intros ->. by rewrite bool_decide_eq_true_2 in Hs.
    + done.
Qed.

Lemma held_exec c cs x :
  held c x -> forallb (stays_silent c) cs = true ->
  held c (exec cs x).1 /\ forall l, l ∈ (exec cs x).2 -> l = Lowered.
Proof.
  revert x. induction cs as [|ch cs IH]; intros x Hx; cbn [forallb]; [split; [done|set_solver]|].
  intros [H1 H2]%andb_true_iff. rewrite exec_cons. destruct (held_step c ch x Hx H1) as [H3 H4].
  destruct (IH _ H3 H2) as [H5 H6]. split; [done|]. cbn [snd]. intros l [Hl|Hl]%elem_of_app; auto.
Qed.

(** ** Requests in the order of the connections *)

(** The requests that were handled, with their clients, and the replies. *)
Definition handled_of (l : Label server_worker) : option (nat * option (list ascii)) :=
  match l with Out (Handled c received) => Some (c, received) | _ => None end.

Definition replied_of (l : Label server_worker) : option (nat * string) :=
  match l with Out (Replied c response) => Some (c, response) | _ => None end.

(** One request after the other, with [RuntimeControl.serve]. *)
Fixpoint serve_all (rs : list (nat * option (list ascii))) (st : St) : St * list (nat * string) :=
  match rs with
  | [] => (st, [])
  | (c, received) :: rs =>
      let '(st, response) := serve handlers received st in
      let '(st, l) := serve_all rs st in (st, (c, response) :: l)
  end.

Lemma serve_all_app rs rs' st :
  serve_all (rs ++ rs') st =
    ((serve_all rs' (serve_all rs st).1).1, (serve_all rs st).2 ++ (serve_all rs' (serve_all rs st).1).2).
Proof.
  revert st. induction rs as [|[c r] rs IH]; intros st; cbn [app serve_all fst snd]; [by destruct (serve_all rs' st)|].
  destruct (serve handlers r st) as [st1 resp]. rewrite IH. by destruct (serve_all rs st1).
Qed.

(** The reply that is still to be sent; the clients in line; the attempts to
    connect, in order. *)
Definition owed (x : SState) : list (nat * string) :=
  match ws_thread x with Some (SSend c response) => [(c, response)] | _ => [] end.

Definition in_line (x : SState) : list nat :=
  match ws_thread x with Some (SRecv c) | Some (SHandle c _) => [c] | _ => [] end ++ srv_queue (ws_shared x).

Definition attempt (ch : Choice server_worker) : option nat :=
  match ch with Outside (Connect c) => Some c | _ => None end.

(** The handlers alone change the state of the program. *)
Definition no_app (ch : Choice server_worker) : bool := match ch with Outside (App _) => false | _ => true end.

Definition orderly (x : SState) (ch : list (Choice server_worker)) (r : SState * list (Label server_worker)) : Prop :=
  serve_all (omap handled_of r.2) (srv_app (ws_shared x)) =
    (srv_app (ws_shared r.1), (serve_all (omap handled_of r.2) (srv_app (ws_shared x))).2) /\
  owed x ++ (serve_all (omap handled_of r.2) (srv_app (ws_shared x))).2 = omap replied_of r.2 ++ owed r.1 /\
  ((omap handled_of r.2).*1 ++ in_line r.1) `sublist_of` (in_line x ++ omap attempt ch).

(** Steps without outputs. *)
Lemma orderly_silent (x : SState) ch (y : SState) l :
  omap handled_of l = [] -> omap replied_of l = [] ->
  srv_app (ws_shared y) = srv_app (ws_shared x) -> owed y = owed x ->
  in_line y `sublist_of` (in_line x ++ omap attempt ch) -> orderly x ch (y, l).
Proof. intros H1 H2 H3 H4 H5. unfold orderly. cbn [fst snd]. rewrite H1, H2, H3, H4. cbn. by rewrite app_nil_r. Qed.

Lemma line_refl l (l' : list nat) : l `sublist_of` (l ++ l').
Proof. by apply sublist_inserts_r. Qed.

Lemma orderly_work e (x : SState) : orderly x [Work e] (work_step server_worker e x).
Proof.
  destruct x as [s t w]. unfold work_step; cbn [ws_thread ws_shared ws_owner].
  destruct t as [pc|]; [|apply orderly_silent; try done; apply line_refl].
  change (work server_worker e pc s) with (run_work e pc s).
  destruct pc as [| |fd| |c|c rc|c r|]; cbn [run_work].
  - destruct (sv_running _); apply orderly_silent; try done; apply line_refl.
  - apply orderly_silent; try done; apply line_refl.
  - destruct (fd && srv_open s); apply orderly_silent; try done; apply line_refl.
  - destruct (srv_listening s); [destruct e; [|destruct (srv_queue s) as [|c q] eqn:Eq]|];
      apply orderly_silent; try done; try apply line_refl.
    unfold in_line; cbn [ws_thread ws_shared srv_queue app]. rewrite Eq, app_nil_r. done.
  - destruct e as [|n]; [|destruct (srv_conns s !! c) as [[[|d ds] cl]|]; [destruct cl|..]];
      apply orderly_silent; try done; apply line_refl.
  - unfold orderly. destruct (serve handlers rc (srv_app s)) as [st response] eqn:E. cbn. rewrite E. cbn.
    split; [done|]. split; [done|]. unfold in_line; cbn. rewrite app_nil_r. done.
  - unfold orderly. cbn. split; [done|]. split; [done|]. unfold in_line; cbn. by rewrite app_nil_r.
  - apply orderly_silent; try done; apply line_refl.
Qed.

Lemma orderly_outside v (x : SState) : no_app (Outside v) = true -> orderly x [Outside v] (step (Outside v) x).
Proof.
  destruct x as [s t w]. intros Hv. cbn [step ws_shared ws_thread ws_owner]. change (outside server_worker v s) with (outside_step v s).
  destruct v as [c|c bytes|c|f]; [|apply orderly_silent; try done; apply line_refl..|done].
  cbn [outside_step].
  case_match; apply orderly_silent; try done; [|apply line_refl].
  unfold in_line; cbn. by rewrite app_assoc.
Qed.

Lemma orderly_step ch (x : SState) : consistent x -> no_app ch = true -> orderly x [ch] (step ch x).
Proof.
  intros Hx Hn. destruct ch as [os| | |e|v]; [..|by apply orderly_work|by apply orderly_outside];
    destruct x as [s t w]; cbn [step].
  - unfold start_call; cbn [ws_owner ws_shared]. destruct w; try (apply orderly_silent; try done; apply line_refl).
    destruct Hx as [Ht Hr]; cbn in Ht, Hr. subst t. change (launch server_worker os s) with (run_launch os s).
    unfold run_launch. rewrite Hr.
    destruct (server_start os bind_ip (srv_object s)) as [[] o]; apply orderly_silent; try done; apply sublist_nil_l.
  - unfold stop_call; cbn [ws_owner ws_shared ws_thread].
    destruct w; try destruct (stop_needed server_worker s); apply orderly_silent; try done; apply line_refl.
  - unfold own_step; cbn [ws_owner ws_shared ws_thread].
    destruct w as [| |k|]; try (apply orderly_silent; try done; apply line_refl).
    + destruct k as [|[|[|[|k]]]]; cbn [lookup list_lookup halts server_worker Nat.eqb]; unfold if_open; try destruct (sv_fd _);
        apply orderly_silent; try done; try apply line_refl.
      unfold in_line; cbn. rewrite !app_nil_r. apply line_refl.
    + destruct t as [pc|]; [destruct pc|]; cbn [has_ended ended server_worker];
        apply orderly_silent; try done; apply line_refl.
Qed.

Lemma orderly_exec cs (x : SState) : consistent x -> forallb no_app cs = true -> orderly x cs (exec cs x).
Proof.
  revert x. induction cs as [|ch cs IH]; intros x Hx Hn; cbn [forallb] in Hn.
  { cbn [exec]. apply orderly_silent; try done. apply line_refl. }
  apply andb_true_iff in Hn as [H1 H2]. rewrite exec_cons.
  destruct (orderly_step ch x Hx H1) as (A1 & A2 & A3).
  destruct (IH (step ch x).1) as (B1 & B2 & B3); [by apply step_is_quiet|done|].
  unfold orderly. cbn [fst snd]. set (y := (step ch x).1) in *. set (l := (step ch x).2) in *.
  set (z := (exec cs y).1) in *. set (l' := (exec cs y).2) in *.
  change (ch :: cs) with ([ch] ++ cs). rewrite !omap_app, serve_all_app, A1. cbn [fst snd]. rewrite B1. cbn [fst snd].
  split; [done|]. split.
  - rewrite app_assoc, A2, <- !app_assoc. f_equal. exact B2.
  - rewrite fmap_app, <- app_assoc. etrans; [apply sublist_app; [reflexivity|exact B3]|].
    rewrite app_assoc. etrans; [apply sublist_app; [exact A3|reflexivity]|]. by rewrite <- app_assoc.
Qed.

(** ** Properties *)

(** A server that has not been started, or has been stopped. *)
Definition server_down (s : Server) : Prop :=
  sv_running (srv_object s) = false /\ sv_fd (srv_object s) = false /\ srv_listening s = false.

Definition at_rest (s : Server) : SState := mkWState (W:=server_worker) s None Idle.

Lemma at_rest_sound s : server_down s -> consistent (at_rest s) /\ fd_sound (at_rest s).
Proof.
  intros (H1 & H2 & H3). unfold consistent, fd_sound; cbn. done.
Qed.
End server.

Arguments serve_all {St} handlers rs st.
Arguments at_rest {St handlers bind_ip room} s.
Arguments silent_client {St handlers bind_ip room} x.
Arguments stays_silent {St handlers bind_ip room} c ch.

Arguments attempt {St handlers bind_ip room} ch.
Arguments owed {St handlers bind_ip room} x.
Arguments replied_of {St handlers bind_ip room} l.
Arguments handled_of {St handlers bind_ip room} l.
Arguments no_app {St handlers bind_ip room} ch.

(** C17: When the command server can be stopped, and what one client can do to it.
    Whatever the schedule of its thread, its owner, its clients and the rest of the
    program: (1) commands are handled only between a [start] and the return of the
    next [stop], and at most one request (its handler and its reply) is completed
    after [stop] has lowered the flag. (2) [stop] returns after five turns of the owner
    and seven of the thread, unless the thread is then reading from a client that has
    neither sent anything nor closed its side: everything else, a pending [accept]
    included, comes to an end. (3) Such a client holds the server: as long as it stays
    silent, no command of any client (an estop or a shutdown included) is handled, none
    is answered, and [stop] does not return. *)
Theorem server_stops {St : Type} (handlers : gmap string (Handler St)) (bind_ip : string) (room : nat)
    (s : Server) (cs : list (Choice (server_worker handlers bind_ip room))) :
  server_down s ->
  let x := exec cs (at_rest s) in
  quiet 2 Silent x.2 = true /\
  (ws_owner x.1 = Halting 0 ->
   forall cs1 cs2, (4 < count is_own cs1)%nat -> (7 <= count is_work cs2)%nat ->
   stopped (exec (cs1 ++ cs2 ++ [Own]) x.1).2 \/
   exists cs3 cs4, cs2 = cs3 ++ cs4 /\ silent_client (exec (cs1 ++ cs3) x.1).1 <> None) /\
  (forall c cs', silent_client x.1 = Some c -> forallb (stays_silent c) cs' = true ->
   silent_client (exec cs' x.1).1 = Some c /\ forall l, l ∈ (exec cs' x.1).2 -> l = Lowered).
Proof.
  intros Hd x. destruct (at_rest_sound handlers bind_ip room s Hd) as [H0 F0].
  destruct (exec_quiet cs (at_rest s) H0) as [Hc _]. fold x in Hc. split; [exact (stop_is_quiet cs _ H0)|]. split.
  - intros Ho cs1 cs2 H1 H2. destruct (stalls cs2 (exec cs1 x.1).1) eqn:Es.
    + destruct (stalls_prefix _ _ Es) as (cs3 & e & cs4 & -> & He).
      destruct (join_or_stopped cs1 cs3 x.1 Hc Ho H1) as [Hr|Hj].
      { left. rewrite <- app_assoc, app_assoc. by apply stopped_app. }
      right. exists cs3, (Work e :: cs4). split; [done|]. apply (stalled_is_silent _ _ _ e); [|by rewrite exec_app_fst].
      assert (Hf : fd_sound handlers bind_ip room (exec (cs1 ++ cs3) x.1).1).
      { do 2 (apply exec_invariant; [by intros; apply fd_sound_step|]). exact F0. }
      destruct Hf as [_ Hf]. by rewrite Hj in Hf.
    + left. eapply stop_comes_back; [exact Hc|exact Ho|exact H1|exact H2|exact Es].
  - intros c cs' Hs Hf. destruct (held_exec _ _ _ c cs' x.1) as [(H1 & H2 & _) H3]; [by apply silent_held|done|].
    split; [|exact H3]. unfold silent_client. by rewrite H1, H2.
Qed.

(** ** Concrete schedules *)

Definition os_ready : ServerOs := mkServerOs true (fun _ => true) true true.

Definition fresh_server : Server := mkSrv server_new false false [] ∅ ([] : list string).

Abbreviation demo_server := (server_worker demo_handlers "0.0.0.0" 9).

Definition demo_request : list ascii :=
  String.list_ascii_of_string ("goto_pose 1 2" +:+ nl).

(** The server is started, client 7 connects and is accepted. *)
Definition one_accepted : list (Choice demo_server) :=
  [Start (W:=demo_server) os_ready; Outside (W:=demo_server) (Connect 7)] ++ replicate 4 (Work (W:=demo_server) (Proceeds 99)).

(** Client 8 connects and sends a command, and [stop] is called. *)
Definition another_client : list (Choice demo_server) :=
  [Outside (W:=demo_server) (Connect 8); Outside (W:=demo_server) (Arrive 8 demo_request);
   Work (W:=demo_server) (Proceeds 99); Stop; Own; Own; Own; Own; Own; Work (W:=demo_server) (Proceeds 99); Own].

Lemma server_stops_witness :
  let x := exec one_accepted (at_rest fresh_server) in
  silent_client x.1 = Some 7%nat /\ quiet 2 Silent x.2 = true /\
  silent_client (exec another_client x.1).1 = Some 7%nat.
Proof.
  intros x. assert (H : server_down fresh_server) by (repeat split).
  destruct (server_stops demo_handlers "0.0.0.0" 9 fresh_server one_accepted H) as (Hq & _ & Hs).
  assert (E : silent_client x.1 = Some 7%nat) by (vm_compute; reflexivity).
  split; [exact E|]. split; [exact Hq|]. apply (Hs 7%nat another_client E). vm_compute. reflexivity.
Defined.

(** C26: Requests are answered one at a time, in the order of the connections. From
    a server at rest, whatever the schedule of its thread, its owner and its clients
    (starts and stops included) and whatever part of a request [recv] returns: the
    state of the program is that of handling the requests one after the other with
    [serve]; the replies sent are the responses of [serve] to them, each to the
    client of its request, in the same order, all but possibly the last one, which the
    thread is about to send; and the clients served are, in order, among those that
    connected, so that no connection is served twice. *)
Theorem server_in_order {St : Type} (handlers : gmap string (Handler St)) (bind_ip : string) (room : nat)
    (s : Server) (cs : list (Choice (server_worker handlers bind_ip room))) :
  server_down s -> srv_queue s = [] -> forallb no_app cs = true ->
  let x := exec cs (at_rest s) in
  let requests := omap handled_of x.2 in
  srv_app (ws_shared x.1) = (serve_all handlers requests (srv_app s)).1 /\
  (serve_all handlers requests (srv_app s)).2 = omap replied_of x.2 ++ owed x.1 /\
  requests.*1 `sublist_of` omap attempt cs.
Proof.
  intros Hd Hq Hn x requests. destruct (at_rest_sound handlers bind_ip room s Hd) as [H0 _].
  destruct (orderly_exec handlers bind_ip room cs (at_rest s) H0 Hn) as (H1 & H2 & H3). fold x in H1, H2, H3.
  fold requests in H1, H2, H3. cbn [at_rest ws_shared] in H1, H2.
  split; [by rewrite H1|]. split; [exact H2|].
  assert (Hl : in_line handlers bind_ip room (at_rest s) = []) by exact Hq. rewrite Hl in H3.
  etrans; [|exact H3]. apply line_refl.
Qed.

(** Both clients are served, the first one with half of its line. *)
Definition two_requests : list (Choice demo_server) :=
  one_accepted ++
  [Outside (W:=demo_server) (Connect 8); Outside (W:=demo_server) (Arrive 8 demo_request);
   Outside (W:=demo_server) (Arrive 7 demo_request)] ++
  replicate 3 (Work (W:=demo_server) (Proceeds 10)) ++ replicate 6 (Work (W:=demo_server) (Proceeds 99)).

Lemma server_in_order_witness :
  let x := exec two_requests (at_rest fresh_server) in
  srv_app (ws_shared x.1) = ["1 2"; "1"] /\
  omap replied_of x.2 = [(7%nat, json_ok "" +:+ nl)] /\
  (omap handled_of x.2).*1 = [7%nat; 8%nat].
Proof.
  intros x. assert (H : server_down fresh_server) by (repeat split).
  destruct (server_in_order demo_handlers "0.0.0.0" 9 fresh_server two_requests H eq_refl ltac:(vm_compute; reflexivity))
    as (H1 & _ & _). fold x in H1.
  split; [rewrite H1; vm_compute; reflexivity|]. split; vm_compute; reflexivity.
Defined.
