(* ===== verification/ServerAnswers.v ===== *)
(** * ServerAnswers: how long a command waits

    The server of [ControlServer] answers every client that has sent something
    within a bounded number of turns of its thread, as long as the clients before it
    are not silent and the server is not stopped. *)

From S2P Require Import Prelude RuntimeControl Workers ControlServer.
From stdpp Require Import gmap.
From Stdlib Require Import Ascii.

Open Scope Z_scope.

Section server.
Context {St : Type} (handlers : gmap string (Handler St)) (bind_ip : string) (room : nat).

Abbreviation SW := (server_worker handlers bind_ip room).
Implicit Types (x : WState SW) (s : Server (St:=St)).

(** ** The line *)

(** The client the thread deals with. *)
Definition in_hand (t : option ServerPc) : list nat :=
  match t with Some (SRecv c) | Some (SHandle c _) | Some (SSend c _) => [c] | _ => [] end.

Definition line x : list nat := in_hand (ws_thread x) ++ srv_queue (ws_shared x).

(** Every client in line is there once, and connected. *)
Definition line_sound x : Prop :=
  NoDup (line x) /\ forall d, d ∈ line x -> is_Some (srv_conns (ws_shared x) !! d).

(** While the server runs, its socket listens and its thread has it. *)
Definition up_sound x : Prop :=
  match ws_owner x with
  | Running =>
      sv_fd (srv_object (ws_shared x)) = true /\ srv_open (ws_shared x) = true /\ srv_listening (ws_shared x) = true /\
      match ws_thread x with Some (SAccept fd) => fd = true | Some SEnd => False | _ => True end
  | _ => True
  end.

Lemma run_work_line e pc s pc' s' o :
  run_work handlers e pc s = Some (pc', s', o) ->
  NoDup (in_hand (Some pc) ++ srv_queue s) -> (forall d, d ∈ in_hand (Some pc) ++ srv_queue s -> is_Some (srv_conns s !! d)) ->
  NoDup (in_hand (Some pc') ++ srv_queue s') /\
  (forall d, d ∈ in_hand (Some pc') ++ srv_queue s' -> is_Some (srv_conns s' !! d)).
Proof.
  intros H Hn Hc. destruct pc as [| |fd| |c|c rc|c r|]; cbn [run_work] in H.
  - by destruct (sv_running _); inversion H; subst.
  - by inversion H; subst.
  - by destruct (fd && srv_open s); inversion H; subst.
  - destruct (srv_listening s); [|by inversion H; subst]. destruct e as [|n]; [by inversion H; subst|].
    destruct (srv_queue s) as [|d q] eqn:Eq; inversion H; subst. by cbn in *.
  - destruct e as [|n]; [by inversion H; subst|].
    destruct (srv_conns s !! c) as [[[|d ds] cl]|] eqn:Ec; [destruct cl; by inversion H; subst| |by inversion H; subst].
    inversion H; subst. split; [done|]. intros d' Hd. cbn. destruct (decide (d' = c)) as [->|].
    + rewrite lookup_insert_eq. by eexists.
    + rewrite lookup_insert_ne by done. by apply Hc.
  - destruct (serve handlers rc (srv_app s)). inversion H; subst. done.
  - inversion H; subst. cbn in *. apply NoDup_cons in Hn as [Hn1 Hn2]. split; [done|].
    intros d Hd. rewrite lookup_delete_ne; [apply Hc; by right|]. by intros ->.
  - done.
Qed.

Lemma outside_line v s h :
  NoDup (h ++ srv_queue s) -> (forall d, d ∈ h ++ srv_queue s -> is_Some (srv_conns s !! d)) ->
  NoDup (h ++ srv_queue (outside_step room v s)) /\
  (forall d, d ∈ h ++ srv_queue (outside_step room v s) -> is_Some (srv_conns (outside_step room v s) !! d)).
Proof.
  intros Hn Hc. destruct v as [c|c bytes|c|f]; cbn [outside_step].
  - destruct (accepting s && _ && bool_decide (srv_conns s !! c = None)) eqn:E; [|done].
    apply andb_true_iff in E as [_ E%bool_decide_eq_true]. cbn. rewrite app_assoc.
    assert (Hf : c ∉ h ++ srv_queue s) by (intros Hin; destruct (Hc c Hin); congruence).
    split.
    + apply NoDup_app. split; [done|]. split; [|apply NoDup_singleton]. intros d Hd ->%list_elem_of_singleton. done.
    + intros d [Hd|Hd%list_elem_of_singleton]%elem_of_app; [|subst d; rewrite lookup_insert_eq; by eexists].
      rewrite lookup_insert_ne; [by apply Hc|]. by intros ->.
  - split; [done|]. intros d Hd. cbn. rewrite lookup_alter_is_Some. by apply Hc.
  - split; [done|]. intros d Hd. cbn. rewrite lookup_alter_is_Some. by apply Hc.
  - done.
Qed.

Lemma outside_open v s : srv_open (outside_step room v s) = srv_open s.
Proof. destruct v; simpl; try done. by destruct (_ && _). Qed.

Lemma line_sound_nil t w s : srv_queue s = [] -> in_hand t = [] -> line_sound (mkWState (W:=SW) s t w).
Proof. intros H1 H2. unfold line_sound, line. cbn. rewrite H1, H2. split; [by apply NoDup_nil|intros d Hd; by apply not_elem_of_nil in Hd]. Qed.

Lemma line_sound_drop s s' t t' w w' :
  line_sound (mkWState (W:=SW) s t w) -> srv_conns s' = srv_conns s ->
  srv_queue s' = srv_queue s \/ srv_queue s' = [] -> in_hand t' = in_hand t ->
  line_sound (mkWState (W:=SW) s' t' w').
Proof.
  unfold line_sound, line. cbn. intros [H1 H2] -> [->| ->] ->; [done|]. rewrite app_nil_r.
  apply NoDup_app in H1 as [H1 _]. split; [done|]. intros d Hd. apply H2, elem_of_app. by left.
Qed.

Lemma line_sound_step c x : consistent x -> line_sound x -> line_sound (step c x).1.
Proof.
  destruct x as [s t w]. intros Hx Hl. destruct c as [os| | |e|v]; cbn [step].
  - unfold start_call; cbn [ws_owner ws_shared]. destruct w; try done.
    destruct Hx as [Ht Hr]; cbn in Ht, Hr. subst t. cbn [launch SW]. unfold run_launch. rewrite Hr.
    destruct (server_start os bind_ip (srv_object s)) as [[] o]; by apply line_sound_nil.
  - unfold stop_call; cbn [ws_owner ws_shared ws_thread].
    destruct w; try done; by destruct (stop_needed SW s).
  - unfold own_step; cbn [ws_owner ws_shared ws_thread]. destruct w as [| |k|]; [done..| |].
    + destruct k as [|[|[|[|k]]]]; cbn [lookup list_lookup halts SW Nat.eqb]; unfold if_open; try destruct (sv_fd _);
        (eapply line_sound_drop; [exact Hl|done|first [by left|by right]|done]).
    + destruct t as [pc|]; [destruct pc|]; cbn [has_ended ended SW]; try done;
        (eapply line_sound_drop; [exact Hl|done|by left|done]).
  - unfold work_step; cbn [ws_thread ws_shared ws_owner]. destruct t as [pc|]; [|done]. cbn [work SW].
    destruct (run_work handlers e pc s) as [[[pc' s'] o]|] eqn:E; [|done].
    destruct Hl as [H1 H2]. exact (run_work_line _ _ _ _ _ _ E H1 H2).
  - destruct Hl as [H1 H2]. exact (outside_line v s (in_hand t) H1 H2).
Qed.

Lemma up_sound_step c x : consistent x -> up_sound x -> up_sound (step c x).1.
Proof.
  destruct x as [s t w]. intros Hx Hu. destruct c as [os| | |e|v]; cbn [step].
  - unfold start_call; cbn [ws_owner ws_shared]. destruct w; try done.
    destruct Hx as [Ht Hr]; cbn in Ht, Hr. subst t. cbn [launch SW]. unfold run_launch. rewrite Hr.
    unfold server_start. rewrite Hr.
    destruct (so_socket os), (so_valid_ip os bind_ip), (so_bind os), (so_listen os);
      unfold up_sound; cbn; repeat split.
  - unfold stop_call; cbn [ws_owner ws_shared ws_thread]. destruct w; try done; by destruct (stop_needed SW s).
  - unfold own_step; cbn [ws_owner ws_shared ws_thread]. destruct w as [| |k|]; [done..| |].
    + by destruct (halts SW !! k).
    + by destruct (has_ended SW t).
  - unfold work_step; cbn [ws_thread ws_shared ws_owner]. destruct t as [pc|]; [|done]. cbn [work SW].
    destruct (run_work handlers e pc s) as [[[pc' s'] o]|] eqn:E; [|done].
    destruct w; try done. unfold up_sound in *; cbn in *. destruct Hu as (H1 & H2 & H3 & H4).
    destruct Hx as [Hr _]; cbn in Hr. destruct (run_work_object _ _ _ _ _ _ _ E) as (E1 & E2 & E3).
    rewrite E1, E2, E3. split; [done|]. split; [done|]. split; [done|].
    destruct pc as [| |fd| |c|c rc|c r|]; cbn [run_work] in E.
    + rewrite Hr in E. by inversion E.
    + inversion E; subst. done.
    + by destruct (fd && srv_open s); inversion E.
    + destruct (srv_listening s); [|by inversion E]. destruct e; [by inversion E|]. by destruct (srv_queue s); inversion E.
    + destruct e as [|n]; [by inversion E|]. destruct (srv_conns s !! c) as [[[|d ds] []]|]; by inversion E.
    + destruct (serve handlers rc (srv_app s)). by inversion E.
    + by inversion E.
    + done.
  - unfold up_sound in *; cbn in *. destruct w; try done. rewrite outside_object, outside_listening.
    destruct Hu as (H1 & H2 & H3 & H4). split; [done|]. by rewrite outside_open.
Qed.

(** ** Waiting *)

(** Something to read, or the end of the stream. *)
Definition ready s (c : nat) : Prop :=
  exists cn, srv_conns s !! c = Some cn /\ (cn_data cn <> [] \/ cn_closed cn = true).

(** Turns until the thread accepts again. *)
Definition to_wait (pc : ServerPc) : nat :=
  match pc with SWait | SEnd => 0 | SAccept _ => 1 | SLoad => 2 | SCheck => 3 | SSend _ _ => 4 | SHandle _ _ => 5 | SRecv _ => 6 end.

(** The thread does not wait for a silent client. *)
Definition not_held s (t : option ServerPc) : Prop := match t with Some (SRecv d) => ready s d | _ => True end.

(** Where [c] is: with the thread, or in the line behind clients that are ready. *)
Definition position (c n : nat) (pc : ServerPc) s : Prop :=
  (in_hand (Some pc) = [c] /\ to_wait pc <= n + 3)%nat \/
  exists q1 q2, srv_queue s = q1 ++ c :: q2 /\ Forall (ready s) (q1 ++ [c]) /\
    (to_wait pc + 7 * length q1 + 4 <= n)%nat.

(** [c] is answered within [n] turns of the thread. *)
Definition due (c n : nat) x : Prop :=
  consistent x /\ line_sound x /\ up_sound x /\ ws_owner x = Running /\ not_held (ws_shared x) (ws_thread x) /\
  exists pc, ws_thread x = Some pc /\ position c n pc (ws_shared x).

Lemma ready_outside v s c : ready s c -> ready (outside_step room v s) c.
Proof.
  intros (cn & Hc & Hr). unfold ready. destruct v as [d|d bytes|d|f]; cbn [outside_step]; [|cbn..].
  - destruct (accepting s && _ && bool_decide (srv_conns s !! d = None)) eqn:E; [|by exists cn].
    apply andb_true_iff in E as [_ E%bool_decide_eq_true]. cbn. rewrite lookup_insert_ne by congruence. by exists cn.
  - destruct (decide (c = d)) as [->|]; [|rewrite lookup_alter_ne by done; by exists cn].
    rewrite lookup_alter_eq, Hc. cbn. eexists. split; [done|]. destruct (cn_closed cn) eqn:Ec; [by right|]. left. cbn.
    destruct Hr as [Hr|]; [|done]. by destruct (cn_data cn).
  - destruct (decide (c = d)) as [->|]; [|rewrite lookup_alter_ne by done; by exists cn].
    rewrite lookup_alter_eq, Hc. cbn. eexists. split; [done|]. by right.
  - by exists cn.
Qed.

Lemma outside_queue v s : exists q, srv_queue (outside_step room v s) = srv_queue s ++ q.
Proof.
  destruct v as [d|d bytes|d|f]; cbn [outside_step]; [|exists []; by rewrite app_nil_r..].
  case_match; [by exists [d]|exists []; by rewrite app_nil_r].
Qed.

(** No failing calls, and [stop] is not called. *)
Definition undisturbed (ch : Choice SW) : bool := match ch with Stop | Work Fails => false | _ => true end.

Definition answered (c : nat) (l : list (Label SW)) : Prop := exists response, Out (W:=SW) (Replied c response) ∈ l.

Lemma due_other ch c n x :
  due c n x -> undisturbed ch = true -> is_work ch = false -> due c n (step ch x).1.
Proof.
  intros (Hx & Hl & Hu & Ho & Hh & pc & Ht & Hd) Hs Hw.
  assert (Hx' := proj1 (step_is_quiet ch x Hx)). assert (Hl' := line_sound_step ch x Hx Hl).
  assert (Hu' := up_sound_step ch x Hx Hu). unfold due. split; [exact Hx'|]. split; [exact Hl'|]. split; [exact Hu'|].
  clear Hx' Hl' Hu'. destruct x as [s t w]. cbn [ws_owner ws_thread ws_shared] in *. subst t w.
  destruct ch as [os| | |e|v]; try done; cbn [step].
  - unfold start_call; cbn. split; [done|]. split; [done|]. by exists pc.
  - unfold own_step; cbn. split; [done|]. split; [done|]. by exists pc.
  - cbn. split; [done|]. split; [destruct pc; try done; by apply ready_outside|]. exists pc. split; [done|].
    destruct Hd as [Hd|(q1 & q2 & Hq & Hr & Hn)]; [by left|right].
    destruct (outside_queue v s) as [q Eq]. exists q1, (q2 ++ q). rewrite Eq, Hq, <- app_assoc. split; [done|].
    split; [|done]. eapply Forall_impl; [exact Hr|]. intros d. apply ready_outside.
Qed.

(** Steps that touch neither the line nor the connections. *)
Lemma position_next c n pc pc' s s' :
  in_hand (Some pc) = [] -> to_wait pc = S (to_wait pc') ->
  srv_queue s' = srv_queue s -> srv_conns s' = srv_conns s ->
  position c n pc s -> exists m, n = S m /\ position c m pc' s'.
Proof.
  intros Hh Hw Hq Hc [[H _]|(q1 & q2 & Q1 & Q2 & Q3)]; [congruence|]. exists (n - 1)%nat. split; [lia|]. right.
  exists q1, q2. rewrite Hq. split; [done|]. split; [|lia]. eapply Forall_impl; [exact Q2|].
  intros d (cn & H1 & H2). exists cn. by rewrite Hc.
Qed.

(** The clients of the line do not notice what is done with another one. *)
Lemma position_other c n d pc pc' s s' :
  in_hand (Some pc) = [d] -> in_hand (Some pc') = [d] \/ in_hand (Some pc') = [] -> to_wait pc = S (to_wait pc') ->
  NoDup (d :: srv_queue s) -> srv_queue s' = srv_queue s ->
  (forall e, e <> d -> srv_conns s' !! e = srv_conns s !! e) ->
  (d = c -> in_hand (Some pc') = [d]) ->
  position c n pc s -> exists m, n = S m /\ position c m pc' s'.
Proof.
  intros Hh Hh' Hw [Hn _]%NoDup_cons Hq Hc Hd [[H1 H2]|(q1 & q2 & Q1 & Q2 & Q3)].
  - rewrite Hh in H1. injection H1 as ->. exists (n - 1)%nat.
    assert (Hp : in_hand (Some pc') = [c]) by auto.
    assert (4 <= to_wait pc')%nat by (destruct pc'; simpl in Hp |- *; try done; lia).
    split; [lia|]. left. split; [done|lia].
  - exists (n - 1)%nat. split; [lia|]. right. exists q1, q2. rewrite Hq. split; [done|]. split; [|lia].
    rewrite Forall_forall in *. intros e He. destruct (Q2 e He) as (cn & C1 & C2). exists cn. rewrite Hc; [done|].
    intros ->. apply Hn. rewrite Q1. apply elem_of_app in He as [He|He%list_elem_of_singleton]; [|subst]; set_solver.
Qed.

Definition fd_known (pc : ServerPc) : Prop := match pc with SAccept fd => fd = true | SEnd => False | _ => True end.

(** A turn of the thread. *)
Lemma position_work k c n pc s :
  sv_running (srv_object s) = true -> sv_fd (srv_object s) = true -> srv_open s = true -> srv_listening s = true ->
  fd_known pc -> not_held s (Some pc) -> NoDup (in_hand (Some pc) ++ srv_queue s) -> position c n pc s ->
  exists pc' s' o, run_work handlers (Proceeds k) pc s = Some (pc', s', o) /\ not_held s' (Some pc') /\
    ((exists r, Replied c r ∈ o) \/ exists m, n = S m /\ position c m pc' s').
Proof.
  intros Hr Hf Ho Hli Hfd Hh Hn Hp. destruct pc as [| |fd| |d|d rc|d r|]; cbn [run_work].
  - rewrite Hr. eexists _, _, _. split; [done|]. split; [done|]. right. eapply position_next; [..|exact Hp]; done.
  - eexists _, _, _. split; [done|]. split; [done|]. right. eapply position_next; [..|exact Hp]; done.
  - cbn in Hfd. subst fd. rewrite Ho. eexists _, _, _. split; [done|]. split; [done|]. right. eapply position_next; [..|exact Hp]; done.
  - rewrite Hli. destruct Hp as [[? _]|(q1 & q2 & Q1 & Q2 & Q3)]; [done|]. rewrite Q1.
    destruct q1 as [|d q1]; cbn [app]; eexists _, _, _; (split; [done|]).
    + apply Forall_cons in Q2 as [Q2 _]. split; [exact Q2|]. right. exists (n - 1)%nat. simpl in Q3. split; [lia|].
      left. split; [done|]. simpl. lia.
    + apply Forall_cons in Q2 as [Q2 Q2']. split; [exact Q2|]. right. exists (n - 1)%nat. simpl in Q3. split; [lia|].
      right. exists q1, q2. split; [done|]. split; [exact Q2'|]. simpl. lia.
  - destruct Hh as (cn & C1 & C2). rewrite C1. destruct cn as [[|b bs] cl].
    + destruct C2 as [?|C2]; [done|]. cbn in C2. subst cl. eexists _, _, _. split; [done|]. split; [done|]. right.
      eapply (position_other c n d); [..|exact Hp]; try done; by left.
    + eexists _, _, _. split; [done|]. split; [done|]. right.
      eapply (position_other c n d); [..|exact Hp]; try done; [by left|]. intros e He. cbn. by rewrite lookup_insert_ne.
  - destruct (serve handlers rc (srv_app s)) as [st resp]. eexists _, _, _. split; [done|]. split; [done|]. right.
    eapply (position_other c n d); [..|exact Hp]; try done; by left.
  - eexists _, _, _. split; [done|]. split; [done|]. destruct (decide (d = c)) as [->|Hd].
    + left. eexists. apply list_elem_of_here.
    + right. eapply (position_other c n d); [..|exact Hp]; try done; [by right|].
      intros e He. cbn. by rewrite lookup_delete_ne.
  - done.
Qed.

Lemma due_work k c n x :
  due c n x -> answered c (step (Work (W:=SW) (Proceeds k)) x).2 \/
  exists m, n = S m /\ due c m (step (Work (W:=SW) (Proceeds k)) x).1.
Proof.
  intros (Hx & Hl & Hu & Ho & Hh & pc & Ht & Hd). set (ch := Work (W:=SW) (Proceeds k)).
  assert (Hx' := proj1 (step_is_quiet ch x Hx)). assert (Hl' := line_sound_step ch x Hx Hl).
  assert (Hu' := up_sound_step ch x Hx Hu). destruct x as [s t w]. cbn [ws_owner ws_thread ws_shared] in *. subst t w.
  destruct Hu as (U1 & U2 & U3 & U4). destruct Hx as [Hr _]. destruct Hl as [Hn _].
  destruct (position_work k c n pc s Hr U1 U2 U3 U4 Hh Hn Hd) as (pc' & s' & o & E & Hh' & Hp).
  assert (Hs : step ch (mkWState (W:=SW) s (Some pc) Running) = (mkWState (W:=SW) s' (Some pc') Running, Out (W:=SW) <$> (o : list (w_out SW)))).
  { cbn [ch step]. unfold work_step. cbn [ws_thread ws_shared ws_owner work SW]. by rewrite E. }
  rewrite Hs in *. cbn [fst snd] in *. destruct Hp as [[r Hp]|(m & -> & Hp)].
  - left. exists r. apply list_elem_of_fmap. by eexists.
  - right. exists m. split; [done|]. unfold due; cbn [ws_shared ws_thread ws_owner]. split_and!; try done. by exists pc'.
Qed.

Lemma due_answered cs c n x :
  due c n x -> forallb undisturbed cs = true -> (n <= count is_work cs)%nat -> answered c (exec cs x).2.
Proof.
  revert n x. induction cs as [|ch cs IH]; intros n x Hd Hs Hc.
  - exfalso. destruct Hd as (_ & _ & _ & _ & _ & pc & _ & [[H1 H2]|(q1 & q2 & _ & _ & H3)]); unfold count in Hc; simpl in Hc; [|lia].
    destruct pc; simpl in *; done || lia.
  - cbn [forallb] in Hs. apply andb_true_iff in Hs as [H1 H2]. rewrite count_cons in Hc. rewrite exec_cons. cbn [snd].
    assert (Hcase : answered c (step ch x).2 \/ exists m, (m <= count is_work cs)%nat /\ due c m (step ch x).1).
    { destruct (is_work ch) eqn:Ew; [|right; exists n; split; [lia|by apply due_other]].
      destruct ch as [| | |[|k]|]; try done. destruct (due_work k c n x Hd) as [Ha|(m & -> & Hm)]; [by left|right].
      exists m. split; [lia|done]. }
    destruct Hcase as [[r Hr]|(m & Hm & Hd')].
    + exists r. apply elem_of_app. by left.
    + destruct (IH m _ Hd' H2 Hm) as [r Hr]. exists r. apply elem_of_app. by right.
Qed.

(** ** The request that is handled *)

(** [c] sends nothing more, and [recv] takes what is there. *)
Definition takes_all (c : nat) (D : list ascii) (ch : Choice SW) : bool :=
  match ch with
  | Work (Proceeds k) => (length D <=? k)%nat
  | Outside (Arrive d _) => negb (bool_decide (d = c))
  | _ => true
  end.

(** All that [c] has sent is [D], and it has not been handled. *)
Definition unhandled (c : nat) (D : list ascii) x : Prop :=
  (exists closed, srv_conns (ws_shared x) !! c = Some (mkConn D closed)) /\
  match ws_thread x with Some (SHandle d _) | Some (SSend d _) => d <> c | _ => True end \/
  ws_thread x = Some (SHandle c (Some D)).

Lemma unhandled_outside v c D s t :
  takes_all c D (Outside v) = true -> unhandled c D (mkWState (W:=SW) s t Running) ->
  unhandled c D (mkWState (W:=SW) (outside_step room v s) t Running).
Proof.
  intros Ht [[[cl Hc] H]|H]; [left|by right]. cbn in *. split; [|done]. destruct v as [d|d bytes|d|f]; cbn in *.
  - destruct (accepting s && _ && bool_decide (srv_conns s !! d = None)) eqn:E; [|by exists cl].
    apply andb_true_iff in E as [_ E%bool_decide_eq_true]. cbn. rewrite lookup_insert_ne by congruence. by exists cl.
  - rewrite lookup_alter_ne; [by exists cl|]. intros ->. by rewrite bool_decide_eq_true_2 in Ht.
  - destruct (decide (c = d)) as [->|]; [|rewrite lookup_alter_ne by done; by exists cl].
    rewrite lookup_alter_eq, Hc. by exists true.
  - by exists cl.
Qed.

Lemma unhandled_work k c D pc s pc' s' o w :
  D <> [] -> (length D <= 1023)%nat -> (length D <= k)%nat ->
  NoDup (in_hand (Some pc) ++ srv_queue s) -> Some pc <> Some (SHandle c (Some D)) ->
  run_work handlers (Proceeds k) pc s = Some (pc', s', o) ->
  unhandled c D (mkWState (W:=SW) s (Some pc) w) -> unhandled c D (mkWState (W:=SW) s' (Some pc') w).
Proof.
  intros HD Hl Hk Hn Hne E [[[cl Hc] H]|H]; [|by injection H as ->]. cbn in Hc, H.
  destruct pc as [| |fd| |d|d rc|d r|]; cbn [run_work] in E.
  - left. cbn. destruct (sv_running _); inversion E; subst; by split; [exists cl|].
  - left. inversion E; subst; cbn. by split; [exists cl|].
  - left. destruct (fd && srv_open s); inversion E; subst; cbn; by split; [exists cl|].
  - left. destruct (srv_listening s); [destruct (srv_queue s); [done|]|]; inversion E; subst; cbn; by split; [exists cl|].
  - destruct (decide (d = c)) as [->|Hd].
    + right. rewrite Hc in E. destruct D as [|b D]; [done|]. inversion E; subst; cbn. do 3 f_equal.
      change (take (Nat.min k 1022) D) with (take (Nat.min k 1022) D). f_equal. apply take_ge. simpl in *. lia.
    + left. destruct (srv_conns s !! d) as [[[|b bs] cl']|]; [destruct cl'|..]; inversion E; subst; cbn;
        (split; [|done]); exists cl; rewrite ?lookup_insert_ne by done; done.
  - left. destruct (serve handlers rc (srv_app s)) as [st resp]. inversion E; subst; cbn. by split; [exists cl|].
  - left. inversion E; subst; cbn. split; [|done]. exists cl. by rewrite lookup_delete_ne.
  - done.
Qed.

Lemma unhandled_turn c D pc x :
  ws_thread x = Some pc -> unhandled c D x -> pc = SHandle c (Some D) \/ Some pc <> Some (SHandle c (Some D)).
Proof.
  intros Ht [[_ H]|H]; [right|left; congruence]. rewrite Ht in H. intros [= ->]. done.
Qed.

(** Before that, [c] is not answered. *)
Lemma unhandled_silent c D k x :
  unhandled c D x -> ~ answered c (step (Work (W:=SW) (Proceeds k)) x).2.
Proof.
  destruct x as [s t w]. intros Hu [r Hr]. cbn [step] in Hr. unfold work_step in Hr.
  cbn [ws_thread ws_shared ws_owner work SW] in Hr. destruct t as [pc|]; [|by apply not_elem_of_nil in Hr].
  assert (Hs : forall d resp, pc = SSend d resp -> d <> c).
  { intros d resp ->. by destruct Hu as [[_ H]|H]. }
  destruct (run_work handlers (Proceeds k) pc s) as [[[pc' s'] o]|] eqn:E; [|by apply not_elem_of_nil in Hr].
  cbn [snd] in Hr. apply list_elem_of_fmap in Hr as (o' & [= <-] & Ho).
  destruct pc as [| |fd| |d|d rc|d resp|]; cbn [run_work] in E;
    repeat (case_match; try done); simplify_eq; try by apply not_elem_of_nil in Ho.
  - by apply list_elem_of_singleton in Ho.
  - apply list_elem_of_singleton in Ho as [= <- <-]. by eapply Hs.
Qed.

(** Within its turns, the request is handed to the handler as a whole. *)
Lemma request_handled cs c D n x :
  D <> [] -> (length D <= 1023)%nat ->
  due c n x -> unhandled c D x -> forallb undisturbed cs = true -> forallb (takes_all c D) cs = true ->
  (n <= count is_work cs)%nat ->
  exists cs1 k cs2, cs = cs1 ++ Work (W:=SW) (Proceeds k) :: cs2 /\ ws_thread (exec cs1 x).1 = Some (SHandle c (Some D)).
Proof.
  intros HD Hl. revert n x. induction cs as [|ch cs IH]; intros n x Hd Hu Hs Ht Hc.
  - exfalso. destruct Hd as (_ & _ & _ & _ & _ & pc & _ & [[H1 H2]|(q1 & q2 & _ & _ & H3)]); unfold count in Hc; simpl in Hc; [|lia].
    destruct pc; simpl in *; done || lia.
  - cbn [forallb] in Hs, Ht. apply andb_true_iff in Hs as [S1 S2], Ht as [T1 T2]. rewrite count_cons in Hc.
    assert (Hnext : forall m, due c m (step ch x).1 -> unhandled c D (step ch x).1 -> (m <= count is_work cs)%nat ->
      exists cs1 k cs2, ch :: cs = cs1 ++ Work (W:=SW) (Proceeds k) :: cs2 /\ ws_thread (exec cs1 x).1 = Some (SHandle c (Some D))).
    { intros m Hd' Hu' Hm. destruct (IH m _ Hd' Hu' S2 T2 Hm) as (cs1 & k & cs2 & -> & H).
      exists (ch :: cs1), k, cs2. split; [done|]. by rewrite exec_cons. }
    destruct (is_work ch) eqn:Ew.
    + destruct ch as [| | |[|k]|]; try done. pose proof Hd as (_ & [Hnd _] & _ & Ho & _ & pc & Ex & _).
      destruct (unhandled_turn c D pc x Ex Hu) as [He|He]; [exists [], k, cs; split; [done|]; cbn [exec fst]; by rewrite Ex, He|].
      destruct (due_work k c n x Hd) as [Ha|(m & -> & Hm)].
      * exfalso. eapply unhandled_silent; [exact Hu|exact Ha].
      * apply (Hnext m); [done| |lia]. destruct x as [s t w]. cbn in Ex, Ho. subst t w. cbn [step].
        unfold work_step; cbn [ws_thread ws_shared ws_owner work SW].
        destruct (run_work handlers (Proceeds k) pc s) as [[[pc' s'] o]|] eqn:E; [|exact Hu].
        eapply unhandled_work; [exact HD|exact Hl| |exact Hnd|exact He|exact E|exact Hu].
        by apply Nat.leb_le in T1.
    + apply (Hnext n); [by apply due_other| |lia]. pose proof Hd as (_ & _ & _ & Ho & _).
      destruct x as [s t w]. cbn in Ho. subst w. destruct ch as [os| | |e|v]; try done. by apply unhandled_outside.
Qed.

(** ** Clients in line *)

Lemma reachable_sound s cs :
  server_down s -> srv_queue s = [] ->
  consistent (exec cs (at_rest s)).1 /\ line_sound (exec cs (at_rest s)).1 /\ up_sound (exec cs (at_rest s)).1.
Proof.
  intros Hd Hq. destruct (at_rest_sound handlers bind_ip room s Hd) as [H0 _].
  apply (exec_invariant (fun y => consistent y /\ line_sound y /\ up_sound y)).
  - intros ch y (H1 & H2 & H3). split; [by apply step_is_quiet|]. split; [by apply line_sound_step|by apply up_sound_step].
  - split; [exact H0|]. split; [by apply line_sound_nil|done].
Qed.

Lemma waiting_due s cs c q1 q2 :
  server_down s -> srv_queue s = [] ->
  let x := (exec cs (at_rest s)).1 in
  ws_owner x = Running -> not_held (ws_shared x) (ws_thread x) ->
  srv_queue (ws_shared x) = q1 ++ c :: q2 -> Forall (ready (ws_shared x)) (q1 ++ [c]) ->
  due c (10 + 7 * length q1) x.
Proof.
  intros Hd Hq x Ho Hh Hx Hr. destruct (reachable_sound s cs Hd Hq) as (I1 & I2 & I3). fold x in I1, I2, I3.
  assert (Ht : exists pc, ws_thread x = Some pc).
  { unfold consistent in I1. rewrite Ho in I1. destruct I1 as [_ I1]. destruct (ws_thread x) as [pc|]; [by exists pc|done]. }
  destruct Ht as [pc Ht]. split; [done|]. split; [done|]. split; [done|]. split; [done|]. split; [done|].
  exists pc. split; [done|]. right. exists q1, q2. split; [done|]. split; [done|]. destruct pc; simpl; lia.
Qed.

Lemma waiting_unhandled s cs c D closed q1 q2 :
  server_down s -> srv_queue s = [] ->
  let x := (exec cs (at_rest s)).1 in
  srv_queue (ws_shared x) = q1 ++ c :: q2 -> srv_conns (ws_shared x) !! c = Some (mkConn D closed) -> unhandled c D x.
Proof.
  intros Hd Hq x Hx Hc. destruct (reachable_sound s cs Hd Hq) as (_ & [I2 _] & _). fold x in I2. left.
  split; [by exists closed|]. unfold line in I2. rewrite Hx in I2. apply NoDup_app in I2 as (_ & I2 & _).
  destruct (ws_thread x) as [[| |fd| |d|d rc|d r|]|]; try done; intros ->; apply (I2 c); set_solver.
Qed.
End server.

Arguments ready {St} s c.
Arguments not_held {St} s t.
Arguments undisturbed {St handlers bind_ip room} ch.
Arguments answered {St handlers bind_ip room} c l.
Arguments takes_all {St handlers bind_ip room} c D ch.

(** ** Property *)

(** C20: Every command is answered in bounded time, silent clients aside. In every
    state a running server can get into: a client that has sent something, or closed
    its side, and waits to be accepted behind [n] others, all of which have, too, is
    answered within [10 + 7 n] turns of the thread, whatever the other clients and the
    rest of the program do meanwhile, unless [stop] is called or a system call fails;
    provided that the thread is not reading from a silent client. *)
Theorem server_answers {St : Type} (handlers : gmap string (Handler St)) (bind_ip : string) (room : nat)
    (s : Server) (cs : list (Choice (server_worker handlers bind_ip room))) (c : nat) (q1 q2 : list nat) :
  server_down s -> srv_queue s = [] ->
  let x := (exec cs (at_rest s)).1 in
  ws_owner x = Running -> not_held (ws_shared x) (ws_thread x) ->
  srv_queue (ws_shared x) = q1 ++ c :: q2 -> Forall (ready (ws_shared x)) (q1 ++ [c]) ->
  forall cs', forallb undisturbed cs' = true -> (10 + 7 * length q1 <= count is_work cs')%nat ->
  answered c (exec cs' x).2.
Proof.
  intros Hd Hq x Ho Hh Hx Hr cs' Hs Hn. eapply due_answered; [by eapply waiting_due|exact Hs|exact Hn].
Qed.

(** Client 8 has sent a command; client 7, before it, has closed without one. *)
Definition two_waiting : list (Choice demo_server) :=
  [Start (W:=demo_server) os_ready; Outside (W:=demo_server) (Connect 7); Outside (W:=demo_server) (Connect 8);
   Outside (W:=demo_server) (Arrive 8 demo_request); Outside (W:=demo_server) (Close 7)].

Lemma server_answers_witness :
  answered 8 (exec (replicate 17 (Work (W:=demo_server) (Proceeds 3))) (exec two_waiting (at_rest fresh_server)).1).2.
Proof.
  apply (server_answers demo_handlers "0.0.0.0" 9 fresh_server two_waiting 8 [7%nat] []).
  - repeat split.
  - reflexivity.
  - vm_compute. reflexivity.
  - vm_compute. exact I.
  - vm_compute. reflexivity.
  - repeat constructor; [exists (mkConn [] true)|exists (mkConn demo_request false)];
      (split; [vm_compute; reflexivity|vm_compute]); [by right|left; discriminate].
  - reflexivity.
  - vm_compute. lia.
Defined.
