(* ===== verification/EndToEndControl.v ===== *)
(** * EndToEndControl: from a client's line to the follower

    The command server of [ControlServer] with the handlers of [FollowerApp]: what a
    client that waits in line has sent takes effect on the follower within a bounded
    number of turns of the server thread, as the command event of [follower_run]. *)

From S2P Require Import Prelude Float64 Safety RuntimeControl Control FollowerApp FollowerFacts.
From S2P Require Import Workers ControlServer ServerAnswers.
From stdpp Require Import gmap.
From Stdlib Require Import Ascii.

Open Scope Z_scope.

(** An estop command puts both safety managers into ESTOP, whatever their state. *)
Lemma estop_command env line (a : FollowerApp) :
  fcommand_word line = "estop" ->
  sm_state (fo_safety (fa_right (handle_command (follower_handlers env) line a).1)) = ESTOP /\
  sm_state (fo_safety (fa_left (handle_command (follower_handlers env) line a).1)) = ESTOP.
Proof.
  unfold fcommand_word, handle_command. destruct (split_first (trim line)) as [w [rest|]]; cbn [fst]; intros ->;
    unfold follower_handlers, register_handler; rewrite !lookup_insert_ne by done; by rewrite lookup_insert_eq.
Qed.

(** C6: A command sent over the network takes effect, an estop in particular. In
    every state a running command server of the follower can get into: a client has
    sent a request of at most 1023 bytes and waits to be accepted behind [n] others,
    all of which have sent something or closed, and the thread is not reading from a
    silent client. Then, as long as [stop] is not called, no system call fails, the
    client sends nothing else and [recv] takes all that has arrived, the thread
    handles the request within [10 + 7 n] turns, and the state of the follower then
    changes as by the command event of [follower_run] with the request's text,
    whatever the control loop, the receivers and the other clients do meanwhile. If
    the command is estop, both safety managers are then in ESTOP. *)
Theorem command_takes_effect (env : FollowerEnv) (tanh : double -> double) (bind_ip : string) (room : nat)
    (s : Server) (cs : list (Choice (server_worker (follower_handlers env) bind_ip room)))
    (c : nat) (D : list ascii) (closed : bool) (q1 q2 : list nat) :
  server_down s -> srv_queue s = [] -> D <> [] -> (length D <= 1023)%nat ->
  let x := (exec cs (at_rest s)).1 in
  ws_owner x = Running -> not_held (ws_shared x) (ws_thread x) ->
  srv_queue (ws_shared x) = q1 ++ c :: q2 -> Forall (ready (ws_shared x)) q1 ->
  srv_conns (ws_shared x) !! c = Some (mkConn D closed) ->
  forall cs', forallb undisturbed cs' = true -> forallb (takes_all c D) cs' = true ->
  (10 + 7 * length q1 <= count is_work cs')%nat ->
  exists cs1 k cs2, cs' = cs1 ++ Work (W:=server_worker (follower_handlers env) bind_ip room) (Proceeds k) :: cs2 /\
    let a := srv_app (ws_shared (exec cs1 x).1) in
    let a' := srv_app (ws_shared (exec (cs1 ++ [Work (W:=server_worker (follower_handlers env) bind_ip room) (Proceeds k)]) x).1) in
    follower_event env tanh (FvCommand (c_string D)) a = Ok (a', None) /\
    (fcommand_word (c_string D) = "estop" ->
     sm_state (fo_safety (fa_right a')) = ESTOP /\ sm_state (fo_safety (fa_left a')) = ESTOP).
Proof.
  intros Hd Hq HD Hl x Ho Hh Hx Hr Hc cs' Hs Ht Hn.
  assert (Hrc : Forall (ready (ws_shared x)) (q1 ++ [c])).
  { apply Forall_app. split; [exact Hr|]. apply Forall_singleton. exists (mkConn D closed). split; [exact Hc|by left]. }
  destruct (request_handled _ _ _ cs' c D _ x HD Hl (waiting_due _ _ _ s cs c q1 q2 Hd Hq Ho Hh Hx Hrc)
    (waiting_unhandled _ _ _ s cs c D closed q1 q2 Hd Hq Hx Hc) Hs Ht Hn) as (cs1 & k & cs2 & -> & Hp).
  exists cs1, k, cs2. split; [done|]. cbv zeta. rewrite exec_app_fst. destruct (exec cs1 x).1 as [s1 t1 w1].
  cbn [ws_thread ws_shared] in *. subst t1. cbn [exec step]. unfold work_step; cbn [ws_thread ws_shared ws_owner work server_worker run_work].
  unfold serve. destruct D as [|d D]; [done|]. rewrite take_ge by exact Hl.
  pose proof (estop_command env (c_string (d :: D)) (srv_app s1)) as He.
  destruct (handle_command (follower_handlers env) (c_string (d :: D)) (srv_app s1)) as [a' r] eqn:E.
  cbn [fst snd ws_shared set_app srv_app follower_event] in *. rewrite E. split; [done|exact He].
Qed.

(** ** A concrete network *)

Abbreviation test_server := (server_worker (follower_handlers test_fenv) "0.0.0.0" 9).

Definition test_follower_server : Server := mkSrv server_new false false [] ∅ (test_fapp false []).

(** Client 4 has connected and closed again; client 5 has sent an estop. *)
Definition estop_sent : list (Choice test_server) :=
  [Start (W:=test_server) os_ready; Outside (W:=test_server) (Connect 4); Outside (W:=test_server) (Connect 5);
   Outside (W:=test_server) (Arrive 5 (String.list_ascii_of_string "estop")); Outside (W:=test_server) (Close 4)].

Lemma command_takes_effect_witness :
  let x := (exec estop_sent (at_rest test_follower_server)).1 in
  sm_state (fo_safety (fa_right (srv_app (ws_shared x)))) <> ESTOP /\
  exists cs1, let a' := srv_app (ws_shared (exec cs1 x).1) in
    sm_state (fo_safety (fa_right a')) = ESTOP /\ sm_state (fo_safety (fa_left a')) = ESTOP.
Proof.
  intros x. split; [vm_compute; discriminate|].
  destruct (command_takes_effect test_fenv id "0.0.0.0" 9 test_follower_server estop_sent 5
    (String.list_ascii_of_string "estop") false [4%nat] []) with (cs' := replicate 17 (Work (W:=test_server) (Proceeds 9)))
    as (cs1 & k & cs2 & _ & _ & He).
  - repeat split.
  - reflexivity.
  - discriminate.
  - vm_compute. lia.
  - vm_compute. reflexivity.
  - vm_compute. exact I.
  - vm_compute. reflexivity.
  - repeat constructor. exists (mkConn [] true). split; [vm_compute; reflexivity|by right].
  - vm_compute. reflexivity.
  - reflexivity.
  - vm_compute. reflexivity.
  - vm_compute. lia.
  - eexists. apply He. vm_compute. reflexivity.
Defined.
