(* ===== verification/Lifetimes.v ===== *)
(** * Lifetimes: what callbacks refer to is still there

    The [main] functions hand lambdas that refer to local variables to receivers,
    timers and the command server. A local variable is destroyed when its scope is
    left, in the reverse order of the declarations; the destructor of an object with
    a thread first joins it ([Workers]). Here, a [main] is the sequence of its
    declarations, starts, stops and returns, as far as they concern objects with
    threads and the variables their callbacks use. *)

From S2P Require Import Prelude.
From stdpp Require Import sets list.

Open Scope Z_scope.

(** ** Scopes *)

(** Variables are known by their names. *)
Abbreviation Var := string.

Inductive Stmt :=
| NewVar (o : Var)
| Launch (w : Var) (uses : list Var)   (* the thread of [w] runs callbacks that refer to [uses] *)
| Rebind (w : Var) (uses : list Var)   (* a function the callbacks of [w] call is assigned: they refer to more *)
| Halt (w : Var)                       (* the thread of [w] is joined *)
| Leave.                               (* a return under a condition *)

(** The variables that exist, the newest first; the threads that run, with what
    their callbacks refer to. *)
Record Scope := mkScope { alive : list Var; serving : list (Var * list Var) }.

(** Where [main] is: before some statements, or leaving its scope. *)
Inductive Place := Body (l : list Stmt) | Unwinding.

Definition halt (w : Var) (sc : Scope) : Scope :=
  mkScope (alive sc) (filter (fun '(v, _) => v <> w) (serving sc)).

Definition rebind (w : Var) (uses : list Var) (sc : Scope) : Scope :=
  mkScope (alive sc) ((fun '(v, us) => (v, if decide (v = w) then uses ++ us else us)) <$> serving sc).

(** One step. [taken]: a start that depends on an option is executed, a return is
    taken. *)
Definition scope_step (taken : bool) (p : Place) (sc : Scope) : Place * Scope :=
  match p with
  | Body [] => (Unwinding, sc)
  | Body (s :: l) =>
      match s with
      | NewVar o => (Body l, mkScope (o :: alive sc) (serving sc))
      | Launch w uses => (Body l, if taken then mkScope (alive sc) ((w, uses) :: serving sc) else sc)
      | Rebind w uses => (Body l, rebind w uses sc)
      | Halt w => (Body l, halt w sc)
      | Leave => (if taken then Unwinding else Body l, sc)
      end
  | Unwinding =>
      match alive sc with
      | [] => (Unwinding, sc)
      | o :: rest => (Unwinding, let sc := halt o sc in mkScope rest (serving sc))
      end
  end.

Fixpoint scope_run (turns : list bool) (p : Place) (sc : Scope) : Place * Scope :=
  match turns with
  | [] => (p, sc)
  | b :: turns => let '(p, sc) := scope_step b p sc in scope_run turns p sc
  end.

Definition scope_start (l : list Stmt) : Place * Scope := (Body l, mkScope [] []).

Definition scope_after (l : list Stmt) (turns : list bool) : Scope :=
  (scope_run turns (Body l) (mkScope [] [])).2.

(** Threads whose callbacks refer to a variable that does not exist, with it. *)
Definition dangling (sc : Scope) : list (Var * Var) :=
  '(w, uses) ← serving sc; (fun o => (w, o)) <$> filter (fun o => o ∉ alive sc) uses.

(** ** All executions at once *)

(** [P] holds in every scope from here on. *)
Section explore.
Context (P : Scope -> bool).

Fixpoint unwind_ok (alive : list Var) (sv : list (Var * list Var)) : bool :=
  P (mkScope alive sv) &&
  match alive with
  | [] => true
  | o :: rest => unwind_ok rest (serving (halt o (mkScope (o :: rest) sv)))
  end.

Fixpoint explore (l : list Stmt) (sc : Scope) : bool :=
  P sc &&
  match l with
  | [] => unwind_ok (alive sc) (serving sc)
  | s :: l =>
      match s with
      | NewVar o => explore l (mkScope (o :: alive sc) (serving sc))
      | Launch w uses => explore l (mkScope (alive sc) ((w, uses) :: serving sc)) && explore l sc
      | Rebind w uses => explore l (rebind w uses sc)
      | Halt w => explore l (halt w sc)
      | Leave => unwind_ok (alive sc) (serving sc) && explore l sc
      end
  end.

Definition place_ok (p : Place) (sc : Scope) : bool :=
  match p with Body l => explore l sc | Unwinding => unwind_ok (alive sc) (serving sc) end.

Lemma unwind_here sc : unwind_ok (alive sc) (serving sc) = true -> P sc = true.
Proof. destruct sc as [[|o l] sv]; cbn; intros [H _]%andb_true_iff; exact H. Qed.

Lemma place_here p sc : place_ok p sc = true -> P sc = true.
Proof.
  destruct p as [l|]; cbn [place_ok]; [|apply unwind_here].
  destruct l; cbn [explore]; by intros [H _]%andb_true_iff.
Qed.

Lemma place_step b p sc : place_ok p sc = true -> place_ok (scope_step b p sc).1 (scope_step b p sc).2 = true.
Proof.
  destruct p as [[|s l]|]; cbn [place_ok explore scope_step].
  - by intros [_ H]%andb_true_iff.
  - intros [_ H]%andb_true_iff. destruct s; cbn [fst snd place_ok]; try done.
    + apply andb_true_iff in H as [H1 H2]. by destruct b.
    + apply andb_true_iff in H as [H1 H2]. by destruct b.
  - destruct sc as [[|o rest] sv]; [done|]. cbn. by intros [_ H]%andb_true_iff.
Qed.

(** What holds of the exploration holds of every execution. *)
Lemma explore_sound l turns : explore l (mkScope [] []) = true -> P (scope_after l turns) = true.
Proof.
  intros H. unfold scope_after. change (explore l (mkScope [] [])) with (place_ok (Body l) (mkScope [] [])) in H.
  revert H. generalize (Body l) (mkScope [] []). induction turns as [|b turns IH]; intros p sc H; cbn [scope_run snd].
  - by apply place_here in H.
  - apply (place_step b) in H. destruct (scope_step b p sc) as [p' sc']. by apply IH.
Qed.
End explore.

(** An object whose callbacks refer to variables declared before it is safe
    wherever [main] is left. *)
Definition no_dangling (sc : Scope) : bool := bool_decide (dangling sc = []).

(** ** The discipline *)

(** The variables declared before [w]. *)
Fixpoint older (w : Var) (l : list Var) : option (list Var) :=
  match l with
  | [] => None
  | o :: l => if decide (o = w) then Some l else older w l
  end.

Definition refers_back (w : Var) (uses l : list Var) : Prop :=
  exists r, older w l = Some r /\ uses ⊆ r.

#[export] Instance refers_back_dec w uses l : Decision (refers_back w uses l).
Proof.
  destruct (older w l) as [r|] eqn:E; [destruct (decide (uses ⊆ r))|]; [left; by exists r|right..];
    by intros (r' & H & ?); simplify_eq.
Defined.

(** Names are unique, and callbacks refer to variables that were declared before the
    object whose thread runs them. *)
Fixpoint disciplined (al : list Var) (l : list Stmt) : bool :=
  match l with
  | [] => true
  | s :: l =>
      match s with
      | NewVar o => bool_decide (o ∉ al) && disciplined (o :: al) l
      | Launch w uses | Rebind w uses => bool_decide (refers_back w uses al) && disciplined al l
      | Halt _ | Leave => disciplined al l
      end
  end.

(** Every running thread refers back. *)
Definition scope_sound (sc : Scope) : Prop :=
  forall w uses, (w, uses) ∈ serving sc -> refers_back w uses (alive sc).

Lemma older_subset w l r : older w l = Some r -> r ⊆ l /\ w ∈ l.
Proof.
  induction l as [|o l IH]; cbn [older]; [done|]. destruct (decide (o = w)) as [->|].
  - intros [= ->]. set_solver.
  - intros H. destruct (IH H). set_solver.
Qed.

Lemma sound_no_dangling sc : scope_sound sc -> dangling sc = [].
Proof.
  intros Hs. destruct (dangling sc) as [|[w o] l] eqn:E; [done|]. exfalso.
  assert (H : (w, o) ∈ dangling sc) by (rewrite E; apply list_elem_of_here).
  unfold dangling in H. apply list_elem_of_bind in H as ([v uses] & H & Hv).
  apply list_elem_of_fmap in H as (o' & [= -> ->] & [Hn Ho]%list_elem_of_filter).
  destruct (Hs _ _ Hv) as (r & Hr & Hu). apply older_subset in Hr as [Hr _]. apply Hn, Hr, Hu, Ho.
Qed.

Lemma sound_halt w sc : scope_sound sc -> scope_sound (halt w sc).
Proof. intros Hs v uses Hv. unfold halt in Hv. cbn in *. apply list_elem_of_filter in Hv as [_ Hv]. by apply Hs. Qed.

(** Leaving a variable: its own thread has been joined, and the others do not
    refer to it. *)
Lemma sound_pop o rest sv : scope_sound (mkScope (o :: rest) sv) -> scope_sound (mkScope rest (serving (halt o (mkScope (o :: rest) sv)))).
Proof.
  intros Hs w uses Hw. cbn in *. apply list_elem_of_filter in Hw as [Hne Hw].
  destruct (Hs _ _ Hw) as (r & Hr & Hu). cbn in Hr. rewrite decide_False in Hr by done. by exists r.
Qed.

Lemma sound_declare o sc : o ∉ alive sc -> scope_sound sc -> scope_sound (mkScope (o :: alive sc) (serving sc)).
Proof.
  intros Ho Hs w uses Hw. destruct (Hs _ _ Hw) as (r & Hr & Hu). exists r. cbn.
  apply older_subset in Hr as Hw'. rewrite decide_False; [done|]. intros ->. by destruct Hw'.
Qed.

Lemma sound_rebind w uses sc : refers_back w uses (alive sc) -> scope_sound sc -> scope_sound (rebind w uses sc).
Proof.
  intros (r & Hr & Hu) Hs v us Hv. cbn in Hv. apply list_elem_of_fmap in Hv as ([v' us'] & [= -> ->] & Hv).
  destruct (Hs _ _ Hv) as (r' & Hr' & Hu'). exists r'. split; [done|].
  destruct (decide (v' = w)) as [->|]; [|done]. simplify_eq. set_solver.
Qed.

(** Every execution of a disciplined scope is sound. *)
Lemma disciplined_step b l sc :
  disciplined (alive sc) l = true -> scope_sound sc ->
  scope_sound (scope_step b (Body l) sc).2 /\
  match (scope_step b (Body l) sc).1 with Body l' => disciplined (alive (scope_step b (Body l) sc).2) l' = true | Unwinding => True end.
Proof.
  destruct l as [|s l]; cbn [disciplined scope_step]; [done|]. intros Hd Hs.
  destruct s as [o|w uses|w uses|w|]; cbn [fst snd alive] in *; try apply andb_true_iff in Hd as [H1%bool_decide_eq_true Hd].
  - split; [by apply sound_declare|done].
  - destruct b; [|done]. split; [|done]. intros v us. cbn. intros [[= -> ->]|Hv]%elem_of_cons; [done|by apply Hs].
  - split; [by apply sound_rebind|done].
  - split; [by apply sound_halt|done].
  - by destruct b.
Qed.

Lemma disciplined_run turns p sc :
  match p with Body l => disciplined (alive sc) l = true | Unwinding => True end -> scope_sound sc ->
  scope_sound (scope_run turns p sc).2.
Proof.
  revert p sc. induction turns as [|b turns IH]; intros p sc Hp Hs; cbn [scope_run]; [done|].
  destruct p as [l|].
  - destruct (disciplined_step b l sc Hp Hs) as [H1 H2]. destruct (scope_step b (Body l) sc) as [p' sc']. by apply IH.
  - destruct sc as [[|o rest] sv]; cbn [scope_step alive]; apply IH; try done. by apply sound_pop.
Qed.

Lemma disciplined_safe l turns : disciplined [] l = true -> dangling (scope_after l turns) = [].
Proof.
  intros Hd. apply sound_no_dangling. unfold scope_after. apply disciplined_run; [done|].
  intros w uses Hw. by apply not_elem_of_nil in Hw.
Qed.

(** ** The programs *)

(** [wifi_bimanual_leader.cpp]: the lambdas of the command server call each other;
    what they refer to, directly or through another lambda. *)
Definition leader_variables : list Stmt :=
  NewVar <$> ["follower_ip"; "right_port"; "left_port"; "bi"; "gate"; "engager_r"; "engager_l"; "engager_mutex";
               "fb_buffer_r"; "fb_buffer_l"; "fb_receiver_r"; "fb_receiver_l"; "leader_link"; "link_result"; "gate_mutex";
               "refresh_link"; "evaluate_gate"].

(** One of the two receivers may run when the program returns because the other
    does not start. *)
Definition leader_feedback_scope : list Stmt :=
  [Leave; Launch "fb_receiver_r" ["fb_buffer_r"]; Leave; Launch "fb_receiver_l" ["fb_buffer_l"]].

Definition gate_uses : list Var := ["bi"; "gate"; "gate_mutex"; "link_result"; "fb_buffer_r"; "fb_buffer_l"].

Definition leader_server_scope : list Stmt :=
  [NewVar "bilateral_status_json"; NewVar "bilateral_summary_json"; NewVar "runtime_control"; Leave;
   Launch "runtime_control"
     (["refresh_link"; "evaluate_gate"; "bilateral_status_json"; "bilateral_summary_json"; "follower_ip"; "right_port";
       "left_port"; "leader_link"; "engager_r"; "engager_l"; "engager_mutex"] ++ gate_uses)].

(** After the loop. *)
Definition leader_exit_scope : list Stmt := [Halt "fb_receiver_r"; Halt "fb_receiver_l"].

Definition leader_scope : list Stmt :=
  leader_variables ++ leader_feedback_scope ++ leader_server_scope ++ leader_exit_scope.

(** [wifi_vr_bimanual_leader.cpp]. *)
Definition vr_receiver_scope : list Stmt :=
  (NewVar <$> ["cfg"; "viz_sender"; "current_vr_state"; "vr_mutex"; "vr_connected"; "last_vr_time"; "vr_receiver"]) ++
  [Launch "vr_receiver" ["vr_mutex"; "current_vr_state"; "cfg"; "vr_connected"; "last_vr_time"; "viz_sender"]].

Definition tel_receiver_scope : list Stmt :=
  (NewVar <$> ["tel_mutex"; "robot_q_r_fb"; "robot_q_l_fb"; "last_tel_time"; "tel_connected"; "tel_receiver"]) ++
  [Launch "tel_receiver" ["tel_mutex"; "robot_q_r_fb"; "robot_q_l_fb"; "last_tel_time"; "tel_connected"]].

Definition vr_exit_scope : list Stmt := [Halt "vr_receiver"; Halt "tel_receiver"].

Definition vr_scope : list Stmt := vr_receiver_scope ++ tel_receiver_scope ++ vr_exit_scope.

(** [wifi_single_follower.cpp]: the callback uses the globals only. *)
Definition single_follower_scope : list Stmt :=
  [NewVar "rate_limiter"; NewVar "receiver"; Leave; Launch "receiver" []; Leave; Halt "receiver"].

(** [openarm_bilateral_control.cpp], [openarm_unilateral_control.cpp]: the base class
    joins the thread, and [on_timer] uses the derived object, which is constructed
    after the base and destroyed before it. *)
Definition arm_threads_scope : list Stmt :=
  (NewVar <$> ["leader_thread (base)"; "leader_thread"; "follower_thread (base)"; "follower_thread";
                "admin_thread (base)"; "admin_thread"]) ++
  [Launch "leader_thread (base)" ["leader_thread"]; Launch "follower_thread (base)" ["follower_thread"];
   Launch "admin_thread (base)" ["admin_thread"];
   Halt "leader_thread (base)"; Halt "follower_thread (base)"; Halt "admin_thread (base)"].

(** [wifi_bimanual_follower.cpp]: the status handler calls [feedback_status_json],
    which is assigned after the server has been started. *)
Definition follower_server_scope : list Stmt :=
  [NewVar "feedback_status_json"; NewVar "runtime_control"; Leave; Launch "runtime_control" ["feedback_status_json"]].

Definition follower_receivers_scope : list Stmt :=
  [NewVar "receiver_r"; NewVar "receiver_l"; Leave; Launch "receiver_r" []; Leave; Launch "receiver_l" []].

Definition feedback_uses : list Var := ["fb_settings"; "fb_link_ok"; "fb_link"; "fb_seq"].

Definition follower_feedback_scope : list Stmt :=
  [NewVar "telemetry_pub"; Leave; NewVar "fb_settings"; NewVar "fb_sender_r"; NewVar "fb_sender_l";
   NewVar "fb_link"; NewVar "fb_link_ok"; NewVar "fb_seq"; Rebind "runtime_control" feedback_uses].

(** The returns of the start in real mode. *)
Definition follower_arms_scope : list Stmt := replicate 5 Leave.

Definition follower_exit_scope : list Stmt := [Halt "receiver_r"; Halt "receiver_l"].

Definition follower_scope : list Stmt :=
  follower_server_scope ++ follower_receivers_scope ++ follower_feedback_scope ++ follower_arms_scope ++ follower_exit_scope.

(** ** Property *)

(** What may be used after its destruction: only by the command server, and only
    the feedback variables. *)
Definition only_feedback (sc : Scope) : bool :=
  forallb (fun '(w, o) => bool_decide (w = "runtime_control" /\ o ∈ feedback_uses)) (dangling sc).

(** C18: No callback uses a variable that does not exist, but for one. In the
    bimanual leader, the VR leader, the single follower and the programs on one
    computer, wherever [main] is left and however far its destructors have come, no
    thread that has not been joined refers to a variable that has been destroyed (or
    not been created); this holds of every program whose callbacks refer to variables
    declared before the object that runs them. In the follower the same holds of
    everything but the status command: its callback refers to the settings and the
    link of the feedback path, which are declared after the server and so destroyed
    before the server is stopped; a normal shutdown gets there. *)
Theorem callbacks_in_scope :
  (forall l turns, disciplined [] l = true -> dangling (scope_after l turns) = []) /\
  (forall l turns, l ∈ [leader_scope; vr_scope; single_follower_scope; arm_threads_scope] ->
     dangling (scope_after l turns) = []) /\
  (forall turns w o, (w, o) ∈ dangling (scope_after follower_scope turns) ->
     w = "runtime_control" /\ o ∈ feedback_uses) /\
  (exists turns, ("runtime_control", "fb_link") ∈ dangling (scope_after follower_scope turns)).
Proof.
  split; [intros; by apply disciplined_safe|]. split; [|split].
  - assert (H : forallb (fun l => explore no_dangling l (mkScope [] [])) [leader_scope; vr_scope; single_follower_scope; arm_threads_scope] = true)
      by (vm_compute; reflexivity).
    intros l turns Hl. rewrite forallb_forall in H. rewrite list_elem_of_In in Hl.
    apply (bool_decide_eq_true_1 (dangling (scope_after l turns) = [])), (explore_sound no_dangling), H, Hl.
  - intros turns w o Ho. assert (H : explore only_feedback follower_scope (mkScope [] []) = true) by (vm_compute; reflexivity).
    apply (explore_sound only_feedback follower_scope turns) in H. unfold only_feedback in H.
    rewrite forallb_forall in H. rewrite list_elem_of_In in Ho. exact (bool_decide_eq_true_1 _ (H _ Ho)).
  - exists ([false; false; false; true; false; false; false; true; false; true] ++ replicate 9 false ++ replicate 5 false
      ++ replicate 4 false ++ replicate 2 false).
    apply (bool_decide_unpack _). vm_compute. exact I.
Qed.

(** The leader returns because its second feedback receiver does not start. *)
Lemma callbacks_in_scope_witness :
  let sc := scope_after leader_scope (replicate 17 true ++ [false; true; true] ++ replicate 6 true) in
  serving sc = [("fb_receiver_r", ["fb_buffer_r"])] /\ length (alive sc) = 11%nat /\ dangling sc = [].
Proof.
  intros sc. split; [vm_compute; reflexivity|]. split; [vm_compute; reflexivity|].
  apply (proj1 (proj2 callbacks_in_scope) leader_scope). apply list_elem_of_here.
Defined.

(** The timer threads are safe because [main] stops them: the destructors alone would
    destroy the object that [on_timer] works on before the thread is joined. *)
Lemma arm_threads_need_stop :
  ("leader_thread (base)", "leader_thread") ∈ dangling (scope_after (take 9 arm_threads_scope) (replicate 15 true)).
Proof. apply (bool_decide_unpack _). vm_compute. exact I. Qed.
