(* ===== verification/UnitTests.v ===== *)
(** * UnitTests: the repository's tests, run on the model

    [src/tests/*.cpp]: every googletest of the repository, translated to the
    definitions of this development. A test is a boolean, the conjunction of its
    expectations; packets the tests leave uninitialised, clock readings and [tanh]
    are arguments. [unit_tests_pass] gives the results. *)

From S2P Require Import Prelude Float64 Crc32 Wire Packets PacketCodec TeleopStateBuffer FeedbackStateBuffer Safety.
From S2P Require Import LinkCheck BilateralGate BilateralEngager Dynamics RobotState Control ControlFacts.

Open Scope Z_scope.

(** ** Expectations *)

Definition expect (l : list bool) : bool := forallb id l.

(** [EXPECT_DOUBLE_EQ] without its tolerance of 4 ULPs, and [EXPECT_NEAR]. *)
Definition double_eq (a b : double) : bool := deqb a b.
Definition near (a b tol : double) : bool := (dabs (a - b) <=? tol)%D.

(** [text.find(part) != npos]. *)
Definition mentions (part text : string) : bool :=
  match String.index 0 part text with Some _ => true | None => false end.

(** ** test_packet_codec.cpp *)

Definition PacketCodecTest_EncodeDecodeValid (now : Z) (packet : TeleopPacket) : bool :=
  (teleop_decode_and_validate (teleop_encode now packet)).1.

Definition PacketCodecTest_InvalidMagic (now : Z) (packet : TeleopPacket) : bool :=
  let p := teleop_encode now packet in
  let p := mkTeleopPacket 0 (tp_version p) (tp_packet_size p) (tp_seq p) (tp_send_time_ns p) (tp_arm_side p) (tp_mode p)
    (tp_enable p) (tp_estop p) (tp_arm_dof p) (tp_hand_dof p) (tp_reserved0 p) (tp_reserved1 p) (tp_arm_pos p) (tp_arm_vel p)
    (tp_hand_pos p) (tp_hand_vel p) (tp_crc32 p) in
  negb (teleop_decode_and_validate p).1.

Definition PacketCodecTest_InvalidCRC (now : Z) (packet : TeleopPacket) : bool :=
  let p := teleop_encode now packet in
  negb (teleop_decode_and_validate (with_crc (Z.lxor (tp_crc32 p) 0xFF) p)).1.

(** ** test_feedback_codec.cpp *)

(** [p.arm_tau[2] = -1.25] and the echo time, on a cleared packet. *)
Definition feedback_sample : FeedbackPacket :=
  mkFeedbackPacket 0 0 0 0 0 0 0 0 0 0 0 0 0 0 123456789 0 (replicate 8 0) (replicate 8 0)
    (<[2%nat := bits_of_double (- (dlit 125 2))%D]> (replicate 8 0)) (replicate 4 0) (replicate 4 0) (replicate 4 0) 0.

Definition FeedbackCodecTest_EncodeDecodeValid (now : Z) : bool :=
  let p := feedback_encode now feedback_sample in
  let '(ok, q) := feedback_decode_and_validate p in
  expect [fp_magic p =? FEEDBACK_MAGIC; fp_packet_size p =? Z.of_nat (wire_size FeedbackPacket); ok;
          double_eq (double_of_bits (nth 2 (fp_arm_tau q) 0)) (- (dlit 125 2))%D; fp_echo_cmd_send_time_ns q =? 123456789].

Definition with_arm_pos (l : list Z) (p : FeedbackPacket) : FeedbackPacket :=
  mkFeedbackPacket (fp_magic p) (fp_version p) (fp_packet_size p) (fp_seq p) (fp_send_time_ns p) (fp_arm_side p) (fp_mode p)
    (fp_enabled p) (fp_estop p) (fp_arm_dof p) (fp_hand_dof p) (fp_safety_state p) (fp_link_ok p) (fp_echo_cmd_seq p)
    (fp_echo_cmd_send_time_ns p) (fp_cmd_hold_ns p) l (fp_arm_vel p) (fp_arm_tau p) (fp_hand_pos p) (fp_hand_vel p)
    (fp_hand_tau p) (fp_crc32 p).

Definition FeedbackCodecTest_InvalidCRC (now : Z) : bool :=
  let p := feedback_encode now feedback_zero in
  let x := (double_of_bits (nth 0 (fp_arm_pos p) 0%Z) + dlit 1 3)%D in
  negb (feedback_decode_and_validate (with_arm_pos (<[0%nat := bits_of_double x]> (fp_arm_pos p)) p)).1.

(** [memcpy] of the shorter packet over a cleared one. *)
Definition FeedbackCodecTest_TeleopPacketIsNotFeedback (now : Z) : bool :=
  let t := serialize (teleop_encode now teleop_zero) in
  let p : FeedbackPacket := deserialize (t ++ drop (length t) (serialize feedback_zero)) in
  negb (feedback_decode_and_validate p).1.

(** [offsetof] of member [i] in a packed structure. *)
Definition offset (layout : list nat) (i : nat) : nat := list_sum (take i layout).

Definition FeedbackCodecTest_HeaderSharesTeleopLayout : bool :=
  expect (map (fun i => Nat.eqb (offset feedback_layout i) (offset teleop_layout i)) [0; 1; 2; 3; 4]%nat).

(** ** test_seq_loss_detection.cpp and test_state_buffer.cpp *)

Definition with_seq (n : Z) (p : TeleopPacket) : TeleopPacket :=
  mkTeleopPacket (tp_magic p) (tp_version p) (tp_packet_size p) n (tp_send_time_ns p) (tp_arm_side p) (tp_mode p)
    (tp_enable p) (tp_estop p) (tp_arm_dof p) (tp_hand_dof p) (tp_reserved0 p) (tp_reserved1 p) (tp_arm_pos p) (tp_arm_vel p)
    (tp_hand_pos p) (tp_hand_vel p) (tp_crc32 p).

(** [t1], [t2]: the clock when the packets are stored. *)
Section buffer.
Context (uninitialised p1 p2 : TeleopPacket) (t1 t2 : Z).

Definition two_updates (s1 s2 : Z) : TeleopStateBuffer :=
  tsb_update t2 (with_seq s2 p2) (tsb_update t1 (with_seq s1 p1) (tsb_new uninitialised)).

Definition SeqLossDetection_InOrder : bool := tsb_lost_packet_count (two_updates 1 2) =? 0.

Definition SeqLossDetection_OutOfOrderRejected : bool :=
  match tsb_get_latest (two_updates 5 2) with Some latest => tp_seq latest =? 5 | None => false end.

Definition SeqLossDetection_DetectLoss : bool := tsb_lost_packet_count (two_updates 1 5) =? 3.

Definition StateBufferTest_GetLatest : bool :=
  match tsb_get_latest (tsb_update t1 (with_seq 42 p1) (tsb_new uninitialised)) with
  | Some latest => tp_seq latest =? 42
  | None => false
  end.
End buffer.

(** ** test_watchdog.cpp and test_rate_limiter.cpp *)

#[export] Instance WatchdogStatus_eq_dec : EqDecision WatchdogStatus.
Proof. solve_decision. Defined.

Definition WatchdogTest_CheckTransitions : bool :=
  let wd := mkWatchdog (d_of_Z 20) (d_of_Z 50) (d_of_Z 100) in
  let status gap s := bool_decide (watchdog_check wd (d_of_Z gap) = s) in
  expect [status 10 OK; status 25 WARNING; status 60 WD_HOLD; status 120 DISABLE].

Definition RateLimiterTest_LimitsVelocity : bool :=
  let rl := mkRateLimiter (dlit 2 2) (dlit 15 1) (d1 / d_of_Z 500)%D in
  let step tar := nth 0 (limit rl [d0] [tar]) d0 in
  expect [near (step (dlit 1 1)) (dlit 3 3) (dlit 1 6); near (step (- dlit 1 1)%D) (- dlit 3 3)%D (dlit 1 6)].

(** ** test_bilateral_gate.cpp *)

Definition wired_link : LinkInfo := mkLinkInfo true "eth0" "192.168.2.102" false false true true 1000 "".

Definition good_stats : Stats :=
  mkStats true (d_of_Z 2) (d_of_Z 498) d0 (d_of_Z 3) (dlit 45 1) (d_of_Z 6) (st_cmd_hold_p95_ms stats_default)
    (st_received_total stats_default) (st_lost_total stats_default).

Definition good_packet : FeedbackPacket :=
  mkFeedbackPacket 0 0 0 0 0 0 0 1 0 0 0 0 1 0 0 0 (replicate 8 0) (replicate 8 0) (replicate 8 0)
    (replicate 4 0) (replicate 4 0) (replicate 4 0) 0.

Definition gate_link : LinkInfo -> BilateralGateResult := check_link gate_config_default.
Definition gate_feedback : Stats -> option FeedbackPacket -> BilateralGateResult := check_feedback gate_config_default "right".

Definition BilateralGateTest_WiredFastLinkPasses : bool := gr_ok (gate_link wired_link).

Definition BilateralGateTest_WirelessRejected : bool :=
  let r := gate_link (mkLinkInfo true "wlan0" "192.168.2.102" false true true true (-1) "") in
  expect [negb (gr_ok r); mentions "wireless" (reasons_joined "; " r)].

Definition BilateralGateTest_SlowLinkRejected : bool :=
  negb (gr_ok (gate_link (mkLinkInfo true "eth0" "192.168.2.102" false false true true 10 ""))).

Definition BilateralGateTest_LoopbackNeedsOptIn : bool :=
  let l := mkLinkInfo true "lo" "" true false false true (-1) "" in
  let cfg := gate_config_default in
  let cfg' := mkGateConfig (g_require_wired cfg) true (g_min_link_speed_mbps cfg) (g_min_feedback_rate_hz cfg)
    (g_max_feedback_age_ms cfg) (g_max_rtt_p95_ms cfg) (g_max_loss_percent cfg) (g_require_follower_link_ok cfg) in
  expect [negb (gr_ok (check_link cfg l)); gr_ok (check_link cfg' l)].

Definition BilateralGateTest_UnresolvedRejected : bool :=
  negb (gr_ok (gate_link (mkLinkInfo false "" "" false false false false (-1) "no route"))).

Definition BilateralGateTest_GoodFeedbackPasses : bool := gr_ok (gate_feedback good_stats (Some good_packet)).
Definition BilateralGateTest_NoFeedbackRejected : bool := negb (gr_ok (gate_feedback stats_default None)).

(** [good_stats()] with another rate, loss and 95th percentile. *)
Definition stats_with (rate loss p95 : double) : Stats :=
  let s := good_stats in
  mkStats (st_has_data s) (st_age_ms s) rate loss (st_rtt_p50_ms s) p95 (st_rtt_max_ms s) (st_cmd_hold_p95_ms s)
    (st_received_total s) (st_lost_total s).

Definition BilateralGateTest_HighRttRejected : bool :=
  let r := gate_feedback (stats_with (d_of_Z 498) d0 (d_of_Z 12)) (Some good_packet) in
  expect [negb (gr_ok r); mentions "rtt" (reasons_joined "; " r)].

Definition BilateralGateTest_LowRateRejected : bool :=
  negb (gr_ok (gate_feedback (stats_with (d_of_Z 100) d0 (dlit 45 1)) (Some good_packet))).

Definition BilateralGateTest_LossRejected : bool :=
  negb (gr_ok (gate_feedback (stats_with (d_of_Z 498) (d_of_Z 5) (dlit 45 1)) (Some good_packet))).

Definition BilateralGateTest_FollowerLinkNotOkRejected : bool :=
  let p := mkFeedbackPacket 0 0 0 0 0 0 0 1 0 0 0 0 0 0 0 0 (replicate 8 0) (replicate 8 0) (replicate 8 0)
    (replicate 4 0) (replicate 4 0) (replicate 4 0) 0 in
  negb (gr_ok (gate_feedback good_stats (Some p))).

Definition BilateralGateTest_MissingRttSamplesRejected : bool :=
  negb (gr_ok (gate_feedback (stats_with (d_of_Z 498) d0 (- d1)%D) (Some good_packet))).

(** ** test_bilateral_engager.cpp *)

Definition make : BilateralEngager := engager_new (mkEngagerConfig (dlit 5 1) (dlit 1 1)).

(** [update] with the tests' time step; [n] times. *)
Definition up (want aligned : bool) : BilateralEngager -> BilateralEngager := engager_update want aligned (dlit 2 3).
Definition ups (n : nat) (want aligned : bool) : BilateralEngager -> BilateralEngager := Nat.iter n (up want aligned).

Definition in_state (s : EngagerState) (e : BilateralEngager) : bool := bool_decide (en_state e = s).

(** [for (i < n) { update; EXPECT_GE(scale, prev); prev = scale; }]. *)
Fixpoint ramps (n : nat) (prev : double) (e : BilateralEngager) : bool * BilateralEngager :=
  match n with
  | O => (true, e)
  | S n => let e := up true false e in
           let '(ok, e') := ramps n (en_scale e) e in ((en_scale e >=? prev)%D && ok, e')
  end.

(** [while (cond) { update; ++steps; }]: the steps and the state after them;
    [None] if [fuel] iterations do not end the loop. *)
Fixpoint while_steps (cond : BilateralEngager -> bool) (want aligned : bool) (fuel : nat) (e : BilateralEngager)
    : option (Z * BilateralEngager) :=
  if cond e then
    match fuel with
    | O => None
    | S fuel => '(n, e) ← while_steps cond want aligned fuel (up want aligned e); Some (n + 1, e)
    end
  else Some (0, e).

Definition BilateralEngager_WaitsForAlignmentThenRamps : bool :=
  let e := make in
  let e1 := up true false e in
  let e2 := ups 100 true false e1 in
  let e3 := up true true e2 in
  let '(ok, e4) := ramps 260 d0 e3 in
  expect [in_state OFF e; in_state WAIT_ALIGN e1; negb (engager_active e1); in_state WAIT_ALIGN e2;
          in_state RAMP_UP e3; ok; in_state ENGAGED e4; double_eq (en_scale e4) d1].

Definition BilateralEngager_ReleaseRampsDownNeverSteps : bool :=
  let e := ups 300 true true (up true true make) in
  let e1 := up false true e in
  match while_steps engager_active false true 1000 e1 with
  | Some (steps, e2) =>
      expect [engager_engaged e; in_state RAMP_DOWN e1; (en_scale e1 >? dlit 9 1)%D; in_state OFF e2;
              near (d_of_Z steps * dlit 2 3)%D (dlit 1 1) (dlit 1 2)]
  | None => false
  end.

Definition BilateralEngager_ReRequestDuringRampDownReturnsToWaitAlign : bool :=
  let e := up false true (ups 300 true true (up true true make)) in
  let e1 := ups 10 true true e in
  match while_steps (in_state RAMP_DOWN) true true 1000 e1 with
  | Some (_, e2) => expect [in_state RAMP_DOWN e1; in_state WAIT_ALIGN e2]
  | None => false
  end.

Definition BilateralEngager_ResetIsImmediate : bool :=
  let e := engager_update true true (dlit 1 1) (up true true (up true true make)) in
  let e1 := engager_reset e in
  expect [(en_scale e >? d0)%D; in_state OFF e1; double_eq (en_scale e1) d0].

(** ** test_control_friction.cpp *)

Definition make_leader : Control := control_new None None (robot_system_new 7 1) (d1 / d_of_Z 500)%D ROLE_LEADER.

Definition ControlFriction_GripperUsesItsOwnVelocityNotOutOfBoundsMemory (tanh : double -> double) : bool :=
  let zeros := replicate 8 d0 in
  let c := SetParameter zeros zeros zeros (replicate 8 d1) (<[7%nat := d_of_Z 2]> zeros) zeros make_leader in
  match ComputeAllFriction tanh c (replicate 7 (d_of_Z 100)) [dlit 5 1] with
  | Ok friction =>
      expect (Nat.eqb (length friction) 8 :: double_eq (nth 7 friction d0) d1 ::
              map (fun i => double_eq (nth i friction d1) d0) (seq 0 7))
  | _ => false
  end.

Definition ControlFriction_LeaderEffortClampDefaults : bool :=
  let clamp := ClampLeaderEffort make_leader in
  expect [double_eq (clamp 0%nat (d_of_Z 35)) (d_of_Z 20); double_eq (clamp 0%nat (- d_of_Z 35)%D) (- d_of_Z 20)%D;
          double_eq (clamp 7%nat (d_of_Z (10 ^ 170))) (d_of_Z 2); double_eq (clamp 7%nat (dlit 1 1)) (dlit 1 1);
          double_eq (clamp 7%nat SpecFloat.S754_nan) d0; double_eq (clamp 7%nat (SpecFloat.S754_infinity false)) d0].

Definition ControlFriction_LeaderEffortClampFromConfig : bool :=
  let c := SetEffortLimits (replicate 7 (d_of_Z 5) ++ [dlit 5 1]) make_leader in
  let c' := SetEffortLimits [] c in
  expect [double_eq (ClampLeaderEffort c 3 (d_of_Z 9)) (d_of_Z 5);
          double_eq (ClampLeaderEffort c 7 (- d_of_Z 3)%D) (- dlit 5 1)%D;
          double_eq (ClampLeaderEffort c' 7 (- d_of_Z 3)%D) (- d_of_Z 2)%D].

(** ** The suite *)

Record TestEnv := mkTestEnv {
  te_uninitialised : TeleopPacket; te_p1 : TeleopPacket; te_p2 : TeleopPacket;
  te_now : Z; te_t1 : Z; te_t2 : Z;
  te_tanh : double -> double;
}.

Section suite.
Context (env : TestEnv).
#[local] Abbreviation now := (te_now env).
#[local] Abbreviation packet := (te_uninitialised env).

(** The tests that depend on nothing. *)
Definition fixed_tests : list (string * bool) := [
  ("FeedbackCodecTest.HeaderSharesTeleopLayout", FeedbackCodecTest_HeaderSharesTeleopLayout);
  ("WatchdogTest.CheckTransitions", WatchdogTest_CheckTransitions);
  ("RateLimiterTest.LimitsVelocity", RateLimiterTest_LimitsVelocity);
  ("BilateralGateTest.WiredFastLinkPasses", BilateralGateTest_WiredFastLinkPasses);
  ("BilateralGateTest.WirelessRejected", BilateralGateTest_WirelessRejected);
  ("BilateralGateTest.SlowLinkRejected", BilateralGateTest_SlowLinkRejected);
  ("BilateralGateTest.LoopbackNeedsOptIn", BilateralGateTest_LoopbackNeedsOptIn);
  ("BilateralGateTest.UnresolvedRejected", BilateralGateTest_UnresolvedRejected);
  ("BilateralGateTest.GoodFeedbackPasses", BilateralGateTest_GoodFeedbackPasses);
  ("BilateralGateTest.NoFeedbackRejected", BilateralGateTest_NoFeedbackRejected);
  ("BilateralGateTest.HighRttRejected", BilateralGateTest_HighRttRejected);
  ("BilateralGateTest.LowRateRejected", BilateralGateTest_LowRateRejected);
  ("BilateralGateTest.LossRejected", BilateralGateTest_LossRejected);
  ("BilateralGateTest.FollowerLinkNotOkRejected", BilateralGateTest_FollowerLinkNotOkRejected);
  ("BilateralGateTest.MissingRttSamplesRejected", BilateralGateTest_MissingRttSamplesRejected);
  ("BilateralEngager.WaitsForAlignmentThenRamps", BilateralEngager_WaitsForAlignmentThenRamps);
  ("BilateralEngager.ReleaseRampsDownNeverSteps", BilateralEngager_ReleaseRampsDownNeverSteps);
  ("BilateralEngager.ReRequestDuringRampDownReturnsToWaitAlign", BilateralEngager_ReRequestDuringRampDownReturnsToWaitAlign);
  ("BilateralEngager.ResetIsImmediate", BilateralEngager_ResetIsImmediate);
  ("ControlFriction.LeaderEffortClampDefaults", ControlFriction_LeaderEffortClampDefaults);
  ("ControlFriction.LeaderEffortClampFromConfig", ControlFriction_LeaderEffortClampFromConfig)].

Definition suite : list (string * bool) := fixed_tests ++ [
  ("ControlFriction.GripperUsesItsOwnVelocityNotOutOfBoundsMemory",
    ControlFriction_GripperUsesItsOwnVelocityNotOutOfBoundsMemory (te_tanh env));
  ("PacketCodecTest.EncodeDecodeValid", PacketCodecTest_EncodeDecodeValid now packet);
  ("PacketCodecTest.InvalidMagic", PacketCodecTest_InvalidMagic now packet);
  ("PacketCodecTest.InvalidCRC", PacketCodecTest_InvalidCRC now packet);
  ("FeedbackCodecTest.EncodeDecodeValid", FeedbackCodecTest_EncodeDecodeValid now);
  ("FeedbackCodecTest.InvalidCRC", FeedbackCodecTest_InvalidCRC now);
  ("FeedbackCodecTest.TeleopPacketIsNotFeedback", FeedbackCodecTest_TeleopPacketIsNotFeedback now);
  ("SeqLossDetection.InOrder", SeqLossDetection_InOrder packet (te_p1 env) (te_p2 env) (te_t1 env) (te_t2 env));
  ("SeqLossDetection.OutOfOrderRejected",
    SeqLossDetection_OutOfOrderRejected packet (te_p1 env) (te_p2 env) (te_t1 env) (te_t2 env));
  ("SeqLossDetection.DetectLoss", SeqLossDetection_DetectLoss packet (te_p1 env) (te_p2 env) (te_t1 env) (te_t2 env));
  ("StateBufferTest.GetLatest", StateBufferTest_GetLatest packet (te_p1 env) (te_t1 env))].
End suite.

(** ** Results *)

Lemma fixed_tests_pass : Forall (fun t => t.2 = true) fixed_tests.
Proof. repeat (apply Forall_cons_2; [vm_compute; reflexivity|]). apply Forall_nil_2. Qed.

(** *** Packets *)

Lemma magic_test now p : PacketCodecTest_InvalidMagic now p = true.
Proof. done. Qed.

Lemma lxor_ff x : Z.lxor x 0xFF <> x.
Proof.
  intros H. apply (f_equal (Z.lxor x)) in H. rewrite <- Z.lxor_assoc, !Z.lxor_nilpotent, Z.lxor_0_l in H. done.
Qed.

Lemma crc_test now (p : TeleopPacket) : shaped p -> PacketCodecTest_InvalidCRC now p = true.
Proof.
  intros Hp. pose proof (teleop_encode_accepts now p Hp) as [_ Hc]. unfold PacketCodecTest_InvalidCRC. cbv zeta.
  apply negb_true_iff, not_true_is_false. set (q := teleop_encode now p) in *. assert (Hq : shaped q) by exact Hp.
  rewrite (proj2 (teleop_decode_spec (with_crc _ q) (shaped_with_crc _ _ Hq))). intros [_ H].
  rewrite struct_crc_with_crc, crc_with_crc, Hc in H by done. symmetry in H. by apply lxor_ff in H.
Qed.

Lemma feedback_test now : FeedbackCodecTest_EncodeDecodeValid now = true.
Proof.
  assert (Hs : shaped feedback_sample) by (repeat split).
  pose proof (feedback_encode_accepts now _ Hs) as Ha. unfold FeedbackCodecTest_EncodeDecodeValid. cbv zeta.
  assert (Hs' : shaped (feedback_encode now feedback_sample)) by exact Hs.
  destruct (feedback_decode_spec _ Hs') as [Hq Hok]. apply Hok in Ha.
  destruct (feedback_decode_and_validate _) as [ok q]. cbn [fst snd] in *. subst. 
  unfold expect. cbn [forallb]. by vm_compute.
Qed.

Lemma not_feedback_test now : FeedbackCodecTest_TeleopPacketIsNotFeedback now = true.
Proof. lazy. reflexivity. Qed.

(** *** Buffers *)

Section buffers.
Context (u p1 p2 : TeleopPacket) (t1 t2 : Z).

Lemma latest_two s1 s2 : tsb_get_latest (two_updates u p1 p2 t1 t2 s1 s2) = Some (with_seq s2 p2).
Proof.
  unfold two_updates, tsb_get_latest. destruct (tsb_update_fields t2 (with_seq s2 p2) (tsb_update t1 (with_seq s1 p1) (tsb_new u)))
    as (-> & -> & _). done.
Qed.

Lemma lost_two s1 s2 :
  seq_diff s1 s2 <= 0x7FFFFFFF -> tsb_lost_packet_count (two_updates u p1 p2 t1 t2 s1 s2) = u32 (s2 - s1 - is_new s1 s2).
Proof.
  intros Hd. unfold two_updates. by rewrite tsb_update_lost.
Qed.
End buffers.

(** *** A changed payload *)

(** An encoded packet whose first position is zero and is then changed. *)
Lemma changed_rejected now (p : FeedbackPacket) (x : Z) (tl : list Z) :
  shaped p -> fp_arm_pos p = 0 :: tl -> fold_left crc_byte (le_bytes 8 x) 0 <> 0 ->
  (feedback_decode_and_validate (with_arm_pos (x :: tl) (feedback_encode now p))).1 = false.
Proof.
  intros Hs Hp Hx. set (q := feedback_encode now p). pose proof (feedback_encode_accepts now p Hs) as [_ Hc]. fold q in Hc.
  assert (Hq : shaped q) by exact Hs.
  assert (Hr : shaped (with_arm_pos (x :: tl) q)).
  { destruct Hs as (H & Hs). split; [|exact Hs]. cbn [with_arm_pos fp_arm_pos]. rewrite Hp in H. exact H. }
  apply not_true_is_false. rewrite (proj2 (feedback_decode_spec _ Hr)). intros [_ H].
  change (crc32 (with_arm_pos (x :: tl) q)) with (crc32 q) in H. rewrite <- Hc in H.
  rewrite !struct_crc_body in H by done. unfold calculate_crc32 in H.
  set (hdr := [fp_magic q; fp_version q; fp_packet_size q; fp_seq q; fp_send_time_ns q; fp_arm_side q; fp_mode q;
    fp_enabled q; fp_estop q; fp_arm_dof q; fp_hand_dof q; fp_safety_state q; fp_link_ok q; fp_echo_cmd_seq q;
    fp_echo_cmd_send_time_ns q; fp_cmd_hold_ns q]).
  set (rest := tl ++ fp_arm_vel q ++ fp_arm_tau q ++ fp_hand_pos q ++ fp_hand_vel q ++ fp_hand_tau q).
  assert (Hb : forall y, pack feedback_layout (hdr ++ [y] ++ rest) =
    pack (take 16 feedback_layout) hdr ++ le_bytes 8 y ++ pack (replicate 35 8%nat) rest).
  { intros y. change feedback_layout with (take 16 feedback_layout ++ [8%nat] ++ replicate 35 8%nat) at 1.
    rewrite !pack_app by done. change (pack [8%nat] [y]) with (le_bytes 8 y ++ []). by rewrite app_nil_r. }
  change (body (with_arm_pos (x :: tl) q)) with (hdr ++ [x] ++ rest) in H.
  assert (E : body q = hdr ++ [0] ++ rest).
  { change (body q) with (hdr ++ fp_arm_pos p ++ fp_arm_vel q ++ fp_arm_tau q ++ fp_hand_pos q ++ fp_hand_vel q ++ fp_hand_tau q).
    by rewrite Hp. }
  rewrite E in H. change body_layout with feedback_layout in H. rewrite !Hb in H.
  apply (f_equal (fun c => Z.lxor c 0xFFFFFFFF)) in H. rewrite !Z.lxor_assoc, Z.lxor_nilpotent, !Z.lxor_0_r in H.
  revert H. apply (crc_differs _ (le_bytes 8 x)); [|done|done].
  apply Forall_app; split; [apply pack_bytes|apply Forall_app; split; [apply le_bytes_bytes|apply pack_bytes]].
Qed.

Lemma changed_test now : FeedbackCodecTest_InvalidCRC now = true.
Proof.
  unfold FeedbackCodecTest_InvalidCRC. cbv zeta. apply negb_true_iff.
  apply (changed_rejected now feedback_zero _ (replicate 7 0)); [by repeat split|done|]. vm_compute. discriminate.
Qed.

(** *** Friction *)

(** Without Coulomb friction the model's [tanh] does not matter, if it is finite. *)
Lemma no_coulomb t : isfinite t = true -> (d1 * d0 * t)%D = d0 \/ (d1 * d0 * t)%D = (- d0)%D.
Proof. destruct t as [[]|[]| |[] m e]; intros H; try discriminate H; vm_compute; auto. Qed.

Lemma friction_test tanh : (forall x, isfinite (tanh x) = true) ->
  ControlFriction_GripperUsesItsOwnVelocityNotOutOfBoundsMemory tanh = true.
Proof.
  intros Ht. unfold ControlFriction_GripperUsesItsOwnVelocityNotOutOfBoundsMemory. cbv zeta.
  set (c := SetParameter _ _ _ _ _ _ _).
  set (a := (d1 * d0 * tanh (dlit 1 1 * d1 * d_of_Z 100))%D).
  set (g := (d1 * d0 * tanh (dlit 1 1 * d1 * dlit 5 1))%D).
  assert (E : ComputeAllFriction tanh c (replicate 7 (d_of_Z 100)) [dlit 5 1] =
    Ok (replicate 7 (a + d0 * d_of_Z 100 + d0)%D ++ [(g + d_of_Z 2 * dlit 5 1 + d0)%D])) by reflexivity.
  rewrite E. clear E.
  destruct (no_coulomb _ (Ht (dlit 1 1 * d1 * d_of_Z 100)%D)) as [Ea|Ea], (no_coulomb _ (Ht (dlit 1 1 * d1 * dlit 5 1)%D)) as [Eg|Eg];
    unfold a, g; rewrite Ea, Eg; vm_compute; reflexivity.
Qed.

(** ** The suite's results *)

Lemma none_failed (l : list (string * bool)) : Forall (fun t => t.2 = true) l -> filter (fun t => t.2 = false) l = [].
Proof. induction 1 as [|t l Ht _ IH]; [done|]. rewrite filter_cons, Ht. by rewrite decide_False. Qed.

(** Whatever the uninitialised packets hold, whenever the tests run and for every
    finite [tanh], all 32 tests of the suite pass but one:
    [SeqLossDetection.OutOfOrderRejected] fails. It expects packet 5 to stay the
    latest when packet 2 arrives; [update] takes any packet that is behind for a
    restart of the sender and keeps it. *)
Lemma suite_results (env : TestEnv) :
  shaped (te_uninitialised env) -> (forall x, isfinite (te_tanh env x) = true) ->
  length (suite env) = 32%nat /\
  filter (fun t => t.2 = false) (suite env) = [("SeqLossDetection.OutOfOrderRejected", false)].
Proof.
  intros Hs Ht. split; [done|]. unfold suite. rewrite filter_app, (none_failed _ fixed_tests_pass).
  rewrite friction_test, magic_test, crc_test, feedback_test, changed_test, not_feedback_test by done.
  unfold PacketCodecTest_EncodeDecodeValid. rewrite teleop_encode_validates by done.
  unfold SeqLossDetection_InOrder, SeqLossDetection_DetectLoss. rewrite !lost_two by done.
  unfold SeqLossDetection_OutOfOrderRejected. rewrite latest_two. reflexivity.
Qed.

Lemma suite_results_example :
  length (suite (mkTestEnv teleop_zero teleop_zero teleop_zero 1 2 3 (fun _ => d1))) = 32%nat.
Proof. by apply suite_results; [repeat split|]. Qed.
