(* ===== verification/Locks.v ===== *)
(** * Locks: mutexes, scopes that hold them, and waiting

    What the threads of the programs do with their mutexes: [std::lock_guard] scopes,
    branches, loops, the creation of threads and [join]. [step] interleaves them under
    every schedule; [waits_for] says which thread has to act before a thread that
    cannot go on. The discipline [locks_ranked] can be computed: an inner mutex has a
    higher rank than the ones that are held, and nothing is held by a loop, by the
    creation of a thread or by a [join]. [ranked_progress]: whoever waits then waits,
    directly or through others, for a thread that can go on. *)

From S2P Require Import Prelude.
From stdpp Require Import sets list relations.

#[local] Open Scope nat_scope.

(** Mutexes and thread objects are known by their names. *)
Abbreviation Mutex := string.
Abbreviation Handle := string.

(** ** Commands *)

Inductive Cmd :=
| Guard (m : Mutex) (body : list Cmd)      (* { std::lock_guard lock(m); body } *)
| Unlock (m : Mutex)                       (* the end of such a scope *)
| Either (a b : list Cmd)                  (* a branch *)
| Loop (body : list Cmd)                   (* any number of rounds *)
| Fork (h : Handle) (body : list Cmd)      (* h = std::thread(body) *)
| Join (h : Handle).                       (* if (h.joinable()) h.join() *)

(** What a thread has still to do, the mutexes it holds (the newest first) and the
    threads behind its handles (the newest first). *)
Record Thread := mkThread { todo : list Cmd; held : list Mutex; kids : list (Handle * nat) }.

Abbreviation Threads := (list Thread).

Definition is_free (ts : Threads) (m : Mutex) : bool := forallb (fun t => bool_decide (m ∉ held t)) ts.

(** A thread that does not exist counts as finished. *)
Definition finished (ts : Threads) (i : nat) : bool :=
  match ts !! i with Some t => match todo t with [] => true | _ => false end | None => true end.

Fixpoint child (h : Handle) (l : list (Handle * nat)) : option nat :=
  match l with
  | [] => None
  | (h', i) :: l => if decide (h' = h) then Some i else child h l
  end.

(** What happens: a thread goes on ([taken] decides its branch or its loop), or a signal
    handler starts in a thread, before everything else that it has to do. *)
Inductive LockEvent := Turn (i : nat) (taken : bool) | Signal (i : nat).

(** The next command of thread [i], with the thread that it creates; [None]: it waits. *)
Definition thread_step (ts : Threads) (taken : bool) (t : Thread) : option (Thread * Threads) :=
  match todo t with
  | [] => None
  | Guard m body :: k =>
      if is_free ts m then Some (mkThread (body ++ Unlock m :: k) (m :: held t) (kids t), []) else None
  | Unlock m :: k => Some (mkThread k (filter (fun h => h ≠ m) (held t)) (kids t), [])
  | Either a b :: k => Some (mkThread ((if taken then a else b) ++ k) (held t) (kids t), [])
  | Loop body :: k => Some (mkThread (if taken then body ++ Loop body :: k else k) (held t) (kids t), [])
  | Fork h body :: k => Some (mkThread k (held t) ((h, length ts) :: kids t), [mkThread body [] []])
  | Join h :: k =>
      match child h (kids t) with
      | Some j => if finished ts j then Some (mkThread k (held t) (kids t), []) else None
      | None => Some (mkThread k (held t) (kids t), [])
      end
  end.

Section machine.
Context (handler : list Cmd).   (* what the signal handler does *)

Definition lock_step (e : LockEvent) (ts : Threads) : option Threads :=
  match e with
  | Turn i taken =>
      t ← ts !! i; '(t', new) ← thread_step ts taken t; Some (<[i := t']> ts ++ new)
  | Signal i =>
      t ← ts !! i;
      if finished ts i then None else Some (<[i := mkThread (handler ++ todo t) (held t) (kids t)]> ts)
  end.

Fixpoint lock_run (es : list LockEvent) (ts : Threads) : option Threads :=
  match es with
  | [] => Some ts
  | e :: es => lock_step e ts ≫= lock_run es
  end.
End machine.

(** A program starts as its main thread. *)
Definition program_start (main : list Cmd) : Threads := [mkThread main [] []].

Definition is_turn (e : LockEvent) : bool := match e with Turn _ _ => true | Signal _ => false end.

(** ** Waiting *)

Definition can_go (ts : Threads) (i : nat) : Prop :=
  exists t, ts !! i = Some t /\ is_Some (thread_step ts true t).

(** Thread [j] has to act before thread [i] can: it holds the mutex that [i] wants, or
    [i] joins it and it has not finished. *)
Definition waits_for (ts : Threads) (i j : nat) : Prop :=
  exists t, ts !! i = Some t /\
    match todo t with
    | Guard m _ :: _ => exists t', ts !! j = Some t' /\ m ∈ held t'
    | Join h :: _ => child h (kids t) = Some j /\ finished ts j = false
    | _ => False
    end.

(** No deadlock: every thread that has not finished waits, through any number of
    others, for one that can go on; or goes on itself. *)
Definition no_deadlock (ts : Threads) : Prop :=
  forall i, finished ts i = false -> exists j, rtc (waits_for ts) i j /\ can_go ts j.

(** A thread waits for itself. *)
Definition self_deadlock (ts : Threads) (i : nat) : Prop := waits_for ts i i.

#[export] Instance waits_for_dec ts i j : Decision (waits_for ts i j).
Proof.
  unfold waits_for. destruct (ts !! i) as [t|]; [|right; intros (t & [=] & _)].
  destruct (todo t) as [|[m body|m|a b|body|h body|h] k] eqn:Et;
    try (right; intros (t' & [= <-] & H); rewrite Et in H; exact H).
  - destruct (ts !! j) as [t'|]; [|right; intros (? & [= <-] & H); rewrite Et in H; by destruct H as (? & [=] & _)].
    destruct (decide (m ∈ held t')) as [H|H]; [left; exists t; rewrite Et; by eauto|right].
    intros (? & [= <-] & H'). rewrite Et in H'. destruct H' as (? & [= <-] & ?). by apply H.
  - destruct (decide (child h (kids t) = Some j /\ finished ts j = false)) as [H|H]; [left; exists t; by rewrite Et|right].
    intros (? & [= <-] & H'). by rewrite Et in H'.
Defined.

(** ** The discipline *)

Section ranked.
Context (rank : Mutex -> nat) (top : nat).   (* ranks are below [top] *)

Definition above (m : Mutex) (hs : list Mutex) : bool := forallb (fun h => rank h <? rank m) hs.

Fixpoint cmd_ranked (hs : list Mutex) (c : Cmd) : bool :=
  match c with
  | Guard m body => above m hs && (rank m <? top) && forallb (cmd_ranked (m :: hs)) body
  | Unlock _ => false
  | Either a b => forallb (cmd_ranked hs) a && forallb (cmd_ranked hs) b
  | Loop body | Fork _ body => match hs with [] => forallb (cmd_ranked []) body | _ => false end
  | Join _ => match hs with [] => true | _ => false end
  end.

Definition locks_ranked (l : list Cmd) : bool := forallb (cmd_ranked []) l.

(** A thread in the middle of its scopes: every mutex it holds is released, in the
    reverse order. *)
Fixpoint rest_ranked (hs : list Mutex) (l : list Cmd) : Prop :=
  match l with
  | [] => hs = []
  | Unlock m :: k => exists hs', hs = m :: hs' /\ (m ∉ hs') /\ rest_ranked hs' k
  | c :: k => cmd_ranked hs c = true /\ rest_ranked hs k
  end.

Lemma above_spec m hs : above m hs = true <-> (forall h, h ∈ hs -> rank h < rank m).
Proof.
  unfold above. rewrite forallb_forall. split; intros H h Hh.
  - apply Nat.ltb_lt, H. by apply list_elem_of_In.
  - apply Nat.ltb_lt, H. by apply list_elem_of_In.
Qed.

Lemma rest_app hs l k : forallb (cmd_ranked hs) l = true -> rest_ranked hs k -> rest_ranked hs (l ++ k).
Proof.
  intros Hl Hk. induction l as [|c l IH]; [exact Hk|]. cbn [app forallb] in *.
  apply andb_true_iff in Hl as [Hc Hl]. destruct c; try (split; [exact Hc|by apply IH]); done.
Qed.

(** ** The invariant *)

Record thread_ranked (n i : nat) (t : Thread) : Prop := mkThreadRanked {
  tr_rest : rest_ranked (held t) (todo t);
  tr_kids : forall h j, (h, j) ∈ kids t -> i < j < n;   (* threads are created after their parents *)
}.

Record threads_ranked (ts : Threads) : Prop := mkThreadsRanked {
  tsr_all : forall i t, ts !! i = Some t -> thread_ranked (length ts) i t;
  tsr_excl : forall i j t t' m, ts !! i = Some t -> ts !! j = Some t' -> m ∈ held t -> m ∈ held t' -> i = j;
}.

Lemma is_free_spec ts m : is_free ts m = true <-> (forall i t, ts !! i = Some t -> m ∉ held t).
Proof.
  unfold is_free. rewrite forallb_forall. split; intros H.
  - intros i t Ht. apply (bool_decide_eq_true_1 (m ∉ held t)), H, list_elem_of_In. by eapply list_elem_of_lookup_2.
  - intros t Ht. apply list_elem_of_In, list_elem_of_lookup_1 in Ht as [i Ht]. apply bool_decide_eq_true_2. by eapply H.
Qed.

Lemma not_free ts m : is_free ts m = false -> exists j t, ts !! j = Some t /\ m ∈ held t.
Proof.
  induction ts as [|t ts IH]; cbn; [done|]. intros [H|H]%andb_false_iff.
  - exists 0, t. split; [done|]. apply bool_decide_eq_false in H. destruct (decide (m ∈ held t)); [done|contradiction].
  - destruct (IH H) as (j & t' & ? & ?). by exists (S j), t'.
Qed.

Lemma child_elem h l j : child h l = Some j -> (h, j) ∈ l.
Proof.
  induction l as [|[h' i] l IH]; cbn; [done|]. destruct (decide (h' = h)) as [->|].
  - intros [= ->]. apply list_elem_of_here.
  - intros H. apply list_elem_of_further, IH, H.
Qed.

Lemma filter_head (m : Mutex) (hs : list Mutex) : m ∉ hs -> filter (fun h => h ≠ m) (m :: hs) = hs.
Proof.
  intros Hm. rewrite filter_cons_False by (intros H; by apply H). clear -Hm.
  induction hs as [|h hs IH]; [done|]. rewrite filter_cons_True by set_solver. f_equal. apply IH. set_solver.
Qed.

Lemma rest_cons hs c k :
  rest_ranked hs (c :: k) -> (forall m, c <> Unlock m) -> cmd_ranked hs c = true /\ rest_ranked hs k.
Proof. destruct c; cbn; try (intros H _; exact H). intros _ H. by destruct (H m). Qed.

(** What one turn does to the thread that takes it. *)
Lemma thread_step_ranked ts taken i t t' new :
  threads_ranked ts -> ts !! i = Some t -> thread_step ts taken t = Some (t', new) ->
  thread_ranked (length ts + length new) i t' /\
  (forall m, m ∈ held t' -> m ∈ held t \/ is_free ts m = true) /\
  Forall (fun t => exists body, t = mkThread body [] [] /\ rest_ranked [] body) new.
Proof.
  intros [Hall _] Hi Hs. destruct (Hall _ _ Hi) as [Hrest Hkids]. pose proof (lookup_lt_Some _ _ _ Hi) as Hlt.
  destruct t as [[|c k] hs ks]; [done|]. unfold thread_step in Hs. cbn [todo held kids] in *.
  assert (Hk' : forall n h j, (h, j) ∈ ks -> i < j < length ts + n) by (intros n h j Hj; specialize (Hkids _ _ Hj); lia).
  destruct c as [m body|m|a b|body|h body|h]; cbn [rest_ranked cmd_ranked] in Hrest.
  - destruct (is_free ts m) eqn:Hf; [|done]. simplify_eq. destruct Hrest as [[[Ha _]%andb_true_iff Hb]%andb_true_iff Hr].
    split; [split; cbn|split; [|done]].
    + apply rest_app; [done|]. cbn. exists hs. split; [done|]. split; [|done].
      by apply (proj1 (is_free_spec ts m) Hf i _ Hi).
    + apply Hk'.
    + cbn. intros m' [->|H]%elem_of_cons; [by right|by left].
  - simplify_eq. destruct Hrest as (hs' & -> & Hm & Hr). rewrite filter_head by done.
    split; [split; cbn; [done|apply Hk']|]. split; [|done]. cbn. intros m' H. left. by apply list_elem_of_further.
  - simplify_eq. destruct Hrest as [[Ha Hb]%andb_true_iff Hr].
    split; [split; cbn; [destruct taken; by apply rest_app|apply Hk']|]. split; [by left|done].
  - simplify_eq. destruct hs; [|by destruct Hrest]. destruct Hrest as [Hb Hr].
    split; [split; cbn; [destruct taken; [apply rest_app|]; done|apply Hk']|]. split; [by left|done].
  - simplify_eq. destruct hs; [|by destruct Hrest]. destruct Hrest as [Hb Hr].
    split; [split; cbn; [done|]|].
    + intros h' j [[= -> ->]|H]%elem_of_cons; [lia|]. by eapply Hk'.
    + split; [by left|]. constructor; [|done]. exists body. split; [done|]. rewrite <- (app_nil_r body). by apply rest_app.
  - assert (t' = mkThread k hs ks /\ new = []) as [-> ->].
    { destruct (child h ks) as [j|]; [destruct (finished ts j)|]; by simplify_eq. }
    destruct hs; [|by destruct Hrest]. split; [split; cbn; [apply Hrest|apply Hk']|]. split; [by left|done].
Qed.

Lemma lookup_grown (ts new : Threads) i t' j u :
  i < length ts -> (<[i := t']> ts ++ new) !! j = Some u ->
  (j = i /\ u = t') \/ (j <> i /\ ts !! j = Some u) \/ (length ts <= j /\ u ∈ new).
Proof.
  intros Hi [Hj|[Hl Hj]]%lookup_app_Some.
  - destruct (decide (j = i)) as [->|Hn].
    + rewrite list_lookup_insert_eq in Hj by done. left. by simplify_eq.
    + rewrite list_lookup_insert_ne in Hj by done. right. by left.
  - right. right. rewrite length_insert in Hl. split; [done|]. by eapply list_elem_of_lookup_2.
Qed.

Lemma turn_ranked ts i taken ts' h :
  threads_ranked ts -> lock_step h (Turn i taken) ts = Some ts' -> threads_ranked ts'.
Proof.
  intros Hts Hs. cbn [lock_step] in Hs. destruct (ts !! i) as [t|] eqn:Hi; [|done]. cbn in Hs.
  destruct (thread_step ts taken t) as [[t' new]|] eqn:Hstep; [|done]. cbn in Hs. simplify_eq.
  destruct (thread_step_ranked _ _ _ _ _ _ Hts Hi Hstep) as (Ht' & Hheld & Hnew).
  pose proof (lookup_lt_Some _ _ _ Hi) as Hlt. destruct Hts as [Hall Hex].
  assert (Hfresh : forall u, u ∈ new -> held u = [] /\ kids u = [] /\ rest_ranked [] (todo u)).
  { intros u Hu. rewrite Forall_forall in Hnew. destruct (Hnew _ Hu) as (body & -> & ?). done. }
  assert (Hown : forall j u m, ts !! j = Some u -> m ∈ held u -> m ∈ held t' -> i = j).
  { intros j u m Hj Hm Hm'. destruct (Hheld _ Hm') as [H|H]; [by eapply Hex|].
    by destruct (proj1 (is_free_spec ts m) H _ _ Hj). }
  split.
  - rewrite length_app, length_insert. intros j u [[-> ->]|[[Hn Hj]|[Hl Hj]]]%lookup_grown; [done| | |done].
    + destruct (Hall _ _ Hj) as [Hr Hk]. split; [done|]. intros h' k Hh. specialize (Hk _ _ Hh). lia.
    + destruct (Hfresh _ Hj) as (Hh & Hk & Hr). split; [by rewrite Hh|]. rewrite Hk. intros ? ? []%not_elem_of_nil.
  - intros j k u v m Hj Hk Hu Hv.
    apply lookup_grown in Hj as [[-> ->]|[[Hn Hj]|[Hl Hj]]]; [| |by destruct (Hfresh _ Hj) as [Hh _]; rewrite Hh in Hu; apply not_elem_of_nil in Hu|done];
    (apply lookup_grown in Hk as [[-> ->]|[[Hn' Hk]|[Hl' Hk]]]; [| |by destruct (Hfresh _ Hk) as [Hh _]; rewrite Hh in Hv; apply not_elem_of_nil in Hv|done]).
    + done.
    + by eapply Hown.
    + symmetry. by eapply Hown.
    + by eapply Hex.
Qed.

Lemma start_ranked main : locks_ranked main = true -> threads_ranked (program_start main).
Proof.
  intros H. split.
  - intros [|[|i]] t [= <-]. split; [|intros ? ? []%not_elem_of_nil]. cbn. rewrite <- (app_nil_r main). by apply rest_app.
  - intros [|[|i]] [|[|j]] t t' m [= <-] [= <-]; done.
Qed.

(** ** Progress *)

(** A thread that has something to do and cannot go on waits for a mutex of a higher
    rank than all that it holds, or it holds nothing and joins a younger thread. *)
Lemma stuck_waits ts i t :
  threads_ranked ts -> ts !! i = Some t -> todo t <> [] -> thread_step ts true t = None ->
  (exists m j t', waits_for ts i j /\ ts !! j = Some t' /\ m ∈ held t' /\ rank m < top /\ (forall h, h ∈ held t -> rank h < rank m)) \/
  (held t = [] /\ exists j, waits_for ts i j /\ i < j < length ts).
Proof.
  intros [Hall _] Hi Hne Hs. destruct (Hall _ _ Hi) as [Hrest Hkids].
  destruct t as [[|c k] hs ks]; [done|]. unfold thread_step in Hs. cbn [todo held kids] in *.
  destruct c as [m body|m|a b|body|h body|h]; try done.
  - destruct (is_free ts m) eqn:Hf; [done|]. destruct (not_free _ _ Hf) as (j & t' & Hj & Hm).
    destruct Hrest as [[[Ha Ht]%andb_true_iff _]%andb_true_iff _]. left. exists m, j, t'.
    split; [exists (mkThread (Guard m body :: k) hs ks); split; [done|by exists t']|]. split; [done|]. split; [done|].
    split; [by apply Nat.ltb_lt|by apply above_spec].
  - right. destruct (child h ks) as [j|] eqn:Hc; [|done]. destruct (finished ts j) eqn:Hf; [done|].
    destruct hs; [|by destruct Hrest]. split; [done|]. exists j.
    split; [by exists (mkThread (Join h :: k) [] ks)|]. eapply Hkids. by apply child_elem.
Qed.

Lemma holder_unfinished ts i t m : threads_ranked ts -> ts !! i = Some t -> m ∈ held t -> todo t <> [].
Proof.
  intros [Hall _] Hi Hm He. destruct (Hall _ _ Hi) as [Hr _]. rewrite He in Hr. cbn in Hr. rewrite Hr in Hm.
  by apply not_elem_of_nil in Hm.
Qed.

(** The thread that holds the mutex of the highest rank can go on. *)
Lemma holder_progress ts n i t m :
  threads_ranked ts -> ts !! i = Some t -> m ∈ held t -> top <= rank m + n ->
  exists j, rtc (waits_for ts) i j /\ can_go ts j.
Proof.
  intros Hts. revert i t m. induction n as [|n IH]; intros i t m Hi Hm Hn;
    pose proof (holder_unfinished _ _ _ _ Hts Hi Hm) as Hne;
    (destruct (thread_step ts true t) as [r|] eqn:Hs; [exists i; split; [done|]; exists t; split; [done|by rewrite Hs]|]);
    (destruct (stuck_waits _ _ _ Hts Hi Hne Hs) as [(m' & j & t' & Hw & Hj & Hm' & Ht & Ha)|[Hh _]];
      [specialize (Ha _ Hm)|by rewrite Hh in Hm; apply not_elem_of_nil in Hm]).
  - lia.
  - destruct (IH j t' m' Hj Hm' ltac:(lia)) as (j' & Hr & Hc). exists j'. split; [by eapply rtc_l|done].
Qed.

Lemma finished_false ts i : finished ts i = false -> exists t, ts !! i = Some t /\ todo t <> [].
Proof. unfold finished. destruct (ts !! i) as [t|]; [|done]. intros H. exists t. split; [done|]. by destruct (todo t). Qed.

Lemma waits_unfinished ts i j : threads_ranked ts -> waits_for ts i j -> finished ts j = false.
Proof.
  intros Hts (t & _ & H). destruct (todo t) as [|[] ?]; try done; [|apply H].
  destruct H as (t' & Hj & Hm). pose proof (holder_unfinished _ _ _ _ Hts Hj Hm) as Hne.
  unfold finished. rewrite Hj. by destruct (todo t').
Qed.

Lemma ranked_progress ts : threads_ranked ts -> no_deadlock ts.
Proof.
  intros Hts i Hi. assert (Hn : exists n, length ts <= i + n) by (exists (length ts); lia).
  destruct Hn as [n Hn]. revert i Hi Hn.
  induction n as [|n IH]; intros i (t & Ht & Hne)%finished_false Hn; [apply lookup_lt_Some in Ht; lia|].
  destruct (thread_step ts true t) as [r|] eqn:Hs; [exists i; split; [done|]; exists t; split; [done|by rewrite Hs]|].
  destruct (stuck_waits _ _ _ Hts Ht Hne Hs) as [(m & j & t' & Hw & Hj & Hm & _)|[_ (j & Hw & Hl)]].
  - destruct (holder_progress ts top j t' m Hts Hj Hm ltac:(lia)) as (j' & Hr & Hc).
    exists j'. split; [by eapply rtc_l|done].
  - destruct (IH j (waits_unfinished _ _ _ Hts Hw) ltac:(lia)) as (j' & Hr & Hc).
    exists j'. split; [by eapply rtc_l|done].
Qed.

Lemma run_ranked handler es ts ts' :
  handler = [] \/ forallb is_turn es = true ->
  threads_ranked ts -> lock_run handler es ts = Some ts' -> threads_ranked ts'.
Proof.
  intros Hh. revert ts. induction es as [|e es IH]; intros ts Hts; cbn; [by intros [= <-]|].
  destruct (lock_step handler e ts) as [ts1|] eqn:He; [|done]. apply IH.
  - destruct Hh as [->|Hh]; [by left|right]. by apply andb_true_iff in Hh as [_ Hh].
  - destruct e as [i b|i]; [by eapply turn_ranked|].
    destruct Hh as [->|Hh]; [|done]. cbn in He. destruct (ts !! i) as [t|] eqn:Hi; [|done]. cbn in He.
    destruct (finished ts i); [done|]. simplify_eq. rewrite list_insert_id; [done|]. rewrite Hi. by destruct t.
Qed.

(** A program that keeps the discipline never deadlocks. *)
Lemma ranked_no_deadlock main handler es ts :
  locks_ranked main = true -> handler = [] \/ forallb is_turn es = true ->
  lock_run handler es (program_start main) = Some ts -> no_deadlock ts.
Proof. intros Hm Hh Hr. eapply ranked_progress, run_ranked; [done|by apply start_ranked|done]. Qed.
End ranked.

(** ** Waiting for oneself *)

Lemma self_deadlock_blocked ts i t taken : ts !! i = Some t -> self_deadlock ts i -> thread_step ts taken t = None.
Proof.
  intros Hi (t' & Ht' & H). rewrite Hi in Ht'. injection Ht' as <-. unfold thread_step.
  destruct (todo t) as [|[m body|m|a b|body|h body|h] k]; try done.
  - destruct H as (u & Hu & Hm). destruct (is_free ts m) eqn:Hf; [|done]. by destruct (proj1 (is_free_spec ts m) Hf _ _ Hu).
  - destruct H as [-> ->]. done.
Qed.

(** Nobody ends it: the thread stays as it is, and waits for itself for ever. *)
Lemma self_deadlock_turn handler j b ts ts' i :
  lock_step handler (Turn j b) ts = Some ts' -> self_deadlock ts i -> self_deadlock ts' i /\ ts' !! i = ts !! i.
Proof.
  cbn. intros Hs Hd. destruct (ts !! j) as [t|] eqn:Hj; [|done]. cbn in Hs.
  destruct (thread_step ts b t) as [[t' new]|] eqn:Ht; [|done].
  cbn in Hs. simplify_eq. destruct (decide (j = i)) as [->|Hn]; [by rewrite (self_deadlock_blocked ts i t b) in Ht|].
  destruct Hd as (u & Hu & H). pose proof (lookup_lt_Some _ _ _ Hu) as Hl.
  assert (Hk : (<[j := t']> ts ++ new) !! i = Some u) by (rewrite lookup_app_l by (by rewrite length_insert); by rewrite list_lookup_insert_ne).
  split; [|by rewrite Hk]. exists u. split; [done|]. unfold finished in *. rewrite Hk. rewrite Hu in H. done.
Qed.

Lemma self_deadlock_stays handler es ts ts' i :
  forallb is_turn es = true -> lock_run handler es ts = Some ts' -> self_deadlock ts i ->
  self_deadlock ts' i /\ ts' !! i = ts !! i.
Proof.
  revert ts. induction es as [|e es IH]; intros ts Hes; cbn; [by intros [= <-]|].
  apply andb_true_iff in Hes as [He Hes]. destruct (lock_step handler e ts) as [ts1|] eqn:Hs; [|done]. cbn.
  intros Hr Hd. destruct e as [j b|]; [|done]. destruct (self_deadlock_turn _ _ _ _ _ _ Hs Hd) as [Hd' <-]. by apply IH.
Qed.
