(* ===== verification/LockPrograms.v ===== *)
(** * LockPrograms: the mutexes of the programs

    For every function that locks, logs, creates a thread or joins one: what it does of
    that, in the order of the code, every branch kept as an [Either]; a loop is a
    [Loop]. The functions are composed as the code composes them, down to the [main]
    functions, their threads and their signal handlers. What the scopes compute is in
    the other files; the locks inside the C++ runtime (of the streams, of the
    initialisation of a [static]) are not modelled. *)

From S2P Require Import Prelude.
From stdpp Require Import list relations.
From S2P Require Import Locks.

#[local] Open Scope string_scope.
#[local] Open Scope list_scope.

(** ** Branches *)

(** [if (...) { l }], and one of several. *)
Definition maybe (l : list Cmd) : list Cmd := [Either l []].

Fixpoint one_of (ls : list (list Cmd)) : list Cmd :=
  match ls with
  | [] => []
  | l :: ls => [Either l (one_of ls)]
  end.

(** The member [mutex_] of an object. *)
Definition mutex_ (o : string) : Mutex := o +:+ ".mutex_".

(** ** Logging *)

(** Messages below the minimum level return before the mutex is taken. *)
Definition log_locks : list Cmd := maybe [Guard "log_mutex" []].

(** ** Safety manager *)

Definition safety_update_locks (o : string) : list Cmd :=
  [Guard (mutex_ o)
    [Either (maybe log_locks)                               (* estop *)
      [Either []                                            (* DISABLED *)
        [Either (maybe log_locks)                           (* enable cleared *)
          [Either (maybe log_locks)                         (* watchdog timeout *)
            (maybe log_locks ++                             (* enable received *)
             maybe (maybe log_locks))]]]]].                 (* watchdog hold *)

Definition get_state_locks (o : string) : list Cmd := [Guard (mutex_ o) []].
Definition trigger_estop_locks (o : string) : list Cmd := [Guard (mutex_ o) log_locks].
Definition reset_locks (o : string) : list Cmd := [Guard (mutex_ o) log_locks].

(** ** Buffers *)

(** A sequence jump is logged under the mutex. *)
Definition teleop_update_locks (o : string) : list Cmd := [Guard (mutex_ o) (maybe log_locks)].
Definition teleop_get_locks (o : string) : list Cmd := [Guard (mutex_ o) []].
Definition feedback_update_locks (o : string) : list Cmd := [Guard (mutex_ o) (maybe log_locks)].
Definition feedback_get_locks (o : string) : list Cmd := [Guard (mutex_ o) []].

(** ** Robot state and control *)

(** Any of the operations of [RobotState]. *)
Definition robot_state_locks (o : string) : list Cmd := [Guard (mutex_ o) []].

(** The same operation on [arm_state()] and on [hand_state()]. *)
Definition arm_and_hand_locks (s : string) : list Cmd :=
  robot_state_locks (s +:+ ".arm_state_") ++ robot_state_locks (s +:+ ".hand_state_").

(** Responses are set, sizes and references are read. *)
Definition leader_step_locks (s : string) : list Cmd := arm_and_hand_locks s ++ arm_and_hand_locks s.
Definition unilateral_step_locks (s : string) : list Cmd :=
  arm_and_hand_locks s ++ arm_and_hand_locks s ++
  [Either (leader_step_locks s) (maybe (arm_and_hand_locks s))].
Definition bilateral_step_locks (s : string) : list Cmd :=
  arm_and_hand_locks s ++ arm_and_hand_locks s ++ arm_and_hand_locks s.
Definition move_to_pose_locks (s : string) : list Cmd :=
  [Loop (arm_and_hand_locks s)] ++ arm_and_hand_locks s ++ arm_and_hand_locks s.

(** Both arms move, each in its own thread. *)
Definition move_arms_locks : list Cmd :=
  [Fork "thread_r" (move_to_pose_locks "state_r"); Fork "thread_l" (move_to_pose_locks "state_l");
   Join "thread_r"; Join "thread_l"].

(** ** Network *)

Definition send_raw_locks : list Cmd := one_of [[]; log_locks; []; log_locks].

(** The constructors log what fails. *)
Definition sender_new_locks : list Cmd := maybe log_locks.
Definition receiver_new_locks : list Cmd := [Either log_locks (maybe log_locks ++ maybe log_locks)].

Definition receive_loop_locks (callback : list Cmd) : list Cmd :=
  [Loop (one_of [maybe log_locks; maybe callback; maybe log_locks])].

Definition receiver_start_locks (h : Handle) (callback : list Cmd) : list Cmd :=
  maybe (Fork h (receive_loop_locks callback) :: log_locks).

Definition receiver_stop_locks (h : Handle) : list Cmd := maybe (Join h :: log_locks).

(** ** Command server *)

(** The handler is copied under the mutex and called after it has been released. *)
Definition handle_command_locks (handlers : list (list Cmd)) : list Cmd :=
  [Guard "handlers_mutex_" []; Either [] (one_of handlers)].

Definition server_run_locks (handlers : list (list Cmd)) : list Cmd :=
  [Loop [Either (maybe log_locks) (maybe (handle_command_locks handlers))]].

Definition register_handler_locks : list Cmd := [Guard "handlers_mutex_" []].

Definition server_start_locks (handlers : list (list Cmd)) : list Cmd :=
  one_of [log_locks; Fork "runtime_control" (server_run_locks handlers) :: log_locks].

Definition server_stop_locks : list Cmd := maybe [Join "runtime_control"].

(** ** Bimanual leader *)

Definition refresh_link_locks : list Cmd := [Guard "gate_mutex" []].

Definition evaluate_gate_locks : list Cmd :=
  [Either []
     ([Guard "gate_mutex" []] ++
      feedback_get_locks "fb_buffer_r" ++ feedback_get_locks "fb_buffer_l" ++
      feedback_get_locks "fb_buffer_r" ++ feedback_get_locks "fb_buffer_l")].

Definition leader_feedback_callback_locks (buf : string) : list Cmd := maybe (feedback_update_locks buf).

Definition bilateral_status_json_locks : list Cmd :=
  feedback_get_locks "fb_buffer_r" ++ feedback_get_locks "fb_buffer_l" ++
  evaluate_gate_locks ++
  [Guard "gate_mutex" []; Guard "engager_mutex" []] ++
  feedback_get_locks "fb_buffer_r" ++ feedback_get_locks "fb_buffer_l".

Definition bilateral_summary_json_locks : list Cmd :=
  evaluate_gate_locks ++ feedback_get_locks "fb_buffer_r" ++ feedback_get_locks "fb_buffer_l" ++
  [Guard "engager_mutex" []].

Definition bilateral_enable_locks : list Cmd :=
  [Either [] (refresh_link_locks ++ evaluate_gate_locks ++
     [Either [] (log_locks ++ bilateral_status_json_locks)])].

(** The target is stored under the mutex. *)
Definition goto_pose_locks : list Cmd := maybe [Guard "goto_pose_mutex" []].

(** In the order of the registrations. *)
Definition leader_handlers_locks : list (list Cmd) :=
  [bilateral_enable_locks; []; bilateral_status_json_locks; bilateral_summary_json_locks;
   []; []; []; goto_pose_locks; []; []].

Definition step_side_locks (s buf : string) : list Cmd :=
  feedback_get_locks buf ++ feedback_get_locks buf ++ maybe (arm_and_hand_locks s) ++
  [Guard "engager_mutex" (maybe log_locks)] ++
  leader_step_locks s.

Definition leader_requests_locks : list Cmd :=
  maybe (log_locks ++ maybe move_arms_locks ++ log_locks) ++
  maybe ([Guard "goto_pose_mutex" []] ++ log_locks ++ maybe move_arms_locks ++ log_locks).

Definition leader_gate_locks : list Cmd :=
  maybe (maybe refresh_link_locks ++ maybe (evaluate_gate_locks ++ maybe log_locks)).

Definition leader_print_locks : list Cmd :=
  maybe (log_locks ++ maybe (feedback_get_locks "fb_buffer_r" ++ feedback_get_locks "fb_buffer_l" ++ log_locks)).

Definition leader_cycle_locks : list Cmd :=
  leader_requests_locks ++
  maybe (step_side_locks "state_r" "fb_buffer_r" ++ step_side_locks "state_l" "fb_buffer_l" ++
         arm_and_hand_locks "state_r" ++ arm_and_hand_locks "state_l") ++
  leader_gate_locks ++ send_raw_locks ++ send_raw_locks ++ leader_print_locks.

(** The destructors of the objects with threads, in the reverse order of their
    declarations: every return after they have been declared. *)
Definition leader_destructors_locks : list Cmd :=
  server_stop_locks ++ receiver_stop_locks "fb_receiver_l" ++ receiver_stop_locks "fb_receiver_r".

(** Messages, the home positions and returns before there are other threads. *)
Definition leader_startup_locks (rest : list Cmd) : list Cmd :=
  [Loop log_locks; Either [] (maybe (log_locks ++ move_arms_locks ++ log_locks) ++ [Loop log_locks; Either [] rest])].

Definition leader_receivers_locks : list Cmd :=
  refresh_link_locks ++ log_locks ++ maybe log_locks ++
  receiver_new_locks ++ receiver_new_locks ++
  receiver_start_locks "fb_receiver_r" (leader_feedback_callback_locks "fb_buffer_r") ++
  receiver_start_locks "fb_receiver_l" (leader_feedback_callback_locks "fb_buffer_l").

Definition leader_server_locks : list Cmd :=
  (leader_handlers_locks ≫= fun _ => register_handler_locks) ++ server_start_locks leader_handlers_locks.

Definition leader_main_locks : list Cmd :=
  leader_startup_locks
    (maybe leader_receivers_locks ++
     [Either (log_locks ++ leader_destructors_locks)
        (maybe leader_server_locks ++
         [Either (log_locks ++ leader_destructors_locks)
            ([Loop leader_cycle_locks] ++
             receiver_stop_locks "fb_receiver_r" ++ receiver_stop_locks "fb_receiver_l" ++
             leader_destructors_locks)])]).

Definition leader_signal_locks : list Cmd := log_locks.

(** ** Bimanual follower *)

Definition reset_both_locks : list Cmd := reset_locks "safety_mgr_r" ++ reset_locks "safety_mgr_l".

Definition follower_status_locks : list Cmd :=
  get_state_locks "safety_mgr_r" ++ get_state_locks "safety_mgr_l".

Definition estop_both_locks : list Cmd :=
  trigger_estop_locks "safety_mgr_r" ++ trigger_estop_locks "safety_mgr_l".

Definition follower_handlers_locks : list (list Cmd) :=
  [follower_status_locks; []; goto_pose_locks; reset_both_locks; estop_both_locks; []; []].

(** A detached thread moves the arms and resets; or there is nothing to move. *)
Definition follower_move_locks (otherwise : list Cmd) : list Cmd :=
  [Either [Fork "detached" (move_arms_locks ++ reset_both_locks ++ log_locks)] (otherwise ++ log_locks)].

Definition follower_requests_locks : list Cmd :=
  maybe (log_locks ++ follower_move_locks reset_both_locks) ++
  maybe (log_locks ++ follower_move_locks reset_both_locks) ++
  maybe ([Guard "goto_pose_mutex" []] ++ log_locks ++ follower_move_locks []).

Definition follower_safety_locks (buf mgr : string) : list Cmd :=
  maybe (teleop_get_locks buf ++ safety_update_locks mgr).

(** The references of an enabled arm are read, limited and written back. *)
Definition follower_arm_locks (s : string) : list Cmd :=
  one_of [maybe (arm_and_hand_locks s ++ arm_and_hand_locks s) ++ unilateral_step_locks s;
          unilateral_step_locks s].

Definition follower_feedback_locks : list Cmd :=
  maybe (maybe (maybe log_locks) ++
         maybe (arm_and_hand_locks "state_r" ++ arm_and_hand_locks "state_l") ++
         teleop_get_locks "state_buffer_r" ++ teleop_get_locks "state_buffer_l" ++
         send_raw_locks ++ send_raw_locks).

(** The message is put together before it is logged. *)
Definition follower_print_locks : list Cmd :=
  maybe (teleop_get_locks "state_buffer_r" ++ teleop_get_locks "state_buffer_l" ++ log_locks).

Definition follower_telemetry_locks : list Cmd :=
  maybe (maybe (arm_and_hand_locks "state_r" ++ arm_and_hand_locks "state_l" ++
                arm_and_hand_locks "state_r" ++ arm_and_hand_locks "state_l")).

Definition follower_cycle_locks : list Cmd :=
  follower_requests_locks ++
  teleop_get_locks "state_buffer_r" ++ teleop_get_locks "state_buffer_l" ++
  follower_safety_locks "state_buffer_r" "safety_mgr_r" ++ follower_safety_locks "state_buffer_l" "safety_mgr_l" ++
  get_state_locks "safety_mgr_r" ++ get_state_locks "safety_mgr_l" ++
  maybe (follower_arm_locks "state_r" ++ follower_arm_locks "state_l") ++
  follower_feedback_locks ++ follower_print_locks ++ follower_telemetry_locks.

Definition follower_destructors_locks : list Cmd :=
  receiver_stop_locks "receiver_l" ++ receiver_stop_locks "receiver_r" ++ server_stop_locks.

Definition follower_server_locks : list Cmd :=
  (follower_handlers_locks ≫= fun _ => register_handler_locks) ++ server_start_locks follower_handlers_locks.

Definition follower_receivers_locks : list Cmd :=
  log_locks ++ receiver_new_locks ++ receiver_new_locks ++
  receiver_start_locks "receiver_r" (teleop_update_locks "state_buffer_r") ++
  receiver_start_locks "receiver_l" (teleop_update_locks "state_buffer_l").

(** Telemetry, the feedback path and the arms, with the returns between them. *)
Definition follower_arms_locks (rest : list Cmd) : list Cmd :=
  [Loop log_locks;
   Either follower_destructors_locks (maybe (log_locks ++ move_arms_locks ++ log_locks) ++ rest)].

Definition follower_main_locks : list Cmd :=
  [Loop log_locks;
   Either []
     (maybe follower_server_locks ++
      [Either (log_locks ++ server_stop_locks)
         (follower_receivers_locks ++
          [Either (log_locks ++ follower_destructors_locks)
             (follower_arms_locks
                ([Loop follower_cycle_locks] ++
                 receiver_stop_locks "receiver_r" ++ receiver_stop_locks "receiver_l" ++
                 follower_destructors_locks))])])].

Definition follower_signal_locks : list Cmd :=
  log_locks ++ maybe (trigger_estop_locks "safety_mgr_r") ++ maybe (trigger_estop_locks "safety_mgr_l").

(** ** VR leader *)

(** The packet is forwarded under the mutex. *)
Definition vr_callback_locks : list Cmd := [Either [] [Guard "vr_mutex" send_raw_locks]].
Definition tel_callback_locks : list Cmd := maybe (maybe [Guard "tel_mutex" []]).

Definition process_arm_locks : list Cmd := [Either [] (maybe (maybe log_locks ++ maybe (maybe log_locks)))].
Definition send_pkt_locks : list Cmd := maybe (maybe log_locks) ++ send_raw_locks.

Definition vr_cycle_locks : list Cmd :=
  [Guard "vr_mutex" []; Guard "tel_mutex" []] ++
  process_arm_locks ++ process_arm_locks ++ send_pkt_locks ++ send_pkt_locks.

Definition vr_main_locks : list Cmd :=
  [Loop log_locks;
   Either []
     (receiver_new_locks ++ receiver_start_locks "vr_receiver" vr_callback_locks ++
      receiver_new_locks ++ receiver_start_locks "tel_receiver" tel_callback_locks ++
      log_locks ++ [Loop vr_cycle_locks] ++
      receiver_stop_locks "vr_receiver" ++ receiver_stop_locks "tel_receiver" ++
      receiver_stop_locks "tel_receiver" ++ receiver_stop_locks "vr_receiver")].

(** ** Single-arm programs *)

Definition single_follower_cycle_locks : list Cmd :=
  teleop_get_locks "state_buffer" ++
  follower_safety_locks "state_buffer" "safety_mgr" ++
  get_state_locks "safety_mgr" ++
  maybe (follower_arm_locks "follower_state") ++
  maybe (teleop_get_locks "state_buffer" ++ teleop_get_locks "state_buffer" ++ log_locks).

Definition single_follower_main_locks : list Cmd :=
  log_locks ++ log_locks ++ log_locks ++ log_locks ++
  receiver_new_locks ++ receiver_start_locks "receiver" (teleop_update_locks "state_buffer") ++
  [Either (log_locks ++ receiver_stop_locks "receiver")
     [Either (log_locks ++ receiver_stop_locks "receiver")
        (maybe (log_locks ++ move_to_pose_locks "follower_state" ++ log_locks) ++
         [Loop single_follower_cycle_locks] ++
         receiver_stop_locks "receiver" ++ receiver_stop_locks "receiver")]].

Definition single_follower_signal_locks : list Cmd := log_locks ++ maybe (trigger_estop_locks "safety_mgr").

Definition single_leader_cycle_locks : list Cmd :=
  maybe (unilateral_step_locks "leader_state" ++ arm_and_hand_locks "leader_state") ++
  send_raw_locks ++ maybe log_locks.

Definition single_leader_main_locks : list Cmd :=
  log_locks ++ log_locks ++ log_locks ++ log_locks ++ log_locks ++ sender_new_locks ++
  [Either log_locks
     (maybe (log_locks ++ move_to_pose_locks "leader_state" ++ log_locks) ++
      [Loop single_leader_cycle_locks])].

Definition single_leader_signal_locks : list Cmd := log_locks.

(** ** Programs on one computer *)

Definition timer_thread_locks (on_timer : list Cmd) : list Cmd := [Loop on_timer].

Definition admin_on_timer_locks : list Cmd :=
  robot_state_locks "leader_state.arm_state_" ++ robot_state_locks "follower_state.arm_state_" ++
  robot_state_locks "leader_state.hand_state_" ++ robot_state_locks "follower_state.hand_state_" ++
  arm_and_hand_locks "leader_state" ++ arm_and_hand_locks "follower_state".

(** With [bilateral_step] or [unilateral_step] of an arm's thread. *)
Definition arm_threads_locks (arm_step : string -> list Cmd) : list Cmd :=
  [Either []
    [Fork "thread_l" (move_to_pose_locks "leader_state"); Fork "thread_f" (move_to_pose_locks "follower_state");
     Join "thread_l"; Join "thread_f";
     Fork "leader_thread" (timer_thread_locks (arm_step "leader_state"));
     Fork "follower_thread" (timer_thread_locks (arm_step "follower_state"));
     Fork "admin_thread" (timer_thread_locks admin_on_timer_locks);
     Join "leader_thread"; Join "follower_thread"; Join "admin_thread"]].

Definition bilateral_control_locks : list Cmd := arm_threads_locks bilateral_step_locks.
Definition unilateral_control_locks : list Cmd := arm_threads_locks unilateral_step_locks.

(** ** Property *)

(** Main thread and signal handler. The handlers of the VR leader and of the programs
    on one computer only clear [keep_running]. *)
Record LockProgram := mkLockProgram { main_locks : list Cmd; signal_locks : list Cmd }.

Definition motor_programs : list LockProgram :=
  [mkLockProgram follower_main_locks follower_signal_locks;
   mkLockProgram leader_main_locks leader_signal_locks;
   mkLockProgram single_follower_main_locks single_follower_signal_locks;
   mkLockProgram single_leader_main_locks single_leader_signal_locks].

Definition quiet_programs : list LockProgram :=
  [mkLockProgram vr_main_locks []; mkLockProgram bilateral_control_locks []; mkLockProgram unilateral_control_locks []].

Definition run_program (p : LockProgram) (es : list LockEvent) : option Threads :=
  lock_run (signal_locks p) es (program_start (main_locks p)).

(** The only mutex that is taken while another is held. *)
Definition lock_rank (m : Mutex) : nat := if decide (m = "log_mutex") then 1 else 0.

Lemma programs_ranked :
  forallb (fun p => locks_ranked lock_rank 2 (main_locks p)) (motor_programs ++ quiet_programs) = true.
Proof. vm_compute. reflexivity. Qed.

Lemma programs_no_deadlock p es ts :
  p ∈ motor_programs ++ quiet_programs -> signal_locks p = [] \/ forallb is_turn es = true ->
  run_program p es = Some ts -> no_deadlock ts.
Proof.
  intros Hp Hs Hr. eapply ranked_no_deadlock; [|exact Hs|exact Hr].
  pose proof programs_ranked as H. rewrite forallb_forall in H. by apply H, list_elem_of_In.
Qed.

(** A thread that wants a mutex which it holds. *)
Definition relocks (m : Mutex) (i : nat) (ts : Threads) : bool :=
  match ts !! i with
  | Some t => match todo t with Guard m' _ :: _ => bool_decide (m' = m /\ m ∈ held t) | _ => false end
  | None => false
  end.

Lemma relocks_waits m i ts : relocks m i ts = true -> self_deadlock ts i.
Proof.
  unfold relocks, self_deadlock, waits_for. destruct (ts !! i) as [t|] eqn:Hi; [|done].
  intros H. exists t. split; [done|]. destruct (todo t) as [|[] ?]; try done.
  apply bool_decide_eq_true in H as [-> H]. by exists t.
Qed.

(** SIGINT while [main] writes a message. *)
Definition interrupted_message : list LockEvent :=
  [Turn 0 true; Turn 0 true; Turn 0 true; Signal 0; Turn 0 true].
Definition interrupted_first_message : list LockEvent := [Turn 0 true; Turn 0 true; Signal 0; Turn 0 true].

(** SIGINT while the control loop updates the safety manager. *)
Definition interrupted_update (before : list bool) : list LockEvent :=
  (Turn 0 <$> before) ++ [Signal 0; Turn 0 false; Turn 0 true].
Definition follower_to_update : list bool :=
  replicate 17 false ++ [true] ++ replicate 7 false ++ [true] ++ replicate 3 false.
Definition single_to_update : list bool := replicate 11 false ++ [true; false; false; true] ++ replicate 3 false.

Lemma relocks_stays handler m i es ts ts' :
  forallb is_turn es = true -> lock_run handler es ts = Some ts' -> relocks m i ts = true -> relocks m i ts' = true.
Proof.
  intros He Hr H. destruct (self_deadlock_stays _ _ _ _ _ He Hr (relocks_waits _ _ _ H)) as [_ Hi].
  unfold relocks in *. by rewrite Hi.
Qed.

(** A run that ends with [main] wanting a mutex that it holds. *)
Definition relocking (p : LockProgram) (m : Mutex) (es : list LockEvent) : bool :=
  match run_program p es with Some ts => relocks m 0 ts | None => false end.

Lemma relocking_run p m es : relocking p m es = true -> exists ts, run_program p es = Some ts /\ relocks m 0 ts = true.
Proof. unfold relocking. destruct (run_program p es) as [ts|]; [|done]. intros H. by exists ts. Qed.

(** C21: The programs deadlock only on a signal. In the seven programs with threads,
    under every schedule, branch and number of rounds and with any number of requests
    and detached movements, a thread that cannot go on waits, directly or through
    others, for the mutex or the end of a thread that can: there is no circular wait.
    For the VR leader and the programs on one computer this includes any number of
    signals. In the four programs whose handler logs (and, in the followers, triggers
    the emergency stop) SIGINT can reach [main] while it writes a message or updates
    the safety manager; then [main] waits for itself, for ever and with the mutex held,
    whatever the other threads do. *)
Theorem deadlock_needs_signal :
  (forall p es ts, p ∈ motor_programs ++ quiet_programs ->
     signal_locks p = [] \/ forallb is_turn es = true ->
     run_program p es = Some ts -> no_deadlock ts) /\
  (forall p, p ∈ quiet_programs -> signal_locks p = []) /\
  (forall p, p ∈ motor_programs -> exists es ts, run_program p es = Some ts /\ relocks "log_mutex" 0 ts = true) /\
  (exists es ts, run_program (mkLockProgram follower_main_locks follower_signal_locks) es = Some ts /\
     relocks "safety_mgr_r.mutex_" 0 ts = true) /\
  (exists es ts, run_program (mkLockProgram single_follower_main_locks single_follower_signal_locks) es = Some ts /\
     relocks "safety_mgr.mutex_" 0 ts = true) /\
  (forall p m es ts es' ts', run_program p es = Some ts -> relocks m 0 ts = true ->
     forallb is_turn es' = true -> lock_run (signal_locks p) es' ts = Some ts' ->
     self_deadlock ts' 0 /\ relocks m 0 ts' = true).
Proof.
  split; [apply programs_no_deadlock|]. split; [|split; [|split; [|split]]].
  - intros p Hp. repeat (apply elem_of_cons in Hp as [->|Hp]; [done|]). by apply not_elem_of_nil in Hp.
  - assert (H : forallb (fun p => relocking p "log_mutex" interrupted_message || relocking p "log_mutex" interrupted_first_message)
                  motor_programs = true) by (vm_compute; reflexivity).
    intros p Hp. rewrite forallb_forall in H. rewrite list_elem_of_In in Hp.
    specialize (H p Hp). apply orb_true_iff in H as [H|H]; by eexists; apply relocking_run.
  - exists (interrupted_update follower_to_update). apply relocking_run. vm_compute. reflexivity.
  - exists (interrupted_update single_to_update). apply relocking_run. vm_compute. reflexivity.
  - intros p m es ts es' ts' _ H He Hr. pose proof (relocks_stays _ _ _ _ _ _ He Hr H). split; [by eapply relocks_waits|done].
Qed.

(** The follower's loop updates a safety manager while its server handles an estop. *)
Definition estop_during_update : list LockEvent :=
  (Turn 0 <$> [false; false; true] ++ replicate 14 false ++ [false; true; false; false] ++ replicate 7 false ++
     drop 10 follower_to_update) ++
  (Turn 1 <$> [true; false; true; false; false; false; false; false; false; false; true]).

Lemma deadlock_needs_signal_witness :
  exists ts, run_program (mkLockProgram follower_main_locks follower_signal_locks) estop_during_update = Some ts /\
    waits_for ts 1 0 /\ no_deadlock ts.
Proof.
  destruct (run_program (mkLockProgram follower_main_locks follower_signal_locks) estop_during_update) as [ts|] eqn:E;
    [|vm_compute in E; discriminate E].
  exists ts. split; [reflexivity|]. split.
  - vm_compute in E. injection E as <-. apply (bool_decide_unpack _). vm_compute. exact I.
  - apply (proj1 deadlock_needs_signal _ _ _) with (3 := E); [apply list_elem_of_here|right; reflexivity].
Defined.
